(* ===== verification/_CoqProject ===== *)
-Q . S2P
Prelude.v
Digits.v
JsString.v
Bytes.v
Crypto.v
Base58.v
JsInt.v
Bech32.v
Sha256.v
Sha1.v
Address.v
Tx.v
NodeTx.v
ScriptError.v
NodeScript.v
ScriptNum.v
Interpreter.v
CondStack.v
InterpFacts.v
Verify.v
VerifyFacts.v
InterpSafe.v
Spend.v
SoftFork.v
Validation.v
CheckInputs.v
Multisig.v
MultisigNode.v
BumpFee.v
Message.v
JsNum.v
JsNumFacts.v
NodeFee.v
Arith256.v
ConsensusParams.v
Chain.v
TxCheck.v
Policy.v
Block.v
Merkle.v
Coins.v
Undo.v
ProofOfStake.v
Retarget.v
BlockCheck.v
ConnectBlock.v
Supply.v
Reorg.v
Mempool.v
Package.v
Admission.v
JsNumText.v
Amount.v
Texts.v
Json.v
JsonFacts.v
Keys.v
World.v
Gateway.v
Async.v
Storage.v
Wallet.v
WalletFacts.v
SendScreen.v
SendFacts.v
SentLog.v
WalletNode.v
AddressBook.v
History.v
HistoryFacts.v
Staking.v
MultisigScreen.v
MultisigFlow.v
Watch.v
App.v
Lifecycle.v
QrScan.v
JsFormat.v
Explorer.v
ExplorerFacts.v
