(* ===== verification/Prelude.v ===== *)
(** * FirstIslamicCoin clients: a verification library (root file)

    The repository holds a proof-of-stake node (firstislamiccoin-core, C++), a
    browser wallet (firstislamiccoin-web-wallet, JavaScript), a block explorer
    page (firstislamiccoin-explorer, JavaScript), Python services, a mobile
    client and infrastructure files.  This library models the two JavaScript
    clients in full and, of the node, what happens to a transaction from its bytes
    to the memory pool (reading, hashing, the script interpreter and verifier, the
    consensus and policy checks, admission) and to a block that is checked,
    connected and disconnected (targets, proof of stake, merkle trees, coins, the
    supply).  All sources are under src/.

    ** The program

    The wallet keeps a recovery phrase, derives one key per address from it
    (crypto.js, deriveKey), shows addresses, and asks a gateway server
    (gateway.js) for coins, fee rates and history.  A payment selects coins,
    builds and signs a transaction (crypto.js, buildAndSignTransaction) and
    posts it; it is recorded so that its fee can be raised later
    (buildBumpFeeTransaction).  Several people can share an address
    (createMultisigRedeemScript); a proposal then travels as JSON text and each
    one adds a signature.  The phrase is stored plainly or encrypted under a PIN
    (storage.js).  Messages are signed and verified (message.js).  app.js wires
    all of this to the page; qr.js scans codes and sw.js shows notifications.
    The explorer asks its own server for blocks, transactions and addresses and
    draws them.

    A node that is offered a transaction (validation.cpp, MemPoolAccept) checks it
    by itself (tx_check.cpp), against its relay policy (policy.cpp) and against the
    coins (tx_verify.cpp), runs the scripts of every input twice, with the relay
    rules and with those of the next block (CheckInputScripts, VerifyScript,
    EvalScript), and adds it to the pool.  Several transactions can be offered as a
    package (packages.cpp, AcceptPackage), a child with its parents.

    A block is checked by itself (validation.cpp, CheckBlock: header, merkle root,
    the place of the coinstake, the block signature), against the chain before it
    (pow.cpp for the target, checkpoints, times) and, in ConnectBlock, against the
    coins: its proof of stake (pos.cpp), every transaction, the fees and the fixed
    reward.  ConnectBlock moves the set of unspent outputs on and records what it
    spent; DisconnectBlock takes the block back with these records.

    ** How code becomes definitions

    - A JavaScript function becomes a Rocq function of the same name; a click
      handler is named after its button (btn_send_confirm for btn-send-confirm).
    - Code that throws returns [res]: [Ok] or [Throw] with a [thrown] value.
    - Code that touches the page runs in the monad [M] of World.v: a state of
      localStorage, sessionStorage, element contents, the state object and the
      requests sent, kept also when a handler throws.  An asynchronous function
      that is started and not awaited, while its caller goes on to wait for
      something else, is a [Co] of Async.v: what waits for a reply is a task, and
      replies come in any order.
    - A string is its code units below 256 (JsString.v), a byte array a list of
      integers, a BigInt an integer, a Number an IEEE double (JsNum.v), a parsed
      JSON value a [js] (Json.v); the 32-bit operators are in JsInt.v, and
      number, date and query texts in JsFormat.v.
    - Third-party code is a class of functions with a class of laws, instantiated
      by a toy for the witnesses: [Crypto] (noble hashes and secp256k1), [Curve]
      (the node's libsecp256k1), [Hd] (BIP39 and BIP32), [Subtle] (Web Crypto),
      [Browser] (gateway replies, randomness, the user's answers).
    - The node's stateful readers are functions from the bytes left to a value
      and the rest, or a failure (NodeTx.v).
    - The node's scripts run in [script_res] (ScriptError.v): a value, an error
      code, or [Abort] for a failed assertion.  Its checks run in [check]
      (Validation.v): valid, invalid with result and reason, or a crash.  Flags
      are bit masks, amounts integers with the overflow checks of the code, fees
      go through doubles as CFeeRate computes them.
    - Checks of blocks run in [verdict] (Block.v): accepted, refused with result
      and reason, a plain false, or stopped by a failed assertion, an exception or
      a signed overflow.  Numbers of 256 bits are integers with the wrap-around
      written out, the set of coins is a finite map, an entry of the block index
      holds the entries it points to.  What a check writes into the block, the
      marks of passed checks, is part of its result; theorems ask that marks are
      true ([marks_ok], which CheckBlock keeps).

    ** Files

    Shared: Prelude (outcomes, lists, options, tactics), Digits (positional
    notation), JsString, JsInt, JsNum with JsNumFacts and JsNumText (rounding
    bounds, print and read back), Json with JsonFacts, JsFormat.

    crypto.js: Bytes (hex, compact sizes), Crypto (hash compositions), Base58,
    Bech32, Address (the constructors and decodeAddress), Tx (scripts,
    serialisation, signature hash, signing), Multisig, BumpFee, Keys.
    message.js: Message.  storage.js: Storage.  gateway.js: Gateway.
    qr.js, sw.js and the scan overlay: QrScan.

    Node, formats and hashes: Sha256 and Sha1 (crypto/), NodeTx (serialize.h,
    transaction.h), message verification in Message.
    Node, scripts: ScriptError (error codes, flags), NodeScript (script.cpp,
    signature hashes and encodings of interpreter.cpp, pubkey.cpp), ScriptNum
    (script.h), Interpreter (EvalScript and every opcode), Verify (Taproot,
    witness programs, VerifyScript, the transaction checker).
    Node, checks: Validation (results, coins), CheckInputs (CheckInputScripts,
    GetBlockScriptFlags), NodeFee (feerate.cpp, GetMinFee, sizes), TxCheck
    (tx_check.cpp, tx_verify.cpp), Policy (policy.cpp, solver.cpp), Mempool
    (PreChecks, PolicyScriptChecks, ConsensusScriptChecks, Finalize and
    AcceptSingleTransaction of validation.cpp), Package (packages.cpp and the
    submission of packages in validation.cpp).
    Node, blocks: Arith256 (compact targets), ConsensusParams (params.h, the main
    network, rewards), Chain (the block index, chain.cpp), Retarget (pow.cpp),
    ProofOfStake (pos.cpp), Block (headers, blocks, results), Merkle (merkle.cpp
    and the checks of both roots), Coins (coins.cpp, UpdateCoins,
    DisconnectBlock), BlockCheck (CheckBlock and the contextual checks),
    ConnectBlock.

    app.js: Amount and Texts (amounts, escaping, payment URIs), World (page and
    browser), Async (overlapping functions), Wallet (state, key table, home screen), SendScreen, AddressBook
    (contacts and receive screen), History, Staking, MultisigScreen, Watch, App
    (start, screens, onboarding, lock, settings and the list of events).
    Explorer page: Explorer.

    Proofs about the node: CondStack (the condition stack), InterpFacts and
    VerifyFacts (what accepted scripts show), InterpSafe (no failed assertion),
    SoftFork (flags), Admission (plain payments through every check), Undo (a
    block's transactions taken back), Supply (what blocks create), Reorg
    (ConnectBlock and then DisconnectBlock).

    Proofs across parts: Spend (payments against the node), MultisigNode,
    WalletNode (the wallet's transactions at the memory pool), WalletFacts (the
    key table), SendFacts (the send button), SentLog (from a payment to its
    replacement), HistoryFacts, MultisigFlow (proposals between devices),
    Lifecycle (the whole wallet page), ExplorerFacts.

    ** What the theorems show

    - Payments: what the send button posts is a transaction that the node reads
      in full, spends exactly the chosen coins with signatures the node accepts,
      pays each recipient the amount given, balances, and pays at least the
      gateway's rate for its real size (SendFacts).  Coin selection takes the
      shortest sufficient prefix.  Its record in localStorage reads back as what
      was sent, and a replacement built from it is a transaction that spends the
      same coins and pays every recipient the same (SentLog, BumpFee).
    - Admission: such a payment enters the memory pool of a node that holds its
      coins when it has fewer than 253 of them and 252 recipients, the gateway's
      rate is the network's and no output is dust; the node counts the fee and size the wallet computed (WalletNode).
    - The node's scripts: an output to a key hash, or to an m-of-n script, is
      spent only with the signatures it asks for (Spend, MultisigNode); every
      flag only restricts (SoftFork), so what passes the relay rules passes those
      of a block; no script makes a check of inputs fail an assertion
      (CheckInputs, InterpSafe); the compressed condition stack answers like the
      vector it replaces; script numbers read back.
    - The node's checks: a transaction that passes creates no value and no sum
      overflows (TxCheck); the pool never holds two spends of a coin, however
      transactions and packages are offered (Package).
    - The supply: a staked block creates exactly its reward, whatever its
      transactions and fees are, so that N staked blocks after the first leave
      14,000,000,000 + 10 N coins, less what was burned (Supply).
    - The chain: a block taken back restores the set of coins (Reorg); a header
      binds the transactions of its block unless two of the inputs hashed for
      the two trees collide (Merkle); jumping and walking find the
      same ancestor (Chain); every next target can be met and moves towards the
      spacing (Retarget); the capped product of target and value decides as the
      exact one, the kernel cache changes no answer, and what a staker finds every
      node accepts (ProofOfStake).
    - Formats: the node reads every transaction the wallet serialises, its own
      reader and writer are inverse, addresses decode to what they encode and are
      canonical, one substituted Bech32 symbol is always detected by the
      checksum, the node's streaming SHA-256 equals the one-shot definition.
    - Multisignature: signing one after the other equals merging, finalising
      works exactly when every input has enough cosigners, and a proposal passed
      as text between devices ends in a broadcast transaction, which the node
      accepts for scripts of one or two keys and refuses for more, although the
      signatures are right (MultisigFlow).
    - The page: on every page reachable by any sequence of events the key table,
      the stored phrase or its encryption, the address indices and the lock agree
      (Lifecycle); the history has what the gateway's first page lists for each
      address, free of repetitions and sorted; the banner counts exactly the new
      transactions; the staking screen settles in every order of the replies; the scanner calls back at most once and delivers the first code.
    - The explorer: amounts and times are exact, links and searches name what
      they lead to, and if loads do not overlap the page is the one of its
      location with at most one timer.
    - Flaws: theorems that prove a behaviour the code does not intend, among
      them a blank threshold that makes a shared address spendable by anyone,
      Bech32 checksums that are not verified, redeem scripts of three keys that
      cannot be spent (nor any of sixteen), change that the node refuses as dust,
      replacements that no node takes, blocks that only claim to be staked and
      create coins, spends of the last premine outputs that cannot be undone,
      a request sent without its token after a logout, histories cut at 50,
      backdated transactions free of maturity and fee, a flag of the block rules
      that nothing reads, amounts above 2^53 rounded, a created phrase that stays on a locked
      page, pages and timers of the explorer that outlive their location.

    ** Fuel and bounds

    Loops that are not structural take fuel: the length of the bytes for parsers
    and scripts, which consume at least one each step, the bit length for digits,
    seventeen digits for the shortest decimal of a double (proved enough in
    JsNumText), twice the text for the JSON reader (proved enough in JsonFacts),
    two rounds for loadStaking (proved enough: the second one is logged out), the
    number of leaves for a merkle tree, which has fewer of them each turn (Merkle).
    Walks over the block index recurse on the entries themselves.
    The quiz of the recovery phrase draws until it has three distinct words; its
    event carries a bound on the draws, and the theorems hold for every bound.
    Bounds in
    statements are those of the code: 2^53 where a Number holds an amount, 253
    inputs or outputs where the size estimate assumes one-byte counts, the
    node's MAX_SIZE, the year 9999 for times.

    ** Not modelled

    - Interleavings of two events of the wallet around an await: a handler runs
      to completion before the next event, with the replies of the functions it
      started in one fixed order.  (Within loadStaking every order is covered, and
      the explorer's loads do overlap.)
    - Code units above 255; texts of engine errors are abbreviated.
    - Locale texts of plain numbers and dates, drawing on the canvas, the QR
      codec, push registration: answers of [Browser].
    - Of the memory pool: ancestor and package limits and eviction are functions
      of the node state, reorganisations are left out; the script execution cache
      is a predicate on its entries.
    - Of blocks: scrypt, the solution of a signet block, the script cache and
      queue, the choice below a block assumed valid, active deployments and the
      last checkpoint in the index are arguments.  The layers of the coin cache
      are read as the set they stand for; undo data are taken to be written and
      read back.  AcceptBlock, the choice of the best chain and block files are
      left out, so that a reorganisation is one ConnectBlock or DisconnectBlock
      after another.
    - The rest of the node (networking, mining and staking threads, wallet, RPC,
      GUI, vendored libraries), the Python services and the Dart client: other
      programs, which the clients reach only through the interfaces above.
    - The .ts files of the desktop wallet: Qt translation catalogues without
      behaviour. *)

From stdpp Require Export base list numbers option strings gmap.
From Stdlib Require Export ZArith Lia Ascii.
From Stdlib Require String.

#[global] Set Warnings "-notation-overridden".

Open Scope Z_scope.
Open Scope list_scope.

(** ** Thrown values

    JavaScript code of the wallet throws either a plain [Error] with a message,
    or the gateway client's [GatewayError] which carries a code as well; the
    engine itself throws a [TypeError]/[RangeError]/[SyntaxError] for malformed
    operations.  [res] is the outcome of code that may throw. *)

Inductive thrown : Type :=
  | JsError (message : string)
  | GatewayError (code message : string)
  | EngineError (message : string).

Inductive res (A : Type) : Type :=
  | Ok (a : A)
  | Throw (e : thrown).
Arguments Ok {A} a.
Arguments Throw {A} e.

#[global] Instance thrown_eq_dec : EqDecision thrown.
Proof. solve_decision. Defined.

#[global] Instance res_eq_dec {A} `{EqDecision A} : EqDecision (res A).
Proof. solve_decision. Defined.

#[global] Instance res_ret : MRet res := fun A a => Ok a.
#[global] Instance res_bind : MBind res := fun A B f m =>
  match m with Ok a => f a | Throw e => Throw e end.
#[global] Instance res_fmap : FMap res := fun A B f m =>
  match m with Ok a => Ok (f a) | Throw e => Throw e end.

(** [if (c) throw e] *)
Definition throw_if (c : bool) (e : thrown) : res unit :=
  if c then Throw e else Ok tt.

Definition is_ok {A} (r : res A) : bool :=
  match r with Ok _ => true | Throw _ => false end.

(** A loop or [Array.prototype.map] whose body may throw. *)
Fixpoint mapR {A B} (f : A -> res B) (l : list A) : res (list B) :=
  match l with
  | [] => Ok []
  | x :: l => y ← f x; ys ← mapR f l; Ok (y :: ys)
  end.

(** A loop that updates a state at every element and may throw. *)
Fixpoint foldR {S A} (f : S -> A -> res S) (s : S) (l : list A) : res S :=
  match l with
  | [] => Ok s
  | x :: l => s' ← f s x; foldR f s' l
  end.

Lemma res_bind_ok {A B} (m : res A) (f : A -> res B) b :
  m ≫= f = Ok b -> exists a, m = Ok a /\ f a = Ok b.
Proof. destruct m; [by eauto | done]. Qed.

Lemma Ok_inj {A} (a b : A) : Ok a = Ok b -> a = b.
Proof. by intros [= ->]. Qed.

Lemma throw_if_ok c e u : throw_if c e = Ok u -> c = false.
Proof. by destruct c. Qed.

Lemma mapR_ok {A B} (f : A -> res B) l ys :
  mapR f l = Ok ys <-> Forall2 (fun x y => f x = Ok y) l ys.
Proof.
  revert ys. induction l as [|x l IH]; intros ys; simpl.
  - split; [intros [= <-]; constructor | by inversion 1].
  - split.
    + intros (y & Hy & (ys' & Hl & [= <-])%res_bind_ok)%res_bind_ok.
      constructor; [done | by apply IH].
    + inversion 1 as [|? y ? ys' Hy Hl]; subst. rewrite Hy; simpl.
      by rewrite (proj2 (IH ys') Hl).
Qed.

Lemma mapR_pure {A B} (f : A -> res B) (g : A -> B) l :
  Forall (fun x => f x = Ok (g x)) l -> mapR f l = Ok (g <$> l).
Proof. induction 1 as [|x l Hx _ IH]; simpl; [done|]. by rewrite Hx; simpl; rewrite IH. Qed.

Lemma mapR_is_ok {A B} (f : A -> res B) l : is_ok (mapR f l) = true <-> Forall (fun x => is_ok (f x) = true) l.
Proof.
  induction l as [|x l IH]; simpl; [by split|]. rewrite Forall_cons, <-IH.
  destruct (f x); simpl; [|by split; [|intros [? _]]].
  destruct (mapR f l); simpl; by split; [|intros [_ ?]].
Qed.

(** ** Hint databases

    [bytes] proves that a byte array is well formed, the rewriting database
    [js] normalises the library calls the sources make. *)

Create HintDb bytes.
Create Rewrite HintDb js.

(** ** Tactics *)

(** Split every successful bind of a hypothesis and the guards in front of it. *)
Ltac res_inv :=
  repeat match goal with
  | H : mbind _ _ = Ok _ |- _ => apply res_bind_ok in H; destruct H as (? & ? & ?)
  | H : throw_if _ _ = Ok _ |- _ => apply throw_if_ok in H
  | H : Ok _ = Ok _ |- _ => injection H as H
  | H : Throw _ = Ok _ |- _ => discriminate H
  | H : Ok _ = Throw _ |- _ => discriminate H
  end; simplify_eq/=.

(** Turn the boolean tests of the source into propositions. *)
Ltac b2p :=
  repeat match goal with
  | H : (_ && _)%bool = true |- _ => apply andb_true_iff in H; destruct H
  | H : (_ || _)%bool = false |- _ => apply orb_false_iff in H; destruct H
  | H : negb _ = true |- _ => apply negb_true_iff in H
  | H : negb _ = false |- _ => apply negb_false_iff in H
  | H : Z.eqb _ _ = true |- _ => apply Z.eqb_eq in H
  | H : Z.eqb _ _ = false |- _ => apply Z.eqb_neq in H
  | H : Z.leb _ _ = true |- _ => apply Z.leb_le in H
  | H : Z.leb _ _ = false |- _ => apply Z.leb_gt in H
  | H : Z.ltb _ _ = true |- _ => apply Z.ltb_lt in H
  | H : Z.ltb _ _ = false |- _ => apply Z.ltb_ge in H
  | H : Nat.eqb _ _ = true |- _ => apply Nat.eqb_eq in H
  | H : Nat.eqb _ _ = false |- _ => apply Nat.eqb_neq in H
  | H : String.eqb _ _ = true |- _ => apply String.eqb_eq in H
  | H : String.eqb _ _ = false |- _ => apply String.eqb_neq in H
  | H : bool_decide _ = true |- _ => apply bool_decide_eq_true in H
  | H : bool_decide _ = false |- _ => apply bool_decide_eq_false in H
  end.

Definition is_someb {A} (o : option A) : bool := match o with Some _ => true | None => false end.

(** ** Lists *)

(** A finite check of a bounded quantifier over [Z], for [vm_compute]. *)
Lemma forallb_seqZ (P : Z -> bool) m n :
  forallb P (seqZ m n) = true -> forall i, m <= i < m + n -> P i = true.
Proof.
  intros H i Hi. rewrite forallb_forall in H. apply H.
  apply list_elem_of_In, elem_of_seqZ. lia.
Qed.

(** Number of leading elements that satisfy [p]: the [while] loops that count
    leading zero bytes and leading ['1'] characters. *)
Fixpoint count_leading {A} (p : A -> bool) (l : list A) : nat :=
  match l with
  | [] => O
  | x :: l => if p x then S (count_leading p l) else O
  end.

Lemma count_leading_replicate {A} (p : A -> bool) n x l :
  p x = true -> count_leading p (replicate n x ++ l) = (n + count_leading p l)%nat.
Proof. intros Hx. induction n; simpl; [done|]. by rewrite Hx, IHn. Qed.

Lemma count_leading_split {A} (p : A -> bool) l :
  exists l1 l2, l = l1 ++ l2 /\ Forall (fun x => p x = true) l1 /\
    length l1 = count_leading p l /\ match l2 with [] => True | y :: _ => p y = false end.
Proof.
  induction l as [|x l (l1 & l2 & -> & Hl1 & Hlen & Hl2)]; simpl.
  - by exists [], [].
  - destruct (p x) eqn:Hx.
    + exists (x :: l1), l2. simpl. by rewrite Hlen; repeat constructor.
    + exists [], (x :: l1 ++ l2). by repeat constructor.
Qed.

Lemma mjoin_cons {A} (x : list A) l : mjoin (x :: l) = x ++ mjoin l.
Proof. done. Qed.

Definition sumZ (l : list Z) : Z := foldr Z.add 0 l.

Lemma sumZ_app l1 l2 : sumZ (l1 ++ l2) = sumZ l1 + sumZ l2.
Proof. induction l1; simpl; [done|]. unfold sumZ in *. lia. Qed.

Lemma sumZ_nonneg l : Forall (fun x => 0 <= x) l -> 0 <= sumZ l.
Proof. induction 1; simpl; unfold sumZ in *; lia. Qed.
