(* ===== verification/Digits.v ===== *)
(** * Positional notation

    Every textual and binary integer format of the wallet (Base58, hexadecimal,
    decimal, big-endian bytes) is produced by the same loop,
    [while (n > 0) { emit(n % base); n /= base; }] with the digits prepended,
    and read back by the loop [acc = acc * base + digit].  This file holds the
    two loops and the lemmas that make them inverse to each other. *)

From S2P Require Import Prelude.

Open Scope Z_scope.
Open Scope list_scope.

Fixpoint digits_loop (fuel : nat) (base n : Z) (out : list Z) : list Z :=
  match fuel with
  | O => out
  | S fuel => if n >? 0 then digits_loop fuel base (n / base) (n mod base :: out) else out
  end.

(** Each turn at least halves [n], so [log2 n + 1] turns are enough. *)
Definition digits (base n : Z) : list Z :=
  digits_loop (Z.to_nat (Z.log2 n + 1)) base n [].

Definition undigits (base : Z) (ds : list Z) : Z :=
  foldl (fun acc d => acc * base + d) 0 ds.

(** ** The reading loop *)

Lemma undigits_foldl base ds acc :
  foldl (fun acc d => acc * base + d) acc ds =
  acc * base ^ Z.of_nat (length ds) + undigits base ds.
Proof.
  unfold undigits. revert acc. induction ds as [|d ds IH]; intros acc; simpl foldl.
  - simpl. lia.
  - rewrite IH, (IH (0 * base + d)). simpl length. rewrite Nat2Z.inj_succ, Z.pow_succ_r by lia. ring.
Qed.

Lemma undigits_app base l1 l2 :
  undigits base (l1 ++ l2) = undigits base l1 * base ^ Z.of_nat (length l2) + undigits base l2.
Proof. unfold undigits at 1. by rewrite foldl_app, undigits_foldl. Qed.

Lemma undigits_cons base d ds :
  undigits base (d :: ds) = d * base ^ Z.of_nat (length ds) + undigits base ds.
Proof.
  unfold undigits at 1; simpl foldl. rewrite undigits_foldl. lia.
Qed.

Lemma undigits_snoc base ds d : undigits base (ds ++ [d]) = undigits base ds * base + d.
Proof. unfold undigits. by rewrite foldl_app. Qed.

Lemma undigits_zeros base n ds : undigits base (replicate n 0 ++ ds) = undigits base ds.
Proof.
  induction n as [|n IH]; simpl; [done|]. rewrite undigits_cons, IH. lia.
Qed.

Definition digits_ok (base : Z) (ds : list Z) : Prop := Forall (fun d => 0 <= d < base) ds.

Lemma undigits_bound base ds :
  1 <= base -> digits_ok base ds -> 0 <= undigits base ds < base ^ Z.of_nat (length ds).
Proof.
  intros Hb. induction 1 as [|d ds Hd _ IH]; [unfold undigits; simpl; lia|].
  rewrite undigits_cons. simpl length. rewrite Nat2Z.inj_succ, Z.pow_succ_r by lia. nia.
Qed.

Lemma undigits_pos base d ds :
  1 <= base -> 0 < d -> digits_ok base ds -> 0 < undigits base (d :: ds).
Proof.
  intros Hb Hd Hds. rewrite undigits_cons.
  pose proof (undigits_bound base ds Hb Hds). nia.
Qed.

(** ** The writing loop *)

Lemma digits_loop_out fuel base n out :
  digits_loop fuel base n out = digits_loop fuel base n [] ++ out.
Proof.
  revert n out. induction fuel as [|fuel IH]; intros n out; simpl; [done|].
  destruct (n >? 0); [|done].
  rewrite IH, (IH _ [_]), <-app_assoc. done.
Qed.

Lemma digits_loop_fuel base f1 f2 n :
  2 <= base -> n < 2 ^ Z.of_nat f1 -> n < 2 ^ Z.of_nat f2 ->
  digits_loop f1 base n [] = digits_loop f2 base n [].
Proof.
  intros Hb. revert f2 n. induction f1 as [|f1 IH]; intros f2 n H1 H2.
  - destruct f2; simpl; [done|]. destruct (Z.gtb_spec n 0); [simpl in H1; lia|done].
  - destruct f2 as [|f2]; simpl.
    + destruct (Z.gtb_spec n 0); [simpl in H2; lia|done].
    + destruct (Z.gtb_spec n 0); [|done].
      rewrite (digits_loop_out f1), (digits_loop_out f2). f_equal.
      rewrite Nat2Z.inj_succ, Z.pow_succ_r in H1, H2 by lia.
      apply IH; (apply Z.div_lt_upper_bound; [lia|nia]).
Qed.

Lemma digits_fuel_enough n : n < 2 ^ Z.of_nat (Z.to_nat (Z.log2 n + 1)).
Proof.
  destruct (Z.le_gt_cases n 0).
  - pose proof (Z.pow_pos_nonneg 2 (Z.of_nat (Z.to_nat (Z.log2 n + 1)))). lia.
  - pose proof (Z.log2_spec n). pose proof (Z.log2_nonneg n).
    rewrite Z2Nat.id by lia. rewrite Z.add_1_r. lia.
Qed.

Lemma digits_nonpos base n : n <= 0 -> digits base n = [].
Proof.
  intros Hn. unfold digits. destruct (Z.to_nat _); simpl; [done|].
  destruct (Z.gtb_spec n 0); [lia|done].
Qed.

Lemma digits_step base n :
  2 <= base -> 0 < n -> digits base n = digits base (n / base) ++ [n mod base].
Proof.
  intros Hb Hn. unfold digits at 1.
  pose proof (Z.log2_spec n Hn). pose proof (Z.log2_nonneg n).
  replace (Z.to_nat (Z.log2 n + 1)) with (S (Z.to_nat (Z.log2 n))) by lia.
  simpl. destruct (Z.gtb_spec n 0); [|lia]. rewrite digits_loop_out. f_equal.
  apply digits_loop_fuel; [done| |apply digits_fuel_enough].
  rewrite Z2Nat.id by lia. apply Z.div_lt_upper_bound; [lia|].
  rewrite Z.pow_succ_r in * by lia. nia.
Qed.

(** Induction that follows the loop. *)
Lemma digits_ind base (Hb : 2 <= base) (P : Z -> Prop) :
  (forall n, n <= 0 -> P n) -> (forall n, 0 < n -> P (n / base) -> P n) ->
  forall n, P n.
Proof.
  intros H0 Hs n. destruct (Z.le_gt_cases n 0) as [|Hn]; [by apply H0|].
  assert (0 <= n) as Hn0 by lia. revert Hn. revert n Hn0.
  apply (Zlt_0_ind (fun n => 0 < n -> P n)).
  intros m IH Hm Hm0. apply Hs; [done|].
  destruct (Z.le_gt_cases (m / base) 0); [by apply H0|].
  apply IH; [|done]. split; [lia|]. apply Z.div_lt; lia.
Qed.

Lemma digits_bound base n : 2 <= base -> digits_ok base (digits base n).
Proof.
  intros Hb. induction n as [n Hn|n Hn IH] using (digits_ind base Hb).
  - rewrite digits_nonpos by done. constructor.
  - rewrite digits_step by done. apply Forall_app. split; [done|].
    repeat constructor; apply Z.mod_pos_bound; lia.
Qed.

(** Writing a number and reading it back gives the number. *)
Lemma undigits_digits base n : 2 <= base -> 0 <= n -> undigits base (digits base n) = n.
Proof.
  intros Hb. induction n as [n Hn|n Hn IH] using (digits_ind base Hb); intros H0.
  - rewrite digits_nonpos by done. unfold undigits; simpl. lia.
  - rewrite digits_step, undigits_snoc, IH by (try apply Z.div_pos; lia).
    rewrite (Z.div_mod n base) at 3 by lia. lia.
Qed.

(** Reading a canonical digit list (no leading zero) and writing it back gives
    the list. *)
Lemma digits_undigits base ds :
  2 <= base -> digits_ok base ds -> (match ds with [] => True | d :: _ => d <> 0 end) ->
  digits base (undigits base ds) = ds.
Proof.
  intros Hb Hds. induction ds as [|d ds IH] using rev_ind; intros Hhd; [done|].
  apply Forall_app in Hds as [Hds Hd]. apply Forall_cons_1 in Hd as [Hd _].
  rewrite undigits_snoc.
  pose proof (undigits_bound base ds ltac:(lia) Hds) as Hub.
  assert (0 < undigits base ds * base + d) as Hpos.
  { destruct ds as [|d' ds']; simpl in Hhd.
    - unfold undigits; simpl; lia.
    - apply Forall_cons_1 in Hds as [Hd' Hds'].
      pose proof (undigits_pos base d' ds' ltac:(lia) ltac:(lia) Hds'). nia. }
  rewrite digits_step by done.
  rewrite (Z.add_comm _ d), Z.div_add, Z.mod_add by lia.
  rewrite Z.div_small, Z.mod_small by lia. simpl. f_equal. apply IH; [done|].
  destruct ds; [done|]. exact Hhd.
Qed.

(** The first digit written is never zero. *)
Definition no_leading_zero (ds : list Z) : Prop :=
  match ds with [] => True | d :: _ => d <> 0 end.

Lemma digits_head base n : 2 <= base -> no_leading_zero (digits base n).
Proof.
  intros Hb. induction n as [n Hn|n Hn IH] using (digits_ind base Hb).
  - by rewrite digits_nonpos.
  - rewrite digits_step by done. destruct (digits base (n / base)) as [|d ds] eqn:Hd; simpl; [|done].
    destruct (Z.le_gt_cases (n / base) 0) as [Hle|Hgt].
    + assert (n / base = 0) by (pose proof (Z.div_pos n base); lia).
      apply Z.div_small_iff in H; [|lia]. rewrite Z.mod_small; lia.
    + rewrite digits_step in Hd by lia. by destruct (digits base (n / base / base)).
Qed.

Lemma digits_length_le base n k :
  2 <= base -> n < base ^ Z.of_nat k -> (length (digits base n) <= k)%nat.
Proof.
  intros Hb. revert k. induction n as [n Hn|n Hn IH] using (digits_ind base Hb); intros k Hk.
  - rewrite digits_nonpos by done. simpl. lia.
  - rewrite digits_step, length_app by done. simpl.
    destruct k as [|k]; [simpl in Hk; lia|].
    rewrite Nat2Z.inj_succ, Z.pow_succ_r in Hk by lia.
    assert (length (digits base (n / base)) <= k)%nat; [|lia].
    apply IH. apply Z.div_lt_upper_bound; lia.
Qed.

(** The written digits of numbers below a power, padded to that many digits. *)
Lemma undigits_inj base l1 l2 :
  2 <= base -> digits_ok base l1 -> digits_ok base l2 -> length l1 = length l2 ->
  undigits base l1 = undigits base l2 -> l1 = l2.
Proof.
  intros Hb. revert l2. induction l1 as [|a l1 IH] using rev_ind; intros l2 H1 H2 Hlen Heq.
  - by destruct l2.
  - destruct l2 as [|b l2 _] using rev_ind; [rewrite length_app in Hlen; simpl in Hlen; lia|].
    rewrite !length_app in Hlen. rewrite !undigits_snoc in Heq.
    apply Forall_app in H1 as [H1 [Ha _]%Forall_cons_1], H2 as [H2 [Hb' _]%Forall_cons_1].
    assert (undigits base l1 = undigits base l2 /\ a = b) as [Hu ->].
    { assert (undigits base l1 = undigits base l2); nia. }
    f_equal. apply IH; try done. simpl in Hlen. lia.
Qed.
