(* ===== verification/JsString.v ===== *)
(** * JavaScript strings

    A JavaScript string is a sequence of UTF-16 code units.  The library models
    the strings whose code units are below 256 (every address, hash, number,
    Base64 text and binary string of the wallet is one) as Rocq [string]s, one
    [ascii] per code unit.  The operations below are the methods of
    [String.prototype], [Number] and [BigInt] the sources call. *)

From S2P Require Import Prelude Digits.
From Stdlib Require String.

Open Scope Z_scope.
Open Scope list_scope.

Definition chars (s : string) : list ascii := String.list_ascii_of_string s.
Definition str (l : list ascii) : string := String.string_of_list_ascii l.

(** [s.charCodeAt(i)] of one code unit and [String.fromCharCode]. *)
Definition code (c : ascii) : Z := Z.of_N (N_of_ascii c).
Definition chr (z : Z) : ascii := ascii_of_N (Z.to_N z).

Definition strlen (s : string) : Z := Z.of_nat (length (chars s)).

(** [s.indexOf(ch)] on one character; [-1] when absent. *)
Fixpoint index_in (l : list ascii) (c : ascii) (i : Z) : Z :=
  match l with
  | [] => -1
  | x :: l => if Ascii.eqb x c then i else index_in l c (i + 1)
  end.
Definition indexOf (s : string) (c : ascii) : Z := index_in (chars s) c 0.

(** [s.lastIndexOf(ch)] on one character. *)
Definition lastIndexOf (s : string) (c : ascii) : Z :=
  let i := index_in (reverse (chars s)) c 0 in
  if i =? -1 then -1 else strlen s - 1 - i.

(** [s[i]] for an index that is in range; [None] stands for [undefined]. *)
Definition char_at (s : string) (i : Z) : option ascii :=
  if (0 <=? i) then chars s !! Z.to_nat i else None.

(** [slice(from, to)]: negative positions count from the end, out-of-range
    positions are clamped. *)
Definition slice_pos (len i : Z) : Z := if i <? 0 then Z.max (len + i) 0 else Z.min i len.
Definition slice_list {A} (l : list A) (from to : Z) : list A :=
  let len := Z.of_nat (length l) in
  let f := slice_pos len from in
  let t := slice_pos len to in
  take (Z.to_nat (t - f)) (drop (Z.to_nat f) l).
Definition slice (s : string) (from to : Z) : string := str (slice_list (chars s) from to).
Definition slice_from (s : string) (from : Z) : string := slice s from (strlen s).

(** [String.prototype.trim]: the white space and line terminators below 256. *)
Definition is_space (c : ascii) : bool :=
  let z := code c in ((9 <=? z) && (z <=? 13)) || (z =? 32) || (z =? 160).
Fixpoint drop_spaces (l : list ascii) : list ascii :=
  match l with
  | [] => []
  | c :: l' => if is_space c then drop_spaces l' else l
  end.
Definition trim (s : string) : string :=
  str (reverse (drop_spaces (reverse (drop_spaces (chars s))))).

(** [toLowerCase] on code units below 256. *)
Definition lower (c : ascii) : ascii :=
  let z := code c in
  if ((65 <=? z) && (z <=? 90)) || ((192 <=? z) && (z <=? 222) && negb (z =? 215))
  then chr (z + 32) else c.
Definition toLowerCase (s : string) : string := str (lower <$> chars s).

Definition startsWith (s p : string) : bool := String.prefix p s.

(** [s.split(sep)] for a one-character separator. *)
Fixpoint split_list (sep : ascii) (l cur : list ascii) : list (list ascii) :=
  match l with
  | [] => [reverse cur]
  | c :: l => if Ascii.eqb c sep then reverse cur :: split_list sep l [] else split_list sep l (c :: cur)
  end.
Definition split (s : string) (sep : ascii) : list string := str <$> split_list sep (chars s) [].

Fixpoint str_join (sep : string) (l : list string) : string :=
  match l with
  | [] => String.EmptyString
  | [s] => s
  | s :: l => s +:+ sep +:+ str_join sep l
  end.

Definition repeat_char (n : nat) (c : ascii) : string := str (replicate n c).
Definition padStart (n : nat) (c : ascii) (s : string) : string :=
  repeat_char (n - length (chars s)) c +:+ s.

(** ** Numerals *)

(** One digit of [toString(radix)]: [0-9] then [a-z]. *)
Definition digit_char (d : Z) : ascii := if d <? 10 then chr (48 + d) else chr (87 + d).

(** The value of a digit character in any radix up to 36; [-1] for none. *)
Definition digit_val (c : ascii) : Z :=
  let z := code c in
  if (48 <=? z) && (z <=? 57) then z - 48
  else if (97 <=? z) && (z <=? 122) then z - 87
  else if (65 <=? z) && (z <=? 90) then z - 55
  else -1.

(** [BigInt.prototype.toString(radix)] (and [Number]'s, on integers). *)
Definition toString_radix (radix n : Z) : string :=
  if n =? 0 then "0"
  else if n <? 0 then "-" +:+ str (digit_char <$> digits radix (- n))
  else str (digit_char <$> digits radix n).
Definition toString (n : Z) : string := toString_radix 10 n.

Definition is_digit (radix : Z) (c : ascii) : bool :=
  let d := digit_val c in (0 <=? d) && (d <? radix).

(** The longest prefix of digits, as a value. *)
Fixpoint digit_prefix (radix : Z) (l : list ascii) : list Z :=
  match l with
  | c :: l => if is_digit radix c then digit_val c :: digit_prefix radix l else []
  | [] => []
  end.

(** [parseInt(s, radix)]; [None] is [NaN].  With radix 16 an optional [0x] or
    [0X] prefix is skipped. *)
Definition skip_sign (l : list ascii) : Z * list ascii :=
  match l with
  | c :: l' => if Ascii.eqb c "-" then (-1, l') else if Ascii.eqb c "+" then (1, l') else (1, l)
  | [] => (1, l)
  end.
Definition skip_0x (l : list ascii) : list ascii :=
  match l with
  | z :: x :: l' => if Ascii.eqb z "0" && (Ascii.eqb x "x" || Ascii.eqb x "X") then l' else l
  | _ => l
  end.
Definition parseInt (s : string) (radix : Z) : option Z :=
  let '(sign, l) := skip_sign (drop_spaces (chars s)) in
  let l := if radix =? 16 then skip_0x l else l in
  match digit_prefix radix l with
  | [] => None
  | ds => Some (sign * undigits radix ds)
  end.

(** [BigInt(s)] on a string: white space is trimmed, the empty string is [0n],
    a decimal numeral may carry a sign, [0x]/[0o]/[0b] numerals may not; anything
    else is a [SyntaxError]. *)
Definition parse_nat_all (radix : Z) (l : list ascii) : option Z :=
  if forallb (is_digit radix) l && negb (length l =? 0)%nat
  then Some (undigits radix (digit_val <$> l)) else None.
Definition parse_prefixed (l : list ascii) : option Z :=
  match l with
  | z :: x :: l' =>
      if Ascii.eqb z "0" then
        let x := lower x in
        if Ascii.eqb x "x" then parse_nat_all 16 l'
        else if Ascii.eqb x "o" then parse_nat_all 8 l'
        else if Ascii.eqb x "b" then parse_nat_all 2 l'
        else None
      else None
  | _ => None
  end.
Definition BigInt_of_string (s : string) : res Z :=
  let l := chars (trim s) in
  let plain := let '(sign, l) := skip_sign l in (fun n => sign * n) <$> parse_nat_all 10 l in
  match l with
  | [] => Ok 0
  | _ => match plain with
         | Some n => Ok n
         | None => match parse_prefixed l with
                   | Some n => Ok n
                   | None => Throw (EngineError ("Cannot convert " +:+ s +:+ " to a BigInt"))
                   end
         end
  end.

(** ** Lemmas *)

Lemma chars_str l : chars (str l) = l.
Proof. apply String.list_ascii_of_string_of_list_ascii. Qed.

Lemma str_chars s : str (chars s) = s.
Proof. apply String.string_of_list_ascii_of_string. Qed.

Lemma chars_app s t : chars (s +:+ t) = chars s ++ chars t.
Proof. induction s as [|c s IH]; simpl; [done|]. unfold chars in *. simpl. by rewrite IH. Qed.

Lemma str_app l1 l2 : str (l1 ++ l2) = str l1 +:+ str l2.
Proof. induction l1 as [|c l IH]; simpl; [done|]. unfold str in *; simpl. by rewrite IH. Qed.

Lemma chars_inj s t : chars s = chars t -> s = t.
Proof. intros H. by rewrite <-(str_chars s), <-(str_chars t), H. Qed.

Lemma str_inj l1 l2 : str l1 = str l2 -> l1 = l2.
Proof. intros H. by rewrite <-(chars_str l1), <-(chars_str l2), H. Qed.

Lemma code_bound c : 0 <= code c < 256.
Proof. unfold code. pose proof (N_ascii_bounded c). lia. Qed.

Lemma chr_code c : chr (code c) = c.
Proof. unfold chr, code. rewrite N2Z.id. apply ascii_N_embedding. Qed.

Lemma code_chr z : 0 <= z < 256 -> code (chr z) = z.
Proof. intros Hz. unfold chr, code. rewrite N_ascii_embedding; lia. Qed.

Lemma code_inj c d : code c = code d -> c = d.
Proof. intros H. by rewrite <-(chr_code c), <-(chr_code d), H. Qed.

Lemma strlen_str l : strlen (str l) = Z.of_nat (length l).
Proof. unfold strlen. by rewrite chars_str. Qed.

Lemma eqb_ascii_refl c : Ascii.eqb c c = true.
Proof. apply Ascii.eqb_refl. Qed.

Lemma index_in_spec l c i :
  NoDup l -> forall k, l !! k = Some c -> index_in l c i = i + Z.of_nat k.
Proof.
  intros Hnd. revert i. induction Hnd as [|x l Hx Hnd IH]; intros i k Hk; [done|].
  destruct k as [|k]; simpl in *.
  - injection Hk as ->. rewrite eqb_ascii_refl. lia.
  - destruct (Ascii.eqb_spec x c) as [->|].
    + exfalso. apply Hx. by apply list_elem_of_lookup_2 in Hk.
    + rewrite (IH (i + 1) k Hk). lia.
Qed.

Lemma index_in_range l c i : 0 <= i ->
  index_in l c i = -1 \/
  (i <= index_in l c i < i + Z.of_nat (length l) /\ l !! Z.to_nat (index_in l c i - i) = Some c).
Proof.
  revert i. induction l as [|x l IH]; intros i Hi; simpl; [by left|].
  destruct (Ascii.eqb_spec x c) as [->|].
  - right. rewrite Z.sub_diag. simpl. split; [lia|done].
  - destruct (IH (i + 1) ltac:(lia)) as [->|[Hr Hl]]; [by left|right].
    split; [lia|]. rewrite <-Hl.
    replace (Z.to_nat (index_in l c (i + 1) - i)) with (S (Z.to_nat (index_in l c (i + 1) - (i + 1)))) by lia.
    done.
Qed.

(** Looking a character of a duplicate-free alphabet up gives its position. *)
Lemma indexOf_char_at s i c :
  NoDup (chars s) -> char_at s i = Some c -> indexOf s c = i.
Proof.
  unfold char_at, indexOf. intros Hnd Hc.
  destruct (Z.leb_spec 0 i); [|done].
  rewrite (index_in_spec _ _ _ Hnd _ Hc). lia.
Qed.

Lemma char_at_indexOf s c : indexOf s c <> -1 -> char_at s (indexOf s c) = Some c.
Proof.
  unfold char_at, indexOf. intros Hne.
  destruct (index_in_range (chars s) c 0 ltac:(lia)) as [|[Hr Hl]]; [done|].
  destruct (Z.leb_spec 0 (index_in (chars s) c 0)); [|lia].
  by rewrite Z.sub_0_r in Hl.
Qed.

Lemma indexOf_bound s c : -1 <= indexOf s c < strlen s \/ indexOf s c = -1.
Proof.
  unfold indexOf, strlen.
  destruct (index_in_range (chars s) c 0 ltac:(lia)) as [|[Hr _]]; [by right|left; lia].
Qed.

(** *** Digits and numerals *)

Lemma digit_val_char d : 0 <= d < 36 -> digit_val (digit_char d) = d.
Proof.
  intros Hd. apply Z.eqb_eq.
  apply (forallb_seqZ (fun d => digit_val (digit_char d) =? d) 0 36); [by vm_compute|lia].
Qed.

Lemma is_digit_char radix d : 0 <= d < radix -> radix <= 36 -> is_digit radix (digit_char d) = true.
Proof. intros ? ?. unfold is_digit. rewrite digit_val_char by lia. lia. Qed.

Lemma is_digit_not_space radix c : is_digit radix c = true -> is_space c = false.
Proof.
  unfold is_digit, digit_val, is_space. intros H. pose proof (code_bound c).
  repeat (case_match; b2p); try lia.
Qed.

Lemma is_digit_not_sign radix c :
  is_digit radix c = true -> Ascii.eqb c "-" = false /\ Ascii.eqb c "+" = false.
Proof.
  intros H. split; apply Ascii.eqb_neq; intros ->; unfold is_digit in H; simpl in H; by destruct radix.
Qed.

Lemma digit_prefix_all radix l :
  forallb (is_digit radix) l = true -> digit_prefix radix l = digit_val <$> l.
Proof.
  induction l as [|c l IH]; simpl; [done|].
  intros [Hc Hl]%andb_true_iff. by rewrite Hc, IH.
Qed.

Lemma forallb_digits radix n :
  2 <= radix <= 36 -> forallb (is_digit radix) (digit_char <$> digits radix n) = true.
Proof.
  intros Hr. apply forallb_forall. intros c Hc%list_elem_of_In.
  apply list_elem_of_fmap in Hc as (d & -> & Hd).
  pose proof (digits_bound radix n ltac:(lia)) as Hb. unfold digits_ok in Hb.
  rewrite Forall_forall in Hb. apply is_digit_char; [by apply Hb|lia].
Qed.

Lemma digit_vals_digits radix n :
  2 <= radix <= 36 -> digit_val <$> (digit_char <$> digits radix n) = digits radix n.
Proof.
  intros Hr. rewrite <-list_fmap_compose.
  pose proof (digits_bound radix n ltac:(lia)) as Hb. unfold digits_ok in Hb.
  rewrite <-(list_fmap_id (digits radix n)) at 2. apply list_fmap_ext.
  intros i d Hd. simpl. apply digit_val_char.
  pose proof (Forall_lookup_1 _ _ i d Hb Hd). simpl in *. lia.
Qed.

Lemma drop_spaces_none l :
  forallb (fun c => negb (is_space c)) l = true -> drop_spaces l = l.
Proof. destruct l as [|c l]; simpl; [done|]. by destruct (is_space c). Qed.

(** [trim] leaves a string without white space unchanged. *)
Lemma trim_none s :
  forallb (fun c => negb (is_space c)) (chars s) = true -> trim s = s.
Proof.
  intros H. unfold trim. rewrite (drop_spaces_none (chars s) H).
  rewrite drop_spaces_none; [by rewrite reverse_involutive, str_chars|].
  apply forallb_forall. intros c Hc. rewrite forallb_forall in H. apply H.
  rewrite <-list_elem_of_In in *. by apply elem_of_reverse.
Qed.

Lemma digits_nonempty radix n : 2 <= radix -> 0 < n -> digits radix n <> [].
Proof. intros Hr Hn. rewrite digits_step by done. by destruct (digits radix (n / radix)). Qed.

Lemma parse_nat_all_digits radix n :
  2 <= radix <= 36 -> 0 < n -> parse_nat_all radix (digit_char <$> digits radix n) = Some n.
Proof.
  intros Hr Hn. unfold parse_nat_all.
  rewrite forallb_digits, digit_vals_digits, undigits_digits by lia.
  rewrite length_fmap. pose proof (digits_nonempty radix n ltac:(lia) Hn).
  by destruct (digits radix n).
Qed.

Lemma no_space_digits n :
  forallb (fun c => negb (is_space c)) (digit_char <$> digits 10 n) = true.
Proof.
  pose proof (forallb_digits 10 n ltac:(lia)) as H. rewrite forallb_forall in *.
  intros c Hc. specialize (H c Hc). by rewrite (is_digit_not_space 10).
Qed.

Lemma skip_sign_digits l : forallb (is_digit 10) l = true -> skip_sign l = (1, l).
Proof.
  destruct l as [|c l]; simpl; [done|]. intros [Hc _]%andb_true_iff.
  by destruct (is_digit_not_sign 10 c Hc) as [-> ->].
Qed.

(** A printed integer is read back by [BigInt(...)]. *)
Lemma BigInt_toString n : BigInt_of_string (toString n) = Ok n.
Proof.
  unfold toString, toString_radix.
  destruct (Z.eqb_spec n 0) as [->|]; [done|].
  destruct (Z.ltb_spec n 0).
  - unfold BigInt_of_string. rewrite trim_none by (rewrite chars_app, chars_str; apply no_space_digits).
    rewrite chars_app, chars_str. simpl.
    rewrite parse_nat_all_digits by lia. simpl. f_equal. lia.
  - unfold BigInt_of_string. rewrite trim_none by (rewrite chars_str; apply no_space_digits).
    rewrite chars_str, skip_sign_digits by (apply forallb_digits; lia).
    rewrite parse_nat_all_digits by lia. simpl.
    pose proof (digits_nonempty 10 n ltac:(lia) ltac:(lia)).
    destruct (digits 10 n); [done|]. simpl. f_equal. lia.
Qed.

Lemma toString_inj n m : toString n = toString m -> n = m.
Proof. intros H. pose proof (BigInt_toString n) as Hn. rewrite H, BigInt_toString in Hn. congruence. Qed.
