(* ===== verification/Bytes.v ===== *)
(** * Byte arrays: hexadecimal, little-endian integers, compact sizes

    The byte-level helpers of [firstislamiccoin-web-wallet/crypto.js]
    (lines 47-55 and 257-282), repeated verbatim in [storage.js]
    (lines 18-25).  A [Uint8Array] is a list of integers between 0 and 255; an
    out-of-range store wraps modulo 256. *)

From S2P Require Import Prelude Digits JsString.

Open Scope Z_scope.
Open Scope list_scope.

Definition bytes_ok (l : list Z) : Prop := Forall (fun b => 0 <= b < 256) l.

#[global] Instance bytes_ok_dec l : Decision (bytes_ok l).
Proof. unfold bytes_ok. apply _. Defined.

(** [new Uint8Array([...])]: each element is stored modulo 256. *)
Definition u8arr (l : list Z) : list Z := (fun z => z mod 256) <$> l.

(** [out.set(a, off)] on a long enough array. *)
Definition typed_set (out a : list Z) (off : nat) : list Z :=
  take off out ++ a ++ drop (off + length a) out.

(** ** Hexadecimal *)

Definition bytesToHex (bytes : list Z) : string :=
  str_join "" ((fun b => padStart 2 "0" (toString_radix 16 b)) <$> bytes).

(** [hexToBytes]: [parseInt] of each pair of characters; a pair it rejects is
    [NaN], which a [Uint8Array] stores as 0. *)
Definition hex_pair (hex : string) (i : nat) : Z :=
  match parseInt (str (take 2 (drop (i * 2) (chars hex)))) 16 with
  | Some v => v mod 256
  | None => 0
  end.
Definition hexToBytes (hex : string) : list Z :=
  hex_pair hex <$> seq 0 (Z.to_nat (strlen hex / 2)).

(** ** Little-endian integers *)

(** The low [n] bytes of [z], least significant first: what
    [DataView.setUint16/32] and [setBigUint64] store with [littleEndian = true]. *)
Fixpoint le_bytes (n : nat) (z : Z) : list Z :=
  match n with
  | O => []
  | S n => z mod 256 :: le_bytes n (z / 256)
  end.

Definition u32le (n : Z) : list Z := le_bytes 4 n.
Definition u64le (n : Z) : list Z := le_bytes 8 n.

Definition varInt (n : Z) : list Z :=
  if n <? 0xfd then u8arr [n]
  else if n <=? 0xffff then 0xfd :: le_bytes 2 n
  else if n <=? 0xffffffff then 0xfe :: le_bytes 4 n
  else 0xff :: le_bytes 8 n.

(** ** Concatenation: the loop over a zero-filled array *)

Fixpoint concat_loop (arrs : list (list Z)) (out : list Z) (off : nat) : list Z :=
  match arrs with
  | [] => out
  | a :: arrs => concat_loop arrs (typed_set out a off) (off + length a)
  end.
Definition concatBytes (arrs : list (list Z)) : list Z :=
  let total := foldl (fun n a => (n + length a)%nat) 0%nat arrs in
  concat_loop arrs (replicate total 0) 0.

(** ** Readers, the reference inverses of the writers above *)

Definition un_le (l : list Z) : Z := foldr (fun b acc => b + 256 * acc) 0 l.

(** [take_exact n l]: the first [n] bytes and the rest, or [None] at the end. *)
Definition take_exact (n : nat) (l : list Z) : option (list Z * list Z) :=
  if (n <=? length l)%nat then Some (take n l, drop n l) else None.

Definition read_le (n : nat) (l : list Z) : option (Z * list Z) :=
  '(b, r) ← take_exact n l; Some (un_le b, r).

Definition readVarInt (l : list Z) : option (Z * list Z) :=
  match l with
  | [] => None
  | b :: r =>
      if b <? 0xfd then Some (b, r)
      else if b =? 0xfd then read_le 2 r
      else if b =? 0xfe then read_le 4 r
      else read_le 8 r
  end.

(** ** Lemmas *)

Lemma bytes_ok_app l1 l2 : bytes_ok (l1 ++ l2) <-> bytes_ok l1 /\ bytes_ok l2.
Proof. apply Forall_app. Qed.

Lemma bytes_ok_app_2 l1 l2 : bytes_ok l1 -> bytes_ok l2 -> bytes_ok (l1 ++ l2).
Proof. by rewrite bytes_ok_app. Qed.

Lemma bytes_ok_cons b l : 0 <= b < 256 -> bytes_ok l -> bytes_ok (b :: l).
Proof. by constructor. Qed.

Lemma bytes_ok_nil : bytes_ok [].
Proof. constructor. Qed.

Lemma bytes_ok_take n l : bytes_ok l -> bytes_ok (take n l).
Proof. apply Forall_take. Qed.

Lemma bytes_ok_drop n l : bytes_ok l -> bytes_ok (drop n l).
Proof. apply Forall_drop. Qed.

Lemma bytes_ok_u8arr l : bytes_ok (u8arr l).
Proof.
  apply Forall_fmap, Forall_true. intros z. simpl. apply Z.mod_pos_bound. lia.
Qed.

Lemma bytes_ok_le n z : bytes_ok (le_bytes n z).
Proof.
  revert z. induction n as [|n IH]; intros z; simpl; [constructor|]. constructor; [|apply IH].
  apply Z.mod_pos_bound. lia.
Qed.

Lemma bytes_ok_varInt n : bytes_ok (varInt n).
Proof.
  unfold varInt. repeat case_match; try apply bytes_ok_u8arr;
    constructor; try apply bytes_ok_le; lia.
Qed.

Lemma bytes_ok_concat ls : Forall bytes_ok ls -> bytes_ok (mjoin ls).
Proof. induction 1; simpl; [constructor|]. by apply bytes_ok_app_2. Qed.

#[export] Hint Resolve bytes_ok_app_2 bytes_ok_cons bytes_ok_nil bytes_ok_take bytes_ok_drop
  bytes_ok_u8arr bytes_ok_le bytes_ok_varInt : bytes.

Lemma u8arr_id l : bytes_ok l -> u8arr l = l.
Proof.
  intros H. induction H as [|b l Hb _ IH]; [done|]. simpl. rewrite IH, Z.mod_small by done. done.
Qed.

Lemma typed_set_length out a off :
  (off + length a <= length out)%nat -> length (typed_set out a off) = length out.
Proof. intros H. unfold typed_set. rewrite !length_app, length_take, length_drop. lia. Qed.

Lemma typed_set_boundary pre a z :
  typed_set (pre ++ replicate (length a + z) 0) a (length pre) = (pre ++ a) ++ replicate z 0.
Proof.
  unfold typed_set. rewrite take_app_length, drop_app_add, drop_replicate.
  replace (length a + z - length a)%nat with z by lia. by rewrite <-app_assoc.
Qed.

Lemma foldl_total (arrs : list (list Z)) n :
  foldl (fun n a => (n + length a)%nat) n arrs = (n + length (mjoin arrs))%nat.
Proof.
  revert n. induction arrs as [|a arrs IH]; intros n; simpl; [lia|].
  rewrite IH, length_app. lia.
Qed.

Lemma concat_loop_spec arrs pre :
  concat_loop arrs (pre ++ replicate (length (mjoin arrs)) 0) (length pre) = pre ++ mjoin arrs.
Proof.
  revert pre. induction arrs as [|a arrs IH]; intros pre; simpl.
  - done.
  - rewrite length_app, typed_set_boundary, <-length_app, IH, <-app_assoc. done.
Qed.

(** The zero-filled array with [set] calls at running offsets is concatenation. *)
Lemma concatBytes_concat arrs : concatBytes arrs = mjoin arrs.
Proof.
  unfold concatBytes. rewrite foldl_total. simpl. apply (concat_loop_spec arrs []).
Qed.

#[export] Hint Rewrite concatBytes_concat : js.

(** *** Little-endian *)

Lemma length_le n z : length (le_bytes n z) = n.
Proof. revert z. induction n as [|n IH]; intros z; simpl; [done|]. by rewrite IH. Qed.

Lemma un_le_le n z : un_le (le_bytes n z) = z mod 256 ^ Z.of_nat n.
Proof.
  revert z. induction n as [|n IH]; intros z; simpl le_bytes.
  - simpl. by rewrite Z.mod_1_r.
  - cbn [un_le foldr]. change (foldr _ 0 (le_bytes n (z / 256))) with (un_le (le_bytes n (z / 256))).
    rewrite IH, Nat2Z.inj_succ, Z.pow_succ_r by lia.
    rewrite Z.rem_mul_r by (try apply Z.pow_nonzero; lia). lia.
Qed.

Lemma le_inj n a b :
  0 <= a < 256 ^ Z.of_nat n -> 0 <= b < 256 ^ Z.of_nat n -> le_bytes n a = le_bytes n b -> a = b.
Proof.
  intros Ha Hb H. apply (f_equal un_le) in H. rewrite !un_le_le in H.
  by rewrite !Z.mod_small in H.
Qed.

Lemma take_exact_app a r : take_exact (length a) (a ++ r) = Some (a, r).
Proof.
  unfold take_exact. rewrite length_app. destruct (Nat.leb_spec (length a) (length a + length r)); [|lia].
  by rewrite take_app_length, drop_app_length.
Qed.

Lemma take_exact_app' n a r : length a = n -> take_exact n (a ++ r) = Some (a, r).
Proof. intros <-. apply take_exact_app. Qed.

Lemma read_le_le n z r :
  0 <= z < 256 ^ Z.of_nat n -> read_le n (le_bytes n z ++ r) = Some (z, r).
Proof.
  intros Hz. unfold read_le. rewrite take_exact_app' by apply length_le. simpl.
  by rewrite un_le_le, Z.mod_small.
Qed.

(** A compact size is read back, whatever follows it. *)
Lemma readVarInt_varInt n r :
  0 <= n < 2 ^ 64 -> readVarInt (varInt n ++ r) = Some (n, r).
Proof.
  intros Hn. unfold varInt.
  destruct (Z.ltb_spec n 0xfd).
  { simpl. rewrite Z.mod_small by lia. destruct (Z.ltb_spec n 0xfd); [done|lia]. }
  destruct (Z.leb_spec n 0xffff); [|destruct (Z.leb_spec n 0xffffffff)].
  - change (read_le 2 (le_bytes 2 n ++ r) = Some (n, r)). apply read_le_le. simpl. lia.
  - change (read_le 4 (le_bytes 4 n ++ r) = Some (n, r)). apply read_le_le. simpl. lia.
  - change (read_le 8 (le_bytes 8 n ++ r) = Some (n, r)). apply read_le_le. simpl. lia.
Qed.

Lemma length_varInt n :
  length (varInt n) =
    (if n <? 0xfd then 1%nat else if n <=? 0xffff then 3%nat else if n <=? 0xffffffff then 5%nat else 9%nat).
Proof. unfold varInt. repeat case_match; done. Qed.

(** *** Hexadecimal *)

(** The two characters of one byte. *)
Definition hex_byte (b : Z) : list ascii := [digit_char (b / 16); digit_char (b mod 16)].

Lemma padStart_byte b :
  0 <= b < 256 -> padStart 2 "0" (toString_radix 16 b) = str (hex_byte b).
Proof.
  intros Hb. apply String.eqb_eq.
  apply (forallb_seqZ (fun b => String.eqb (padStart 2 "0" (toString_radix 16 b)) (str (hex_byte b))) 0 256);
    [by vm_compute|lia].
Qed.

Lemma str_join_nil_concat (ls : list (list ascii)) : str_join "" (str <$> ls) = str (mjoin ls).
Proof.
  induction ls as [|l [|l' ls] IH]; [done| |].
  - simpl. by rewrite app_nil_r.
  - change (str_join "" (str <$> l :: l' :: ls))
      with (str l +:+ "" +:+ str_join "" (str <$> l' :: ls)).
    rewrite IH. simpl mjoin. rewrite !str_app. done.
Qed.

(** Each byte is two lower-case hexadecimal characters. *)
Lemma bytesToHex_chars l : bytes_ok l -> chars (bytesToHex l) = mjoin (hex_byte <$> l).
Proof.
  intros H. unfold bytesToHex. rewrite <-(chars_str (mjoin _)), <-str_join_nil_concat. do 2 f_equal.
  rewrite <-list_fmap_compose. apply list_fmap_ext. intros i b Hi.
  apply padStart_byte. by apply (Forall_lookup_1 _ _ i b) in H.
Qed.

Lemma parseInt_hex_byte b : 0 <= b < 256 -> parseInt (str (hex_byte b)) 16 = Some b.
Proof.
  intros Hb. cut ((match parseInt (str (hex_byte b)) 16 with Some v => v =? b | None => false end) = true).
  { destruct (parseInt _ _); [intros ->%Z.eqb_eq|]; done. }
  apply (forallb_seqZ (fun b => match parseInt (str (hex_byte b)) 16 with Some v => v =? b | None => false end) 0 256);
    [by vm_compute|lia].
Qed.

Lemma length_hex_chars l : length (mjoin (hex_byte <$> l)) = (2 * length l)%nat.
Proof.
  induction l as [|b l IH]; [done|]. change (S (S (length (mjoin (hex_byte <$> l)))) = (2 * S (length l))%nat).
  lia.
Qed.

Lemma drop_hex_chars l i : drop (i * 2) (mjoin (hex_byte <$> l)) = mjoin (hex_byte <$> drop i l).
Proof. revert l. induction i as [|i IH]; intros [|b l]; simpl; done. Qed.

Lemma hex_pair_spec hex l i b :
  chars hex = mjoin (hex_byte <$> l) -> l !! i = Some b -> 0 <= b < 256 -> hex_pair hex i = b.
Proof.
  intros Hc Hi Hb. unfold hex_pair. rewrite Hc, drop_hex_chars, (drop_S _ b) by done.
  change (take 2 (mjoin (hex_byte <$> b :: drop (S i) l))) with (hex_byte b).
  rewrite parseInt_hex_byte by done. by apply Z.mod_small.
Qed.

Lemma length_hexToBytes hex : length (hexToBytes hex) = Z.to_nat (strlen hex / 2).
Proof. unfold hexToBytes. by rewrite length_fmap, length_seq. Qed.

(** [hexToBytes] inverts [bytesToHex]. *)
Lemma hexToBytes_bytesToHex l : bytes_ok l -> hexToBytes (bytesToHex l) = l.
Proof.
  intros H. pose proof (bytesToHex_chars l H) as Hc.
  assert (length (hexToBytes (bytesToHex l)) = length l) as Hlen.
  { rewrite length_hexToBytes. unfold strlen. rewrite Hc, length_hex_chars.
    rewrite Nat2Z.inj_mul, Z.mul_comm, Z.div_mul by lia. lia. }
  apply list_eq_same_length with (length l); [done..|].
  intros i x y Hi Hx Hy. unfold hexToBytes in Hx.
  rewrite list_lookup_fmap in Hx. apply fmap_Some in Hx as (k & Hk & ->).
  apply lookup_seq in Hk as [-> _]. simpl.
  apply (hex_pair_spec _ l); [done..|]. by apply (Forall_lookup_1 _ _ i y) in H.
Qed.

Lemma bytesToHex_inj l1 l2 : bytes_ok l1 -> bytes_ok l2 -> bytesToHex l1 = bytesToHex l2 -> l1 = l2.
Proof.
  intros H1 H2 H. by rewrite <-(hexToBytes_bytesToHex l1), <-(hexToBytes_bytesToHex l2), H.
Qed.

Lemma bytes_ok_hexToBytes hex : bytes_ok (hexToBytes hex).
Proof.
  apply Forall_fmap, Forall_true. intros i. simpl. unfold hex_pair.
  case_match; [apply Z.mod_pos_bound|]; lia.
Qed.

#[export] Hint Resolve bytes_ok_hexToBytes : bytes.
#[export] Hint Rewrite hexToBytes_bytesToHex using (solve [auto with bytes]) : js.
