(* ===== verification/Crypto.v ===== *)
(** * The third-party cryptographic primitives

    [crypto.js], [message.js] and [storage.js] import SHA-256, RIPEMD-160 and
    secp256k1 from the noble packages.  Their code is not part of the
    repository: [Crypto] lists the functions the wallet calls, and [CryptoLaws]
    the documented facts about their results the theorems rely on.  The two
    helper compositions of [crypto.js] (lines 57-63) follow. *)

From S2P Require Import Prelude Digits JsString Bytes.

Open Scope Z_scope.
Open Scope list_scope.

(** A noble [Signature] value with its recovery bit. *)
Record signature : Type := {
  sig_r : Z;
  sig_s : Z;
  sig_recovery : Z
}.

(** The order of the secp256k1 group. *)
Definition secp_n : Z := 0xfffffffffffffffffffffffffffffffebaaedce6af48a03bbfd25e8cd0364141.

Class Crypto : Type := {
  sha256 : list Z -> list Z;
  ripemd160 : list Z -> list Z;
  (** [secp.sign(hash, privateKey)] *)
  secp_sign : list Z -> list Z -> res signature;
  (** [sig.toCompactRawBytes()] *)
  sig_toCompactRawBytes : signature -> list Z;
  (** [secp.Signature.fromCompact(bytes)]: [(r, s)] *)
  sig_fromCompact : list Z -> res (Z * Z);
  (** [sig.recoverPublicKey(hash).toRawBytes(true)] for [(r, s)] and a recovery bit *)
  sig_recoverPublicKey : Z * Z -> Z -> list Z -> res (list Z);
  (** the compressed public key of a private key, [HDKey.publicKey] *)
  secp_publicKey : list Z -> list Z
}.

Class CryptoLaws `{Crypto} : Prop := {
  sha256_length bs : length (sha256 bs) = 32%nat;
  sha256_bytes bs : bytes_ok (sha256 bs);
  ripemd160_length bs : length (ripemd160 bs) = 20%nat;
  ripemd160_bytes bs : bytes_ok (ripemd160 bs);
  (** a signature is a pair of scalars, [s] normalised to the lower half *)
  secp_sign_range h k sg : secp_sign h k = Ok sg ->
    0 < sig_r sg < secp_n /\ 0 < sig_s sg <= secp_n / 2 /\ 0 <= sig_recovery sg < 4;
  compact_length sg : length (sig_toCompactRawBytes sg) = 64%nat;
  compact_bytes sg : bytes_ok (sig_toCompactRawBytes sg);
  compact_roundtrip h k sg : secp_sign h k = Ok sg ->
    sig_fromCompact (sig_toCompactRawBytes sg) = Ok (sig_r sg, sig_s sg);
  recover_sign h k sg : secp_sign h k = Ok sg ->
    sig_recoverPublicKey (sig_r sg, sig_s sg) (sig_recovery sg) h = Ok (secp_publicKey k);
  publicKey_length k : length (secp_publicKey k) = 33%nat;
  publicKey_bytes k : bytes_ok (secp_publicKey k)
}.

Definition doubleSha256 `{Crypto} (bytes : list Z) : list Z := sha256 (sha256 bytes).
Definition hash160 `{Crypto} (bytes : list Z) : list Z := ripemd160 (sha256 bytes).

Section Hashes.
Context `{CryptoLaws}.

Lemma doubleSha256_length bs : length (doubleSha256 bs) = 32%nat.
Proof. apply sha256_length. Qed.
Lemma doubleSha256_bytes bs : bytes_ok (doubleSha256 bs).
Proof. apply sha256_bytes. Qed.
Lemma hash160_length bs : length (hash160 bs) = 20%nat.
Proof. apply ripemd160_length. Qed.
Lemma hash160_bytes bs : bytes_ok (hash160 bs).
Proof. apply ripemd160_bytes. Qed.

End Hashes.

#[export] Hint Resolve sha256_bytes ripemd160_bytes doubleSha256_bytes hash160_bytes
  compact_bytes publicKey_bytes : bytes.

(** ** A toy instance

    Deterministic functions of the right shape, used to evaluate the model on
    concrete inputs and to show that [CryptoLaws] can hold.  The digest mixes a
    running sum of the input; the "signature" of a hash under a key is a pair of
    small scalars that carries the first byte of the key, which is all the
    recovery function needs. *)

Definition toy_sum (bs : list Z) : Z := foldl (fun a b => (a * 31 + b + 7) mod 65521) 1 bs.
Definition toy_digest (n : nat) (bs : list Z) : list Z :=
  (fun i => (toy_sum bs * (Z.of_nat i + 3) + Z.of_nat i) mod 251) <$> seq 0 n.
Definition toy_public (k : list Z) : list Z :=
  2 :: u8arr [nth 0 k 0] ++ replicate 31 17.
Definition be32 (z : Z) : list Z := reverse (le_bytes 32 z).
Definition un_be (l : list Z) : Z := un_le (reverse l).

Definition toy_crypto : Crypto := {|
  sha256 := toy_digest 32;
  ripemd160 := toy_digest 20;
  secp_sign := fun h k => Ok {| sig_r := nth 0 k 0 mod 256 + 1; sig_s := toy_sum h + 1; sig_recovery := toy_sum h mod 2 |};
  sig_toCompactRawBytes := fun sg => be32 (sig_r sg) ++ be32 (sig_s sg);
  sig_fromCompact := fun bs => Ok (un_be (take 32 bs), un_be (drop 32 bs));
  sig_recoverPublicKey := fun rs _ _ => Ok (toy_public [fst rs - 1]);
  secp_publicKey := toy_public
|}.

Lemma toy_digest_bytes n bs : bytes_ok (toy_digest n bs).
Proof.
  apply Forall_fmap, Forall_true. intros i. simpl.
  pose proof (Z.mod_pos_bound (toy_sum bs * (Z.of_nat i + 3) + Z.of_nat i) 251). lia.
Qed.

Lemma toy_sum_bound bs : 0 <= toy_sum bs < 65521.
Proof.
  unfold toy_sum. induction bs as [|b bs IH] using rev_ind; [done|].
  rewrite foldl_app. simpl. apply Z.mod_pos_bound. lia.
Qed.

Lemma un_be_be32 z : 0 <= z < 2 ^ 256 -> un_be (be32 z) = z.
Proof.
  intros Hz. unfold un_be, be32. rewrite reverse_involutive, un_le_le, Z.mod_small; [done|].
  change (256 ^ Z.of_nat 32) with (2 ^ 256). lia.
Qed.

Lemma length_be32 z : length (be32 z) = 32%nat.
Proof. unfold be32. by rewrite length_reverse, length_le. Qed.

Lemma be32_bytes z : bytes_ok (be32 z).
Proof. apply Forall_reverse, bytes_ok_le. Qed.

Lemma toy_sign_bounds h k :
  0 <= nth 0 k 0 mod 256 + 1 < 2 ^ 256 /\ 0 <= toy_sum h + 1 < 2 ^ 256.
Proof.
  pose proof (toy_sum_bound h). pose proof (Z.mod_pos_bound (nth 0 k 0) 256). lia.
Qed.

Lemma toy_sign_range h k :
  0 < nth 0 k 0 mod 256 + 1 < secp_n /\ 0 < toy_sum h + 1 <= secp_n / 2 /\ 0 <= toy_sum h mod 2 < 4.
Proof.
  pose proof (toy_sum_bound h). pose proof (Z.mod_pos_bound (nth 0 k 0) 256).
  pose proof (Z.mod_pos_bound (toy_sum h) 2).
  assert (65536 < secp_n / 2) by (apply Z.ltb_lt; by vm_compute).
  assert (65536 < secp_n) by (apply Z.ltb_lt; by vm_compute). lia.
Qed.

Lemma toy_laws : @CryptoLaws toy_crypto.
Proof.
  split; intros;
    cbn [sha256 ripemd160 secp_sign sig_toCompactRawBytes sig_fromCompact sig_recoverPublicKey
      secp_publicKey toy_crypto] in *.
  - done.
  - apply toy_digest_bytes.
  - done.
  - apply toy_digest_bytes.
  - match goal with H : _ = Ok _ |- _ => injection H as <- end. cbn [sig_r sig_s sig_recovery].
    apply toy_sign_range.
  - by rewrite length_app, !length_be32.
  - apply bytes_ok_app_2; apply be32_bytes.
  - match goal with H : _ = Ok _ |- _ => injection H as <- end. cbn [sig_r sig_s sig_recovery].
    destruct (toy_sign_bounds h k).
    rewrite take_app_length', drop_app_length' by (by rewrite length_be32).
    by rewrite !un_be_be32.
  - match goal with H : _ = Ok _ |- _ => injection H as <- end. cbn [sig_r sig_s sig_recovery fst].
    unfold toy_public. simpl nth. rewrite Z.add_simpl_r. unfold u8arr; simpl. by rewrite Z.mod_mod.
  - done.
  - apply bytes_ok_cons; [lia|]. apply bytes_ok_cons; [apply Z.mod_pos_bound; lia|].
    by repeat (apply bytes_ok_cons; [lia|]); apply bytes_ok_nil.
Qed.

(** Digests that are quick to compare. *)
Definition small_crypto : Crypto := {|
  sha256 := fun bs => [toy_sum bs mod 256; toy_sum bs / 256] ++ replicate 30 0; ripemd160 := @ripemd160 toy_crypto; secp_sign := @secp_sign toy_crypto;
  sig_toCompactRawBytes := @sig_toCompactRawBytes toy_crypto; sig_fromCompact := @sig_fromCompact toy_crypto;
  sig_recoverPublicKey := @sig_recoverPublicKey toy_crypto; secp_publicKey := @secp_publicKey toy_crypto
|}.

Lemma small_laws : @CryptoLaws small_crypto.
Proof.
  destruct toy_laws. split; auto; intros bs. cbn [sha256 small_crypto]. pose proof (toy_sum_bound bs).
  pose proof (Z.mod_pos_bound (toy_sum bs) 256 ltac:(lia)). assert (0 <= toy_sum bs / 256 < 256) by (split; [apply Z.div_pos; lia|apply Z.div_lt_upper_bound; lia]).
  cbn [app]. apply bytes_ok_cons; [lia|]. apply bytes_ok_cons; [lia|]. apply Forall_replicate. lia.
Qed.
