(* ===== verification/Base58.v ===== *)
(** * Base58Check

    [base58checkEncode] and [base58checkDecode] of
    [firstislamiccoin-web-wallet/crypto.js] (lines 23 and 65-104): a payload, the
    first four bytes of its double SHA-256, the whole read as one big-endian
    integer and written in base 58, leading zero bytes as leading ['1']s. *)

From S2P Require Import Prelude Digits JsString Bytes Crypto.

Open Scope Z_scope.
Open Scope list_scope.

Definition B58_ALPHABET : string := "123456789ABCDEFGHJKLMNPQRSTUVWXYZabcdefghijkmnopqrstuvwxyz".

(** [B58_ALPHABET[rem]] for a remainder modulo 58 (so never [undefined]). *)
Definition b58_char (d : Z) : ascii := default "1"%char (char_at B58_ALPHABET d).

(** The character loop of [base58checkDecode]: [num = num * 58n + BigInt(idx)],
    throwing on a character outside the alphabet. *)
Fixpoint b58_read (cs : list ascii) (num : Z) : res Z :=
  match cs with
  | [] => Ok num
  | ch :: cs =>
      let idx := indexOf B58_ALPHABET ch in
      if idx <? 0 then Throw (JsError "Invalid base58 character")
      else b58_read cs (num * 58 + idx)
  end.

Section Base58.
Context `{Crypto}.

(** [doubleSha256(payload).slice(0, 4)] *)
Definition checksum4 (payload : list Z) : list Z := slice_list (doubleSha256 payload) 0 4.

Definition base58checkEncode (payload : list Z) : string :=
  let checksum := checksum4 payload in
  let full := typed_set (typed_set (replicate (length payload + 4) 0) payload 0) checksum (length payload) in
  let leadingZeros := count_leading (fun b => b =? 0) full in
  let num := undigits 256 full in
  repeat_char leadingZeros "1" +:+ str (b58_char <$> digits 58 num).

(** [expected.every((b, i) => b === checksum[i])]: a missing byte of [checksum]
    is [undefined] and differs from every byte. *)
Fixpoint every_eq (expected checksum : list Z) : bool :=
  match expected, checksum with
  | [], _ => true
  | b :: e, c :: cs => (b =? c) && every_eq e cs
  | _ :: _, [] => false
  end.

Definition base58checkDecode (s : string) : res (list Z) :=
  num ← b58_read (chars s) 0;
  let bytes := digits 256 num in
  let leadingZeros := count_leading (fun c => Ascii.eqb c "1") (chars s) in
  let full := typed_set (replicate (leadingZeros + length bytes) 0) bytes leadingZeros in
  let len := Z.of_nat (length full) in
  let payload := slice_list full 0 (len - 4) in
  let checksum := slice_list full (len - 4) len in
  let expected := checksum4 payload in
  _ ← throw_if (negb (every_eq expected checksum)) (JsError "Bad checksum");
  Ok payload.

End Base58.

(** ** The alphabet *)

Lemma alphabet_NoDup : NoDup (chars B58_ALPHABET).
Proof. apply (bool_decide_unpack _). by vm_compute. Qed.

Lemma b58_char_at d : 0 <= d < 58 -> char_at B58_ALPHABET d = Some (b58_char d).
Proof.
  intros Hd. unfold b58_char.
  cut (is_someb (char_at B58_ALPHABET d) = true); [by destruct (char_at _ _)|].
  apply (forallb_seqZ (fun d => is_someb (char_at B58_ALPHABET d)) 0 58);
    [by vm_compute|lia].
Qed.

Lemma b58_index_char d : 0 <= d < 58 -> indexOf B58_ALPHABET (b58_char d) = d.
Proof. intros Hd. by apply indexOf_char_at; [apply alphabet_NoDup|apply b58_char_at]. Qed.

Lemma b58_char_index c :
  0 <= indexOf B58_ALPHABET c -> 0 <= indexOf B58_ALPHABET c < 58 /\ b58_char (indexOf B58_ALPHABET c) = c.
Proof.
  intros Hi. destruct (indexOf_bound B58_ALPHABET c) as [Hb|]; [|lia].
  change (strlen B58_ALPHABET) with 58 in Hb. split; [lia|].
  pose proof (char_at_indexOf B58_ALPHABET c ltac:(lia)) as Hc.
  rewrite b58_char_at in Hc by lia. congruence.
Qed.

Lemma b58_char_one d : 0 <= d < 58 -> Ascii.eqb (b58_char d) "1" = (d =? 0).
Proof.
  intros Hd. apply Bool.eqb_prop.
  apply (forallb_seqZ (fun d => Bool.eqb (Ascii.eqb (b58_char d) "1") (d =? 0)) 0 58);
    [by vm_compute|lia].
Qed.

(** ** Reading what was written *)

Lemma b58_read_chars ds num :
  digits_ok 58 ds -> b58_read (b58_char <$> ds) num = Ok (foldl (fun a d => a * 58 + d) num ds).
Proof.
  intros Hds. revert num. induction Hds as [|d ds Hd _ IH]; intros num; simpl; [done|].
  rewrite b58_index_char by done. destruct (Z.ltb_spec d 0); [lia|]. apply IH.
Qed.

(** A successful reading decomposes into digits of the alphabet. *)
Lemma b58_read_ok cs num n :
  b58_read cs num = Ok n ->
  exists ds, digits_ok 58 ds /\ cs = b58_char <$> ds /\ n = foldl (fun a d => a * 58 + d) num ds.
Proof.
  revert num. induction cs as [|c cs IH]; intros num Hr; simpl in Hr.
  - simplify_eq. exists []. by repeat split; try constructor.
  - destruct (Z.ltb_spec (indexOf B58_ALPHABET c) 0); [done|].
    destruct (b58_char_index c ltac:(lia)) as [Hb Hc].
    destruct (IH _ Hr) as (ds & Hds & -> & ->).
    exists (indexOf B58_ALPHABET c :: ds). simpl. rewrite Hc. repeat split; try done.
    by constructor.
Qed.

Lemma count_leading_ones ds :
  digits_ok 58 ds ->
  count_leading (fun c => Ascii.eqb c "1") (b58_char <$> ds) = count_leading (fun d => d =? 0) ds.
Proof.
  induction 1 as [|d ds Hd _ IH]; simpl; [done|]. rewrite b58_char_one by done.
  destruct (d =? 0); [f_equal; apply IH|done].
Qed.

Lemma count_leading_no_zero ds :
  no_leading_zero ds -> count_leading (fun d => d =? 0) ds = 0%nat.
Proof. destruct ds as [|d ds]; simpl; [done|]. intros Hd. by destruct (Z.eqb_spec d 0). Qed.

(** The zeros in front of a list and the rest. *)
Lemma split_zeros l :
  exists k rest, l = replicate k 0 ++ rest /\ k = count_leading (fun b => b =? 0) l /\ no_leading_zero rest.
Proof.
  destruct (count_leading_split (fun b => b =? 0) l) as (l1 & l2 & Hl & H1 & Hlen & H2).
  exists (length l1), l2. split; [|split; [done|]].
  - rewrite Hl at 1. f_equal. clear -H1.
    induction H1 as [|x l Hx _ IH]; simpl; [done|]. apply Z.eqb_eq in Hx as ->. by rewrite IH at 1.
  - destruct l2; simpl in *; [done|]. by apply Z.eqb_neq.
Qed.

Lemma typed_set_at_end k bytes :
  typed_set (replicate (k + length bytes) 0) bytes k = replicate k 0 ++ bytes.
Proof.
  pose proof (typed_set_boundary (replicate k 0) bytes 0) as Hb.
  rewrite length_replicate, Nat.add_0_r, <-replicate_add in Hb. rewrite Hb.
  by rewrite app_nil_r.
Qed.

Lemma full_array payload checksum :
  length checksum = 4%nat ->
  typed_set (typed_set (replicate (length payload + 4) 0) payload 0) checksum (length payload)
  = payload ++ checksum.
Proof.
  intros Hc. pose proof (typed_set_boundary [] payload 4) as H1. simpl in H1. rewrite H1.
  pose proof (typed_set_boundary payload checksum 0) as H2. rewrite Hc, app_nil_r in H2. done.
Qed.

Lemma slice_list_prefix {A} (l : list A) k :
  (k <= length l)%nat -> slice_list l 0 (Z.of_nat k) = take k l.
Proof.
  intros Hk. unfold slice_list, slice_pos. simpl.
  destruct (Z.ltb_spec (Z.of_nat k) 0); [lia|].
  rewrite (Z.min_l 0), (Z.min_l (Z.of_nat k)) by lia. simpl. rewrite Z.sub_0_r, Nat2Z.id. done.
Qed.

Lemma slice_list_suffix {A} (l : list A) k :
  (k <= length l)%nat -> slice_list l (Z.of_nat k) (Z.of_nat (length l)) = drop k l.
Proof.
  intros Hk. unfold slice_list, slice_pos.
  destruct (Z.ltb_spec (Z.of_nat k) 0); [lia|]. destruct (Z.ltb_spec (Z.of_nat (length l)) 0); [lia|].
  rewrite !Z.min_l by lia. rewrite Nat2Z.id. apply take_ge. rewrite length_drop. lia.
Qed.

Lemma every_eq_refl l : every_eq l l = true.
Proof. induction l; simpl; [done|]. by rewrite Z.eqb_refl. Qed.

Lemma every_eq_true e c : every_eq e c = true -> e = take (length e) c.
Proof.
  revert c. induction e as [|b e IH]; intros [|x c]; simpl; try done.
  intros [->%Z.eqb_eq He]%andb_true_iff. f_equal. by apply IH.
Qed.

Section Roundtrip.
Context `{CryptoLaws}.

Lemma checksum4_length p : length (checksum4 p) = 4%nat.
Proof.
  unfold checksum4. change 4 with (Z.of_nat 4).
  rewrite slice_list_prefix, length_take, doubleSha256_length; [done|]. rewrite doubleSha256_length. lia.
Qed.

Lemma checksum4_bytes p : bytes_ok (checksum4 p).
Proof. unfold checksum4, slice_list. auto with bytes. Qed.

(** The bytes recovered from the characters of a byte array. *)
Lemma b58_decode_full full :
  bytes_ok full ->
  let s := repeat_char (count_leading (fun b => b =? 0) full) "1" +:+
           str (b58_char <$> digits 58 (undigits 256 full)) in
  b58_read (chars s) 0 = Ok (undigits 256 full) /\
  typed_set (replicate (count_leading (fun c => Ascii.eqb c "1") (chars s) +
               length (digits 256 (undigits 256 full))) 0)
    (digits 256 (undigits 256 full)) (count_leading (fun c => Ascii.eqb c "1") (chars s)) = full.
Proof.
  intros Hok s. destruct (split_zeros full) as (k & rest & Hfull & Hk & Hnz).
  assert (undigits 256 full = undigits 256 rest) as Hu by (rewrite Hfull; apply undigits_zeros).
  assert (bytes_ok rest) as Hrest by (rewrite Hfull in Hok; apply bytes_ok_app in Hok; tauto).
  pose proof (undigits_bound 256 rest ltac:(lia) Hrest) as Hpos.
  assert (digits_ok 58 (replicate k 0 ++ digits 58 (undigits 256 full))) as Hds.
  { apply Forall_app. split; [apply Forall_replicate; lia|]. apply digits_bound. lia. }
  assert (chars s = b58_char <$> (replicate k 0 ++ digits 58 (undigits 256 full))) as Hs.
  { unfold s, repeat_char. rewrite chars_app, !chars_str, fmap_app, <-Hk. f_equal.
    by rewrite fmap_replicate. }
  rewrite Hs, count_leading_ones by done.
  rewrite count_leading_replicate by done. rewrite count_leading_no_zero by (apply digits_head; lia).
  rewrite Nat.add_0_r. split.
  - rewrite b58_read_chars by done. f_equal.
    change (undigits 58 (replicate k 0 ++ digits 58 (undigits 256 full)) = undigits 256 full).
    rewrite undigits_zeros, undigits_digits by lia. done.
  - rewrite Hu, digits_undigits by (lia || done). by rewrite typed_set_at_end.
Qed.

Lemma base58_roundtrip_aux payload :
  bytes_ok payload -> base58checkDecode (base58checkEncode payload) = Ok payload.
Proof.
  intros Hok. unfold base58checkDecode, base58checkEncode.
  rewrite full_array by apply checksum4_length.
  destruct (b58_decode_full (payload ++ checksum4 payload)) as [Hr Hf].
  { apply bytes_ok_app_2; [done|apply checksum4_bytes]. }
  rewrite Hr. cbn [mbind res_bind]. rewrite Hf.
  rewrite length_app, checksum4_length.
  replace (Z.of_nat (length payload + 4) - 4) with (Z.of_nat (length payload)) by lia.
  rewrite slice_list_prefix by (rewrite length_app; lia). rewrite take_app_length.
  replace (Z.of_nat (length payload + 4)) with (Z.of_nat (length (payload ++ checksum4 payload)))
    by (rewrite length_app, checksum4_length; done).
  rewrite slice_list_suffix by (rewrite length_app; lia). rewrite drop_app_length.
  by rewrite every_eq_refl.
Qed.

(** An accepted string is the encoding of some byte array: reading it and
    writing the array again gives the string back. *)
Lemma b58_encode_full cs num :
  b58_read cs 0 = Ok num ->
  let lz := count_leading (fun c => Ascii.eqb c "1") cs in
  let full := replicate lz 0 ++ digits 256 num in
  bytes_ok full /\
  repeat_char (count_leading (fun b => b =? 0) full) "1" +:+
    str (b58_char <$> digits 58 (undigits 256 full)) = str cs.
Proof.
  intros Hr lz full. apply b58_read_ok in Hr as (ds & Hds & -> & Hnum).
  change (num = undigits 58 ds) in Hnum. pose proof (undigits_bound 58 ds ltac:(lia) Hds).
  split.
  { apply bytes_ok_app_2; [apply Forall_replicate; lia|apply digits_bound; lia]. }
  subst full lz. rewrite count_leading_ones by done.
  rewrite count_leading_replicate by done.
  rewrite (count_leading_no_zero (digits 256 num)) by (apply digits_head; lia).
  rewrite undigits_zeros, undigits_digits, Nat.add_0_r by lia.
  destruct (split_zeros ds) as (k & rest & Hsplit & Hk & Hnz). rewrite <-Hk.
  assert (digits_ok 58 rest) as Hrest by (rewrite Hsplit in Hds; apply Forall_app in Hds; tauto).
  rewrite Hnum, Hsplit, undigits_zeros, digits_undigits by (lia || done).
  unfold repeat_char. rewrite fmap_app, str_app. do 2 f_equal. by rewrite fmap_replicate.
Qed.

Lemma base58_canonical_aux s payload :
  base58checkDecode s = Ok payload -> bytes_ok payload /\ base58checkEncode payload = s.
Proof.
  unfold base58checkDecode. intros Hd. apply res_bind_ok in Hd as (num & Hr & Hd).
  destruct (b58_encode_full _ _ Hr) as [Hok Henc]. rewrite typed_set_at_end in Hd.
  revert Hok Henc Hd. generalize (replicate (count_leading (fun c => Ascii.eqb c "1") (chars s)) 0 ++ digits 256 num).
  intros full Hok Henc Hd. rewrite str_chars in Henc.
  apply res_bind_ok in Hd as (u & Hc%throw_if_ok & [= <-]).
  apply negb_false_iff, every_eq_true in Hc. rewrite checksum4_length in Hc.
  assert (4 <= length full)%nat as Hlen.
  { apply (f_equal length) in Hc. rewrite checksum4_length, length_take in Hc.
    revert Hc. unfold slice_list. rewrite length_take, length_drop. unfold slice_pos.
    destruct (Z.ltb_spec (Z.of_nat (length full) - 4) 0); lia. }
  revert Hc. replace (Z.of_nat (length full) - 4) with (Z.of_nat (length full - 4)) by lia.
  rewrite slice_list_prefix, slice_list_suffix by lia.
  rewrite (take_ge (drop _ _)) by (rewrite length_drop; lia). intros Hc.
  split; [auto with bytes|].
  unfold base58checkEncode. rewrite full_array by apply checksum4_length.
  rewrite Hc, take_drop. exact Henc.
Qed.

End Roundtrip.
