(* ===== verification/JsInt.v ===== *)
(** * The 32-bit integer operators of JavaScript

    [<<], [>>], [>>>], [&], [|] and [^] convert their operands to 32-bit
    integers: signed ones for every operator but [>>>], whose left operand is
    unsigned.  Shift counts are taken modulo 32. *)

From S2P Require Import Prelude.

Open Scope Z_scope.

Definition to_uint32 (z : Z) : Z := z mod 2 ^ 32.
Definition to_int32 (z : Z) : Z := (z + 2 ^ 31) mod 2 ^ 32 - 2 ^ 31.

Definition js_shl (a n : Z) : Z := to_int32 (Z.shiftl (to_int32 a) (n mod 32)).
Definition js_shr (a n : Z) : Z := Z.shiftr (to_int32 a) (n mod 32).
Definition js_ushr (a n : Z) : Z := Z.shiftr (to_uint32 a) (n mod 32).
Definition js_and (a b : Z) : Z := Z.land (to_int32 a) (to_int32 b).
Definition js_or (a b : Z) : Z := Z.lor (to_int32 a) (to_int32 b).
Definition js_xor (a b : Z) : Z := Z.lxor (to_int32 a) (to_int32 b).

Lemma to_int32_mod z : to_int32 z mod 2 ^ 32 = z mod 2 ^ 32.
Proof.
  unfold to_int32. rewrite Zminus_mod_idemp_l. f_equal. lia.
Qed.

Lemma to_int32_id z : - 2 ^ 31 <= z < 2 ^ 31 -> to_int32 z = z.
Proof. intros Hz. unfold to_int32. rewrite Z.mod_small; lia. Qed.

Lemma to_uint32_id z : 0 <= z < 2 ^ 32 -> to_uint32 z = z.
Proof. intros Hz. unfold to_uint32. by apply Z.mod_small. Qed.

(** A congruence modulo [2^32] is a congruence modulo any smaller power. *)
Lemma mod_pow2_weaken a b k :
  0 <= k <= 32 -> a mod 2 ^ 32 = b mod 2 ^ 32 -> a mod 2 ^ k = b mod 2 ^ k.
Proof.
  intros Hk Hab.
  rewrite <-(Z.mod_mod_divide a (2 ^ 32) (2 ^ k)), <-(Z.mod_mod_divide b (2 ^ 32) (2 ^ k)), Hab; [done|..];
    exists (2 ^ (32 - k)); rewrite <-Z.pow_add_r by lia; f_equal; lia.
Qed.

(** Masking with [2^k - 1]. *)
Lemma js_and_mask a k : 0 <= k <= 31 -> js_and a (2 ^ k - 1) = a mod 2 ^ k.
Proof.
  intros Hk. unfold js_and.
  assert (2 ^ k <= 2 ^ 31) by (apply Z.pow_le_mono_r; lia).
  assert (0 < 2 ^ k) by (apply Z.pow_pos_nonneg; lia).
  rewrite (to_int32_id (2 ^ k - 1)) by lia.
  replace (2 ^ k - 1) with (Z.ones k) by (rewrite Z.ones_equiv; lia).
  rewrite Z.land_ones by lia. apply mod_pow2_weaken; [lia|]. apply to_int32_mod.
Qed.

Lemma js_shl_mod a n : 0 <= n < 32 -> js_shl a n mod 2 ^ 32 = (a * 2 ^ n) mod 2 ^ 32.
Proof.
  intros Hn. unfold js_shl. rewrite to_int32_mod, (Z.mod_small n), Z.shiftl_mul_pow2 by lia.
  rewrite <-(Z.mul_mod_idemp_l (to_int32 a)), to_int32_mod, Z.mul_mod_idemp_l by lia. done.
Qed.

(** Shifting right and masking reads a bit field, as long as it lies in the low
    32 bits. *)
Lemma js_ushr_field a n k :
  0 <= n -> 0 <= k <= 31 -> n + k <= 32 -> n < 32 ->
  js_and (js_ushr a n) (2 ^ k - 1) = (a / 2 ^ n) mod 2 ^ k.
Proof.
  intros Hn Hk Hnk Hn32. rewrite js_and_mask by lia. unfold js_ushr, to_uint32.
  rewrite (Z.mod_small n), Z.shiftr_div_pow2 by lia.
  rewrite <-!Z.land_ones by lia. apply Z.bits_inj'. intros i Hi.
  rewrite !Z.land_spec, <-!Z.shiftr_div_pow2, !Z.shiftr_spec, Z.land_spec by lia.
  destruct (Z.lt_ge_cases i k).
  - by rewrite !Z.ones_spec_low, !andb_true_r by lia.
  - by rewrite !(Z.ones_spec_high k i), !andb_false_r by lia.
Qed.

(** Appending [k] low bits to an accumulator that only keeps 32 bits. *)
Lemma js_shl_or_mod acc A k v :
  0 <= k < 32 -> 0 <= v < 2 ^ k -> acc mod 2 ^ 32 = A mod 2 ^ 32 ->
  js_or (js_shl acc k) v mod 2 ^ 32 = (A * 2 ^ k + v) mod 2 ^ 32.
Proof.
  intros Hk Hv HA. unfold js_or.
  assert (2 ^ k <= 2 ^ 31) by (apply Z.pow_le_mono_r; lia).
  rewrite (to_int32_id v) by lia.
  assert (js_shl acc k mod 2 ^ k = 0) as H0.
  { rewrite (mod_pow2_weaken _ (acc * 2 ^ k)) by (lia || by apply js_shl_mod).
    by rewrite Z.mod_mul by lia. }
  assert (to_int32 (js_shl acc k) mod 2 ^ k = 0) as H1.
  { rewrite (mod_pow2_weaken _ (js_shl acc k)); [done|lia|]. apply to_int32_mod. }
  assert (Z.land (to_int32 (js_shl acc k)) v = 0) as Hland.
  { apply Z.bits_inj'. intros i Hi. rewrite Z.land_spec, Z.bits_0.
    destruct (Z.lt_ge_cases i k).
    - rewrite <-(Z.mod_pow2_bits_low _ k) by lia. rewrite H1. by rewrite Z.bits_0.
    - rewrite <-(Z.mod_small v (2 ^ k)) by lia. rewrite Z.mod_pow2_bits_high by lia.
      apply andb_false_r. }
  rewrite <-(Z.lxor_lor _ _ Hland), <-(Z.add_nocarry_lxor _ _ Hland).
  rewrite <-Z.add_mod_idemp_l, to_int32_mod, js_shl_mod by lia.
  rewrite Z.add_mod_idemp_l by lia.
  rewrite <-(Z.add_mod_idemp_l (acc * 2 ^ k)), <-(Z.add_mod_idemp_l (A * 2 ^ k)) by lia.
  rewrite <-(Z.mul_mod_idemp_l acc), HA, Z.mul_mod_idemp_l by lia. done.
Qed.
