(* ===== verification/Bech32.v ===== *)
(** * Bech32

    The Bech32 code of [firstislamiccoin-web-wallet/crypto.js] (lines 106-162):
    the BCH checksum, the regrouping of bits and the two string conversions.
    All integers go through JavaScript's 32-bit operators, as in the source. *)

From S2P Require Import Prelude Digits JsString JsInt Bytes.

Open Scope Z_scope.
Open Scope list_scope.

Definition BECH32_CHARSET : string := "qpzry9x8gf2tvdw0s3jn54khce6mua7l".

Definition GEN : list Z := [0x3b6a57b2; 0x26508e6d; 0x1ea119fa; 0x3d4233dd; 0x2a1462b3].

(** [for (let i = 0; i < 5; i++) if ((top >>> i) & 1) chk ^= GEN[i]] *)
Definition polymod_mix (top chk : Z) (ig : Z * Z) : Z :=
  if js_and (js_ushr top (fst ig)) 1 =? 0 then chk else js_xor chk (snd ig).
Definition polymod_step (chk v : Z) : Z :=
  let top := js_ushr chk 25 in
  let chk := js_xor (js_shl (js_and chk 0x1ffffff) 5) v in
  foldl (polymod_mix top) chk (zip (seqZ 0 5) GEN).
Definition bech32Polymod (values : list Z) : Z := foldl polymod_step 1 values.

Definition bech32HrpExpand (hrp : string) : list Z :=
  ((fun c => js_ushr (code c) 5) <$> chars hrp) ++ [0] ++ ((fun c => js_and (code c) 31) <$> chars hrp).

Definition bech32CreateChecksum (hrp : string) (data : list Z) : list Z :=
  let values := bech32HrpExpand hrp ++ data ++ [0; 0; 0; 0; 0; 0] in
  let mod_ := js_xor (bech32Polymod values) 1 in
  (fun p => js_and (js_ushr mod_ (5 * (5 - p))) 31) <$> seqZ 0 6.

(** [while (bits >= toBits)] of [convertBits]; [bits] drops by [toBits >= 1] each
    turn, so [bits + 1] turns are enough. *)
Fixpoint cb_inner (fuel : nat) (acc bits toBits : Z) (ret : list Z) : Z * list Z :=
  match fuel with
  | O => (bits, ret)
  | S fuel =>
      if bits >=? toBits then
        let bits := bits - toBits in
        cb_inner fuel acc bits toBits (ret ++ [js_and (js_ushr acc bits) (js_shl 1 toBits - 1)])
      else (bits, ret)
  end.

(** The [for (const value of data)] loop; the state is [(acc, bits, ret)]. *)
Fixpoint cb_loop (data : list Z) (fromBits toBits acc bits : Z) (ret : list Z) : res (Z * Z * list Z) :=
  match data with
  | [] => Ok (acc, bits, ret)
  | value :: data =>
      _ ← throw_if ((value <? 0) || negb (js_shr value fromBits =? 0))
            (JsError "Invalid data for bit conversion");
      let acc := js_or (js_shl acc fromBits) value in
      let bits := bits + fromBits in
      let '(bits, ret) := cb_inner (Z.to_nat bits + 1) acc bits toBits ret in
      cb_loop data fromBits toBits acc bits ret
  end.

Definition convertBits (data : list Z) (fromBits toBits : Z) (pad : bool) : res (list Z) :=
  '(acc, bits, ret) ← cb_loop data fromBits toBits 0 0 [];
  let maxv := js_shl 1 toBits - 1 in
  if pad then
    Ok (if bits >? 0 then ret ++ [js_and (js_shl acc (toBits - bits)) maxv] else ret)
  else if (bits >=? fromBits) || negb (js_and (js_shl acc (toBits - bits)) maxv =? 0)
  then Throw (JsError "Invalid padding in bit conversion")
  else Ok ret.

(** [BECH32_CHARSET[d]]; [undefined] joins as the empty string. *)
Definition bech32_char (d : Z) : list ascii :=
  match char_at BECH32_CHARSET d with Some c => [c] | None => [] end.

Definition bech32Encode (hrp : string) (data : list Z) : string :=
  let combined := data ++ bech32CreateChecksum hrp data in
  hrp +:+ "1" +:+ str (mjoin (bech32_char <$> combined)).

Definition bech32Decode (bech : string) : string * list Z :=
  let pos := lastIndexOf bech "1" in
  let hrp := slice bech 0 pos in
  let data := indexOf BECH32_CHARSET <$> chars (slice bech (pos + 1) (-6)) in
  (hrp, data).

(** ** Regrouping bits *)

Lemma maxv_pow k : 0 <= k <= 30 -> js_shl 1 k - 1 = 2 ^ k - 1.
Proof.
  intros Hk. unfold js_shl. rewrite (to_int32_id 1), (Z.mod_small k), Z.shiftl_1_l by lia.
  assert (2 ^ k <= 2 ^ 30) by (apply Z.pow_le_mono_r; lia).
  assert (0 < 2 ^ k) by (apply Z.pow_pos_nonneg; lia). rewrite to_int32_id; lia.
Qed.

Section Regroup.
Context (fromBits toBits : Z) (Hfrom : 1 <= fromBits <= 8) (Hto : 1 <= toBits <= 8).

(** What the loop has produced after [T] bits of value [A]: the complete groups
    of [toBits] bits, most significant first; [bits] bits are left over. *)
Definition regrouped (A T bits : Z) (ret : list Z) : Prop :=
  0 <= bits <= T /\ T = Z.of_nat (length ret) * toBits + bits /\
  digits_ok (2 ^ toBits) ret /\ undigits (2 ^ toBits) ret = A / 2 ^ bits.

Lemma regrouped_push A acc T bits ret :
  regrouped A T bits ret -> toBits <= bits -> bits < 16 -> 0 <= A ->
  acc mod 2 ^ 32 = A mod 2 ^ 32 ->
  regrouped A T (bits - toBits)
    (ret ++ [js_and (js_ushr acc (bits - toBits)) (js_shl 1 toBits - 1)]).
Proof.
  intros (Hb & HT & Hds & Hu) Hge H16 HA Hacc.
  rewrite maxv_pow, js_ushr_field by lia.
  assert ((acc / 2 ^ (bits - toBits)) mod 2 ^ toBits = (A / 2 ^ (bits - toBits)) mod 2 ^ toBits) as ->.
  { rewrite <-!js_ushr_field by lia. f_equal. unfold js_ushr, to_uint32. by rewrite Hacc. }
  set (q := A / 2 ^ (bits - toBits)).
  repeat split; try lia.
  - rewrite length_app. simpl. lia.
  - apply Forall_app. split; [done|]. repeat constructor; apply Z.mod_pos_bound; lia.
  - rewrite undigits_snoc, Hu.
    replace (A / 2 ^ bits) with (q / 2 ^ toBits).
    + pose proof (Z.div_mod q (2 ^ toBits)). lia.
    + unfold q. rewrite Z.div_div by (try apply Z.pow_nonzero; try apply Z.pow_pos_nonneg; lia). rewrite <-Z.pow_add_r by lia. do 2 f_equal. lia.
Qed.

Lemma cb_inner_spec fuel A acc T bits ret :
  regrouped A T bits ret -> bits < 16 -> 0 <= A -> acc mod 2 ^ 32 = A mod 2 ^ 32 ->
  (Z.to_nat bits < fuel)%nat ->
  exists bits' ret', cb_inner fuel acc bits toBits ret = (bits', ret') /\
    regrouped A T bits' ret' /\ bits' < toBits.
Proof.
  revert bits ret. induction fuel as [|fuel IH]; intros bits ret Hr H16 HA Hacc Hf; [lia|].
  simpl. destruct (Z.geb_spec bits toBits) as [Hge|Hlt].
  - destruct (IH (bits - toBits) (ret ++ [js_and (js_ushr acc (bits - toBits)) (js_shl 1 toBits - 1)]))
      as (b' & r' & H1 & H2 & H3); try done; try lia.
    + by apply regrouped_push.
    + by exists b', r'.
  - by exists bits, ret.
Qed.

Lemma guard_ok v :
  0 <= v < 2 ^ fromBits -> (v <? 0) || negb (js_shr v fromBits =? 0) = false.
Proof.
  intros Hv. destruct (Z.ltb_spec v 0); [lia|]. simpl.
  assert (2 ^ fromBits <= 2 ^ 8) by (apply Z.pow_le_mono_r; lia).
  unfold js_shr. rewrite to_int32_id, (Z.mod_small fromBits), Z.shiftr_div_pow2 by lia.
  by rewrite Z.div_small.
Qed.

Lemma guard_bad v :
  - 2 ^ 31 <= v < 2 ^ 31 -> (v <? 0) || negb (js_shr v fromBits =? 0) = false -> 0 <= v < 2 ^ fromBits.
Proof.
  intros Hv [H1 H2]%orb_false_iff. b2p.
  unfold js_shr in H2. rewrite to_int32_id, (Z.mod_small fromBits), Z.shiftr_div_pow2 in H2 by lia.
  apply Z.div_small_iff in H2; lia.
Qed.

(** The loop on well-formed groups never throws and regroups the whole input,
    although its accumulator only keeps 32 bits. *)
Lemma cb_loop_spec data A T acc bits ret :
  digits_ok (2 ^ fromBits) data -> regrouped A T bits ret -> bits < toBits -> 0 <= A ->
  acc mod 2 ^ 32 = A mod 2 ^ 32 ->
  exists acc' bits' ret', cb_loop data fromBits toBits acc bits ret = Ok (acc', bits', ret') /\
    let A' := A * (2 ^ fromBits) ^ Z.of_nat (length data) + undigits (2 ^ fromBits) data in
    regrouped A' (T + fromBits * Z.of_nat (length data)) bits' ret' /\
    bits' < toBits /\ 0 <= A' /\ acc' mod 2 ^ 32 = A' mod 2 ^ 32.
Proof.
  intros Hds. revert A T acc bits ret.
  induction Hds as [|v data Hv Hds IH]; intros A T acc bits ret Hr Hb HA Hacc.
  - exists acc, bits, ret. simpl. rewrite Z.mul_1_r, Z.mul_0_r, !Z.add_0_r. done.
  - simpl cb_loop. rewrite guard_ok by done. cbn [throw_if mbind res_bind].
    assert (0 < 2 ^ fromBits) as Hpow by lia.
    set (A1 := A * 2 ^ fromBits + v).
    assert (regrouped A1 (T + fromBits) (bits + fromBits) ret) as Hr1.
    { destruct Hr as (Hb0 & HT & Hok & Hu). repeat split; try lia; try done.
      rewrite Hu. unfold A1. rewrite (Z.add_comm bits), Z.pow_add_r by lia.
      rewrite <-Z.div_div by (try apply Z.pow_pos_nonneg; lia).
      f_equal. rewrite Z.div_add_l, Z.div_small by lia. lia. }
    pose proof (js_shl_or_mod acc A fromBits v ltac:(lia) Hv Hacc) as Hacc1. fold A1 in Hacc1.
    destruct (cb_inner_spec (Z.to_nat (bits + fromBits) + 1) A1
                (js_or (js_shl acc fromBits) v) (T + fromBits) (bits + fromBits) ret)
      as (b2 & r2 & Hin & Hr2 & Hb2); try done; try lia.
    rewrite Hin.
    destruct (IH A1 (T + fromBits) (js_or (js_shl acc fromBits) v) b2 r2)
      as (acc' & b' & r' & Hl & Hr' & Hb' & HA' & Hacc'); try done; try lia.
    exists acc', b', r'. split; [done|].
    rewrite undigits_cons. simpl length. rewrite Nat2Z.inj_succ, Z.pow_succ_r by lia.
    replace (A * (2 ^ fromBits * (2 ^ fromBits) ^ Z.of_nat (length data)) +
             (v * (2 ^ fromBits) ^ Z.of_nat (length data) + undigits (2 ^ fromBits) data))
      with (A1 * (2 ^ fromBits) ^ Z.of_nat (length data) + undigits (2 ^ fromBits) data)
      by (unfold A1; ring).
    replace (T + fromBits * Z.succ (Z.of_nat (length data)))
      with (T + fromBits + fromBits * Z.of_nat (length data)) by ring.
    done.
Qed.

Lemma cb_loop_all data :
  digits_ok (2 ^ fromBits) data ->
  exists acc bits ret, cb_loop data fromBits toBits 0 0 [] = Ok (acc, bits, ret) /\
    regrouped (undigits (2 ^ fromBits) data) (fromBits * Z.of_nat (length data)) bits ret /\
    bits < toBits /\ acc mod 2 ^ 32 = undigits (2 ^ fromBits) data mod 2 ^ 32.
Proof.
  intros Hds. destruct (cb_loop_spec data 0 0 0 0 []) as (acc & bits & ret & Hl & Hr & Hb & _ & Ha);
    try done; try lia.
  - repeat split; try lia; try constructor. 
  - exists acc, bits, ret. by rewrite Z.mul_0_l, !Z.add_0_l in *.
Qed.

(** The padding group: the left-over bits followed by zeros. *)
Lemma cb_padding A acc bits :
  0 <= bits < toBits -> 0 <= A -> acc mod 2 ^ 32 = A mod 2 ^ 32 ->
  js_and (js_shl acc (toBits - bits)) (js_shl 1 toBits - 1) = (A mod 2 ^ bits) * 2 ^ (toBits - bits).
Proof.
  intros Hb HA Hacc. rewrite maxv_pow, js_and_mask by lia.
  rewrite (mod_pow2_weaken _ (A * 2 ^ (toBits - bits))).
  - replace (2 ^ toBits) with (2 ^ bits * 2 ^ (toBits - bits))
      by (rewrite <-Z.pow_add_r by lia; f_equal; lia).
    rewrite Z.mul_mod_distr_r by (apply Z.pow_nonzero; lia). done.
  - lia.
  - rewrite js_shl_mod by lia. by rewrite <-Z.mul_mod_idemp_l, Hacc, Z.mul_mod_idemp_l by lia.
Qed.

End Regroup.

(** Padded conversion always succeeds on well-formed groups: the output holds
    the same bits, followed by fewer than [toBits] zero bits. *)
Lemma convertBits_pad data fromBits toBits :
  1 <= fromBits <= 8 -> 1 <= toBits <= 8 -> digits_ok (2 ^ fromBits) data ->
  exists out k, convertBits data fromBits toBits true = Ok out /\ digits_ok (2 ^ toBits) out /\
    0 <= k < toBits /\ fromBits * Z.of_nat (length data) + k = toBits * Z.of_nat (length out) /\
    undigits (2 ^ toBits) out = undigits (2 ^ fromBits) data * 2 ^ k.
Proof.
  intros Hf Ht Hds.
  destruct (cb_loop_all fromBits toBits Hf Ht data Hds) as (acc & bits & ret & Hl & Hr & Hb & Ha).
  destruct Hr as (Hb0 & HT & Hok & Hu). unfold convertBits. rewrite Hl. cbn [mbind res_bind].
  pose proof (undigits_bound (2 ^ fromBits) data ltac:(lia) Hds) as Hbound.
  destruct (Z.gtb_spec bits 0) as [Hgt|Hle].
  - rewrite (cb_padding toBits Ht (undigits (2 ^ fromBits) data)) by lia.
    eexists _, (toBits - bits). split; [done|].
    pose proof (Z.mod_pos_bound (undigits (2 ^ fromBits) data) (2 ^ bits) ltac:(lia)).
    assert (2 ^ toBits = 2 ^ bits * 2 ^ (toBits - bits)) as Hpow
      by (rewrite <-Z.pow_add_r by lia; f_equal; lia).
    split; [|split; [lia|split]].
    + apply Forall_app. split; [done|]. repeat constructor; nia.
    + rewrite length_app. simpl. lia.
    + rewrite undigits_snoc, Hu, Hpow.
      pose proof (Z.div_mod (undigits (2 ^ fromBits) data) (2 ^ bits)). nia.
  - assert (bits = 0) as -> by lia. exists ret, 0.
    rewrite Z.div_1_r in Hu. repeat split; try done; lia.
Qed.

(** Unpadded conversion succeeds exactly when the bits that do not fill a group
    are fewer than [fromBits] and all zero. *)
Lemma convertBits_nopad data fromBits toBits m k B :
  1 <= fromBits <= 8 -> 1 <= toBits <= 8 -> digits_ok (2 ^ fromBits) data ->
  0 <= k < fromBits -> k < toBits -> 0 <= B ->
  fromBits * Z.of_nat (length data) = toBits * m + k -> undigits (2 ^ fromBits) data = B * 2 ^ k ->
  exists out, convertBits data fromBits toBits false = Ok out /\ digits_ok (2 ^ toBits) out /\
    Z.of_nat (length out) = m /\ undigits (2 ^ toBits) out = B.
Proof.
  intros Hf Ht Hds Hk Hkt HB HT HU.
  destruct (cb_loop_all fromBits toBits Hf Ht data Hds) as (acc & bits & ret & Hl & Hr & Hb & Ha).
  destruct Hr as (Hb0 & HT' & Hok & Hu).
  assert (bits = k /\ Z.of_nat (length ret) = m) as [-> Hm].
  { rewrite HT in HT'. assert (Z.of_nat (length ret) = m) by nia. split; nia. }
  unfold convertBits. rewrite Hl. cbn [mbind res_bind].
  rewrite (cb_padding toBits Ht (undigits (2 ^ fromBits) data)) by (lia || done).
  rewrite HU, Z.mod_mul, Z.mul_0_l by lia.
  destruct (Z.geb_spec k fromBits); [lia|]. simpl.
  exists ret. repeat split; try done. rewrite Hu, HU. apply Z.div_mul. lia.
Qed.

(** Regrouping with padding and back without gives the original groups. *)
Lemma convertBits_roundtrip_aux data a b out :
  1 <= b <= a -> a <= 8 -> digits_ok (2 ^ a) data ->
  convertBits data a b true = Ok out -> convertBits out b a false = Ok data.
Proof.
  intros Hba Ha Hds Hc.
  destruct (convertBits_pad data a b ltac:(lia) ltac:(lia) Hds)
    as (out' & k & Hc' & Hok & Hk & Hlen & Hu). rewrite Hc in Hc'. injection Hc' as <-.
  pose proof (undigits_bound (2 ^ a) data ltac:(lia) Hds).
  destruct (convertBits_nopad out b a (Z.of_nat (length data)) k (undigits (2 ^ a) data))
    as (data' & Hc2 & Hok2 & Hlen2 & Hu2); try done; try lia.
  rewrite Hc2. f_equal. apply (undigits_inj (2 ^ a)); try done; try lia.
  pose proof (Z.pow_le_mono_r 2 1 a). lia.
Qed.

Lemma convertBits_total_pad data a b :
  1 <= a <= 8 -> 1 <= b <= 8 -> digits_ok (2 ^ a) data ->
  exists out, convertBits data a b true = Ok out /\ digits_ok (2 ^ b) out /\
    Z.of_nat (length out) = (a * Z.of_nat (length data) + b - 1) / b.
Proof.
  intros Ha Hb Hds. destruct (convertBits_pad data a b Ha Hb Hds) as (out & k & Hc & Hok & Hk & Hlen & _).
  exists out. repeat split; try done.
  replace (a * Z.of_nat (length data) + b - 1) with (Z.of_nat (length out) * b + (b - 1 - k)) by lia.
  rewrite Z.div_add_l, Z.div_small; lia.
Qed.

(** ** The checksum is linear over exclusive or *)

Lemma lxor_bound n a b : 0 <= n -> 0 <= a < 2 ^ n -> 0 <= b < 2 ^ n -> 0 <= Z.lxor a b < 2 ^ n.
Proof.
  intros Hn Ha Hb.
  replace (Z.lxor a b) with (Z.lxor a b mod 2 ^ n); [apply Z.mod_pos_bound; lia|].
  rewrite <-Z.land_ones by done. apply Z.bits_inj'. intros i Hi. rewrite Z.land_spec, Z.lxor_spec.
  destruct (Z.lt_ge_cases i n); [by rewrite Z.ones_spec_low, andb_true_r by lia|].
  rewrite Z.ones_spec_high, andb_false_r by lia.
  rewrite <-(Z.mod_small a (2 ^ n)), <-(Z.mod_small b (2 ^ n)) by done.
  by rewrite !Z.mod_pow2_bits_high by lia.
Qed.

Lemma js_xor_small a b : 0 <= a < 2 ^ 30 -> 0 <= b < 2 ^ 30 -> js_xor a b = Z.lxor a b.
Proof. intros Ha Hb. unfold js_xor. rewrite !to_int32_id by lia. done. Qed.

Definition gen_if (b : bool) (g : Z) : Z := if b then g else 0.

(** The feedback of the five top bits, and one step without its input. *)
Definition feedback (top : Z) : Z :=
  Z.lxor (gen_if (Z.testbit top 0) 0x3b6a57b2)
  (Z.lxor (gen_if (Z.testbit top 1) 0x26508e6d)
  (Z.lxor (gen_if (Z.testbit top 2) 0x1ea119fa)
  (Z.lxor (gen_if (Z.testbit top 3) 0x3d4233dd)
          (gen_if (Z.testbit top 4) 0x2a1462b3)))).
Definition shift5 (chk : Z) : Z :=
  Z.lxor (Z.shiftl (Z.land chk (Z.ones 25)) 5) (feedback (Z.shiftr chk 25)).

Ltac lxor_eq := apply Z.bits_inj'; intros ? ?; rewrite ?Z.lxor_spec, ?Z.bits_0;
  repeat match goal with |- context [Z.testbit ?a ?i] => destruct (Z.testbit a i) end; reflexivity.

Lemma gen_if_bound b g : 0 <= g < 2 ^ 30 -> 0 <= gen_if b g < 2 ^ 30.
Proof. destruct b; simpl; lia. Qed.

Lemma feedback_bound t : 0 <= feedback t < 2 ^ 30.
Proof.
  unfold feedback. repeat apply lxor_bound; try apply gen_if_bound; lia.
Qed.

Lemma shift_part_bound chk : 0 <= Z.shiftl (Z.land chk (Z.ones 25)) 5 < 2 ^ 30.
Proof.
  rewrite Z.land_ones, Z.shiftl_mul_pow2 by lia. pose proof (Z.mod_pos_bound chk (2 ^ 25)). lia.
Qed.

Lemma shift5_bound chk : 0 <= shift5 chk < 2 ^ 30.
Proof. apply lxor_bound; [lia|apply shift_part_bound|apply feedback_bound]. Qed.

Lemma polymod_mix_spec top chk i g :
  0 <= top < 32 -> 0 <= chk < 2 ^ 30 -> 0 <= g < 2 ^ 30 -> 0 <= i < 5 ->
  polymod_mix top chk (i, g) = Z.lxor chk (gen_if (Z.testbit top i) g).
Proof.
  intros Ht Hc Hg Hi. unfold polymod_mix; cbn [fst snd].
  change (js_and (js_ushr top i) 1) with (js_and (js_ushr top i) (2 ^ 1 - 1)).
  rewrite js_ushr_field by lia. change (2 ^ 1) with 2. rewrite <-Z.testbit_spec' by lia.
  destruct (Z.testbit top i); simpl; [by apply js_xor_small|by rewrite Z.lxor_0_r].
Qed.

Lemma polymod_step_spec chk v :
  0 <= chk < 2 ^ 30 -> 0 <= v < 2 ^ 30 -> polymod_step chk v = Z.lxor (shift5 chk) v.
Proof.
  intros Hc Hv. unfold polymod_step.
  assert (js_ushr chk 25 = Z.shiftr chk 25) as ->.
  { unfold js_ushr. by rewrite to_uint32_id by lia. }
  assert (0 <= Z.shiftr chk 25 < 32) as Ht.
  { rewrite Z.shiftr_div_pow2 by lia. split; [apply Z.div_pos|apply Z.div_lt_upper_bound]; lia. }
  change 0x1ffffff with (2 ^ 25 - 1). rewrite js_and_mask, <-Z.land_ones by lia.
  pose proof (shift_part_bound chk) as Hs.
  assert (js_shl (Z.land chk (Z.ones 25)) 5 = Z.shiftl (Z.land chk (Z.ones 25)) 5) as ->.
  { unfold js_shl. rewrite (to_int32_id (Z.land _ _)); [rewrite to_int32_id; [done|]|].
    - change (5 mod 32) with 5. lia.
    - rewrite Z.land_ones by lia. pose proof (Z.mod_pos_bound chk (2 ^ 25)). lia. }
  rewrite js_xor_small by lia.
  unfold shift5, feedback. generalize dependent (Z.shiftr chk 25). intros top Ht.
  generalize dependent (Z.shiftl (Z.land chk (Z.ones 25)) 5). intros x Hx.
  change (zip (seqZ 0 5) GEN) with
    [(0, 0x3b6a57b2); (1, 0x26508e6d); (2, 0x1ea119fa); (3, 0x3d4233dd); (4, 0x2a1462b3)].
  cbn [foldl].
  do 5 match goal with
  | |- context [polymod_mix top ?c (?i, ?g)] =>
      lazymatch c with context [polymod_mix] => fail | _ => idtac end;
      rewrite (polymod_mix_spec top c i g)
        by (try lia; repeat apply lxor_bound; try apply gen_if_bound; lia)
  end.
  lxor_eq.
Qed.

Lemma gen_if_lxor b c g : gen_if (xorb b c) g = Z.lxor (gen_if b g) (gen_if c g).
Proof. destruct b, c; simpl; by rewrite ?Z.lxor_0_r, ?Z.lxor_0_l, ?Z.lxor_nilpotent. Qed.

Lemma feedback_lxor s t : feedback (Z.lxor s t) = Z.lxor (feedback s) (feedback t).
Proof.
  unfold feedback. rewrite !Z.lxor_spec, !gen_if_lxor.
  generalize (gen_if (Z.testbit s 0) 0x3b6a57b2), (gen_if (Z.testbit s 1) 0x26508e6d),
    (gen_if (Z.testbit s 2) 0x1ea119fa), (gen_if (Z.testbit s 3) 0x3d4233dd), (gen_if (Z.testbit s 4) 0x2a1462b3),
    (gen_if (Z.testbit t 0) 0x3b6a57b2), (gen_if (Z.testbit t 1) 0x26508e6d),
    (gen_if (Z.testbit t 2) 0x1ea119fa), (gen_if (Z.testbit t 3) 0x3d4233dd), (gen_if (Z.testbit t 4) 0x2a1462b3).
  intros. lxor_eq.
Qed.

Lemma land_lxor_ones a b n : 0 <= n ->
  Z.land (Z.lxor a b) (Z.ones n) = Z.lxor (Z.land a (Z.ones n)) (Z.land b (Z.ones n)).
Proof.
  intros Hn. apply Z.bits_inj'. intros i Hi. rewrite !Z.land_spec, !Z.lxor_spec, !Z.land_spec.
  by destruct (Z.testbit a i), (Z.testbit b i), (Z.testbit (Z.ones n) i).
Qed.

Lemma shift5_lxor a b : shift5 (Z.lxor a b) = Z.lxor (shift5 a) (shift5 b).
Proof.
  unfold shift5. rewrite Z.shiftr_lxor, feedback_lxor, land_lxor_ones, Z.shiftl_lxor by lia.
  generalize (Z.shiftl (Z.land a (Z.ones 25)) 5), (Z.shiftl (Z.land b (Z.ones 25)) 5),
    (feedback (Z.shiftr a 25)), (feedback (Z.shiftr b 25)). intros. lxor_eq.
Qed.

(** Below [2^25] a step is a plain shift: there is no feedback. *)
Lemma shift5_small y : 0 <= y < 2 ^ 25 -> shift5 y = y * 32.
Proof.
  intros Hy. unfold shift5. rewrite Z.land_ones, Z.mod_small, Z.shiftl_mul_pow2 by lia.
  rewrite Z.shiftr_div_pow2, Z.div_small by lia. change (feedback 0) with 0. by rewrite Z.lxor_0_r.
Qed.

Lemma feedback_low t : 0 <= t < 32 -> feedback t mod 32 = 0 -> t = 0.
Proof.
  intros Ht Hz. destruct (Z.eqb_spec t 0); [done|].
  assert (negb (feedback t mod 32 =? 0) = true); [|by rewrite Hz in *].
  apply (forallb_seqZ (fun t => negb (feedback t mod 32 =? 0)) 1 31); [by vm_compute|lia].
Qed.

(** A step loses nothing: the zero state is the only one that maps to zero. *)
Lemma shift5_zero x : 0 <= x < 2 ^ 30 -> shift5 x = 0 -> x = 0.
Proof.
  intros Hx Hz. unfold shift5 in Hz. apply Z.lxor_eq in Hz.
  assert (0 <= Z.shiftr x 25 < 32).
  { rewrite Z.shiftr_div_pow2 by lia. split; [apply Z.div_pos|apply Z.div_lt_upper_bound]; lia. }
  assert (Z.shiftr x 25 = 0) as H0.
  { apply feedback_low; [done|]. rewrite <-Hz, Z.shiftl_mul_pow2 by lia.
    change (2 ^ 5) with 32. by apply Z.mod_mul. }
  rewrite H0 in Hz. change (feedback 0) with 0 in Hz.
  rewrite Z.shiftl_mul_pow2, Z.land_ones in Hz by lia.
  rewrite Z.shiftr_div_pow2 in H0 by lia.
  rewrite (Z.div_mod x (2 ^ 25)); lia.
Qed.

Lemma shift5_inj x y : 0 <= x < 2 ^ 30 -> 0 <= y < 2 ^ 30 -> shift5 x = shift5 y -> x = y.
Proof.
  intros Hx Hy H. apply Z.lxor_eq. apply shift5_zero; [by apply lxor_bound|].
  rewrite shift5_lxor, H. apply Z.lxor_nilpotent.
Qed.

(** ** Runs of the checksum *)

Lemma polymod_run_bound chk vs :
  0 <= chk < 2 ^ 30 -> digits_ok 32 vs -> 0 <= foldl polymod_step chk vs < 2 ^ 30.
Proof.
  intros Hc Hvs. revert chk Hc. induction Hvs as [|v vs Hv _ IH]; intros chk Hc; simpl; [done|].
  apply IH. rewrite polymod_step_spec by lia. apply lxor_bound; [lia|apply shift5_bound|lia].
Qed.

Lemma polymod_run_inj vs c d :
  0 <= c < 2 ^ 30 -> 0 <= d < 2 ^ 30 -> digits_ok 32 vs ->
  foldl polymod_step c vs = foldl polymod_step d vs -> c = d.
Proof.
  intros Hc Hd Hvs. revert c d Hc Hd. induction Hvs as [|v vs Hv _ IH]; intros c d Hc Hd; simpl; [done|].
  rewrite !polymod_step_spec by lia. intros H.
  apply IH in H; try (apply lxor_bound; [lia|apply shift5_bound|lia]).
  apply shift5_inj; try done.
  rewrite <-(Z.lxor_0_r (shift5 c)), <-(Z.lxor_0_r (shift5 d)), <-(Z.lxor_nilpotent v).
  by rewrite <-!Z.lxor_assoc, H.
Qed.

Lemma lxor_low u c : 0 <= u -> 0 <= c < 32 -> Z.lxor (u * 32) c = u * 32 + c.
Proof.
  intros Hu Hc. symmetry. apply Z.add_nocarry_lxor. apply Z.bits_inj'. intros i Hi.
  rewrite Z.land_spec, Z.bits_0. change 32 with (2 ^ 5).
  destruct (Z.lt_ge_cases i 5); [by rewrite Z.mul_pow2_bits_low|].
  rewrite <-(Z.mod_small c (2 ^ 5)) by lia. rewrite Z.mod_pow2_bits_high by lia. apply andb_false_r.
Qed.

(** Up to six trailing groups enter the state as one integer. *)
Lemma polymod_run_tail chk cs :
  0 <= chk < 2 ^ 30 -> digits_ok 32 cs -> (length cs <= 6)%nat ->
  foldl polymod_step chk cs =
    Z.lxor (foldl polymod_step chk (replicate (length cs) 0)) (undigits 32 cs).
Proof.
  intros Hc. induction cs as [|c cs IH] using rev_ind; intros Hcs Hlen.
  - simpl. unfold undigits; simpl. by rewrite Z.lxor_0_r.
  - apply Forall_app in Hcs as [Hcs [Hc0 _]%Forall_cons_1]. rewrite length_app in Hlen; simpl in Hlen.
    rewrite foldl_app. cbn [foldl]. rewrite IH by (done || lia).
    rewrite length_app. simpl (length [c]). rewrite Nat.add_1_r, replicate_S_end, foldl_app. cbn [foldl].
    assert (digits_ok 32 (replicate (length cs) 0)) as Hz by (apply Forall_replicate; lia).
    pose proof (polymod_run_bound chk _ Hc Hz) as HF.
    pose proof (undigits_bound 32 cs ltac:(lia) Hcs) as HU.
    assert (undigits 32 cs < 2 ^ 25) as HU25.
    { eapply Z.lt_le_trans; [apply HU|]. change (2 ^ 25) with (32 ^ 5). apply Z.pow_le_mono_r; lia. }
    rewrite !polymod_step_spec by (lia || apply lxor_bound; lia).
    rewrite shift5_lxor, (shift5_small (undigits _ _)), Z.lxor_0_r, undigits_snoc by lia.
    rewrite Z.lxor_assoc, lxor_low by lia. done.
Qed.

Lemma code_low c : 0 <= js_and (code c) 31 < 32.
Proof.
  change 31 with (2 ^ 5 - 1). rewrite js_and_mask by lia. apply Z.mod_pos_bound. lia.
Qed.
Lemma code_high c : 0 <= js_ushr (code c) 5 < 32.
Proof.
  pose proof (code_bound c). unfold js_ushr. change (5 mod 32) with 5.
  rewrite to_uint32_id by lia. rewrite Z.shiftr_div_pow2 by lia. split; [apply Z.div_pos|apply Z.div_lt_upper_bound]; lia.
Qed.

Lemma hrpExpand_ok hrp : digits_ok 32 (bech32HrpExpand hrp).
Proof.
  unfold bech32HrpExpand. repeat (apply Forall_app; split).
  - apply Forall_fmap, Forall_true. apply code_high.
  - repeat constructor; lia.
  - apply Forall_fmap, Forall_true. apply code_low.
Qed.

Lemma checksum_ok hrp data : digits_ok 32 (bech32CreateChecksum hrp data).
Proof.
  apply Forall_fmap, Forall_true. intros p. simpl.
  change 31 with (2 ^ 5 - 1). rewrite js_and_mask by lia. apply Z.mod_pos_bound. lia.
Qed.

Lemma checksum_length hrp data : length (bech32CreateChecksum hrp data) = 6%nat.
Proof. done. Qed.

(** The six groups are the 30-bit remainder, most significant first. *)
Lemma checksum_value m : 0 <= m < 2 ^ 30 ->
  undigits 32 ((fun p => js_and (js_ushr m (5 * (5 - p))) 31) <$> seqZ 0 6) = m.
Proof.
  intros Hm. change 31 with (2 ^ 5 - 1). change (seqZ 0 6) with [0; 1; 2; 3; 4; 5].
  cbn [fmap list_fmap]. rewrite !js_ushr_field by lia.
  unfold undigits. cbn [foldl]. cbn [Z.sub Z.opp Z.add Pos.add Pos.succ Z.mul Pos.mul Z.pos_sub Pos.pred_double].
  Z.div_mod_to_equations. lia.
Qed.

Lemma polymod_app l1 l2 : bech32Polymod (l1 ++ l2) = foldl polymod_step (bech32Polymod l1) l2.
Proof. apply foldl_app. Qed.

(** ** Strings *)

Lemma charset_NoDup : NoDup (chars BECH32_CHARSET).
Proof. apply (bool_decide_unpack _). by vm_compute. Qed.

Lemma bech32_char_some d : 0 <= d < 32 ->
  exists c, char_at BECH32_CHARSET d = Some c /\ indexOf BECH32_CHARSET c = d /\ Ascii.eqb c "1" = false.
Proof.
  intros Hd. destruct (char_at BECH32_CHARSET d) as [c|] eqn:Hc.
  - exists c. split; [done|split].
    + apply indexOf_char_at; [apply charset_NoDup|done].
    + destruct (Ascii.eqb_spec c "1"); [subst|done]. exfalso.
      apply (indexOf_char_at _ _ _ charset_NoDup) in Hc. revert Hc. vm_compute (indexOf _ _). lia.
  - exfalso. cut (is_someb (char_at BECH32_CHARSET d) = true); [by rewrite Hc|].
    apply (forallb_seqZ (fun d => is_someb (char_at BECH32_CHARSET d)) 0 32); [by vm_compute|lia].
Qed.

(** The characters of a list of groups, one per group, none of them ['1']. *)
Lemma bech32_chars ds : digits_ok 32 ds ->
  exists cs, mjoin (bech32_char <$> ds) = cs /\ length cs = length ds /\
    indexOf BECH32_CHARSET <$> cs = ds /\ Forall (fun c => Ascii.eqb c "1" = false) cs.
Proof.
  induction 1 as [|d ds Hd _ (cs & H1 & H2 & H3 & H4)]; [by exists []|].
  destruct (bech32_char_some d Hd) as (c & Hc & Hi & Hn).
  exists (c :: cs). rewrite !fmap_cons, Hi, H3. simpl length. rewrite H2.
  split; [|by repeat constructor].
  simpl. unfold bech32_char at 1. rewrite Hc. simpl. f_equal. exact H1.
Qed.

Lemma index_in_skip l1 l2 c i :
  Forall (fun x => Ascii.eqb x c = false) l1 ->
  index_in (l1 ++ c :: l2) c i = i + Z.of_nat (length l1).
Proof.
  intros H. revert i. induction H as [|x l Hx _ IH]; intros i; simpl.
  - rewrite eqb_ascii_refl. lia.
  - rewrite Hx, IH. lia.
Qed.

Lemma lastIndexOf_spec (s1 : string) cs c :
  Forall (fun x => Ascii.eqb x c = false) cs ->
  lastIndexOf (s1 +:+ str (c :: cs)) c = strlen s1.
Proof.
  intros H. unfold lastIndexOf, strlen. rewrite chars_app, chars_str, reverse_app, reverse_cons, <-app_assoc.
  cbn [app]. rewrite index_in_skip by (by apply Forall_reverse).
  rewrite length_reverse, length_app. simpl length.
  destruct (Z.eqb_spec (0 + Z.of_nat (length cs)) (-1)); lia.
Qed.

Lemma slice_prefix s t : slice (s +:+ t) 0 (strlen s) = s.
Proof.
  unfold slice. apply chars_inj. rewrite chars_str, chars_app. unfold strlen, slice_list, slice_pos.
  rewrite length_app. destruct (Z.ltb_spec (Z.of_nat (length (chars s))) 0); [lia|]. simpl.
  rewrite (Z.min_l 0), Z.min_l, Z.sub_0_r, Nat2Z.id by lia. simpl. apply take_app_length.
Qed.

(** Dropping the separator and the last six characters leaves the data part. *)
Lemma slice_data (hrp : string) c ds cks :
  length cks = 6%nat ->
  slice (hrp +:+ str (c :: ds ++ cks)) (strlen hrp + 1) (-6) = str ds.
Proof.
  intros H6. unfold slice. f_equal. rewrite chars_app, chars_str. unfold slice_list, slice_pos, strlen.
  rewrite !length_app. simpl length. rewrite length_app, H6.
  destruct (Z.ltb_spec (Z.of_nat (length (chars hrp)) + 1) 0); [lia|]. cbn [Z.ltb Z.compare].
  rewrite Z.min_l, Z.max_l by lia.
  replace (Z.to_nat (Z.of_nat (length (chars hrp)) + 1)) with (length (chars hrp) + 1)%nat by lia.
  rewrite drop_app_add. simpl drop.
  replace (Z.to_nat _) with (length ds) by lia. apply take_app_length.
Qed.

Lemma bech32_roundtrip_aux hrp data :
  digits_ok 32 data -> bech32Decode (bech32Encode hrp data) = (hrp, data).
Proof.
  intros Hd. unfold bech32Encode.
  destruct (bech32_chars data Hd) as (ds & Hds & Hlen & Hi & Hn).
  destruct (bech32_chars (bech32CreateChecksum hrp data) (checksum_ok hrp data)) as (cks & Hck & Hl6 & _ & Hn6).
  rewrite fmap_app, join_app, Hds, Hck. unfold bech32Decode.
  change ("1" +:+ str (ds ++ cks)) with (str ("1"%char :: ds ++ cks)).
  rewrite lastIndexOf_spec by (by apply Forall_app).
  rewrite slice_prefix, slice_data by done. by rewrite chars_str, Hi.
Qed.

(** ** Properties *)

(** The six groups [bech32CreateChecksum] appends make the checksum of the
    whole address (prefix, data, checksum) equal to 1, the BIP-173 condition for
    a valid Bech32 string. *)
Theorem bech32_checksum_valid hrp data (Hdata : digits_ok 32 data) :
  bech32Polymod (bech32HrpExpand hrp ++ data ++ bech32CreateChecksum hrp data) = 1.
Proof.
  rewrite app_assoc, polymod_app.
  assert (digits_ok 32 (bech32HrpExpand hrp ++ data)) as Hok
    by (apply Forall_app; split; [apply hrpExpand_ok|done]).
  pose proof (polymod_run_bound 1 _ ltac:(lia) Hok) as HP. fold (bech32Polymod (bech32HrpExpand hrp ++ data)) in HP.
  rewrite polymod_run_tail by (try apply checksum_ok; done || lia).
  rewrite checksum_length. unfold bech32CreateChecksum.
  change [0; 0; 0; 0; 0; 0] with (replicate 6 0).
  rewrite (app_assoc _ data), (polymod_app (bech32HrpExpand hrp ++ data)).
  pose proof (polymod_run_bound _ (replicate 6 0) HP ltac:(apply Forall_replicate; lia)) as HF.
  set (F := foldl polymod_step _ (replicate 6 0)) in *.
  rewrite js_xor_small, checksum_value by (try apply lxor_bound; lia).
  by rewrite <-Z.lxor_assoc, Z.lxor_nilpotent, Z.lxor_0_l.
Qed.

(** changing any one group of a valid Bech32 string (data or checksum part)
    gives a string whose checksum no longer verifies. *)
Theorem bech32_detects_substitution hrp pre a b post
  (Ha : digits_ok 32 (pre ++ a :: post)) (Hb : 0 <= b < 32) (Hab : a <> b)
  (Hvalid : bech32Polymod (bech32HrpExpand hrp ++ pre ++ a :: post) = 1) :
  bech32Polymod (bech32HrpExpand hrp ++ pre ++ b :: post) <> 1.
Proof.
  intros Hb1. rewrite <-Hb1 in Hvalid. clear Hb1. revert Hvalid.
  rewrite !(app_assoc (bech32HrpExpand hrp) pre), !(polymod_app (bech32HrpExpand hrp ++ pre)). cbn [foldl].
  apply Forall_app in Ha as [Hpre [Ha Hpost]%Forall_cons_1].
  assert (digits_ok 32 (bech32HrpExpand hrp ++ pre)) as Hok
    by (apply Forall_app; split; [apply hrpExpand_ok|done]).
  pose proof (polymod_run_bound 1 _ ltac:(lia) Hok) as HP. fold (bech32Polymod (bech32HrpExpand hrp ++ pre)) in HP.
  rewrite !polymod_step_spec by lia. intros H. apply Hab.
  apply polymod_run_inj in H; try (apply lxor_bound; [lia|apply shift5_bound|lia]); try done.
  apply (f_equal (Z.lxor (shift5 (bech32Polymod (bech32HrpExpand hrp ++ pre))))) in H.
  by rewrite <-!Z.lxor_assoc, !Z.lxor_nilpotent, !Z.lxor_0_l in H.
Qed.

(** Regrouping 8-bit bytes into 5-bit groups with padding always succeeds,
    and regrouping the result back without padding returns the same bytes, for
    inputs of any length, although the accumulator of [convertBits] keeps only
    32 bits. *)
Theorem convertBits_8_5_8 data (Hdata : bytes_ok data) :
  exists groups, convertBits data 8 5 true = Ok groups /\ digits_ok 32 groups /\
    convertBits groups 5 8 false = Ok data.
Proof.
  destruct (convertBits_total_pad data 8 5 ltac:(lia) ltac:(lia) Hdata) as (g & Hg & Hok & _).
  exists g. split; [done|split; [done|]]. by apply (convertBits_roundtrip_aux data 8 5 g); try lia.
Qed.

(** ** Witnesses *)

Lemma bech32_checksum_valid_witness :
  bech32Polymod (bech32HrpExpand "fic" ++ [0; 14; 20; 15; 7; 13] ++ bech32CreateChecksum "fic" [0; 14; 20; 15; 7; 13]) = 1.
Proof. apply bech32_checksum_valid. repeat constructor; lia. Defined.

(** The checksum of prefix ["fic"] and data [0; 14] is [8; 6; 9; 28; 28; 16];
    its first group is replaced by 5. *)
Lemma bech32_detects_substitution_witness :
  bech32Polymod (bech32HrpExpand "fic" ++ [5] ++ 14 :: bech32CreateChecksum "fic" [0; 14]) <> 1.
Proof.
  apply (bech32_detects_substitution "fic" [] 0 5 (14 :: bech32CreateChecksum "fic" [0; 14]));
    [|lia|lia|by vm_compute].
  vm_compute (_ ++ _). repeat constructor; lia.
Defined.

Lemma convertBits_8_5_8_witness :
  exists groups, convertBits [255; 0; 129] 8 5 true = Ok groups /\ digits_ok 32 groups /\
    convertBits groups 5 8 false = Ok [255; 0; 129].
Proof. apply convertBits_8_5_8. repeat constructor; lia. Defined.
