(* ===== verification/Sha256.v ===== *)
(** * SHA-256 as the node computes it

    [firstislamiccoin-core/src/crypto/sha256.cpp]: the portable compression
    function (lines 62-182) and the streaming class [CSHA256] (lines 689-742).
    The rest of the library treats hash functions as parameters; this file
    supplies a real one, so that concrete addresses can be evaluated. *)

From S2P Require Import Prelude Digits JsString Bytes Crypto.

Open Scope Z_scope.
Open Scope list_scope.

Module Sha256.

(** ** The compression function, on [uint32_t] words *)

Definition add32 (a b : Z) : Z := (a + b) mod 2 ^ 32.
Definition shl32 (x n : Z) : Z := Z.shiftl x n mod 2 ^ 32.
Definition rotr (x n : Z) : Z := Z.lor (Z.shiftr x n) (shl32 x (32 - n)).

Definition Ch (x y z : Z) : Z := Z.lxor z (Z.land x (Z.lxor y z)).
Definition Maj (x y z : Z) : Z := Z.lor (Z.land x y) (Z.land z (Z.lor x y)).
Definition Sigma0 (x : Z) : Z := Z.lxor (Z.lxor (rotr x 2) (rotr x 13)) (rotr x 22).
Definition Sigma1 (x : Z) : Z := Z.lxor (Z.lxor (rotr x 6) (rotr x 11)) (rotr x 25).
Definition sigma0 (x : Z) : Z := Z.lxor (Z.lxor (rotr x 7) (rotr x 18)) (Z.shiftr x 3).
Definition sigma1 (x : Z) : Z := Z.lxor (Z.lxor (rotr x 17) (rotr x 19)) (Z.shiftr x 10).

Record regs : Type := Regs { ra : Z; rb : Z; rc : Z; rd : Z; re : Z; rf : Z; rg : Z; rh : Z }.

Definition Initialize : regs :=
  Regs 0x6a09e667 0xbb67ae85 0x3c6ef372 0xa54ff53a 0x510e527f 0x9b05688c 0x1f83d9ab 0x5be0cd19.

(** One [Round] call.  The source rotates the argument names from call to call;
    here the registers themselves are rotated. *)
Definition Round (s : regs) (k : Z) : regs :=
  let t1 := add32 (add32 (add32 (rh s) (Sigma1 (re s))) (Ch (re s) (rf s) (rg s))) k in
  let t2 := add32 (Sigma0 (ra s)) (Maj (ra s) (rb s) (rc s)) in
  Regs (add32 t1 t2) (ra s) (rb s) (rc s) (add32 (rd s) t1) (re s) (rf s) (rg s).

(** One row per eight rounds, after which the register names of the unrolled
    code are back in their places. *)
Definition K : list Z := mjoin
  [[0x428a2f98; 0x71374491; 0xb5c0fbcf; 0xe9b5dba5; 0x3956c25b; 0x59f111f1; 0x923f82a4; 0xab1c5ed5];
   [0xd807aa98; 0x12835b01; 0x243185be; 0x550c7dc3; 0x72be5d74; 0x80deb1fe; 0x9bdc06a7; 0xc19bf174];
   [0xe49b69c1; 0xefbe4786; 0x0fc19dc6; 0x240ca1cc; 0x2de92c6f; 0x4a7484aa; 0x5cb0a9dc; 0x76f988da];
   [0x983e5152; 0xa831c66d; 0xb00327c8; 0xbf597fc7; 0xc6e00bf3; 0xd5a79147; 0x06ca6351; 0x14292967];
   [0x27b70a85; 0x2e1b2138; 0x4d2c6dfc; 0x53380d13; 0x650a7354; 0x766a0abb; 0x81c2c92e; 0x92722c85];
   [0xa2bfe8a1; 0xa81a664b; 0xc24b8b70; 0xc76c51a3; 0xd192e819; 0xd6990624; 0xf40e3585; 0x106aa070];
   [0x19a4c116; 0x1e376c08; 0x2748774c; 0x34b0bcb5; 0x391c0cb3; 0x4ed8aa4a; 0x5b9cca4f; 0x682e6ff3];
   [0x748f82ee; 0x78a5636f; 0x84c87814; 0x8cc70208; 0x90befffa; 0xa4506ceb; 0xbef9a3f7; 0xc67178f2]].

(** The rounds over a sliding window of the last 16 schedule words, oldest first:
    the word used is the head, the word sixteen rounds later is
    [w0 + sigma1(w14) + w9 + sigma0(w1)]. *)
Fixpoint rounds (ks : list Z) (w : list Z) (s : regs) : regs :=
  match ks with
  | [] => s
  | k :: ks =>
      let w0 := nth 0 w 0 in
      let w16 := add32 (add32 (add32 w0 (sigma1 (nth 14 w 0))) (nth 9 w 0)) (sigma0 (nth 1 w 0)) in
      rounds ks (drop 1 w ++ [w16]) (Round s (add32 k w0))
  end.

Definition ReadBE32 (l : list Z) : Z := undigits 256 (take 4 l).
Definition WriteBE (n : nat) (z : Z) : list Z := reverse (le_bytes n z).

Definition words (chunk : list Z) : list Z := (fun i => ReadBE32 (drop (4 * i) chunk)) <$> seq 0 16.

(** [Transform(s, chunk, 1)] *)
Definition transform1 (s : regs) (chunk : list Z) : regs :=
  let t := rounds K (words chunk) s in
  Regs (add32 (ra s) (ra t)) (add32 (rb s) (rb t)) (add32 (rc s) (rc t)) (add32 (rd s) (rd t))
       (add32 (re s) (re t)) (add32 (rf s) (rf t)) (add32 (rg s) (rg t)) (add32 (rh s) (rh t)).

(** [Transform(s, data, blocks)]: the final state and the unread bytes. *)
Fixpoint Transform (blocks : nat) (s : regs) (data : list Z) : regs * list Z :=
  match blocks with
  | O => (s, data)
  | S blocks => Transform blocks (transform1 s (take 64 data)) (drop 64 data)
  end.

(** ** The streaming class *)

(** [buf] holds the [bytes % 64] bytes not yet compressed. *)
Record CSHA256 : Type := { st : regs; buf : list Z; bytes : Z }.

Definition init : CSHA256 := {| st := Initialize; buf := []; bytes := 0 |}.

Definition Write (h : CSHA256) (data : list Z) : CSHA256 :=
  let bufsize := Z.to_nat (bytes h mod 64) in
  let len := length data in
  let '(h1, data1, bufsize1) :=
    if negb (bufsize =? 0)%nat && (64 <=? bufsize + len)%nat then
      ({| st := transform1 (st h) (buf h ++ take (64 - bufsize) data); buf := [];
          bytes := bytes h + Z.of_nat (64 - bufsize) |},
       drop (64 - bufsize) data, 0%nat)
    else (h, data, bufsize) in
  let '(h2, data2) :=
    if (64 <=? length data1)%nat then
      let blocks := (length data1 / 64)%nat in
      let '(s', rest) := Transform blocks (st h1) data1 in
      ({| st := s'; buf := buf h1; bytes := bytes h1 + 64 * Z.of_nat blocks |}, rest)
    else (h1, data1) in
  match data2 with
  | [] => h2
  | _ => {| st := st h2; buf := take bufsize1 (buf h2) ++ data2; bytes := bytes h2 + Z.of_nat (length data2) |}
  end.

Definition pad : list Z := 0x80 :: replicate 63 0.

Definition Finalize (h : CSHA256) : list Z :=
  let sizedesc := WriteBE 8 (Z.shiftl (bytes h) 3) in
  let h := Write h (take (Z.to_nat (1 + (119 - bytes h mod 64) mod 64)) pad) in
  let s := st (Write h sizedesc) in
  mjoin (WriteBE 4 <$> [ra s; rb s; rc s; rd s; re s; rf s; rg s; rh s]).

Definition hash (data : list Z) : list Z := Finalize (Write init data).

(** ** The stream as a whole

    [absorb] compresses every complete block of a byte string; the class does the
    same through its buffer. *)

Definition absorb (s : regs) (l : list Z) : regs * list Z := Transform (length l / 64) s l.

Definition wf (h : CSHA256) : Prop := 0 <= bytes h /\ Z.of_nat (length (buf h)) = bytes h mod 64.

Lemma absorb_short s l : (length l < 64)%nat -> absorb s l = (s, l).
Proof. intros Hl. unfold absorb. by rewrite Nat.div_small. Qed.

Lemma absorb_block s l : (64 <= length l)%nat ->
  absorb s l = absorb (transform1 s (take 64 l)) (drop 64 l).
Proof.
  intros Hl. unfold absorb.
  replace (length l / 64)%nat with (S (length (drop 64 l) / 64)).
  - done.
  - rewrite length_drop. replace (length l) with (1 * 64 + (length l - 64))%nat at 2 by lia.
    rewrite Nat.div_add_l by lia. done.
Qed.

(** Induction block by block. *)
Lemma block_ind (P : list Z -> Prop) :
  (forall l, (length l < 64)%nat -> P l) ->
  (forall l, (64 <= length l)%nat -> P (drop 64 l) -> P l) -> forall l, P l.
Proof.
  intros Hs Hb l. remember (length l) as n eqn:Hn. revert l Hn.
  induction n as [n IH] using lt_wf_ind; intros l ->.
  destruct (Nat.lt_ge_cases (length l) 64); [by apply Hs|].
  apply Hb; [done|]. apply (IH (length (drop 64 l))); [rewrite length_drop; lia|done].
Qed.

Lemma absorb_rest s l : Z.of_nat (length (snd (absorb s l))) = Z.of_nat (length l) mod 64.
Proof.
  revert s. induction l as [l Hl|l Hl IH] using block_ind; intros s.
  - rewrite absorb_short by done. simpl. rewrite Z.mod_small; lia.
  - rewrite absorb_block, IH, length_drop by done.
    replace (Z.of_nat (length l)) with (Z.of_nat (length l - 64) + 1 * 64) by lia.
    by rewrite Z.mod_add by lia.
Qed.

Lemma absorb_app s a b :
  absorb s (a ++ b) = absorb (fst (absorb s a)) (snd (absorb s a) ++ b).
Proof.
  revert s. induction a as [a Ha|a Ha IH] using block_ind; intros s.
  - by rewrite (absorb_short s a).
  - rewrite absorb_block by (rewrite length_app; lia).
    rewrite take_app_le, drop_app_le, IH by lia. by rewrite <-absorb_block.
Qed.

(** What [Write] does to a well-formed state: absorb the buffer and the data. *)
Definition write_spec (h : CSHA256) (data : list Z) : CSHA256 :=
  let '(s, rest) := absorb (st h) (buf h ++ data) in
  {| st := s; buf := rest; bytes := bytes h + Z.of_nat (length data) |}.

(** The last two statements of [Write], after the buffer has been emptied. *)
Lemma write_tail s n data :
  (let '(h2, data2) :=
    if (64 <=? length data)%nat then
      let blocks := (length data / 64)%nat in
      let '(s', rest) := Transform blocks s data in
      ({| st := s'; buf := []; bytes := n + 64 * Z.of_nat blocks |}, rest)
    else ({| st := s; buf := []; bytes := n |}, data) in
  match data2 with
  | [] => h2
  | _ => {| st := st h2; buf := take 0 (buf h2) ++ data2; bytes := bytes h2 + Z.of_nat (length data2) |}
  end) =
  let '(s', rest) := absorb s data in {| st := s'; buf := rest; bytes := n + Z.of_nat (length data) |}.
Proof.
  destruct (Nat.leb_spec 64 (length data)) as [Hge|Hlt].
  - pose proof (absorb_rest s data) as Hr. cbv zeta.
    change (Transform (length data / 64) s data) with (absorb s data). destruct (absorb s data) as [s' rest]. simpl in Hr.
    assert (Z.of_nat (length data) = 64 * Z.of_nat (length data / 64) + Z.of_nat (length rest)) as Hlen.
    { rewrite Hr, Nat2Z.inj_div. apply Z.div_mod. lia. }
    rewrite Hlen. destruct rest; cbn [st buf bytes take app length]; f_equal; lia.
  - rewrite absorb_short by done. destruct data; simpl; [f_equal; lia|done].
Qed.

Lemma Write_spec h data : wf h -> Write h data = write_spec h data.
Proof.
  intros [Hn Hb]. unfold Write, write_spec.
  rewrite <-Hb, Nat2Z.id. destruct h as [s bf n]; cbn [st buf bytes] in *.
  assert (length bf < 64)%nat by (pose proof (Z.mod_pos_bound n 64); lia).
  destruct (Nat.eqb_spec (length bf) 0) as [H0|H0]; cbn [negb andb].
  - destruct bf; [|done]. rewrite H0. simpl app. apply write_tail.
  - destruct (Nat.leb_spec 64 (length bf + length data)) as [Hge|Hlt].
    + cbv iota. cbn [st buf bytes]. rewrite write_tail.
      rewrite (absorb_block s (bf ++ data)) by (rewrite length_app; lia).
      rewrite take_app_ge, drop_app_ge, length_drop by lia.
      destruct (absorb _ _) as [s' rest]. f_equal. lia.
    + rewrite absorb_short by (rewrite length_app; lia).
      destruct (Nat.leb_spec 64 (length data)); [lia|]. cbn [st buf bytes].
      destruct data as [|d data]; [rewrite app_nil_r; simpl; f_equal; lia|].
      rewrite take_ge by lia. done.
Qed.

Lemma write_spec_wf h data : wf h -> wf (write_spec h data).
Proof.
  intros [Hn Hb]. unfold write_spec. pose proof (absorb_rest (st h) (buf h ++ data)) as Hr.
  destruct (absorb _ _) as [s rest]. simpl in Hr. split; cbn [bytes buf]; [lia|].
  rewrite Hr, length_app, Nat2Z.inj_add, Hb. by rewrite Z.add_mod_idemp_l by lia.
Qed.

Lemma init_wf : wf init.
Proof. done. Qed.

Lemma write_spec_app h a b : write_spec (write_spec h a) b = write_spec h (a ++ b).
Proof.
  unfold write_spec. rewrite app_assoc, (absorb_app (st h) (buf h ++ a) b).
  destruct (absorb (st h) (buf h ++ a)) as [s rest]. cbn [st buf bytes fst snd].
  destruct (absorb s (rest ++ b)) as [s' rest']. f_equal. rewrite length_app. lia.
Qed.

(** ** Properties *)

(** C36: the digest of a message does not depend on how it is cut into [Write]
    calls: writing the chunks one after the other gives the digest of their
    concatenation. *)
Theorem sha256_streaming (chunks : list (list Z)) :
  Finalize (foldl Write init chunks) = hash (mjoin chunks).
Proof.
  unfold hash. f_equal. rewrite (Write_spec init) by apply init_wf.
  cut (forall h, wf h -> foldl Write h chunks = write_spec h (mjoin chunks)); [intros Hc; apply Hc, init_wf|].
  induction chunks as [|c chunks IH]; intros h Hh; cbn [foldl mjoin].
  - unfold write_spec. rewrite app_nil_r, absorb_short; [destruct h; simpl; f_equal; lia|].
    destruct Hh as [Hn Hb]. pose proof (Z.mod_pos_bound (bytes h) 64). lia.
  - rewrite Write_spec, IH by (try apply write_spec_wf; done). apply write_spec_app.
Qed.

End Sha256.

(** The published test vector for "abc". *)
Example sha256_abc :
  bytesToHex (Sha256.hash [97; 98; 99]) =
  "ba7816bf8f01cfea414140de5dae2223b00361a396177a9cb410ff61f20015ad".
Proof. vm_compute. reflexivity. Qed.

(** A 56-byte message needs two blocks. *)
Example sha256_two_blocks :
  bytesToHex (Sha256.hash (code <$> chars "abcdbcdecdefdefgefghfghighijhijkijkljklmklmnlmnomnopnopq")) =
  "248d6a61d20638b8e5c026930c3e6039a33ce45964ff2167f6ecedd419db06c1".
Proof. vm_compute. reflexivity. Qed.

(** ** An instance with the real SHA-256

    The remaining functions are the toy ones of [Crypto.v]. *)

Definition sha_crypto : Crypto := {|
  sha256 := Sha256.hash;
  ripemd160 := @ripemd160 toy_crypto;
  secp_sign := @secp_sign toy_crypto;
  sig_toCompactRawBytes := @sig_toCompactRawBytes toy_crypto;
  sig_fromCompact := @sig_fromCompact toy_crypto;
  sig_recoverPublicKey := @sig_recoverPublicKey toy_crypto;
  secp_publicKey := @secp_publicKey toy_crypto
|}.

Lemma WriteBE_bytes n z : bytes_ok (Sha256.WriteBE n z).
Proof. apply Forall_reverse, bytes_ok_le. Qed.

Lemma sha_laws : @CryptoLaws sha_crypto.
Proof.
  destruct toy_laws. split; try assumption.
  intros bs. cbn [sha256 sha_crypto]. unfold Sha256.hash, Sha256.Finalize. cbv zeta.
  apply bytes_ok_concat. repeat (constructor; [apply WriteBE_bytes|]). constructor.
Qed.
