(* ===== verification/Sha1.v ===== *)
(** * SHA-1 as the node computes it

    [firstislamiccoin-core/src/crypto/sha1.cpp]: the compression function and
    the streaming class [CSHA1], which the script interpreter runs for
    [OP_SHA1]. *)

From S2P Require Import Prelude Digits JsString Bytes Sha256.

Open Scope Z_scope.
Open Scope list_scope.

Module Sha1.

Import Sha256 (add32, shl32, ReadBE32, WriteBE, words, pad).

Definition rotl (x n : Z) : Z := Z.lor (shl32 x n) (Z.shiftr x (32 - n)).

Record regs : Type := Regs { ra : Z; rb : Z; rc : Z; rd : Z; re : Z }.

Definition Initialize : regs := Regs 0x67452301 0xefcdab89 0x98badcfe 0x10325476 0xc3d2e1f0.

(** One [Round] call.  The source rotates the argument names from call to call;
    here the registers themselves are rotated. *)
Definition Round (s : regs) (f k w : Z) : regs :=
  Regs (add32 (re s) (add32 (add32 (add32 (rotl (ra s) 5) f) k) w)) (ra s) (rotl (rb s) 30) (rc s) (rd s).

Definition f1 (b c d : Z) : Z := Z.lxor d (Z.land b (Z.lxor c d)).
Definition f2 (b c d : Z) : Z := Z.lxor (Z.lxor b c) d.
Definition f3 (b c d : Z) : Z := Z.lor (Z.land b c) (Z.land d (Z.lor b c)).
Definition left (x : Z) : Z := rotl x 1.

Definition k1 : Z := 0x5a827999.
Definition k2 : Z := 0x6ed9eba1.
Definition k3 : Z := 0x8f1bbcdc.
Definition k4 : Z := 0xca62c1d6.

(** The mixing function and the constant of each of the eighty rounds. *)
Definition schedule : list ((Z -> Z -> Z -> Z) * Z) :=
  replicate 20 (f1, k1) ++ replicate 20 (f2, k2) ++ replicate 20 (f3, k3) ++ replicate 20 (f2, k4).

(** The rounds over a sliding window of the last 16 message words, oldest
    first: the word sixteen rounds later is [left(w0 ^ w13 ^ w8 ^ w2)]. *)
Fixpoint rounds (ks : list ((Z -> Z -> Z -> Z) * Z)) (w : list Z) (s : regs) : regs :=
  match ks with
  | [] => s
  | (f, k) :: ks =>
      let w0 := nth 0 w 0 in
      let w16 := left (Z.lxor (Z.lxor (Z.lxor w0 (nth 13 w 0)) (nth 8 w 0)) (nth 2 w 0)) in
      rounds ks (drop 1 w ++ [w16]) (Round s (f (rb s) (rc s) (rd s)) k w0)
  end.

Definition Transform (s : regs) (chunk : list Z) : regs :=
  let t := rounds schedule (words chunk) s in
  Regs (add32 (ra s) (ra t)) (add32 (rb s) (rb t)) (add32 (rc s) (rc t)) (add32 (rd s) (rd t)) (add32 (re s) (re t)).

(** [buf] holds the [bytes % 64] bytes not yet compressed. *)
Record CSHA1 : Type := { st : regs; buf : list Z; bytes : Z }.

Definition init : CSHA1 := {| st := Initialize; buf := []; bytes := 0 |}.

(** The loop over full chunks; each turn takes 64 bytes, so the number of bytes
    is enough fuel. *)
Fixpoint full_chunks (fuel : nat) (h : CSHA1) (data : list Z) : CSHA1 * list Z :=
  match fuel with
  | O => (h, data)
  | S fuel =>
      if (64 <=? length data)%nat then
        full_chunks fuel {| st := Transform (st h) (take 64 data); buf := buf h; bytes := bytes h + 64 |} (drop 64 data)
      else (h, data)
  end.

Definition Write (h : CSHA1) (data : list Z) : CSHA1 :=
  let bufsize := Z.to_nat (bytes h mod 64) in
  let '(h, data, bufsize) :=
    if negb (bufsize =? 0)%nat && (64 <=? bufsize + length data)%nat then
      ({| st := Transform (st h) (buf h ++ take (64 - bufsize) data); buf := [];
          bytes := bytes h + Z.of_nat (64 - bufsize) |},
       drop (64 - bufsize) data, 0%nat)
    else (h, data, bufsize) in
  let '(h, data) := full_chunks (length data) h data in
  match data with
  | [] => h
  | _ => {| st := st h; buf := take bufsize (buf h) ++ data; bytes := bytes h + Z.of_nat (length data) |}
  end.

Definition Finalize (h : CSHA1) : list Z :=
  let sizedesc := WriteBE 8 (Z.shiftl (bytes h) 3) in
  let h := Write h (take (Z.to_nat (1 + (119 - bytes h mod 64) mod 64)) pad) in
  let s := st (Write h sizedesc) in
  mjoin (WriteBE 4 <$> [ra s; rb s; rc s; rd s; re s]).

Definition hash (data : list Z) : list Z := Finalize (Write init data).

Lemma hash_length data : length (hash data) = 20%nat.
Proof. done. Qed.

Lemma hash_bytes data : bytes_ok (hash data).
Proof.
  unfold hash, Finalize. set (s := st _). clearbody s. cbn [fmap list_fmap mjoin list_join].
  repeat apply bytes_ok_app_2; try apply bytes_ok_nil; apply Forall_reverse, bytes_ok_le.
Qed.

(** The digest of the three letters [abc]. *)
Example hash_abc : hash [97; 98; 99] =
  [0xa9; 0x99; 0x3e; 0x36; 0x47; 0x06; 0x81; 0x6a; 0xba; 0x3e;
   0x25; 0x71; 0x78; 0x50; 0xc2; 0x6c; 0x9c; 0xd0; 0xd8; 0x9d].
Proof. vm_compute. reflexivity. Qed.

(** A message longer than a block: 200 letters a. *)
Example hash_long : take 4 (hash (replicate 200 97)) = [0xe6; 0x1c; 0xff; 0xfe].
Proof. vm_compute. reflexivity. Qed.

End Sha1.
