(* ===== verification/Address.v ===== *)
(** * Addresses

    [NETWORKS], the three address constructors and [decodeAddress] of
    [firstislamiccoin-web-wallet/crypto.js] (lines 36-45 and 164-201). *)

From S2P Require Import Prelude Digits JsString JsInt Bytes Crypto Sha256 Base58 Bech32.

Open Scope Z_scope.
Open Scope list_scope.

Record bip32versions : Type := { bip32_private : Z; bip32_public : Z }.

Record network : Type := {
  p2pkhVersion : Z;
  p2shVersion : Z;
  wifVersion : Z;
  bech32Hrp : string;
  bip44CoinType : Z;
  bip32Versions : bip32versions
}.

Definition mainnet : network := {|
  p2pkhVersion := 36; p2shVersion := 28; wifVersion := 164; bech32Hrp := "fic"; bip44CoinType := 9770;
  bip32Versions := {| bip32_private := 0x0488ade4; bip32_public := 0x0488b21e |} |}.
Definition testnet : network := {|
  p2pkhVersion := 111; p2shVersion := 196; wifVersion := 239; bech32Hrp := "tfic"; bip44CoinType := 9770;
  bip32Versions := {| bip32_private := 0x04358394; bip32_public := 0x043587cf |} |}.

(** [fic.NETWORKS[name]]; [None] is [undefined]. *)
Definition NETWORKS (name : string) : option network :=
  if String.eqb name "mainnet" then Some mainnet
  else if String.eqb name "testnet" then Some testnet else None.

Inductive AddressType : Type := p2pkh | p2sh | p2wpkh.

#[global] Instance AddressType_eq_dec : EqDecision AddressType.
Proof. solve_decision. Defined.

Record decoded : Type := { addr_type : AddressType; addr_hash : list Z }.

Section Address.
Context `{Crypto}.

(** [payload = new Uint8Array(21); payload[0] = version; payload.set(hash, 1)]:
    a hash longer than 20 bytes is a [RangeError]. *)
Definition versioned (version : Z) (hash : list Z) : res (list Z) :=
  if (length hash <=? 20)%nat
  then Ok (typed_set (<[0%nat := version mod 256]> (replicate 21 0)) hash 1)
  else Throw (EngineError "offset is out of bounds").

Definition p2pkhAddress (pubkeyHash20 : list Z) (net : network) : res string :=
  payload ← versioned (p2pkhVersion net) pubkeyHash20; Ok (base58checkEncode payload).

Definition p2shAddress (scriptHash20 : list Z) (net : network) : res string :=
  payload ← versioned (p2shVersion net) scriptHash20; Ok (base58checkEncode payload).

Definition p2wpkhAddress (pubkeyHash20 : list Z) (net : network) : res string :=
  program ← convertBits pubkeyHash20 8 5 true;
  Ok (bech32Encode (bech32Hrp net) ([0] ++ program)).

Definition decodeAddress (address : string) (net : network) : res decoded :=
  if startsWith (toLowerCase address) (bech32Hrp net +:+ "1") then
    let '(hrp, data) := bech32Decode address in
    _ ← throw_if (negb (String.eqb hrp (bech32Hrp net))) (JsError "Address is for a different network");
    let witnessVersion := data !! 0%nat in
    program ← convertBits (drop 1 data) 5 8 false;
    _ ← throw_if (negb (bool_decide (witnessVersion = Some 0)) || negb (length program =? 20)%nat)
          (JsError "Unsupported witness version/program length");
    Ok {| addr_type := p2wpkh; addr_hash := u8arr program |}
  else
    payload21 ← base58checkDecode address;
    _ ← throw_if (negb (length payload21 =? 21)%nat) (JsError "Invalid Base58Check address length");
    let version := nth 0 payload21 0 in
    let payload := drop 1 payload21 in
    if version =? p2pkhVersion net then Ok {| addr_type := p2pkh; addr_hash := payload |}
    else if version =? p2shVersion net then Ok {| addr_type := p2sh; addr_hash := payload |}
    else Throw (JsError ("Address version byte " +:+ toString version +:+ " does not match this network")).

End Address.

(** ** Lemmas *)

Definition known_network (net : network) : Prop := net = mainnet \/ net = testnet.

Lemma versioned_ok version hash :
  0 <= version < 256 -> length hash = 20%nat -> versioned version hash = Ok (version :: hash).
Proof.
  intros Hv Hl. unfold versioned. rewrite Hl. cbn [Nat.leb]. f_equal.
  rewrite Z.mod_small by done. unfold typed_set. rewrite Hl. simpl.
  by rewrite app_nil_r.
Qed.

Lemma network_versions net :
  known_network net -> 0 <= p2pkhVersion net < 256 /\ 0 <= p2shVersion net < 256 /\
    p2pkhVersion net <> p2shVersion net.
Proof. intros [-> | ->]; simpl; lia. Qed.

(** *** The first character of a Base58Check address *)

Lemma digits_head_value base n k :
  2 <= base -> 0 <= k -> base ^ k <= n < base ^ (k + 1) ->
  exists ds, digits base n = (n / base ^ k) :: ds.
Proof.
  intros Hb Hk. revert n. pattern k. apply natlike_ind; [|clear k Hk; intros k Hk IH|done]; intros n Hn.
  - rewrite Z.pow_0_r, Z.div_1_r in *. exists [].
    rewrite digits_step by lia. rewrite Z.div_small, Z.mod_small by lia. by rewrite digits_nonpos.
  - rewrite Z.add_succ_l, !Z.pow_succ_r in Hn by lia.
    destruct (IH (n / base)) as [ds Hds].
    { split; [apply Z.div_le_lower_bound|apply Z.div_lt_upper_bound]; lia. }
    assert (0 < base ^ k) by (apply Z.pow_pos_nonneg; lia).
    exists (ds ++ [n mod base]). rewrite digits_step, Hds by nia. simpl. f_equal.
    rewrite Z.pow_succ_r by lia. rewrite Z.div_div by lia. done.
Qed.

(** The integer a versioned payload with its checksum stands for. *)
Lemma versioned_number v rest :
  length rest = 24%nat -> bytes_ok rest ->
  v * 256 ^ 24 <= undigits 256 (v :: rest) < (v + 1) * 256 ^ 24.
Proof.
  intros Hl Hok. rewrite undigits_cons, Hl. change (Z.of_nat 24) with 24.
  pose proof (undigits_bound 256 rest ltac:(lia) Hok) as Hb. rewrite Hl in Hb.
  change (Z.of_nat 24) with 24 in Hb. lia.
Qed.

Lemma startsWith_head s c cs p ps :
  chars s = c :: cs -> Ascii.eqb c p = false -> startsWith s (String.String p ps) = false.
Proof.
  intros Hs Hne. destruct s as [|c' s]; [done|]. injection Hs as -> _.
  unfold startsWith. simpl. destruct (ascii_dec p c) as [->|]; [|done].
  by rewrite Ascii.eqb_refl in Hne.
Qed.

Lemma chars_toLowerCase s : chars (toLowerCase s) = lower <$> chars s.
Proof. unfold toLowerCase. apply chars_str. Qed.

Section AddressLemmas.
Context `{CryptoLaws}.

(** The first character of the encoding of a 20-byte hash, from the range of the
    encoded integer. *)
Lemma base58_head v hash k :
  0 < v < 256 -> length hash = 20%nat -> bytes_ok hash -> 0 <= k ->
  58 ^ k <= v * 256 ^ 24 -> (v + 1) * 256 ^ 24 <= 58 ^ (k + 1) ->
  exists d cs, chars (base58checkEncode (v :: hash)) = b58_char d :: cs /\
    v * 256 ^ 24 / 58 ^ k <= d <= ((v + 1) * 256 ^ 24 - 1) / 58 ^ k.
Proof.
  intros Hv Hl Hok Hk Hlo Hhi. unfold base58checkEncode. rewrite full_array by apply checksum4_length.
  cbn [app]. set (rest := hash ++ checksum4 (v :: hash)).
  assert (length rest = 24%nat) as Hr by (unfold rest; by rewrite length_app, Hl, checksum4_length).
  assert (bytes_ok rest) as Hrok by (apply bytes_ok_app_2; [done|apply checksum4_bytes]).
  pose proof (versioned_number v rest Hr Hrok) as Hn.
  destruct (digits_head_value 58 (undigits 256 (v :: rest)) k) as [ds Hds]; [lia..|].
  rewrite Hds. cbn [count_leading]. destruct (Z.eqb_spec v 0); [lia|].
  exists (undigits 256 (v :: rest) / 58 ^ k), (b58_char <$> ds).
  split; [unfold repeat_char; rewrite chars_app, !chars_str; done|].
  assert (0 < 58 ^ k) by (apply Z.pow_pos_nonneg; lia).
  split; apply Z.div_le_mono; lia.
Qed.

(** A Base58Check address does not look like a Bech32 one of a network when the
    first characters of its possible encodings differ from the prefix. *)
Lemma base58_not_bech32 v hash k p ps :
  0 < v < 256 -> length hash = 20%nat -> bytes_ok hash -> 0 <= k ->
  58 ^ k <= v * 256 ^ 24 -> (v + 1) * 256 ^ 24 <= 58 ^ (k + 1) ->
  forallb (fun d => negb (Ascii.eqb (lower (b58_char d)) p))
    (seqZ (v * 256 ^ 24 / 58 ^ k) (((v + 1) * 256 ^ 24 - 1) / 58 ^ k - v * 256 ^ 24 / 58 ^ k + 1)) = true ->
  startsWith (toLowerCase (base58checkEncode (v :: hash))) (String.String p ps) = false.
Proof.
  intros Hv Hl Hok Hk Hlo Hhi Hall.
  destruct (base58_head v hash k Hv Hl Hok Hk Hlo Hhi) as (d & cs & Hc & Hd).
  eapply (startsWith_head _ (lower (b58_char d)) (lower <$> cs)).
  - by rewrite chars_toLowerCase, Hc.
  - apply negb_true_iff. refine (forallb_seqZ _ _ _ Hall d _). lia.
Qed.

(** The addresses of every type and network except mainnet P2PKH are outside the
    Bech32 branch. *)
Lemma p2sh_not_bech32 net hash :
  known_network net -> length hash = 20%nat -> bytes_ok hash ->
  startsWith (toLowerCase (base58checkEncode (p2shVersion net :: hash))) (bech32Hrp net +:+ "1") = false.
Proof.
  intros [-> | ->] Hl Hok.
  - apply (base58_not_bech32 28 hash 33); [lia|done|done|lia|by apply Z.leb_le; vm_compute..|by vm_compute].
  - apply (base58_not_bech32 196 hash 34); [lia|done|done|lia|by apply Z.leb_le; vm_compute..|by vm_compute].
Qed.

Lemma p2pkh_testnet_not_bech32 hash :
  length hash = 20%nat -> bytes_ok hash ->
  startsWith (toLowerCase (base58checkEncode (p2pkhVersion testnet :: hash))) (bech32Hrp testnet +:+ "1") = false.
Proof.
  intros Hl Hok.
  apply (base58_not_bech32 111 hash 33); [lia|done|done|lia|by apply Z.leb_le; vm_compute..|by vm_compute].
Qed.

(** Decoding in the Base58Check branch. *)
Lemma decode_base58_branch net v hash :
  length hash = 20%nat -> bytes_ok hash -> 0 <= v < 256 ->
  startsWith (toLowerCase (base58checkEncode (v :: hash))) (bech32Hrp net +:+ "1") = false ->
  decodeAddress (base58checkEncode (v :: hash)) net =
    if v =? p2pkhVersion net then Ok {| addr_type := p2pkh; addr_hash := hash |}
    else if v =? p2shVersion net then Ok {| addr_type := p2sh; addr_hash := hash |}
    else Throw (JsError ("Address version byte " +:+ toString v +:+ " does not match this network")).
Proof.
  intros Hl Hok Hv Hs. unfold decodeAddress. rewrite Hs.
  rewrite base58_roundtrip_aux by (by apply bytes_ok_cons). cbn [mbind res_bind].
  simpl length. rewrite Hl. cbn [Nat.eqb negb throw_if mbind res_bind nth drop]. done.
Qed.

(** The witness program of a 20-byte hash: 32 groups of five bits. *)
Lemma p2wpkh_program hash :
  length hash = 20%nat -> bytes_ok hash ->
  exists groups, convertBits hash 8 5 true = Ok groups /\ digits_ok 32 groups /\
    length groups = 32%nat /\ convertBits groups 5 8 false = Ok hash.
Proof.
  intros Hl Hok. destruct (convertBits_total_pad hash 8 5 ltac:(lia) ltac:(lia) Hok) as (g & Hg & Hgok & Hgl).
  exists g. rewrite Hl in Hgl. change ((8 * Z.of_nat 20 + 5 - 1) / 5) with 32 in Hgl.
  split; [done|split; [done|split; [lia|]]].
  by apply (convertBits_roundtrip_aux hash 8 5 g); try lia.
Qed.

End AddressLemmas.

(** Decoding a Bech32 address whatever its last six characters are. *)
Lemma decode_bech32_any_tail `{CryptoLaws} net hash groups cks :
  known_network net -> length hash = 20%nat -> bytes_ok hash ->
  convertBits hash 8 5 true = Ok groups -> length cks = 6%nat ->
  Forall (fun c => Ascii.eqb c "1" = false) cks ->
  decodeAddress (bech32Hrp net +:+ "1" +:+ str (mjoin (bech32_char <$> (0 :: groups)) ++ cks)) net =
    Ok {| addr_type := p2wpkh; addr_hash := hash |}.
Proof.
  intros Hnet Hl Hok Hg H6 Hck.
  destruct (p2wpkh_program hash Hl Hok) as (g & Hg' & Hgok & Hgl & Hback). rewrite Hg in Hg'. injection Hg' as <-.
  destruct (bech32_chars (0 :: groups)) as (ds & -> & Hdl & Hi & Hn); [by constructor|].
  change ("1" +:+ str (ds ++ cks)) with (str ("1"%char :: ds ++ cks)).
  unfold decodeAddress.
  assert (startsWith (toLowerCase (bech32Hrp net +:+ str ("1"%char :: ds ++ cks))) (bech32Hrp net +:+ "1") = true)
    as ->.
  { destruct Hnet as [-> | ->]; unfold toLowerCase; rewrite chars_app, chars_str; simpl; by destruct (str _). }
  unfold bech32Decode. rewrite lastIndexOf_spec by (by apply Forall_app).
  rewrite slice_prefix, slice_data, chars_str, Hi by done.
  rewrite String.eqb_refl. cbn [negb throw_if mbind res_bind]. change (drop 1 (0 :: groups)) with groups.
  rewrite Hback. cbn [mbind res_bind]. rewrite Hl. simpl. by rewrite u8arr_id.
Qed.

(** ** Properties *)

(** C26: encoding a 20-byte hash as an address of any of the three types and
    decoding it on the same network gives back the type and the hash, on mainnet
    and on testnet; for mainnet P2PKH this holds for the addresses whose first
    four characters are not ["fic1"] up to letter case. *)
Theorem address_roundtrip `{CryptoLaws} net hash
  (Hnet : known_network net) (Hlen : length hash = 20%nat) (Hok : bytes_ok hash) :
  (exists a, p2shAddress hash net = Ok a /\
     decodeAddress a net = Ok {| addr_type := p2sh; addr_hash := hash |}) /\
  (exists a, p2wpkhAddress hash net = Ok a /\
     decodeAddress a net = Ok {| addr_type := p2wpkh; addr_hash := hash |}) /\
  (exists a, p2pkhAddress hash net = Ok a /\
     ((net = mainnet -> startsWith (toLowerCase a) "fic1" = false) ->
      decodeAddress a net = Ok {| addr_type := p2pkh; addr_hash := hash |})).
Proof.
  destruct (network_versions net Hnet) as (Hv1 & Hv2 & Hv3). split; [|split].
  - unfold p2shAddress. rewrite versioned_ok by done. eexists. split; [done|].
    rewrite decode_base58_branch by (try apply p2sh_not_bech32; done).
    destruct (Z.eqb_spec (p2shVersion net) (p2pkhVersion net)); [lia|]. by rewrite Z.eqb_refl.
  - destruct (p2wpkh_program hash Hlen Hok) as (g & Hg & Hgok & Hgl & Hback).
    unfold p2wpkhAddress. rewrite Hg. eexists. split; [done|]. unfold bech32Encode.
    rewrite fmap_app, join_app.
    destruct (bech32_chars (bech32CreateChecksum (bech32Hrp net) ([0] ++ g))) as (cks & -> & H6 & _ & Hn);
      [apply checksum_ok|].
    by apply (decode_bech32_any_tail net hash g cks).
  - unfold p2pkhAddress. rewrite versioned_ok by done. eexists. split; [done|]. intros Hf.
    rewrite decode_base58_branch; try done; [by rewrite Z.eqb_refl|].
    destruct Hnet as [-> | ->]; [by apply Hf|by apply p2pkh_testnet_not_bech32].
Qed.

(** C35: an address accepted as P2PKH or P2SH is the one string that encodes its
    hash for that network and type: 20 bytes, right version byte, right checksum,
    no alternative spelling. *)
Theorem decodeAddress_base58_canonical `{CryptoLaws} net a d
  (Hnet : known_network net) (Hdec : decodeAddress a net = Ok d) :
  match addr_type d with
  | p2pkh => p2pkhAddress (addr_hash d) net = Ok a
  | p2sh => p2shAddress (addr_hash d) net = Ok a
  | p2wpkh => startsWith (toLowerCase a) (bech32Hrp net +:+ "1") = true
  end /\ length (addr_hash d) = 20%nat /\ bytes_ok (addr_hash d).
Proof.
  unfold decodeAddress in Hdec. destruct (startsWith _ _) eqn:Hs.
  - destruct (bech32Decode a) as [hrp data]. res_inv. b2p.
    split; [done|]. split; [by unfold u8arr; rewrite length_fmap|apply bytes_ok_u8arr].
  - apply res_bind_ok in Hdec as (p & Hp & Hdec).
    apply res_bind_ok in Hdec as (u & Hl%throw_if_ok & Hdec). b2p.
    destruct (base58_canonical_aux a p Hp) as [Hok Henc].
    destruct (network_versions net Hnet) as (Hv1 & Hv2 & Hv3).
    destruct p as [|v h]; [done|]. cbn [nth] in Hdec. change (drop 1 (v :: h)) with h in Hdec.
    simpl length in *. apply Forall_cons_1 in Hok as [Hv Hok].
    unfold p2pkhAddress, p2shAddress.
    destruct (Z.eqb_spec v (p2pkhVersion net)) as [->|];
      [|destruct (Z.eqb_spec v (p2shVersion net)) as [->|]]; simplify_eq; cbn [addr_type addr_hash];
      rewrite versioned_ok by (done || lia); by repeat split; try lia.
Qed.

(** A P2PKH or P2SH address of one network is rejected on the other one. *)
Theorem address_wrong_network `{CryptoLaws} hash a
  (Hlen : length hash = 20%nat) (Hok : bytes_ok hash) :
  (p2pkhAddress hash mainnet = Ok a \/ p2shAddress hash mainnet = Ok a ->
     is_ok (decodeAddress a testnet) = false) /\
  (p2pkhAddress hash testnet = Ok a \/ p2shAddress hash testnet = Ok a ->
     is_ok (decodeAddress a mainnet) = false).
Proof.
  unfold p2pkhAddress, p2shAddress.
  rewrite !versioned_ok by (try done; simpl; lia). cbn [mbind res_bind p2pkhVersion p2shVersion mainnet testnet].
  split; intros [[= <-] | [= <-]]; (rewrite decode_base58_branch; [done|done|done|lia|]).
  - apply (base58_not_bech32 36 hash 33); [lia|done|done|lia|by apply Z.leb_le; vm_compute..|by vm_compute].
  - apply (base58_not_bech32 28 hash 33); [lia|done|done|lia|by apply Z.leb_le; vm_compute..|by vm_compute].
  - apply (base58_not_bech32 111 hash 33); [lia|done|done|lia|by apply Z.leb_le; vm_compute..|by vm_compute].
  - apply (base58_not_bech32 196 hash 34); [lia|done|done|lia|by apply Z.leb_le; vm_compute..|by vm_compute].
Qed.

(** [decodeAddress] does not check the Bech32 checksum: replacing the last six
    characters of a P2WPKH address by any six characters other than ['1'] still
    decodes to the same hash. *)
Theorem decodeAddress_ignores_bech32_checksum `{CryptoLaws} net hash cks
  (Hnet : known_network net) (Hlen : length hash = 20%nat) (Hok : bytes_ok hash)
  (H6 : length cks = 6%nat) (Hcks : Forall (fun c => Ascii.eqb c "1" = false) cks) :
  exists a, p2wpkhAddress hash net = Ok a /\
    decodeAddress (slice a 0 (-6) +:+ str cks) net = Ok {| addr_type := p2wpkh; addr_hash := hash |}.
Proof.
  destruct (p2wpkh_program hash Hlen Hok) as (g & Hg & Hgok & Hgl & _).
  unfold p2wpkhAddress. rewrite Hg. eexists. split; [done|].
  rewrite <-(decode_bech32_any_tail net hash g cks) by done. f_equal.
  unfold bech32Encode. rewrite fmap_app, join_app.
  destruct (bech32_chars (bech32CreateChecksum (bech32Hrp net) ([0] ++ g))) as (c6 & -> & Hl6 & _ & _);
    [apply checksum_ok|].
  change ([0] ++ g) with (0 :: g). set (ds := mjoin (bech32_char <$> (0 :: g))).
  apply chars_inj. unfold slice. rewrite !chars_app, !chars_str.
  rewrite !app_assoc. f_equal. rewrite checksum_length in Hl6.
  unfold slice_list, slice_pos. cbn [Z.ltb Z.compare]. rewrite !length_app, Hl6.
  rewrite (Z.min_l 0), Z.max_l by lia. simpl drop. rewrite Z.sub_0_r.
  apply take_app_length'. rewrite !length_app. lia.
Qed.

(** A mainnet P2PKH address whose first four characters read ["fic1"] once
    lower-cased (such addresses exist, see the witness) is taken for a Bech32
    address and rejected as belonging to another network. *)
Theorem decodeAddress_rejects_p2pkh_fic1 `{CryptoLaws} hash a
  (Hlen : length hash = 20%nat) (Hok : bytes_ok hash)
  (Ha : p2pkhAddress hash mainnet = Ok a) (Hpre : startsWith (toLowerCase a) "fic1" = true) :
  decodeAddress a mainnet = Throw (JsError "Address is for a different network").
Proof.
  unfold p2pkhAddress in Ha. rewrite versioned_ok in Ha by (try done; simpl; lia). injection Ha as <-.
  change (p2pkhVersion mainnet) with 36 in *.
  destruct (base58_head 36 hash 33) as (d & cs & Hc & Hd);
    [lia|done|done|lia|by apply Z.leb_le; vm_compute..|].
  assert (d = 14) as -> by (revert Hd; vm_compute (_ / _); lia).
  change (b58_char 14) with "F"%char in Hc.
  unfold decodeAddress. change (bech32Hrp mainnet +:+ "1") with "fic1". rewrite Hpre.
  destruct (bech32Decode _) as [hrp data] eqn:Hb. unfold bech32Decode in Hb. apply pair_eq in Hb as [<- <-].
  destruct (String.eqb_spec (slice (base58checkEncode (36 :: hash)) 0
    (lastIndexOf (base58checkEncode (36 :: hash)) "1")) (bech32Hrp mainnet)) as [He|]; [|done].
  exfalso. apply (f_equal chars) in He. unfold slice in He. rewrite chars_str, Hc in He.
  unfold slice_list in He.
  replace (drop (Z.to_nat (slice_pos (Z.of_nat (length ("F"%char :: cs))) 0)) ("F"%char :: cs))
    with ("F"%char :: cs) in He by done.
  by destruct (Z.to_nat _) in He.
Qed.

(** ** Witnesses *)

Definition hash_ex : list Z := [0x8e; 0xd7; 0xde; 0x80; 0x16; 0xea; 0x91; 0x0e; 0xb0; 0xe2;
  0xca; 0xa1; 0xd8; 0xd4; 0xb7; 0x03; 0x10; 0x0b; 0x34; 0xf1].

Lemma hash_ex_ok : bytes_ok hash_ex.
Proof. apply (bool_decide_unpack _). by vm_compute. Qed.

Example mainnet_address_ex : @p2pkhAddress sha_crypto hash_ex mainnet = Ok "FiC11111111111111111111111R1k4AsER".
Proof. vm_compute. reflexivity. Qed.

Lemma address_roundtrip_witness :
  exists a, @p2shAddress sha_crypto hash_ex mainnet = Ok a /\
    @decodeAddress sha_crypto a mainnet = Ok {| addr_type := p2sh; addr_hash := hash_ex |}.
Proof.
  apply (@address_roundtrip sha_crypto sha_laws mainnet hash_ex); [by left|done|apply hash_ex_ok].
Defined.

Lemma decodeAddress_base58_canonical_witness :
  @p2pkhAddress sha_crypto hash_ex testnet = Ok "mtYEr9McFXkiLWTVqTyuNQR1Cqjm5NcqxK" /\
  length hash_ex = 20%nat /\ bytes_ok hash_ex.
Proof.
  refine (@decodeAddress_base58_canonical sha_crypto sha_laws testnet "mtYEr9McFXkiLWTVqTyuNQR1Cqjm5NcqxK"
    {| addr_type := p2pkh; addr_hash := hash_ex |} (or_intror eq_refl) _).
  by vm_compute.
Defined.

Lemma address_wrong_network_witness :
  is_ok (@decodeAddress sha_crypto "CVVB88chKZHzTXtJoeLT7zphxyMU9aV9DQ" testnet) = false.
Proof.
  refine (proj1 (@address_wrong_network sha_crypto sha_laws hash_ex _ eq_refl hash_ex_ok) (or_intror _)).
  by vm_compute.
Defined.

Lemma decodeAddress_ignores_bech32_checksum_witness :
  exists a, p2wpkhAddress hash_ex mainnet = Ok a /\
    @decodeAddress sha_crypto (slice a 0 (-6) +:+ str (chars "qqqqqq")) mainnet =
      Ok {| addr_type := p2wpkh; addr_hash := hash_ex |}.
Proof.
  apply (@decodeAddress_ignores_bech32_checksum sha_crypto sha_laws mainnet hash_ex (chars "qqqqqq"));
    [by left|done|apply hash_ex_ok|done|by repeat constructor].
Defined.

Lemma decodeAddress_rejects_p2pkh_fic1_witness :
  @p2pkhAddress sha_crypto hash_ex mainnet = Ok "FiC11111111111111111111111R1k4AsER" /\
  @decodeAddress sha_crypto "FiC11111111111111111111111R1k4AsER" mainnet =
    Throw (JsError "Address is for a different network").
Proof.
  split; [by vm_compute|].
  refine (@decodeAddress_rejects_p2pkh_fic1 sha_crypto sha_laws hash_ex _ eq_refl hash_ex_ok mainnet_address_ex _).
  by vm_compute.
Defined.
