(* ===== verification/Tx.v ===== *)
(** * Transactions of the wallet

    [firstislamiccoin-web-wallet/crypto.js], lines 246-359: output scripts,
    serialisation, the legacy signature hash, DER encoding of signatures and
    [buildAndSignTransaction].  A satoshi amount is an integer ([BigInt] or an
    integral [Number]); a missing property is [None]. *)

From S2P Require Import Prelude Digits JsString Bytes Crypto.

Open Scope Z_scope.
Open Scope list_scope.

(** ** Output scripts *)

Definition p2pkhScriptPubKey (pubkeyHash20 : list Z) : list Z :=
  u8arr ([0x76; 0xa9; 0x14] ++ pubkeyHash20 ++ [0x88; 0xac]).
Definition p2shScriptPubKey (scriptHash20 : list Z) : list Z :=
  u8arr ([0xa9; 0x14] ++ scriptHash20 ++ [0x87]).
Definition p2wpkhScriptPubKey (pubkeyHash20 : list Z) : list Z :=
  u8arr ([0x00; 0x14] ++ pubkeyHash20).

(** ** Serialisation *)

Record tx_input : Type := {
  prevTxid : list Z;
  prevVout : Z;
  scriptSig : list Z;
  sequence : option Z
}.

Record tx_output : Type := {
  scriptPubKey : list Z;
  valueSatoshis : Z
}.

Definition input_parts (inp : tx_input) : list (list Z) :=
  [prevTxid inp; u32le (prevVout inp); varInt (Z.of_nat (length (scriptSig inp))); scriptSig inp;
   u32le (default 0xffffffff (sequence inp))].
Definition output_parts (out : tx_output) : list (list Z) :=
  [u64le (valueSatoshis out); varInt (Z.of_nat (length (scriptPubKey out))); scriptPubKey out].

Definition serializeTx (version : Z) (inputs : list tx_input) (outputs : list tx_output) (locktime : Z) : list Z :=
  let parts := [u32le version; varInt (Z.of_nat (length inputs))] in
  let parts := foldl (fun parts inp => parts ++ input_parts inp) parts inputs in
  let parts := parts ++ [varInt (Z.of_nat (length outputs))] in
  let parts := foldl (fun parts out => parts ++ output_parts out) parts outputs in
  let parts := parts ++ [u32le locktime] in
  concatBytes parts.

(** ** Signature hash *)

Definition blank_inputs (inputs : list tx_input) (inputIndex : nat) (subscript : list Z) : list tx_input :=
  imap (fun i inp => {|
    prevTxid := prevTxid inp;
    prevVout := prevVout inp;
    scriptSig := if (i =? inputIndex)%nat then subscript else [];
    sequence := sequence inp
  |}) inputs.

Definition legacySighash `{Crypto} (inputs : list tx_input) (outputs : list tx_output)
    (inputIndex : nat) (subscript : list Z) (locktime : Z) : list Z :=
  let preimage := serializeTx 2 (blank_inputs inputs inputIndex subscript) outputs locktime in
  let withType := concatBytes [preimage; u32le 1] in
  doubleSha256 withType.

(** ** DER *)

Definition encodeInt (bigintVal : Z) : list Z :=
  let hex := toString_radix 16 bigintVal in
  let hex := if (strlen hex mod 2 =? 1) then "0" +:+ hex else hex in
  let bytes := hexToBytes hex in
  let bytes := if (Z.land (nth 0 bytes 0) 0x80 =? 0) then bytes else concatBytes [u8arr [0]; bytes] in
  concatBytes [u8arr [0x02; Z.of_nat (length bytes)]; bytes].

Definition derEncodeSignature (sg : signature) : list Z :=
  let rEnc := encodeInt (sig_r sg) in
  let sEnc := encodeInt (sig_s sg) in
  concatBytes [u8arr [0x30; Z.of_nat (length rEnc + length sEnc)]; rEnc; sEnc].

(** ** Building and signing *)

(** An element of the [inputs] argument of [buildAndSignTransaction]. *)
Record utxo_input : Type := {
  u_txid : list Z;
  u_vout : Z;
  u_valueSatoshis : Z;
  u_pubkeyHash : list Z;
  u_privateKey : option (list Z);
  u_publicKeyCompressed : option (list Z);
  u_sequence : option Z
}.

Definition unsigned_input (u : utxo_input) : tx_input := {|
  prevTxid := u_txid u; prevVout := u_vout u; scriptSig := [];
  sequence := Some (default 0xfffffffd (u_sequence u))
|}.

Definition set_scriptSig (s : list Z) (inp : tx_input) : tx_input := {|
  prevTxid := prevTxid inp; prevVout := prevVout inp; scriptSig := s; sequence := sequence inp
|}.

(** [a ?? b] *)
Definition nullish {A} (a b : option A) : option A := match a with Some x => Some x | None => b end.

Definition defined {A} (what : string) (a : option A) : res A :=
  match a with Some x => Ok x | None => Throw (EngineError (what +:+ " is undefined")) end.

Section Building.
Context `{Crypto}.

(** The body of the signing loop: the [scriptSig] of input [i]. *)
Definition sign_script (inputs : list utxo_input) (outputs : list tx_output)
    (privateKey publicKeyCompressed : option (list Z)) (locktime : Z)
    (txInputs : list tx_input) (i : nat) : res (list Z) :=
  inp ← defined "input" (inputs !! i);
  let subscript := p2pkhScriptPubKey (u_pubkeyHash inp) in
  let sighash := legacySighash txInputs outputs i subscript locktime in
  inputPrivateKey ← defined "private key" (nullish (u_privateKey inp) privateKey);
  sg ← secp_sign sighash inputPrivateKey;
  let derSig := derEncodeSignature sg in
  let sigWithType := concatBytes [derSig; u8arr [0x01]] in
  inputPublicKey ← defined "public key" (nullish (u_publicKeyCompressed inp) publicKeyCompressed);
  Ok (concatBytes [u8arr [Z.of_nat (length sigWithType)]; sigWithType;
                   u8arr [Z.of_nat (length inputPublicKey)]; inputPublicKey]).

(** One iteration: [txInputs[i].scriptSig = ...] on the shared array. *)
Definition sign_input (inputs : list utxo_input) (outputs : list tx_output)
    (privateKey publicKeyCompressed : option (list Z)) (locktime : Z)
    (txInputs : list tx_input) (i : nat) : res (list tx_input) :=
  script ← sign_script inputs outputs privateKey publicKeyCompressed locktime txInputs i;
  Ok (alter (set_scriptSig script) i txInputs).

Definition buildAndSignTransaction (inputs : list utxo_input) (outputs : list tx_output)
    (privateKey publicKeyCompressed : option (list Z)) (locktime : Z) : res (list Z) :=
  _ ← throw_if (length inputs =? 0)%nat (JsError "No inputs provided");
  let txInputs := unsigned_input <$> inputs in
  txInputs ← foldR (sign_input inputs outputs privateKey publicKeyCompressed locktime) txInputs
    (seq 0 (length inputs));
  Ok (serializeTx 2 txInputs outputs locktime).

End Building.

#[global] Arguments encodeInt : simpl never.
#[global] Arguments derEncodeSignature : simpl never.
#[global] Arguments serializeTx : simpl never.
#[global] Arguments legacySighash : simpl never.

(** ** Serialisation as a plain concatenation *)

Definition input_bytes (inp : tx_input) : list Z := mjoin (input_parts inp).
Definition output_bytes (out : tx_output) : list Z := mjoin (output_parts out).

Lemma foldl_push {A} (f : A -> list (list Z)) l parts :
  mjoin (foldl (fun parts x => parts ++ f x) parts l) = mjoin parts ++ mjoin ((fun x => mjoin (f x)) <$> l).
Proof.
  revert parts. induction l as [|x l IH]; intros parts; simpl; [by rewrite app_nil_r|].
  by rewrite IH, join_app, <-app_assoc.
Qed.

Lemma serializeTx_flat version inputs outputs locktime :
  serializeTx version inputs outputs locktime =
    u32le version ++ varInt (Z.of_nat (length inputs)) ++ mjoin (input_bytes <$> inputs) ++
    varInt (Z.of_nat (length outputs)) ++ mjoin (output_bytes <$> outputs) ++ u32le locktime.
Proof.
  unfold serializeTx. rewrite concatBytes_concat, join_app, foldl_push, join_app, foldl_push.
  cbn [mjoin list_join]. by rewrite !app_nil_r, <-!app_assoc.
Qed.

(** ** The signature hash ignores the input scripts *)

Lemma blank_set_scriptSig s j inputs i sub :
  blank_inputs (alter (set_scriptSig s) j inputs) i sub = blank_inputs inputs i sub.
Proof.
  apply list_eq. intros k. unfold blank_inputs. rewrite !list_lookup_imap.
  destruct (decide (k = j)) as [->|].
  - rewrite list_lookup_alter_eq. by destruct (inputs !! j).
  - by rewrite list_lookup_alter_ne.
Qed.

(** ** DER integers *)

(** The minimal big-endian two's complement form of a positive integer. *)
Definition der_int (n : Z) : list Z :=
  let ds := digits 256 n in
  if nth 0 ds 0 <? 128 then ds else 0 :: ds.

(** Hexadecimal digits taken two by two are the base-256 digits. *)
Lemma hex_pairs ds :
  digits_ok 16 ds -> Nat.even (length ds) = true ->
  exists bs, bytes_ok bs /\ digit_char <$> ds = mjoin (hex_byte <$> bs) /\
    undigits 256 bs = undigits 16 ds /\ length ds = (2 * length bs)%nat /\
    nth 0 bs 0 = 16 * nth 0 ds 0 + nth 1 ds 0.
Proof.
  induction ds as [ds IH] using (induction_ltof1 _ (@length Z)). unfold ltof in IH.
  destruct ds as [|a [|b ds]]; intros Hok Hev; [exists []; split; [constructor|done]|done|].
  apply Forall_cons_1 in Hok as [Ha [Hb Hok]%Forall_cons_1].
  destruct (IH ds) as (bs & Hbs & Hc & Hu & Hl & _); [simpl; lia|done|done|].
  exists (16 * a + b :: bs). split; [by constructor; [lia|]|]. split; [|split; [|split]].
  - rewrite !fmap_cons, Hc. cbn [mjoin list_join]. unfold hex_byte.
    replace ((16 * a + b) / 16) with a by (apply (Z.div_unique _ _ _ b); lia).
    by replace ((16 * a + b) mod 16) with b by (apply (Z.mod_unique _ _ a); lia).
  - rewrite !undigits_cons, Hu. cbn [length]. rewrite Hl.
    replace (Z.of_nat (S (2 * length bs))) with (Z.of_nat (2 * length bs) + 1) by lia.
    rewrite Z.pow_add_r by lia. replace (Z.of_nat (2 * length bs)) with (2 * Z.of_nat (length bs)) by lia.
    rewrite Z.pow_mul_r by lia. change (16 ^ 2) with 256. lia.
  - simpl. lia.
  - done.
Qed.

Lemma hexToBytes_hex bs hex : bytes_ok bs -> chars hex = mjoin (hex_byte <$> bs) -> hexToBytes hex = bs.
Proof.
  intros Hok Hc. rewrite <-(hexToBytes_bytesToHex bs) by done. f_equal. apply chars_inj.
  by rewrite bytesToHex_chars.
Qed.

Lemma nat_odd_even_len (n : nat) : (Z.of_nat n mod 2 =? 1) = Nat.odd n.
Proof.
  rewrite <-Nat.negb_even. destruct (Nat.even n) eqn:E.
  - apply Nat.even_spec in E as [k ->]. simpl. apply Z.eqb_neq.
    replace (Z.of_nat (k + (k + 0))) with (Z.of_nat k * 2) by lia. by rewrite Z.mod_mul.
  - assert (Nat.odd n = true) as [k ->]%Nat.odd_spec by (by rewrite <-Nat.negb_even, E). simpl. apply Z.eqb_eq.
    replace (Z.of_nat (k + (k + 0) + 1)) with (1 + Z.of_nat k * 2) by lia. by rewrite Z.mod_add.
Qed.

Lemma hexToBytes_bigint n :
  0 < n ->
  hexToBytes (let hex := toString_radix 16 n in if (strlen hex mod 2 =? 1) then "0" +:+ hex else hex) = digits 256 n.
Proof.
  intros Hn. unfold toString_radix.
  destruct (Z.eqb_spec n 0); [lia|]. destruct (Z.ltb_spec n 0); [lia|]. simpl.
  rewrite strlen_str, nat_odd_even_len, length_fmap.
  pose proof (digits_bound 16 n ltac:(lia)) as Hd.
  pose proof (digits_nonempty 16 n ltac:(lia) Hn) as Hne.
  pose proof (digits_head 16 n ltac:(lia)) as Hh. pose proof (undigits_digits 16 n ltac:(lia) ltac:(lia)) as Hu.
  set (ds := digits 16 n) in *. set (ds' := if Nat.odd (length ds) then 0 :: ds else ds).
  destruct (hex_pairs ds') as (bs & Hbs & Hc & Hub & Hl & Hnth).
  { unfold ds'. destruct (Nat.odd _); [constructor; [lia|done]|done]. }
  { unfold ds'. destruct (Nat.odd (length ds)) eqn:E; simpl length; [|by rewrite <-Nat.negb_odd, E].
    by rewrite Nat.even_succ. }
  rewrite (hexToBytes_hex bs); [|done|].
  - rewrite <-(digits_undigits 256 bs); [|lia|done|].
    + f_equal. rewrite Hub. unfold ds'. destruct (Nat.odd _); [|done]. rewrite undigits_cons. lia.
    + destruct bs as [|b bs]; [done|]. cbn [nth] in Hnth. intros ->. unfold ds' in Hnth, Hl.
      destruct ds as [|d ds0]; [done|]. simpl in Hh. apply Forall_cons_1 in Hd as [Hd0 Hd].
      destruct (Nat.odd _); cbn [nth] in Hnth; [lia|].
      destruct ds0 as [|d1 ds0]; cbn [nth] in Hnth; [lia|]. apply Forall_cons_1 in Hd as [? _]. lia.
  - rewrite <-Hc. unfold ds'. destruct (Nat.odd _); [|by rewrite chars_str].
    rewrite chars_app, chars_str. done.
Qed.

Lemma land_128 b : 0 <= b < 256 -> (Z.land b 0x80 =? 0) = (b <? 128).
Proof.
  intros Hb. apply Bool.eqb_true_iff.
  apply (forallb_seqZ (fun b => Bool.eqb (Z.land b 0x80 =? 0) (b <? 128)) 0 256); [by vm_compute|lia].
Qed.

Lemma bytes_nth l i : bytes_ok l -> 0 <= nth i l 0 < 256.
Proof.
  intros H. destruct (l !! i) as [b|] eqn:E.
  - rewrite (nth_lookup_Some _ _ 0 b) by done. by eapply Forall_lookup_1 in H.
  - rewrite nth_overflow by (by apply lookup_ge_None_1). lia.
Qed.

Lemma der_int_bytes n : bytes_ok (der_int n).
Proof.
  unfold der_int. pose proof (digits_bound 256 n ltac:(lia)) as H.
  case_match; [done|]. apply bytes_ok_cons; [lia|done].
Qed.

Lemma der_int_length n k :
  (1 <= k)%nat -> 0 < n < 256 ^ Z.of_nat k -> (1 <= length (der_int n) <= S k)%nat /\
    (n < 128 * 256 ^ (Z.of_nat k - 1) -> (length (der_int n) <= k)%nat).
Proof.
  intros Hk Hn. unfold der_int.
  pose proof (digits_length_le 256 n k ltac:(lia) ltac:(lia)) as Hl.
  pose proof (digits_bound 256 n ltac:(lia)) as Hd.
  pose proof (undigits_digits 256 n ltac:(lia) ltac:(lia)) as Hu.
  destruct (digits 256 n) as [|d ds] eqn:E; [exfalso; apply (digits_nonempty 256 n); [lia|lia|done]|].
  cbn [nth length] in *. destruct (Z.ltb_spec d 128); cbn [length]; (split; [lia|]); [lia|].
  intros Hlow. apply Forall_cons_1 in Hd as [Hd0 Hd].
  rewrite undigits_cons in Hu. pose proof (undigits_bound 256 ds ltac:(lia) Hd).
  destruct (decide (length ds = k - 1)%nat) as [Hds|]; [|lia].
  exfalso. rewrite Hds in *. replace (Z.of_nat (k - 1)) with (Z.of_nat k - 1) in * by lia. nia.
Qed.

Lemma encodeInt_spec n :
  0 < n < 2 ^ 256 -> encodeInt n = 2 :: Z.of_nat (length (der_int n)) :: der_int n.
Proof.
  intros Hn. unfold encodeInt. rewrite hexToBytes_bigint, !concatBytes_concat by lia.
  destruct (der_int_length n 32) as [Hl _]; [lia|change (256 ^ Z.of_nat 32) with (2 ^ 256); lia|].
  pose proof (digits_bound 256 n ltac:(lia)) as Hd.
  rewrite land_128 by (by apply bytes_nth). unfold der_int in *.
  destruct (nth 0 (digits 256 n) 0 <? 128); cbn [mjoin list_join]; rewrite !app_nil_r; unfold u8arr;
    rewrite !fmap_cons; cbn [app length fmap list_fmap] in *; rewrite !Z.mod_small by lia; done.
Qed.

(** The body of a DER signature: two integers, each with its tag and length. *)
Definition der_body (r s : Z) : list Z :=
  2 :: Z.of_nat (length (der_int r)) :: der_int r ++ 2 :: Z.of_nat (length (der_int s)) :: der_int s.

Definition sig_in_range (sg : signature) : Prop :=
  0 < sig_r sg < secp_n /\ 0 < sig_s sg <= secp_n / 2.

Lemma secp_n_bounds : secp_n < 256 ^ Z.of_nat 32 /\ secp_n / 2 < 128 * 256 ^ (Z.of_nat 32 - 1).
Proof. split; apply Z.ltb_lt; by vm_compute. Qed.

Lemma der_scalar_lengths sg :
  sig_in_range sg ->
  (1 <= length (der_int (sig_r sg)) <= 33)%nat /\ (1 <= length (der_int (sig_s sg)) <= 32)%nat.
Proof.
  intros [Hr Hs]. destruct secp_n_bounds.
  assert (secp_n / 2 <= secp_n) by (apply Z.leb_le; by vm_compute).
  destruct (der_int_length (sig_r sg) 32) as [? _]; [lia|lia|].
  destruct (der_int_length (sig_s sg) 32) as [? Hlow]; [lia|lia|]. specialize (Hlow ltac:(lia)). lia.
Qed.

Lemma der_spec sg :
  sig_in_range sg ->
  derEncodeSignature sg =
    0x30 :: Z.of_nat (length (der_body (sig_r sg) (sig_s sg))) :: der_body (sig_r sg) (sig_s sg).
Proof.
  intros Hsg. pose proof (der_scalar_lengths sg Hsg) as [Hlr Hls]. destruct Hsg as [Hr Hs].
  destruct secp_n_bounds. assert (secp_n / 2 <= secp_n) by (apply Z.leb_le; by vm_compute).
  unfold derEncodeSignature. rewrite !encodeInt_spec by (change (2 ^ 256) with (256 ^ Z.of_nat 32); lia).
  rewrite concatBytes_concat. unfold der_body, u8arr. rewrite !fmap_cons. cbn [mjoin list_join].
  rewrite app_nil_r, !Z.mod_small by (cbn [length]; lia). cbn [app length]. rewrite length_app. cbn [length].
  done.
Qed.

Lemma der_length sg :
  sig_in_range sg -> (8 <= length (derEncodeSignature sg) <= 71)%nat.
Proof.
  intros Hsg. pose proof (der_scalar_lengths sg Hsg) as [Hlr Hls]. rewrite der_spec by done.
  unfold der_body. cbn [length]. rewrite length_app. cbn [length]. lia.
Qed.

Lemma der_bytes sg : sig_in_range sg -> bytes_ok (derEncodeSignature sg).
Proof.
  intros Hsg. pose proof (der_length sg Hsg). pose proof (der_scalar_lengths sg Hsg) as [Hlr Hls].
  rewrite der_spec in * by done. unfold der_body in *. cbn [length] in *. rewrite length_app in *. cbn [length] in *.
  repeat (apply bytes_ok_cons; [lia|]). apply bytes_ok_app_2; [apply der_int_bytes|].
  repeat (apply bytes_ok_cons; [lia|]). apply der_int_bytes.
Qed.

(** ** The signing loop

    Each iteration stores a script into the array the next ones read, but the
    signature hash blanks every script: the loop signs the unsigned
    transaction, input by input. *)

Lemma foldR_alter {A S : Type} (g : list A -> nat -> res S) (f : S -> A -> A) (l : list nat) st :
  (forall st s j i, g (alter (f s) j st) i = g st i) ->
  foldR (fun st i => s ← g st i; Ok (alter (f s) i st)) st l =
    (ss ← mapR (g st) l; Ok (foldl (fun st p => alter (f p.2) p.1 st) st (zip l ss))).
Proof.
  intros Hg. revert st. induction l as [|i l IH]; intros st; [done|]. simpl.
  destruct (g st i) as [s|e]; [|done]. simpl. rewrite IH.
  assert (mapR (g (alter (f s) i st)) l = mapR (g st) l) as ->.
  { clear IH. induction l as [|j l IH]; [done|]. simpl. by rewrite Hg, IH. }
  by destruct (mapR (g st) l).
Qed.

Lemma foldl_alter_zip {A S : Type} (f : S -> A -> A) (pre st : list A) (ss : list S) :
  length ss = length st ->
  foldl (fun st p => alter (f p.2) p.1 st) (pre ++ st) (zip (seq (length pre) (length st)) ss) =
    pre ++ zip_with f ss st.
Proof.
  revert pre ss. induction st as [|a st IH]; intros pre [|s ss] Hl; try done. simpl.
  rewrite alter_app_r_alt, Nat.sub_diag by done. simpl.
  specialize (IH (pre ++ [f s a]) ss). rewrite length_app in IH. simpl in IH.
  rewrite Nat.add_1_r, <-!app_assoc in IH. apply IH. by injection Hl.
Qed.

Section BuildSpec.
Context `{Crypto}.

Lemma legacySighash_scripts s j inputs outputs i sub lt :
  legacySighash (alter (set_scriptSig s) j inputs) outputs i sub lt = legacySighash inputs outputs i sub lt.
Proof. unfold legacySighash. by rewrite blank_set_scriptSig. Qed.

Lemma sign_loop inputs outputs pk pub lt txInputs :
  foldR (sign_input inputs outputs pk pub lt) txInputs (seq 0 (length txInputs)) =
    (scripts ← mapR (sign_script inputs outputs pk pub lt txInputs) (seq 0 (length txInputs));
     Ok (zip_with set_scriptSig scripts txInputs)).
Proof.
  unfold sign_input. rewrite foldR_alter.
  - destruct (mapR _ _) as [ss|] eqn:E; [|done]. simpl. f_equal.
    apply mapR_ok, Forall2_length in E. rewrite length_seq in E.
    by apply (foldl_alter_zip set_scriptSig []).
  - intros st s j i. unfold sign_script. destruct (defined "input" _); [|done]. cbn [mbind res_bind]. by rewrite legacySighash_scripts.
Qed.

End BuildSpec.
