(* ===== verification/NodeTx.v ===== *)
(** * The node's transaction serialisation

    [firstislamiccoin-core/src/serialize.h] (compact sizes, vectors, scripts)
    and [primitives/transaction.h] (lines 28-302: the transaction types,
    [UnserializeTransaction], [SerializeTransaction]).  A stream is the list of
    bytes still to be read; a reader returns a value and the rest, or the
    [std::ios_base::failure] it throws. *)

From S2P Require Import Prelude Digits JsString Bytes Crypto JsInt Tx.

Open Scope Z_scope.
Open Scope list_scope.

Inductive failure : Type :=
  | EndOfData
  | NonCanonicalCompactSize
  | SizeTooLarge
  | SuperfluousWitness
  | UnknownOptionalData.

Definition reader (A : Type) : Type := list Z -> failure + (A * list Z).

#[global] Instance reader_ret : MRet reader := fun A a s => inr (a, s).
#[global] Instance reader_bind : MBind reader := fun A B f m s =>
  match m s with inl e => inl e | inr (a, s) => f a s end.

Definition fail {A} (e : failure) : reader A := fun _ => inl e.
Definition when_fail (c : bool) (e : failure) : reader unit := fun s => if c then inl e else inr (tt, s).

(** [s.read(dst)] of [n] bytes. *)
Definition read (n : nat) : reader (list Z) := fun s =>
  match take_exact n s with Some (b, r) => inr (b, r) | None => inl EndOfData end.

Definition read_u (n : nat) : reader Z := b ← read n; mret (un_le b).

(** Two's complement of an [n]-byte word. *)
Definition signed (n : nat) (z : Z) : Z :=
  if z <? 2 ^ (8 * Z.of_nat n - 1) then z else z - 2 ^ (8 * Z.of_nat n).
Definition read_s (n : nat) : reader Z := z ← read_u n; mret (signed n z).

Definition MAX_SIZE : Z := 0x02000000.

Definition ReadCompactSize : reader Z :=
  chSize ← read_u 1;
  nSizeRet ←
    (if chSize <? 253 then mret chSize
     else if chSize =? 253 then
       n ← read_u 2; _ ← when_fail (n <? 253) NonCanonicalCompactSize; mret n
     else if chSize =? 254 then
       n ← read_u 4; _ ← when_fail (n <? 0x10000) NonCanonicalCompactSize; mret n
     else
       n ← read_u 8; _ ← when_fail (n <? 0x100000000) NonCanonicalCompactSize; mret n);
  _ ← when_fail (MAX_SIZE <? nSizeRet) SizeTooLarge;
  mret nSizeRet.

Definition WriteCompactSize (nSize : Z) : list Z :=
  if nSize <? 253 then le_bytes 1 nSize
  else if nSize <=? 0xffff then le_bytes 1 253 ++ le_bytes 2 nSize
  else if nSize <=? 0xffffffff then le_bytes 1 254 ++ le_bytes 4 nSize
  else le_bytes 1 255 ++ le_bytes 8 nSize.

(** A vector: its size, then its elements.  The batches of the C++ loop bound
    memory use only; the bytes read are the same. *)
Fixpoint read_n {A} (n : nat) (elem : reader A) : reader (list A) :=
  match n with
  | O => mret []
  | S n => x ← elem; xs ← read_n n elem; mret (x :: xs)
  end.
Definition read_vector {A} (elem : reader A) : reader (list A) :=
  n ← ReadCompactSize; read_n (Z.to_nat n) elem.
Definition write_vector {A} (elem : A -> list Z) (v : list A) : list Z :=
  WriteCompactSize (Z.of_nat (length v)) ++ mjoin (elem <$> v).

(** Scripts and witness items are vectors of [unsigned char], read as a blob. *)
Definition read_blob : reader (list Z) := n ← ReadCompactSize; read (Z.to_nat n).
Definition write_blob (b : list Z) : list Z := WriteCompactSize (Z.of_nat (length b)) ++ b.

(** ** Transactions *)

Record COutPoint : Type := { op_hash : list Z; op_n : Z }.

Record CTxIn : Type := {
  prevout : COutPoint;
  in_scriptSig : list Z;
  nSequence : Z;
  scriptWitness : list (list Z)
}.

Record CTxOut : Type := { nValue : Z; out_scriptPubKey : list Z }.

Record CTransaction : Type := {
  nVersion : Z;
  nTime : Z;
  vin : list CTxIn;
  vout : list CTxOut;
  nLockTime : Z
}.

Definition write_outpoint (p : COutPoint) : list Z := op_hash p ++ le_bytes 4 (op_n p).
Definition read_outpoint : reader COutPoint :=
  h ← read 32; n ← read_u 4; mret {| op_hash := h; op_n := n |}.

Definition write_txin (i : CTxIn) : list Z :=
  write_outpoint (prevout i) ++ write_blob (in_scriptSig i) ++ le_bytes 4 (nSequence i).
Definition read_txin : reader CTxIn :=
  p ← read_outpoint; s ← read_blob; q ← read_u 4;
  mret {| prevout := p; in_scriptSig := s; nSequence := q; scriptWitness := [] |}.

Definition write_txout (o : CTxOut) : list Z := le_bytes 8 (nValue o) ++ write_blob (out_scriptPubKey o).
Definition read_txout : reader CTxOut :=
  v ← read_s 8; s ← read_blob; mret {| nValue := v; out_scriptPubKey := s |}.

Definition set_witness (i : CTxIn) (w : list (list Z)) : CTxIn := {|
  prevout := prevout i; in_scriptSig := in_scriptSig i; nSequence := nSequence i; scriptWitness := w
|}.

Definition IsNullWitness (w : list (list Z)) : bool := match w with [] => true | _ => false end.
Definition HasWitness (vin : list CTxIn) : bool :=
  existsb (fun i => negb (IsNullWitness (scriptWitness i))) vin.

(** The loop [for i: s >> tx.vin[i].scriptWitness.stack]. *)
Fixpoint read_witnesses (vin : list CTxIn) : reader (list CTxIn) :=
  match vin with
  | [] => mret []
  | i :: vin => w ← read_vector read_blob; vin ← read_witnesses vin; mret (set_witness i w :: vin)
  end.

Definition UnserializeTransaction (fAllowWitness : bool) : reader CTransaction :=
  version ← read_s 4;
  time ← (if version <? 2 then read_u 4 else mret 0);
  vin ← read_vector read_txin;
  '(flags, vin, vout) ←
    (if (length vin =? 0)%nat && fAllowWitness then
       flags ← read_u 1;
       if negb (flags =? 0) then
         vin ← read_vector read_txin; vout ← read_vector read_txout; mret (flags, vin, vout)
       else mret (flags, vin, [])
     else vout ← read_vector read_txout; mret (0, vin, vout));
  '(flags, vin) ←
    (if negb (Z.land flags 1 =? 0) && fAllowWitness then
       vin ← read_witnesses vin;
       _ ← when_fail (negb (HasWitness vin)) SuperfluousWitness;
       mret (Z.lxor flags 1, vin)
     else mret (flags, vin));
  _ ← when_fail (negb (flags =? 0)) UnknownOptionalData;
  locktime ← read_u 4;
  mret {| nVersion := version; nTime := time; vin := vin; vout := vout; nLockTime := locktime |}.

Definition SerializeTransaction (fAllowWitness : bool) (tx : CTransaction) : list Z :=
  let flags := if fAllowWitness && HasWitness (vin tx) then 1 else 0 in
  le_bytes 4 (nVersion tx) ++
  (if nVersion tx <? 2 then le_bytes 4 (nTime tx) else []) ++
  (if negb (flags =? 0) then write_vector write_txin [] ++ le_bytes 1 flags else []) ++
  write_vector write_txin (vin tx) ++
  write_vector write_txout (vout tx) ++
  (if negb (Z.land flags 1 =? 0) then
     mjoin ((fun i => write_vector write_blob (scriptWitness i)) <$> vin tx) else []) ++
  le_bytes 4 (nLockTime tx).

(** ** Readers and what they consume

    [reads r b a]: in front of any remaining stream, [r] consumes exactly [b]
    and returns [a]. *)

Definition reads {A} (r : reader A) (b : list Z) (a : A) : Prop :=
  forall rest, r (b ++ rest) = inr (a, rest).

Create HintDb reads.

#[local] Arguments le_bytes : simpl never.

Lemma reads_ret {A} (a : A) : reads (mret a) [] a.
Proof. by intros rest. Qed.

Lemma reads_bind {A B} (m : reader A) (f : A -> reader B) b1 b2 a c :
  reads m b1 a -> reads (f a) b2 c -> reads (m ≫= f) (b1 ++ b2) c.
Proof. intros H1 H2 rest. unfold mbind, reader_bind. by rewrite <-app_assoc, H1, H2. Qed.

Lemma reads_bind_nil {A B} (m : reader A) (f : A -> reader B) b a c :
  reads m b a -> reads (f a) [] c -> reads (m ≫= f) b c.
Proof. intros H1 H2. rewrite <-(app_nil_r b). by eapply reads_bind. Qed.

Lemma reads_bind_split {A B} (m : reader A) (f : A -> reader B) b1 b2 a b c :
  reads m b1 a -> b = b1 ++ b2 -> reads (f a) b2 c -> reads (m ≫= f) b c.
Proof. intros H1 -> H2. by eapply reads_bind. Qed.

Lemma reads_guard {B} e (k : reader B) b c : reads k b c -> reads (when_fail false e ≫= fun _ => k) b c.
Proof. intros H rest. apply H. Qed.

Lemma reads_read n b : length b = n -> reads (read n) b b.
Proof. intros Hl rest. unfold read. by rewrite take_exact_app'. Qed.

Lemma reads_u n z : 0 <= z < 256 ^ Z.of_nat n -> reads (read_u n) (le_bytes n z) z.
Proof.
  intros Hz rest. unfold read_u, mbind, reader_bind. rewrite (reads_read n) by apply length_le.
  by rewrite un_le_le, Z.mod_small.
Qed.

Lemma signed_mod n z :
  (0 < n)%nat -> - 2 ^ (8 * Z.of_nat n - 1) <= z < 2 ^ (8 * Z.of_nat n - 1) ->
  signed n (z mod 256 ^ Z.of_nat n) = z.
Proof.
  intros Hn Hz. unfold signed. change 256 with (2 ^ 8). rewrite <-Z.pow_mul_r by lia.
  assert (2 ^ (8 * Z.of_nat n) = 2 * 2 ^ (8 * Z.of_nat n - 1)) as E.
  { rewrite <-Z.pow_succ_r by lia. f_equal. lia. }
  rewrite E in *. set (h := 2 ^ (8 * Z.of_nat n - 1)) in *.
  destruct (Z.lt_ge_cases z 0).
  - replace (z mod (2 * h)) with (z + 2 * h) by (apply (Z.mod_unique_pos _ _ (-1)); lia).
    destruct (Z.ltb_spec (z + 2 * h) h); lia.
  - rewrite Z.mod_small by lia. destruct (Z.ltb_spec z h); lia.
Qed.

Lemma reads_s n z :
  (0 < n)%nat -> - 2 ^ (8 * Z.of_nat n - 1) <= z < 2 ^ (8 * Z.of_nat n - 1) ->
  reads (read_s n) (le_bytes n z) z.
Proof.
  intros Hn Hz rest. unfold read_s, read_u, mbind, reader_bind. rewrite (reads_read n) by apply length_le.
  by rewrite un_le_le; cbv [mret reader_ret]; rewrite signed_mod.
Qed.

(** The wallet's [varInt] and the node's [WriteCompactSize] write the same bytes. *)
Lemma varInt_compact n : 0 <= n -> varInt n = WriteCompactSize n.
Proof.
  intros Hn. unfold varInt, WriteCompactSize. change 0xfd with 253.
  destruct (Z.ltb_spec n 253); [done|]. by repeat case_match.
Qed.

Lemma reads_compact n : 0 <= n <= MAX_SIZE -> reads ReadCompactSize (WriteCompactSize n) n.
Proof.
  unfold MAX_SIZE. intros Hn. unfold ReadCompactSize, WriteCompactSize.
  destruct (Z.ltb_spec n 253).
  { eapply reads_bind_nil; [by apply reads_u; simpl; lia|]. rewrite (proj2 (Z.ltb_lt n 253)) by done.
    eapply (reads_bind_nil _ _ []); [apply reads_ret|].
    rewrite (proj2 (Z.ltb_ge MAX_SIZE n)) by (unfold MAX_SIZE; lia). apply reads_guard, reads_ret. }
  destruct (Z.leb_spec n 0xffff); [|destruct (Z.leb_spec n 0xffffffff); [|lia]];
    (eapply reads_bind; [by apply reads_u; simpl; lia|];
     cbn [Z.ltb Z.eqb Z.compare Pos.compare Pos.compare_cont Pos.eqb];
     eapply reads_bind_nil;
       [eapply reads_bind_nil; [apply reads_u; simpl; lia|];
        rewrite (proj2 (Z.ltb_ge n _)) by lia; apply reads_guard, reads_ret|];
     rewrite (proj2 (Z.ltb_ge MAX_SIZE n)) by (unfold MAX_SIZE; lia); apply reads_guard, reads_ret).
Qed.

#[export] Hint Resolve reads_ret reads_compact : reads.

Lemma read_n_fmap {A} (elem : reader A) (w : A -> list Z) (f : A -> A) (v : list A) :
  Forall (fun x => reads elem (w x) (f x)) v -> reads (read_n (length v) elem) (mjoin (w <$> v)) (f <$> v).
Proof.
  induction 1 as [|x v Hx _ IH]; simpl; [apply reads_ret|].
  eapply reads_bind; [done|]. eapply reads_bind_nil; [done|apply reads_ret].
Qed.

Lemma reads_vector {A} (elem : reader A) (w : A -> list Z) (v : list A) :
  Z.of_nat (length v) <= MAX_SIZE -> Forall (fun x => reads elem (w x) x) v ->
  reads (read_vector elem) (write_vector w v) v.
Proof.
  intros Hl Hv. eapply reads_bind; [apply reads_compact; lia|]. rewrite Nat2Z.id.
  rewrite <-(list_fmap_id v) at 3. by apply read_n_fmap.
Qed.

Definition small_blob (b : list Z) : Prop := Z.of_nat (length b) <= MAX_SIZE.

Lemma reads_blob b : small_blob b -> reads read_blob (write_blob b) b.
Proof.
  intros Hl. eapply reads_bind; [apply reads_compact; unfold small_blob in Hl; lia|].
  rewrite Nat2Z.id. by apply reads_read.
Qed.

Definition no_witness (i : CTxIn) : CTxIn := set_witness i [].

Definition wf_txin (i : CTxIn) : Prop :=
  length (op_hash (prevout i)) = 32%nat /\ 0 <= op_n (prevout i) < 2 ^ 32 /\
  small_blob (in_scriptSig i) /\ 0 <= nSequence i < 2 ^ 32 /\
  Z.of_nat (length (scriptWitness i)) <= MAX_SIZE /\ Forall small_blob (scriptWitness i).
Definition wf_txout (o : CTxOut) : Prop :=
  - 2 ^ 63 <= nValue o < 2 ^ 63 /\ small_blob (out_scriptPubKey o).

(** The transactions the format can represent: fields within their widths,
    vectors within the size limit, no time stamp from version 2 on, no witness
    where none is written, and an input where a witness flag could be meant. *)
Definition wf_tx (fAllowWitness : bool) (tx : CTransaction) : Prop :=
  - 2 ^ 31 <= nVersion tx < 2 ^ 31 /\
  (if nVersion tx <? 2 then 0 <= nTime tx < 2 ^ 32 else nTime tx = 0) /\
  Z.of_nat (length (vin tx)) <= MAX_SIZE /\ Forall wf_txin (vin tx) /\
  Z.of_nat (length (vout tx)) <= MAX_SIZE /\ Forall wf_txout (vout tx) /\
  0 <= nLockTime tx < 2 ^ 32 /\
  (if fAllowWitness then vin tx <> [] else HasWitness (vin tx) = false).

Lemma reads_txin i : wf_txin i -> reads read_txin (write_txin i) (no_witness i).
Proof.
  intros (Hh & Hn & Hs & Hq & _). unfold write_txin. destruct i as [[h n] s q w]; simpl in *.
  eapply (reads_bind _ _ _ _ {| op_hash := h; op_n := n |}).
  { eapply reads_bind; [by apply reads_read|]. eapply reads_bind_nil; [by apply reads_u|apply reads_ret]. }
  eapply reads_bind; [by apply reads_blob|]. eapply reads_bind_nil; [by apply reads_u|apply reads_ret].
Qed.

Lemma reads_txout o : wf_txout o -> reads read_txout (write_txout o) o.
Proof.
  intros [Hv Hs]. destruct o as [v s]; simpl in *.
  eapply reads_bind; [apply reads_s; [lia|done]|]. eapply reads_bind_nil; [by apply reads_blob|apply reads_ret].
Qed.

Lemma reads_vin vin :
  Z.of_nat (length vin) <= MAX_SIZE -> Forall wf_txin vin ->
  reads (read_vector read_txin) (write_vector write_txin vin) (no_witness <$> vin).
Proof.
  intros Hl Hv. eapply reads_bind; [apply reads_compact; lia|]. rewrite Nat2Z.id.
  apply read_n_fmap. eapply Forall_impl; [done|]. apply reads_txin.
Qed.

Lemma reads_vout vout :
  Z.of_nat (length vout) <= MAX_SIZE -> Forall wf_txout vout ->
  reads (read_vector read_txout) (write_vector write_txout vout) vout.
Proof. intros Hl Hv. apply reads_vector; [done|]. eapply Forall_impl; [done|]. apply reads_txout. Qed.

Lemma set_no_witness i : set_witness (no_witness i) (scriptWitness i) = i.
Proof. by destruct i. Qed.

Lemma reads_witnesses vin :
  Forall wf_txin vin ->
  reads (read_witnesses (no_witness <$> vin))
    (mjoin ((fun i => write_vector write_blob (scriptWitness i)) <$> vin)) vin.
Proof.
  induction 1 as [|i vin Hi _ IH]; [apply reads_ret|]. rewrite !fmap_cons. cbn [mjoin list_join read_witnesses].
  destruct Hi as (_ & _ & _ & _ & Hl & Hw).
  eapply reads_bind; [apply reads_vector; [done|]; eapply Forall_impl; [done|]; apply reads_blob|].
  eapply reads_bind_nil; [done|]. rewrite set_no_witness. apply reads_ret.
Qed.

Lemma no_witness_id vin : HasWitness vin = false -> no_witness <$> vin = vin.
Proof.
  induction vin as [|[p s q w] vin IH]; [done|]. unfold HasWitness; simpl.
  intros [Hw Hv]%orb_false_iff. f_equal; [|by apply IH]. by destruct w.
Qed.

Lemma unserialize_serialize_aux fAllowWitness tx :
  wf_tx fAllowWitness tx ->
  reads (UnserializeTransaction fAllowWitness) (SerializeTransaction fAllowWitness tx) tx.
Proof.
  intros (Hver & Htime & Hlin & Hin & Hlout & Hout & Hlock & Hw).
  destruct tx as [ver time ins outs lock]; cbn [nVersion nTime vin vout nLockTime] in *.
  unfold UnserializeTransaction, SerializeTransaction. cbn [nVersion nTime vin vout nLockTime].
  eapply reads_bind; [apply reads_s; [lia|done]|].
  eapply (reads_bind _ _ _ _ time).
  { destruct (ver <? 2); [by apply reads_u|]. rewrite Htime. apply reads_ret. }
  destruct (fAllowWitness && HasWitness ins) eqn:Hf; cbn [Z.eqb negb].
  - apply andb_true_iff in Hf as [-> Hwit]. rewrite <-!app_assoc.
    eapply (reads_bind _ _ (write_vector write_txin []) _ []); [by apply (reads_vin [])|]. cbn [length Nat.eqb andb].
    eapply (reads_bind_split _ _ (le_bytes 1 1 ++ write_vector write_txin ins ++ write_vector write_txout outs)
      _ (1, no_witness <$> ins, outs)); [|by rewrite <-!app_assoc|].
    { eapply reads_bind; [by apply reads_u|]. cbn [Z.eqb negb].
      eapply reads_bind; [by apply reads_vin|]. eapply reads_bind_nil; [by apply reads_vout|apply reads_ret]. }
    cbn [Z.land Pos.land Z.eqb negb andb].
    eapply (reads_bind _ _ _ _ (0, ins)).
    { eapply reads_bind_nil; [by apply reads_witnesses|]. rewrite Hwit. apply reads_guard, reads_ret. }
    apply reads_guard. eapply reads_bind_nil; [by apply reads_u|apply reads_ret].
  - rewrite app_nil_l. eapply reads_bind; [by apply reads_vin|]. rewrite length_fmap.
    replace ((length ins =? 0)%nat && fAllowWitness) with false
      by (destruct fAllowWitness; [by destruct ins|by rewrite andb_false_r]).
    eapply (reads_bind _ _ _ _ (0, no_witness <$> ins, outs)).
    { eapply reads_bind_nil; [by apply reads_vout|apply reads_ret]. }
    cbn [Z.land Z.eqb negb andb]. eapply (reads_bind _ _ [] _ (0, no_witness <$> ins)); [apply reads_ret|].
    apply reads_guard. eapply reads_bind_nil; [by apply reads_u|].
    rewrite no_witness_id; [apply reads_ret|]. by destruct fAllowWitness.
Qed.

(** ** The wallet's transactions as the node sees them *)

Definition node_txin (inp : tx_input) : CTxIn := {|
  prevout := {| op_hash := prevTxid inp; op_n := prevVout inp |};
  in_scriptSig := scriptSig inp;
  nSequence := default 0xffffffff (sequence inp);
  scriptWitness := []
|}.
Definition node_txout (out : tx_output) : CTxOut := {|
  nValue := valueSatoshis out; out_scriptPubKey := scriptPubKey out
|}.
Definition node_tx (version : Z) (inputs : list tx_input) (outputs : list tx_output) (locktime : Z) : CTransaction := {|
  nVersion := version; nTime := 0; vin := node_txin <$> inputs; vout := node_txout <$> outputs; nLockTime := locktime
|}.

Lemma input_bytes_node inp : input_bytes inp = write_txin (node_txin inp).
Proof.
  unfold input_bytes, write_txin, write_outpoint, write_blob. cbn [input_parts mjoin list_join].
  rewrite varInt_compact by lia. by rewrite app_nil_r, <-!app_assoc.
Qed.

Lemma output_bytes_node out : output_bytes out = write_txout (node_txout out).
Proof.
  unfold output_bytes, write_txout, write_blob. cbn [output_parts mjoin list_join].
  rewrite varInt_compact by lia. by rewrite app_nil_r.
Qed.

Lemma node_no_witness inputs : HasWitness (node_txin <$> inputs) = false.
Proof. by induction inputs. Qed.

Lemma inputs_bytes_node inputs : mjoin (input_bytes <$> inputs) = mjoin (write_txin <$> (node_txin <$> inputs)).
Proof. rewrite <-list_fmap_compose. f_equal. apply list_fmap_ext. intros. apply input_bytes_node. Qed.

Lemma outputs_bytes_node outputs : mjoin (output_bytes <$> outputs) = mjoin (write_txout <$> (node_txout <$> outputs)).
Proof. rewrite <-list_fmap_compose. f_equal. apply list_fmap_ext. intros. apply output_bytes_node. Qed.

(** From version 2 on (no time stamp), the wallet writes what the node writes. *)
Lemma serializeTx_node version inputs outputs locktime :
  2 <= version ->
  serializeTx version inputs outputs locktime = SerializeTransaction true (node_tx version inputs outputs locktime).
Proof.
  intros Hv. rewrite serializeTx_flat. unfold SerializeTransaction, node_tx. cbn [nVersion vin vout nLockTime].
  rewrite node_no_witness. rewrite (proj2 (Z.ltb_ge version 2)) by done.
  cbn [andb Z.eqb negb Z.land app]. unfold write_vector. rewrite !varInt_compact by lia.
  by rewrite inputs_bytes_node, outputs_bytes_node, !length_fmap, <-!app_assoc.
Qed.

Definition wf_input (inp : tx_input) : Prop :=
  length (prevTxid inp) = 32%nat /\ 0 <= prevVout inp < 2 ^ 32 /\ small_blob (scriptSig inp) /\
  0 <= default 0xffffffff (sequence inp) < 2 ^ 32.
Definition wf_output (out : tx_output) : Prop :=
  0 <= valueSatoshis out < 2 ^ 63 /\ small_blob (scriptPubKey out).
Definition wf_wallet_tx (inputs : list tx_input) (outputs : list tx_output) (locktime : Z) : Prop :=
  inputs <> [] /\ Z.of_nat (length inputs) <= MAX_SIZE /\ Forall wf_input inputs /\
  Z.of_nat (length outputs) <= MAX_SIZE /\ Forall wf_output outputs /\ 0 <= locktime < 2 ^ 32.

Lemma wf_node_tx inputs outputs locktime :
  wf_wallet_tx inputs outputs locktime -> wf_tx true (node_tx 2 inputs outputs locktime).
Proof.
  intros (Hne & Hli & Hi & Hlo & Ho & Hlt). repeat split; cbn [node_tx nVersion vin vout nLockTime];
    rewrite ?length_fmap; try lia; try done.
  - apply Forall_fmap. eapply Forall_impl; [done|]. intros inp (? & ? & ? & ?).
    split; [done|]. split; [done|]. split; [done|]. split; [done|]. split; [done|constructor].
  - apply Forall_fmap. eapply Forall_impl; [done|]. intros out [? ?]. split; [simpl; lia|done].
  - by destruct inputs.
Qed.

(** C30: the node's reader inverts its writer on every representable
    transaction, with or without witnesses and with the time stamp of version-1
    transactions, and stops exactly at the end of the transaction. *)
Theorem node_transaction_roundtrip fAllowWitness tx rest (Hwf : wf_tx fAllowWitness tx) :
  UnserializeTransaction fAllowWitness (SerializeTransaction fAllowWitness tx ++ rest) = inr (tx, rest).
Proof. by apply unserialize_serialize_aux. Qed.

(** C22: the bytes the wallet serialises are read by the node as the very
    transaction the wallet meant: same inputs in order, same amounts and output
    scripts, same lock time, final sequence numbers where the wallet gave none,
    and no witness. *)
Theorem node_reads_wallet_tx inputs outputs locktime rest (Hwf : wf_wallet_tx inputs outputs locktime) :
  UnserializeTransaction true (serializeTx 2 inputs outputs locktime ++ rest) =
    inr (node_tx 2 inputs outputs locktime, rest).
Proof. rewrite serializeTx_node by lia. by apply unserialize_serialize_aux, wf_node_tx. Qed.

(** ** Witnesses *)

Lemma node_transaction_roundtrip_witness :
  UnserializeTransaction true (SerializeTransaction true {|
      nVersion := 1; nTime := 1700000000;
      vin := [{| prevout := {| op_hash := replicate 32 7; op_n := 3 |}; in_scriptSig := [];
                 nSequence := 5; scriptWitness := [[1; 2]; []] |}];
      vout := [{| nValue := -1; out_scriptPubKey := [0x6a] |}]; nLockTime := 9 |} ++ [42]) =
    inr ({|
      nVersion := 1; nTime := 1700000000;
      vin := [{| prevout := {| op_hash := replicate 32 7; op_n := 3 |}; in_scriptSig := [];
                 nSequence := 5; scriptWitness := [[1; 2]; []] |}];
      vout := [{| nValue := -1; out_scriptPubKey := [0x6a] |}]; nLockTime := 9 |}, [42]).
Proof.
  apply node_transaction_roundtrip. unfold wf_tx, wf_txin, wf_txout, small_blob, MAX_SIZE; simpl.
  repeat (split || constructor || lia || done).
Defined.

Lemma node_reads_wallet_tx_witness :
  UnserializeTransaction true
    (serializeTx 2 [{| prevTxid := replicate 32 1; prevVout := 0; scriptSig := [1; 2]; sequence := None |}]
       [{| scriptPubKey := [0x51]; valueSatoshis := 300 |}] 0 ++ []) =
  inr (node_tx 2 [{| prevTxid := replicate 32 1; prevVout := 0; scriptSig := [1; 2]; sequence := None |}]
       [{| scriptPubKey := [0x51]; valueSatoshis := 300 |}] 0, []).
Proof.
  apply node_reads_wallet_tx. unfold wf_wallet_tx, wf_input, wf_output, small_blob, MAX_SIZE; simpl.
  repeat (split || constructor || lia || done).
Defined.
