(* ===== verification/ScriptError.v ===== *)
(** * Results and flags of the script verifier

    [firstislamiccoin-core/src/script/script_error.h] (the error codes) and the
    verification flags of [script/interpreter.h].  The functions of the
    interpreter return a boolean and write an error code through a pointer; an
    [assert] stops the process and an exception is caught by [EvalScript]. *)

From S2P Require Import Prelude Digits JsString Bytes.

Open Scope Z_scope.
Open Scope list_scope.

Inductive ScriptError : Type :=
  | SCRIPT_ERR_OK
  | SCRIPT_ERR_UNKNOWN_ERROR
  | SCRIPT_ERR_EVAL_FALSE
  | SCRIPT_ERR_OP_RETURN
  | SCRIPT_ERR_SCRIPT_SIZE
  | SCRIPT_ERR_PUSH_SIZE
  | SCRIPT_ERR_OP_COUNT
  | SCRIPT_ERR_STACK_SIZE
  | SCRIPT_ERR_SIG_COUNT
  | SCRIPT_ERR_PUBKEY_COUNT
  | SCRIPT_ERR_VERIFY
  | SCRIPT_ERR_EQUALVERIFY
  | SCRIPT_ERR_CHECKMULTISIGVERIFY
  | SCRIPT_ERR_CHECKSIGVERIFY
  | SCRIPT_ERR_NUMEQUALVERIFY
  | SCRIPT_ERR_BAD_OPCODE
  | SCRIPT_ERR_DISABLED_OPCODE
  | SCRIPT_ERR_INVALID_STACK_OPERATION
  | SCRIPT_ERR_INVALID_ALTSTACK_OPERATION
  | SCRIPT_ERR_UNBALANCED_CONDITIONAL
  | SCRIPT_ERR_NEGATIVE_LOCKTIME
  | SCRIPT_ERR_UNSATISFIED_LOCKTIME
  | SCRIPT_ERR_SIG_HASHTYPE
  | SCRIPT_ERR_SIG_DER
  | SCRIPT_ERR_MINIMALDATA
  | SCRIPT_ERR_SIG_PUSHONLY
  | SCRIPT_ERR_SIG_HIGH_S
  | SCRIPT_ERR_SIG_NULLDUMMY
  | SCRIPT_ERR_PUBKEYTYPE
  | SCRIPT_ERR_CLEANSTACK
  | SCRIPT_ERR_MINIMALIF
  | SCRIPT_ERR_SIG_NULLFAIL
  | SCRIPT_ERR_DISCOURAGE_UPGRADABLE_NOPS
  | SCRIPT_ERR_DISCOURAGE_UPGRADABLE_WITNESS_PROGRAM
  | SCRIPT_ERR_DISCOURAGE_UPGRADABLE_TAPROOT_VERSION
  | SCRIPT_ERR_DISCOURAGE_OP_SUCCESS
  | SCRIPT_ERR_DISCOURAGE_UPGRADABLE_PUBKEYTYPE
  | SCRIPT_ERR_WITNESS_PROGRAM_WRONG_LENGTH
  | SCRIPT_ERR_WITNESS_PROGRAM_WITNESS_EMPTY
  | SCRIPT_ERR_WITNESS_PROGRAM_MISMATCH
  | SCRIPT_ERR_WITNESS_MALLEATED
  | SCRIPT_ERR_WITNESS_MALLEATED_P2SH
  | SCRIPT_ERR_WITNESS_UNEXPECTED
  | SCRIPT_ERR_WITNESS_PUBKEYTYPE
  | SCRIPT_ERR_SCHNORR_SIG_SIZE
  | SCRIPT_ERR_SCHNORR_SIG_HASHTYPE
  | SCRIPT_ERR_SCHNORR_SIG
  | SCRIPT_ERR_TAPROOT_WRONG_CONTROL_SIZE
  | SCRIPT_ERR_TAPSCRIPT_VALIDATION_WEIGHT
  | SCRIPT_ERR_TAPSCRIPT_CHECKMULTISIG
  | SCRIPT_ERR_TAPSCRIPT_MINIMALIF
  | SCRIPT_ERR_OP_CODESEPARATOR
  | SCRIPT_ERR_SIG_FINDANDDELETE.

(** ** Outcomes

    [Ret] is a function that returned true, with what it computed; [Err] one
    that returned false, with the code it wrote, or [None] when it left the
    error untouched; [Abort] a failed assertion. *)
Inductive script_res (A : Type) : Type :=
  | Ret (a : A)
  | Err (e : option ScriptError)
  | Abort.
Arguments Ret {A}.
Arguments Err {A}.
Arguments Abort {A}.

#[global] Instance script_res_ret : MRet script_res := fun A a => Ret a.
#[global] Instance script_res_bind : MBind script_res := fun A B f m =>
  match m with Ret a => f a | Err e => Err e | Abort => Abort end.

Definition set_error {A} (e : ScriptError) : script_res A := Err (Some e).

(** [if (c) return set_error(serror, e);] *)
Definition error_if (c : bool) (e : ScriptError) : script_res unit := if c then set_error e else Ret tt.
(** [assert(c);] *)
Definition script_assert (c : bool) : script_res unit := if c then Ret tt else Abort.

Definition aborts {A} (m : script_res A) : bool := match m with Abort => true | _ => false end.

Lemma script_bind_ret {A B} (m : script_res A) (f : A -> script_res B) b :
  (m ≫= f) = Ret b <-> exists a, m = Ret a /\ f a = Ret b.
Proof. destruct m; cbn; split; [by eexists| |done| |done|]; intros (a' & ? & ?); by simplify_eq. Qed.

Lemma script_bind_aborts {A B} (m : script_res A) (f : A -> script_res B) :
  aborts m = false -> (forall a, m = Ret a -> aborts (f a) = false) -> aborts (m ≫= f) = false.
Proof. destruct m; cbn; auto. Qed.

Lemma error_if_ret c e u : error_if c e = Ret u <-> c = false.
Proof. destruct c, u; done. Qed.

Lemma error_if_false c e : c = false -> error_if c e = Ret tt.
Proof. by intros ->. Qed.

Lemma error_if_aborts c e : aborts (error_if c e) = false.
Proof. by destruct c. Qed.

Lemma script_assert_ret c u : script_assert c = Ret u <-> c = true.
Proof. destruct c, u; done. Qed.

(** ** Verification flags *)

Definition SCRIPT_VERIFY_NONE : Z := 0.
Definition SCRIPT_VERIFY_P2SH : Z := Z.shiftl 1 0.
Definition SCRIPT_VERIFY_STRICTENC : Z := Z.shiftl 1 1.
Definition SCRIPT_VERIFY_DERSIG : Z := Z.shiftl 1 2.
Definition SCRIPT_VERIFY_LOW_S : Z := Z.shiftl 1 3.
Definition SCRIPT_VERIFY_NULLDUMMY : Z := Z.shiftl 1 4.
Definition SCRIPT_VERIFY_SIGPUSHONLY : Z := Z.shiftl 1 5.
Definition SCRIPT_VERIFY_MINIMALDATA : Z := Z.shiftl 1 6.
Definition SCRIPT_VERIFY_DISCOURAGE_UPGRADABLE_NOPS : Z := Z.shiftl 1 7.
Definition SCRIPT_VERIFY_CLEANSTACK : Z := Z.shiftl 1 8.
Definition SCRIPT_VERIFY_CHECKLOCKTIMEVERIFY : Z := Z.shiftl 1 9.
Definition SCRIPT_VERIFY_DERKEY : Z := Z.shiftl 1 31.
Definition SCRIPT_VERIFY_CHECKSEQUENCEVERIFY : Z := Z.shiftl 1 10.
Definition SCRIPT_VERIFY_WITNESS : Z := Z.shiftl 1 11.
Definition SCRIPT_VERIFY_DISCOURAGE_UPGRADABLE_WITNESS_PROGRAM : Z := Z.shiftl 1 12.
Definition SCRIPT_VERIFY_MINIMALIF : Z := Z.shiftl 1 13.
Definition SCRIPT_VERIFY_NULLFAIL : Z := Z.shiftl 1 14.
Definition SCRIPT_VERIFY_WITNESS_PUBKEYTYPE : Z := Z.shiftl 1 15.
Definition SCRIPT_VERIFY_CONST_SCRIPTCODE : Z := Z.shiftl 1 16.
Definition SCRIPT_VERIFY_TAPROOT : Z := Z.shiftl 1 17.
Definition SCRIPT_VERIFY_DISCOURAGE_UPGRADABLE_TAPROOT_VERSION : Z := Z.shiftl 1 18.
Definition SCRIPT_VERIFY_DISCOURAGE_OP_SUCCESS : Z := Z.shiftl 1 19.
Definition SCRIPT_VERIFY_DISCOURAGE_UPGRADABLE_PUBKEYTYPE : Z := Z.shiftl 1 20.

(** [(flags & mask) != 0] *)
Definition flag (flags mask : Z) : bool := negb (Z.land flags mask =? 0).

(** [policy/policy.h]: the rules every transaction must follow, and those the
    node also applies before it relays one. *)
Definition lor_all (l : list Z) : Z := foldr Z.lor 0 l.

Definition MANDATORY_SCRIPT_VERIFY_FLAGS : Z := lor_all
  [SCRIPT_VERIFY_P2SH; SCRIPT_VERIFY_DERKEY; SCRIPT_VERIFY_DERSIG; SCRIPT_VERIFY_LOW_S; SCRIPT_VERIFY_NULLDUMMY;
   SCRIPT_VERIFY_CHECKLOCKTIMEVERIFY; SCRIPT_VERIFY_CHECKSEQUENCEVERIFY; SCRIPT_VERIFY_WITNESS; SCRIPT_VERIFY_TAPROOT].

Definition STANDARD_SCRIPT_VERIFY_FLAGS : Z := lor_all
  [MANDATORY_SCRIPT_VERIFY_FLAGS; SCRIPT_VERIFY_STRICTENC; SCRIPT_VERIFY_MINIMALDATA;
   SCRIPT_VERIFY_DISCOURAGE_UPGRADABLE_NOPS; SCRIPT_VERIFY_CLEANSTACK; SCRIPT_VERIFY_MINIMALIF; SCRIPT_VERIFY_NULLFAIL;
   SCRIPT_VERIFY_CHECKSEQUENCEVERIFY; SCRIPT_VERIFY_WITNESS; SCRIPT_VERIFY_DISCOURAGE_UPGRADABLE_WITNESS_PROGRAM;
   SCRIPT_VERIFY_WITNESS_PUBKEYTYPE; SCRIPT_VERIFY_CONST_SCRIPTCODE; SCRIPT_VERIFY_TAPROOT;
   SCRIPT_VERIFY_DISCOURAGE_UPGRADABLE_TAPROOT_VERSION; SCRIPT_VERIFY_DISCOURAGE_OP_SUCCESS;
   SCRIPT_VERIFY_DISCOURAGE_UPGRADABLE_PUBKEYTYPE].

Lemma flag_lor_l flags f mask : Z.land f mask = 0 -> flag (Z.lor flags f) mask = flag flags mask.
Proof. intros Hf. unfold flag. by rewrite Z.land_lor_distr_l, Hf, Z.lor_0_r. Qed.
