(* ===== verification/NodeScript.v ===== *)
(** * The node's scripts and signature checks

    [firstislamiccoin-core/src/script/script.cpp] ([GetScriptOp],
    [IsPushOnly], [IsPayToScriptHash]), [script/script.h] (pushing data),
    [script/interpreter.cpp] (signature encodings, [SignatureHash],
    [CheckECDSASignature]) and [pubkey.cpp] (the lax DER parser, [Verify],
    [CheckLowS]).  The curve operations of libsecp256k1 are parameters. *)

From S2P Require Import Prelude Digits JsString Bytes Crypto JsInt Tx NodeTx ScriptError.

Open Scope Z_scope.
Open Scope list_scope.

Definition OP_PUSHDATA1 : Z := 0x4c.
Definition OP_PUSHDATA2 : Z := 0x4d.
Definition OP_PUSHDATA4 : Z := 0x4e.
Definition OP_16 : Z := 0x60.
Definition OP_EQUAL : Z := 0x87.
Definition OP_HASH160 : Z := 0xa9.
Definition OP_CODESEPARATOR : Z := 0xab.
Definition OP_INVALIDOPCODE : Z := 0xff.

(** ** Walking a script

    The iterator is the rest of the script.  The result is the returned
    boolean, the opcode, the pushed data and the iterator, which the C++ code
    moves on failure too. *)

Definition push_size (opcode : Z) (pc : list Z) : option (Z * list Z) :=
  if opcode <? OP_PUSHDATA1 then Some (opcode, pc)
  else if opcode =? OP_PUSHDATA1 then
    match pc with [] => None | n :: pc => Some (n, pc) end
  else if opcode =? OP_PUSHDATA2 then
    if (length pc <? 2)%nat then None else Some (un_le (take 2 pc), drop 2 pc)
  else
    if (length pc <? 4)%nat then None else Some (un_le (take 4 pc), drop 4 pc).

Definition GetScriptOp (pc : list Z) : bool * Z * list Z * list Z :=
  match pc with
  | [] => (false, OP_INVALIDOPCODE, [], pc)
  | opcode :: pc =>
      if opcode <=? OP_PUSHDATA4 then
        match push_size opcode pc with
        | None => (false, OP_INVALIDOPCODE, [], pc)
        | Some (nSize, pc) =>
            if Z.of_nat (length pc) <? nSize then (false, OP_INVALIDOPCODE, [], pc)
            else (true, opcode, take (Z.to_nat nSize) pc, drop (Z.to_nat nSize) pc)
        end
      else (true, opcode, [], pc)
  end.

Fixpoint push_only_loop (fuel : nat) (pc : list Z) : bool :=
  match fuel with
  | O => true
  | S fuel =>
      match pc with
      | [] => true
      | _ =>
          let '(ok, opcode, _, pc) := GetScriptOp pc in
          if negb ok then false else if OP_16 <? opcode then false else push_only_loop fuel pc
      end
  end.
Definition IsPushOnly (script : list Z) : bool := push_only_loop (length script) script.

Definition IsPayToScriptHash (script : list Z) : bool :=
  (length script =? 23)%nat && (nth 0 script 0 =? OP_HASH160) && (nth 1 script 0 =? 0x14) &&
  (nth 22 script 0 =? OP_EQUAL).

(** [CScript::operator<<] of a byte vector. *)
Definition push_data (b : list Z) : list Z :=
  let n := Z.of_nat (length b) in
  (if n <? OP_PUSHDATA1 then le_bytes 1 n
   else if n <=? 0xff then OP_PUSHDATA1 :: le_bytes 1 n
   else if n <=? 0xffff then OP_PUSHDATA2 :: le_bytes 2 n
   else OP_PUSHDATA4 :: le_bytes 4 n) ++ b.

Lemma push_data_short b : (length b < 76)%nat -> push_data b = Z.of_nat (length b) :: b.
Proof.
  intros Hb. unfold push_data, OP_PUSHDATA1. rewrite (proj2 (Z.ltb_lt _ _)) by lia. cbn [le_bytes app].
  by rewrite Z.mod_small by lia.
Qed.

(** ** Signature encodings *)

Definition byte_at (l : list Z) (i : Z) : Z := nth (Z.to_nat i) l 0.

Definition IsValidSignatureEncoding (sig : list Z) (haveHashType : bool) : bool :=
  let size := Z.of_nat (length sig) in
  if size <? 9 then false else
  if 73 <? size then false else
  if negb (byte_at sig 0 =? 0x30) then false else
  if negb (byte_at sig 1 =? size - (if haveHashType then 3 else 2)) then false else
  let lenR := byte_at sig 3 in
  if size <=? 5 + lenR then false else
  let lenS := byte_at sig (5 + lenR) in
  if negb (lenR + lenS + (if haveHashType then 7 else 6) =? size) then false else
  if negb (byte_at sig 2 =? 0x02) then false else
  if lenR =? 0 then false else
  if negb (Z.land (byte_at sig 4) 0x80 =? 0) then false else
  if (1 <? lenR) && (byte_at sig 4 =? 0x00) && (Z.land (byte_at sig 5) 0x80 =? 0) then false else
  if negb (byte_at sig (lenR + 4) =? 0x02) then false else
  if lenS =? 0 then false else
  if negb (Z.land (byte_at sig (lenR + 6)) 0x80 =? 0) then false else
  if (1 <? lenS) && (byte_at sig (lenR + 6) =? 0x00) && (Z.land (byte_at sig (lenR + 7)) 0x80 =? 0) then false else
  true.

(** [ecdsa_signature_parse_der_lax].  An integer length: *)
Definition der_lax_len (s : list Z) : option (Z * list Z) :=
  match s with
  | [] => None
  | lenbyte :: s =>
      if negb (Z.land lenbyte 0x80 =? 0) then
        let lenbyte := lenbyte - 0x80 in
        if Z.of_nat (length s) <? lenbyte then None else
        let zeros := count_leading (fun b => b =? 0) (take (Z.to_nat lenbyte) s) in
        let s := drop zeros s in
        let lenbyte := lenbyte - Z.of_nat zeros in
        if 4 <=? lenbyte then None
        else Some (undigits 256 (take (Z.to_nat lenbyte) s), drop (Z.to_nat lenbyte) s)
      else Some (lenbyte, s)
  end.

(** An integer: its tag, its length, its bytes and what follows. *)
Definition der_lax_int (s : list Z) : option (list Z * list Z) :=
  match s with
  | tag :: s =>
      if negb (tag =? 0x02) then None else
      '(len, s) ← der_lax_len s;
      if Z.of_nat (length s) <? len then None
      else Some (take (Z.to_nat len) s, drop (Z.to_nat len) s)
  | [] => None
  end.

(** The value of an integer without its leading zeroes, if it fits 32 bytes. *)
Definition der_lax_value (b : list Z) : option Z :=
  let b := drop (count_leading (fun b => b =? 0) b) b in
  if (32 <? length b)%nat then None else Some (undigits 256 b).

(** [secp256k1_ecdsa_signature_parse_compact] refuses a scalar not below the order. *)
Definition parse_compact (rs : Z * Z) : option (Z * Z) :=
  if (rs.1 <? secp_n) && (rs.2 <? secp_n) then Some rs else None.

Definition ecdsa_signature_parse_der_lax (input : list Z) : option (Z * Z) :=
  match input with
  | 0x30 :: lenbyte :: s =>
      s ← (if negb (Z.land lenbyte 0x80 =? 0) then
             let lenbyte := lenbyte - 0x80 in
             if Z.of_nat (length s) <? lenbyte then None else Some (drop (Z.to_nat lenbyte) s)
           else Some s);
      '(r, s) ← der_lax_int s;
      '(sv, _) ← der_lax_int s;
      let sig := r ← der_lax_value r; sv ← der_lax_value sv; parse_compact (r, sv) in
      Some (default (0, 0) sig)
  | _ => None
  end.

(** [secp256k1_ecdsa_signature_normalize]: whether [s] was in the upper half,
    and the signature with [s] in the lower half. *)
Definition normalize (rs : Z * Z) : bool * (Z * Z) :=
  if secp_n / 2 <? rs.2 then (true, (rs.1, secp_n - rs.2)) else (false, rs).

Definition CheckLowS (vchSig : list Z) : bool :=
  match ecdsa_signature_parse_der_lax vchSig with
  | None => false
  | Some rs => negb (normalize rs).1
  end.

Definition IsLowDERSignature (vchSig : list Z) (haveHashType : bool) : script_res unit :=
  _ ← error_if (negb (IsValidSignatureEncoding vchSig haveHashType)) SCRIPT_ERR_SIG_DER;
  let vchSigCopy := take (length vchSig - (if haveHashType then 1 else 0)) vchSig in
  error_if (negb (CheckLowS vchSigCopy)) SCRIPT_ERR_SIG_HIGH_S.

Definition SIGHASH_ALL : Z := 1.
Definition SIGHASH_NONE : Z := 2.
Definition SIGHASH_SINGLE : Z := 3.
Definition SIGHASH_ANYONECANPAY : Z := 0x80.

Definition IsDefinedHashtypeSignature (vchSig : list Z) : bool :=
  if (length vchSig =? 0)%nat then false else
  let nHashType := Z.land (List.last vchSig 0) (255 - SIGHASH_ANYONECANPAY) in
  negb ((nHashType <? SIGHASH_ALL) || (SIGHASH_SINGLE <? nHashType)).

Definition CheckSignatureEncoding (vchSig : list Z) (flags : Z) : script_res unit :=
  if (length vchSig =? 0)%nat then Ret tt else
  if flag flags (lor_all [SCRIPT_VERIFY_DERSIG; SCRIPT_VERIFY_LOW_S; SCRIPT_VERIFY_STRICTENC]) &&
     negb (IsValidSignatureEncoding vchSig true) then set_error SCRIPT_ERR_SIG_DER
  else
    _ ← (if flag flags SCRIPT_VERIFY_LOW_S then IsLowDERSignature vchSig true else Ret tt);
    error_if (flag flags SCRIPT_VERIFY_STRICTENC && negb (IsDefinedHashtypeSignature vchSig)) SCRIPT_ERR_SIG_HASHTYPE.

(** ** Signature hashes *)

Inductive SigVersion : Type := BASE | WITNESS_V0 | TAPROOT | TAPSCRIPT.

(** [PrecomputedTransactionData].  A group of fields with its readiness flag is
    an option: the three double hashes of BIP143, the five single hashes of
    BIP341 and the outputs being spent. *)
Record bip143_data : Type := { hashPrevouts : list Z; hashSequence : list Z; hashOutputs : list Z }.
Record bip341_data : Type := {
  m_prevouts_single_hash : list Z;
  m_sequences_single_hash : list Z;
  m_outputs_single_hash : list Z;
  m_spent_amounts_single_hash : list Z;
  m_spent_scripts_single_hash : list Z
}.
Record PrecomputedTransactionData : Type := {
  c_bip143 : option bip143_data;
  c_bip341 : option bip341_data;
  c_spent_outputs : option (list CTxOut)
}.

Fixpoint count_separators (fuel : nat) (it : list Z) : nat :=
  match fuel with
  | O => O
  | S fuel =>
      let '(ok, opcode, _, it) := GetScriptOp it in
      if negb ok then O
      else ((if (opcode =? OP_CODESEPARATOR)%Z then 1 else 0) + count_separators fuel it)%nat
  end.

(** The writing loop: what was written, the start of the pending part, the iterator. *)
Fixpoint code_loop (fuel : nat) (itBegin it out : list Z) : list Z * list Z * list Z :=
  match fuel with
  | O => (out, itBegin, it)
  | S fuel =>
      let '(ok, opcode, _, it) := GetScriptOp it in
      if negb ok then (out, itBegin, it)
      else if opcode =? OP_CODESEPARATOR then
        code_loop fuel it it (out ++ take (length itBegin - length it - 1) itBegin)
      else code_loop fuel itBegin it out
  end.

(** Every successful [GetScriptOp] consumes a byte: one more step than bytes is
    enough fuel for both loops. *)
Definition SerializeScriptCode (scriptCode : list Z) : list Z :=
  let fuel := S (length scriptCode) in
  let nCodeSeparators := count_separators fuel scriptCode in
  let '(out, itBegin, it) := code_loop fuel scriptCode scriptCode [] in
  WriteCompactSize (Z.of_nat (length scriptCode) - Z.of_nat nCodeSeparators) ++
  out ++ (if (length itBegin =? 0)%nat then [] else take (length itBegin - length it) itBegin).

Section SignatureHash.
Context (txTo : CTransaction) (scriptCode : list Z) (nIn : nat) (nHashType : Z).

Definition fAnyoneCanPay : bool := negb (Z.land nHashType SIGHASH_ANYONECANPAY =? 0).
Definition fHashSingle : bool := Z.land nHashType 0x1f =? SIGHASH_SINGLE.
Definition fHashNone : bool := Z.land nHashType 0x1f =? SIGHASH_NONE.

(** Indices are below the vectors' sizes by the assertion and the loop bounds;
    an index out of range has no bytes. *)
Definition SerializeInput (nInput : nat) : list Z :=
  let nInput := if fAnyoneCanPay then nIn else nInput in
  match vin txTo !! nInput with
  | None => []
  | Some i =>
      write_outpoint (prevout i) ++
      (if negb (nInput =? nIn)%nat then write_blob [] else SerializeScriptCode scriptCode) ++
      (if negb (nInput =? nIn)%nat && (fHashSingle || fHashNone) then le_bytes 4 0 else le_bytes 4 (nSequence i))
  end.

Definition SerializeOutput (nOutput : nat) : list Z :=
  if fHashSingle && negb (nOutput =? nIn)%nat then write_txout {| nValue := -1; out_scriptPubKey := [] |}
  else match vout txTo !! nOutput with None => [] | Some o => write_txout o end.

Definition SerializeForSignature : list Z :=
  let nInputs := if fAnyoneCanPay then 1%nat else length (vin txTo) in
  let nOutputs := if fHashNone then 0%nat else if fHashSingle then S nIn else length (vout txTo) in
  le_bytes 4 (nVersion txTo) ++
  (if nVersion txTo <? 2 then le_bytes 4 (nTime txTo) else []) ++
  WriteCompactSize (Z.of_nat nInputs) ++ mjoin (SerializeInput <$> seq 0 nInputs) ++
  WriteCompactSize (Z.of_nat nOutputs) ++ mjoin (SerializeOutput <$> seq 0 nOutputs) ++
  le_bytes 4 (nLockTime txTo).

Context `{Crypto}.

Definition zero256 : list Z := replicate 32 0.
Definition one256 : list Z := 1 :: replicate 31 0.

Definition GetPrevoutsSHA256 : list Z := sha256 (mjoin ((fun i => write_outpoint (prevout i)) <$> vin txTo)).
Definition GetSequencesSHA256 : list Z := sha256 (mjoin ((fun i => le_bytes 4 (nSequence i)) <$> vin txTo)).
Definition GetOutputsSHA256 : list Z := sha256 (mjoin (write_txout <$> vout txTo)).

(** The version-0 witness hash (BIP143). *)
Definition WitnessV0Hash (amount : Z) (cache : option PrecomputedTransactionData) : list Z :=
  let ready := c ← cache; c_bip143 c in
  let hashPrevouts :=
    if negb fAnyoneCanPay then from_option hashPrevouts (sha256 GetPrevoutsSHA256) ready else zero256 in
  let hashSequence :=
    if negb fAnyoneCanPay && negb fHashSingle && negb fHashNone then
      from_option hashSequence (sha256 GetSequencesSHA256) ready
    else zero256 in
  let hashOutputs :=
    if negb fHashSingle && negb fHashNone then from_option hashOutputs (sha256 GetOutputsSHA256) ready
    else if fHashSingle then
      match vout txTo !! nIn with Some o => doubleSha256 (write_txout o) | None => zero256 end
    else zero256 in
  match vin txTo !! nIn with
  | None => []
  | Some i =>
      doubleSha256 (
        le_bytes 4 (nVersion txTo) ++
        (if nVersion txTo <? 2 then le_bytes 4 (nTime txTo) else []) ++
        hashPrevouts ++ hashSequence ++
        write_outpoint (prevout i) ++ write_blob scriptCode ++ le_bytes 8 amount ++ le_bytes 4 (nSequence i) ++
        hashOutputs ++ le_bytes 4 (nLockTime txTo) ++ le_bytes 4 nHashType)
  end.

Definition SignatureHash (amount : Z) (sigversion : SigVersion) (cache : option PrecomputedTransactionData) : list Z :=
  match sigversion with
  | WITNESS_V0 => WitnessV0Hash amount cache
  | _ =>
      if fHashSingle && (length (vout txTo) <=? nIn)%nat then one256
      else doubleSha256 (SerializeForSignature ++ le_bytes 4 nHashType)
  end.

End SignatureHash.

(** ** Checking a signature *)

(** [CPubKey::GetLen] and [CPubKey::Set]: the stored key, [None] when invalid. *)
Definition GetLen (chHeader : Z) : Z :=
  if (chHeader =? 2) || (chHeader =? 3) then 33
  else if (chHeader =? 4) || (chHeader =? 6) || (chHeader =? 7) then 65 else 0.
Definition CPubKey_Set (vch : list Z) : option (list Z) :=
  match vch with
  | [] => None
  | h :: _ => let len := GetLen h in
      if negb (len =? 0) && (len =? Z.of_nat (length vch)) then Some vch else None
  end.

(** libsecp256k1: whether a serialised key is a point, and verification of
    [(r, s)] with [s] in the lower half; whether 32 bytes are an x coordinate,
    the BIP340 check of a signature (public key, message, signature), and the
    check that an output key with a parity is an internal key plus a tweak. *)
Class Curve : Type := {
  ec_pubkey_parse : list Z -> bool;
  ecdsa_verify : list Z -> list Z -> Z * Z -> bool;
  xonly_pubkey_parse : list Z -> bool;
  schnorrsig_verify : list Z -> list Z -> list Z -> bool;
  xonly_pubkey_tweak_add_check : list Z -> bool -> list Z -> list Z -> bool
}.

Section Checker.
Context `{Crypto} `{Curve}.

Definition Verify (pubkey : list Z) (hash vchSig : list Z) : bool :=
  if negb (ec_pubkey_parse pubkey) then false else
  match ecdsa_signature_parse_der_lax vchSig with
  | None => false
  | Some rs => ecdsa_verify pubkey hash (normalize rs).2
  end.

(** What a checker does when it lacks data: stop, or treat the signature as
    invalid. *)
Inductive MissingDataBehavior : Type := ASSERT_FAIL | FAIL.

Definition HandleMissingData (mdb : MissingDataBehavior) : script_res bool :=
  match mdb with ASSERT_FAIL => Abort | FAIL => Ret false end.

(** The fields of [GenericTransactionSignatureChecker]. *)
Record tx_checker : Type := {
  txTo : CTransaction;
  m_mdb : MissingDataBehavior;
  nIn : nat;
  amount : Z;
  txdata : option PrecomputedTransactionData
}.

(** [GenericTransactionSignatureChecker::CheckECDSASignature]; the assertion is
    the one at the start of [SignatureHash]. *)
Definition CheckECDSASignature (c : tx_checker)
    (vchSigIn vchPubKey scriptCode : list Z) (sigversion : SigVersion) : script_res bool :=
  match CPubKey_Set vchPubKey with
  | None => Ret false
  | Some pubkey =>
      match vchSigIn with
      | [] => Ret false
      | _ =>
          let nHashType := List.last vchSigIn 0 in
          let vchSig := removelast vchSigIn in
          if (match sigversion with WITNESS_V0 => amount c <? 0 | _ => false end) then HandleMissingData (m_mdb c) else
          _ ← script_assert (nIn c <? length (vin (txTo c)))%nat;
          let sighash := SignatureHash (txTo c) scriptCode (nIn c) nHashType (amount c) sigversion (txdata c) in
          Ret (Verify pubkey sighash vchSig)
      end
  end.

End Checker.

(** ** The wallet's DER encodings are canonical *)

Definition canonical_int (R : list Z) : Prop :=
  exists b l, R = b :: l /\ 0 <= b < 128 /\ (b = 0 -> exists c l', l = c :: l' /\ 128 <= c < 256).

Lemma der_int_canonical n :
  0 < n -> canonical_int (der_int n).
Proof.
  intros Hn. unfold canonical_int, der_int. pose proof (digits_bound 256 n ltac:(lia)) as Hd.
  pose proof (digits_head 256 n ltac:(lia)) as Hh.
  destruct (digits 256 n) as [|d ds] eqn:E; [exfalso; apply (digits_nonempty 256 n); [lia|lia|done]|].
  apply Forall_cons_1 in Hd as [Hd0 _]. simpl in Hh. cbn [nth].
  destruct (Z.ltb_spec d 128).
  - exists d, ds. split; [done|]. split; [lia|]. intros ->. done.
  - exists 0, (d :: ds). split; [done|]. split; [lia|]. intros _. exists d, ds. split; [done|lia].
Qed.

Lemma byte_at_app_l l1 l2 i : 0 <= i < Z.of_nat (length l1) -> byte_at (l1 ++ l2) i = byte_at l1 i.
Proof. intros Hi. unfold byte_at. apply app_nth1. lia. Qed.

Lemma byte_at_app_r l1 l2 i :
  Z.of_nat (length l1) <= i -> byte_at (l1 ++ l2) i = byte_at l2 (i - Z.of_nat (length l1)).
Proof. intros Hi. unfold byte_at. rewrite app_nth2 by lia. f_equal. lia. Qed.

Lemma not_padded b l rest :
  (b = 0 -> exists c l', l = c :: l' /\ 128 <= c < 256) ->
  (1 <? Z.of_nat (S (length l))) && (b =? 0) && (Z.land (byte_at (b :: l ++ rest) 1) 128 =? 0) = false.
Proof.
  intros Hbz. destruct (Z.eqb_spec b 0) as [Hz|]; [|by rewrite andb_false_r].
  destruct (Hbz Hz) as (c & l2 & -> & Hc). change (byte_at (b :: (c :: l2) ++ rest) 1) with c.
  rewrite land_128 by lia. lia.
Qed.

(** A signature made of two canonical integers and a hash type passes. *)
Lemma valid_encoding_ok (R S : list Z) (t : Z) :
  let body := 2 :: Z.of_nat (length R) :: R ++ 2 :: Z.of_nat (length S) :: S in
  (length R <= 33)%nat -> (length S <= 33)%nat ->
  canonical_int R -> canonical_int S ->
  IsValidSignatureEncoding (0x30 :: Z.of_nat (length body) :: body ++ [t]) true = true.
Proof.
  intros body HlR HlS HR HS. unfold IsValidSignatureEncoding.
  set (sig := 0x30 :: Z.of_nat (length body) :: body ++ [t]).
  assert (sig = ([0x30; Z.of_nat (length body); 2; Z.of_nat (length R)] ++ R) ++ [2; Z.of_nat (length S)] ++ S ++ [t]) as E.
  { unfold sig, body. cbn [app]. by rewrite <-!app_assoc. }
  set (pre := [0x30; Z.of_nat (length body); 2; Z.of_nat (length R)] ++ R) in *.
  assert (Z.of_nat (length pre) = Z.of_nat (length R) + 4) as Hpre by (unfold pre; rewrite length_app; simpl; lia).
  assert (length body = (length R + length S + 4)%nat) as Hbody
    by (unfold body; cbn [length]; rewrite length_app; cbn [length]; lia).
  assert (Z.of_nat (length sig) = Z.of_nat (length R) + Z.of_nat (length S) + 7) as Hsize
    by (unfold sig; cbn [length]; rewrite length_app, Hbody; simpl; lia).
  rewrite Hsize.
  assert (byte_at sig 0 = 0x30 /\ byte_at sig 1 = Z.of_nat (length body) /\ byte_at sig 2 = 2 /\
          byte_at sig 3 = Z.of_nat (length R)) as (-> & -> & -> & ->) by done.
  assert (forall i, 0 <= i -> byte_at sig (Z.of_nat (length R) + 4 + i) = byte_at ([2; Z.of_nat (length S)] ++ S ++ [t]) i) as Htail.
  { intros i Hi. rewrite E, byte_at_app_r by lia. f_equal. lia. }
  replace (5 + Z.of_nat (length R)) with (Z.of_nat (length R) + 4 + 1) by lia.
  replace (Z.of_nat (length R) + 6) with (Z.of_nat (length R) + 4 + 2) by lia.
  replace (Z.of_nat (length R) + 7) with (Z.of_nat (length R) + 4 + 3) by lia.
  replace (byte_at sig (Z.of_nat (length R) + 4)) with (byte_at sig (Z.of_nat (length R) + 4 + 0)) by (f_equal; lia).
  rewrite !Htail by lia. change (byte_at ([2; Z.of_nat (length S)] ++ S ++ [t]) 1) with (Z.of_nat (length S)).
  change (byte_at ([2; Z.of_nat (length S)] ++ S ++ [t]) 0) with 2.
  destruct HR as (b & l & -> & Hb & Hbz). destruct HS as (b' & l' & -> & Hb' & Hbz').
  assert (byte_at sig 4 = b) as -> by done. cbn [length] in *.
  change (byte_at ([2; Z.of_nat (S (length l'))] ++ (b' :: l') ++ [t]) 2) with b'.
  rewrite (land_128 b), (land_128 b') by lia.
  change (byte_at sig 5) with (byte_at (b :: (l ++ 2 :: Z.of_nat (S (length l')) :: b' :: l') ++ [t]) 1).
  rewrite <-(app_assoc l).
  change (byte_at ([2; Z.of_nat (S (length l'))] ++ (b' :: l') ++ [t]) 3) with (byte_at (b' :: l' ++ [t]) 1).
  rewrite !not_padded by done.
  rewrite Hbody. cbn [length]. repeat (match goal with |- (if ?c then _ else _) = true => destruct c eqn:?; [b2p; lia|] end).
  done.
Qed.

Lemma der_lax_int_ok (R rest : list Z) :
  (length R < 128)%nat -> der_lax_int (2 :: Z.of_nat (length R) :: R ++ rest) = Some (R, rest).
Proof.
  intros Hl. unfold der_lax_int, der_lax_len. cbn [Z.eqb Pos.eqb negb].
  rewrite land_128 by lia. rewrite (proj2 (Z.ltb_lt _ _)) by lia. cbn [negb mbind option_bind].
  rewrite (proj2 (Z.ltb_ge _ _)) by (rewrite length_app; lia).
  by rewrite Nat2Z.id, take_app_length, drop_app_length.
Qed.

Lemma der_lax_value_ok n : 0 < n < 2 ^ 256 -> der_lax_value (der_int n) = Some n.
Proof.
  intros Hn. unfold der_lax_value.
  assert (drop (count_leading (fun b => b =? 0) (der_int n)) (der_int n) = digits 256 n) as ->.
  { unfold der_int. pose proof (digits_head 256 n ltac:(lia)) as Hh.
    destruct (digits 256 n) as [|d ds]; [done|]. simpl in Hh. cbn [nth].
    destruct (d <? 128); simpl; rewrite (proj2 (Z.eqb_neq d 0) Hh); done. }
  pose proof (digits_length_le 256 n 32 ltac:(lia) ltac:(change (256 ^ Z.of_nat 32) with (2 ^ 256); lia)) as Hl.
  rewrite (proj2 (Nat.ltb_ge _ _)) by done. by rewrite undigits_digits by lia.
Qed.

Lemma der_lax_ok sg : sig_in_range sg -> ecdsa_signature_parse_der_lax (derEncodeSignature sg) = Some (sig_r sg, sig_s sg).
Proof.
  intros Hsg. rewrite der_spec by done. pose proof (der_length sg Hsg) as Hlen.
  rewrite der_spec in Hlen by done. cbn [length] in Hlen.
  pose proof (der_scalar_lengths sg Hsg) as [Hlr Hls]. destruct Hsg as [Hr Hs], secp_n_bounds as [Hn _].
  assert (secp_n / 2 < secp_n) by (apply Z.ltb_lt; by vm_compute).
  change (256 ^ Z.of_nat 32) with (2 ^ 256) in Hn.
  unfold ecdsa_signature_parse_der_lax. rewrite land_128 by lia. rewrite (proj2 (Z.ltb_lt _ _)) by lia.
  cbn [negb mbind option_bind]. unfold der_body. rewrite der_lax_int_ok by lia. cbn [mbind option_bind].
  rewrite <-(app_nil_r (der_int (sig_s sg))) at 2. rewrite der_lax_int_ok by lia. cbn [mbind option_bind].
  rewrite !der_lax_value_ok by lia. cbn [mbind option_bind]. unfold parse_compact. cbn [fst snd].
  by rewrite !(proj2 (Z.ltb_lt _ _)) by lia.
Qed.

Lemma own_sig_valid sg : sig_in_range sg -> IsValidSignatureEncoding (derEncodeSignature sg ++ [1]) true = true.
Proof.
  intros Hsg. rewrite der_spec by done. pose proof (der_scalar_lengths sg Hsg) as [? ?]. destruct Hsg as [? ?].
  apply (valid_encoding_ok (der_int (sig_r sg)) (der_int (sig_s sg)) 1); [lia|lia|..]; apply der_int_canonical; lia.
Qed.

Lemma wallet_signature_encoding_aux sg flags :
  sig_in_range sg -> CheckSignatureEncoding (derEncodeSignature sg ++ [1]) flags = Ret tt.
Proof.
  intros Hsg. pose proof (own_sig_valid sg Hsg) as Hv.
  assert (IsLowDERSignature (derEncodeSignature sg ++ [1]) true = Ret tt) as Hlow.
  { unfold IsLowDERSignature. rewrite Hv, length_app, Nat.add_sub, take_app_length. unfold CheckLowS.
    rewrite der_lax_ok by done. unfold normalize. cbn [snd]. destruct Hsg as [_ ?].
    by rewrite (proj2 (Z.ltb_ge _ _)) by lia. }
  assert (IsDefinedHashtypeSignature (derEncodeSignature sg ++ [1]) = true) as Ht.
  { unfold IsDefinedHashtypeSignature. rewrite last_last.
    by destruct (derEncodeSignature sg ++ [1]) eqn:E; [apply app_eq_nil in E as [_ ?]|]. }
  unfold CheckSignatureEncoding. rewrite Hv, Hlow, Ht. cbn [negb]. rewrite !andb_false_r.
  by destruct (length _ =? 0)%nat, (flag flags SCRIPT_VERIFY_LOW_S).
Qed.

(** ** Scripts without code separators *)

Inductive plain_script : list Z -> Prop :=
  | plain_nil : plain_script []
  | plain_op s opcode data s' :
      GetScriptOp s = (true, opcode, data, s') -> opcode <> OP_CODESEPARATOR ->
      plain_script s' -> plain_script s.

Lemma GetScriptOp_shorter s opcode data s' :
  GetScriptOp s = (true, opcode, data, s') -> (length s' < length s)%nat.
Proof.
  unfold GetScriptOp, push_size. destruct s as [|op s]; [done|]. intros H.
  repeat (case_match; simplify_eq); simpl; rewrite ?length_drop; lia.
Qed.

Lemma plain_count s fuel : plain_script s -> (length s < fuel)%nat -> count_separators fuel s = 0%nat.
Proof.
  intros Hs. revert fuel. induction Hs as [|s op d s' Hop Hne _ IH]; intros [|fuel] Hf; simpl; try lia.
  rewrite Hop. cbn [negb]. rewrite (proj2 (Z.eqb_neq _ _) Hne). apply GetScriptOp_shorter in Hop.
  rewrite IH; lia.
Qed.

Lemma plain_code_loop s fuel b out :
  plain_script s -> (length s < fuel)%nat -> code_loop fuel b s out = (out, b, []).
Proof.
  intros Hs. revert fuel. induction Hs as [|s op d s' Hop Hne _ IH]; intros [|fuel] Hf; simpl; try lia; [done|].
  rewrite Hop. cbn [negb]. rewrite (proj2 (Z.eqb_neq _ _) Hne). apply GetScriptOp_shorter in Hop.
  apply IH. lia.
Qed.

Lemma SerializeScriptCode_plain s : plain_script s -> SerializeScriptCode s = write_blob s.
Proof.
  intros Hs. unfold SerializeScriptCode. rewrite plain_count, plain_code_loop by (done || lia).
  unfold write_blob. rewrite Z.sub_0_r. f_equal. destruct s as [|b s]; [done|].
  cbn [length Nat.eqb]. rewrite Nat.sub_0_r. simpl. by rewrite firstn_all.
Qed.

(** ** The two signature hashes agree *)

Lemma fmap_seq_lookup {A B} (f : nat -> B) (g : nat -> A -> B) (l : list A) :
  (forall k x, l !! k = Some x -> f k = g k x) -> f <$> seq 0 (length l) = imap g l.
Proof.
  intros H. apply list_eq. intros k. rewrite list_lookup_fmap, list_lookup_imap.
  destruct (l !! k) as [x|] eqn:E.
  - rewrite lookup_seq_lt by (by eapply lookup_lt_Some). simpl. by rewrite (H k x).
  - by rewrite lookup_seq_ge by (by apply lookup_ge_None_1).
Qed.

Lemma sighash_inputs ins outs lt i sub :
  plain_script sub ->
  SerializeInput (node_tx 2 ins outs lt) sub i SIGHASH_ALL <$> seq 0 (length ins) =
    input_bytes <$> blank_inputs ins i sub.
Proof.
  intros Hsub. unfold blank_inputs. rewrite fmap_imap. apply fmap_seq_lookup. intros k inp Hk.
  unfold SerializeInput. cbn [fAnyoneCanPay]. change (fAnyoneCanPay SIGHASH_ALL) with false. cbn [vin node_tx].
  rewrite list_lookup_fmap, Hk. change (fHashSingle SIGHASH_ALL || fHashNone SIGHASH_ALL) with false.
  cbn [fmap option_fmap option_map]. rewrite andb_false_r. unfold compose. rewrite input_bytes_node. unfold write_txin.
  destruct (k =? i)%nat; cbn [negb]; [|done]. by rewrite SerializeScriptCode_plain.
Qed.

Lemma sighash_outputs ins outs lt i :
  SerializeOutput (node_tx 2 ins outs lt) i SIGHASH_ALL <$> seq 0 (length outs) = output_bytes <$> outs.
Proof.
  rewrite <-(imap_const output_bytes outs). apply fmap_seq_lookup. intros k o Hk.
  unfold SerializeOutput. change (fHashSingle SIGHASH_ALL) with false. cbn [andb vout node_tx].
  rewrite list_lookup_fmap, Hk. cbn [fmap option_fmap option_map]. by rewrite output_bytes_node.
Qed.

Lemma sighash_agree_aux `{Crypto} ins outs lt i sub amount cache :
  plain_script sub ->
  SignatureHash (node_tx 2 ins outs lt) sub i SIGHASH_ALL amount BASE cache = legacySighash ins outs i sub lt.
Proof.
  intros Hsub. unfold SignatureHash, legacySighash. change (fHashSingle SIGHASH_ALL) with false. cbn [andb].
  f_equal. rewrite concatBytes_concat, serializeTx_flat. cbn [mjoin list_join]. rewrite app_nil_r. f_equal.
  unfold SerializeForSignature. change (fAnyoneCanPay SIGHASH_ALL) with false.
  change (fHashNone SIGHASH_ALL) with false. change (fHashSingle SIGHASH_ALL) with false.
  cbn [nVersion vin vout nLockTime node_tx Z.ltb Z.compare Pos.compare Pos.compare_cont app].
  rewrite !length_fmap. rewrite sighash_inputs by done. rewrite sighash_outputs.
  rewrite (varInt_compact (Z.of_nat (length outs))), (varInt_compact (Z.of_nat (length (blank_inputs _ _ _)))) by lia.
  unfold blank_inputs. by rewrite length_imap.
Qed.
