(* ===== verification/ScriptNum.v ===== *)
(** * Numbers on the script stack

    [firstislamiccoin-core/src/script/script.h]: [CScriptNum], the conversion
    between byte vectors and the integers the arithmetic opcodes work on, and
    [CastToBool] of [script/interpreter.cpp].  A value is an [int64_t]; the
    exception of a refused operand is the [SCRIPT_ERR_UNKNOWN_ERROR] that the
    handler of [EvalScript] turns every exception into. *)

From S2P Require Import Prelude Digits JsString Bytes JsInt Tx ScriptError.

Open Scope Z_scope.
Open Scope list_scope.

Definition byte_back (vch : list Z) : Z := List.last vch 0.

Definition set_vch (vch : list Z) : Z :=
  match vch with
  | [] => 0
  | _ =>
      let result := un_le vch in
      if negb (Z.land (byte_back vch) 0x80 =? 0) then
        - Z.land result (Z.lnot (Z.shiftl 0x80 (8 * (Z.of_nat (length vch) - 1))))
      else result
  end.

(** Not the shortest encoding: the top byte carries at most a sign that the
    byte below it has room for. *)
Definition padded (vch : list Z) : bool :=
  (Z.land (byte_back vch) 0x7f =? 0) &&
  ((length vch <=? 1)%nat || (Z.land (nth (length vch - 2) vch 0) 0x80 =? 0)).

Definition nDefaultMaxNumSize : nat := 4.

(** The constructor from a stack element. *)
Definition CScriptNum (vch : list Z) (fRequireMinimal : bool) (nMaxNumSize : nat) : script_res Z :=
  _ ← error_if (nMaxNumSize <? length vch)%nat SCRIPT_ERR_UNKNOWN_ERROR;
  _ ← error_if (fRequireMinimal && (0 <? length vch)%nat && padded vch) SCRIPT_ERR_UNKNOWN_ERROR;
  Ret (set_vch vch).

Definition INT_MAX : Z := 2 ^ 31 - 1.
Definition INT_MIN : Z := - 2 ^ 31.
Definition INT64_MAX : Z := 2 ^ 63 - 1.
Definition INT64_MIN : Z := - 2 ^ 63.

Definition getint (m_value : Z) : Z :=
  if INT_MAX <? m_value then INT_MAX else if m_value <? INT_MIN then INT_MIN else m_value.

(** [serialize]; the loop writes the absolute value from its lowest byte. *)
Definition serialize (value : Z) : list Z :=
  if value =? 0 then [] else
  let neg := value <? 0 in
  let absvalue := if neg then - value else value in
  let result := reverse (digits 256 absvalue) in
  if negb (Z.land (byte_back result) 0x80 =? 0) then result ++ [if neg then 0x80 else 0]
  else if neg then removelast result ++ [Z.lor (byte_back result) 0x80]
  else result.

(** The operators with an assertion against overflow of [int64_t]. *)
Definition num_neg (n : Z) : script_res Z := _ ← script_assert (negb (n =? INT64_MIN)); Ret (- n).
Definition num_add_assign (n rhs : Z) : script_res Z :=
  _ ← script_assert ((rhs =? 0) || ((0 <? rhs) && (n <=? INT64_MAX - rhs)) || ((rhs <? 0) && (INT64_MIN - rhs <=? n)));
  Ret (n + rhs).
Definition num_sub_assign (n rhs : Z) : script_res Z :=
  _ ← script_assert ((rhs =? 0) || ((0 <? rhs) && (INT64_MIN + rhs <=? n)) || ((rhs <? 0) && (n <=? INT64_MAX + rhs)));
  Ret (n - rhs).

(** [CastToBool]: some byte is not zero, except for a lone sign bit on top. *)
Fixpoint CastToBool (vch : list Z) : bool :=
  match vch with
  | [] => false
  | b :: rest =>
      if negb (b =? 0) then negb (match rest with [] => b =? 0x80 | _ => false end) else CastToBool rest
  end.

(** ** Signed magnitude *)

Lemma un_le_app l1 l2 : un_le (l1 ++ l2) = un_le l1 + 256 ^ Z.of_nat (length l1) * un_le l2.
Proof.
  induction l1 as [|b l1 IH]; [simpl; lia|]. cbn [app un_le foldr].
  change (foldr _ 0 (l1 ++ l2)) with (un_le (l1 ++ l2)). change (foldr _ 0 l1) with (un_le l1). rewrite IH.
  replace (256 ^ Z.of_nat (length (b :: l1))) with (256 * 256 ^ Z.of_nat (length l1)); [lia|].
  rewrite <-Z.pow_succ_r by lia. f_equal. simpl. lia.
Qed.

Lemma un_le_bound l : bytes_ok l -> 0 <= un_le l < 256 ^ Z.of_nat (length l).
Proof.
  induction 1 as [|b l Hb _ IH]; [simpl; lia|]. cbn [un_le foldr]. change (foldr _ 0 l) with (un_le l).
  replace (256 ^ Z.of_nat (length (b :: l))) with (256 * 256 ^ Z.of_nat (length l)); [lia|].
  rewrite <-Z.pow_succ_r by lia. f_equal. simpl. lia.
Qed.

Lemma un_le_reverse ds : un_le (reverse ds) = undigits 256 ds.
Proof.
  induction ds as [|d ds IH]; [done|]. rewrite reverse_cons, un_le_app, IH, undigits_cons, length_reverse. simpl. lia.
Qed.

(** The value of an encoding with top byte [h]: seven bits of magnitude and a sign. *)
Lemma set_vch_snoc l h :
  bytes_ok (l ++ [h]) ->
  set_vch (l ++ [h]) =
    if h <? 128 then un_le l + 256 ^ Z.of_nat (length l) * h
    else - (un_le l + 256 ^ Z.of_nat (length l) * (h - 128)).
Proof.
  intros [Hl Hh]%Forall_app. apply Forall_cons_1 in Hh as [Hh _]. pose proof (un_le_bound l Hl) as Hb.
  assert (un_le (l ++ [h]) = un_le l + 256 ^ Z.of_nat (length l) * h) as E by (rewrite un_le_app; simpl; lia).
  assert (forall (v : list Z) (X : Z), v <> [] -> match v with [] => 0 | _ :: _ => X end = X) as Hm by (by intros []).
  unfold set_vch, byte_back. rewrite Hm by (by destruct l). rewrite last_last, E, land_128 by lia. destruct (Z.ltb_spec h 128) as [|Hge]; cbn [negb]; [done|].
  replace (8 * (Z.of_nat (length (l ++ [h])) - 1)) with (8 * Z.of_nat (length l)) by (rewrite length_app; simpl; lia).
  rewrite Z.shiftl_mul_pow2 by lia. rewrite (Z.pow_mul_r 2 8) by lia. change (2 ^ 8) with 256.
  set (P := 256 ^ Z.of_nat (length l)) in *. f_equal.
  assert (0 < P) by (apply Z.pow_pos_nonneg; lia). rewrite <-Z.ldiff_land, <-Z.sub_nocarry_ldiff; [lia|].
  assert (128 * P = 2 ^ (8 * Z.of_nat (length l) + 7)) as ->.
  { rewrite Z.pow_add_r, (Z.pow_mul_r 2 8) by lia. change (2 ^ 8) with 256. fold P. lia. }
  set (k := 8 * Z.of_nat (length l) + 7) in *. apply Z.bits_inj'. intros i Hi. rewrite Z.ldiff_spec, Z.bits_0.
  rewrite Z.pow2_bits_eqb by lia. destruct (Z.eqb_spec k i) as [<-|]; [|done]. cbn [andb].
  apply negb_false_iff, Z.testbit_true; [lia|].
  assert (2 ^ k = 128 * P) as ->.
  { unfold k. rewrite Z.pow_add_r, (Z.pow_mul_r 2 8) by lia. change (2 ^ 8) with 256. fold P. lia. }
  rewrite <-(Z.div_unique_pos (un_le l + P * h) (128 * P) 1 (un_le l + P * h - 128 * P)); [done|nia|lia].
Qed.

(** The bytes the loop of [serialize] writes. *)
Lemma le_digits l d :
  bytes_ok (l ++ [d]) -> d <> 0 -> 0 < un_le (l ++ [d]) /\ reverse (digits 256 (un_le (l ++ [d]))) = l ++ [d].
Proof.
  intros Hok Hd. pose proof Hok as [Hl Hh]%Forall_app. apply Forall_cons_1 in Hh as [Hh _]. split.
  - rewrite un_le_app. pose proof (un_le_bound l Hl). pose proof (Z.pow_pos_nonneg 256 (Z.of_nat (length l))).
    cbn [un_le foldr]. nia.
  - rewrite <-(reverse_involutive (l ++ [d])) at 1. rewrite un_le_reverse, digits_undigits; [by rewrite reverse_involutive|lia| |].
    + by apply Forall_reverse.
    + by rewrite reverse_app.
Qed.

Lemma lor_128 d : 0 <= d < 128 -> Z.lor d 0x80 = d + 128.
Proof.
  intros Hd. symmetry. rewrite Z.add_nocarry_lxor, Z.lxor_lor; [done| |]; apply Z.eqb_eq; rewrite land_128 by lia; lia.
Qed.

Lemma land_127 b : 0 <= b < 256 -> Z.land b 0x7f = b mod 128.
Proof. intros Hb. change 0x7f with (Z.ones 7). by rewrite Z.land_ones. Qed.

(** The two shapes of [serialize]: the magnitude with the sign in its top byte,
    or one more byte for the sign when the top byte is full. *)
Lemma serialize_snoc l d (neg : bool) :
  bytes_ok (l ++ [d]) -> d <> 0 ->
  serialize ((if neg then -1 else 1) * un_le (l ++ [d])) =
    if d <? 128 then l ++ [if neg then d + 128 else d] else (l ++ [d]) ++ [if neg then 128 else 0].
Proof.
  intros Hok Hd. destruct (le_digits l d Hok Hd) as [Hpos Hdig]. apply Forall_app in Hok as [_ [Hh _]%Forall_cons_1].
  unfold serialize. rewrite (proj2 (Z.eqb_neq _ _)) by (destruct neg; lia).
  assert (((if neg then -1 else 1) * un_le (l ++ [d]) <? 0) = neg) as -> by (destruct neg; [apply Z.ltb_lt|apply Z.ltb_ge]; lia).
  assert ((if neg then - ((if neg then -1 else 1) * un_le (l ++ [d])) else (if neg then -1 else 1) * un_le (l ++ [d])) =
    un_le (l ++ [d])) as -> by (destruct neg; lia).
  cbv zeta. rewrite Hdig. unfold byte_back. rewrite last_last, land_128, removelast_last by lia.
  destruct (Z.ltb_spec d 128) as [Hlt|]; cbn [negb]; [|done]. destruct neg; [|done]. by rewrite lor_128 by lia.
Qed.

(** Every non-zero number is such a magnitude with a sign. *)
Lemma magnitude n :
  n <> 0 -> exists (neg : bool) l d, bytes_ok (l ++ [d]) /\ d <> 0 /\ n = (if neg then -1 else 1) * un_le (l ++ [d]).
Proof.
  intros Hn. pose proof (digits_bound 256 (Z.abs n) ltac:(lia)) as Hb. pose proof (digits_head 256 (Z.abs n) ltac:(lia)) as Hh.
  pose proof (undigits_digits 256 (Z.abs n) ltac:(lia) ltac:(lia)) as Hu.
  destruct (digits 256 (Z.abs n)) as [|d ds]; [unfold undigits in Hu; simpl in Hu; lia|].
  exists (n <? 0), (reverse ds), d. rewrite <-reverse_cons, un_le_reverse, Hu. split; [by apply Forall_reverse|].
  split; [done|]. destruct (Z.ltb_spec n 0); lia.
Qed.

(** Reading back what was written. *)
Lemma set_vch_serialize n : set_vch (serialize n) = n.
Proof.
  destruct (decide (n = 0)) as [->|Hn]; [done|]. destruct (magnitude n Hn) as (neg & l & d & Hok & Hd & ->).
  rewrite serialize_snoc by done. pose proof Hok as [Hl [Hh _]%Forall_cons_1]%Forall_app.
  rewrite un_le_app. cbn [un_le foldr]. fold (un_le l). destruct (Z.ltb_spec d 128).
  - rewrite set_vch_snoc by (apply bytes_ok_app_2; [done|]; apply bytes_ok_cons; [destruct neg; lia|apply bytes_ok_nil]).
    destruct neg; [rewrite (proj2 (Z.ltb_ge _ _)) by lia|rewrite (proj2 (Z.ltb_lt _ _)) by lia]; lia.
  - rewrite set_vch_snoc by (apply bytes_ok_app_2; [done|]; apply bytes_ok_cons; [destruct neg; lia|apply bytes_ok_nil]).
    rewrite un_le_app. cbn [un_le foldr]. fold (un_le l). destruct neg; [change (128 <? 128) with false|change (0 <? 128) with true]; cbv iota; ring.
Qed.

Lemma serialize_bytes n : bytes_ok (serialize n).
Proof.
  destruct (decide (n = 0)) as [->|Hn]; [apply bytes_ok_nil|]. destruct (magnitude n Hn) as (neg & l & d & Hok & Hd & ->).
  rewrite serialize_snoc by done. pose proof Hok as [Hl [Hh _]%Forall_cons_1]%Forall_app.
  destruct (Z.ltb_spec d 128); apply bytes_ok_app_2; try done; (apply bytes_ok_cons; [destruct neg; lia|apply bytes_ok_nil]).
Qed.

Lemma padded_snoc l h :
  bytes_ok (l ++ [h]) -> padded (l ++ [h]) = (h mod 128 =? 0) && match last l with Some c => c <? 128 | None => true end.
Proof.
  intros [Hl [Hh _]%Forall_cons_1]%Forall_app. unfold padded, byte_back. rewrite last_last, land_127 by lia. f_equal.
  rewrite length_app. cbn [length]. destruct l as [|c l _] using rev_ind; [done|].
  apply Forall_app in Hl as [_ [Hc _]%Forall_cons_1]. rewrite last_snoc, length_app. cbn [length].
  rewrite (proj2 (Nat.leb_gt _ _)) by lia. cbn [orb].
  replace (length l + 1 + 1 - 2)%nat with (length l) by lia.
  rewrite <-app_assoc. cbn [app]. rewrite nth_middle. by apply land_128.
Qed.

Lemma serialize_not_padded n : n <> 0 -> padded (serialize n) = false.
Proof.
  intros Hn. destruct (magnitude n Hn) as (neg & l & d & Hok & Hd & ->). rewrite serialize_snoc by done.
  pose proof Hok as [Hl [Hh _]%Forall_cons_1]%Forall_app. destruct (Z.ltb_spec d 128).
  - rewrite padded_snoc by (apply bytes_ok_app_2; [done|]; apply bytes_ok_cons; [destruct neg; lia|apply bytes_ok_nil]).
    apply andb_false_iff. left. apply Z.eqb_neq. destruct neg; [|rewrite Z.mod_small; lia].
    rewrite <-(Z.add_mod_idemp_r d 128) by lia. change (128 mod 128) with 0. rewrite Z.add_0_r, Z.mod_small; lia.
  - rewrite padded_snoc by (apply bytes_ok_app_2; [done|]; apply bytes_ok_cons; [destruct neg; lia|apply bytes_ok_nil]).
    rewrite last_snoc. apply andb_false_iff. right. by apply Z.ltb_ge.
Qed.

(** The only minimal encoding of a number is the one [serialize] writes. *)
Lemma serialize_set_vch v : bytes_ok v -> (0 <? length v)%nat && padded v = false -> serialize (set_vch v) = v.
Proof.
  destruct v as [|h l _] using rev_ind; [done|]. intros Hok Hp.
  rewrite (proj2 (Nat.ltb_lt _ _)) in Hp by (rewrite length_app; simpl; lia). cbn [andb] in Hp.
  rewrite padded_snoc in Hp by done. rewrite set_vch_snoc by done. pose proof Hok as [Hl [Hh _]%Forall_cons_1]%Forall_app.
  set (m := if h <? 128 then h else h - 128). set (neg := negb (h <? 128)).
  assert ((if h <? 128 then un_le l + 256 ^ Z.of_nat (length l) * h else - (un_le l + 256 ^ Z.of_nat (length l) * (h - 128))) =
    (if neg then -1 else 1) * un_le (l ++ [m])) as ->.
  { rewrite un_le_app. cbn [un_le foldr]. fold (un_le l). unfold m, neg. destruct (h <? 128); cbn [negb]; lia. }
  assert (0 <= m < 128 /\ h mod 128 = m) as [Hm Hmod].
  { unfold m. destruct (Z.ltb_spec h 128); (split; [lia|]); [apply Z.mod_small; lia|].
    replace h with (h - 128 + 1 * 128) at 1 by lia. rewrite Z.mod_add, Z.mod_small; lia. }
  assert ((if neg then m + 128 else m) = h) as Hback by (unfold neg, m; destruct (h <? 128); cbn [negb]; lia).
  rewrite Hmod in Hp. destruct (decide (m = 0)) as [E|Hm0].
  - rewrite E in *. cbn [Z.eqb andb] in Hp. destruct l as [|c l _] using rev_ind; [done|]. rewrite last_snoc in Hp.
    rewrite un_le_app. change (un_le [0]) with 0. rewrite Z.mul_0_r, Z.add_0_r. apply Z.ltb_ge in Hp.
    rewrite serialize_snoc by (done || lia). rewrite (proj2 (Z.ltb_ge _ _)) by lia. by rewrite <-Hback.
  - rewrite serialize_snoc; [|apply bytes_ok_app_2; [done|]; apply bytes_ok_cons; [lia|apply bytes_ok_nil]|done].
    rewrite (proj2 (Z.ltb_lt _ _)) by lia. by rewrite Hback.
Qed.

(** ** Ranges *)

Lemma half_pow k : (1 <= k)%nat -> 2 ^ (8 * Z.of_nat k - 1) = 128 * 256 ^ Z.of_nat (k - 1).
Proof.
  intros Hk. replace (8 * Z.of_nat k - 1) with (7 + 8 * Z.of_nat (k - 1)) by lia.
  rewrite Z.pow_add_r, (Z.pow_mul_r 2 8) by lia. done.
Qed.

Lemma set_vch_bound v k :
  bytes_ok v -> (length v <= k)%nat -> (1 <= k)%nat -> Z.abs (set_vch v) < 2 ^ (8 * Z.of_nat k - 1).
Proof.
  destruct v as [|h l _] using rev_ind; [intros _ _ Hk; rewrite half_pow by done; cbn; lia|].
  intros Hok Hlen Hk. rewrite set_vch_snoc, half_pow by done. pose proof Hok as [Hl [Hh _]%Forall_cons_1]%Forall_app.
  pose proof (un_le_bound l Hl). rewrite length_app in Hlen. cbn [length] in Hlen.
  assert (256 ^ Z.of_nat (length l) <= 256 ^ Z.of_nat (k - 1)) by (apply Z.pow_le_mono_r; lia).
  assert (0 < 256 ^ Z.of_nat (length l)) by (apply Z.pow_pos_nonneg; lia).
  destruct (Z.ltb_spec h 128); nia.
Qed.

Lemma serialize_length n k : (1 <= k)%nat -> Z.abs n < 2 ^ (8 * Z.of_nat k - 1) -> (length (serialize n) <= k)%nat.
Proof.
  intros Hk Hn. destruct (decide (n = 0)) as [->|Hn0]; [simpl; lia|].
  destruct (magnitude n Hn0) as (neg & l & d & Hok & Hd & ->). rewrite serialize_snoc by done.
  pose proof Hok as [Hl [Hh _]%Forall_cons_1]%Forall_app. pose proof (un_le_bound l Hl). rewrite half_pow in Hn by done.
  assert (un_le (l ++ [d]) = un_le l + 256 ^ Z.of_nat (length l) * d) as E by (rewrite un_le_app; simpl; lia).
  assert (0 < 256 ^ Z.of_nat (length l)) by (apply Z.pow_pos_nonneg; lia).
  assert (d * 256 ^ Z.of_nat (length l) < 128 * 256 ^ Z.of_nat (k - 1)) as Hlt by (destruct neg; nia).
  destruct (Z.ltb_spec d 128); rewrite !length_app; cbn [length].
  - destruct (Nat.le_gt_cases (length l + 1) k) as [|Hgt]; [done|]. exfalso.
    assert (256 ^ Z.of_nat k <= 256 ^ Z.of_nat (length l)) by (apply Z.pow_le_mono_r; lia).
    assert (256 ^ Z.of_nat k = 256 * 256 ^ Z.of_nat (k - 1)) as E2; [|nia].
    rewrite <-Z.pow_succ_r by lia. f_equal. lia.
  - destruct (Nat.le_gt_cases (length l + 1 + 1) k) as [|Hgt]; [done|]. exfalso.
    assert (256 ^ Z.of_nat (k - 1) <= 256 ^ Z.of_nat (length l)) by (apply Z.pow_le_mono_r; lia). nia.
Qed.

(** An operand accepted by the arithmetic opcodes is a 32-bit signed magnitude. *)
Lemma operand_bound v mini n :
  bytes_ok v -> CScriptNum v mini nDefaultMaxNumSize = Ret n -> Z.abs n < 2 ^ 31.
Proof.
  intros Hok Hn. unfold CScriptNum in Hn. apply script_bind_ret in Hn as (u & Hl%error_if_ret & Hn).
  apply script_bind_ret in Hn as (u' & _ & [= <-]). apply Nat.ltb_ge in Hl.
  apply (set_vch_bound v 4); [done|exact Hl|lia].
Qed.

Lemma CScriptNum_aborts v mini size : aborts (CScriptNum v mini size) = false.
Proof. unfold CScriptNum. by destruct (size <? length v)%nat, (mini && (0 <? length v)%nat && padded v). Qed.

(** ** Truth values *)

Lemma CastToBool_snoc l h :
  bytes_ok (l ++ [h]) -> CastToBool (l ++ [h]) = negb (un_le l =? 0) || negb (h mod 128 =? 0).
Proof.
  induction l as [|b l IH]; intros Hok.
  - apply Forall_cons_1 in Hok as [Hh _]. cbn. destruct (Z.eqb_spec h 0) as [->|Hn]; [done|]. cbn [negb].
    destruct (Z.eqb_spec h 128) as [->|]; [done|]. symmetry. apply negb_true_iff, Z.eqb_neq.
    pose proof (Z.div_mod h 128). lia.
  - apply Forall_cons_1 in Hok as [Hb Hok]. cbn [app CastToBool un_le foldr]. fold (un_le l).
    apply bytes_ok_app in Hok as Hok'. destruct Hok' as [Hl _]. pose proof (un_le_bound l Hl).
    destruct (Z.eqb_spec b 0) as [->|Hn]; cbn [negb].
    + rewrite IH by done. f_equal. f_equal. destruct (Z.eqb_spec (un_le l) 0), (Z.eqb_spec (0 + 256 * un_le l) 0); lia.
    + rewrite (proj2 (Z.eqb_neq (b + _) 0)) by lia. cbn [negb orb]. by destruct l.
Qed.

Lemma CastToBool_num v : bytes_ok v -> CastToBool v = negb (set_vch v =? 0).
Proof.
  destruct v as [|h l _] using rev_ind; [done|]. intros Hok. rewrite CastToBool_snoc, set_vch_snoc by done.
  pose proof Hok as [Hl [Hh _]%Forall_cons_1]%Forall_app. pose proof (un_le_bound l Hl) as Hb.
  assert (0 < 256 ^ Z.of_nat (length l)) by (apply Z.pow_pos_nonneg; lia).
  assert (h mod 128 = if h <? 128 then h else h - 128) as ->.
  { destruct (Z.ltb_spec h 128); [apply Z.mod_small; lia|].
    replace h with (h - 128 + 1 * 128) at 1 by lia. rewrite Z.mod_add, Z.mod_small; lia. }
  rewrite <-negb_andb. f_equal. destruct (h <? 128);
    match goal with |- ((un_le l =? 0) && (?x =? 0)) = _ => destruct (Z.eqb_spec (un_le l) 0), (Z.eqb_spec x 0) end;
    cbn [andb]; symmetry; (apply Z.eqb_eq || apply Z.eqb_neq); nia.
Qed.

(** ** Properties *)

(** with minimal encodings required, a stack element is read as the number n
    exactly when it is the byte string the node itself writes for n and fits
    the size limit: numbers have one encoding, and writing then reading one
    gives it back. *)
Theorem script_number_codec (v : list Z) (n : Z) (size : nat) (Hok : bytes_ok v) :
  CScriptNum v true size = Ret n <-> v = serialize n /\ (length v <= size)%nat.
Proof.
  unfold CScriptNum. cbn [andb]. split.
  - intros (u & Hl%error_if_ret & Hn)%script_bind_ret. apply script_bind_ret in Hn as (u' & Hp%error_if_ret & [= <-]).
    apply Nat.ltb_ge in Hl. by rewrite serialize_set_vch.
  - intros [-> Hl]. rewrite (error_if_false (size <? _)%nat) by (by apply Nat.ltb_ge). cbn [mbind script_res_bind].
    rewrite error_if_false; [cbn; by rewrite set_vch_serialize|].
    destruct (decide (n = 0)) as [->|Hn]; [done|]. by rewrite serialize_not_padded, andb_false_r.
Qed.

Lemma script_number_codec_witness : CScriptNum [255; 0] true 4 = Ret 255 <-> [255; 0] = serialize 255 /\ (2 <= 4)%nat.
Proof. apply (script_number_codec [255; 0] 255 4). by repeat constructor. Defined.
