(* ===== verification/Interpreter.v ===== *)
(** * The node's script interpreter

    [firstislamiccoin-core/src/script/interpreter.cpp], [EvalScript] and the
    functions it calls (lines 85-1247), with the opcodes and limits of
    [script/script.h] and [CheckMinimalPush] of [script/script.cpp].

    The stack is a list with its top first ([stacktop(-1)] is the head); a size
    guard and the accesses it protects become one pattern match.  The byte
    iterators are the rests of the script.  Hash functions come from [Crypto]
    and [Sha1]; the signature checker is a record of the four virtual functions
    of [BaseSignatureChecker]. *)

From S2P Require Import Prelude Digits JsString Bytes Crypto JsInt Sha1 Tx NodeTx ScriptError NodeScript ScriptNum.

Open Scope Z_scope.
Open Scope list_scope.

(** ** Opcodes and limits *)

Definition OP_1NEGATE : Z := 0x4f.
Definition OP_RESERVED : Z := 0x50.
Definition OP_1 : Z := 0x51.
Definition OP_NOP : Z := 0x61.
Definition OP_IF : Z := 0x63.
Definition OP_NOTIF : Z := 0x64.
Definition OP_ELSE : Z := 0x67.
Definition OP_ENDIF : Z := 0x68.
Definition OP_VERIFY : Z := 0x69.
Definition OP_RETURN : Z := 0x6a.
Definition OP_TOALTSTACK : Z := 0x6b.
Definition OP_FROMALTSTACK : Z := 0x6c.
Definition OP_2DROP : Z := 0x6d.
Definition OP_2DUP : Z := 0x6e.
Definition OP_3DUP : Z := 0x6f.
Definition OP_2OVER : Z := 0x70.
Definition OP_2ROT : Z := 0x71.
Definition OP_2SWAP : Z := 0x72.
Definition OP_IFDUP : Z := 0x73.
Definition OP_DEPTH : Z := 0x74.
Definition OP_DROP : Z := 0x75.
Definition OP_DUP : Z := 0x76.
Definition OP_NIP : Z := 0x77.
Definition OP_OVER : Z := 0x78.
Definition OP_PICK : Z := 0x79.
Definition OP_ROLL : Z := 0x7a.
Definition OP_ROT : Z := 0x7b.
Definition OP_SWAP : Z := 0x7c.
Definition OP_TUCK : Z := 0x7d.
Definition OP_CAT : Z := 0x7e.
Definition OP_SUBSTR : Z := 0x7f.
Definition OP_LEFT : Z := 0x80.
Definition OP_RIGHT : Z := 0x81.
Definition OP_SIZE : Z := 0x82.
Definition OP_INVERT : Z := 0x83.
Definition OP_AND : Z := 0x84.
Definition OP_OR : Z := 0x85.
Definition OP_XOR : Z := 0x86.
Definition OP_EQUALVERIFY : Z := 0x88.
Definition OP_1ADD : Z := 0x8b.
Definition OP_1SUB : Z := 0x8c.
Definition OP_2MUL : Z := 0x8d.
Definition OP_2DIV : Z := 0x8e.
Definition OP_NEGATE : Z := 0x8f.
Definition OP_ABS : Z := 0x90.
Definition OP_NOT : Z := 0x91.
Definition OP_0NOTEQUAL : Z := 0x92.
Definition OP_ADD : Z := 0x93.
Definition OP_SUB : Z := 0x94.
Definition OP_MUL : Z := 0x95.
Definition OP_DIV : Z := 0x96.
Definition OP_MOD : Z := 0x97.
Definition OP_LSHIFT : Z := 0x98.
Definition OP_RSHIFT : Z := 0x99.
Definition OP_BOOLAND : Z := 0x9a.
Definition OP_BOOLOR : Z := 0x9b.
Definition OP_NUMEQUAL : Z := 0x9c.
Definition OP_NUMEQUALVERIFY : Z := 0x9d.
Definition OP_NUMNOTEQUAL : Z := 0x9e.
Definition OP_LESSTHAN : Z := 0x9f.
Definition OP_GREATERTHAN : Z := 0xa0.
Definition OP_LESSTHANOREQUAL : Z := 0xa1.
Definition OP_GREATERTHANOREQUAL : Z := 0xa2.
Definition OP_MIN : Z := 0xa3.
Definition OP_MAX : Z := 0xa4.
Definition OP_WITHIN : Z := 0xa5.
Definition OP_RIPEMD160 : Z := 0xa6.
Definition OP_SHA1 : Z := 0xa7.
Definition OP_SHA256 : Z := 0xa8.
Definition OP_HASH256 : Z := 0xaa.
Definition OP_CHECKSIG : Z := 0xac.
Definition OP_CHECKSIGVERIFY : Z := 0xad.
Definition OP_CHECKMULTISIG : Z := 0xae.
Definition OP_CHECKMULTISIGVERIFY : Z := 0xaf.
Definition OP_NOP1 : Z := 0xb0.
Definition OP_CHECKLOCKTIMEVERIFY : Z := 0xb1.
Definition OP_CHECKSEQUENCEVERIFY : Z := 0xb2.
Definition OP_NOP4 : Z := 0xb3.
Definition OP_NOP10 : Z := 0xb9.
Definition OP_CHECKSIGADD : Z := 0xba.

Definition MAX_SCRIPT_ELEMENT_SIZE : nat := 520.
Definition MAX_OPS_PER_SCRIPT : Z := 201.
Definition MAX_PUBKEYS_PER_MULTISIG : Z := 20.
Definition MAX_SCRIPT_SIZE : Z := 10000.
Definition MAX_STACK_SIZE : nat := 1000.
Definition VALIDATION_WEIGHT_PER_SIGOP_PASSED : Z := 50.

(** Refused wherever they stand in a script (lines 463-478). *)
Definition disabled_opcode (opcode : Z) : bool :=
  existsb (Z.eqb opcode)
    [OP_CAT; OP_SUBSTR; OP_LEFT; OP_RIGHT; OP_INVERT; OP_AND; OP_OR; OP_XOR; OP_2MUL; OP_2DIV; OP_MUL; OP_DIV; OP_MOD;
     OP_LSHIFT; OP_RSHIFT].

Definition CheckMinimalPush (data : list Z) (opcode : Z) : bool :=
  let size := Z.of_nat (length data) in
  let first := nth 0 data 0 in
  if size =? 0 then opcode =? 0
  else if (size =? 1) && (1 <=? first) && (first <=? 16) then false
  else if (size =? 1) && (first =? 0x81) then false
  else if size <=? 75 then opcode =? size
  else if size <=? 255 then opcode =? OP_PUSHDATA1
  else if size <=? 65535 then opcode =? OP_PUSHDATA2
  else true.

(** ** The condition stack

    The number of open conditionals and the position of the outermost one in an
    inactive branch, as [uint32_t]. *)
Definition NO_FALSE : Z := 2 ^ 32 - 1.
Definition u32 (z : Z) : Z := z mod 2 ^ 32.

Record ConditionStack : Type := { m_stack_size : Z; m_first_false_pos : Z }.

Definition cond_init : ConditionStack := {| m_stack_size := 0; m_first_false_pos := NO_FALSE |}.
Definition cond_empty (c : ConditionStack) : bool := m_stack_size c =? 0.
Definition all_true (c : ConditionStack) : bool := m_first_false_pos c =? NO_FALSE.
Definition push_back (f : bool) (c : ConditionStack) : ConditionStack := {|
  m_first_false_pos := if (m_first_false_pos c =? NO_FALSE) && negb f then m_stack_size c else m_first_false_pos c;
  m_stack_size := u32 (m_stack_size c + 1)
|}.
Definition pop_back (c : ConditionStack) : script_res ConditionStack :=
  _ ← script_assert (0 <? m_stack_size c);
  let size := u32 (m_stack_size c - 1) in
  Ret {| m_stack_size := size; m_first_false_pos := if m_first_false_pos c =? size then NO_FALSE else m_first_false_pos c |}.
Definition toggle_top (c : ConditionStack) : script_res ConditionStack :=
  _ ← script_assert (0 <? m_stack_size c);
  let top := u32 (m_stack_size c - 1) in
  Ret {| m_stack_size := m_stack_size c;
         m_first_false_pos :=
           if m_first_false_pos c =? NO_FALSE then top
           else if m_first_false_pos c =? top then NO_FALSE
           else m_first_false_pos c |}.

(** ** Removing a signature from the script it signs *)

Definition starts_with (b pc : list Z) : bool := bool_decide (take (length b) pc = b).

(** The inner loop: skip the copies of [b] at the iterator. *)
Fixpoint skip_copies (fuel : nat) (b pc : list Z) : nat * list Z :=
  match fuel with
  | O => (0%nat, pc)
  | S fuel =>
      if starts_with b pc then let '(n, pc) := skip_copies fuel b (drop (length b) pc) in (S n, pc) else (0%nat, pc)
  end.

(** The outer loop: what was kept, the start of the pending part, the count.
    Both loops consume a byte per turn ([b] is not empty). *)
Fixpoint find_loop (fuel : nat) (b pc2 pc result : list Z) (nFound : nat) : list Z * list Z * nat :=
  match fuel with
  | O => (result, pc2, nFound)
  | S fuel =>
      let result := result ++ take (length pc2 - length pc) pc2 in
      let '(n, pc) := skip_copies (length pc) b pc in
      let '(ok, _, _, next) := GetScriptOp pc in
      if ok then find_loop fuel b pc next result (nFound + n) else (result, pc, (nFound + n)%nat)
  end.

Definition FindAndDelete (script b : list Z) : nat * list Z :=
  match b with
  | [] => (0%nat, script)
  | _ =>
      let '(result, pc2, nFound) := find_loop (S (length script)) b script script [] 0 in
      (nFound, if (0 <? nFound)%nat then result ++ pc2 else script)
  end.

(** ** Checkers *)

(** [ScriptExecutionData]: a field with its initialisation flag is an option;
    the annex is absent or present with its hash. *)
Record ScriptExecutionData : Type := {
  m_tapleaf_hash : option (list Z);
  m_codeseparator_pos : option Z;
  m_annex : option (option (list Z));
  m_validation_weight_left : option Z;
  m_output_hash : option (list Z)
}.

Definition no_execdata : ScriptExecutionData := {|
  m_tapleaf_hash := None; m_codeseparator_pos := None; m_annex := None; m_validation_weight_left := None; m_output_hash := None
|}.
Definition set_codeseparator_pos (p : Z) (x : ScriptExecutionData) : ScriptExecutionData := {|
  m_tapleaf_hash := m_tapleaf_hash x; m_codeseparator_pos := Some p; m_annex := m_annex x;
  m_validation_weight_left := m_validation_weight_left x; m_output_hash := m_output_hash x
|}.
Definition set_weight_left (w : Z) (x : ScriptExecutionData) : ScriptExecutionData := {|
  m_tapleaf_hash := m_tapleaf_hash x; m_codeseparator_pos := m_codeseparator_pos x; m_annex := m_annex x;
  m_validation_weight_left := Some w; m_output_hash := m_output_hash x
|}.
Definition set_output_hash (h : list Z) (x : ScriptExecutionData) : ScriptExecutionData := {|
  m_tapleaf_hash := m_tapleaf_hash x; m_codeseparator_pos := m_codeseparator_pos x; m_annex := m_annex x;
  m_validation_weight_left := m_validation_weight_left x; m_output_hash := Some h
|}.

(** The virtual functions.  A Schnorr check may write the execution data. *)
Record BaseSignatureChecker : Type := {
  checkECDSA : list Z -> list Z -> list Z -> SigVersion -> script_res bool;
  checkSchnorr : list Z -> list Z -> SigVersion -> ScriptExecutionData -> script_res ScriptExecutionData;
  checkLockTime : Z -> bool;
  checkSequence : Z -> bool
}.

Definition is_BASE (v : SigVersion) : bool := match v with BASE => true | _ => false end.
Definition is_WITNESS_V0 (v : SigVersion) : bool := match v with WITNESS_V0 => true | _ => false end.
Definition is_TAPSCRIPT (v : SigVersion) : bool := match v with TAPSCRIPT => true | _ => false end.
Definition is_TAPROOT (v : SigVersion) : bool := match v with TAPROOT => true | _ => false end.

(** ** Key encodings *)

Definition IsCompressedOrUncompressedPubKey (vchPubKey : list Z) : bool :=
  if (length vchPubKey <? 33)%nat then false else
  if byte_at vchPubKey 0 =? 0x04 then (length vchPubKey =? 65)%nat
  else if (byte_at vchPubKey 0 =? 0x02) || (byte_at vchPubKey 0 =? 0x03) then (length vchPubKey =? 33)%nat
  else false.

Definition IsCompressedPubKey (vchPubKey : list Z) : bool :=
  if negb (length vchPubKey =? 33)%nat then false
  else (byte_at vchPubKey 0 =? 0x02) || (byte_at vchPubKey 0 =? 0x03).

Definition CheckPubKeyEncoding (vchPubKey : list Z) (flags : Z) (sigversion : SigVersion) : script_res unit :=
  _ ← error_if (flag flags SCRIPT_VERIFY_STRICTENC && negb (IsCompressedOrUncompressedPubKey vchPubKey))
        SCRIPT_ERR_PUBKEYTYPE;
  error_if (flag flags SCRIPT_VERIFY_WITNESS_PUBKEYTYPE && is_WITNESS_V0 sigversion && negb (IsCompressedPubKey vchPubKey))
    SCRIPT_ERR_WITNESS_PUBKEYTYPE.

(** ** Interpreter state *)

Record interp : Type := {
  stack : list (list Z);
  altstack : list (list Z);
  vfExec : ConditionStack;
  nOpCount : Z;
  pbegincodehash : list Z;
  opcode_pos : Z;
  execdata : ScriptExecutionData
}.

Definition set_stack (st : list (list Z)) (s : interp) : interp := {|
  stack := st; altstack := altstack s; vfExec := vfExec s; nOpCount := nOpCount s;
  pbegincodehash := pbegincodehash s; opcode_pos := opcode_pos s; execdata := execdata s
|}.
Definition set_altstack (st : list (list Z)) (s : interp) : interp := {|
  stack := stack s; altstack := st; vfExec := vfExec s; nOpCount := nOpCount s;
  pbegincodehash := pbegincodehash s; opcode_pos := opcode_pos s; execdata := execdata s
|}.
Definition set_vfExec (c : ConditionStack) (s : interp) : interp := {|
  stack := stack s; altstack := altstack s; vfExec := c; nOpCount := nOpCount s;
  pbegincodehash := pbegincodehash s; opcode_pos := opcode_pos s; execdata := execdata s
|}.
Definition set_nOpCount (n : Z) (s : interp) : interp := {|
  stack := stack s; altstack := altstack s; vfExec := vfExec s; nOpCount := n;
  pbegincodehash := pbegincodehash s; opcode_pos := opcode_pos s; execdata := execdata s
|}.
Definition set_code (pc : list Z) (s : interp) : interp := {|
  stack := stack s; altstack := altstack s; vfExec := vfExec s; nOpCount := nOpCount s;
  pbegincodehash := pc; opcode_pos := opcode_pos s; execdata := execdata s
|}.
Definition next_pos (s : interp) : interp := {|
  stack := stack s; altstack := altstack s; vfExec := vfExec s; nOpCount := nOpCount s;
  pbegincodehash := pbegincodehash s; opcode_pos := u32 (opcode_pos s + 1); execdata := execdata s
|}.
Definition set_execdata (x : ScriptExecutionData) (s : interp) : interp := {|
  stack := stack s; altstack := altstack s; vfExec := vfExec s; nOpCount := nOpCount s;
  pbegincodehash := pbegincodehash s; opcode_pos := opcode_pos s; execdata := x
|}.
Definition push (v : list Z) (s : interp) : interp := set_stack (v :: stack s) s.

Definition vchTrue : list Z := [1].
Definition vchFalse : list Z := [].
Definition bool_vch (b : bool) : list Z := if b then vchTrue else vchFalse.
Definition bool_num (b : bool) : Z := if b then 1 else 0.

Definition bad_stack {A} : script_res A := set_error SCRIPT_ERR_INVALID_STACK_OPERATION.

(** ** Opcodes on the main stack alone *)

Section StackOps.
Context (fRequireMinimal : bool).

Definition num (vch : list Z) : script_res Z := CScriptNum vch fRequireMinimal nDefaultMaxNumSize.

(** [OP_PICK] and [OP_ROLL]. *)
Definition op_pick (roll : bool) (st : list (list Z)) : script_res (list (list Z)) :=
  match st with
  | top :: ((_ :: _) as st) =>
      n ← num top;
      let n := getint n in
      if (n <? 0) || (Z.of_nat (length st) <=? n) then bad_stack else
      match st !! Z.to_nat n with
      | None => set_error SCRIPT_ERR_UNKNOWN_ERROR
      | Some vch =>
          Ret (vch :: (if roll then take (Z.to_nat n) st ++ drop (S (Z.to_nat n)) st else st))
      end
  | _ => bad_stack
  end.

(** The stack opcodes (lines 701-887), from [OP_2DROP] to [OP_SIZE]; the other
    opcodes give [None]. *)
Definition stack_op (opcode : Z) : option (list (list Z) -> script_res (list (list Z))) :=
  if opcode =? OP_2DROP then Some (fun st => match st with _ :: _ :: st => Ret st | _ => bad_stack end)
  else if opcode =? OP_2DUP then
    Some (fun st => match st with x2 :: x1 :: st => Ret (x2 :: x1 :: x2 :: x1 :: st) | _ => bad_stack end)
  else if opcode =? OP_3DUP then
    Some (fun st => match st with
      | x3 :: x2 :: x1 :: st => Ret (x3 :: x2 :: x1 :: x3 :: x2 :: x1 :: st) | _ => bad_stack end)
  else if opcode =? OP_2OVER then
    Some (fun st => match st with
      | x4 :: x3 :: x2 :: x1 :: st => Ret (x2 :: x1 :: x4 :: x3 :: x2 :: x1 :: st) | _ => bad_stack end)
  else if opcode =? OP_2ROT then
    Some (fun st => match st with
      | x6 :: x5 :: x4 :: x3 :: x2 :: x1 :: st => Ret (x2 :: x1 :: x6 :: x5 :: x4 :: x3 :: st) | _ => bad_stack end)
  else if opcode =? OP_2SWAP then
    Some (fun st => match st with
      | x4 :: x3 :: x2 :: x1 :: st => Ret (x2 :: x1 :: x4 :: x3 :: st) | _ => bad_stack end)
  else if opcode =? OP_IFDUP then
    Some (fun st => match st with x :: _ => Ret (if CastToBool x then x :: st else st) | _ => bad_stack end)
  else if opcode =? OP_DEPTH then Some (fun st => Ret (serialize (Z.of_nat (length st)) :: st))
  else if opcode =? OP_DROP then Some (fun st => match st with _ :: st => Ret st | _ => bad_stack end)
  else if opcode =? OP_DUP then Some (fun st => match st with x :: _ => Ret (x :: st) | _ => bad_stack end)
  else if opcode =? OP_NIP then Some (fun st => match st with x2 :: _ :: st => Ret (x2 :: st) | _ => bad_stack end)
  else if opcode =? OP_OVER then Some (fun st => match st with _ :: x1 :: _ => Ret (x1 :: st) | _ => bad_stack end)
  else if opcode =? OP_PICK then Some (op_pick false)
  else if opcode =? OP_ROLL then Some (op_pick true)
  else if opcode =? OP_ROT then
    Some (fun st => match st with x3 :: x2 :: x1 :: st => Ret (x1 :: x3 :: x2 :: st) | _ => bad_stack end)
  else if opcode =? OP_SWAP then Some (fun st => match st with x2 :: x1 :: st => Ret (x1 :: x2 :: st) | _ => bad_stack end)
  else if opcode =? OP_TUCK then
    Some (fun st => match st with x2 :: x1 :: st => Ret (x2 :: x1 :: x2 :: st) | _ => bad_stack end)
  else if opcode =? OP_SIZE then
    Some (fun st => match st with x :: _ => Ret (serialize (Z.of_nat (length x)) :: st) | _ => bad_stack end)
  else None.

(** [OP_EQUAL] and [OP_EQUALVERIFY]. *)
Definition op_equal (verify : bool) (st : list (list Z)) : script_res (list (list Z)) :=
  match st with
  | vch2 :: vch1 :: st =>
      let fEqual := bool_decide (vch1 = vch2) in
      if verify then (if fEqual then Ret st else set_error SCRIPT_ERR_EQUALVERIFY)
      else Ret (bool_vch fEqual :: st)
  | _ => bad_stack
  end.

(** The one-operand arithmetic (lines 925-949). *)
Definition unary_op (opcode : Z) : option (Z -> script_res Z) :=
  if opcode =? OP_1ADD then Some (fun bn => num_add_assign bn 1)
  else if opcode =? OP_1SUB then Some (fun bn => num_sub_assign bn 1)
  else if opcode =? OP_NEGATE then Some num_neg
  else if opcode =? OP_ABS then Some (fun bn => if bn <? 0 then num_neg bn else Ret bn)
  else if opcode =? OP_NOT then Some (fun bn => Ret (bool_num (bn =? 0)))
  else if opcode =? OP_0NOTEQUAL then Some (fun bn => Ret (bool_num (negb (bn =? 0))))
  else None.

Definition op_unary (f : Z -> script_res Z) (st : list (list Z)) : script_res (list (list Z)) :=
  match st with
  | x :: st => bn ← num x; bn ← f bn; Ret (serialize bn :: st)
  | _ => bad_stack
  end.

(** The two-operand arithmetic (lines 951-1006).  Operands stay below [2^31] in
    magnitude, so sums and differences do not leave [int64_t]. *)
Definition binary_op (opcode : Z) : option (Z -> Z -> Z) :=
  if opcode =? OP_ADD then Some Z.add
  else if opcode =? OP_SUB then Some Z.sub
  else if opcode =? OP_BOOLAND then Some (fun bn1 bn2 => bool_num (negb (bn1 =? 0) && negb (bn2 =? 0)))
  else if opcode =? OP_BOOLOR then Some (fun bn1 bn2 => bool_num (negb (bn1 =? 0) || negb (bn2 =? 0)))
  else if opcode =? OP_NUMEQUAL then Some (fun bn1 bn2 => bool_num (bn1 =? bn2))
  else if opcode =? OP_NUMEQUALVERIFY then Some (fun bn1 bn2 => bool_num (bn1 =? bn2))
  else if opcode =? OP_NUMNOTEQUAL then Some (fun bn1 bn2 => bool_num (negb (bn1 =? bn2)))
  else if opcode =? OP_LESSTHAN then Some (fun bn1 bn2 => bool_num (bn1 <? bn2))
  else if opcode =? OP_GREATERTHAN then Some (fun bn1 bn2 => bool_num (bn2 <? bn1))
  else if opcode =? OP_LESSTHANOREQUAL then Some (fun bn1 bn2 => bool_num (bn1 <=? bn2))
  else if opcode =? OP_GREATERTHANOREQUAL then Some (fun bn1 bn2 => bool_num (bn2 <=? bn1))
  else if opcode =? OP_MIN then Some (fun bn1 bn2 => if bn1 <? bn2 then bn1 else bn2)
  else if opcode =? OP_MAX then Some (fun bn1 bn2 => if bn2 <? bn1 then bn1 else bn2)
  else None.

Definition op_binary (opcode : Z) (f : Z -> Z -> Z) (st : list (list Z)) : script_res (list (list Z)) :=
  match st with
  | x2 :: x1 :: st =>
      bn1 ← num x1; bn2 ← num x2;
      let vch := serialize (f bn1 bn2) in
      if opcode =? OP_NUMEQUALVERIFY then
        (if CastToBool vch then Ret st else set_error SCRIPT_ERR_NUMEQUALVERIFY)
      else Ret (vch :: st)
  | _ => bad_stack
  end.

Definition op_within (st : list (list Z)) : script_res (list (list Z)) :=
  match st with
  | x3 :: x2 :: x1 :: st =>
      bn1 ← num x1; bn2 ← num x2; bn3 ← num x3;
      Ret (bool_vch ((bn2 <=? bn1) && (bn1 <? bn3)) :: st)
  | _ => bad_stack
  end.

(** The hash opcodes (lines 1028-1052). *)
Definition hash_op `{Crypto} (opcode : Z) : option (list Z -> list Z) :=
  if opcode =? OP_RIPEMD160 then Some ripemd160
  else if opcode =? OP_SHA1 then Some Sha1.hash
  else if opcode =? OP_SHA256 then Some sha256
  else if opcode =? OP_HASH160 then Some hash160
  else if opcode =? OP_HASH256 then Some doubleSha256
  else None.

Definition op_digest (f : list Z -> list Z) (st : list (list Z)) : script_res (list (list Z)) :=
  match st with vch :: st => Ret (f vch :: st) | _ => bad_stack end.

Definition op_verify (st : list (list Z)) : script_res (list (list Z)) :=
  match st with
  | top :: st => if CastToBool top then Ret st else set_error SCRIPT_ERR_VERIFY
  | _ => bad_stack
  end.

(** The small integers: [OP_1NEGATE] and [OP_1] to [OP_16]. *)
Definition small_int (opcode : Z) : bool := (opcode =? OP_1NEGATE) || ((OP_1 <=? opcode) && (opcode <=? OP_16)).

(** The opcodes that read and write nothing but the stack. *)
Definition pure_op `{Crypto} (opcode : Z) : option (list (list Z) -> script_res (list (list Z))) :=
  if small_int opcode then Some (fun st => Ret (serialize (opcode - (OP_1 - 1)) :: st))
  else if opcode =? OP_NOP then Some (fun st => Ret st)
  else if opcode =? OP_VERIFY then Some op_verify
  else if opcode =? OP_RETURN then Some (fun _ => set_error SCRIPT_ERR_OP_RETURN)
  else if opcode =? OP_EQUAL then Some (op_equal false)
  else if opcode =? OP_EQUALVERIFY then Some (op_equal true)
  else if opcode =? OP_WITHIN then Some op_within
  else match stack_op opcode with
  | Some f => Some f
  | None =>
      match unary_op opcode with
      | Some f => Some (op_unary f)
      | None =>
          match binary_op opcode with
          | Some f => Some (op_binary opcode f)
          | None => op_digest <$> hash_op opcode
          end
      end
  end.

End StackOps.

(** ** Signature opcodes *)

Section Signatures.
Context (checker : BaseSignatureChecker) (flags : Z) (sigversion : SigVersion).

Definition fRequireMinimal : bool := flag flags SCRIPT_VERIFY_MINIMALDATA.

(** Before segwit a script's signature is removed from the code it signs. *)
Definition drop_signature (scriptCode vchSig : list Z) : script_res (list Z) :=
  if is_BASE sigversion then
    let '(found, scriptCode) := FindAndDelete scriptCode (push_data vchSig) in
    _ ← error_if ((0 <? found)%nat && flag flags SCRIPT_VERIFY_CONST_SCRIPTCODE) SCRIPT_ERR_SIG_FINDANDDELETE;
    Ret scriptCode
  else Ret scriptCode.

Definition EvalChecksigPreTapscript (vchSig vchPubKey codehash : list Z) : script_res bool :=
  _ ← script_assert (is_BASE sigversion || is_WITNESS_V0 sigversion);
  scriptCode ← drop_signature codehash vchSig;
  _ ← CheckSignatureEncoding vchSig flags;
  _ ← CheckPubKeyEncoding vchPubKey flags sigversion;
  fSuccess ← checkECDSA checker vchSig vchPubKey scriptCode sigversion;
  _ ← error_if (negb fSuccess && flag flags SCRIPT_VERIFY_NULLFAIL && negb (length vchSig =? 0)%nat) SCRIPT_ERR_SIG_NULLFAIL;
  Ret fSuccess.

Definition EvalChecksigTapscript (sig pubkey : list Z) (x : ScriptExecutionData) : script_res (bool * ScriptExecutionData) :=
  _ ← script_assert (is_TAPSCRIPT sigversion);
  let success := negb (length sig =? 0)%nat in
  x ← (if success then
         match m_validation_weight_left x with
         | None => Abort
         | Some w =>
             let w := w - VALIDATION_WEIGHT_PER_SIGOP_PASSED in
             _ ← error_if (w <? 0) SCRIPT_ERR_TAPSCRIPT_VALIDATION_WEIGHT;
             Ret (set_weight_left w x)
         end
       else Ret x);
  x ← (if (length pubkey =? 0)%nat then set_error SCRIPT_ERR_PUBKEYTYPE
       else if (length pubkey =? 32)%nat then
         if success then checkSchnorr checker sig pubkey sigversion x else Ret x
       else
         _ ← error_if (flag flags SCRIPT_VERIFY_DISCOURAGE_UPGRADABLE_PUBKEYTYPE) SCRIPT_ERR_DISCOURAGE_UPGRADABLE_PUBKEYTYPE;
         Ret x);
  Ret (success, x).

Definition EvalChecksig (sig pubkey codehash : list Z) (x : ScriptExecutionData) : script_res (bool * ScriptExecutionData) :=
  match sigversion with
  | BASE | WITNESS_V0 => success ← EvalChecksigPreTapscript sig pubkey codehash; Ret (success, x)
  | TAPSCRIPT => EvalChecksigTapscript sig pubkey x
  | TAPROOT => Abort
  end.

(** [OP_CHECKSIG] and [OP_CHECKSIGVERIFY]. *)
Definition op_checksig (verify : bool) (s : interp) : script_res interp :=
  match stack s with
  | vchPubKey :: vchSig :: st =>
      '(fSuccess, x) ← EvalChecksig vchSig vchPubKey (pbegincodehash s) (execdata s);
      let s := set_execdata x s in
      if verify then (if fSuccess : bool then Ret (set_stack st s) else set_error SCRIPT_ERR_CHECKSIGVERIFY)
      else Ret (set_stack (bool_vch fSuccess :: st) s)
  | _ => bad_stack
  end.

Definition op_checksigadd (s : interp) : script_res interp :=
  if is_BASE sigversion || is_WITNESS_V0 sigversion then set_error SCRIPT_ERR_BAD_OPCODE else
  match stack s with
  | pubkey :: n :: sig :: st =>
      n ← num fRequireMinimal n;
      '(success, x) ← EvalChecksig sig pubkey (pbegincodehash s) (execdata s);
      Ret (set_stack (serialize (n + bool_num success) :: st) (set_execdata x s))
  | _ => bad_stack
  end.

(** The matching loop of [OP_CHECKMULTISIG], over the signatures and keys from
    the top of the stack down; it starts with no more signatures than keys and
    keeps it so. *)
Fixpoint multisig_loop (scriptCode : list Z) (keys sigs : list (list Z)) : script_res bool :=
  match sigs, keys with
  | [], _ => Ret true
  | _, [] => Ret false
  | vchSig :: sigs', vchPubKey :: keys' =>
      _ ← CheckSignatureEncoding vchSig flags;
      _ ← CheckPubKeyEncoding vchPubKey flags sigversion;
      fOk ← checkECDSA checker vchSig vchPubKey scriptCode sigversion;
      let sigs := if fOk : bool then sigs' else sigs in
      if (length keys' <? length sigs)%nat then Ret false else multisig_loop scriptCode keys' sigs
  end.

Fixpoint drop_signatures (scriptCode : list Z) (sigs : list (list Z)) : script_res (list Z) :=
  match sigs with
  | [] => Ret scriptCode
  | vchSig :: sigs => scriptCode ← drop_signature scriptCode vchSig; drop_signatures scriptCode sigs
  end.

(** The clean-up loop: [i] arguments are popped; past the first [ikey2] of them
    come the signatures, which must be empty when the check failed. *)
Fixpoint multisig_cleanup (fSuccess : bool) (i ikey2 : nat) (st : list (list Z)) : script_res (list (list Z)) :=
  match i, st with
  | O, _ => Ret st
  | S _, [] => set_error SCRIPT_ERR_UNKNOWN_ERROR
  | S i, top :: st =>
      _ ← error_if (negb fSuccess && flag flags SCRIPT_VERIFY_NULLFAIL && (ikey2 =? 0)%nat && negb (length top =? 0)%nat)
            SCRIPT_ERR_SIG_NULLFAIL;
      multisig_cleanup fSuccess i (pred ikey2) st
  end.

(** [OP_CHECKMULTISIG] and [OP_CHECKMULTISIGVERIFY] (lines 1111-1221). *)
Definition op_checkmultisig (verify : bool) (s : interp) : script_res interp :=
  if is_TAPSCRIPT sigversion then set_error SCRIPT_ERR_TAPSCRIPT_CHECKMULTISIG else
  match stack s with
  | [] => bad_stack
  | top :: st =>
      n ← num fRequireMinimal top;
      let nKeysCount := getint n in
      _ ← error_if ((nKeysCount <? 0) || (MAX_PUBKEYS_PER_MULTISIG <? nKeysCount)) SCRIPT_ERR_PUBKEY_COUNT;
      let s := set_nOpCount (nOpCount s + nKeysCount) s in
      _ ← error_if (MAX_OPS_PER_SCRIPT <? nOpCount s) SCRIPT_ERR_OP_COUNT;
      let nKeys := Z.to_nat nKeysCount in
      let keys := take nKeys st in
      match drop nKeys st with
      | [] => bad_stack
      | m :: rest =>
          m ← num fRequireMinimal m;
          let nSigsCount := getint m in
          _ ← error_if ((nSigsCount <? 0) || (nKeysCount <? nSigsCount)) SCRIPT_ERR_SIG_COUNT;
          let nSigs := Z.to_nat nSigsCount in
          if (length rest <=? nSigs)%nat then bad_stack else
          let sigs := take nSigs rest in
          scriptCode ← drop_signatures (pbegincodehash s) sigs;
          fSuccess ← multisig_loop scriptCode keys sigs;
          st ← multisig_cleanup fSuccess (2 + nKeys + nSigs) (nKeys + 2) (stack s);
          match st with
          | [] => bad_stack
          | dummy :: st =>
              _ ← error_if (flag flags SCRIPT_VERIFY_NULLDUMMY && negb (length dummy =? 0)%nat) SCRIPT_ERR_SIG_NULLDUMMY;
              if verify then (if fSuccess : bool then Ret (set_stack st s) else set_error SCRIPT_ERR_CHECKMULTISIGVERIFY)
              else Ret (set_stack (bool_vch fSuccess :: st) s)
          end
      end
  end.

End Signatures.

(** ** Control *)

Section Control.
Context `{Crypto} (checker : BaseSignatureChecker) (flags : Z) (sigversion : SigVersion).

Abbreviation mini := (fRequireMinimal flags).

(** [CTxIn::SEQUENCE_LOCKTIME_DISABLE_FLAG] *)
Definition SEQUENCE_LOCKTIME_DISABLE_FLAG : Z := Z.shiftl 1 31.

Definition op_checklocktimeverify (s : interp) : script_res interp :=
  if negb (flag flags SCRIPT_VERIFY_CHECKLOCKTIMEVERIFY) then Ret s else
  match stack s with
  | [] => bad_stack
  | top :: _ =>
      nLockTime ← CScriptNum top mini 5;
      _ ← error_if (nLockTime <? 0) SCRIPT_ERR_NEGATIVE_LOCKTIME;
      _ ← error_if (negb (checkLockTime checker nLockTime)) SCRIPT_ERR_UNSATISFIED_LOCKTIME;
      Ret s
  end.

Definition op_checksequenceverify (s : interp) : script_res interp :=
  if negb (flag flags SCRIPT_VERIFY_CHECKSEQUENCEVERIFY) then Ret s else
  match stack s with
  | [] => bad_stack
  | top :: _ =>
      nSequence ← CScriptNum top mini 5;
      _ ← error_if (nSequence <? 0) SCRIPT_ERR_NEGATIVE_LOCKTIME;
      if negb (Z.land nSequence SEQUENCE_LOCKTIME_DISABLE_FLAG =? 0) then Ret s else
      _ ← error_if (negb (checkSequence checker nSequence)) SCRIPT_ERR_UNSATISFIED_LOCKTIME;
      Ret s
  end.

(** Neither empty nor exactly the byte 1. *)
Definition not_minimal_if (vch : list Z) : bool :=
  (1 <? length vch)%nat || ((length vch =? 1)%nat && negb (nth 0 vch 0 =? 1)).

(** [OP_IF] and [OP_NOTIF]; inside an inactive branch only the nesting counts. *)
Definition op_if (notif fExec : bool) (s : interp) : script_res interp :=
  if fExec then
    match stack s with
    | [] => set_error SCRIPT_ERR_UNBALANCED_CONDITIONAL
    | vch :: st =>
        _ ← error_if (is_TAPSCRIPT sigversion && not_minimal_if vch) SCRIPT_ERR_TAPSCRIPT_MINIMALIF;
        _ ← error_if (is_WITNESS_V0 sigversion && flag flags SCRIPT_VERIFY_MINIMALIF && not_minimal_if vch) SCRIPT_ERR_MINIMALIF;
        let fValue := if notif then negb (CastToBool vch) else CastToBool vch in
        Ret (set_vfExec (push_back fValue (vfExec s)) (set_stack st s))
    end
  else Ret (set_vfExec (push_back false (vfExec s)) s).

Definition op_else (s : interp) : script_res interp :=
  if cond_empty (vfExec s) then set_error SCRIPT_ERR_UNBALANCED_CONDITIONAL
  else c ← toggle_top (vfExec s); Ret (set_vfExec c s).

Definition op_endif (s : interp) : script_res interp :=
  if cond_empty (vfExec s) then set_error SCRIPT_ERR_UNBALANCED_CONDITIONAL
  else c ← pop_back (vfExec s); Ret (set_vfExec c s).

Definition op_toaltstack (s : interp) : script_res interp :=
  match stack s with
  | [] => bad_stack
  | top :: st => Ret (set_altstack (top :: altstack s) (set_stack st s))
  end.

Definition op_fromaltstack (s : interp) : script_res interp :=
  match altstack s with
  | [] => set_error SCRIPT_ERR_INVALID_ALTSTACK_OPERATION
  | top :: st => Ret (push top (set_altstack st s))
  end.

(** The [switch] over opcodes; [pc] is the rest of the script after this one. *)
Definition exec_opcode (opcode : Z) (fExec : bool) (pc : list Z) (s : interp) : script_res interp :=
  match pure_op mini opcode with
  | Some f => st ← f (stack s); Ret (set_stack st s)
  | None =>
      if opcode =? OP_CHECKLOCKTIMEVERIFY then op_checklocktimeverify s
      else if opcode =? OP_CHECKSEQUENCEVERIFY then op_checksequenceverify s
      else if (opcode =? OP_NOP1) || ((OP_NOP4 <=? opcode) && (opcode <=? OP_NOP10)) then
        _ ← error_if (flag flags SCRIPT_VERIFY_DISCOURAGE_UPGRADABLE_NOPS) SCRIPT_ERR_DISCOURAGE_UPGRADABLE_NOPS; Ret s
      else if opcode =? OP_IF then op_if false fExec s
      else if opcode =? OP_NOTIF then op_if true fExec s
      else if opcode =? OP_ELSE then op_else s
      else if opcode =? OP_ENDIF then op_endif s
      else if opcode =? OP_TOALTSTACK then op_toaltstack s
      else if opcode =? OP_FROMALTSTACK then op_fromaltstack s
      else if opcode =? OP_CODESEPARATOR then
        Ret (set_execdata (set_codeseparator_pos (opcode_pos s) (execdata s)) (set_code pc s))
      else if opcode =? OP_CHECKSIG then op_checksig checker flags sigversion false s
      else if opcode =? OP_CHECKSIGVERIFY then op_checksig checker flags sigversion true s
      else if opcode =? OP_CHECKSIGADD then op_checksigadd checker flags sigversion s
      else if opcode =? OP_CHECKMULTISIG then op_checkmultisig checker flags sigversion false s
      else if opcode =? OP_CHECKMULTISIGVERIFY then op_checkmultisig checker flags sigversion true s
      else set_error SCRIPT_ERR_BAD_OPCODE
  end.

(** The limit on opcodes above [OP_16], outside Tapscript. *)
Definition count_op (opcode : Z) (s : interp) : script_res interp :=
  if (is_BASE sigversion || is_WITNESS_V0 sigversion) && (OP_16 <? opcode) then
    let s := set_nOpCount (nOpCount s + 1) s in
    _ ← error_if (MAX_OPS_PER_SCRIPT <? nOpCount s) SCRIPT_ERR_OP_COUNT;
    Ret s
  else Ret s.

(** One turn of the loop: read an instruction, execute it, check the limits. *)
Definition eval_step (pc : list Z) (s : interp) : script_res (list Z * interp) :=
  let fExec := all_true (vfExec s) in
  let '(ok, opcode, vchPushValue, pc) := GetScriptOp pc in
  _ ← error_if (negb ok) SCRIPT_ERR_BAD_OPCODE;
  _ ← error_if (MAX_SCRIPT_ELEMENT_SIZE <? length vchPushValue)%nat SCRIPT_ERR_PUSH_SIZE;
  s ← count_op opcode s;
  _ ← error_if (disabled_opcode opcode) SCRIPT_ERR_DISABLED_OPCODE;
  _ ← error_if ((opcode =? OP_CODESEPARATOR) && is_BASE sigversion && flag flags SCRIPT_VERIFY_CONST_SCRIPTCODE)
        SCRIPT_ERR_OP_CODESEPARATOR;
  s ← (if fExec && (opcode <=? OP_PUSHDATA4) then
         _ ← error_if (mini && negb (CheckMinimalPush vchPushValue opcode)) SCRIPT_ERR_MINIMALDATA;
         Ret (push vchPushValue s)
       else if fExec || ((OP_IF <=? opcode) && (opcode <=? OP_ENDIF)) then exec_opcode opcode fExec pc s
       else Ret s);
  _ ← error_if (MAX_STACK_SIZE <? length (stack s) + length (altstack s))%nat SCRIPT_ERR_STACK_SIZE;
  Ret (pc, next_pos s).

(** Every turn consumes a byte, so the length of the script is enough fuel. *)
Fixpoint eval_loop (fuel : nat) (pc : list Z) (s : interp) : script_res interp :=
  match pc, fuel with
  | [], _ => Ret s
  | _, O => Abort
  | _, S fuel => '(pc, s) ← eval_step pc s; eval_loop fuel pc s
  end.

Definition eval_start (st : list (list Z)) (script : list Z) (x : ScriptExecutionData) : interp := {|
  stack := st; altstack := []; vfExec := cond_init; nOpCount := 0; pbegincodehash := script; opcode_pos := 0;
  execdata := set_codeseparator_pos 0xffffffff x
|}.

(** An error that the loop leaves untouched is the one set at the start. *)
Definition unknown_by_default {A} (m : script_res A) : script_res A :=
  match m with Err None => set_error SCRIPT_ERR_UNKNOWN_ERROR | _ => m end.

Definition EvalScript (st : list (list Z)) (script : list Z) (x : ScriptExecutionData) :
    script_res (list (list Z) * ScriptExecutionData) :=
  _ ← script_assert (negb (is_TAPROOT sigversion));
  _ ← error_if ((is_BASE sigversion || is_WITNESS_V0 sigversion) && (MAX_SCRIPT_SIZE <? Z.of_nat (length script)))
        SCRIPT_ERR_SCRIPT_SIZE;
  s ← unknown_by_default (eval_loop (length script) script (eval_start st script x));
  _ ← error_if (negb (cond_empty (vfExec s))) SCRIPT_ERR_UNBALANCED_CONDITIONAL;
  Ret (stack s, execdata s).

End Control.
