(* ===== verification/CondStack.v ===== *)
(** * The condition stack is a stack of booleans

    The interpreter does not keep the values of the open conditionals, only how
    many there are and where the first false one is ([ConditionStack] in
    [script/interpreter.cpp]).  It simulates the stack of booleans it stands for. *)

From S2P Require Import Prelude Digits Bytes ScriptError NodeScript ScriptNum Interpreter.

Open Scope Z_scope.
Open Scope list_scope.

(** What the interpreter does to the stack. *)
Inductive cond_op : Type := CPush (f : bool) | CPop | CToggle.

(** ** The specification: a vector, its last element first *)

Definition vec_op (o : cond_op) (l : list bool) : option (list bool) :=
  match o, l with
  | CPush f, _ => Some (f :: l)
  | CPop, _ :: l => Some l
  | CToggle, b :: l => Some (negb b :: l)
  | _, [] => None
  end.

Fixpoint vec_run (ops : list cond_op) (l : list bool) : option (list bool) :=
  match ops with [] => Some l | o :: ops => vec_op o l ≫= vec_run ops end.

(** ** The implementation *)

Definition cond_step (o : cond_op) (c : ConditionStack) : script_res ConditionStack :=
  match o with CPush f => Ret (push_back f c) | CPop => pop_back c | CToggle => toggle_top c end.

Fixpoint cond_run (ops : list cond_op) (c : ConditionStack) : script_res ConditionStack :=
  match ops with [] => Ret c | o :: ops => cond_step o c ≫= cond_run ops end.

(** ** Simulation *)

(** The position of the first false value, from the bottom. *)
Fixpoint first_false (l : list bool) : option Z :=
  match l with
  | [] => None
  | b :: l => match first_false l with Some p => Some p | None => if b then None else Some (Z.of_nat (length l)) end
  end.

Lemma first_false_lt l p : first_false l = Some p -> 0 <= p < Z.of_nat (length l).
Proof.
  revert p. induction l as [|b l IH]; intros p Hp; [done|]. cbn [first_false] in Hp. cbn [length].
  destruct (first_false l) as [q|]; [specialize (IH q eq_refl); simplify_eq; lia|]. destruct b; [done|]. simplify_eq. lia.
Qed.

Lemma first_false_none l : first_false l = None <-> forallb id l = true.
Proof.
  induction l as [|b l IH]; [done|]. cbn [first_false forallb]. destruct (first_false l), b; cbn [id andb]; rewrite ?andb_true_iff; naive_solver.
Qed.

Definition stands_for (c : ConditionStack) (l : list bool) : Prop :=
  m_stack_size c = Z.of_nat (length l) /\ m_first_false_pos c = default NO_FALSE (first_false l).

Lemma u32_small z : 0 <= z <= NO_FALSE -> u32 z = z.
Proof. unfold u32, NO_FALSE. intros. apply Z.mod_small. lia. Qed.

Lemma step_simulates o c l :
  stands_for c l -> Z.of_nat (length l) < NO_FALSE ->
  match vec_op o l with
  | Some l' => exists c', cond_step o c = Ret c' /\ stands_for c' l'
  | None => cond_step o c = Abort
  end.
Proof.
  intros [Hs Hp] Hl. destruct c as [size pos]. cbn in Hs, Hp. subst size pos. assert (NO_FALSE = 0xffffffff) as Hmax by done.
  destruct o as [f| |].
  - eexists. split; [done|]. unfold push_back, stands_for. cbn [m_stack_size m_first_false_pos length first_false].
    rewrite u32_small by lia. split; [lia|]. destruct (first_false l) as [p|] eqn:E; cbn [default from_option id].
    + apply first_false_lt in E. by rewrite (proj2 (Z.eqb_neq p NO_FALSE)) by lia.
    + by destruct f.
  - destruct l as [|b l]; [done|]. cbn [length] in *. cbn [cond_step]. unfold pop_back. cbn [m_stack_size m_first_false_pos].
    rewrite (proj2 (Z.ltb_lt _ _)) by lia. cbn [script_assert mbind script_res_bind]. eexists. split; [done|].
    rewrite u32_small by lia. replace (Z.of_nat (S (length l)) - 1) with (Z.of_nat (length l)) by lia. split; [done|].
    cbn [m_first_false_pos first_false]. destruct (first_false l) as [p|] eqn:E; cbn [default from_option id].
    + apply first_false_lt in E. by rewrite (proj2 (Z.eqb_neq p _)) by lia.
    + destruct b; cbn [default from_option id]; [|by rewrite Z.eqb_refl]. by rewrite (proj2 (Z.eqb_neq _ _)) by lia.
  - destruct l as [|b l]; [done|]. cbn [length] in *. cbn [cond_step]. unfold toggle_top. cbn [m_stack_size m_first_false_pos].
    rewrite (proj2 (Z.ltb_lt _ _)) by lia. cbn [script_assert mbind script_res_bind]. eexists. split; [done|].
    rewrite u32_small by lia. replace (Z.of_nat (S (length l)) - 1) with (Z.of_nat (length l)) by lia. split; [done|].
    cbn [m_first_false_pos first_false]. destruct (first_false l) as [p|] eqn:E; cbn [default from_option id].
    + apply first_false_lt in E. by rewrite !(proj2 (Z.eqb_neq p _)) by lia.
    + destruct b; cbn [negb default from_option id]; [by rewrite Z.eqb_refl|].
      rewrite (proj2 (Z.eqb_neq _ NO_FALSE)) by lia. by rewrite Z.eqb_refl.
Qed.

Lemma vec_op_length o l l' : vec_op o l = Some l' -> (length l' <= S (length l))%nat.
Proof. destruct o, l; intros [= <-]; cbn; lia. Qed.

Lemma run_simulates ops c l :
  stands_for c l -> Z.of_nat (length l + length ops) <= NO_FALSE ->
  match vec_run ops l with
  | Some l' => (length l' <= length l + length ops)%nat /\ exists c', cond_run ops c = Ret c' /\ stands_for c' l'
  | None => cond_run ops c = Abort
  end.
Proof.
  revert c l. induction ops as [|o ops IH]; intros c l Hc Hl; [split; [cbn; lia|by exists c]|]. cbn [length] in Hl.
  pose proof (step_simulates o c l Hc ltac:(lia)) as Hstep. cbn [vec_run cond_run].
  destruct (vec_op o l) as [l'|] eqn:Eo; [|by rewrite Hstep]. destruct Hstep as (c' & -> & Hc').
  apply vec_op_length in Eo. specialize (IH c' l' Hc' ltac:(lia)). cbn [mbind option_bind script_res_bind length].
  destruct (vec_run ops l'); [|done]. destruct IH as [? ?]. split; [lia|done].
Qed.

(** C24: Over any sequence of pushes, pops and toggles shorter than [2^32], the
    size and the position of the first false value that the interpreter keeps
    give the same answers as the vector of booleans they stand for: the stack is
    empty at the same time, holds only true values at the same time, and a pop or
    a toggle of nothing fails exactly there. *)
Theorem condition_stack_refines_vector ops :
  Z.of_nat (length ops) <= NO_FALSE ->
  match vec_run ops [] with
  | Some l => exists c, cond_run ops cond_init = Ret c /\
      cond_empty c = bool_decide (l = []) /\ all_true c = forallb id l
  | None => cond_run ops cond_init = Abort
  end.
Proof.
  intros Hl. pose proof (run_simulates ops cond_init [] ltac:(done) Hl) as Hrun. destruct (vec_run ops []) as [l|]; [|done].
  destruct Hrun as (Hlen & c & Hc & Hsize & Hpos). cbn [length] in Hlen. exists c. split; [done|]. unfold cond_empty, all_true. rewrite Hsize, Hpos. split.
  - destruct l; [done|]. cbn [length]. by rewrite bool_decide_false, (proj2 (Z.eqb_neq _ _)) by (done || lia).
  - destruct (first_false l) as [p|] eqn:E.
    + pose proof (first_false_lt _ _ E) as Hp. cbn. assert (forallb id l = false) as ->.
      { apply not_true_iff_false. intros Hall%first_false_none. by rewrite E in Hall. }
      apply Z.eqb_neq. lia.
    + cbn. by rewrite (proj1 (first_false_none l) E).
Qed.

(** [IF ELSE ENDIF] around a nested [IF] that is never taken. *)
Lemma condition_stack_refines_vector_witness :
  exists c, cond_run [CPush false; CPush false; CPop; CToggle] cond_init = Ret c /\ cond_empty c = false /\ all_true c = true.
Proof. apply (condition_stack_refines_vector [CPush false; CPush false; CPop; CToggle]). by vm_compute. Defined.
