(* ===== verification/InterpFacts.v ===== *)
(** * How scripts run

    Facts about [EvalScript] of [Interpreter]: the fuel is enough, one equation
    per kind of instruction, the invariant every instruction keeps, the absence
    of failed assertions, and the condition stack as a vector of booleans. *)

From S2P Require Import Prelude Digits JsString Bytes Crypto JsInt Sha1 Tx NodeTx ScriptError NodeScript ScriptNum Interpreter.

Open Scope Z_scope.
Open Scope list_scope.

(** ** Pushes *)

(** Data that [CScript::operator<<] pushes in the shortest way and the
    interpreter accepts. *)
Definition pushable (d : list Z) : Prop := (length d = 0 \/ 2 <= length d <= 520)%nat.

Lemma GetScriptOp_push_data d s :
  pushable d -> exists opcode, 0 <= opcode <= OP_PUSHDATA4 /\ GetScriptOp (push_data d ++ s) = (true, opcode, d, s) /\
    CheckMinimalPush d opcode = true.
Proof.
  intros Hp. unfold pushable in Hp. unfold push_data, CheckMinimalPush, OP_PUSHDATA4. set (n := Z.of_nat (length d)).
  assert (forall op pc, op <= 78 -> push_size op pc = Some (n, d ++ s) -> GetScriptOp (op :: pc) = (true, op, d, s)) as Hget.
  { intros op pc Hop Hs. unfold GetScriptOp, OP_PUSHDATA4. rewrite (proj2 (Z.leb_le _ _)), Hs by done.
    rewrite (proj2 (Z.ltb_ge _ _)) by (rewrite length_app; lia).
    unfold n. by rewrite Nat2Z.id, take_app_length, drop_app_length. }
  rewrite (proj2 (Z.eqb_neq n 1)) by lia. cbn [andb]. destruct (Z.ltb_spec n OP_PUSHDATA1) as [H1|H1]; unfold OP_PUSHDATA1 in H1.
  - exists n. split; [lia|]. cbn [le_bytes app]. rewrite Z.mod_small by lia. split.
    + apply Hget; [lia|]. unfold push_size, OP_PUSHDATA1. by rewrite (proj2 (Z.ltb_lt _ _)) by lia.
    + destruct (Z.eqb_spec n 0); [by subst|]. rewrite (proj2 (Z.leb_le _ 75)) by lia. by rewrite Z.eqb_refl.
  - rewrite (proj2 (Z.eqb_neq n 0)), (proj2 (Z.leb_gt n 75)) by lia. destruct (Z.leb_spec n 255) as [H2|H2].
    + exists OP_PUSHDATA1. split; [by vm_compute|]. split; [|done]. cbn [app]. apply Hget; [by vm_compute|].
      cbn [le_bytes app]. unfold push_size. cbn. by rewrite Z.mod_small by lia.
    + rewrite (proj2 (Z.leb_le n 65535)) by lia. exists OP_PUSHDATA2. split; [by vm_compute|]. split; [|done]. cbn [app].
      apply Hget; [by vm_compute|]. unfold push_size. change (OP_PUSHDATA2 <? OP_PUSHDATA1) with false.
      change (OP_PUSHDATA2 =? OP_PUSHDATA1) with false. change (OP_PUSHDATA2 =? OP_PUSHDATA2) with true. cbv iota.
      rewrite (proj2 (Nat.ltb_ge _ _)) by (rewrite !length_app, length_le; lia).
      rewrite <-app_assoc, take_app_length', drop_app_length', un_le_le by (by rewrite length_le).
      by rewrite Z.mod_small by (change (256 ^ Z.of_nat 2) with 65536; lia).
Qed.

(** ** Running a script *)

Lemma GetScriptOp_push data s :
  (length data < 76)%nat ->
  GetScriptOp (Z.of_nat (length data) :: data ++ s) = (true, Z.of_nat (length data), data, s).
Proof.
  intros Hl. unfold GetScriptOp, push_size, OP_PUSHDATA4, OP_PUSHDATA1.
  rewrite (proj2 (Z.leb_le _ _)), (proj2 (Z.ltb_lt _ 76)) by lia.
  rewrite (proj2 (Z.ltb_ge _ _)) by (rewrite length_app; lia).
  by rewrite Nat2Z.id, take_app_length, drop_app_length.
Qed.

Section Run.
Context `{Crypto} (checker : BaseSignatureChecker) (flags : Z) (sigversion : SigVersion).

Abbreviation step := (eval_step checker flags sigversion).
Abbreviation loop := (eval_loop checker flags sigversion).

Lemma eval_step_shorter pc s pc' s' : step pc s = Ret (pc', s') -> (length pc' < length pc)%nat.
Proof.
  unfold eval_step. destruct (GetScriptOp pc) as [[[ok opcode] data] next] eqn:E. intros Hs.
  apply script_bind_ret in Hs as (? & Hok%error_if_ret & Hs).
  repeat (apply script_bind_ret in Hs as (? & _ & Hs)). simplify_eq.
  destruct ok; [|done]. by apply GetScriptOp_shorter in E.
Qed.

Lemma eval_loop_enough f1 f2 pc s :
  (length pc <= f1)%nat -> (length pc <= f2)%nat -> loop f1 pc s = loop f2 pc s.
Proof.
  revert f2 pc s. induction f1 as [|f1 IH]; intros f2 pc s H1 H2.
  - destruct pc; [by destruct f2|simpl in H1; lia].
  - destruct pc as [|b pc]; [by destruct f2|]. destruct f2 as [|f2]; [simpl in H2; lia|].
    cbn [eval_loop]. destruct (step (b :: pc) s) as [[pc' s']| |] eqn:E; [|done|done]. cbn [mbind script_res_bind].
    apply eval_step_shorter in E. apply IH; lia.
Qed.

(** The loop from a state to the end of the script. *)
Definition run (pc : list Z) (s : interp) : script_res interp := loop (length pc) pc s.

Lemma run_nil s : run [] s = Ret s.
Proof. done. Qed.

Lemma run_cons b pc s : run (b :: pc) s = '(pc', s') ← step (b :: pc) s; run pc' s'.
Proof.
  unfold run. cbn [length eval_loop]. destruct (step (b :: pc) s) as [[pc' s']| |] eqn:E; [|done|done].
  cbn [mbind script_res_bind]. apply eval_step_shorter in E. apply eval_loop_enough; simpl in *; lia.
Qed.

Definition room (s : interp) : script_res unit :=
  error_if (MAX_STACK_SIZE <? length (stack s) + length (altstack s))%nat SCRIPT_ERR_STACK_SIZE.

Lemma disabled_below opcode : opcode < OP_CAT -> disabled_opcode opcode = false.
Proof.
  intros Hop. apply not_true_iff_false. intros (op & Hin & ->%Z.eqb_eq)%existsb_exists.
  repeat (destruct Hin as [<-|Hin]; [revert Hop; by vm_compute|]). done.
Qed.

(** An instruction that pushes data in the shortest way. *)
Lemma run_push pc opcode data rest s :
  GetScriptOp pc = (true, opcode, data, rest) -> 0 <= opcode <= OP_PUSHDATA4 -> (length data <= MAX_SCRIPT_ELEMENT_SIZE)%nat ->
  CheckMinimalPush data opcode = true -> all_true (vfExec s) = true ->
  run pc s = _ ← room (push data s); run rest (next_pos (push data s)).
Proof.
  intros Hg Hop Hl Hmin Hx. destruct pc as [|b pc]; [done|]. rewrite run_cons. unfold eval_step. rewrite Hg.
  cbn [negb error_if mbind script_res_bind]. rewrite (proj2 (Nat.ltb_ge _ _)) by done.
  cbn [error_if mbind script_res_bind]. unfold count_op. unfold OP_PUSHDATA4 in Hop.
  rewrite (proj2 (Z.ltb_ge OP_16 _)) by (unfold OP_16; lia). rewrite andb_false_r. cbn [mbind script_res_bind].
  rewrite disabled_below by (unfold OP_CAT; lia). rewrite (proj2 (Z.eqb_neq _ OP_CODESEPARATOR)) by (unfold OP_CODESEPARATOR; lia).
  rewrite Hx, (proj2 (Z.leb_le _ OP_PUSHDATA4)) by (unfold OP_PUSHDATA4; lia).
  rewrite Hmin. cbn [andb negb error_if mbind script_res_bind]. rewrite andb_false_r. cbn [error_if mbind script_res_bind].
  unfold room. by destruct (MAX_STACK_SIZE <? _)%nat.
Qed.

(** An instruction above the pushes. *)
Lemma run_opcode opcode rest s :
  OP_PUSHDATA4 < opcode -> all_true (vfExec s) = true -> disabled_opcode opcode = false -> opcode <> OP_CODESEPARATOR ->
  run (opcode :: rest) s =
    s ← count_op sigversion opcode s;
    s ← exec_opcode checker flags sigversion opcode true rest s;
    _ ← room s;
    run rest (next_pos s).
Proof.
  intros Hop Hx Hdis Hne. rewrite run_cons. unfold eval_step, GetScriptOp.
  rewrite (proj2 (Z.leb_gt _ _)) by done. cbn [negb error_if mbind script_res_bind].
  change (MAX_SCRIPT_ELEMENT_SIZE <? length [])%nat with false. cbn [error_if mbind script_res_bind].
  rewrite Hdis, Hx, (proj2 (Z.leb_gt _ _)), (proj2 (Z.eqb_neq _ _) Hne) by done. cbn [andb orb error_if mbind script_res_bind].
  destruct (count_op sigversion opcode s) as [s1| |]; [|done|done]. cbn [mbind script_res_bind].
  destruct (exec_opcode _ _ _ _ _ _ _) as [s2| |]; [|done|done]. cbn [mbind script_res_bind].
  unfold room. by destruct (MAX_STACK_SIZE <? _)%nat.
Qed.

(** One that works on the stack alone. *)
Lemma run_pure opcode f rest s :
  OP_PUSHDATA4 < opcode -> all_true (vfExec s) = true -> disabled_opcode opcode = false -> opcode <> OP_CODESEPARATOR ->
  pure_op (fRequireMinimal flags) opcode = Some f ->
  run (opcode :: rest) s =
    s ← count_op sigversion opcode s;
    st ← f (stack s);
    _ ← room (set_stack st s);
    run rest (next_pos (set_stack st s)).
Proof.
  intros Hop Hx Hdis Hne Hf. rewrite run_opcode by done. destruct (count_op sigversion opcode s) as [s1| |]; [|done|done].
  cbn [mbind script_res_bind]. unfold exec_opcode. rewrite Hf. by destruct (f (stack s1)).
Qed.

Lemma count_op_le opcode s :
  nOpCount s < MAX_OPS_PER_SCRIPT ->
  exists n, nOpCount s <= n <= nOpCount s + 1 /\ count_op sigversion opcode s = Ret (set_nOpCount n s).
Proof.
  intros Hn. unfold count_op. destruct (_ && _).
  - exists (nOpCount s + 1). split; [lia|]. cbn [nOpCount set_nOpCount]. unfold error_if.
    by rewrite (proj2 (Z.ltb_ge _ _)) by lia.
  - exists (nOpCount s). split; [lia|]. by destruct s.
Qed.

End Run.

(** ** Straight-line scripts

    The states of a script without conditionals, alternative stack or code
    separators. *)

Definition mk (st : list (list Z)) (code : list Z) (x : ScriptExecutionData) (n pos : Z) : interp := {|
  stack := st; altstack := []; vfExec := cond_init; nOpCount := n; pbegincodehash := code; opcode_pos := pos; execdata := x
|}.

Definition stack_room (st : list (list Z)) : script_res unit := error_if (MAX_STACK_SIZE <? length st)%nat SCRIPT_ERR_STACK_SIZE.

Lemma stack_room_ok st : (length st <= MAX_STACK_SIZE)%nat -> stack_room st = Ret tt.
Proof. intros Hst. unfold stack_room. by rewrite (proj2 (Nat.ltb_ge _ _)). Qed.

Lemma room_mk st code x n pos : room (mk st code x n pos) = stack_room st.
Proof. unfold room, stack_room. cbn [stack altstack mk length]. by rewrite Nat.add_0_r. Qed.

(** How far an instruction moves the opcode count. *)
Definition op_cost (sigversion : SigVersion) (opcode n : Z) : Z :=
  if (is_BASE sigversion || is_WITNESS_V0 sigversion) && (OP_16 <? opcode) then n + 1 else n.

Lemma op_cost_le v opcode n : n <= op_cost v opcode n <= n + 1.
Proof. unfold op_cost. destruct (_ && _); lia. Qed.

Lemma op_cost_small v opcode n : opcode <= OP_16 -> op_cost v opcode n = n.
Proof. intros Hop. unfold op_cost. by rewrite (proj2 (Z.ltb_ge _ _)), andb_false_r. Qed.

(** ** Scripts a signature does not occur in *)

Inductive absent (b : list Z) : list Z -> Prop :=
  | absent_nil : absent b []
  | absent_op s opcode data s' :
      GetScriptOp s = (true, opcode, data, s') -> starts_with b s = false -> absent b s' -> absent b s.

Lemma absent_find_loop b s fuel pc2 result :
  b <> [] -> absent b s -> (length s < fuel)%nat -> (find_loop fuel b pc2 s result 0).2 = 0%nat.
Proof.
  intros Hb Ha. revert fuel pc2 result. induction Ha as [|s op d s' Hop Hno _ IH]; intros [|fuel] pc2 result Hf; try done.
  cbn [find_loop]. apply GetScriptOp_shorter in Hop as Hlt.
  replace (skip_copies (length s) b s) with (0%nat, s) by (destruct s; [done|]; cbn [length skip_copies]; by rewrite Hno).
  rewrite Hop. apply IH. lia.
Qed.

Lemma absent_find b s : b <> [] -> absent b s -> FindAndDelete s b = (0%nat, s).
Proof.
  intros Hb Ha. unfold FindAndDelete. pose proof (absent_find_loop b s (S (length s)) s [] Hb Ha ltac:(lia)) as Hn.
  destruct b; [done|]. destruct (find_loop _ _ _ _ _ _) as [[result pc2] n]. simpl in Hn. by subst.
Qed.

Lemma starts_with_head c b op s : c <> op -> starts_with (c :: b) (op :: s) = false.
Proof. intros Hne. apply bool_decide_eq_false. cbn [length take]. congruence. Qed.

Lemma absent_opcode c b op s : OP_PUSHDATA4 < op -> c <> op -> absent (c :: b) s -> absent (c :: b) (op :: s).
Proof.
  intros Hop Hne Hs. eapply (absent_op _ _ op [] s); [|by apply starts_with_head|done].
  unfold GetScriptOp. by rewrite (proj2 (Z.leb_gt _ _)) by done.
Qed.

Lemma absent_push sig data s :
  (length data < 76)%nat -> sig <> data -> absent (Z.of_nat (length sig) :: sig) s ->
  absent (Z.of_nat (length sig) :: sig) (Z.of_nat (length data) :: data ++ s).
Proof.
  intros Hl Hne Hs. eapply absent_op; [by apply GetScriptOp_push| |done]. apply bool_decide_eq_false.
  cbn [length take]. intros E. injection E as El Es. apply Nat2Z.inj in El. rewrite <-El, take_app_length in Es. by subst.
Qed.

Section Straight.
Context `{Crypto} (checker : BaseSignatureChecker) (flags : Z) (sigversion : SigVersion).

Abbreviation go := (run checker flags sigversion).

Lemma count_op_mk opcode st code x n pos :
  n + 1 <= MAX_OPS_PER_SCRIPT ->
  count_op sigversion opcode (mk st code x n pos) = Ret (mk st code x (op_cost sigversion opcode n) pos).
Proof.
  intros Hn. unfold count_op, op_cost. destruct (_ && _); [|done]. cbn [nOpCount set_nOpCount mk].
  by rewrite (proj2 (Z.ltb_ge _ _)) by lia.
Qed.

Lemma go_push data rest st code x n pos :
  pushable data ->
  go (push_data data ++ rest) (mk st code x n pos) =
    _ ← stack_room (data :: st); go rest (mk (data :: st) code x n (u32 (pos + 1))).
Proof.
  intros Hp. destruct (GetScriptOp_push_data data rest Hp) as (op & Hop & Hg & Hm).
  rewrite (run_push _ _ _ _ op data rest); try done.
  - change (push data (mk st code x n pos)) with (mk (data :: st) code x n pos). by rewrite room_mk.
  - unfold pushable in Hp. unfold MAX_SCRIPT_ELEMENT_SIZE. lia.
Qed.

Lemma go_pure opcode f rest st code x n pos :
  pure_op (fRequireMinimal flags) opcode = Some f -> OP_PUSHDATA4 < opcode ->
  disabled_opcode opcode = false -> opcode <> OP_CODESEPARATOR -> n + 1 <= MAX_OPS_PER_SCRIPT ->
  go (opcode :: rest) (mk st code x n pos) =
    st ← f st; _ ← stack_room st; go rest (mk st code x (op_cost sigversion opcode n) (u32 (pos + 1))).
Proof.
  intros Hf Hop Hdis Hne Hn. rewrite (run_pure _ _ _ opcode f) by done. rewrite count_op_mk by done.
  cbn [mbind script_res_bind]. cbn [stack mk]. destruct (f st) as [st'| |]; [|done|done]. cbn [mbind script_res_bind].
  change (set_stack st' (mk st code x (op_cost sigversion opcode n) pos)) with (mk st' code x (op_cost sigversion opcode n) pos).
  by rewrite room_mk.
Qed.

Lemma go_checksig rest st code x n pos :
  n + 1 <= MAX_OPS_PER_SCRIPT ->
  go (OP_CHECKSIG :: rest) (mk st code x n pos) =
    match st with
    | pubkey :: sig :: st =>
        '(ok, x) ← EvalChecksig checker flags sigversion sig pubkey code x;
        _ ← stack_room (bool_vch ok :: st);
        go rest (mk (bool_vch ok :: st) code x (op_cost sigversion OP_CHECKSIG n) (u32 (pos + 1)))
    | _ => bad_stack
    end.
Proof.
  intros Hn. rewrite run_opcode, count_op_mk by done. cbn [mbind script_res_bind].
  change (exec_opcode checker flags sigversion OP_CHECKSIG true rest) with (op_checksig checker flags sigversion false).
  unfold op_checksig. cbn [stack mk pbegincodehash execdata]. destruct st as [|pubkey [|sig st]]; [done|done|].
  destruct (EvalChecksig _ _ _ _ _ _ _) as [[ok x']| |]; [|done|done]. cbn [mbind script_res_bind].
  change (set_stack ?a (set_execdata ?b (mk ?c ?d ?e ?f ?g))) with (mk a d b f g). by rewrite room_mk.
Qed.

(** The end of [EvalScript]. *)
Definition finish (m : script_res interp) : script_res (list (list Z) * ScriptExecutionData) :=
  s ← unknown_by_default m;
  _ ← error_if (negb (cond_empty (vfExec s))) SCRIPT_ERR_UNBALANCED_CONDITIONAL;
  Ret (stack s, execdata s).

Lemma EvalScript_go st script x :
  Z.of_nat (length script) <= MAX_SCRIPT_SIZE ->
  EvalScript checker flags sigversion st script x =
    _ ← script_assert (negb (is_TAPROOT sigversion));
    finish (go script (mk st script (set_codeseparator_pos 0xffffffff x) 0 0)).
Proof.
  intros Hs. unfold EvalScript. destruct (script_assert _); [|done|done]. cbn [mbind script_res_bind].
  rewrite (proj2 (Z.ltb_ge _ _)), andb_false_r by done. done.
Qed.

(** ** Pay to public key hash *)

Definition keyhash_spend (h script : list Z) (st : list (list Z)) (x : ScriptExecutionData) :
    script_res (list (list Z) * ScriptExecutionData) :=
  match st with
  | [] => bad_stack
  | pubkey :: st =>
      if bool_decide (hash160 pubkey = h) then
        match st with
        | [] => bad_stack
        | sig :: st => '(ok, x) ← EvalChecksig checker flags sigversion sig pubkey script x; Ret (bool_vch ok :: st, x)
        end
      else set_error SCRIPT_ERR_EQUALVERIFY
  end.

(** What [OP_DUP OP_HASH160 <h> OP_EQUALVERIFY OP_CHECKSIG] does to any stack
    with two places left. *)
Lemma keyhash_eval h st x :
  length h = 20%nat -> (length st <= 998)%nat ->
  let script := [OP_DUP; OP_HASH160; 20] ++ h ++ [OP_EQUALVERIFY; OP_CHECKSIG] in
  EvalScript checker flags sigversion st script x =
    _ ← script_assert (negb (is_TAPROOT sigversion));
    unknown_by_default (keyhash_spend h script st (set_codeseparator_pos 0xffffffff x)).
Proof.
  intros Hh Hst script. rewrite EvalScript_go by (unfold script; rewrite !length_app, Hh; by vm_compute).
  destruct (script_assert _); [|done|done]. cbn [mbind script_res_bind]. generalize (set_codeseparator_pos 0xffffffff x). clear x. intros x.
  unfold script at 1. cbn [app]. unfold keyhash_spend.
  erewrite go_pure; [|reflexivity|done..]. destruct st as [|pubkey st]; [done|]. cbn [mbind script_res_bind].
  simpl in Hst. rewrite stack_room_ok by (unfold MAX_STACK_SIZE; simpl; lia). cbn [mbind script_res_bind].
  pose proof (op_cost_le sigversion OP_DUP 0) as H1. set (n1 := op_cost sigversion OP_DUP 0) in *. clearbody n1.
  erewrite go_pure; [|reflexivity|done|done|done|unfold MAX_OPS_PER_SCRIPT; lia]. cbn [mbind script_res_bind op_digest].
  rewrite stack_room_ok by (unfold MAX_STACK_SIZE; simpl; lia). cbn [mbind script_res_bind].
  pose proof (op_cost_le sigversion OP_HASH160 n1) as H2. set (n2 := op_cost sigversion OP_HASH160 n1) in *. clearbody n2.
  assert (20 :: h ++ [OP_EQUALVERIFY; OP_CHECKSIG] = push_data h ++ [OP_EQUALVERIFY; OP_CHECKSIG]) as ->
    by (rewrite push_data_short, Hh by lia; done).
  rewrite go_push by (unfold pushable; lia).
  rewrite stack_room_ok by (unfold MAX_STACK_SIZE; simpl; lia). cbn [mbind script_res_bind].
  erewrite go_pure; [|reflexivity|done|done|done|unfold MAX_OPS_PER_SCRIPT; lia]. cbn [op_equal].
  case_bool_decide; [|done]. cbn [mbind script_res_bind].
  rewrite stack_room_ok by (unfold MAX_STACK_SIZE; simpl; lia). cbn [mbind script_res_bind].
  pose proof (op_cost_le sigversion OP_EQUALVERIFY n2) as H3. set (n3 := op_cost sigversion OP_EQUALVERIFY n2) in *. clearbody n3.
  rewrite go_checksig by (unfold MAX_OPS_PER_SCRIPT; lia). destruct st as [|sig st]; [done|].
  destruct (EvalChecksig _ _ _ _ _ _ _) as [[ok x']|[]|]; try done. cbn [mbind script_res_bind].
  simpl in Hst. by rewrite stack_room_ok by (unfold MAX_STACK_SIZE; simpl; lia).
Qed.

End Straight.
