(* ===== verification/Verify.v ===== *)
(** * Verifying an input

    [firstislamiccoin-core/src/script/interpreter.cpp]: [VerifyScript], witness
    programs and Taproot commitments (lines 1386-2091), and the transaction
    signature checker with its hash cache; [IsWitnessProgram] and [IsOpSuccess]
    of [script/script.cpp]; the x-only keys of [pubkey.cpp].  The operations of
    libsecp256k1 are the parameters of [NodeScript]. *)

From S2P Require Import Prelude Digits JsString Bytes Crypto JsInt Tx NodeTx ScriptError NodeScript ScriptNum Interpreter.

Open Scope Z_scope.
Open Scope list_scope.

(** ** Programs *)

Definition byte0 (l : list Z) : Z := nth 0 l 0.

Definition DecodeOP_N (opcode : Z) : Z := if opcode =? 0 then 0 else opcode - (OP_1 - 1).

Definition IsWitnessProgram (script : list Z) : option (Z * list Z) :=
  if (length script <? 4)%nat || (42 <? length script)%nat then None
  else if negb (byte0 script =? 0) && ((byte0 script <? OP_1) || (OP_16 <? byte0 script)) then None
  else if nth 1 script 0 + 2 =? Z.of_nat (length script) then Some (DecodeOP_N (byte0 script), drop 2 script)
  else None.

Definition IsOpSuccess (opcode : Z) : bool :=
  (opcode =? 80) || (opcode =? 98) || ((126 <=? opcode) && (opcode <=? 129)) ||
  ((131 <=? opcode) && (opcode <=? 134)) || ((137 <=? opcode) && (opcode <=? 138)) ||
  ((141 <=? opcode) && (opcode <=? 142)) || ((149 <=? opcode) && (opcode <=? 153)) ||
  ((187 <=? opcode) && (opcode <=? 254)).

Definition WITNESS_V0_SCRIPTHASH_SIZE : nat := 32.
Definition WITNESS_V0_KEYHASH_SIZE : nat := 20.
Definition WITNESS_V1_TAPROOT_SIZE : nat := 32.
Definition TAPROOT_LEAF_MASK : Z := 0xfe.
Definition TAPROOT_LEAF_TAPSCRIPT : Z := 0xc0.
Definition TAPROOT_CONTROL_BASE_SIZE : nat := 33.
Definition TAPROOT_CONTROL_NODE_SIZE : nat := 32.
Definition TAPROOT_CONTROL_MAX_NODE_COUNT : nat := 128.
Definition TAPROOT_CONTROL_MAX_SIZE : nat :=
  TAPROOT_CONTROL_BASE_SIZE + TAPROOT_CONTROL_NODE_SIZE * TAPROOT_CONTROL_MAX_NODE_COUNT.
Definition ANNEX_TAG : Z := 0x50.
Definition VALIDATION_WEIGHT_OFFSET : Z := 50.

(** Vectors compared byte by byte, as [std::lexicographical_compare] does. *)
Fixpoint lex_less (a b : list Z) : bool :=
  match a, b with
  | _, [] => false
  | [], _ => true
  | x :: a, y :: b => (x <? y) || ((x =? y) && lex_less a b)
  end.

(** ** Tagged hashes *)

Section Taproot.
Context `{Crypto} `{Curve}.

(** A [HashWriter] that was fed the tag: its digest after writing [data]. *)
Definition TaggedHash (tag : string) (data : list Z) : list Z :=
  let taghash := sha256 (code <$> chars tag) in
  sha256 (taghash ++ taghash ++ data).

Definition ComputeTapleafHash (leaf_version : Z) (script : list Z) : list Z :=
  TaggedHash "TapLeaf" (leaf_version :: WriteCompactSize (Z.of_nat (length script)) ++ script).

Definition ComputeTapbranchHash (a b : list Z) : list Z :=
  TaggedHash "TapBranch" (if lex_less a b then a ++ b else b ++ a).

Definition control_node (control : list Z) (i : nat) : list Z :=
  take TAPROOT_CONTROL_NODE_SIZE (drop (TAPROOT_CONTROL_BASE_SIZE + TAPROOT_CONTROL_NODE_SIZE * i) control).

Definition control_size_ok (n : nat) : bool :=
  (TAPROOT_CONTROL_BASE_SIZE <=? n)%nat && (n <=? TAPROOT_CONTROL_MAX_SIZE)%nat &&
  ((n - TAPROOT_CONTROL_BASE_SIZE) mod TAPROOT_CONTROL_NODE_SIZE =? 0)%nat.

Definition ComputeTaprootMerkleRoot (control tapleaf_hash : list Z) : script_res (list Z) :=
  _ ← script_assert (control_size_ok (length control));
  let path_len := ((length control - TAPROOT_CONTROL_BASE_SIZE) / TAPROOT_CONTROL_NODE_SIZE)%nat in
  Ret (foldl (fun k i => ComputeTapbranchHash k (control_node control i)) tapleaf_hash (seq 0 path_len)).

(** [XOnlyPubKey]: 32 bytes, asserted by the constructor. *)
Definition XOnlyPubKey (bytes : list Z) : script_res (list Z) :=
  _ ← script_assert (length bytes =? 32)%nat; Ret bytes.

Definition ComputeTapTweakHash (key merkle_root : list Z) : list Z := TaggedHash "TapTweak" (key ++ merkle_root).

Definition CheckTapTweak (key internal merkle_root : list Z) (parity : bool) : bool :=
  if negb (xonly_pubkey_parse internal) then false
  else xonly_pubkey_tweak_add_check key parity internal (ComputeTapTweakHash internal merkle_root).

Definition VerifySchnorr (key msg sigbytes : list Z) : script_res bool :=
  _ ← script_assert (length sigbytes =? 64)%nat;
  Ret (if negb (xonly_pubkey_parse key) then false else schnorrsig_verify key msg sigbytes).

Definition VerifyTaprootCommitment (control program tapleaf_hash : list Z) : script_res bool :=
  _ ← script_assert (TAPROOT_CONTROL_BASE_SIZE <=? length control)%nat;
  _ ← script_assert (32 <=? length program)%nat;
  p ← XOnlyPubKey (take (TAPROOT_CONTROL_BASE_SIZE - 1) (drop 1 control));
  q ← XOnlyPubKey program;
  merkle_root ← ComputeTaprootMerkleRoot control tapleaf_hash;
  Ret (CheckTapTweak q p merkle_root (Z.odd (byte0 control))).

(** ** The hash cache of a transaction *)

Definition GetSpentAmountsSHA256 (outputs_spent : list CTxOut) : list Z :=
  sha256 (mjoin ((fun o => le_bytes 8 (nValue o)) <$> outputs_spent)).
Definition GetSpentScriptsSHA256 (outputs_spent : list CTxOut) : list Z :=
  sha256 (mjoin ((fun o => write_blob (out_scriptPubKey o)) <$> outputs_spent)).

(** Which signature schemes the inputs use, stopping once both are. *)
Fixpoint scan_inputs (vin : list CTxIn) (inpos : nat) (spent : option (list CTxOut)) (segwit taproot : bool) : bool * bool :=
  match vin with
  | [] => (segwit, taproot)
  | i :: vin =>
      if segwit && taproot then (segwit, taproot)
      else if IsNullWitness (scriptWitness i) then scan_inputs vin (S inpos) spent segwit taproot
      else
        let is_taproot :=
          match spent ≫= lookup inpos with
          | Some o =>
              (length (out_scriptPubKey o) =? 2 + WITNESS_V1_TAPROOT_SIZE)%nat && (byte0 (out_scriptPubKey o) =? OP_1)
          | None => false
          end in
        if is_taproot then scan_inputs vin (S inpos) spent segwit true
        else scan_inputs vin (S inpos) spent true taproot
  end.

(** [PrecomputedTransactionData::Init] on a fresh object. *)
Definition Init (txTo : CTransaction) (spent_outputs : list CTxOut) (force : bool) : script_res PrecomputedTransactionData :=
  spent ← (match spent_outputs with
           | [] => Ret None
           | _ => _ ← script_assert (length spent_outputs =? length (vin txTo))%nat; Ret (Some spent_outputs)
           end);
  let '(segwit, taproot) := scan_inputs (vin txTo) 0 spent force force in
  let prevouts := GetPrevoutsSHA256 txTo in
  let sequences := GetSequencesSHA256 txTo in
  let outputs := GetOutputsSHA256 txTo in
  Ret {|
    c_bip143 :=
      if segwit : bool then
        Some {| hashPrevouts := sha256 prevouts; hashSequence := sha256 sequences; hashOutputs := sha256 outputs |}
      else None;
    c_bip341 :=
      match spent with
      | Some spent_outputs =>
          if taproot : bool then
            Some {| m_prevouts_single_hash := prevouts; m_sequences_single_hash := sequences;
                    m_outputs_single_hash := outputs;
                    m_spent_amounts_single_hash := GetSpentAmountsSHA256 spent_outputs;
                    m_spent_scripts_single_hash := GetSpentScriptsSHA256 spent_outputs |}
          else None
      | None => None
      end;
    c_spent_outputs := spent
  |}.

(** ** Schnorr signatures *)

Definition SIGHASH_DEFAULT : Z := 0.
Definition SIGHASH_OUTPUT_MASK : Z := 3.
Definition SIGHASH_INPUT_MASK : Z := 0x80.

(** The hash and the execution data, or [None] where false is returned. *)
Definition SignatureHashSchnorr (x : ScriptExecutionData) (tx_to : CTransaction) (in_pos : nat) (hash_type : Z)
    (sigversion : SigVersion) (cache : PrecomputedTransactionData) (mdb : MissingDataBehavior) :
    script_res (option (list Z * ScriptExecutionData)) :=
  ext_flag ← (match sigversion with TAPROOT => Ret 0 | TAPSCRIPT => Ret 1 | _ => Abort end);
  match vin tx_to !! in_pos with
  | None => Abort
  | Some txin =>
      match c_bip341 cache, c_spent_outputs cache with
      | Some d, Some spent =>
          let output_type := if hash_type =? SIGHASH_DEFAULT then SIGHASH_ALL else Z.land hash_type SIGHASH_OUTPUT_MASK in
          let input_type := Z.land hash_type SIGHASH_INPUT_MASK in
          if negb ((hash_type <=? 3) || ((0x81 <=? hash_type) && (hash_type <=? 0x83))) then Ret None else
          let header := 0 :: hash_type :: le_bytes 4 (nVersion tx_to) ++ le_bytes 4 (nLockTime tx_to) in
          let inputs :=
            if input_type =? SIGHASH_ANYONECANPAY then []
            else m_prevouts_single_hash d ++ m_spent_amounts_single_hash d ++ m_spent_scripts_single_hash d ++
                 m_sequences_single_hash d in
          let outputs := if output_type =? SIGHASH_ALL then m_outputs_single_hash d else [] in
          match m_annex x with
          | None => Abort
          | Some annex =>
              let spend_type := Z.shiftl ext_flag 1 + bool_num (bool_decide (is_Some annex)) in
              let this_input :=
                if input_type =? SIGHASH_ANYONECANPAY then
                  write_outpoint (prevout txin) ++ from_option write_txout [] (spent !! in_pos) ++ le_bytes 4 (nSequence txin)
                else le_bytes 4 (Z.of_nat in_pos) in
              let annex_hash := default [] annex in
              if (output_type =? SIGHASH_SINGLE) && (length (vout tx_to) <=? in_pos)%nat then Ret None else
              let x :=
                if output_type =? SIGHASH_SINGLE then
                  match m_output_hash x with
                  | Some _ => x
                  | None => set_output_hash (sha256 (from_option write_txout [] (vout tx_to !! in_pos))) x
                  end
                else x in
              let this_output := if output_type =? SIGHASH_SINGLE then default [] (m_output_hash x) else [] in
              leaf ← (match sigversion with
                      | TAPSCRIPT =>
                          match m_tapleaf_hash x, m_codeseparator_pos x with
                          | Some leaf, Some pos => Ret (leaf ++ [0] ++ le_bytes 4 pos)
                          | _, _ => Abort
                          end
                      | _ => Ret []
                      end);
              Ret (Some (TaggedHash "TapSighash"
                (header ++ inputs ++ outputs ++ spend_type :: this_input ++ annex_hash ++ this_output ++ leaf), x))
          end
      | _, _ => _ ← HandleMissingData mdb; Ret None
      end
  end.

(** [GenericTransactionSignatureChecker::CheckSchnorrSignature] *)
Definition CheckSchnorrSignature (c : tx_checker) (sig pubkey_in : list Z) (sigversion : SigVersion)
    (x : ScriptExecutionData) : script_res ScriptExecutionData :=
  _ ← script_assert (is_TAPROOT sigversion || is_TAPSCRIPT sigversion);
  _ ← script_assert (length pubkey_in =? 32)%nat;
  _ ← error_if (negb (length sig =? 64)%nat && negb (length sig =? 65)%nat) SCRIPT_ERR_SCHNORR_SIG_SIZE;
  pubkey ← XOnlyPubKey pubkey_in;
  '(sig, hashtype) ←
    (if (length sig =? 65)%nat then
       let hashtype := List.last sig 0 in
       _ ← error_if (hashtype =? SIGHASH_DEFAULT) SCRIPT_ERR_SCHNORR_SIG_HASHTYPE;
       Ret (removelast sig, hashtype)
     else Ret (sig, SIGHASH_DEFAULT));
  match txdata c with
  | None => _ ← HandleMissingData (m_mdb c); Err None
  | Some d =>
      r ← SignatureHashSchnorr x (txTo c) (nIn c) hashtype sigversion d (m_mdb c);
      match r with
      | None => set_error SCRIPT_ERR_SCHNORR_SIG_HASHTYPE
      | Some (sighash, x) =>
          valid ← VerifySchnorr pubkey sighash sig;
          _ ← error_if (negb valid) SCRIPT_ERR_SCHNORR_SIG;
          Ret x
      end
  end.

(** ** Lock times *)

Definition LOCKTIME_THRESHOLD : Z := 500000000.
Definition SEQUENCE_FINAL : Z := 0xffffffff.
Definition SEQUENCE_LOCKTIME_TYPE_FLAG : Z := Z.shiftl 1 22.
Definition SEQUENCE_LOCKTIME_MASK : Z := 0x0000ffff.

(** The sequence number of the checked input, which exists. *)
Definition input_sequence (c : tx_checker) : Z := from_option nSequence 0 (vin (txTo c) !! nIn c).

Definition CheckLockTime (c : tx_checker) (lock : Z) : bool :=
  let txLockTime := nLockTime (txTo c) in
  if negb (((txLockTime <? LOCKTIME_THRESHOLD) && (lock <? LOCKTIME_THRESHOLD)) ||
           ((LOCKTIME_THRESHOLD <=? txLockTime) && (LOCKTIME_THRESHOLD <=? lock))) then false
  else if txLockTime <? lock then false
  else negb (SEQUENCE_FINAL =? input_sequence c).

Definition CheckSequence (c : tx_checker) (sequence : Z) : bool :=
  let txToSequence := input_sequence c in
  if u32 (nVersion (txTo c)) <? 2 then false
  else if negb (Z.land txToSequence SEQUENCE_LOCKTIME_DISABLE_FLAG =? 0) then false
  else
    let nLockTimeMask := Z.lor SEQUENCE_LOCKTIME_TYPE_FLAG SEQUENCE_LOCKTIME_MASK in
    let txToSequenceMasked := Z.land txToSequence nLockTimeMask in
    let nSequenceMasked := Z.land sequence nLockTimeMask in
    if negb (((txToSequenceMasked <? SEQUENCE_LOCKTIME_TYPE_FLAG) && (nSequenceMasked <? SEQUENCE_LOCKTIME_TYPE_FLAG)) ||
             ((SEQUENCE_LOCKTIME_TYPE_FLAG <=? txToSequenceMasked) && (SEQUENCE_LOCKTIME_TYPE_FLAG <=? nSequenceMasked)))
    then false
    else negb (txToSequenceMasked <? nSequenceMasked).

(** The checker of one input of a transaction. *)
Definition TransactionSignatureChecker (c : tx_checker) : BaseSignatureChecker := {|
  checkECDSA := CheckECDSASignature c;
  checkSchnorr := CheckSchnorrSignature c;
  checkLockTime := CheckLockTime c;
  checkSequence := CheckSequence c
|}.

(** ** Witness programs *)

Section Programs.
Context (checker : BaseSignatureChecker) (flags : Z).

(** The scan for opcodes that make a Tapscript succeed: whether one was found. *)
Fixpoint op_success_scan (fuel : nat) (pc : list Z) : script_res bool :=
  match pc, fuel with
  | [], _ => Ret false
  | _, O => Abort
  | _, S fuel =>
      let '(ok, opcode, _, pc) := GetScriptOp pc in
      _ ← error_if (negb ok) SCRIPT_ERR_BAD_OPCODE;
      if IsOpSuccess opcode then
        _ ← error_if (flag flags SCRIPT_VERIFY_DISCOURAGE_OP_SUCCESS) SCRIPT_ERR_DISCOURAGE_OP_SUCCESS; Ret true
      else op_success_scan fuel pc
  end.

(** [stack_span] lists the witness items in their order, the top of the stack last. *)
Definition ExecuteWitnessScript (stack_span : list (list Z)) (exec_script : list Z) (sigversion : SigVersion)
    (x : ScriptExecutionData) : script_res unit :=
  success ← (if is_TAPSCRIPT sigversion then
               found ← op_success_scan (length exec_script) exec_script;
               if found : bool then Ret true
               else _ ← error_if (MAX_STACK_SIZE <? length stack_span)%nat SCRIPT_ERR_STACK_SIZE; Ret false
             else Ret false);
  if success : bool then Ret tt else
  _ ← error_if (existsb (fun elem => (MAX_SCRIPT_ELEMENT_SIZE <? length elem)%nat) stack_span) SCRIPT_ERR_PUSH_SIZE;
  '(st, _) ← EvalScript checker flags sigversion (reverse stack_span) exec_script x;
  match st with
  | [top] => error_if (negb (CastToBool top)) SCRIPT_ERR_EVAL_FALSE
  | _ => set_error SCRIPT_ERR_CLEANSTACK
  end.

(** The implied script of a key-hash program. *)
Definition keyhash_script (program : list Z) : list Z :=
  [OP_DUP; OP_HASH160] ++ push_data program ++ [OP_EQUALVERIFY; OP_CHECKSIG].

(** Version 1: Taproot (lines 1918-1959). *)
Definition VerifyTaproot (witness : list (list Z)) (program : list Z) : script_res unit :=
  match last witness with
  | None => set_error SCRIPT_ERR_WITNESS_PROGRAM_WITNESS_EMPTY
  | Some back =>
      let annexed := (2 <=? length witness)%nat && negb (length back =? 0)%nat && (byte0 back =? ANNEX_TAG) in
      let span := if annexed then removelast witness else witness in
      let annex := if annexed then Some (sha256 (write_blob back)) else None in
      match span with
      | [sig] =>
          let x := {| m_tapleaf_hash := None; m_codeseparator_pos := None; m_annex := Some annex;
                      m_validation_weight_left := None; m_output_hash := None |} in
          _ ← checkSchnorr checker sig program TAPROOT x; Ret tt
      | _ =>
          let control := List.last span [] in
          let script := List.last (removelast span) [] in
          let span := removelast (removelast span) in
          _ ← error_if (negb (control_size_ok (length control))) SCRIPT_ERR_TAPROOT_WRONG_CONTROL_SIZE;
          let leaf_version := Z.land (byte0 control) TAPROOT_LEAF_MASK in
          let tapleaf := ComputeTapleafHash leaf_version script in
          valid ← VerifyTaprootCommitment control program tapleaf;
          _ ← error_if (negb valid) SCRIPT_ERR_WITNESS_PROGRAM_MISMATCH;
          if leaf_version =? TAPROOT_LEAF_TAPSCRIPT then
            let weight := Z.of_nat (length (write_vector write_blob witness)) + VALIDATION_WEIGHT_OFFSET in
            let x := {| m_tapleaf_hash := Some tapleaf; m_codeseparator_pos := None; m_annex := Some annex;
                        m_validation_weight_left := Some weight; m_output_hash := None |} in
            ExecuteWitnessScript span script TAPSCRIPT x
          else
            error_if (flag flags SCRIPT_VERIFY_DISCOURAGE_UPGRADABLE_TAPROOT_VERSION)
              SCRIPT_ERR_DISCOURAGE_UPGRADABLE_TAPROOT_VERSION
      end
  end.

Definition VerifyWitnessProgram (witness : list (list Z)) (witversion : Z) (program : list Z) (is_p2sh : bool) : script_res unit :=
  if witversion =? 0 then
    if (length program =? WITNESS_V0_SCRIPTHASH_SIZE)%nat then
      match last witness with
      | None => set_error SCRIPT_ERR_WITNESS_PROGRAM_WITNESS_EMPTY
      | Some exec_script =>
          _ ← error_if (negb (bool_decide (sha256 exec_script = program))) SCRIPT_ERR_WITNESS_PROGRAM_MISMATCH;
          ExecuteWitnessScript (removelast witness) exec_script WITNESS_V0 no_execdata
      end
    else if (length program =? WITNESS_V0_KEYHASH_SIZE)%nat then
      _ ← error_if (negb (length witness =? 2)%nat) SCRIPT_ERR_WITNESS_PROGRAM_MISMATCH;
      ExecuteWitnessScript witness (keyhash_script program) WITNESS_V0 no_execdata
    else set_error SCRIPT_ERR_WITNESS_PROGRAM_WRONG_LENGTH
  else if (witversion =? 1) && (length program =? WITNESS_V1_TAPROOT_SIZE)%nat && negb is_p2sh then
    if negb (flag flags SCRIPT_VERIFY_TAPROOT) then Ret tt else VerifyTaproot witness program
  else
    error_if (flag flags SCRIPT_VERIFY_DISCOURAGE_UPGRADABLE_WITNESS_PROGRAM)
      SCRIPT_ERR_DISCOURAGE_UPGRADABLE_WITNESS_PROGRAM.

(** ** Inputs *)

Definition EvalBase (st : list (list Z)) (script : list Z) : script_res (list (list Z)) :=
  '(st, _) ← EvalScript checker flags BASE st script no_execdata; Ret st.

(** [stack.empty() || !CastToBool(stack.back())] *)
Definition eval_false (st : list (list Z)) : bool := match st with top :: _ => negb (CastToBool top) | [] => true end.

(** The witness program a script may hold: whether there was one, and the stack,
    resized to one element when there was. *)
Definition verify_program (script : list Z) (malleated : bool) (e : ScriptError) (is_p2sh : bool)
    (witness : list (list Z)) (st : list (list Z)) : script_res (bool * list (list Z)) :=
  match (if flag flags SCRIPT_VERIFY_WITNESS then IsWitnessProgram script else None) with
  | None => Ret (false, st)
  | Some (witnessversion, witnessprogram) =>
      _ ← error_if malleated e;
      _ ← VerifyWitnessProgram witness witnessversion witnessprogram is_p2sh;
      Ret (true, take 1 (reverse st))
  end.

(** Pay to script hash: the top of [stackCopy] is the script to run on the rest. *)
Definition verify_p2sh (scriptSig : list Z) (witness : list (list Z)) (stackCopy : list (list Z)) : script_res (bool * list (list Z)) :=
  _ ← error_if (negb (IsPushOnly scriptSig)) SCRIPT_ERR_SIG_PUSHONLY;
  match stackCopy with
  | [] => Abort
  | pubKey2 :: st =>
      st ← EvalBase st pubKey2;
      _ ← error_if (eval_false st) SCRIPT_ERR_EVAL_FALSE;
      verify_program pubKey2 (negb (bool_decide (scriptSig = push_data pubKey2))) SCRIPT_ERR_WITNESS_MALLEATED_P2SH true witness st
  end.

(** The error is the one the last successful evaluation left. *)
Definition ok_by_default {A} (m : script_res A) : script_res A :=
  match m with Err None => set_error SCRIPT_ERR_OK | _ => m end.

Definition VerifyScript (scriptSig scriptPubKey : list Z) (witness : list (list Z)) : script_res unit :=
  ok_by_default (
  _ ← error_if (flag flags SCRIPT_VERIFY_SIGPUSHONLY && negb (IsPushOnly scriptSig)) SCRIPT_ERR_SIG_PUSHONLY;
  stackCopy ← EvalBase [] scriptSig;
  st ← EvalBase stackCopy scriptPubKey;
  _ ← error_if (eval_false st) SCRIPT_ERR_EVAL_FALSE;
  '(hadWitness, st) ←
    verify_program scriptPubKey (negb (length scriptSig =? 0)%nat) SCRIPT_ERR_WITNESS_MALLEATED false witness st;
  '(hadWitness, st) ←
    (if flag flags SCRIPT_VERIFY_P2SH && IsPayToScriptHash scriptPubKey then
       '(had, st) ← verify_p2sh scriptSig witness stackCopy; Ret (hadWitness || had, st)
     else Ret (hadWitness, st));
  _ ← (if flag flags SCRIPT_VERIFY_CLEANSTACK then
         _ ← script_assert (flag flags SCRIPT_VERIFY_P2SH);
         _ ← script_assert (flag flags SCRIPT_VERIFY_WITNESS);
         error_if (negb (length st =? 1)%nat) SCRIPT_ERR_CLEANSTACK
       else Ret tt);
  if flag flags SCRIPT_VERIFY_WITNESS then
    _ ← script_assert (flag flags SCRIPT_VERIFY_P2SH);
    error_if (negb hadWitness && negb (IsNullWitness witness)) SCRIPT_ERR_WITNESS_UNEXPECTED
  else Ret tt).

End Programs.

End Taproot.
