(* ===== verification/VerifyFacts.v ===== *)
(** * Which inputs the node accepts

    Facts about [VerifyScript] of [Verify]: scripts of pushes, pay to public key
    hash and pay to script hash, in both directions (what is enough to spend an
    output, and what is needed). *)

From S2P Require Import Prelude Digits JsString Bytes Crypto JsInt Tx NodeTx ScriptError NodeScript ScriptNum Interpreter InterpFacts Verify.

Open Scope Z_scope.
Open Scope list_scope.

(** The flag combinations [VerifyScript] asserts. *)
Definition flags_ok (flags : Z) : Prop :=
  (flag flags SCRIPT_VERIFY_CLEANSTACK = true -> flag flags SCRIPT_VERIFY_WITNESS = true) /\
  (flag flags SCRIPT_VERIFY_WITNESS = true -> flag flags SCRIPT_VERIFY_P2SH = true).

(** ** Scripts of pushes *)

Definition pushes (items : list (list Z)) : list Z := mjoin (push_data <$> items).

Lemma pushes_cons d items : pushes (d :: items) = push_data d ++ pushes items.
Proof. done. Qed.

Lemma length_push_data d : pushable d -> (length (push_data d) <= 3 + length d)%nat.
Proof.
  intros Hp. unfold pushable in Hp. unfold push_data, OP_PUSHDATA1.
  destruct (Z.ltb_spec (Z.of_nat (length d)) 0x4c); [|destruct (Z.leb_spec (Z.of_nat (length d)) 0xff);
    [|rewrite (proj2 (Z.leb_le _ 0xffff)) by lia]]; cbn [app length]; rewrite length_app; simpl; lia.
Qed.

Lemma length_pushes items n :
  Forall pushable items -> Forall (fun d => (length d <= n)%nat) items -> (length (pushes items) <= (3 + n) * length items)%nat.
Proof.
  induction 1 as [|d items Hd _ IH]; intros Hn; [cbn; lia|]. apply Forall_cons_1 in Hn as [Hd' Hn].
  rewrite pushes_cons, length_app. pose proof (length_push_data d Hd). specialize (IH Hn). cbn [length]. lia.
Qed.

Lemma push_only_pushes items fuel : Forall pushable items -> push_only_loop fuel (pushes items) = true.
Proof.
  intros Hi. revert fuel. induction Hi as [|d items Hd _ IH]; intros [|fuel]; try done.
  rewrite pushes_cons. cbn [push_only_loop]. destruct (GetScriptOp_push_data d (pushes items) Hd) as (op & Hop & Hg & _).
  destruct (push_data d ++ pushes items) as [|b l] eqn:E; [done|]. rewrite Hg. cbn [negb].
  unfold OP_PUSHDATA4 in Hop. rewrite (proj2 (Z.ltb_ge OP_16 _)) by (unfold OP_16; lia). apply IH.
Qed.

Section Accepts.
Context `{Crypto} `{Curve} (checker : BaseSignatureChecker) (flags : Z).

Lemma go_pushes items rest v st code x n pos :
  Forall pushable items -> (length items + length st <= MAX_STACK_SIZE)%nat ->
  exists pos', run checker flags v (pushes items ++ rest) (mk st code x n pos) =
    run checker flags v rest (mk (reverse items ++ st) code x n pos').
Proof.
  intros Hi. revert st pos. induction Hi as [|d items Hd _ IH]; intros st pos Hl; [by exists pos|].
  rewrite pushes_cons. rewrite <-app_assoc, go_push by done. simpl in Hl.
  rewrite stack_room_ok by (simpl; lia). cbn [mbind script_res_bind].
  destruct (IH (d :: st) (u32 (pos + 1))) as [pos' ->]; [simpl; lia|].
  exists pos'. by rewrite reverse_cons, <-app_assoc.
Qed.

Lemma EvalBase_pushes items st :
  Forall pushable items -> (length items + length st <= MAX_STACK_SIZE)%nat ->
  Z.of_nat (length (pushes items)) <= MAX_SCRIPT_SIZE ->
  EvalBase checker flags st (pushes items) = Ret (reverse items ++ st).
Proof.
  intros Hi Hl Hs. unfold EvalBase. rewrite EvalScript_go by done. cbn [is_TAPROOT negb script_assert mbind script_res_bind].
  rewrite <-(app_nil_r (pushes items)) at 1.
  destruct (go_pushes items [] BASE st (pushes items) (set_codeseparator_pos 0xffffffff no_execdata) 0 0 Hi Hl) as [pos' ->].
  done.
Qed.

(** ** Pay to public key hash *)

Definition p2pkh_script (h : list Z) : list Z := [OP_DUP; OP_HASH160; 20] ++ h ++ [OP_EQUALVERIFY; OP_CHECKSIG].

Lemma p2pkh_not_program h : length h = 20%nat -> IsWitnessProgram (p2pkh_script h) = None /\ IsPayToScriptHash (p2pkh_script h) = false.
Proof.
  intros Hh. assert (length (p2pkh_script h) = 25%nat) as Hl by (unfold p2pkh_script; rewrite !length_app, Hh; done).
  unfold IsWitnessProgram, IsPayToScriptHash. by rewrite Hl.
Qed.

Lemma EvalBase_keyhash h st :
  length h = 20%nat -> (length st <= 998)%nat ->
  EvalBase checker flags st (p2pkh_script h) =
    match st with
    | [] => bad_stack
    | pubkey :: st =>
        if bool_decide (hash160 pubkey = h) then
          match st with
          | [] => bad_stack
          | sig :: st =>
              ok ← unknown_by_default (EvalChecksigPreTapscript checker flags BASE sig pubkey (p2pkh_script h));
              Ret (bool_vch ok :: st)
          end
        else set_error SCRIPT_ERR_EQUALVERIFY
    end.
Proof.
  intros Hh Hst. unfold EvalBase, p2pkh_script. rewrite keyhash_eval by done. cbn [is_TAPROOT negb script_assert mbind script_res_bind].
  unfold keyhash_spend. destruct st as [|pubkey [|sig st]]; [done|by case_bool_decide|]. case_bool_decide; [|done].
  cbn [EvalChecksig]. by destruct (EvalChecksigPreTapscript _ _ _ _ _ _) as [[]|[]|].
Qed.

(** The end of [VerifyScript] for a script that is neither a witness program
    nor pay to script hash, when the stack holds one true value. *)
Lemma verify_plain scriptSig script st :
  flags_ok flags -> IsPushOnly scriptSig = true -> IsWitnessProgram script = None -> IsPayToScriptHash script = false ->
  EvalBase checker flags [] scriptSig = Ret st -> EvalBase checker flags st script = Ret [vchTrue] ->
  VerifyScript checker flags scriptSig script [] = Ret tt.
Proof.
  intros [Hclean Hwit] Hpush Hprog Hp2sh H1 H2. unfold VerifyScript. rewrite Hpush, andb_false_r. cbn [negb error_if mbind script_res_bind].
  rewrite H1. cbn [mbind script_res_bind]. rewrite H2. cbn [mbind script_res_bind eval_false].
  change (CastToBool vchTrue) with true. cbn [negb error_if mbind script_res_bind]. unfold verify_program. rewrite Hprog, Hp2sh, andb_false_r.
  assert (forall b : bool, (if b then None else None) = @None (Z * list Z)) as -> by (by intros []).
  cbn [mbind script_res_bind length Nat.eqb negb IsNullWitness].
  destruct (flag flags SCRIPT_VERIFY_CLEANSTACK), (flag flags SCRIPT_VERIFY_WITNESS), (flag flags SCRIPT_VERIFY_P2SH);
    first [done | by specialize (Hclean eq_refl) | by specialize (Hwit eq_refl)].
Qed.

Lemma p2pkh_accepts h sig pubkey :
  flags_ok flags -> length h = 20%nat -> hash160 pubkey = h -> pushable sig -> pushable pubkey ->
  EvalChecksigPreTapscript checker flags BASE sig pubkey (p2pkh_script h) = Ret true ->
  VerifyScript checker flags (pushes [sig; pubkey]) (p2pkh_script h) [] = Ret tt.
Proof.
  intros Hf Hh Hk Hs Hp Hc. destruct (p2pkh_not_program h Hh) as [H1 H2].
  assert (Forall pushable [sig; pubkey]) as Hd by (constructor; [done|]; constructor; [done|]; constructor).
  eapply (verify_plain _ _ [pubkey; sig]); try done.
  - by apply push_only_pushes.
  - apply EvalBase_pushes; [done|unfold MAX_STACK_SIZE; simpl; lia|].
    assert (Forall (fun d => (length d <= 520)%nat) [sig; pubkey]) as Hn
      by (eapply Forall_impl; [done|]; unfold pushable; intros; cbv beta; lia).
    pose proof (length_pushes _ 520 Hd Hn). unfold MAX_SCRIPT_SIZE. simpl length in *. lia.
  - rewrite EvalBase_keyhash by (done || (simpl; lia)). rewrite bool_decide_true by done. by rewrite Hc.
Qed.

(** ** What an accepted input did *)

Lemma verify_inv scriptSig script witness :
  VerifyScript checker flags scriptSig script witness = Ret tt ->
  exists st1 st2, EvalBase checker flags [] scriptSig = Ret st1 /\ EvalBase checker flags st1 script = Ret st2 /\
    eval_false st2 = false /\
    (flag flags SCRIPT_VERIFY_P2SH && IsPayToScriptHash script = true ->
     exists r, verify_p2sh checker flags scriptSig witness st1 = Ret r).
Proof.
  intros Hv. unfold VerifyScript in Hv.
  assert (forall m : script_res unit, ok_by_default m = Ret tt -> m = Ret tt) as Hok by (by intros [|[]|]).
  apply Hok in Hv. clear Hok. apply script_bind_ret in Hv as (? & _ & Hv).
  apply script_bind_ret in Hv as (st1 & H1 & Hv). apply script_bind_ret in Hv as (st2 & H2 & Hv).
  apply script_bind_ret in Hv as (? & He%error_if_ret & Hv). apply script_bind_ret in Hv as ([had st3] & _ & Hv).
  apply script_bind_ret in Hv as ([had' st4] & Hp & _). exists st1, st2. do 3 (split; [done|]). intros Hc. rewrite Hc in Hp.
  apply script_bind_ret in Hp as (r & Hr & _). by exists r.
Qed.

Lemma stack_room_ret st u : stack_room st = Ret u -> (length st <= 1000)%nat.
Proof. intros Hr%error_if_ret. by apply Nat.ltb_ge in Hr. Qed.

Lemma finish_ret {A} (m : script_res A) (f : A -> script_res interp) r :
  finish (m ≫= f) = Ret r -> exists a, m = Ret a /\ finish (f a) = Ret r.
Proof. destruct m as [a|[]|]; cbn; [by exists a|done..]. Qed.

Lemma keyhash_room h st st' :
  length h = 20%nat -> EvalBase checker flags st (p2pkh_script h) = Ret st' -> (length st <= 998)%nat.
Proof.
  intros Hh Hev. unfold EvalBase, p2pkh_script in Hev. apply script_bind_ret in Hev as ([st2 x2] & Hev & _).
  rewrite EvalScript_go in Hev by (rewrite !length_app, Hh; by vm_compute).
  cbn [is_TAPROOT negb script_assert mbind script_res_bind app] in Hev.
  erewrite go_pure in Hev; [|reflexivity|done..]. apply finish_ret in Hev as (s1 & Hs1 & Hev).
  apply finish_ret in Hev as (? & Hr1%stack_room_ret & Hev). destruct st as [|pubkey st]; [done|]. injection Hs1 as <-.
  erewrite go_pure in Hev; [|reflexivity|done..]. apply finish_ret in Hev as (s2 & Hs2 & Hev).
  apply finish_ret in Hev as (? & _ & Hev). injection Hs2 as <-.
  assert (20 :: h ++ [OP_EQUALVERIFY; OP_CHECKSIG] = push_data h ++ [OP_EQUALVERIFY; OP_CHECKSIG]) as E
    by (rewrite push_data_short, Hh by lia; done).
  rewrite E, go_push in Hev by (unfold pushable; lia).
  apply finish_ret in Hev as (? & Hr%stack_room_ret & _). simpl in Hr |- *. lia.
Qed.

Lemma p2pkh_sound h scriptSig witness :
  length h = 20%nat -> VerifyScript checker flags scriptSig (p2pkh_script h) witness = Ret tt ->
  exists pubkey sig rest, EvalBase checker flags [] scriptSig = Ret (pubkey :: sig :: rest) /\ hash160 pubkey = h /\
    EvalChecksigPreTapscript checker flags BASE sig pubkey (p2pkh_script h) = Ret true.
Proof.
  intros Hh Hv. destruct (verify_inv _ _ _ Hv) as (st1 & st2 & H1 & H2 & He & _).
  pose proof (keyhash_room _ _ _ Hh H2) as Hroom. rewrite EvalBase_keyhash in H2 by done.
  destruct st1 as [|pubkey st1]; [done|]. case_bool_decide as Hk; [|done]. destruct st1 as [|sig rest]; [done|].
  exists pubkey, sig, rest. split; [done|]. split; [done|].
  destruct (EvalChecksigPreTapscript _ _ _ _ _ _) as [[]|[]|]; try done. cbn in H2. by simplify_eq.
Qed.

(** ** Pay to script hash *)

Definition p2sh_script (h : list Z) : list Z := [OP_HASH160; 20] ++ h ++ [OP_EQUAL].

Lemma p2sh_is_p2sh h : length h = 20%nat -> IsPayToScriptHash (p2sh_script h) = true /\ IsWitnessProgram (p2sh_script h) = None.
Proof.
  intros Hh. assert (length (p2sh_script h) = 23%nat) as Hl by (unfold p2sh_script; rewrite !length_app, Hh; done).
  unfold IsPayToScriptHash, IsWitnessProgram. rewrite Hl. split; [|done].
  unfold p2sh_script. cbn [app nth]. rewrite app_nth2 by lia. by rewrite Hh.
Qed.

Lemma p2sh_push h : length h = 20%nat -> 20 :: h ++ [OP_EQUAL] = push_data h ++ [OP_EQUAL].
Proof. intros Hh. by rewrite push_data_short, Hh by lia. Qed.

Lemma EvalBase_p2sh h st :
  length h = 20%nat -> (length st <= 999)%nat ->
  EvalBase checker flags st (p2sh_script h) =
    match st with [] => bad_stack | top :: st => Ret (bool_vch (bool_decide (hash160 top = h)) :: st) end.
Proof.
  intros Hh Hst. unfold EvalBase, p2sh_script. rewrite EvalScript_go by (rewrite !length_app, Hh; by vm_compute).
  cbn [is_TAPROOT negb script_assert mbind script_res_bind app]. rewrite p2sh_push by done.
  erewrite go_pure; [|reflexivity|done..]. destruct st as [|top st]; [done|]. cbn [op_digest mbind script_res_bind]. simpl in Hst.
  rewrite stack_room_ok by (unfold MAX_STACK_SIZE; simpl; lia). cbn [mbind script_res_bind].
  rewrite go_push by (unfold pushable; lia). rewrite stack_room_ok by (unfold MAX_STACK_SIZE; simpl; lia).
  cbn [mbind script_res_bind]. erewrite go_pure; [|reflexivity|done..]. cbn [op_equal mbind script_res_bind].
  by rewrite stack_room_ok by (unfold MAX_STACK_SIZE; simpl; lia).
Qed.

Lemma p2sh_room h st st' :
  length h = 20%nat -> EvalBase checker flags st (p2sh_script h) = Ret st' -> (length st <= 999)%nat.
Proof.
  intros Hh Hev. unfold EvalBase, p2sh_script in Hev. apply script_bind_ret in Hev as ([st2 x2] & Hev & _).
  rewrite EvalScript_go in Hev by (rewrite !length_app, Hh; by vm_compute).
  cbn [is_TAPROOT negb script_assert mbind script_res_bind app] in Hev. rewrite p2sh_push in Hev by done.
  erewrite go_pure in Hev; [|reflexivity|done..]. apply finish_ret in Hev as (s1 & Hs1 & Hev).
  apply finish_ret in Hev as (? & _ & Hev). destruct st as [|top st]; [done|]. injection Hs1 as <-.
  rewrite go_push in Hev by (unfold pushable; lia). apply finish_ret in Hev as (? & Hr%stack_room_ret & _). simpl in Hr |- *. lia.
Qed.

(** Enough to spend: push the inputs of the script, then the script itself. *)
Lemma p2sh_accepts items redeem :
  flags_ok flags -> length (hash160 redeem) = 20%nat -> Forall pushable (items ++ [redeem]) ->
  (length items <= 18)%nat -> IsWitnessProgram redeem = None ->
  EvalBase checker flags (reverse items) redeem = Ret [vchTrue] ->
  VerifyScript checker flags (pushes (items ++ [redeem])) (p2sh_script (hash160 redeem)) [] = Ret tt.
Proof.
  intros [Hclean Hwit] Hh Hp Hl Hprog Hev. destruct (p2sh_is_p2sh _ Hh) as [H1 H2].
  assert (IsPushOnly (pushes (items ++ [redeem])) = true) as Hpush by (by apply push_only_pushes).
  unfold VerifyScript. rewrite Hpush, andb_false_r. cbn [negb error_if mbind script_res_bind].
  rewrite EvalBase_pushes; [|done|rewrite length_app; unfold MAX_STACK_SIZE; simpl; lia|].
  2:{ assert (Forall (fun d => (length d <= 520)%nat) (items ++ [redeem])) as Hn
        by (eapply Forall_impl; [done|]; unfold pushable; intros; cbv beta; lia).
      pose proof (length_pushes _ 520 Hp Hn) as Hb. rewrite length_app in Hb. unfold MAX_SCRIPT_SIZE. simpl length in Hb. lia. }
  rewrite reverse_app. cbn [mbind script_res_bind app reverse]. rewrite app_nil_r.
  change (reverse [redeem] ++ reverse items) with (redeem :: reverse items).
  rewrite EvalBase_p2sh by (done || (simpl; rewrite length_reverse; lia)). rewrite bool_decide_true by done.
  cbn [mbind script_res_bind eval_false bool_vch]. change (CastToBool vchTrue) with true. cbn [negb error_if mbind script_res_bind].
  assert (forall b : bool, (if b then None else None) = @None (Z * list Z)) as Hnone by (by intros []).
  unfold verify_program at 1. rewrite H2, Hnone. cbn [mbind script_res_bind]. rewrite H1, andb_true_r.
  unfold verify_p2sh. rewrite Hpush. cbn [negb error_if mbind script_res_bind]. rewrite Hev. cbn [mbind script_res_bind eval_false].
  change (CastToBool vchTrue) with true. cbn [negb error_if mbind script_res_bind]. unfold verify_program. rewrite Hprog, Hnone.
  cbn [mbind script_res_bind orb IsNullWitness negb andb length Nat.eqb].
  destruct (flag flags SCRIPT_VERIFY_CLEANSTACK), (flag flags SCRIPT_VERIFY_WITNESS), (flag flags SCRIPT_VERIFY_P2SH);
    first [done | by specialize (Hclean eq_refl) | by specialize (Hwit eq_refl)].
Qed.

(** Needed to spend: a script with the hash, which runs to true on what was
    pushed before it, by a script of pushes. *)
Lemma p2sh_sound h scriptSig witness :
  length h = 20%nat -> flag flags SCRIPT_VERIFY_P2SH = true ->
  VerifyScript checker flags scriptSig (p2sh_script h) witness = Ret tt ->
  IsPushOnly scriptSig = true /\
  exists redeem st st', EvalBase checker flags [] scriptSig = Ret (redeem :: st) /\ hash160 redeem = h /\
    EvalBase checker flags st redeem = Ret st' /\ eval_false st' = false.
Proof.
  intros Hh Hf Hv. destruct (verify_inv _ _ _ Hv) as (st1 & st2 & H1 & H2 & He & Hp).
  destruct (p2sh_is_p2sh _ Hh) as [Hp2sh _]. rewrite Hf, Hp2sh in Hp. destruct (Hp eq_refl) as (r & Hr).
  unfold verify_p2sh in Hr. apply script_bind_ret in Hr as (? & Hpush%error_if_ret & Hr). split; [by apply negb_false_iff|].
  pose proof (p2sh_room _ _ _ Hh H2) as Hroom. rewrite EvalBase_p2sh in H2 by done. destruct st1 as [|redeem st]; [done|].
  injection H2 as <-. apply script_bind_ret in Hr as (st' & Hev & Hr). apply script_bind_ret in Hr as (? & He'%error_if_ret & _).
  exists redeem, st, st'. split; [done|]. split; [|done]. by case_bool_decide.
Qed.

End Accepts.

(** ** Multisignature scripts *)

Section MultisigScripts.
Context `{Crypto} `{Curve} (checker : BaseSignatureChecker) (flags : Z).

(** The opcode that pushes a small number. *)
Definition int_op (m : Z) : Z := if m =? 0 then 0 else 0x50 + m.

Definition mscript (m : Z) (keys : list (list Z)) : list Z :=
  int_op m :: pushes keys ++ [0x50 + Z.of_nat (length keys); OP_CHECKMULTISIG].

Lemma small_int_op m : 1 <= m <= 16 -> small_int (0x50 + m) = true.
Proof.
  intros Hm. unfold small_int, OP_1, OP_16. rewrite (proj2 (Z.leb_le _ _)), (proj2 (Z.leb_le _ 0x60)) by lia. apply orb_true_r.
Qed.

Lemma go_int v m rest st code x n pos :
  0 <= m <= 16 -> n + 1 <= MAX_OPS_PER_SCRIPT ->
  run checker flags v (int_op m :: rest) (mk st code x n pos) =
    _ ← stack_room (serialize m :: st); run checker flags v rest (mk (serialize m :: st) code x n (u32 (pos + 1))).
Proof.
  intros Hm Hn. unfold int_op. destruct (Z.eqb_spec m 0) as [->|Hm0].
  - change (0 :: rest) with (push_data [] ++ rest). by rewrite go_push by (by left).
  - assert (pure_op (fRequireMinimal flags) (0x50 + m) = Some (fun st => Ret (serialize (0x50 + m - (OP_1 - 1)) :: st))) as Hf
      by (unfold pure_op; by rewrite small_int_op by lia).
    rewrite (go_pure _ _ _ _ _ rest _ _ _ _ _ Hf); [|unfold OP_PUSHDATA4; lia| |unfold OP_CODESEPARATOR; lia|done].
    + cbn [mbind script_res_bind]. rewrite op_cost_small by (unfold OP_16; lia).
      by replace (0x50 + m - (OP_1 - 1)) with m by (unfold OP_1; lia).
    + apply disabled_below. unfold OP_CAT. lia.
Qed.

Lemma num_small v m : 0 <= m <= 20 -> num v (serialize m) = Ret m.
Proof.
  intros Hm. unfold num, CScriptNum.
  assert (length (serialize m) <= 1)%nat as Hl by (apply serialize_length; [lia|change (2 ^ (8 * Z.of_nat 1 - 1)) with 128; lia]).
  rewrite (error_if_false (_ <? _)%nat) by (apply Nat.ltb_ge; unfold nDefaultMaxNumSize; lia). cbn [mbind script_res_bind].
  rewrite error_if_false; [cbn; by rewrite set_vch_serialize|]. destruct v; [|done]. cbn [andb].
  destruct (decide (m = 0)) as [->|Hne]; [done|]. by rewrite serialize_not_padded, andb_false_r.
Qed.

(** What the script does to a stack: the signatures on top are matched with the
    keys, and they and one element below them are removed. *)
Definition multisig_spend (m : Z) (keys : list (list Z)) (code : list Z) (st : list (list Z)) : script_res (list (list Z)) :=
  let nSigs := Z.to_nat m in
  if (length st <=? nSigs)%nat then bad_stack else
  let sigs := take nSigs st in
  code ← drop_signatures flags BASE code sigs;
  ok ← multisig_loop checker flags BASE code (reverse keys) sigs;
  st ← multisig_cleanup flags ok (2 + length keys + nSigs) (length keys + 2)
         (serialize (Z.of_nat (length keys)) :: reverse keys ++ serialize m :: st);
  match st with
  | [] => bad_stack
  | dummy :: st =>
      _ ← error_if (flag flags SCRIPT_VERIFY_NULLDUMMY && negb (length dummy =? 0)%nat) SCRIPT_ERR_SIG_NULLDUMMY;
      Ret (bool_vch ok :: st)
  end.

Lemma op_checkmultisig_spend m keys code x pos st :
  0 <= m <= Z.of_nat (length keys) -> Z.of_nat (length keys) <= 16 ->
  op_checkmultisig checker flags BASE false (mk (serialize (Z.of_nat (length keys)) :: reverse keys ++ serialize m :: st) code x 1 pos) =
    st ← multisig_spend m keys code st; Ret (mk st code x (1 + Z.of_nat (length keys)) pos).
Proof.
  intros Hm Hn. unfold op_checkmultisig, multisig_spend. cbn [is_TAPSCRIPT stack mk]. set (n := Z.of_nat (length keys)) in *.
  rewrite num_small by lia. cbn [mbind script_res_bind]. unfold getint at 1, INT_MAX, INT_MIN.
  rewrite (proj2 (Z.ltb_ge _ n)), (proj2 (Z.ltb_ge n _)) by lia.
  assert (getint n = n) as -> by (unfold getint, INT_MAX, INT_MIN; by rewrite (proj2 (Z.ltb_ge _ n)), (proj2 (Z.ltb_ge n _)) by lia).
  rewrite (error_if_false ((n <? 0) || _)) by (apply orb_false_iff; split; apply Z.ltb_ge; unfold MAX_PUBKEYS_PER_MULTISIG; lia).
  cbn [mbind script_res_bind nOpCount set_nOpCount mk]. rewrite error_if_false by (apply Z.ltb_ge; unfold MAX_OPS_PER_SCRIPT; lia).
  cbn [mbind script_res_bind]. assert (Z.to_nat n = length (reverse keys)) as Hnat by (unfold n; rewrite length_reverse; lia).
  rewrite Hnat, drop_app_length, take_app_length. rewrite num_small by lia. cbn [mbind script_res_bind].
  assert (getint m = m) as -> by (unfold getint, INT_MAX, INT_MIN; by rewrite (proj2 (Z.ltb_ge _ m)), (proj2 (Z.ltb_ge m _)) by lia).
  rewrite error_if_false by (apply orb_false_iff; split; apply Z.ltb_ge; lia). cbn [mbind script_res_bind].
  destruct (length st <=? Z.to_nat m)%nat; [done|]. cbn [pbegincodehash set_nOpCount mk stack].
  destruct (drop_signatures _ _ _ _) as [code'| |]; [|done|done]. cbn [mbind script_res_bind].
  destruct (multisig_loop _ _ _ _ _ _) as [ok| |]; [|done|done]. cbn [mbind script_res_bind]. rewrite length_reverse.
  destruct (multisig_cleanup _ _ _ _ _) as [[|dummy st']| |]; [done| |done|done]. cbn [mbind script_res_bind].
  by destruct (error_if _ _).
Qed.

Lemma cleanup_drop ok i k st st' : multisig_cleanup flags ok i k st = Ret st' -> st' = drop i st.
Proof.
  revert k st. induction i as [|i IH]; intros k st Hc; [by destruct st; injection Hc as <-|].
  destruct st as [|top st]; [done|]. cbn [multisig_cleanup] in Hc. apply script_bind_ret in Hc as (? & _ & Hc). by eapply IH.
Qed.

Lemma cleanup_ok i k st : (i <= length st)%nat -> multisig_cleanup flags true i k st = Ret (drop i st).
Proof.
  revert k st. induction i as [|i IH]; intros k [|top st] Hi; simpl in Hi; try lia; [done|done|].
  cbn [multisig_cleanup negb andb error_if mbind script_res_bind drop]. apply IH. lia.
Qed.

Lemma drop_args {A} (n m : A) keys st k : drop (2 + length keys + k) (n :: reverse keys ++ m :: st) = drop k st.
Proof.
  cbn [Nat.add drop]. replace (S (length keys + k)) with (length (reverse keys ++ [m]) + k)%nat
    by (rewrite length_app, length_reverse; simpl; lia).
  rewrite <-drop_drop. change (reverse keys ++ m :: st) with (reverse keys ++ [m] ++ st).
  by rewrite (app_assoc (reverse keys)), drop_app_length.
Qed.

Lemma multisig_spend_length m keys code st st' : multisig_spend m keys code st = Ret st' -> (length st' <= length st)%nat.
Proof.
  unfold multisig_spend. destruct (Nat.leb_spec (length st) (Z.to_nat m)); [done|]. intros Hs.
  apply script_bind_ret in Hs as (c & _ & Hs). apply script_bind_ret in Hs as (ok & _ & Hs).
  apply script_bind_ret in Hs as (st2 & Hc%cleanup_drop & Hs). rewrite drop_args in Hc. destruct st2 as [|d st2]; [done|].
  apply script_bind_ret in Hs as (? & _ & [= <-]). assert (length (d :: st2) <= length st)%nat; [|done].
  rewrite Hc, length_drop. lia.
Qed.

Lemma length_pushes_keys keys : Forall (fun k => length k = 33%nat) keys -> length (pushes keys) = (34 * length keys)%nat.
Proof.
  induction 1 as [|k l Hk _ IH]; [done|]. rewrite pushes_cons, length_app, push_data_short, IH by lia. cbn [length]. lia.
Qed.

Section Script.
Context (m : Z) (keys : list (list Z)).
Context (Hm : 0 <= m <= Z.of_nat (length keys)) (Hn : Z.of_nat (length keys) <= 16) (Hpos : (0 < length keys)%nat).
Context (Hkeys : Forall (fun k => length k = 33%nat) keys).

Lemma keys_pushable : Forall pushable keys.
Proof. eapply Forall_impl; [done|]. unfold pushable. intros k Hk. cbv beta in Hk. lia. Qed.

Lemma mscript_length : length (mscript m keys) = (3 + 34 * length keys)%nat.
Proof.
  unfold mscript. cbn [length]. rewrite length_app. cbn [length].
  rewrite length_pushes_keys by done. lia.
Qed.

Abbreviation args st := (serialize (Z.of_nat (length keys)) :: reverse keys ++ serialize m :: st).

Lemma go_multisig st code x pos :
  run checker flags BASE [OP_CHECKMULTISIG] (mk (args st) code x 0 pos) =
    st ← multisig_spend m keys code st; _ ← stack_room st; Ret (mk st code x (1 + Z.of_nat (length keys)) (u32 (pos + 1))).
Proof.
  rewrite run_opcode, count_op_mk by done. cbn [mbind script_res_bind].
  change (exec_opcode checker flags BASE OP_CHECKMULTISIG true []) with (op_checkmultisig checker flags BASE false).
  change (op_cost BASE OP_CHECKMULTISIG 0) with 1. rewrite op_checkmultisig_spend by done.
  destruct (multisig_spend _ _ _ _) as [st'| |]; [|done|done]. cbn [mbind script_res_bind]. by rewrite room_mk.
Qed.

Lemma small_count : int_op (Z.of_nat (length keys)) = 0x50 + Z.of_nat (length keys).
Proof. unfold int_op. by rewrite (proj2 (Z.eqb_neq _ _)) by lia. Qed.

Lemma mscript_fits : Z.of_nat (length (mscript m keys)) <= MAX_SCRIPT_SIZE.
Proof. rewrite mscript_length. unfold MAX_SCRIPT_SIZE. lia. Qed.

Lemma mscript_eval st :
  (length st + length keys + 2 <= 1000)%nat ->
  EvalBase checker flags st (mscript m keys) = unknown_by_default (multisig_spend m keys (mscript m keys) st).
Proof.
  intros Hst. unfold EvalBase. rewrite EvalScript_go by apply mscript_fits. cbn [is_TAPROOT negb script_assert mbind script_res_bind].
  unfold mscript at 1. rewrite go_int by (unfold MAX_OPS_PER_SCRIPT; lia).
  rewrite stack_room_ok by (unfold MAX_STACK_SIZE; simpl; lia). cbn [mbind script_res_bind].
  match goal with |- context [run _ _ _ (pushes keys ++ ?r) (mk ?st ?code ?x ?n ?pos)] =>
    destruct (go_pushes checker flags keys r BASE st code x n pos keys_pushable) as [pos' ->] end.
  { unfold MAX_STACK_SIZE. simpl. lia. }
  rewrite <-small_count, go_int by (unfold MAX_OPS_PER_SCRIPT; lia).
  rewrite stack_room_ok by (unfold MAX_STACK_SIZE; cbn [length]; rewrite length_app, length_reverse; simpl; lia). cbn [mbind script_res_bind].
  rewrite go_multisig. destruct (multisig_spend _ _ _ _) as [st'|[]|] eqn:E; [|done..]. cbn [mbind script_res_bind].
  apply multisig_spend_length in E. by rewrite stack_room_ok by (unfold MAX_STACK_SIZE; lia).
Qed.

Lemma go_pushes_inv items rest v st code x n pos r :
  Forall pushable items -> finish (run checker flags v (pushes items ++ rest) (mk st code x n pos)) = Ret r ->
  exists pos', finish (run checker flags v rest (mk (reverse items ++ st) code x n pos')) = Ret r.
Proof.
  intros Hi. revert st pos. induction Hi as [|d items Hd _ IH]; intros st pos Hev; [by exists pos|].
  rewrite pushes_cons, <-app_assoc, go_push in Hev by done. apply finish_ret in Hev as (? & _ & Hev).
  destruct (IH _ _ Hev) as [pos' H']. exists pos'. by rewrite reverse_cons, <-app_assoc.
Qed.

Lemma mscript_inv st st' :
  EvalBase checker flags st (mscript m keys) = Ret st' -> multisig_spend m keys (mscript m keys) st = Ret st'.
Proof.
  intros Hev. unfold EvalBase in Hev. apply script_bind_ret in Hev as ([st2 x2] & Hev & [= <-]).
  rewrite EvalScript_go in Hev by apply mscript_fits. cbn [is_TAPROOT negb script_assert mbind script_res_bind] in Hev.
  unfold mscript at 1 in Hev. rewrite go_int in Hev by (unfold MAX_OPS_PER_SCRIPT; lia).
  apply finish_ret in Hev as (? & _ & Hev). apply go_pushes_inv in Hev as [pos' Hev]; [|apply keys_pushable].
  rewrite <-small_count, go_int in Hev by (unfold MAX_OPS_PER_SCRIPT; lia). apply finish_ret in Hev as (? & _ & Hev).
  rewrite go_multisig in Hev. apply finish_ret in Hev as (st3 & -> & Hev). apply finish_ret in Hev as (? & _ & Hev).
  cbn in Hev. by simplify_eq.
Qed.

End Script.

End MultisigScripts.
