(* ===== verification/InterpSafe.v ===== *)
(** * Scripts cannot stop the node

    The invariant of the interpreter's state (bytes, element sizes, stack
    sizes), kept by every instruction, and the absence of failed assertions in
    [EvalScript] and [VerifyScript]. *)

From S2P Require Import Prelude Digits JsString Bytes Crypto JsInt Sha1 Tx NodeTx ScriptError NodeScript ScriptNum Interpreter InterpFacts Verify VerifyFacts.

Open Scope Z_scope.
Open Scope list_scope.

(** ** Safe computations *)

(** The computation does not abort, and what it returns satisfies [P]. *)
Definition safe {A} (m : script_res A) (P : A -> Prop) : Prop := aborts m = false /\ forall a, m = Ret a -> P a.

Lemma safe_ret {A} (a : A) (P : A -> Prop) : P a -> safe (Ret a) P.
Proof. intros Ha. split; [done|]. by intros ? [= <-]. Qed.

Lemma safe_err {A} e (P : A -> Prop) : safe (set_error e) P.
Proof. by split. Qed.

Lemma safe_bind {A B} (m : script_res A) (f : A -> script_res B) P Q :
  safe m P -> (forall a, m = Ret a -> P a -> safe (f a) Q) -> safe (m ≫= f) Q.
Proof. intros [Hm HP] Hf. destruct m as [a|e|]; [apply (Hf a); [done|by apply HP]|by split|done]. Qed.

Lemma safe_mono {A} (m : script_res A) (P Q : A -> Prop) : safe m P -> (forall a, P a -> Q a) -> safe m Q.
Proof. intros [Hm HP] HQ. split; [done|]. intros a Ha. by apply HQ, HP. Qed.

Lemma safe_error_if c e : safe (error_if c e) (fun _ => c = false).
Proof. split; [apply error_if_aborts|]. by intros a Ha%error_if_ret. Qed.

Lemma safe_assert c : c = true -> safe (script_assert c) (fun _ => True).
Proof. intros ->. by apply safe_ret. Qed.

Lemma safe_unknown {A} (m : script_res A) P : safe m P -> safe (unknown_by_default m) P.
Proof. intros [Hm HP]. by destruct m as [a|[]|]; split. Qed.

Lemma safe_ok {A} (m : script_res A) P : safe m P -> safe (ok_by_default m) P.
Proof. intros [Hm HP]. by destruct m as [a|[]|]; split. Qed.

(** Run the guards of a computation. *)
Ltac guards :=
  repeat first
    [ apply safe_err
    | eapply safe_bind; [apply safe_error_if|intros ? _ ?]
    | match goal with |- safe bad_stack _ => apply safe_err end
    | match goal with |- safe (if ?c then _ else _) _ => let E := fresh "E" in destruct c eqn:E end ].

(** ** Elements *)

Definition elem_ok (v : list Z) : Prop := bytes_ok v /\ (length v <= MAX_SCRIPT_ELEMENT_SIZE)%nat.

Lemma elem_num n : Z.abs n < 2 ^ 39 -> elem_ok (serialize n).
Proof.
  intros Hn. split; [apply serialize_bytes|]. unfold MAX_SCRIPT_ELEMENT_SIZE.
  pose proof (serialize_length n 5 ltac:(lia) Hn). lia.
Qed.

Lemma elem_bool b : elem_ok (bool_vch b).
Proof. destruct b; split; cbn; unfold MAX_SCRIPT_ELEMENT_SIZE; try lia; by repeat constructor. Qed.

Lemma safe_num mini v : elem_ok v -> safe (num mini v) (fun n => Z.abs n < 2 ^ 31).
Proof. intros [Hv _]. split; [apply CScriptNum_aborts|]. intros n Hn. by eapply operand_bound. Qed.

Lemma bool_num_small b : Z.abs (bool_num b) < 2.
Proof. by destruct b. Qed.

(** The main stack before an instruction. A witness may bring more than [MAX_STACK_SIZE] elements to the first one. *)
Definition stack_ok (st : list (list Z)) : Prop := Forall elem_ok st /\ Z.of_nat (length st) < 2 ^ 31.

Ltac elems :=
  repeat match goal with
  | Hs : stack_ok _ |- _ => destruct Hs as [Hs ?]
  | Hs : Forall _ (_ :: _) |- _ => apply Forall_cons_1 in Hs as [? Hs]
  | |- Forall _ (_ :: _) => apply Forall_cons_2
  | |- Forall _ [] => apply Forall_nil_2
  end.

Section PureOps.
Context (mini : bool).

Definition op_safe (f : list (list Z) -> script_res (list (list Z))) : Prop :=
  forall st, stack_ok st -> safe (f st) (Forall elem_ok).

Lemma safe_pick roll : op_safe (op_pick mini roll).
Proof.
  intros [|top [|x st]] Hst; try apply safe_err. unfold op_pick. elems. eapply safe_bind; [by apply safe_num|].
  intros n _ _. guards. destruct ((x :: st) !! _) as [v|] eqn:Ev; [|apply safe_err]. apply safe_ret.
  assert (Forall elem_ok (x :: st)) as Hall by (by constructor). constructor; [by eapply Forall_lookup_1|].
  destruct roll; [|done]. apply Forall_app. split; [by apply Forall_take|by apply Forall_drop].
Qed.

Lemma safe_stack_op opcode f : stack_op mini opcode = Some f -> op_safe f.
Proof.
  intros Hf. unfold stack_op in Hf.
  repeat match type of Hf with (if ?c then _ else _) = _ => destruct c end; simplify_eq; try apply safe_pick;
    intros st Hst.
  all: try (destruct st as [|x1 [|x2 [|x3 [|x4 [|x5 [|x6 st]]]]]]; try apply safe_err; apply safe_ret; elems; try done;
            try (case_match; elems; done); apply elem_num;
            repeat match goal with He : elem_ok _ |- _ => destruct He as [? He]; unfold MAX_SCRIPT_ELEMENT_SIZE in He end; simpl length; lia).
  - apply safe_ret. elems; [|done]. apply elem_num. lia.
Qed.

Lemma safe_equal verify : op_safe (op_equal verify).
Proof. intros [|x2 [|x1 st]] Hst; try apply safe_err. unfold op_equal. elems. guards; apply safe_ret; elems; try done; apply elem_bool. Qed.

Lemma safe_unary_op opcode f n : unary_op opcode = Some f -> Z.abs n < 2 ^ 31 -> safe (f n) (fun r => Z.abs r < 2 ^ 32).
Proof.
  intros Hf Hn. unfold unary_op in Hf. repeat match type of Hf with (if ?c then _ else _) = _ => destruct c end; simplify_eq.
  1,2: unfold num_add_assign, num_sub_assign, INT64_MAX, INT64_MIN; (eapply safe_bind; [apply safe_assert; b2p; lia|]);
    intros _ _ _; apply safe_ret; lia.
  - unfold num_neg, INT64_MIN. eapply safe_bind; [apply safe_assert; b2p; lia|]. intros _ _ _. apply safe_ret. lia.
  - destruct (n <? 0); [|apply safe_ret; lia].
    unfold num_neg, INT64_MIN. eapply safe_bind; [apply safe_assert; b2p; lia|]. intros _ _ _. apply safe_ret. lia.
  - apply safe_ret. pose proof (bool_num_small (n =? 0)). lia.
  - apply safe_ret. pose proof (bool_num_small (negb (n =? 0))). lia.
Qed.

Lemma binary_op_small opcode f a b :
  binary_op opcode = Some f -> Z.abs a < 2 ^ 31 -> Z.abs b < 2 ^ 31 -> Z.abs (f a b) < 2 ^ 32.
Proof.
  intros Hf Ha Hb. unfold binary_op in Hf. repeat match type of Hf with (if ?c then _ else _) = _ => destruct c end; simplify_eq; cbv beta;
    try match goal with |- context [bool_num ?c] => pose proof (bool_num_small c) end; try lia; case_match; lia.
Qed.

Lemma safe_unary opcode f : unary_op opcode = Some f -> op_safe (op_unary mini f).
Proof.
  intros Hf [|x st] Hst; [apply safe_err|]. unfold op_unary. elems. eapply safe_bind; [by apply safe_num|]. intros n _ Hn.
  eapply safe_bind; [by eapply safe_unary_op|]. intros r _ Hr. apply safe_ret. elems; [|done]. apply elem_num. cbv beta in *. lia.
Qed.

Lemma safe_binary opcode f : binary_op opcode = Some f -> op_safe (op_binary mini opcode f).
Proof.
  intros Hf [|x2 [|x1 st]] Hst; try apply safe_err. unfold op_binary. elems.
  eapply safe_bind; [by apply safe_num|]. intros a _ Ha. eapply safe_bind; [by apply safe_num|]. intros b _ Hb.
  pose proof (binary_op_small _ _ _ _ Hf Ha Hb). guards; apply safe_ret; elems; try done. apply elem_num. lia.
Qed.

Lemma safe_within : op_safe (op_within mini).
Proof.
  intros [|x3 [|x2 [|x1 st]]] Hst; try apply safe_err. unfold op_within. elems.
  do 3 (eapply safe_bind; [by apply safe_num|]; intros ? _ _). apply safe_ret. elems; [apply elem_bool|done].
Qed.

Lemma safe_verify : op_safe op_verify.
Proof. intros [|x st] Hst; [apply safe_err|]. unfold op_verify. elems. guards. by apply safe_ret. Qed.

Context `{CryptoLaws}.

Lemma hash_op_elem opcode f v : hash_op opcode = Some f -> elem_ok (f v).
Proof.
  intros Hf. unfold hash_op in Hf. unfold elem_ok, MAX_SCRIPT_ELEMENT_SIZE.
  repeat match type of Hf with (if ?c then _ else _) = _ => destruct c end; simplify_eq.
  - split; [apply ripemd160_bytes|]. rewrite ripemd160_length. lia.
  - split; [apply Sha1.hash_bytes|]. rewrite Sha1.hash_length. lia.
  - split; [apply sha256_bytes|]. rewrite sha256_length. lia.
  - split; [apply hash160_bytes|]. rewrite hash160_length. lia.
  - split; [apply doubleSha256_bytes|]. rewrite doubleSha256_length. lia.
Qed.

Lemma safe_digest opcode f : hash_op opcode = Some f -> op_safe (op_digest f).
Proof.
  intros Hf [|x st] Hst; [apply safe_err|]. apply safe_ret. elems; [by eapply hash_op_elem|done].
Qed.

Lemma small_int_abs opcode : small_int opcode = true -> Z.abs (opcode - (OP_1 - 1)) <= 16.
Proof. unfold small_int, OP_1NEGATE, OP_1, OP_16. intros [?%Z.eqb_eq | ?]%orb_true_iff; b2p; lia. Qed.

Lemma safe_pure opcode f : pure_op mini opcode = Some f -> op_safe f.
Proof.
  intros Hf. unfold pure_op in Hf. destruct (small_int opcode) eqn:Es.
  { injection Hf as <-. intros st Hst. apply small_int_abs in Es. apply safe_ret. elems; [apply elem_num; lia|done]. }
  repeat match type of Hf with (if ?c then _ else _) = _ => destruct c end; simplify_eq;
    try (apply safe_verify || apply safe_equal || apply safe_within).
  - intros st Hst. apply safe_ret. by elems.
  - intros st _. apply safe_err.
  - destruct (stack_op mini opcode) eqn:E1; [simplify_eq; by eapply safe_stack_op|].
    destruct (unary_op opcode) eqn:E2; [simplify_eq; by eapply safe_unary|].
    destruct (binary_op opcode) eqn:E3; [simplify_eq; by eapply safe_binary|].
    destruct (hash_op opcode) eqn:E4; [|done]. injection Hf as <-. by eapply safe_digest.
Qed.

End PureOps.

(** ** Signature checks *)

(** The execution data a Tapscript needs. *)
Definition exec_ok (v : SigVersion) (x : ScriptExecutionData) : Prop :=
  is_Some (m_codeseparator_pos x) /\
  (v = TAPSCRIPT -> is_Some (m_tapleaf_hash x) /\ is_Some (m_annex x) /\ is_Some (m_validation_weight_left x)).

(** What a checker promises: it does not abort, and keeps the execution data. *)
Class SafeChecker (checker : BaseSignatureChecker) (v : SigVersion) : Prop := {
  safe_ecdsa sig key code : aborts (checkECDSA checker sig key code v) = false;
  safe_schnorr sig key x : v = TAPSCRIPT -> length key = 32%nat -> exec_ok v x -> safe (checkSchnorr checker sig key v x) (exec_ok v)
}.

Section Signatures.
Context (checker : BaseSignatureChecker) (flags : Z) (v : SigVersion) `{!SafeChecker checker v}.

Lemma safe_any {A} (m : script_res A) : aborts m = false -> safe m (fun _ => True).
Proof. by intros Hm. Qed.

Lemma sig_encoding_aborts sig : aborts (CheckSignatureEncoding sig flags) = false.
Proof.
  unfold CheckSignatureEncoding, IsLowDERSignature. case_match; [done|]. case_match; [done|].
  apply script_bind_aborts; [|intros; apply error_if_aborts]. case_match; [|done].
  apply script_bind_aborts; [apply error_if_aborts|intros; apply error_if_aborts].
Qed.

Lemma key_encoding_aborts key : aborts (CheckPubKeyEncoding key flags v) = false.
Proof. unfold CheckPubKeyEncoding. apply script_bind_aborts; [apply error_if_aborts|intros; apply error_if_aborts]. Qed.

Lemma drop_signature_aborts code sig : aborts (drop_signature flags v code sig) = false.
Proof. unfold drop_signature. case_match; [|done]. case_match. apply script_bind_aborts; [apply error_if_aborts|done]. Qed.

Lemma safe_checksig_pre sig key code :
  is_BASE v || is_WITNESS_V0 v = true -> aborts (EvalChecksigPreTapscript checker flags v sig key code) = false.
Proof.
  intros Hv. unfold EvalChecksigPreTapscript. rewrite Hv. cbn [script_assert mbind script_res_bind].
  apply script_bind_aborts; [apply drop_signature_aborts|intros ? _].
  apply script_bind_aborts; [apply sig_encoding_aborts|intros ? _].
  apply script_bind_aborts; [apply key_encoding_aborts|intros ? _].
  apply script_bind_aborts; [apply safe_ecdsa|intros ? _]. apply script_bind_aborts; [apply error_if_aborts|done].
Qed.

Lemma exec_ok_weight x w : exec_ok v x -> exec_ok v (set_weight_left w x).
Proof. intros [Hc Ht]. split; [done|]. intros Hv. destruct (Ht Hv) as (? & ? & _). done. Qed.

End Signatures.

Lemma safe_checksig checker flags v `{!SafeChecker checker v} sig key code x :
  v <> TAPROOT -> exec_ok v x -> safe (EvalChecksig checker flags v sig key code x) (fun r => exec_ok v r.2).
Proof.
  intros Hv Hx. destruct v; [..|done|].
  1,2: eapply safe_bind; [by apply safe_any, safe_checksig_pre|]; intros ok _ _; by apply safe_ret.
  cbn [EvalChecksig]. unfold EvalChecksigTapscript. eapply safe_bind; [by apply safe_assert|]. intros _ _ _.
  apply safe_bind with (P := exec_ok TAPSCRIPT).
  - destruct (negb _); [|by apply safe_ret]. pose proof Hx as [_ Ht]. destruct (Ht eq_refl) as (? & ? & [w Hw]). rewrite Hw.
    guards. apply safe_ret. by apply exec_ok_weight.
  - intros x' _ Hx'. apply safe_bind with (P := exec_ok TAPSCRIPT); [|intros x2 _ Hx2; by apply safe_ret].
    guards; try by apply safe_ret. apply safe_schnorr; [done| |done]. by b2p.
Qed.

(** ** States *)

Definition interp_ok (v : SigVersion) (s : interp) : Prop :=
  Forall elem_ok (stack s) /\ Forall elem_ok (altstack s) /\ Z.of_nat (length (stack s) + length (altstack s)) < 2 ^ 31 /\
  0 <= m_stack_size (vfExec s) /\ exec_ok v (execdata s).

(** The state after an instruction, before the size check. *)
Definition interp_after (v : SigVersion) (s : interp) : Prop :=
  Forall elem_ok (stack s) /\ Forall elem_ok (altstack s) /\ 0 <= m_stack_size (vfExec s) /\ exec_ok v (execdata s).

Lemma interp_ok_after v s : interp_ok v s -> interp_after v s.
Proof. by intros (? & ? & ? & ? & ?). Qed.

Lemma interp_ok_stack v s : interp_ok v s -> stack_ok (stack s).
Proof. intros (? & ? & ? & ? & ?). split; [done|lia]. Qed.

Lemma u32_nonneg z : 0 <= u32 z.
Proof. unfold u32. apply Z.mod_pos_bound. lia. Qed.

Section Steps.
Context `{CryptoLaws} (checker : BaseSignatureChecker) (flags : Z) (v : SigVersion) `{!SafeChecker checker v} (Hv : v <> TAPROOT).

Lemma safe_op_checksig verify s : interp_ok v s -> safe (op_checksig checker flags v verify s) (interp_after v).
Proof.
  intros (Hs & Ha & Hl & Hc & Hx). unfold op_checksig. destruct (stack s) as [|key [|sig st]]; try apply safe_err. elems.
  eapply safe_bind; [by apply safe_checksig|]. intros [ok x] _ Hx'. cbv beta in Hx'.
  guards; apply safe_ret; (split; [|by split]); cbn [stack set_stack]; elems; try done. apply elem_bool.
Qed.

Lemma safe_op_checksigadd s : interp_ok v s -> safe (op_checksigadd checker flags v s) (interp_after v).
Proof.
  intros (Hs & Ha & Hl & Hc & Hx). unfold op_checksigadd. guards. destruct (stack s) as [|key [|n [|sig st]]]; try apply safe_err. elems.
  eapply safe_bind; [by apply safe_num|]. intros k _ Hk. eapply safe_bind; [by apply safe_checksig|]. intros [ok x] _ Hx'.
  cbv beta in *. apply safe_ret. split; [|by split]. cbn [stack set_stack]. elems; [|done]. apply elem_num.
  pose proof (bool_num_small ok). lia.
Qed.

Lemma multisig_loop_aborts code keys sigs : aborts (multisig_loop checker flags v code keys sigs) = false.
Proof.
  revert sigs. induction keys as [|k keys IH]; intros [|s sigs]; try done. cbn [multisig_loop].
  apply script_bind_aborts; [apply sig_encoding_aborts|intros ? _].
  apply script_bind_aborts; [apply key_encoding_aborts|intros ? _].
  apply script_bind_aborts; [apply safe_ecdsa|intros ok _]. by case_match.
Qed.

Lemma drop_signatures_aborts code sigs : aborts (drop_signatures flags v code sigs) = false.
Proof.
  revert code. induction sigs as [|s sigs IH]; intros code; [done|]. cbn [drop_signatures].
  apply script_bind_aborts; [apply drop_signature_aborts|intros ? _; apply IH].
Qed.

Lemma safe_cleanup ok i k st : Forall elem_ok st -> safe (multisig_cleanup flags ok i k st) (Forall elem_ok).
Proof.
  revert k st. induction i as [|i IH]; intros k [|top st] Hst; try (by apply safe_ret); [apply safe_err|].
  cbn [multisig_cleanup]. guards. apply IH. by elems.
Qed.

Lemma safe_op_checkmultisig verify s : interp_ok v s -> safe (op_checkmultisig checker flags v verify s) (interp_after v).
Proof.
  intros (Hs & Ha & Hl & Hc & Hx). unfold op_checkmultisig. guards. destruct (stack s) as [|top st] eqn:Est; [apply safe_err|].
  elems. eapply safe_bind; [by apply safe_num|]. intros n _ _. guards.
  destruct (drop _ st) as [|m rest] eqn:Ed; [apply safe_err|].
  assert (Forall elem_ok (m :: rest)) as Hrest by (rewrite <-Ed; by apply Forall_drop). elems.
  eapply safe_bind; [by apply safe_num|]. intros k _ _. guards.
  eapply safe_bind; [apply safe_any, drop_signatures_aborts|]. intros code _ _.
  eapply safe_bind; [apply safe_any, multisig_loop_aborts|]. intros ok _ _.
  eapply safe_bind; [apply safe_cleanup; cbn [stack set_nOpCount]; rewrite Est; by constructor|]. intros st2 _ Hst2.
  destruct st2 as [|dummy st2]; [apply safe_err|]. elems.
  guards; apply safe_ret; (split; [|by split]); cbn [stack set_stack]; elems; try done. apply elem_bool.
Qed.

Lemma safe_op_if notif fExec s : interp_ok v s -> safe (op_if flags v notif fExec s) (interp_after v).
Proof.
  intros (Hs & Ha & Hl & Hc & Hx). unfold op_if. destruct fExec.
  - destruct (stack s) as [|x st]; [apply safe_err|]. elems. guards. apply safe_ret. split; [done|]. split; [done|].
    split; [apply u32_nonneg|done].
  - apply safe_ret. split; [done|]. split; [done|]. split; [apply u32_nonneg|done].
Qed.

Lemma cond_nonempty c : 0 <= m_stack_size c -> cond_empty c = false -> 0 < m_stack_size c.
Proof. unfold cond_empty. intros Hc He. b2p. lia. Qed.

Lemma safe_op_else s : interp_ok v s -> safe (op_else s) (interp_after v).
Proof.
  intros (Hs & Ha & Hl & Hc & Hx). unfold op_else. destruct (cond_empty _) eqn:E; [apply safe_err|].
  pose proof (cond_nonempty _ Hc E). unfold toggle_top. rewrite (proj2 (Z.ltb_lt _ _)) by done. cbn [script_assert mbind script_res_bind].
  by apply safe_ret.
Qed.

Lemma safe_op_endif s : interp_ok v s -> safe (op_endif s) (interp_after v).
Proof.
  intros (Hs & Ha & Hl & Hc & Hx). unfold op_endif. destruct (cond_empty _) eqn:E; [apply safe_err|].
  pose proof (cond_nonempty _ Hc E). unfold pop_back. rewrite (proj2 (Z.ltb_lt _ _)) by done. cbn [script_assert mbind script_res_bind].
  apply safe_ret. split; [done|]. split; [done|]. split; [apply u32_nonneg|done].
Qed.

Lemma safe_lock s m : interp_ok v s -> aborts m = false -> (forall s', m = Ret s' -> s' = s) -> safe m (interp_after v).
Proof. intros Hs Hm Hsame. split; [done|]. intros s' ->%Hsame. by apply interp_ok_after. Qed.

Lemma safe_op_cltv s : interp_ok v s -> safe (op_checklocktimeverify checker flags s) (interp_after v).
Proof.
  intros Hs. unfold op_checklocktimeverify. case_match; [by apply safe_ret, interp_ok_after|].
  destruct (stack s); [apply safe_err|]. eapply safe_bind; [apply safe_any, CScriptNum_aborts|]. intros n _ _. guards.
  by apply safe_ret, interp_ok_after.
Qed.

Lemma safe_op_csv s : interp_ok v s -> safe (op_checksequenceverify checker flags s) (interp_after v).
Proof.
  intros Hs. unfold op_checksequenceverify. case_match; [by apply safe_ret, interp_ok_after|].
  destruct (stack s); [apply safe_err|]. eapply safe_bind; [apply safe_any, CScriptNum_aborts|]. intros n _ _. guards;
  by apply safe_ret, interp_ok_after.
Qed.

Lemma safe_exec opcode fExec pc s : interp_ok v s -> safe (exec_opcode checker flags v opcode fExec pc s) (interp_after v).
Proof.
  intros Hs. unfold exec_opcode. destruct (pure_op _ opcode) as [f|] eqn:Ef.
  { eapply safe_bind; [by eapply (safe_pure _ _ _ Ef), interp_ok_stack|]. intros st _ Hst. apply safe_ret.
    destruct Hs as (? & ? & ? & ? & ?). by split. }
  repeat match goal with |- safe (if ?c then ?m else _) _ => destruct c;
    [first [by apply safe_op_cltv | by apply safe_op_csv | by apply safe_op_if | by apply safe_op_else | by apply safe_op_endif
          | by apply safe_op_checksig | by apply safe_op_checksigadd | by apply safe_op_checkmultisig | idtac]|] end.
  - guards. by apply safe_ret, interp_ok_after.
  - destruct Hs as (Hs & Ha & Hl & Hc & Hx). unfold op_toaltstack. destruct (stack s) as [|x st]; [apply safe_err|]. elems.
    apply safe_ret. split; [done|]. split; [by constructor|done].
  - destruct Hs as (Hs & Ha & Hl & Hc & Hx). unfold op_fromaltstack. destruct (altstack s) as [|x st]; [apply safe_err|]. elems.
    apply safe_ret. split; [by constructor|done].
  - destruct Hs as (Hs & Ha & Hl & Hc & Hx). apply safe_ret. split; [done|]. split; [done|]. split; [done|].
    destruct Hx as [_ Hx]. by split.
  - apply safe_err.
Qed.

Lemma GetScriptOp_bytes pc ok opcode data pc' :
  GetScriptOp pc = (ok, opcode, data, pc') -> bytes_ok pc -> bytes_ok data /\ bytes_ok pc'.
Proof.
  intros Hg Hok. unfold GetScriptOp, push_size in Hg.
  repeat (case_match; simplify_eq); repeat match goal with Hb : bytes_ok (_ :: _) |- _ => apply Forall_cons_1 in Hb as [_ Hb] end;
    split; try apply bytes_ok_nil; try done; repeat first [apply bytes_ok_take | apply bytes_ok_drop]; try done;
    repeat match goal with Hb : Forall _ (_ :: _) |- _ => apply Forall_cons_1 in Hb as [_ Hb] end; done.
Qed.

Lemma safe_step pc s :
  bytes_ok pc -> interp_ok v s -> safe (eval_step checker flags v pc s) (fun r => bytes_ok r.1 /\ interp_ok v r.2).
Proof.
  intros Hpc Hs. unfold eval_step. destruct (GetScriptOp pc) as [[[ok opcode] data] pc'] eqn:Eg.
  destruct (GetScriptOp_bytes _ _ _ _ _ Eg Hpc) as [Hdata Hpc']. guards. cbv beta in *.
  apply safe_bind with (P := interp_ok v).
  { unfold count_op. guards; by apply safe_ret. }
  intros s' _ Hs'. guards. apply safe_bind with (P := interp_after v).
  - destruct (all_true _ && _).
    + guards. apply safe_ret. destruct Hs' as (? & ? & ? & ? & ?). split; [|done]. cbn. constructor; [|done]. split; [done|].
      by apply Nat.ltb_ge.
    + destruct (all_true _ || _); [by apply safe_exec|by apply safe_ret, interp_ok_after].
  - intros s2 _ (? & ? & ? & ?). guards. cbv beta in *. apply safe_ret. split; [done|].
    match goal with Hsz : (MAX_STACK_SIZE <? _)%nat = false |- _ => apply Nat.ltb_ge in Hsz end. unfold MAX_STACK_SIZE in *.
    split; [done|]. split; [done|]. split; [cbn; lia|]. by split.
Qed.

Lemma safe_loop fuel pc s :
  (length pc <= fuel)%nat -> bytes_ok pc -> interp_ok v s -> safe (eval_loop checker flags v fuel pc s) (interp_ok v).
Proof.
  revert pc s. induction fuel as [|fuel IH]; intros [|b pc] s Hf Hpc Hs; simpl in Hf; try lia; try (by apply safe_ret).
  cbn [eval_loop]. eapply safe_bind; [by apply safe_step|]. intros [pc' s'] Hstep [Hpc' Hs']. apply IH; [|done|done].
  apply eval_step_shorter in Hstep. simpl in Hstep. lia.
Qed.

Lemma safe_eval st script x :
  stack_ok st -> bytes_ok script -> exec_ok v (set_codeseparator_pos 0xffffffff x) ->
  safe (EvalScript checker flags v st script x) (fun r => stack_ok r.1 /\ exec_ok v r.2).
Proof.
  intros [Hst Hl] Hscript Hx. unfold EvalScript. eapply safe_bind; [apply safe_assert; by destruct v|]. intros _ _ _. guards.
  eapply safe_bind; [apply safe_unknown, safe_loop; [done|done|]|].
  { split; [done|]. split; [apply Forall_nil_2|]. split; [cbn; lia|]. split; [cbn; lia|done]. }
  intros s _ Hs. guards. apply safe_ret. split; [by eapply interp_ok_stack|]. by destruct Hs as (? & ? & ? & ? & ?).
Qed.

End Steps.

(** ** Verifying an input *)

Section VerifySafe.
Context `{CryptoLaws} `{Curve} (checker : BaseSignatureChecker) (flags : Z).
Context `{!SafeChecker checker BASE} `{!SafeChecker checker WITNESS_V0}.

(** The checker has what a Taproot input needs. *)
Definition taproot_ready : Prop :=
  SafeChecker checker TAPSCRIPT /\
  forall sig key x, length key = 32%nat -> is_Some (m_annex x) -> aborts (checkSchnorr checker sig key TAPROOT x) = false.

Lemma scan_aborts fuel pc : (length pc <= fuel)%nat -> aborts (op_success_scan flags fuel pc) = false.
Proof.
  revert pc. induction fuel as [|fuel IH]; intros [|b pc] Hf; simpl in Hf; try lia; try done.
  cbn [op_success_scan]. destruct (GetScriptOp (b :: pc)) as [[[ok opcode] data] pc'] eqn:Eg. destruct ok; [|done].
  cbn [negb error_if mbind script_res_bind]. apply GetScriptOp_shorter in Eg. simpl in Eg.
  destruct (IsOpSuccess opcode); [|apply IH; lia]. by destruct (flag flags _).
Qed.

Lemma safe_execute v span script x :
  v <> TAPROOT -> SafeChecker checker v -> Forall bytes_ok span -> Z.of_nat (length span) < 2 ^ 31 -> bytes_ok script ->
  exec_ok v (set_codeseparator_pos 0xffffffff x) -> aborts (ExecuteWitnessScript checker flags span script v x) = false.
Proof.
  intros Hv Hc Hspan Hl Hscript Hx. unfold ExecuteWitnessScript.
  assert (aborts (op_success_scan flags (length script) script) = false) as Hscan by (by apply scan_aborts).
  apply script_bind_aborts; [|intros success].
  { destruct (is_TAPSCRIPT v); [|done]. apply script_bind_aborts; [done|]. intros [] ?; [done|]. by destruct (_ <? _)%nat. }
  intros _. destruct success; [done|].
  apply script_bind_aborts; [apply error_if_aborts|]. intros [] Hsz%error_if_ret.
  assert (stack_ok (reverse span)) as Hst.
  { split; [|by rewrite length_reverse]. apply Forall_reverse, Forall_forall. intros e He. split; [by eapply Forall_forall in Hspan|].
    apply Nat.ltb_ge, not_true_iff_false. intros Hlt. apply not_true_iff_false in Hsz. apply Hsz, existsb_exists.
    exists e. split; [by apply list_elem_of_In|done]. }
  destruct (safe_eval checker flags v Hv _ _ x Hst Hscript Hx) as [Ha _].
  apply script_bind_aborts; [done|]. intros [[|top [|]] ?] _; [done|apply error_if_aborts|done].
Qed.

Lemma commitment_aborts control program leaf :
  control_size_ok (length control) = true -> length program = 32%nat ->
  aborts (VerifyTaprootCommitment control program leaf) = false.
Proof.
  intros Hc Hp. unfold VerifyTaprootCommitment, XOnlyPubKey, ComputeTaprootMerkleRoot. rewrite Hc.
  apply andb_true_iff in Hc as [[Hmin _]%andb_true_iff _]. rewrite Hmin, Hp, length_take, length_drop.
  apply Nat.leb_le in Hmin. unfold TAPROOT_CONTROL_BASE_SIZE in *. by rewrite Nat.min_l by lia.
Qed.

Lemma bytes_last_list (l : list (list Z)) : Forall bytes_ok l -> bytes_ok (List.last l []).
Proof.
  induction l as [|x l IH]; intros Hl; [by apply bytes_ok_nil|]. apply Forall_cons_1 in Hl as [Hx Hl].
  destruct l; [done|]. by apply IH.
Qed.

Lemma Forall_removelast {A} (P : A -> Prop) l : Forall P l -> Forall P (removelast l).
Proof.
  induction l as [|x l IH]; intros Hl; [done|]. apply Forall_cons_1 in Hl as [Hx Hl]. destruct l; [by apply Forall_nil_2|].
  constructor; [done|]. by apply IH.
Qed.

Lemma length_removelast_le {A} (l : list A) : (length (removelast l) <= length l)%nat.
Proof. rewrite removelast_firstn_len, length_firstn. lia. Qed.

Lemma taproot_aborts witness program :
  taproot_ready -> length program = 32%nat -> Forall bytes_ok witness -> Z.of_nat (length witness) < 2 ^ 31 ->
  aborts (VerifyTaproot checker flags witness program) = false.
Proof.
  intros [Hscript Hkey] Hp Hw Hl. unfold VerifyTaproot. destruct (last witness) as [back|]; [|done].
  set (annexed := _ && _ && _). set (span := if annexed then _ else _). set (annex := if annexed then _ else _). clearbody annex.
  assert (Forall bytes_ok span /\ (length span <= length witness)%nat) as [Hspan Hlen].
  { subst span. pose proof (length_removelast_le witness). destruct annexed; [|by split]. split; [by apply Forall_removelast|done]. }
  clearbody span. clear annexed. destruct span as [|sig [|s2 span]]; [by vm_compute|apply script_bind_aborts; [apply Hkey; [done|by eexists]|done]|].
  set (sp := sig :: s2 :: span) in *. clearbody sp. clear sig s2 span.
  apply script_bind_aborts; [apply error_if_aborts|]. intros _ Hc%error_if_ret. apply negb_false_iff in Hc.
  apply script_bind_aborts; [by apply commitment_aborts|]. intros valid _.
  apply script_bind_aborts; [apply error_if_aborts|]. intros _ _. destruct (_ =? _); [|apply error_if_aborts].
  pose proof (length_removelast_le sp). pose proof (length_removelast_le (removelast sp)).
  apply safe_execute; [done|done|by do 2 apply Forall_removelast|lia|by apply bytes_last_list, Forall_removelast|].
  split; [by eexists|]. intros _. by repeat split; eexists.
Qed.

Lemma program_aborts witness version program is_p2sh :
  Forall bytes_ok witness -> Z.of_nat (length witness) < 2 ^ 31 -> bytes_ok program ->
  (version = 1 -> length program = 32%nat -> is_p2sh = false -> witness <> [] -> taproot_ready) ->
  aborts (VerifyWitnessProgram checker flags witness version program is_p2sh) = false.
Proof.
  intros Hw Hl Hp Htap. unfold VerifyWitnessProgram. pose proof (length_removelast_le witness). destruct (version =? 0).
  - destruct (_ =? WITNESS_V0_SCRIPTHASH_SIZE)%nat.
    + destruct (last witness) as [s|] eqn:El; [|done]. apply script_bind_aborts; [apply error_if_aborts|]. intros _ _.
      apply safe_execute; [done|done|by apply Forall_removelast|lia| |split; [by eexists|done]].
      apply last_Some_elem_of in El. by eapply Forall_forall in Hw.
    + destruct (_ =? WITNESS_V0_KEYHASH_SIZE)%nat eqn:E20; [|done]. apply script_bind_aborts; [apply error_if_aborts|]. intros _ _.
      apply Nat.eqb_eq in E20. unfold WITNESS_V0_KEYHASH_SIZE in E20.
      apply safe_execute; [done|done|done|lia| |split; [by eexists|done]].
      unfold keyhash_script. rewrite push_data_short, E20 by lia.
      cbn [app]. repeat (apply bytes_ok_cons; [by vm_compute|]). apply bytes_ok_app_2; [done|].
      repeat (apply bytes_ok_cons; [by vm_compute|]). apply bytes_ok_nil.
  - destruct (_ && _ && _) eqn:E; [|apply error_if_aborts]. apply andb_true_iff in E as [[E1 E2]%andb_true_iff E3].
    apply Z.eqb_eq in E1. apply Nat.eqb_eq in E2. apply negb_true_iff in E3. destruct (negb _); [done|].
    destruct (decide (witness = [])) as [-> |Hne]; [done|]. by apply taproot_aborts; [apply Htap| | |].
Qed.

Lemma p2sh_script_inv script : IsPayToScriptHash script = true -> exists h, length h = 20%nat /\ script = p2sh_script h.
Proof.
  unfold IsPayToScriptHash. intros (((Hl%Nat.eqb_eq & H0'%Z.eqb_eq)%andb_true_iff & H1'%Z.eqb_eq)%andb_true_iff & H2'%Z.eqb_eq)%andb_true_iff.
  destruct script as [|a [|b script]]; [done|done|]. cbn [nth] in H0', H1'. subst a b. simpl in Hl.
  exists (take 20 script). split; [rewrite length_take; lia|]. unfold p2sh_script. cbn [app]. do 2 f_equal.
  rewrite <-(take_drop 20 script) at 1. f_equal. change (nth 22 _ 0) with (nth 20 script 0) in H2'.
  assert (length (drop 20 script) = 1%nat) as Hd by (rewrite length_drop; lia).
  rewrite <-(take_drop 20 script), app_nth2, length_take in H2' by (rewrite length_take; lia).
  rewrite Nat.min_l in H2' by lia. destruct (drop 20 script) as [|x [|]]; [done| |done]. cbn [nth Nat.sub] in H2'. by subst x.
Qed.

Lemma verify_program_safe script malleated e is_p2sh witness st :
  bytes_ok script -> Forall bytes_ok witness -> Z.of_nat (length witness) < 2 ^ 31 ->
  (forall program, IsWitnessProgram script = Some (1, program) -> length program = 32%nat -> is_p2sh = false -> witness <> [] ->
     taproot_ready) ->
  aborts (verify_program checker flags script malleated e is_p2sh witness st) = false.
Proof.
  intros Hs Hw Hl Htap. unfold verify_program. destruct (flag _ _); [|done].
  destruct (IsWitnessProgram script) as [[version program]|] eqn:E; [|done].
  apply script_bind_aborts; [apply error_if_aborts|]. intros _ _. apply script_bind_aborts; [|done]. apply program_aborts; [done|done| |].
  - unfold IsWitnessProgram in E. repeat case_match; simplify_eq. by apply bytes_ok_drop.
  - intros -> ?. by apply (Htap program).
Qed.

Lemma safe_base st script :
  stack_ok st -> bytes_ok script -> safe (EvalBase checker flags st script) stack_ok.
Proof.
  intros Hst Hs. unfold EvalBase. eapply safe_bind; [apply safe_eval; [done..|split; [by eexists|done]]|].
  intros [st' x] _ [Hst' _]. by apply safe_ret.
Qed.

Lemma verify_aborts scriptSig scriptPubKey witness :
  flags_ok flags -> bytes_ok scriptSig -> bytes_ok scriptPubKey -> Forall bytes_ok witness -> Z.of_nat (length witness) < 2 ^ 31 ->
  (forall program, IsWitnessProgram scriptPubKey = Some (1, program) -> length program = 32%nat -> witness <> [] -> taproot_ready) ->
  aborts (VerifyScript checker flags scriptSig scriptPubKey witness) = false.
Proof.
  intros [Hclean Hwit] Hsig Hpk Hw Hl Htap. unfold VerifyScript. apply (safe_ok _ (fun _ => True)). guards.
  assert (stack_ok []) as H0' by (split; [by apply Forall_nil_2|by cbn]).
  eapply safe_bind; [by apply safe_base|]. intros st1 E1 Hst1. eapply safe_bind; [by apply safe_base|]. intros st2 E2 Hst2. guards.
  eapply safe_bind; [apply safe_any, verify_program_safe; [done..|by eauto]|]. intros [had st3] _ _.
  eapply safe_bind; [apply safe_any|].
  { destruct (flag flags SCRIPT_VERIFY_P2SH && IsPayToScriptHash scriptPubKey) eqn:Ep; [|done]. apply andb_true_iff in Ep as [_ (h & Hh & ->)%p2sh_script_inv].
    apply script_bind_aborts; [|by intros [] _]. unfold verify_p2sh. apply script_bind_aborts; [apply error_if_aborts|]. intros _ _.
    destruct st1 as [|redeem st1]; [by rewrite EvalBase_p2sh in E2 by (done || (simpl; lia))|].
    destruct Hst1 as [[[Hr _] Hst1]%Forall_cons_1 Hl1]. simpl in Hl1.
    apply script_bind_aborts; [apply safe_base; [split; [done|lia]|done]|]. intros st' _.
    apply script_bind_aborts; [apply error_if_aborts|]. intros _ _. by apply verify_program_safe. }
  intros [had' st4] _ _. apply safe_any.
  destruct (flag flags SCRIPT_VERIFY_CLEANSTACK), (flag flags SCRIPT_VERIFY_WITNESS), (flag flags SCRIPT_VERIFY_P2SH);
    first [by specialize (Hclean eq_refl) | by specialize (Hwit eq_refl) | idtac]; cbn [script_assert mbind script_res_bind];
    try done; try apply script_bind_aborts; intros; apply error_if_aborts.
Qed.

End VerifySafe.

(** ** The checker of a transaction input *)

Section TxChecker.
Context `{CryptoLaws} `{Curve} (c : tx_checker).

(** The input exists, and its amount is known where a signature commits to it. *)
Definition input_known : Prop := (nIn c < length (vin (txTo c)))%nat /\ (m_mdb c = FAIL \/ 0 <= amount c).

(** The data of BIP 341 is there, or its absence fails the signature. *)
Definition taproot_known : Prop :=
  m_mdb c = FAIL \/ exists d, txdata c = Some d /\ is_Some (c_bip341 d) /\ is_Some (c_spent_outputs d).

Lemma missing_aborts {A} (m : script_res A) : m_mdb c = FAIL -> aborts m = false ->
  aborts (_ ← HandleMissingData (m_mdb c); m) = false.
Proof. by intros ->. Qed.

Lemma ecdsa_aborts sig key code v : input_known -> aborts (CheckECDSASignature c sig key code v) = false.
Proof.
  intros [Hin Ha]. unfold CheckECDSASignature. destruct (CPubKey_Set key); [|done]. destruct sig as [|b sig]; [done|].
  set (last := List.last _ _). set (init := removelast _). clearbody last init.
  destruct (match v with WITNESS_V0 => amount c <? 0 | _ => false end) eqn:E.
  - destruct Ha as [-> | Ha]; [done|]. destruct v; try done. b2p. lia.
  - by rewrite (proj2 (Nat.ltb_lt _ _) Hin).
Qed.

Lemma sighash_schnorr_safe x in_pos hash_type v d mdb :
  (in_pos < length (vin (txTo c)))%nat -> v = TAPROOT \/ v = TAPSCRIPT ->
  mdb = FAIL \/ (is_Some (c_bip341 d) /\ is_Some (c_spent_outputs d)) ->
  is_Some (m_annex x) -> (v = TAPSCRIPT -> exec_ok v x) ->
  safe (SignatureHashSchnorr x (txTo c) in_pos hash_type v d mdb)
    (fun r => forall h x', r = Some (h, x') -> exec_ok v x -> exec_ok v x').
Proof.
  intros Hin Hv Hd [a Ha] Hx. unfold SignatureHashSchnorr.
  eapply (safe_bind _ _ (fun _ => True)); [by destruct Hv as [-> | ->]|]. intros ext _ _.
  destruct (lookup_lt_is_Some_2 _ _ Hin) as [txin ->].
  destruct (c_bip341 d) as [d'|]; [destruct (c_spent_outputs d) as [spent|]|].
  2-3: destruct Hd as [-> | [[] []]]; try done; by apply safe_ret.
  destruct (negb _); [by apply safe_ret|]. rewrite Ha. destruct (_ && (_ <=? _)%nat); [by apply safe_ret|].
  set (x1 := if _ : bool then _ else x). set (out := if _ =? SIGHASH_SINGLE then default [] _ else []). clearbody out.
  assert (m_tapleaf_hash x1 = m_tapleaf_hash x /\ m_codeseparator_pos x1 = m_codeseparator_pos x /\ (exec_ok v x -> exec_ok v x1))
    as (Hx1 & Hx2 & Hx3) by (subst x1; repeat case_match; (split; [done|split; [done|intros Hx1; exact Hx1]])).
  clearbody x1. eapply (safe_bind _ _ (fun _ => True)); [|intros leaf _ _; apply safe_ret; by intros ? ? [= _ <-]].
  destruct Hv as [-> | ->]; [done|]. destruct (Hx eq_refl) as [[p Hp] Ht]. destruct (Ht eq_refl) as ([l Hl] & _).
  by rewrite Hx1, Hx2, Hl, Hp.
Qed.

Lemma schnorr_safe sig key v x :
  input_known -> taproot_known -> v = TAPROOT \/ v = TAPSCRIPT -> length key = 32%nat -> is_Some (m_annex x) ->
  (v = TAPSCRIPT -> exec_ok v x) ->
  safe (CheckSchnorrSignature c sig key v x) (fun x' => exec_ok v x -> exec_ok v x').
Proof.
  intros [Hin _] Hd Hv Hk Ha Hx. unfold CheckSchnorrSignature, XOnlyPubKey. rewrite Hk.
  eapply (safe_bind _ _ (fun _ => True)); [by destruct Hv as [-> | ->]|]. intros _ _ _. cbn [Nat.eqb script_assert mbind script_res_bind].
  guards. eapply (safe_bind _ _ (fun r => length r.1 = 64%nat)).
  { destruct (length sig =? 65)%nat eqn:E65.
    - guards. apply safe_ret. cbn. rewrite removelast_firstn_len, length_firstn. b2p. lia.
    - apply safe_ret. cbn. cbv beta in *. destruct (length sig =? 64)%nat eqn:E64; [by b2p|done]. }
  intros [sig' hashtype] _ Hs. cbn in Hs. destruct (txdata c) as [d|] eqn:Ed.
  - eapply safe_bind; [apply sighash_schnorr_safe; try done|].
    { destruct Hd as [? |(d' & E' & ?)]; [by left|]. rewrite Ed in E'. simplify_eq. by right. }
    intros [[h x']|] _ Hr; [|apply safe_err]. unfold VerifySchnorr. rewrite Hs. cbn [Nat.eqb script_assert mbind script_res_bind].
    guards. apply safe_ret. by eapply Hr.
  - destruct Hd as [Hd | (d & E' & _)]; [|by rewrite Ed in E']. split; [by apply missing_aborts|]. by rewrite Hd.
Qed.

#[export] Instance tx_checker_safe v : input_known -> (v = TAPSCRIPT -> taproot_known) -> SafeChecker (TransactionSignatureChecker c) v.
Proof.
  intros Hin Htap. split; [intros; by apply ecdsa_aborts|]. intros sig key x -> Hk Hx. pose proof Hx as [_ Ht].
  destruct (Ht eq_refl) as (? & ? & ?). eapply safe_mono; [apply schnorr_safe; eauto|]. eauto.
Qed.

Lemma tx_taproot_ready : input_known -> taproot_known -> taproot_ready (TransactionSignatureChecker c).
Proof. intros Hin Htap. split; [by apply tx_checker_safe|]. intros sig key x Hk Ha. by apply schnorr_safe; eauto. Qed.

End TxChecker.
