(* ===== verification/Spend.v ===== *)
(** * The wallet's payments, checked by the node

    What [buildAndSignTransaction] of [crypto.js] returns, against the node's
    reader, signature hash and signature check of [NodeTx] and [NodeScript]:
    every input is signed correctly, and the size never exceeds the estimate
    the fee is computed from. *)

From S2P Require Import Prelude Digits JsString Bytes Crypto JsInt Tx NodeTx ScriptError NodeScript ScriptNum Interpreter InterpFacts Verify VerifyFacts.

Open Scope Z_scope.
Open Scope list_scope.

(** Documented behaviour of the two curve libraries together: the node's library
    parses the compressed keys of the wallet's, and verifies its signatures. *)
Class CurveLaws `{Crypto} `{Curve} : Prop := {
  publicKey_head k : exists h l, secp_publicKey k = h :: l /\ (h = 2 \/ h = 3);
  publicKey_parse k : ec_pubkey_parse (secp_publicKey k) = true;
  verify_sign h k sg : secp_sign h k = Ok sg ->
    ecdsa_verify (secp_publicKey k) h (sig_r sg, sig_s sg) = true
}.

(** ** Scripts *)

Lemma plain_opcode op s : OP_PUSHDATA4 < op -> op <> OP_CODESEPARATOR -> plain_script s -> plain_script (op :: s).
Proof.
  intros Hop Hne Hs. eapply (plain_op _ op [] s); [|done|done].
  unfold GetScriptOp. by rewrite (proj2 (Z.leb_gt _ _)) by done.
Qed.

Lemma plain_push data s :
  (length data < 76)%nat -> plain_script s -> plain_script (Z.of_nat (length data) :: data ++ s).
Proof.
  intros Hl Hs. eapply plain_op; [by apply GetScriptOp_push| |done]. unfold OP_CODESEPARATOR. lia.
Qed.

Lemma p2pkhScriptPubKey_bytes hash :
  bytes_ok hash -> p2pkhScriptPubKey hash = [0x76; 0xa9; 0x14] ++ hash ++ [0x88; 0xac].
Proof. intros H. unfold p2pkhScriptPubKey. apply u8arr_id. repeat (apply bytes_ok_app_2 || apply bytes_ok_cons || apply bytes_ok_nil); done || lia. Qed.

Lemma p2pkhScriptPubKey_script hash : bytes_ok hash -> p2pkhScriptPubKey hash = p2pkh_script hash.
Proof. apply p2pkhScriptPubKey_bytes. Qed.

Lemma plain_p2pkh hash : length hash = 20%nat -> bytes_ok hash -> plain_script (p2pkhScriptPubKey hash).
Proof.
  intros Hl Hok. rewrite p2pkhScriptPubKey_bytes by done. cbn [app].
  do 2 (apply plain_opcode; [done|done|]). change 0x14 with (Z.of_nat 20). rewrite <-Hl. apply plain_push; [lia|].
  do 2 (apply plain_opcode; [done|done|]). apply plain_nil.
Qed.

(** ** What the signing loop returns *)

Definition p2pkh_scriptSig (sg : signature) (pubkey : list Z) : list Z :=
  let sig := derEncodeSignature sg ++ [1] in
  u8arr [Z.of_nat (length sig)] ++ sig ++ u8arr [Z.of_nat (length pubkey)] ++ pubkey.

Section Build.
Context `{Crypto}.

(** Input [i] signed with its key: the script holds a signature of the
    unsigned transaction's hash for that input. *)
Definition signed_input (inputs : list utxo_input) (outputs : list tx_output)
    (privateKey publicKeyCompressed : option (list Z)) (locktime : Z) (i : nat) (inp : utxo_input) (script : list Z) : Prop :=
  exists k p sg,
    nullish (u_privateKey inp) privateKey = Some k /\
    nullish (u_publicKeyCompressed inp) publicKeyCompressed = Some p /\
    secp_sign (legacySighash (unsigned_input <$> inputs) outputs i (p2pkhScriptPubKey (u_pubkeyHash inp)) locktime) k = Ok sg /\
    script = p2pkh_scriptSig sg p.

Lemma sign_script_ok inputs outputs pk pub lt i inp script :
  inputs !! i = Some inp ->
  sign_script inputs outputs pk pub lt (unsigned_input <$> inputs) i = Ok script ->
  signed_input inputs outputs pk pub lt i inp script.
Proof.
  intros Hi Hs. unfold sign_script in Hs. rewrite Hi in Hs. cbn [defined mbind res_bind] in Hs.
  unfold signed_input. destruct (nullish (u_privateKey inp) pk) as [k|]; [|done]. cbn [defined mbind res_bind] in Hs.
  apply res_bind_ok in Hs as (sg & Hsg & Hs).
  destruct (nullish (u_publicKeyCompressed inp) pub) as [p|]; [|done]. cbn [defined mbind res_bind] in Hs.
  apply Ok_inj in Hs as <-. exists k, p, sg. do 3 (split; [done|]).
  rewrite !concatBytes_concat. unfold p2pkh_scriptSig. cbn [mjoin list_join]. rewrite !app_nil_r. done.
Qed.

Lemma build_inv inputs outputs pk pub lt raw :
  buildAndSignTransaction inputs outputs pk pub lt = Ok raw ->
  exists scripts,
    inputs <> [] /\ length scripts = length inputs /\
    raw = serializeTx 2 (zip_with set_scriptSig scripts (unsigned_input <$> inputs)) outputs lt /\
    (forall i inp script, inputs !! i = Some inp -> scripts !! i = Some script ->
       signed_input inputs outputs pk pub lt i inp script).
Proof.
  unfold buildAndSignTransaction. intros (u & Hne%throw_if_ok & Hb)%res_bind_ok.
  rewrite <-(length_fmap unsigned_input inputs), sign_loop in Hb. rewrite length_fmap in Hb.
  apply res_bind_ok in Hb as (txi & Htxi & <-%Ok_inj).
  apply res_bind_ok in Htxi as (scripts & Hm & <-%Ok_inj).
  apply mapR_ok in Hm. pose proof (Forall2_length _ _ _ Hm) as Hlen. rewrite length_seq in Hlen.
  exists scripts. split; [by destruct inputs|]. split; [done|]. split; [done|].
  intros i inp script Hi Hs. apply (sign_script_ok _ _ _ _ _ _ _ _ Hi).
  eapply (Forall2_lookup_lr _ _ _ i i script) in Hm; [done| |done].
  apply lookup_seq_lt. by eapply lookup_lt_Some.
Qed.

(** The node hashes the signed transaction, the wallet the unsigned one. *)
Lemma legacySighash_signed scripts inputs outputs i sub lt :
  length scripts = length inputs ->
  legacySighash (zip_with set_scriptSig scripts inputs) outputs i sub lt = legacySighash inputs outputs i sub lt.
Proof.
  intros Hl. unfold legacySighash. do 4 f_equal. apply list_eq. intros k. unfold blank_inputs.
  rewrite !list_lookup_imap, lookup_zip_with.
  destruct (inputs !! k) as [inp|] eqn:E; [|by destruct (scripts !! k)].
  destruct (lookup_lt_is_Some_2 scripts k) as [s ->]; [rewrite Hl; by eapply lookup_lt_Some|]. done.
Qed.

End Build.

Definition wf_utxo (u : utxo_input) : Prop :=
  length (u_txid u) = 32%nat /\ 0 <= u_vout u < 2 ^ 32 /\
  length (u_pubkeyHash u) = 20%nat /\ bytes_ok (u_pubkeyHash u) /\
  0 <= default 0xfffffffd (u_sequence u) < 2 ^ 32.

Definition wf_payment (inputs : list utxo_input) (outputs : list tx_output) (locktime : Z) : Prop :=
  Z.of_nat (length inputs) <= MAX_SIZE /\ Forall wf_utxo inputs /\
  Z.of_nat (length outputs) <= MAX_SIZE /\ Forall wf_output outputs /\ 0 <= locktime < 2 ^ 32.

Section Verified.
Context `{CryptoLaws} {CU : Curve} {CL : CurveLaws}.

(** The public key given for an input is the one of its private key, and the
    output pays to its hash. *)
Definition own_key (privateKey publicKeyCompressed : option (list Z)) (u : utxo_input) : Prop :=
  exists k, nullish (u_privateKey u) privateKey = Some k /\
    nullish (u_publicKeyCompressed u) publicKeyCompressed = Some (secp_publicKey k) /\
    u_pubkeyHash u = hash160 (secp_publicKey k).

Lemma sign_in_range h k sg : secp_sign h k = Ok sg -> sig_in_range sg.
Proof. intros Hs. destruct (secp_sign_range _ _ _ Hs) as (? & ? & _). done. Qed.

Lemma own_sig_length sg : sig_in_range sg -> (9 <= length (derEncodeSignature sg ++ [1%Z]) <= 72)%nat.
Proof.
  intros Hsg. pose proof (der_length sg Hsg). pose proof (own_sig_valid sg Hsg) as Hv.
  unfold IsValidSignatureEncoding in Hv. destruct (Z.ltb_spec (Z.of_nat (length (derEncodeSignature sg ++ [1]))) 9); [done|].
  rewrite length_app in *. cbn [length] in *. lia.
Qed.

Lemma p2pkh_scriptSig_bytes sg k :
  sig_in_range sg ->
  p2pkh_scriptSig sg (secp_publicKey k) = pushes [derEncodeSignature sg ++ [1]; secp_publicKey k].
Proof.
  intros Hsg. pose proof (own_sig_length sg Hsg) as Hl. unfold p2pkh_scriptSig.
  set (d := derEncodeSignature sg ++ [1]) in *. clearbody d. rewrite !pushes_cons. change (pushes []) with (@nil Z).
  rewrite !push_data_short by (rewrite ?publicKey_length; lia).
  rewrite publicKey_length, app_nil_r. unfold u8arr. rewrite !fmap_cons, (Z.mod_small (Z.of_nat (length d))) by lia.
  reflexivity.
Qed.

Lemma p2pkh_scriptSig_length sg k :
  sig_in_range sg -> (length (p2pkh_scriptSig sg (secp_publicKey k)) <= 107)%nat.
Proof.
  intros Hsg. pose proof (own_sig_length sg Hsg) as Hl. rewrite p2pkh_scriptSig_bytes, !pushes_cons by done.
  set (d := derEncodeSignature sg ++ [1]) in *. clearbody d. change (pushes []) with (@nil Z). rewrite app_nil_r.
  rewrite !push_data_short by (rewrite ?publicKey_length; lia).
  cbn [length]. rewrite !length_app. cbn [length]. rewrite publicKey_length. lia.
Qed.

Lemma CPubKey_Set_own k : CPubKey_Set (secp_publicKey k) = Some (secp_publicKey k).
Proof.
  destruct (publicKey_head k) as (h & l & Hk & Hh). pose proof (publicKey_length k) as Hl. rewrite Hk in *.
  unfold CPubKey_Set, GetLen. rewrite Hl. destruct Hh as [-> | ->]; done.
Qed.

Lemma check_own_signature c k sg code :
  (nIn c < length (vin (txTo c)))%nat ->
  secp_sign (SignatureHash (txTo c) code (nIn c) SIGHASH_ALL (amount c) BASE (txdata c)) k = Ok sg ->
  CheckECDSASignature c (derEncodeSignature sg ++ [1]) (secp_publicKey k) code BASE = Ret true.
Proof.
  intros Hin Hs. unfold CheckECDSASignature. rewrite CPubKey_Set_own.
  destruct (derEncodeSignature sg ++ [1]) as [|b l] eqn:E; [by apply app_eq_nil in E as [_ ?]|]. rewrite <-E.
  rewrite (proj2 (Nat.ltb_lt _ _)) by done. cbn [script_assert mbind script_res_bind].
  rewrite last_last, removelast_last. unfold Verify. rewrite publicKey_parse. cbn [negb].
  rewrite der_lax_ok by (by eapply sign_in_range). unfold normalize. cbn [snd].
  destruct (secp_sign_range _ _ _ Hs) as (_ & [_ Hlow] & _).
  rewrite (proj2 (Z.ltb_ge _ _)) by lia. cbn [snd]. by rewrite verify_sign.
Qed.

Lemma own_key_encoding k flags v : CheckPubKeyEncoding (secp_publicKey k) flags v = Ret tt.
Proof.
  destruct (publicKey_head k) as (h & l & Hk & Hh). pose proof (publicKey_length k) as Hl. rewrite Hk in *.
  unfold CheckPubKeyEncoding, IsCompressedOrUncompressedPubKey, IsCompressedPubKey, byte_at. rewrite Hl. cbn [nth Z.to_nat].
  destruct Hh as [-> | ->]; cbn; by rewrite !andb_false_r.
Qed.

(** [OP_CHECKSIG] of the wallet's signature, in a script it does not occur in. *)
Lemma own_checksig c flags k sg code :
  (nIn c < length (vin (txTo c)))%nat -> absent (push_data (derEncodeSignature sg ++ [1])) code ->
  secp_sign (SignatureHash (txTo c) code (nIn c) SIGHASH_ALL (amount c) BASE (txdata c)) k = Ok sg ->
  EvalChecksigPreTapscript (TransactionSignatureChecker c) flags BASE (derEncodeSignature sg ++ [1]) (secp_publicKey k) code = Ret true.
Proof.
  intros Hin Ha Hs. pose proof (sign_in_range _ _ _ Hs) as Hr. unfold EvalChecksigPreTapscript, drop_signature.
  cbn [is_BASE orb script_assert mbind script_res_bind]. rewrite absent_find; [|by rewrite push_data_short by (pose proof (own_sig_length sg Hr); lia)|done].
  cbn [Nat.ltb Nat.leb andb error_if mbind script_res_bind].
  rewrite wallet_signature_encoding_aux, own_key_encoding by done. cbn [mbind script_res_bind].
  cbn [checkECDSA TransactionSignatureChecker]. by rewrite check_own_signature.
Qed.

Lemma signed_scripts_small inputs outputs pk pub lt scripts :
  Forall (own_key pk pub) inputs -> length scripts = length inputs ->
  (forall i inp script, inputs !! i = Some inp -> scripts !! i = Some script ->
     signed_input inputs outputs pk pub lt i inp script) ->
  Forall (fun s => (length s <= 107)%nat) scripts.
Proof.
  intros Hk Hl Hs. apply Forall_lookup. intros i s Hi.
  destruct (lookup_lt_is_Some_2 inputs i) as [inp Hinp]; [rewrite <-Hl; by eapply lookup_lt_Some|].
  destruct (Hs i inp s Hinp Hi) as (k & p & sg & Hpk & Hpub & Hsg & ->).
  eapply Forall_lookup_1 in Hk as (k' & Hk1 & Hk2 & _); [|done]. simplify_eq.
  apply p2pkh_scriptSig_length. by eapply sign_in_range.
Qed.

Lemma signed_wf inputs outputs lt scripts :
  wf_payment inputs outputs lt -> inputs <> [] -> length scripts = length inputs ->
  Forall (fun s => (length s <= 107)%nat) scripts ->
  wf_wallet_tx (zip_with set_scriptSig scripts (unsigned_input <$> inputs)) outputs lt.
Proof.
  intros (Hli & Hi & Hlo & Ho & Hlt) Hne Hl Hs. split; [|split; [|split; [|done]]].
  - destruct inputs, scripts; done.
  - rewrite length_zip_with, length_fmap. lia.
  - apply Forall_lookup. intros j inp. rewrite lookup_zip_with, list_lookup_fmap.
    destruct (scripts !! j) as [s|] eqn:Es; [|done]. destruct (inputs !! j) as [u|] eqn:Eu; [|done].
    cbn. intros [= <-]. eapply Forall_lookup_1 in Hi as (? & ? & ? & ? & ?); [|done].
    eapply Forall_lookup_1 in Hs; [|done]. split; [done|]. split; [done|]. split; [|done].
    unfold small_blob, MAX_SIZE. cbn [scriptSig set_scriptSig]. simpl in Hs. lia.
Qed.

Lemma build_tx inputs outputs pk pub lt raw :
  wf_payment inputs outputs lt -> Forall (own_key pk pub) inputs ->
  buildAndSignTransaction inputs outputs pk pub lt = Ok raw ->
  exists scripts,
    let txInputs := zip_with set_scriptSig scripts (unsigned_input <$> inputs) in
    length scripts = length inputs /\ wf_wallet_tx txInputs outputs lt /\
    raw = serializeTx 2 txInputs outputs lt /\
    (forall i inp script, inputs !! i = Some inp -> scripts !! i = Some script ->
       signed_input inputs outputs pk pub lt i inp script).
Proof.
  intros Hwf Hk Hb. destruct (build_inv _ _ _ _ _ _ Hb) as (scripts & Hne & Hl & Hraw & Hs).
  exists scripts. split; [done|]. split; [|done].
  apply signed_wf; [done|done|done|]. by eapply signed_scripts_small.
Qed.

(** Input [i] of a transaction as the node checks it: it spends the output, and
    the node's script verifier accepts it under every combination of flags the
    verifier allows, whatever the amount, the cache and the handling of missing
    data.  The exception is an input whose signature is, byte for byte, the key
    hash of the output it spends: the verifier deletes the signature from the
    script it signs. *)
Definition input_verifies (tx : CTransaction) (i : nat) (u : utxo_input) : Prop :=
  exists txin,
    vin tx !! i = Some txin /\ op_hash (prevout txin) = u_txid u /\ op_n (prevout txin) = u_vout u /\
    ((forall pubkey, in_scriptSig txin = pushes [u_pubkeyHash u; pubkey] -> IsValidSignatureEncoding (u_pubkeyHash u) true = false) ->
     forall value mdb cache flags, flags_ok flags ->
       VerifyScript (TransactionSignatureChecker {| txTo := tx; m_mdb := mdb; nIn := i; amount := value; txdata := cache |})
         flags (in_scriptSig txin) (p2pkhScriptPubKey (u_pubkeyHash u)) (scriptWitness txin) = Ret tt).

Lemma absent_p2pkh sg h :
  sig_in_range sg -> length h = 20%nat -> h <> derEncodeSignature sg ++ [1] ->
  absent (push_data (derEncodeSignature sg ++ [1])) (p2pkh_script h).
Proof.
  intros Hsg Hh Hder. pose proof (own_sig_length sg Hsg). rewrite push_data_short by lia.
  set (sig := derEncodeSignature sg ++ [1]) in *. unfold p2pkh_script. cbn [app].
  do 2 (apply absent_opcode; [done|unfold OP_DUP, OP_HASH160; lia|]). change 20 with (Z.of_nat 20). rewrite <-Hh.
  apply absent_push; [lia|done|].
  do 2 (apply absent_opcode; [done|unfold OP_EQUALVERIFY, OP_CHECKSIG; lia|]). apply absent_nil.
Qed.

Lemma signed_input_verifies inputs outputs pk pub lt scripts i u :
  wf_payment inputs outputs lt -> Forall (own_key pk pub) inputs -> length scripts = length inputs ->
  (forall i inp script, inputs !! i = Some inp -> scripts !! i = Some script ->
     signed_input inputs outputs pk pub lt i inp script) ->
  inputs !! i = Some u ->
  input_verifies (node_tx 2 (zip_with set_scriptSig scripts (unsigned_input <$> inputs)) outputs lt) i u.
Proof.
  intros (_ & Hwf & _) Hk Hl Hs Hu. eapply Forall_lookup_1 in Hwf as (_ & _ & Hh & Hhok & _); [|done].
  destruct (lookup_lt_is_Some_2 scripts i) as [s Hsi]; [rewrite Hl; by eapply lookup_lt_Some|].
  destruct (Hs i u s Hu Hsi) as (k & p & sg & Hpk & Hpub & Hsg & ->).
  eapply Forall_lookup_1 in Hk as (k' & Hk1 & Hk2 & Hk3); [|done]. simplify_eq.
  pose proof (sign_in_range _ _ _ Hsg) as Hr. pose proof (own_sig_length sg Hr).
  set (script := p2pkh_scriptSig sg (secp_publicKey k)) in *.
  assert (vin (node_tx 2 (zip_with set_scriptSig scripts (unsigned_input <$> inputs)) outputs lt) !! i =
    Some (node_txin (set_scriptSig script (unsigned_input u)))) as Hvin
    by (cbn [vin node_tx]; by rewrite list_lookup_fmap, lookup_zip_with, list_lookup_fmap, Hsi, Hu).
  eexists. split; [done|]. split; [done|]. split; [done|]. intros Hder value mdb cache flags Hf.
  change (in_scriptSig _) with script. change (scriptWitness _) with (@nil (list Z)). unfold script.
  rewrite p2pkhScriptPubKey_script in * by done. cbn [in_scriptSig node_txin set_scriptSig scriptSig] in Hder. unfold script in Hder.
  rewrite p2pkh_scriptSig_bytes in * by done.
  assert (u_pubkeyHash u <> derEncodeSignature sg ++ [1]) as Hne
    by (intros E; pose proof (own_sig_valid sg Hr) as Hv; rewrite <-E in Hv, Hder; by rewrite (Hder _ eq_refl) in Hv).
  apply p2pkh_accepts; [done|done|done|unfold pushable; lia|unfold pushable; rewrite publicKey_length; lia|].
  apply own_checksig; [cbn [nIn txTo]; by eapply lookup_lt_Some|by apply absent_p2pkh|]. cbn [txTo nIn amount txdata].
  rewrite sighash_agree_aux by (rewrite <-p2pkhScriptPubKey_script by done; by apply plain_p2pkh).
  rewrite legacySighash_signed by (by rewrite length_fmap). done.
Qed.

End Verified.

Lemma payment_verifies_aux `{CryptoLaws} {CU : Curve} {CL : CurveLaws} inputs outputs pk pub lt raw
  (Hwf : wf_payment inputs outputs lt) (Hkeys : Forall (own_key pk pub) inputs)
  (Hbuild : buildAndSignTransaction inputs outputs pk pub lt = Ok raw) :
  exists tx, UnserializeTransaction true raw = inr (tx, []) /\
    length (vin tx) = length inputs /\ vout tx = node_txout <$> outputs /\ nLockTime tx = lt /\
    forall i u, inputs !! i = Some u -> input_verifies tx i u.
Proof.
  destruct (build_tx _ _ _ _ _ _ Hwf Hkeys Hbuild) as (scripts & Hl & Htx & -> & Hs).
  exists (node_tx 2 (zip_with set_scriptSig scripts (unsigned_input <$> inputs)) outputs lt).
  split; [|split; [|split; [done|split; [done|]]]].
  - rewrite <-(app_nil_r (serializeTx _ _ _ _)), serializeTx_node by lia. by apply unserialize_serialize_aux, wf_node_tx.
  - cbn [vin node_tx]. rewrite length_fmap, length_zip_with, length_fmap. lia.
  - intros i u Hu. by eapply signed_input_verifies.
Qed.

(** C13: an output that pays to a key hash can be spent only with a key of that
    hash and a signature the node's check accepts for it.  Whenever the node's
    verifier accepts an input, the input's script leaves such a key and such a
    signature on top of the stack. *)
Theorem p2pkh_needs_signature `{Crypto} {CU : Curve} c flags h scriptSig witness
  (Hh : length h = 20%nat) (Hok : bytes_ok h)
  (Hv : VerifyScript (TransactionSignatureChecker c) flags scriptSig (p2pkhScriptPubKey h) witness = Ret tt) :
  exists pubkey sig rest code,
    EvalBase (TransactionSignatureChecker c) flags [] scriptSig = Ret (pubkey :: sig :: rest) /\
    hash160 pubkey = h /\ drop_signature flags BASE (p2pkhScriptPubKey h) sig = Ret code /\
    CheckECDSASignature c sig pubkey code BASE = Ret true.
Proof.
  rewrite p2pkhScriptPubKey_script in * by done. destruct (p2pkh_sound _ _ _ _ _ Hh Hv) as (pubkey & sig & rest & He & Hk & Hc).
  unfold EvalChecksigPreTapscript in Hc. cbn [is_BASE orb script_assert mbind script_res_bind] in Hc.
  apply script_bind_ret in Hc as (code & Hd & Hc). apply script_bind_ret in Hc as (? & _ & Hc).
  apply script_bind_ret in Hc as (? & _ & Hc). apply script_bind_ret in Hc as (ok & Hs & Hc).
  apply script_bind_ret in Hc as (? & _ & [= ->]). by exists pubkey, sig, rest, code.
Qed.

(** ** Size *)

Lemma length_input_bytes inp :
  (length (prevTxid inp) = 32)%nat -> (length (scriptSig inp) < 253)%nat ->
  length (input_bytes inp) = (41 + length (scriptSig inp))%nat.
Proof.
  intros Ht Hs. unfold input_bytes. cbn [input_parts mjoin list_join]. rewrite !length_app.
  unfold u32le. rewrite !length_le, length_varInt, (proj2 (Z.ltb_lt _ _)), Ht by lia. cbn [length]. lia.
Qed.

Lemma length_output_bytes out :
  (length (scriptPubKey out) < 253)%nat -> length (output_bytes out) = (9 + length (scriptPubKey out))%nat.
Proof.
  intros Hs. unfold output_bytes. cbn [output_parts mjoin list_join]. rewrite !length_app.
  unfold u64le. rewrite !length_le, length_varInt, (proj2 (Z.ltb_lt _ _)) by lia. cbn [length]. lia.
Qed.

Lemma length_mjoin_le {A} (f : A -> list Z) (l : list A) n :
  Forall (fun x => (length (f x) <= n)%nat) l -> (length (mjoin (f <$> l)) <= n * length l)%nat.
Proof.
  induction 1 as [|x l Hx _ IH]; [simpl; lia|]. rewrite fmap_cons. cbn [mjoin list_join length].
  rewrite length_app, Nat.mul_succ_r, Nat.add_comm. by apply Nat.add_le_mono.
Qed.

Lemma length_serializeTx version inputs outputs lt a b :
  (length inputs < 253)%nat -> (length outputs < 253)%nat ->
  Forall (fun i => (length (input_bytes i) <= a)%nat) inputs ->
  Forall (fun o => (length (output_bytes o) <= b)%nat) outputs ->
  (length (serializeTx version inputs outputs lt) <= 10 + a * length inputs + b * length outputs)%nat.
Proof.
  intros Hi Ho Ha Hb. rewrite serializeTx_flat, !length_app. unfold u32le. rewrite !length_le, !length_varInt.
  rewrite !(proj2 (Z.ltb_lt _ _)) by lia. apply length_mjoin_le in Ha, Hb. lia.
Qed.

Lemma payment_size_aux `{CryptoLaws} inputs outputs pk pub lt raw
  (Htxid : Forall (fun u => length (u_txid u) = 32%nat) inputs)
  (Hkeys : Forall (own_key pk pub) inputs)
  (Hin : (length inputs < 253)%nat) (Hout : (length outputs < 253)%nat)
  (Hscripts : Forall (fun o => (length (scriptPubKey o) <= 25)%nat) outputs)
  (Hbuild : buildAndSignTransaction inputs outputs pk pub lt = Ok raw) :
  (length raw <= 10 + 148 * length inputs + 34 * length outputs)%nat.
Proof.
  destruct (build_inv _ _ _ _ _ _ Hbuild) as (scripts & _ & Hl & -> & Hs).
  pose proof (signed_scripts_small _ _ _ _ _ _ Hkeys Hl Hs) as Hsmall.
  assert (length (zip_with set_scriptSig scripts (unsigned_input <$> inputs)) = length inputs) as Hn
    by (rewrite length_zip_with, length_fmap; lia).
  rewrite <-Hn. apply length_serializeTx; [by rewrite Hn|done| |].
  - apply Forall_lookup. intros j inp. rewrite lookup_zip_with, list_lookup_fmap.
    destruct (scripts !! j) as [s|] eqn:Es; [|done]. destruct (inputs !! j) as [u|] eqn:Eu; [|done].
    intros Hz. injection Hz as <-. eapply Forall_lookup_1 in Hsmall; [|done]. eapply Forall_lookup_1 in Htxid; [|done].
    cbv beta in *. rewrite length_input_bytes; cbn [prevTxid scriptSig set_scriptSig unsigned_input]; [lia|done|lia].
  - eapply Forall_impl; [done|]. intros o Ho. cbv beta in *. rewrite length_output_bytes; lia.
Qed.

Lemma build_ok `{Crypto} inputs outputs pk pub lt :
  (forall h k, is_ok (secp_sign h k) = true) ->
  Forall (fun u => is_Some (nullish (u_privateKey u) pk) /\ is_Some (nullish (u_publicKeyCompressed u) pub)) inputs ->
  inputs <> [] -> is_ok (buildAndSignTransaction inputs outputs pk pub lt) = true.
Proof.
  intros Hsign Hkeys Hne. unfold buildAndSignTransaction.
  replace (length inputs =? 0)%nat with false by (by destruct inputs). cbn [throw_if mbind res_bind].
  rewrite <-(length_fmap unsigned_input inputs), sign_loop.
  match goal with |- context [mapR ?f ?l] => assert (is_ok (mapR f l) = true) as Hok end.
  { apply mapR_is_ok, Forall_lookup. intros j i Hj. rewrite length_fmap in Hj. apply lookup_seq in Hj as [-> Hj]. simpl.
    unfold sign_script. destruct (lookup_lt_is_Some_2 inputs j) as [u Hu]; [done|].
    eapply Forall_lookup_1 in Hkeys as [[k Hk] [p Hp]]; [|done]. rewrite Hu. cbn [defined mbind res_bind].
    rewrite Hk, Hp. cbn [defined mbind res_bind].
    match goal with |- context [secp_sign ?h ?k] => specialize (Hsign h k); destruct (secp_sign h k) end; done. }
  by destruct (mapR _ _).
Qed.

(** Signing refuses an empty input list, and otherwise always returns a
    transaction when every input has a private key the signer accepts and a
    public key, given with the input or as the common default. *)
Theorem buildAndSignTransaction_total `{Crypto} inputs outputs pk pub lt
  (Hsign : forall h k, is_ok (secp_sign h k) = true)
  (Hkeys : Forall (fun u => is_Some (nullish (u_privateKey u) pk) /\ is_Some (nullish (u_publicKeyCompressed u) pub)) inputs) :
  (inputs = [] -> buildAndSignTransaction inputs outputs pk pub lt = Throw (JsError "No inputs provided")) /\
  (inputs <> [] -> is_ok (buildAndSignTransaction inputs outputs pk pub lt) = true).
Proof. split; [by intros ->|]. by apply build_ok. Qed.

(** ** Witnesses *)

(** The toy curve recovers the key and compares. *)
Definition toy_curve : Curve := {|
  ec_pubkey_parse := fun p => (length p =? 33)%nat;
  ecdsa_verify := fun p h rs =>
    match @sig_recoverPublicKey toy_crypto rs 0 h with Ok q => bool_decide (q = p) | Throw _ => false end;
  xonly_pubkey_parse := fun _ => true;
  schnorrsig_verify := fun _ _ _ => false;
  xonly_pubkey_tweak_add_check := fun _ _ _ _ => false
|}.

Lemma toy_curve_laws : @CurveLaws toy_crypto toy_curve.
Proof.
  split.
  - intros k. exists 2. eexists. split; [reflexivity|by left].
  - done.
  - intros h k sg Hs. pose proof (@recover_sign toy_crypto toy_laws h k sg Hs) as Hr.
    cbn [ecdsa_verify toy_curve]. change (@sig_recoverPublicKey toy_crypto (sig_r sg, sig_s sg) 0 h)
      with (@sig_recoverPublicKey toy_crypto (sig_r sg, sig_s sg) (sig_recovery sg) h). rewrite Hr.
    by apply bool_decide_eq_true.
Qed.

Definition ex_input (k : Z) : utxo_input := {|
  u_txid := replicate 32 k; u_vout := 1; u_valueSatoshis := 5000;
  u_pubkeyHash := @hash160 toy_crypto (@secp_publicKey toy_crypto [k]);
  u_privateKey := Some [k]; u_publicKeyCompressed := Some (@secp_publicKey toy_crypto [k]); u_sequence := None
|}.
Definition ex_outputs : list tx_output :=
  [{| scriptPubKey := p2pkhScriptPubKey (replicate 20 9); valueSatoshis := 7000 |}].
Lemma buildAndSignTransaction_total_witness :
  is_ok (@buildAndSignTransaction toy_crypto [ex_input 4] ex_outputs None None 0) = true.
Proof.
  apply (@buildAndSignTransaction_total toy_crypto); [done| |done].
  repeat constructor; by eexists.
Defined.

(** A payment with one input, as the node reads it. *)
Definition ex_tx : CTransaction :=
  match @buildAndSignTransaction toy_crypto [ex_input 4] ex_outputs None None 0 with
  | Ok raw => match UnserializeTransaction true raw with inr (tx, _) => tx | inl _ => node_tx 2 [] [] 0 end
  | Throw _ => node_tx 2 [] [] 0
  end.
Definition ex_checker : tx_checker := {| txTo := ex_tx; m_mdb := FAIL; nIn := 0; amount := 5000; txdata := None |}.
Definition ex_scriptSig : list Z := from_option in_scriptSig [] (vin ex_tx !! 0%nat).

Lemma p2pkh_needs_signature_witness :
  exists pubkey sig rest code,
    @EvalBase toy_crypto (@TransactionSignatureChecker toy_crypto toy_curve ex_checker) STANDARD_SCRIPT_VERIFY_FLAGS []
      ex_scriptSig = Ret (pubkey :: sig :: rest) /\
    @hash160 toy_crypto pubkey = u_pubkeyHash (ex_input 4) /\
    drop_signature STANDARD_SCRIPT_VERIFY_FLAGS BASE (p2pkhScriptPubKey (u_pubkeyHash (ex_input 4))) sig = Ret code /\
    @CheckECDSASignature toy_crypto toy_curve ex_checker sig pubkey code BASE = Ret true.
Proof.
  apply (@p2pkh_needs_signature toy_crypto toy_curve ex_checker STANDARD_SCRIPT_VERIFY_FLAGS _ _ []).
  - done.
  - apply (@hash160_bytes toy_crypto toy_laws).
  - vm_compute. reflexivity.
Defined.
