(* ===== verification/SoftFork.v ===== *)
(** * Verification flags only restrict

    [script/interpreter.h] promises that every flag is a soft fork: an input
    accepted with a set of flags is accepted with any subset of it.  [VerifyScript]
    keeps the promise for the sets its assertions allow; one of the flags it
    never reads at all. *)

From S2P Require Import Prelude Digits JsString Bytes Crypto JsInt Sha1 Tx NodeTx ScriptError NodeScript ScriptNum Interpreter InterpFacts Verify VerifyFacts Spend.

Open Scope Z_scope.
Open Scope list_scope.

(** ** Computations that accept less *)

(** What the left one returns, the right one returns. *)
#[global] Instance script_res_sub A : SqSubsetEq (script_res A) := fun m m' => forall a, m = Ret a -> m' = Ret a.

#[global] Instance script_res_preorder A : PreOrder (@sqsubseteq (script_res A) _).
Proof. split; [by intros m a|]. intros m1 m2 m3 H1 H2 a Ha. by apply H2, H1. Qed.

Lemma sub_bind {A B} (m m' : script_res A) (k k' : A -> script_res B) :
  m ⊑ m' -> (forall a, k a ⊑ k' a) -> (m ≫= k) ⊑ (m' ≫= k').
Proof. intros Hm Hk b (a & Ha & Hb)%script_bind_ret. apply script_bind_ret. exists a. split; [by apply Hm|by apply Hk]. Qed.

Lemma sub_err {A} e (m : script_res A) : Err e ⊑ m.
Proof. by intros a. Qed.

Lemma sub_error_if c c' e e' : (c' = true -> c = true) -> error_if c e ⊑ error_if c' e'.
Proof. intros Hc [] Ha%error_if_ret. apply error_if_ret. destruct c'; [|done]. by rewrite Hc in Ha. Qed.

Lemma sub_skip {A B} (m : script_res A) (k : A -> script_res B) m' : (forall a, k a ⊑ m') -> (m ≫= k) ⊑ m'.
Proof. intros Hk b (a & Ha & Hb)%script_bind_ret. by apply (Hk a). Qed.

Lemma sub_unknown {A} (m m' : script_res A) : m ⊑ m' -> unknown_by_default m ⊑ unknown_by_default m'.
Proof. intros Hm a Ha. destruct m as [x|[]|]; try done. cbn in Ha. simplify_eq. by rewrite (Hm a eq_refl). Qed.

Lemma sub_ok {A} (m m' : script_res A) : m ⊑ m' -> ok_by_default m ⊑ ok_by_default m'.
Proof. intros Hm a Ha. destruct m as [x|[]|]; try done. cbn in Ha. simplify_eq. by rewrite (Hm a eq_refl). Qed.

Lemma andb_mono a b a' b' : (a = true -> a' = true) -> (b = true -> b' = true) -> a && b = true -> a' && b' = true.
Proof. intros Ha Hb [? ?]%andb_true_iff. apply andb_true_iff. auto. Qed.

(** Two copies of one program over a smaller and a larger set of flags. *)
Ltac sub :=
  repeat first
    [ reflexivity
    | apply sub_err
    | apply sub_error_if; repeat (apply andb_mono; [|]); by eauto
    | apply sub_bind; [|intros ?]
    | match goal with
      | |- (if ?c then _ else _) ⊑ (if ?c then _ else _) => destruct c
      | |- match ?x with _ => _ end ⊑ match ?x with _ => _ end => destruct x
      end ].

(** ** Flags *)

(** [f] is a subset of [g], the flag the verifier never reads aside. *)
Definition subflags (f g : Z) : Prop :=
  forall mask, flag f mask = true -> Z.land SCRIPT_VERIFY_DERKEY mask = 0 -> flag g mask = true.

Lemma subset_subflags f g : Z.land f g = f -> subflags f g.
Proof.
  unfold subflags, flag. intros Hfg mask Hf _. apply negb_true_iff, Z.eqb_neq. apply negb_true_iff, Z.eqb_neq in Hf. contradict Hf.
  by rewrite <-Hfg, <-Z.land_assoc, Hf, Z.land_0_r.
Qed.

Lemma derkey_subflags f : subflags (Z.lor f SCRIPT_VERIFY_DERKEY) f.
Proof. intros mask Hf Hm. by rewrite flag_lor_l in Hf. Qed.

Section Mono.
Context `{Crypto} (f g : Z) (Hfg : subflags f g) (checker : BaseSignatureChecker).

Let flag_fg mask : flag f mask = true -> Z.land SCRIPT_VERIFY_DERKEY mask = 0 -> flag g mask = true := Hfg mask.

Hint Resolve flag_fg : core.

Let mini_fg : fRequireMinimal f = true -> fRequireMinimal g = true := fun Hf => flag_fg SCRIPT_VERIFY_MINIMALDATA Hf eq_refl.

Hint Resolve mini_fg : core.

Lemma sub_CScriptNum vch size : CScriptNum vch (fRequireMinimal g) size ⊑ CScriptNum vch (fRequireMinimal f) size.
Proof. unfold CScriptNum. sub. Qed.

Lemma sub_num vch : num (fRequireMinimal g) vch ⊑ num (fRequireMinimal f) vch.
Proof. apply sub_CScriptNum. Qed.

(** ** Opcodes *)

Definition ops_sub (o o' : option (list (list Z) -> script_res (list (list Z)))) : Prop :=
  option_Forall2 (fun h h' => forall st, h st ⊑ h' st) o o'.

Lemma ops_refl o : ops_sub o o.
Proof. destruct o; by constructor. Qed.

Lemma ops_some h h' : (forall st, h st ⊑ h' st) -> ops_sub (Some h) (Some h').
Proof. by constructor. Qed.

Lemma ops_if (c : bool) o1 o1' o2 o2' :
  ops_sub o1 o1' -> ops_sub o2 o2' -> ops_sub (if c then o1 else o2) (if c then o1' else o2').
Proof. by destruct c. Qed.

Lemma sub_pick roll st : op_pick (fRequireMinimal g) roll st ⊑ op_pick (fRequireMinimal f) roll st.
Proof. destruct st as [|top [|x st]]; [done|done|]. unfold op_pick. apply sub_bind; [apply sub_num|]. intros n. sub. Qed.

Lemma sub_within st : op_within (fRequireMinimal g) st ⊑ op_within (fRequireMinimal f) st.
Proof.
  destruct st as [|x3 [|x2 [|x1 st]]]; try done. unfold op_within. do 3 (apply sub_bind; [apply sub_num|intros ?]). sub.
Qed.

Lemma sub_unary h st : op_unary (fRequireMinimal g) h st ⊑ op_unary (fRequireMinimal f) h st.
Proof. destruct st as [|x st]; [done|]. apply sub_bind; [apply sub_num|]. intros n. sub. Qed.

Lemma sub_binary opcode h st : op_binary (fRequireMinimal g) opcode h st ⊑ op_binary (fRequireMinimal f) opcode h st.
Proof.
  destruct st as [|x2 [|x1 st]]; [done|done|]. unfold op_binary. do 2 (apply sub_bind; [apply sub_num|intros ?]). sub.
Qed.

Lemma stack_ops_sub opcode : ops_sub (stack_op (fRequireMinimal g) opcode) (stack_op (fRequireMinimal f) opcode).
Proof. unfold stack_op. repeat (apply ops_if; [apply ops_refl || (apply ops_some; intros st; apply sub_pick)|]). apply ops_refl. Qed.

Lemma pure_ops_sub opcode : ops_sub (pure_op (fRequireMinimal g) opcode) (pure_op (fRequireMinimal f) opcode).
Proof.
  unfold pure_op. repeat (apply ops_if; [apply ops_refl || (apply ops_some; intros st; apply sub_within)|]).
  destruct (stack_ops_sub opcode) as [h h' Hh|]; [by apply ops_some|].
  destruct (unary_op opcode) as [h|]; [apply ops_some; intros st; apply sub_unary|].
  destruct (binary_op opcode) as [h|]; [apply ops_some; intros st; apply sub_binary|]. apply ops_refl.
Qed.

Section Version.
Context (v : SigVersion).

Lemma sub_drop code sig : drop_signature g v code sig ⊑ drop_signature f v code sig.
Proof. unfold drop_signature. destruct (FindAndDelete _ _). sub. Qed.

Lemma sub_sig_encoding sig : CheckSignatureEncoding sig g ⊑ CheckSignatureEncoding sig f.
Proof.
  unfold CheckSignatureEncoding. destruct (_ =? _)%nat; [done|].
  set (bad := negb (IsValidSignatureEncoding sig true)).
  destruct (flag g (lor_all _) && bad) eqn:E; [apply sub_err|]. destruct (flag f (lor_all _) && bad) eqn:E'.
  { apply andb_true_iff in E' as [Hf Hb]. by rewrite (flag_fg _ Hf eq_refl), Hb in E. }
  apply sub_bind; [|intros; sub]. destruct (flag f SCRIPT_VERIFY_LOW_S) eqn:Ef; [by rewrite (flag_fg _ Ef eq_refl)|].
  destruct (flag g SCRIPT_VERIFY_LOW_S); [|done]. by intros [] _.
Qed.

Lemma sub_key_encoding key : CheckPubKeyEncoding key g v ⊑ CheckPubKeyEncoding key f v.
Proof. unfold CheckPubKeyEncoding. sub. Qed.

Lemma sub_checksig sig key code x : EvalChecksig checker g v sig key code x ⊑ EvalChecksig checker f v sig key code x.
Proof.
  unfold EvalChecksig, EvalChecksigPreTapscript, EvalChecksigTapscript. destruct v eqn:Ev; rewrite <-?Ev.
  1,2: apply sub_bind; [|by intros]; apply sub_bind; [done|]; intros _; apply sub_bind; [apply sub_drop|]; intros code';
    apply sub_bind; [apply sub_sig_encoding|]; intros _; apply sub_bind; [apply sub_key_encoding|]; intros _; sub.
  - done.
  - apply sub_bind; [done|]. intros _. sub.
Qed.

Lemma sub_op_checksig verify s : op_checksig checker g v verify s ⊑ op_checksig checker f v verify s.
Proof. unfold op_checksig. destruct (stack s) as [|k [|sig st]]; [done|done|]. apply sub_bind; [apply sub_checksig|]. by intros []. Qed.

Lemma sub_op_checksigadd s : op_checksigadd checker g v s ⊑ op_checksigadd checker f v s.
Proof.
  unfold op_checksigadd. destruct (_ || _); [done|]. destruct (stack s) as [|k [|n [|sig st]]]; try done.
  apply sub_bind; [apply sub_num|]. intros m. apply sub_bind; [apply sub_checksig|]. by intros [].
Qed.

Lemma sub_multisig_loop code keys sigs : multisig_loop checker g v code keys sigs ⊑ multisig_loop checker f v code keys sigs.
Proof.
  revert sigs. induction keys as [|key keys IH]; intros [|sig sigs]; try done. cbn [multisig_loop].
  apply sub_bind; [apply sub_sig_encoding|]. intros _. apply sub_bind; [apply sub_key_encoding|]. intros _.
  apply sub_bind; [done|]. intros ok. destruct (_ <? _)%nat; [done|]. apply IH.
Qed.

Lemma sub_drops sigs code : drop_signatures g v code sigs ⊑ drop_signatures f v code sigs.
Proof. revert code. induction sigs as [|s sigs IH]; intros code; [done|]. cbn. apply sub_bind; [apply sub_drop|]. intros c. apply IH. Qed.

Lemma sub_cleanup ok i k st : multisig_cleanup g ok i k st ⊑ multisig_cleanup f ok i k st.
Proof.
  revert k st. induction i as [|i IH]; intros k [|top st]; try done. cbn [multisig_cleanup].
  apply sub_bind; [|intros; apply IH]. sub.
Qed.

Lemma sub_op_checkmultisig verify s : op_checkmultisig checker g v verify s ⊑ op_checkmultisig checker f v verify s.
Proof.
  unfold op_checkmultisig. destruct (is_TAPSCRIPT v); [done|]. destruct (stack s) as [|top st]; [done|].
  apply sub_bind; [apply sub_num|]. intros n. do 2 (apply sub_bind; [done|intros _]).
  destruct (drop _ st) as [|m rest]; [done|]. apply sub_bind; [apply sub_num|]. intros k. apply sub_bind; [done|]. intros _.
  destruct (_ <=? _)%nat; [done|]. apply sub_bind; [apply sub_drops|]. intros code. apply sub_bind; [apply sub_multisig_loop|].
  intros ok. apply sub_bind; [apply sub_cleanup|]. intros [|dummy st']; [done|]. sub.
Qed.

Lemma sub_cltv s : op_checklocktimeverify checker g s ⊑ op_checklocktimeverify checker f s.
Proof.
  unfold op_checklocktimeverify. destruct (flag f SCRIPT_VERIFY_CHECKLOCKTIMEVERIFY) eqn:Ef.
  - rewrite (flag_fg _ Ef eq_refl). destruct (stack s); [done|]. apply sub_bind; [apply sub_CScriptNum|]. intros n. sub.
  - destruct (negb _); [done|]. destruct (stack s); [done|]. do 3 (apply sub_skip; intros ?). done.
Qed.

Lemma sub_csv s : op_checksequenceverify checker g s ⊑ op_checksequenceverify checker f s.
Proof.
  unfold op_checksequenceverify. destruct (flag f SCRIPT_VERIFY_CHECKSEQUENCEVERIFY) eqn:Ef.
  - rewrite (flag_fg _ Ef eq_refl). destruct (stack s); [done|]. apply sub_bind; [apply sub_CScriptNum|]. intros n. sub.
  - destruct (negb _); [done|]. destruct (stack s); [done|]. do 2 (apply sub_skip; intros ?). destruct (negb _); [done|].
    by apply sub_skip.
Qed.

Lemma sub_if notif fExec s : op_if g v notif fExec s ⊑ op_if f v notif fExec s.
Proof. unfold op_if. sub. Qed.

Lemma sub_exec opcode fExec pc s : exec_opcode checker g v opcode fExec pc s ⊑ exec_opcode checker f v opcode fExec pc s.
Proof.
  unfold exec_opcode. destruct (pure_ops_sub opcode) as [h h' Hh|]; [by apply sub_bind|].
  repeat match goal with |- (if ?c then _ else _) ⊑ _ => destruct c;
    [lazymatch goal with
     | |- op_checklocktimeverify _ _ _ ⊑ _ => apply sub_cltv
     | |- op_checksequenceverify _ _ _ ⊑ _ => apply sub_csv
     | |- op_if _ _ _ _ _ ⊑ _ => apply sub_if
     | |- op_checksig _ _ _ _ _ ⊑ _ => apply sub_op_checksig
     | |- op_checksigadd _ _ _ _ ⊑ _ => apply sub_op_checksigadd
     | |- op_checkmultisig _ _ _ _ _ ⊑ _ => apply sub_op_checkmultisig
     | |- _ => sub
     end|] end.
  reflexivity.
Qed.

Lemma sub_step pc s : eval_step checker g v pc s ⊑ eval_step checker f v pc s.
Proof.
  unfold eval_step. destruct (GetScriptOp pc) as [[[ok opcode] data] pc']. do 4 (apply sub_bind; [done|intros ?]).
  apply sub_bind; [sub|]. intros _. apply sub_bind; [|by intros]. destruct (_ && _); [sub|]. destruct (_ || _); [apply sub_exec|done].
Qed.

Lemma sub_loop fuel pc s : eval_loop checker g v fuel pc s ⊑ eval_loop checker f v fuel pc s.
Proof.
  revert pc s. induction fuel as [|fuel IH]; intros [|b pc] s; [done|done|done|]. cbn [eval_loop]. apply sub_bind; [apply sub_step|].
  intros [pc' s']. apply IH.
Qed.

Lemma sub_eval st script x : EvalScript checker g v st script x ⊑ EvalScript checker f v st script x.
Proof.
  unfold EvalScript. do 2 (apply sub_bind; [done|intros _]). apply sub_bind; [apply sub_unknown, sub_loop|]. by intros.
Qed.

End Version.

Lemma sub_base st script : EvalBase checker g st script ⊑ EvalBase checker f st script.
Proof. apply sub_bind; [apply sub_eval|]. by intros []. Qed.

(** ** Witness programs *)

Context `{Curve}.

Lemma sub_scan fuel pc : op_success_scan g fuel pc ⊑ op_success_scan f fuel pc.
Proof.
  revert pc. induction fuel as [|fuel IH]; intros [|b pc]; [done|done|done|]. cbn [op_success_scan].
  destruct (GetScriptOp _) as [[[ok opcode] data] pc']. apply sub_bind; [done|]. intros _. destruct (IsOpSuccess opcode); [sub|apply IH].
Qed.

Lemma sub_execute v span script x : ExecuteWitnessScript checker g span script v x ⊑ ExecuteWitnessScript checker f span script v x.
Proof.
  unfold ExecuteWitnessScript. apply sub_bind.
  - destruct (is_TAPSCRIPT v); [|done]. apply sub_bind; [apply sub_scan|]. by intros.
  - intros []; [done|]. apply sub_bind; [done|]. intros _. apply sub_bind; [apply sub_eval|]. by intros [].
Qed.

Lemma sub_taproot witness program : VerifyTaproot checker g witness program ⊑ VerifyTaproot checker f witness program.
Proof.
  unfold VerifyTaproot. destruct (last witness) as [back|]; [|done]. set (span := if _ : bool then removelast _ else _). clearbody span.
  set (annex := if _ : bool then Some _ else None). clearbody annex.
  destruct span as [|sig [|s2 span]]; [|done|].
  all: do 3 (apply sub_bind; [done|intros ?]); destruct (_ =? TAPROOT_LEAF_TAPSCRIPT); [apply sub_execute|sub].
Qed.

Lemma sub_program witness version program p2sh :
  VerifyWitnessProgram checker g witness version program p2sh ⊑ VerifyWitnessProgram checker f witness version program p2sh.
Proof.
  unfold VerifyWitnessProgram. destruct (version =? 0).
  - destruct (_ =? WITNESS_V0_SCRIPTHASH_SIZE)%nat; [destruct (last witness); [|reflexivity]|];
      [apply sub_bind; [reflexivity|]; intros _; apply sub_execute|].
    destruct (_ =? WITNESS_V0_KEYHASH_SIZE)%nat; [|reflexivity]. apply sub_bind; [reflexivity|]. intros _. apply sub_execute.
  - destruct (_ && _ && _); [|sub]. destruct (flag f SCRIPT_VERIFY_TAPROOT) eqn:Ef.
    + rewrite (flag_fg _ Ef eq_refl). apply sub_taproot.
    + intros [] _. done.
Qed.

Lemma sub_verify_program script malleated e p2sh witness st :
  flag f SCRIPT_VERIFY_WITNESS = true ->
  verify_program checker g script malleated e p2sh witness st ⊑ verify_program checker f script malleated e p2sh witness st.
Proof.
  intros Hf. unfold verify_program. rewrite Hf, (flag_fg _ Hf eq_refl). destruct (IsWitnessProgram script) as [[version program]|]; [|done].
  apply sub_bind; [done|]. intros _. apply sub_bind; [apply sub_program|]. by intros.
Qed.

Lemma sub_verify_p2sh scriptSig witness st :
  flag f SCRIPT_VERIFY_WITNESS = true -> verify_p2sh checker g scriptSig witness st ⊑ verify_p2sh checker f scriptSig witness st.
Proof.
  intros Hf. unfold verify_p2sh. apply sub_bind; [done|]. intros _. destruct st as [|redeem st]; [done|].
  apply sub_bind; [apply sub_base|]. intros st'. apply sub_bind; [done|]. intros _. by apply sub_verify_program.
Qed.

(** Without [SCRIPT_VERIFY_WITNESS] only the evaluation of the scripts counts. *)
Lemma p2sh_without_witness scriptSig witness st r :
  flag f SCRIPT_VERIFY_WITNESS = false -> verify_p2sh checker g scriptSig witness st = Ret r ->
  exists st', verify_p2sh checker f scriptSig witness st = Ret (false, st').
Proof.
  intros Hf Hr. unfold verify_p2sh in *. apply script_bind_ret in Hr as ([] & -> & Hr). destruct st as [|redeem st]; [done|].
  apply script_bind_ret in Hr as (st' & Hst%sub_base & Hr). apply script_bind_ret in Hr as ([] & He & _).
  exists st'. cbn [mbind script_res_bind]. rewrite Hst. cbn [mbind script_res_bind]. rewrite He. cbn [mbind script_res_bind].
  unfold verify_program. by rewrite Hf.
Qed.

Lemma verify_mono scriptSig scriptPubKey witness :
  flags_ok f ->
  VerifyScript checker g scriptSig scriptPubKey witness ⊑ VerifyScript checker f scriptSig scriptPubKey witness.
Proof.
  intros [Hclean Hwit]. apply sub_ok. apply sub_bind; [sub|]. intros _. apply sub_bind; [apply sub_base|]. intros st1.
  apply sub_bind; [apply sub_base|]. intros st2. apply sub_bind; [done|]. intros _. destruct (flag f SCRIPT_VERIFY_WITNESS) eqn:Ew.
  - rewrite (Hwit eq_refl), (flag_fg _ (Hwit eq_refl) eq_refl), (flag_fg _ Ew eq_refl). apply sub_bind; [by apply sub_verify_program|]. intros [had st3].
    apply sub_bind; [destruct (_ && _); [apply sub_bind; [by apply sub_verify_p2sh|by intros []]|done]|]. intros [had' st4].
    apply sub_bind; [|done]. destruct (flag f SCRIPT_VERIFY_CLEANSTACK) eqn:Ec; [by rewrite (flag_fg _ Ec eq_refl)|]. by intros [] _.
  - destruct (flag f SCRIPT_VERIFY_CLEANSTACK); [by specialize (Hclean eq_refl)|]. intros [] ([had st3] & _ & Hr)%script_bind_ret.
    apply script_bind_ret in Hr as ([had' st4] & Hp & _). unfold verify_program. rewrite Ew. cbn [mbind script_res_bind].
    destruct (flag f SCRIPT_VERIFY_P2SH) eqn:Ep; [|done]. rewrite (flag_fg _ Ep eq_refl) in Hp.
    destruct (true && IsPayToScriptHash scriptPubKey); [|done].
    apply script_bind_ret in Hp as (r & Hr & _). by destruct (p2sh_without_witness _ _ _ _ Ew Hr) as (st' & ->).
Qed.

End Mono.

(** C10: Every flag is a soft fork: an input that [VerifyScript] accepts with a set
    of flags it accepts with every subset that respects its assertions
    ([CLEANSTACK] only with [WITNESS], [WITNESS] only with [P2SH]), whatever the
    checker answers. *)
Theorem flags_only_restrict `{Crypto} `{CU : Curve} checker f g scriptSig scriptPubKey witness :
  Z.land f g = f -> flags_ok f ->
  VerifyScript checker g scriptSig scriptPubKey witness = Ret tt ->
  VerifyScript checker f scriptSig scriptPubKey witness = Ret tt.
Proof. intros Hfg Hf. by apply verify_mono; [apply subset_subflags|]. Qed.

(** The checker of the base class rejects everything. *)
Definition base_checker : BaseSignatureChecker := {|
  checkECDSA := fun _ _ _ _ => Ret false;
  checkSchnorr := fun _ _ _ _ => Err None;
  checkLockTime := fun _ => false;
  checkSequence := fun _ => false
|}.

Lemma flags_only_restrict_witness :
  @VerifyScript toy_crypto toy_curve base_checker MANDATORY_SCRIPT_VERIFY_FLAGS [OP_1] [OP_1; OP_EQUAL] [] = Ret tt.
Proof.
  apply (@flags_only_restrict toy_crypto toy_curve base_checker _ STANDARD_SCRIPT_VERIFY_FLAGS); [by vm_compute| |by vm_compute].
  split; by vm_compute.
Defined.

Lemma flags_ok_derkey f : flags_ok (Z.lor f SCRIPT_VERIFY_DERKEY) <-> flags_ok f.
Proof. unfold flags_ok. by rewrite !flag_lor_l. Qed.

(** [SCRIPT_VERIFY_DERKEY] has no effect: with it or without it the same
    inputs are accepted.  The encoding of public keys that the flag is documented
    to enforce, and that the block rules claim to require, is never checked for
    its sake. *)
Theorem derkey_flag_unread `{Crypto} `{CU : Curve} checker f scriptSig scriptPubKey witness :
  flags_ok f ->
  VerifyScript checker (Z.lor f SCRIPT_VERIFY_DERKEY) scriptSig scriptPubKey witness = Ret tt <->
  VerifyScript checker f scriptSig scriptPubKey witness = Ret tt.
Proof.
  intros Hf. split; apply verify_mono; [|done| |by apply flags_ok_derkey].
  - apply subset_subflags, Z.bits_inj'. intros n _. rewrite Z.land_spec, Z.lor_spec. by destruct (Z.testbit f n).
  - apply derkey_subflags.
Qed.

(** A key of no known encoding, in a script that asks whether the empty
    signature fails under it. *)
Lemma derkey_flag_unread_witness :
  @VerifyScript toy_crypto toy_curve base_checker (Z.lor SCRIPT_VERIFY_P2SH SCRIPT_VERIFY_DERKEY) [0]
    [1; 9; OP_CHECKSIG; OP_NOT] [] = Ret tt.
Proof. apply (@derkey_flag_unread toy_crypto toy_curve); [split; by vm_compute|by vm_compute]. Defined.
