(* ===== verification/Validation.v ===== *)
(** * Validation results

    [consensus/validation.h]: why a transaction is refused; the texts of
    [script/script_error.cpp]; hashes and the special forms of a transaction
    ([primitives/transaction.h] and [.cpp]). *)

From S2P Require Import Prelude Digits JsString Bytes Crypto JsInt Tx NodeTx ScriptError.

Open Scope Z_scope.
Open Scope list_scope.

Inductive TxValidationResult : Type :=
  | TX_RESULT_UNSET
  | TX_CONSENSUS
  | TX_RECENT_CONSENSUS_CHANGE
  | TX_INPUTS_NOT_STANDARD
  | TX_NOT_STANDARD
  | TX_MISSING_INPUTS
  | TX_PREMATURE_SPEND
  | TX_WITNESS_MUTATED
  | TX_WITNESS_STRIPPED
  | TX_CONFLICT
  | TX_MEMPOOL_POLICY
  | TX_NO_MEMPOOL.

(** A check with its [TxValidationState]: passed, refused with a reason, or
    stopped by an assertion or an exception. *)
Inductive check (A : Type) : Type :=
  | Valid (a : A)
  | Invalid (r : TxValidationResult) (reason : string)
  | Crash.
Arguments Valid {A}.
Arguments Invalid {A}.
Arguments Crash {A}.

#[global] Instance check_ret : MRet check := fun A a => Valid a.
#[global] Instance check_bind : MBind check := fun A B f m =>
  match m with Valid a => f a | Invalid r s => Invalid r s | Crash => Crash end.

(** [if (c) return state.Invalid(r, reason);] *)
Definition invalid_if (c : bool) (r : TxValidationResult) (reason : string) : check unit := if c then Invalid r reason else Valid tt.
Definition check_assert (c : bool) : check unit := if c then Valid tt else Crash.

Lemma check_bind_valid {A B} (m : check A) (f : A -> check B) b : (m ≫= f) = Valid b <-> exists a, m = Valid a /\ f a = Valid b.
Proof. destruct m; cbn; split; [by eexists| |done| |done|]; intros (a' & ? & ?); by simplify_eq. Qed.

Lemma invalid_if_valid c r s u : invalid_if c r s = Valid u <-> c = false.
Proof. destruct c, u; done. Qed.

Lemma check_assert_valid c u : check_assert c = Valid u <-> c = true.
Proof. destruct c, u; done. Qed.

Definition ScriptErrorString (serror : ScriptError) : string :=
  match serror with
  | SCRIPT_ERR_OK => "No error"
  | SCRIPT_ERR_EVAL_FALSE => "Script evaluated without error but finished with a false/empty top stack element"
  | SCRIPT_ERR_VERIFY => "Script failed an OP_VERIFY operation"
  | SCRIPT_ERR_EQUALVERIFY => "Script failed an OP_EQUALVERIFY operation"
  | SCRIPT_ERR_CHECKMULTISIGVERIFY => "Script failed an OP_CHECKMULTISIGVERIFY operation"
  | SCRIPT_ERR_CHECKSIGVERIFY => "Script failed an OP_CHECKSIGVERIFY operation"
  | SCRIPT_ERR_NUMEQUALVERIFY => "Script failed an OP_NUMEQUALVERIFY operation"
  | SCRIPT_ERR_SCRIPT_SIZE => "Script is too big"
  | SCRIPT_ERR_PUSH_SIZE => "Push value size limit exceeded"
  | SCRIPT_ERR_OP_COUNT => "Operation limit exceeded"
  | SCRIPT_ERR_STACK_SIZE => "Stack size limit exceeded"
  | SCRIPT_ERR_SIG_COUNT => "Signature count negative or greater than pubkey count"
  | SCRIPT_ERR_PUBKEY_COUNT => "Pubkey count negative or limit exceeded"
  | SCRIPT_ERR_BAD_OPCODE => "Opcode missing or not understood"
  | SCRIPT_ERR_DISABLED_OPCODE => "Attempted to use a disabled opcode"
  | SCRIPT_ERR_INVALID_STACK_OPERATION => "Operation not valid with the current stack size"
  | SCRIPT_ERR_INVALID_ALTSTACK_OPERATION => "Operation not valid with the current altstack size"
  | SCRIPT_ERR_OP_RETURN => "OP_RETURN was encountered"
  | SCRIPT_ERR_UNBALANCED_CONDITIONAL => "Invalid OP_IF construction"
  | SCRIPT_ERR_NEGATIVE_LOCKTIME => "Negative locktime"
  | SCRIPT_ERR_UNSATISFIED_LOCKTIME => "Locktime requirement not satisfied"
  | SCRIPT_ERR_SIG_HASHTYPE => "Signature hash type missing or not understood"
  | SCRIPT_ERR_SIG_DER => "Non-canonical DER signature"
  | SCRIPT_ERR_MINIMALDATA => "Data push larger than necessary"
  | SCRIPT_ERR_SIG_PUSHONLY => "Only push operators allowed in signatures"
  | SCRIPT_ERR_SIG_HIGH_S => "Non-canonical signature: S value is unnecessarily high"
  | SCRIPT_ERR_SIG_NULLDUMMY => "Dummy CHECKMULTISIG argument must be zero"
  | SCRIPT_ERR_MINIMALIF => "OP_IF/NOTIF argument must be minimal"
  | SCRIPT_ERR_SIG_NULLFAIL => "Signature must be zero for failed CHECK(MULTI)SIG operation"
  | SCRIPT_ERR_DISCOURAGE_UPGRADABLE_NOPS => "NOPx reserved for soft-fork upgrades"
  | SCRIPT_ERR_DISCOURAGE_UPGRADABLE_WITNESS_PROGRAM => "Witness version reserved for soft-fork upgrades"
  | SCRIPT_ERR_DISCOURAGE_UPGRADABLE_TAPROOT_VERSION => "Taproot version reserved for soft-fork upgrades"
  | SCRIPT_ERR_DISCOURAGE_OP_SUCCESS => "OP_SUCCESSx reserved for soft-fork upgrades"
  | SCRIPT_ERR_DISCOURAGE_UPGRADABLE_PUBKEYTYPE => "Public key version reserved for soft-fork upgrades"
  | SCRIPT_ERR_PUBKEYTYPE => "Public key is neither compressed or uncompressed"
  | SCRIPT_ERR_CLEANSTACK => "Stack size must be exactly one after execution"
  | SCRIPT_ERR_WITNESS_PROGRAM_WRONG_LENGTH => "Witness program has incorrect length"
  | SCRIPT_ERR_WITNESS_PROGRAM_WITNESS_EMPTY => "Witness program was passed an empty witness"
  | SCRIPT_ERR_WITNESS_PROGRAM_MISMATCH => "Witness program hash mismatch"
  | SCRIPT_ERR_WITNESS_MALLEATED => "Witness requires empty scriptSig"
  | SCRIPT_ERR_WITNESS_MALLEATED_P2SH => "Witness requires only-redeemscript scriptSig"
  | SCRIPT_ERR_WITNESS_UNEXPECTED => "Witness provided for non-witness script"
  | SCRIPT_ERR_WITNESS_PUBKEYTYPE => "Using non-compressed keys in segwit"
  | SCRIPT_ERR_SCHNORR_SIG_SIZE => "Invalid Schnorr signature size"
  | SCRIPT_ERR_SCHNORR_SIG_HASHTYPE => "Invalid Schnorr signature hash type"
  | SCRIPT_ERR_SCHNORR_SIG => "Invalid Schnorr signature"
  | SCRIPT_ERR_TAPROOT_WRONG_CONTROL_SIZE => "Invalid Taproot control block size"
  | SCRIPT_ERR_TAPSCRIPT_VALIDATION_WEIGHT => "Too much signature validation relative to witness weight"
  | SCRIPT_ERR_TAPSCRIPT_CHECKMULTISIG => "OP_CHECKMULTISIG(VERIFY) is not available in tapscript"
  | SCRIPT_ERR_TAPSCRIPT_MINIMALIF => "OP_IF/NOTIF argument must be minimal in tapscript"
  | SCRIPT_ERR_OP_CODESEPARATOR => "Using OP_CODESEPARATOR in non-witness script"
  | SCRIPT_ERR_SIG_FINDANDDELETE => "Signature is found in scriptCode"
  | _ => "unknown error"
  end.

(** ** Transactions *)

Section Hashes.
Context `{Crypto}.

Definition GetHash (tx : CTransaction) : list Z := doubleSha256 (SerializeTransaction false tx).
Definition GetWitnessHash (tx : CTransaction) : list Z :=
  if negb (HasWitness (vin tx)) then GetHash tx else doubleSha256 (SerializeTransaction true tx).

End Hashes.

(** [COutPoint::NULL_INDEX] *)
Definition NULL_INDEX : Z := 0xffffffff.

Definition IsNullOutPoint (p : COutPoint) : bool := forallb (fun b => b =? 0) (op_hash p) && (op_n p =? NULL_INDEX).

Definition IsEmpty (o : CTxOut) : bool := (nValue o =? 0) && (length (out_scriptPubKey o) =? 0)%nat.

Definition IsCoinBase (tx : CTransaction) : bool :=
  match vin tx with [i] => IsNullOutPoint (prevout i) | _ => false end.

Definition IsCoinStake (tx : CTransaction) : bool :=
  match vin tx, vout tx with
  | i :: _, o :: _ :: _ => negb (IsNullOutPoint (prevout i)) && IsEmpty o
  | _, _ => false
  end.

(** ** Coins *)

(** An output with where it was created ([coins.h]). *)
Record Coin : Type := { coin_out : CTxOut; fCoinBase : bool; fCoinStake : bool; nHeight : Z; coin_nTime : Z }.

(** A view of the unspent outputs; [None] is a coin that is spent or unknown. *)
Definition CCoinsView : Type := COutPoint -> option Coin.
