(* ===== verification/CheckInputs.v ===== *)
(** * Checking the input scripts of a transaction

    [validation.cpp]: [CScriptCheck], [CheckInputScripts] and
    [GetBlockScriptFlags].  The cache of verified transactions is a function that
    says which entries it holds; the signature cache, which only remembers
    results, is left out.  The theorems: checks cannot stop the node, and what
    the relay rules accept the rules of the next block accept. *)

From S2P Require Import Prelude Digits JsString Bytes Crypto JsInt Tx NodeTx ScriptError NodeScript ScriptNum Interpreter InterpFacts Verify VerifyFacts InterpSafe Spend SoftFork Validation.

Open Scope Z_scope.
Open Scope list_scope.

Section CheckInputs.
Context `{Crypto} `{Curve}.

(** ** One input *)

Record CScriptCheck : Type := {
  m_tx_out : CTxOut;
  ptxTo : CTransaction;
  check_nIn : nat;
  nFlags : Z;
  check_txdata : PrecomputedTransactionData
}.

(** [CScriptCheck::operator()]; a missing input would be an index out of range. *)
Definition run_check (c : CScriptCheck) : script_res unit :=
  match vin (ptxTo c) !! check_nIn c with
  | None => Abort
  | Some txin =>
      VerifyScript (TransactionSignatureChecker
          {| txTo := ptxTo c; m_mdb := ASSERT_FAIL; nIn := check_nIn c; amount := nValue (m_tx_out c);
             txdata := Some (check_txdata c) |})
        (nFlags c) (in_scriptSig txin) (out_scriptPubKey (m_tx_out c)) (scriptWitness txin)
  end.

Definition STANDARD_NOT_MANDATORY_VERIFY_FLAGS : Z := Z.ldiff STANDARD_SCRIPT_VERIFY_FLAGS MANDATORY_SCRIPT_VERIFY_FLAGS.

Definition error_text (prefix : string) (e : option ScriptError) : string :=
  prefix +:+ " (" +:+ ScriptErrorString (default SCRIPT_ERR_UNKNOWN_ERROR e) +:+ ")".

(** A failure is blamed on policy when the input passes without the flags that
    are policy only. *)
Definition judge (check_at : Z -> CScriptCheck) (flags : Z) : check unit :=
  match run_check (check_at flags) with
  | Abort => Crash
  | Ret _ => Valid tt
  | Err e =>
      policy ← (if flag flags STANDARD_NOT_MANDATORY_VERIFY_FLAGS then
                  match run_check (check_at (Z.ldiff flags STANDARD_NOT_MANDATORY_VERIFY_FLAGS)) with
                  | Abort => Crash
                  | Ret _ => Valid true
                  | Err _ => Valid false
                  end
                else Valid false);
      if policy : bool then Invalid TX_NOT_STANDARD (error_text "non-mandatory-script-verify-flag" e)
      else Invalid TX_CONSENSUS (error_text "mandatory-script-verify-flag-failed" e)
  end.

(** The loop over the inputs, from number [i] on. *)
Fixpoint judge_inputs (tx : CTransaction) (flags : Z) (d : PrecomputedTransactionData) (i : nat) (outs : list CTxOut) : check unit :=
  match outs with
  | [] => Valid tt
  | o :: outs =>
      _ ← judge (fun flags => {| m_tx_out := o; ptxTo := tx; check_nIn := i; nFlags := flags; check_txdata := d |}) flags;
      judge_inputs tx flags d (S i) outs
  end.

(** ** All inputs *)

(** A fresh [PrecomputedTransactionData]. *)
Definition no_txdata : PrecomputedTransactionData := {| c_bip143 := None; c_bip341 := None; c_spent_outputs := None |}.

Section Cache.
Context (prefix : list Z) (contains : list Z -> bool).

(** The entry of a transaction and its flags; [prefix] is what the hasher of the
    cache was started with. *)
Definition cache_entry (tx : CTransaction) (flags : Z) : list Z := sha256 (prefix ++ GetWitnessHash tx ++ le_bytes 4 flags).

Fixpoint spent_coins (inputs : CCoinsView) (vin : list CTxIn) : check (list CTxOut) :=
  match vin with
  | [] => Valid []
  | txin :: vin =>
      match inputs (prevout txin) with
      | None => Crash
      | Some coin => outs ← spent_coins inputs vin; Valid (coin_out coin :: outs)
      end
  end.

Definition prepare (tx : CTransaction) (inputs : CCoinsView) (d : PrecomputedTransactionData) : check PrecomputedTransactionData :=
  d ← (match c_spent_outputs d with
       | Some _ => Valid d
       | None =>
           outs ← spent_coins inputs (vin tx);
           match Init tx outs false with Ret d => Valid d | _ => Crash end
       end);
  _ ← check_assert (length (default [] (c_spent_outputs d)) =? length (vin tx))%nat;
  Valid d.

(** The precomputed data, the entry to remember and, with a queue of checks,
    the checks it is given. *)
Definition CheckInputScripts (tx : CTransaction) (inputs : CCoinsView) (flags : Z) (cacheFullScriptStore pvChecks : bool)
    (txdata : PrecomputedTransactionData) :
    check (PrecomputedTransactionData * option (list Z) * list CScriptCheck) :=
  if IsCoinBase tx then Valid (txdata, None, []) else
  let entry := cache_entry tx flags in
  if contains entry then Valid (txdata, None, []) else
  d ← prepare tx inputs txdata;
  let outs := default [] (c_spent_outputs d) in
  if pvChecks then
    Valid (d, None,
      imap (fun i o => {| m_tx_out := o; ptxTo := tx; check_nIn := i; nFlags := flags; check_txdata := d |}) outs)
  else
    _ ← judge_inputs tx flags d 0 outs;
    Valid (d, if cacheFullScriptStore then Some entry else None, []).

End Cache.

End CheckInputs.

(** ** Flags of a block *)

(** [GetBlockScriptFlags]: [exception] is the entry of the block's hash in
    [script_flag_exceptions], the others say which rules are in force at it. *)
Definition GetBlockScriptFlags (exception : option Z) (segwit protocol_v3 csv taproot : bool) : Z :=
  let flags := default (lor_all [SCRIPT_VERIFY_P2SH; SCRIPT_VERIFY_DERSIG; SCRIPT_VERIFY_DERKEY; SCRIPT_VERIFY_LOW_S]) exception in
  let flags := if flag flags SCRIPT_VERIFY_P2SH && segwit then Z.lor flags SCRIPT_VERIFY_WITNESS else flags in
  let flags :=
    if protocol_v3 then Z.lor (Z.lor flags SCRIPT_VERIFY_CHECKLOCKTIMEVERIFY) SCRIPT_VERIFY_NULLDUMMY else flags in
  let flags := if csv then Z.lor flags SCRIPT_VERIFY_CHECKSEQUENCEVERIFY else flags in
  if taproot then Z.lor flags SCRIPT_VERIFY_TAPROOT else flags.

Lemma block_flags_standard segwit v3 csv taproot :
  let flags := GetBlockScriptFlags None segwit v3 csv taproot in
  Z.land flags STANDARD_SCRIPT_VERIFY_FLAGS = flags /\ flags_ok flags.
Proof. destruct segwit, v3, csv, taproot; split; try (by vm_compute); split; by vm_compute. Qed.

(** ** The data Taproot needs is there *)

Lemma scan_taproot_kept vin inpos spent segwit : (scan_inputs vin inpos spent segwit true).2 = true.
Proof.
  revert inpos segwit. induction vin as [|i vin IH]; intros inpos segwit; [done|]. cbn [scan_inputs].
  destruct (segwit && true); [done|]. destruct (IsNullWitness _); [done|]. by case_match.
Qed.

Definition taproot_output (o : CTxOut) : bool :=
  (length (out_scriptPubKey o) =? 2 + WITNESS_V1_TAPROOT_SIZE)%nat && (byte0 (out_scriptPubKey o) =? OP_1).

Lemma scan_finds_taproot vin inpos outs segwit taproot k txin o :
  vin !! k = Some txin -> IsNullWitness (scriptWitness txin) = false -> outs !! (inpos + k)%nat = Some o -> taproot_output o = true ->
  (scan_inputs vin inpos (Some outs) segwit taproot).2 = true.
Proof.
  revert inpos segwit taproot k. induction vin as [|i vin IH]; intros inpos segwit taproot k Hk Hw Ho Ht; [done|]. cbn [scan_inputs].
  destruct (segwit && taproot) eqn:E; [by apply andb_true_iff in E as [_ ->]|]. destruct k as [|k].
  - injection Hk as ->. rewrite Hw. rewrite Nat.add_0_r in Ho. cbn [mbind option_bind]. rewrite Ho.
    unfold taproot_output in Ht. rewrite Ht. apply scan_taproot_kept.
  - rewrite <-Nat.add_succ_comm in Ho. destruct (IsNullWitness (scriptWitness i)); [by eapply IH|].
    destruct (match _ with Some _ => _ | None => false end); by eapply IH.
Qed.

Section Facts.
Context `{CryptoLaws} `{Curve}.

Lemma init_spent tx outs d :
  Init tx outs false = Ret d -> outs <> [] ->
  c_spent_outputs d = Some outs /\ length outs = length (vin tx) /\
  forall k txin o, vin tx !! k = Some txin -> IsNullWitness (scriptWitness txin) = false -> outs !! k = Some o ->
    taproot_output o = true -> is_Some (c_bip341 d).
Proof.
  intros Hd Hne. unfold Init in Hd. destruct outs as [|o0 outs]; [done|]. set (all := o0 :: outs) in *.
  apply script_bind_ret in Hd as (spent & Hs & Hd). apply script_bind_ret in Hs as ([] & Hl%script_assert_ret & [= <-]).
  destruct (scan_inputs _ _ _ _ _) as [segwit taproot] eqn:Es. injection Hd as <-. split; [done|]. split; [by apply Nat.eqb_eq|].
  intros k txin o Hk Hw Ho Ht. pose proof (scan_finds_taproot _ 0 _ false false _ _ _ Hk Hw Ho Ht) as Hscan.
  rewrite Es in Hscan. cbn in Hscan. subst taproot. by eexists.
Qed.

Lemma init_defined tx outs : length outs = length (vin tx) -> exists d, Init tx outs false = Ret d.
Proof.
  intros Hl. unfold Init. destruct outs as [|o outs].
  - cbn [mbind script_res_bind]. destruct (scan_inputs _ _ _ _ _). by eexists.
  - rewrite Hl, Nat.eqb_refl. cbn [script_assert mbind script_res_bind]. destruct (scan_inputs _ _ _ _ _). by eexists.
Qed.

(** ** Checks do not stop the node *)

(** Vectors hold bytes, and a witness fewer than [2^31] items. *)
Definition vectors_ok (i : CTxIn) : Prop :=
  bytes_ok (in_scriptSig i) /\ Forall bytes_ok (scriptWitness i) /\ Z.of_nat (length (scriptWitness i)) < 2 ^ 31.

Definition output_ok (o : CTxOut) : Prop := 0 <= nValue o /\ bytes_ok (out_scriptPubKey o).

Lemma witness_v1_taproot o program :
  IsWitnessProgram (out_scriptPubKey o) = Some (1, program) -> length program = 32%nat -> taproot_output o = true.
Proof.
  unfold IsWitnessProgram, taproot_output. intros Hp Hl. repeat case_match; simplify_eq. rewrite length_drop in Hl.
  apply andb_true_iff. split; [apply Nat.eqb_eq; unfold WITNESS_V1_TAPROOT_SIZE; lia|]. apply Z.eqb_eq.
  match goal with Hd : DecodeOP_N _ = 1 |- _ => unfold DecodeOP_N in Hd; destruct (_ =? 0); [done|] end. unfold OP_1 in *. lia.
Qed.

Lemma run_check_aborts tx outs d i txin o flags :
  Init tx outs false = Ret d -> vin tx !! i = Some txin -> outs !! i = Some o -> vectors_ok txin -> output_ok o -> flags_ok flags ->
  aborts (run_check {| m_tx_out := o; ptxTo := tx; check_nIn := i; nFlags := flags; check_txdata := d |}) = false.
Proof.
  intros Hd Hi Ho (Hsig & Hw & Hn) (Hv & Hpk) Hf. unfold run_check. cbn. rewrite Hi.
  set (c := {| txTo := tx; m_mdb := ASSERT_FAIL; nIn := i; amount := nValue o; txdata := Some d |}).
  assert (input_known c) as Hc by (split; [by eapply lookup_lt_Some|by right]).
  pose proof (tx_checker_safe c BASE Hc ltac:(done)). pose proof (tx_checker_safe c WITNESS_V0 Hc ltac:(done)).
  apply verify_aborts; [done..|]. intros program Hp Hlen Hne. apply tx_taproot_ready; [done|]. right. exists d. split; [done|].
  destruct (init_spent tx outs d Hd) as (Hs & _ & Htap); [by destruct outs|]. split; [|by rewrite Hs].
  eapply Htap; [done| |done|by eapply witness_v1_taproot]. by destruct (scriptWitness txin).
Qed.

Lemma flag_ldiff flags s mask : Z.land mask s = 0 -> flag (Z.ldiff flags s) mask = flag flags mask.
Proof.
  intros Hm. unfold flag. do 2 f_equal. apply Z.bits_inj'. intros n Hn. rewrite !Z.land_spec, Z.ldiff_spec.
  assert (Z.testbit mask n && Z.testbit s n = false) as Hb by (by rewrite <-Z.land_spec, Hm, Z.bits_0).
  by destruct (Z.testbit flags n), (Z.testbit mask n), (Z.testbit s n).
Qed.

Lemma flag_ldiff_off flags s mask : Z.ldiff mask s = 0 -> flag (Z.ldiff flags s) mask = false.
Proof.
  intros Hm. unfold flag. apply negb_false_iff, Z.eqb_eq, Z.bits_inj'. intros n Hn. rewrite Z.land_spec, Z.ldiff_spec, Z.bits_0.
  assert (Z.testbit mask n && negb (Z.testbit s n) = false) as Hb by (by rewrite <-Z.ldiff_spec, Hm, Z.bits_0).
  by destruct (Z.testbit flags n), (Z.testbit mask n), (Z.testbit s n).
Qed.

Lemma flags_ok_mandatory flags : flags_ok flags -> flags_ok (Z.ldiff flags STANDARD_NOT_MANDATORY_VERIFY_FLAGS).
Proof. intros [_ Hw]. split; [by rewrite flag_ldiff_off|]. by rewrite !flag_ldiff. Qed.

Lemma judge_safe tx outs d i txin o flags :
  Init tx outs false = Ret d -> vin tx !! i = Some txin -> outs !! i = Some o -> vectors_ok txin -> output_ok o -> flags_ok flags ->
  judge (fun flags => {| m_tx_out := o; ptxTo := tx; check_nIn := i; nFlags := flags; check_txdata := d |}) flags <> Crash.
Proof.
  intros Hd Hi Ho Hb Hok Hf. unfold judge.
  pose proof (run_check_aborts tx outs d i txin o flags Hd Hi Ho Hb Hok Hf) as Ha. destruct (run_check _); try done.
  pose proof (run_check_aborts tx outs d i txin o _ Hd Hi Ho Hb Hok (flags_ok_mandatory _ Hf)) as Ha'.
  destruct (flag _ _); [|done]. by destruct (run_check _).
Qed.

Lemma judge_inputs_safe tx outs d flags i rest :
  Init tx outs false = Ret d -> length outs = length (vin tx) -> Forall vectors_ok (vin tx) -> Forall output_ok outs -> flags_ok flags ->
  rest = drop i outs -> judge_inputs tx flags d i rest <> Crash.
Proof.
  intros Hd Hl Hin Hout Hf. revert i. induction rest as [|o rest IH]; intros i Hr; [done|].
  assert (outs !! i = Some o) as Ho by (rewrite <-(Nat.add_0_r i), <-lookup_drop, <-Hr; done).
  destruct (lookup_lt_is_Some_2 (vin tx) i) as [txin Hi]; [rewrite <-Hl; by eapply lookup_lt_Some|]. cbn [judge_inputs].
  pose proof (judge_safe tx outs d i txin o flags Hd Hi Ho (Forall_lookup_1 _ _ _ _ Hin Hi) (Forall_lookup_1 _ _ _ _ Hout Ho) Hf) as Hj.
  destruct (judge _ _); [|done|done]. apply IH. rewrite (drop_S _ _ _ Ho) in Hr. by simplify_eq.
Qed.

Lemma spent_coins_ok inputs vin :
  Forall (fun i => exists coin, inputs (prevout i) = Some coin /\ output_ok (coin_out coin)) vin ->
  exists outs, spent_coins inputs vin = Valid outs /\ length outs = length vin /\ Forall output_ok outs.
Proof.
  induction 1 as [|i vin (coin & Hc & Hok) _ (outs & Ho & Hl & Hall)]; [by exists []|].
  exists (coin_out coin :: outs). cbn. rewrite Hc, Ho. cbn. split; [done|]. split; [by rewrite Hl|by constructor].
Qed.

Lemma prepare_ok tx inputs outs :
  spent_coins inputs (vin tx) = Valid outs -> length outs = length (vin tx) ->
  exists d, Init tx outs false = Ret d /\ prepare tx inputs no_txdata = Valid d /\ default [] (c_spent_outputs d) = outs.
Proof.
  intros Hs Hl. destruct (init_defined tx outs Hl) as (d & Hd). exists d. split; [done|].
  assert (default [] (c_spent_outputs d) = outs) as Hout.
  { destruct outs as [|o outs]; [|by destruct (init_spent tx _ d Hd) as (-> & _)].
    unfold Init in Hd. cbn [mbind script_res_bind] in Hd. destruct (scan_inputs _ _ _ _ _). by simplify_eq. }
  split; [|done]. unfold prepare. cbn [c_spent_outputs no_txdata]. rewrite Hs. cbn [mbind check_bind]. rewrite Hd. cbn [mbind check_bind].
  by rewrite Hout, Hl, Nat.eqb_refl.
Qed.

Lemma judge_valid check_at flags : judge check_at flags = Valid tt <-> run_check (check_at flags) = Ret tt.
Proof.
  unfold judge. destruct (run_check (check_at flags)) as [[]| |]; [done| |done]. split; [|done].
  intros (policy & _ & Hp)%check_bind_valid. by destruct policy.
Qed.

Lemma run_check_mono tx o i d f g :
  Z.land f g = f -> flags_ok f ->
  run_check {| m_tx_out := o; ptxTo := tx; check_nIn := i; nFlags := g; check_txdata := d |} = Ret tt ->
  run_check {| m_tx_out := o; ptxTo := tx; check_nIn := i; nFlags := f; check_txdata := d |} = Ret tt.
Proof.
  intros Hfg Hf. unfold run_check. cbn. destruct (vin tx !! i); [|done]. apply verify_mono; [by apply subset_subflags|done].
Qed.

Lemma judge_inputs_mono tx f g d i outs :
  Z.land f g = f -> flags_ok f -> judge_inputs tx g d i outs = Valid tt -> judge_inputs tx f d i outs = Valid tt.
Proof.
  intros Hfg Hf. revert i. induction outs as [|o outs IH]; intros i; [done|]. cbn [judge_inputs].
  intros ([] & Hj%judge_valid & Hr)%check_bind_valid. apply check_bind_valid. exists tt. split; [|by apply IH].
  apply judge_valid. by eapply run_check_mono.
Qed.

(** The cache only holds entries of transactions that passed. *)
Definition cache_sound (prefix : list Z) (contains : list Z -> bool) (tx : CTransaction) (inputs : CCoinsView) : Prop :=
  forall flags, contains (cache_entry prefix tx flags) = true ->
  exists d, prepare tx inputs no_txdata = Valid d /\ judge_inputs tx flags d 0 (default [] (c_spent_outputs d)) = Valid tt.

Lemma CheckInputScripts_valid prefix contains tx inputs flags store :
  cache_sound prefix contains tx inputs ->
  IsCoinBase tx = false ->
  (exists r, CheckInputScripts prefix contains tx inputs flags store false no_txdata = Valid r) <->
  exists d, prepare tx inputs no_txdata = Valid d /\ judge_inputs tx flags d 0 (default [] (c_spent_outputs d)) = Valid tt.
Proof.
  intros Hsound Hcb. unfold CheckInputScripts. rewrite Hcb. destruct (contains _) eqn:Ec.
  - split; [by intros; apply Hsound|by eexists].
  - split.
    + intros (r & (d & Hd & Hr)%check_bind_valid). apply check_bind_valid in Hr as ([] & Hj & _). by exists d.
    + intros (d & Hd & Hj). eexists. apply check_bind_valid. exists d. split; [done|]. apply check_bind_valid. by exists tt.
Qed.

End Facts.

(** C21: Whatever scripts a transaction and the coins it spends hold, checking its
    inputs against coins the view has, with flags that fit together, never
    reaches a failed assertion: neither in the checks that are run nor in those
    that are queued.  In particular the signature hashes of Taproot inputs find
    the data that [PrecomputedTransactionData::Init] chose to prepare. *)
Theorem input_checks_never_crash `{CryptoLaws} `{CU : Curve} prefix contains tx inputs flags store pvChecks :
  flags_ok flags -> Forall vectors_ok (vin tx) ->
  Forall (fun i => exists coin, inputs (prevout i) = Some coin /\ output_ok (coin_out coin)) (vin tx) ->
  match CheckInputScripts prefix contains tx inputs flags store pvChecks no_txdata with
  | Valid (_, _, checks) => Forall (fun c => aborts (run_check c) = false) checks
  | Invalid _ _ => True
  | Crash => False
  end.
Proof.
  intros Hf Hin Hcoins. destruct (spent_coins_ok _ _ Hcoins) as (outs & Hs & Hl & Hout).
  destruct (prepare_ok _ _ _ Hs Hl) as (d & Hd & Hp & Hdef). unfold CheckInputScripts.
  destruct (IsCoinBase tx); [done|]. destruct (contains _); [done|]. rewrite Hp. cbn [mbind check_bind]. rewrite Hdef. destruct pvChecks.
  - apply Forall_lookup_2. intros i c Hc. rewrite list_lookup_imap in Hc. destruct (outs !! i) as [o|] eqn:Ho; [|done].
    injection Hc as <-. destruct (lookup_lt_is_Some_2 (vin tx) i) as [txin Hi]; [rewrite <-Hl; by eapply lookup_lt_Some|].
    eapply run_check_aborts; [done..| | |done]; by eapply Forall_lookup_1.
  - pose proof (judge_inputs_safe tx outs d flags 0 outs Hd Hl Hin Hout Hf eq_refl) as Hj.
    destruct (judge_inputs _ _ _ _ _); [apply Forall_nil_2|done|done].
Qed.

(** An input of a transaction that spends a coin anyone can spend. *)
Definition open_txin : CTxIn :=
  {| prevout := {| op_hash := replicate 32 7; op_n := 0 |}; in_scriptSig := []; nSequence := 0xffffffff; scriptWitness := [] |}.
Definition open_coin : Coin :=
  {| coin_out := {| nValue := 5; out_scriptPubKey := [OP_1] |}; fCoinBase := false; fCoinStake := false; nHeight := 1; coin_nTime := 0 |}.
Definition open_spend : CTransaction :=
  {| nVersion := 2; nTime := 0; vin := [open_txin]; vout := [{| nValue := 4; out_scriptPubKey := [OP_1] |}]; nLockTime := 0 |}.

Lemma input_checks_never_crash_witness :
  match @CheckInputScripts toy_crypto toy_curve [] (fun _ => false) open_spend (fun _ => Some open_coin) STANDARD_SCRIPT_VERIFY_FLAGS
    true true no_txdata with
  | Valid (_, _, checks) => Forall (fun c => aborts (@run_check toy_crypto toy_curve c) = false) checks
  | Invalid _ _ => True
  | Crash => False
  end.
Proof.
  apply (@input_checks_never_crash toy_crypto toy_laws toy_curve).
  - split; by vm_compute.
  - constructor; [|constructor]. split; [constructor|]. split; [constructor|by vm_compute].
  - constructor; [|constructor]. exists open_coin. split; [done|]. split; [by vm_compute|]. constructor; [by vm_compute|constructor].
Defined.

Lemma mandatory_block segwit v3 csv taproot :
  let flags := GetBlockScriptFlags None segwit v3 csv taproot in
  Z.land flags (Z.ldiff STANDARD_SCRIPT_VERIFY_FLAGS STANDARD_NOT_MANDATORY_VERIFY_FLAGS) = flags.
Proof. destruct segwit, v3, csv, taproot; by vm_compute. Qed.

Lemma judge_not_standard `{Crypto} `{Curve} check_at flags reason :
  judge check_at flags = Invalid TX_NOT_STANDARD reason ->
  (exists e, run_check (check_at flags) = Err e /\ reason = error_text "non-mandatory-script-verify-flag" e) /\
  run_check (check_at (Z.ldiff flags STANDARD_NOT_MANDATORY_VERIFY_FLAGS)) = Ret tt.
Proof.
  unfold judge. destruct (run_check (check_at flags)) as [|e|]; [done| |done]. destruct (flag flags _); [|done].
  destruct (run_check (check_at (Z.ldiff _ _))) as [[]| |]; [|done|done]. cbn [mbind check_bind]. intros [= <-]. split; [by exists e|done].
Qed.

(** The first input that fails is the one that is judged. *)
Lemma judge_inputs_not_standard `{Crypto} `{Curve} tx flags d i outs reason :
  let check k o fl := {| m_tx_out := o; ptxTo := tx; check_nIn := k; nFlags := fl; check_txdata := d |} in
  judge_inputs tx flags d i outs = Invalid TX_NOT_STANDARD reason ->
  exists k o e, outs !! k = Some o /\ (forall j o', (j < k)%nat -> outs !! j = Some o' -> run_check (check (i + j)%nat o' flags) = Ret tt) /\
    run_check (check (i + k)%nat o flags) = Err e /\ reason = error_text "non-mandatory-script-verify-flag" e /\
    run_check (check (i + k)%nat o (Z.ldiff flags STANDARD_NOT_MANDATORY_VERIFY_FLAGS)) = Ret tt.
Proof.
  cbv zeta. revert i. induction outs as [|o outs IH]; intros i; [done|]. cbn [judge_inputs]. destruct (judge _ _) as [[]| |] eqn:E; [|intros [= -> ->]|done].
  - intros (k & o' & e & Hk & Hbefore & Hr)%IH. exists (S k), o', e. split; [done|]. rewrite <-Nat.add_succ_comm. split; [|done].
    intros [|j] o'' Hj Ho; [|rewrite <-Nat.add_succ_comm; apply Hbefore; [lia|done]]. injection Ho as <-. rewrite Nat.add_0_r. by apply judge_valid in E.
  - apply judge_not_standard in E as [(e & He & ->) Hc]. exists 0%nat, o, e. rewrite Nat.add_0_r. split; [done|]. split; [lia|done].
Qed.

(** C9: The relay rules contain the rules of every block.  Where every entry of the
    cache of scripts stands for inputs that passed, a transaction whose inputs pass
    under the standard flags passes under the flags of any block, whichever
    deployments are active there (so the report of a bug in
    [ConsensusScriptChecks] is never reached).  When the node refuses a transaction
    as merely not standard, the input at fault is the first one that fails the
    standard flags, the reason names its error, and that very input passes under
    the flags of any block. *)
Theorem relay_rules_contain_block_rules `{CryptoLaws} `{CU : Curve} prefix contains tx inputs segwit v3 csv taproot store store' :
  let block := GetBlockScriptFlags None segwit v3 csv taproot in
  let result := CheckInputScripts prefix contains tx inputs STANDARD_SCRIPT_VERIFY_FLAGS store false no_txdata in
  cache_sound prefix contains tx inputs -> IsCoinBase tx = false ->
  ((exists r, result = Valid r) -> exists r, CheckInputScripts prefix contains tx inputs block store' false no_txdata = Valid r) /\
  (forall reason, result = Invalid TX_NOT_STANDARD reason ->
    exists d k o e, prepare tx inputs no_txdata = Valid d /\ default [] (c_spent_outputs d) !! k = Some o /\
      let check k o fl := {| m_tx_out := o; ptxTo := tx; check_nIn := k; nFlags := fl; check_txdata := d |} in
      (forall j o', (j < k)%nat -> default [] (c_spent_outputs d) !! j = Some o' -> run_check (check j o' STANDARD_SCRIPT_VERIFY_FLAGS) = Ret tt) /\
      run_check (check k o STANDARD_SCRIPT_VERIFY_FLAGS) = Err e /\ reason = error_text "non-mandatory-script-verify-flag" e /\
      run_check (check k o block) = Ret tt).
Proof.
  intros block result Hsound Hcb. destruct (block_flags_standard segwit v3 csv taproot) as [Hsub Hok].
  fold block in Hsub, Hok. split.
  - subst result. rewrite !CheckInputScripts_valid by done. intros (d & Hd & Hj). exists d. split; [done|]. by eapply judge_inputs_mono.
  - subst result. unfold CheckInputScripts. rewrite Hcb. intros reason Hr. destruct (contains _); [done|].
    destruct (prepare tx inputs no_txdata) as [d|r s|] eqn:Ep; [|exfalso|done].
    + cbn [mbind check_bind] in Hr. destruct (judge_inputs _ _ _ _ _) eqn:Ej; [done| |done]. cbn in Hr. injection Hr as -> ->.
      destruct (judge_inputs_not_standard _ _ _ _ _ _ Ej) as (k & o & e & Hk & Hbefore & He & Hr & Hc). exists d, k, o, e. split; [done|]. split; [done|].
      split; [exact Hbefore|]. split; [exact He|]. split; [exact Hr|]. eapply run_check_mono; [apply mandatory_block|done|exact Hc].
    + unfold prepare in Ep. cbn [c_spent_outputs no_txdata] in Ep.
      assert (forall vin, match spent_coins inputs vin with Invalid _ _ => False | _ => True end) as Hspent.
      { intros vin. induction vin as [|i vin IH]; [done|]. cbn. destruct (inputs _); [|done]. by destruct (spent_coins inputs vin). }
      specialize (Hspent (vin tx)). destruct (spent_coins _ _); [|done|done]. cbn [mbind check_bind] in Ep.
      destruct (Init tx a false); [|done|done]. cbn in Ep. by destruct (_ =? _)%nat.
Qed.

Lemma relay_rules_contain_block_rules_witness :
  exists r, @CheckInputScripts toy_crypto toy_curve [] (fun _ => false) open_spend (fun _ => Some open_coin)
    (GetBlockScriptFlags None true true true true) true false no_txdata = Valid r.
Proof.
  refine (proj1 (@relay_rules_contain_block_rules toy_crypto toy_laws toy_curve [] (fun _ => false) open_spend (fun _ => Some open_coin)
    true true true true false true _ _) _).
  - by intros flags.
  - by vm_compute.
  - eexists. vm_compute. reflexivity.
Defined.
