(* ===== verification/Multisig.v ===== *)
(** * N-of-M multisignature proposals

    [firstislamiccoin-web-wallet/crypto.js], lines 361-519: the redeem script,
    its address, and the proposal object that cosigners create, sign, merge and
    finalise.  A JavaScript object used as a map from public keys to signatures
    is a finite map; a proposal is updated in place by the code and returned by
    the model. *)

From S2P Require Import Prelude Digits JsString Bytes Crypto JsInt Base58 Bech32 Address Tx.

Open Scope Z_scope.
Open Scope list_scope.

Definition OP_CHECKMULTISIG : Z := 0xae.

Definition opN (n : Z) : res Z :=
  _ ← throw_if ((n <? 1) || (16 <? n)) (JsError "OP_N only supports 1..16");
  Ok (0x50 + n).

Definition redeem_part (pk : list Z) : res (list (list Z)) :=
  _ ← throw_if (negb (length pk =? 33)%nat) (JsError "Only compressed (33-byte) pubkeys are supported");
  Ok [u8arr [Z.of_nat (length pk)]; pk].

Definition createMultisigRedeemScript (m : Z) (pubkeysCompressed : list (list Z)) : res (list Z) :=
  let n := Z.of_nat (length pubkeysCompressed) in
  _ ← throw_if ((m <? 1) || (n <? m)) (JsError "m must be between 1 and the number of pubkeys");
  _ ← throw_if (16 <? n) (JsError "at most 16 pubkeys supported (OP_N range)");
  op_m ← opN m;
  keys ← mapR redeem_part pubkeysCompressed;
  op_n ← opN n;
  Ok (concatBytes ([u8arr [op_m]] ++ mjoin keys ++ [u8arr [op_n; OP_CHECKMULTISIG]])).

Definition multisigAddress `{Crypto} (redeemScript : list Z) (net : network) : res string :=
  p2shAddress (hash160 redeemScript) net.

(** ** Proposals *)

Record proposal_input : Type := {
  pi_txid : string;
  pi_vout : Z;
  pi_valueSatoshis : Z;
  pi_redeemScript : string
}.
Record proposal_output : Type := { po_scriptPubKey : string; po_valueSatoshis : Z }.
Record proposal : Type := {
  p_version : Z;
  p_locktime : Z;
  p_inputs : list proposal_input;
  p_outputs : list proposal_output;
  p_signatures : list (gmap string string)
}.

(** An input as the caller of [createMultisigProposal] gives it. *)
Record multisig_input : Type := {
  mi_txid : list Z;
  mi_vout : Z;
  mi_valueSatoshis : Z;
  mi_redeemScript : list Z
}.

Definition createMultisigProposal (inputs : list multisig_input) (outputs : list tx_output) (locktime : Z) : proposal := {|
  p_version := 2;
  p_locktime := locktime;
  p_inputs := (fun i => {|
    pi_txid := bytesToHex (mi_txid i); pi_vout := mi_vout i; pi_valueSatoshis := mi_valueSatoshis i;
    pi_redeemScript := bytesToHex (mi_redeemScript i) |}) <$> inputs;
  p_outputs := (fun o => {| po_scriptPubKey := bytesToHex (scriptPubKey o); po_valueSatoshis := valueSatoshis o |}) <$> outputs;
  p_signatures := (fun _ => ∅) <$> inputs
|}.

Definition proposal_txin (i : proposal_input) : tx_input := {|
  prevTxid := hexToBytes (pi_txid i); prevVout := pi_vout i; scriptSig := []; sequence := None
|}.
Definition proposal_txout (o : proposal_output) : tx_output := {|
  scriptPubKey := hexToBytes (po_scriptPubKey o); valueSatoshis := po_valueSatoshis o
|}.
Definition proposalToTxInputsOutputs (p : proposal) : list tx_input * list tx_output :=
  (proposal_txin <$> p_inputs p, proposal_txout <$> p_outputs p).

(** [s.includes(t)] *)
Fixpoint includes_list (hay needle : list ascii) : bool :=
  bool_decide (take (length needle) hay = needle) ||
  match hay with [] => false | _ :: hay => includes_list hay needle end.
Definition includes (hay needle : string) : bool := includes_list (chars hay) (chars needle).

Definition scriptContainsPubkey (redeemScript pubkeyCompressed : list Z) : bool :=
  includes (bytesToHex redeemScript) (bytesToHex pubkeyCompressed).

Definition set_signatures (p : proposal) (s : list (gmap string string)) : proposal := {|
  p_version := p_version p; p_locktime := p_locktime p; p_inputs := p_inputs p; p_outputs := p_outputs p; p_signatures := s
|}.

Section Signing.
Context `{Crypto}.

(** One iteration of the loop over the inputs, on the array of signatures. *)
Definition sign_proposal_input (p : proposal) (privateKey publicKeyCompressed : list Z)
    (signatures : list (gmap string string)) (i : nat) : res (list (gmap string string)) :=
  let '(txInputs, outputs) := proposalToTxInputsOutputs p in
  inp ← defined "input" (p_inputs p !! i);
  let redeemScript := hexToBytes (pi_redeemScript inp) in
  if negb (scriptContainsPubkey redeemScript publicKeyCompressed) then Ok signatures else
  let sighash := legacySighash txInputs outputs i redeemScript (p_locktime p) in
  sg ← secp_sign sighash privateKey;
  let derSig := derEncodeSignature sg in
  collected ← defined "signatures" (signatures !! i);
  Ok (<[i := <[bytesToHex publicKeyCompressed := bytesToHex (concatBytes [derSig; u8arr [0x01]])]> collected]> signatures).

Definition signMultisigProposal (p : proposal) (privateKey publicKeyCompressed : list Z) : res proposal :=
  sigs ← foldR (sign_proposal_input p privateKey publicKeyCompressed) (p_signatures p) (seq 0 (length (p_inputs p)));
  Ok (set_signatures p sigs).

End Signing.

(** [Object.assign(merged.signatures[i], p.signatures[i])] for every [i]; the
    entries of the later proposal win, a missing map adds nothing. *)
Definition merge_signatures (merged p : list (gmap string string)) : list (gmap string string) :=
  imap (fun i s => default ∅ (p !! i) ∪ s) merged.

Definition mergeMultisigProposals (proposals : list proposal) : res proposal :=
  match proposals with
  | [] => Throw (EngineError "JSON.parse of undefined")
  | p0 :: rest => Ok (foldl (fun merged p => set_signatures merged (merge_signatures (p_signatures merged) (p_signatures p))) p0 rest)
  end.

(** The walk over the pushes; every step consumes at least the opcode. *)
Fixpoint parse_pubkeys_loop (fuel : nat) (rest : list Z) : list string :=
  match fuel, rest with
  | S fuel, opcode :: rest =>
      if (1 <=? opcode) && (opcode <=? 75) then
        bytesToHex (take (Z.to_nat opcode) rest) :: parse_pubkeys_loop fuel (drop (Z.to_nat opcode) rest)
      else []
  | _, _ => []
  end.
Definition parsePubkeysInOrder (redeemScript : list Z) : list string :=
  parse_pubkeys_loop (length redeemScript) (drop 1 redeemScript).

(** The signatures present, in the order of the keys: [map] and [filter(Boolean)]. *)
Definition ordered_sigs (collected : gmap string string) (pubkeys : list string) : list string :=
  filter (fun s => s <> "") (omap (fun pk => collected !! pk) pubkeys).

(** The first opcode minus [0x50], [NaN] for an empty script. *)
Definition required_sigs (redeemScript : list Z) : option Z :=
  match redeemScript with [] => None | b :: _ => Some (b - 0x50) end.

Definition finalize_script (i : nat) (redeemScript : list Z) (collected : option (gmap string string)) : res (list Z) :=
  let m := required_sigs redeemScript in
  let pubkeysInOrder := parsePubkeysInOrder redeemScript in
  orderedSigs ← (match pubkeysInOrder, collected with
                 | [], _ => Ok []
                 | _, None => Throw (EngineError "signatures is undefined")
                 | _, Some c => Ok (ordered_sigs c pubkeysInOrder)
                 end);
  let have := Z.of_nat (length orderedSigs) in
  _ ← throw_if (match m with Some m => have <? m | None => false end)
        (JsError ("Input " +:+ toString (Z.of_nat i) +:+ " has " +:+ toString have +:+ " signature(s), needs " +:+
                  toString (default 0 m)));
  let sigsToUse := hexToBytes <$> slice_list orderedSigs 0 (default 0 m) in
  Ok (concatBytes ([u8arr [0x00]] ++
        mjoin ((fun sig => [u8arr [Z.of_nat (length sig)]; sig]) <$> sigsToUse) ++
        [varInt (Z.of_nat (length redeemScript)); redeemScript])).

Definition finalize_input (p : proposal) (txInputs : list tx_input) (i : nat) : res (list tx_input) :=
  inp ← defined "input" (p_inputs p !! i);
  script ← finalize_script i (hexToBytes (pi_redeemScript inp)) (p_signatures p !! i);
  Ok (alter (set_scriptSig script) i txInputs).

Definition finalizeMultisigTransaction (p : proposal) : res (list Z) :=
  let '(txInputs, outputs) := proposalToTxInputsOutputs p in
  txInputs ← foldR (finalize_input p) txInputs (seq 0 (length (p_inputs p)));
  Ok (serializeTx (p_version p) txInputs outputs (p_locktime p)).

(** ** The redeem script *)

Definition push_key (pk : list Z) : list Z := 33 :: pk.

(** The bytes of an m-of-n script. *)
Definition redeem_bytes (m : Z) (keys : list (list Z)) : list Z :=
  (0x50 + m) :: mjoin (push_key <$> keys) ++ [0x50 + Z.of_nat (length keys); OP_CHECKMULTISIG].

Definition wf_keys (m : Z) (keys : list (list Z)) : Prop :=
  1 <= m <= Z.of_nat (length keys) /\ Z.of_nat (length keys) <= 16 /\
  Forall (fun pk => length pk = 33%nat) keys.

Lemma redeem_ok m keys : wf_keys m keys -> createMultisigRedeemScript m keys = Ok (redeem_bytes m keys).
Proof.
  intros (Hm & Hn & Hk). unfold createMultisigRedeemScript, opN.
  set (n := Z.of_nat (length keys)) in *.
  rewrite (proj2 (Z.ltb_ge m 1)), (proj2 (Z.ltb_ge n m)), (proj2 (Z.ltb_ge 16 n)), (proj2 (Z.ltb_ge 16 m)),
    (proj2 (Z.ltb_ge n 1)) by lia.
  cbn [orb throw_if mbind res_bind].
  rewrite (mapR_pure redeem_part (fun pk => [[33]; pk])).
  2: { eapply Forall_impl; [done|]. intros pk Hl. unfold redeem_part. by rewrite Hl. }
  cbn [mbind res_bind]. f_equal. rewrite concatBytes_concat, !join_app. unfold redeem_bytes, u8arr. fold n.
  rewrite !fmap_cons. cbn [fmap list_fmap mjoin list_join app]. rewrite !Z.mod_small by (unfold OP_CHECKMULTISIG; lia).
  f_equal. f_equal. clear. induction keys as [|pk keys IH]; [done|]. rewrite !fmap_cons. cbn [mjoin list_join app].
  exact (f_equal (app (push_key pk)) IH).
Qed.

Lemma redeem_inv m keys s : createMultisigRedeemScript m keys = Ok s -> wf_keys m keys /\ s = redeem_bytes m keys.
Proof.
  intros Hc. assert (wf_keys m keys) as Hwf.
  { unfold createMultisigRedeemScript in Hc.
    apply res_bind_ok in Hc as (_ & H1%throw_if_ok & Hc). apply res_bind_ok in Hc as (_ & H2%throw_if_ok & Hc).
    apply res_bind_ok in Hc as (om & _ & Hc). apply res_bind_ok in Hc as (ks & Hks%mapR_ok & _). b2p.
    split; [lia|]. split; [lia|]. apply Forall_lookup. intros i pk Hi.
    eapply Forall2_lookup_l in Hks as (y & _ & Hy); [|done]. unfold redeem_part in Hy.
    apply res_bind_ok in Hy as (_ & Hl%throw_if_ok & _). by b2p. }
  split; [done|]. rewrite redeem_ok in Hc by done. by apply Ok_inj in Hc.
Qed.

Lemma length_push_keys keys :
  Forall (fun pk => length pk = 33%nat) keys -> length (mjoin (push_key <$> keys)) = (34 * length keys)%nat.
Proof.
  induction 1 as [|pk keys Hpk _ IH]; [done|]. rewrite fmap_cons, mjoin_cons, length_app, IH.
  cbn [length push_key]. lia.
Qed.

Lemma length_redeem m keys : wf_keys m keys -> length (redeem_bytes m keys) = (3 + 34 * length keys)%nat.
Proof.
  intros (_ & _ & Hk). unfold redeem_bytes. cbn [length]. rewrite length_app, length_push_keys by done. cbn [length]. lia.
Qed.

Lemma redeem_bytes_ok m keys : wf_keys m keys -> Forall bytes_ok keys -> bytes_ok (redeem_bytes m keys).
Proof.
  intros (? & ? & _) Hk. unfold redeem_bytes. apply bytes_ok_cons; [lia|]. apply bytes_ok_app_2.
  - apply bytes_ok_concat, Forall_fmap. eapply Forall_impl; [done|]. intros pk Hpk. apply bytes_ok_cons; [lia|done].
  - apply bytes_ok_cons; [lia|]. apply bytes_ok_cons; [unfold OP_CHECKMULTISIG; lia|apply bytes_ok_nil].
Qed.

Lemma parse_pubkeys_loop_keys keys fuel op rest :
  Forall (fun pk => length pk = 33%nat) keys -> 75 < op -> (length keys < fuel)%nat ->
  parse_pubkeys_loop fuel (mjoin (push_key <$> keys) ++ op :: rest) = bytesToHex <$> keys.
Proof.
  intros Hk Hop. revert fuel. induction Hk as [|pk keys Hpk _ IH]; intros [|fuel] Hf; cbn [length] in Hf; try lia.
  - simpl. by rewrite (proj2 (Z.leb_gt op 75)), andb_false_r by done.
  - rewrite fmap_cons, mjoin_cons, <-app_assoc. unfold push_key at 1. cbn [app parse_pubkeys_loop].
    cbn [Z.leb Z.compare Pos.compare Pos.compare_cont andb]. change (Z.to_nat 33) with 33%nat.
    rewrite take_app_length', drop_app_length' by done. rewrite fmap_cons. f_equal. apply IH. lia.
Qed.

Lemma parse_redeem m keys : wf_keys m keys -> parsePubkeysInOrder (redeem_bytes m keys) = bytesToHex <$> keys.
Proof.
  intros Hwf. pose proof (length_redeem m keys Hwf) as Hl. destruct Hwf as (Hm & Hn & Hk).
  unfold parsePubkeysInOrder. rewrite Hl. unfold redeem_bytes. cbn [drop]. apply parse_pubkeys_loop_keys; [done|lia|lia].
Qed.

(** ** Which inputs a key signs *)

Lemma includes_app a n b : includes_list (a ++ n ++ b) n = true.
Proof.
  induction a as [|c a IH]; cbn [app].
  - destruct (n ++ b) eqn:E; simpl; apply orb_true_iff; left; apply bool_decide_eq_true; rewrite <-E;
      apply take_app_length.
  - simpl. by rewrite IH, orb_true_r.
Qed.

Lemma contains_key m keys pk :
  wf_keys m keys -> Forall bytes_ok keys -> pk ∈ keys -> scriptContainsPubkey (redeem_bytes m keys) pk = true.
Proof.
  intros Hwf Hb Hin. pose proof (redeem_bytes_ok m keys Hwf Hb) as Hr.
  pose proof Hin as Hpk. eapply list_elem_of_lookup in Hpk as [i Hi]. pose proof (Forall_lookup_1 _ _ _ _ Hb Hi) as Hpk.
  unfold scriptContainsPubkey, includes. rewrite !bytesToHex_chars by done.
  assert (exists pre suf, redeem_bytes m keys = pre ++ pk ++ suf) as (pre & suf & ->).
  { apply list_elem_of_split in Hin as (k1 & k2 & ->). unfold redeem_bytes.
    eexists ((0x50 + m) :: mjoin (push_key <$> k1) ++ [33]), _.
    rewrite fmap_app, fmap_cons, join_app, mjoin_cons. change (push_key pk) with ([33] ++ pk).
    cbn [app]. rewrite <-!app_assoc. cbn [app]. rewrite <-!app_assoc. reflexivity. }
  rewrite !fmap_app, !join_app. apply includes_app.
Qed.

(** ** Signing *)

(** A loop body may be replaced by another that agrees on reachable states. *)
Lemma foldR_ext_inv {S A} (f g : S -> A -> res S) (P : S -> Prop) l s :
  (forall s x, x ∈ l -> P s -> f s x = g s x) ->
  (forall s x s', P s -> g s x = Ok s' -> P s') ->
  P s -> foldR f s l = foldR g s l.
Proof.
  revert s. induction l as [|x l IH]; intros s Hfg Hg Hs; [done|]. cbn [foldR].
  rewrite Hfg by (done || by left). destruct (g s x) as [s'|] eqn:E; [|done]. cbn [mbind res_bind].
  apply IH; [|done|by eapply Hg]. intros s0 y Hy. apply Hfg. by right.
Qed.

Section SignSpec.
Context `{Crypto}.

Definition proposal_sighash (p : proposal) (i : nat) (redeem : list Z) : list Z :=
  legacySighash (proposal_txin <$> p_inputs p) (proposal_txout <$> p_outputs p) i redeem (p_locktime p).

Definition sig_hex (sg : signature) : string := bytesToHex (derEncodeSignature sg ++ [1]).

(** What one signer adds to input [i]: its signature where its key occurs in
    the script, nothing elsewhere. *)
Definition added (p : proposal) (k pub : list Z) (i : nat) : res (gmap string string) :=
  inp ← defined "input" (p_inputs p !! i);
  let redeem := hexToBytes (pi_redeemScript inp) in
  if scriptContainsPubkey redeem pub then
    sg ← secp_sign (proposal_sighash p i redeem) k; Ok {[bytesToHex pub := sig_hex sg]}
  else Ok ∅.

Definition wf_proposal (p : proposal) : Prop := length (p_signatures p) = length (p_inputs p).

Lemma sign_input_added p k pub sigs i :
  (i < length sigs)%nat ->
  sign_proposal_input p k pub sigs i = (a ← added p k pub i; Ok (alter (union a) i sigs)).
Proof.
  intros Hi. unfold sign_proposal_input, added. cbn [proposalToTxInputsOutputs].
  destruct (p_inputs p !! i) as [inp|]; [|done]. cbn [defined mbind res_bind].
  destruct (lookup_lt_is_Some_2 sigs i Hi) as [c Hc].
  destruct (scriptContainsPubkey _ pub); cbn [negb].
  - unfold proposal_sighash. destruct (secp_sign _ _); [|done]. cbn [mbind res_bind]. rewrite Hc.
    cbn [defined mbind res_bind]. f_equal. rewrite concatBytes_concat. cbn [mjoin list_join]. rewrite app_nil_r.
    change (u8arr [1]) with [1]. apply list_eq. intros j. destruct (decide (j = i)) as [->|].
    + rewrite list_lookup_insert_eq, list_lookup_alter_eq, Hc by done. cbn [fmap option_fmap option_map].
      by rewrite insert_union_singleton_l.
    + by rewrite list_lookup_insert_ne, list_lookup_alter_ne.
  - cbn [mbind res_bind]. f_equal. symmetry. apply list_eq. intros j. destruct (decide (j = i)) as [->|].
    + rewrite list_lookup_alter_eq, Hc. cbn [fmap option_fmap option_map]. by rewrite (left_id_L ∅ (∪)).
    + by rewrite list_lookup_alter_ne.
Qed.

Lemma sign_eq p k pub :
  wf_proposal p ->
  signMultisigProposal p k pub =
    (adds ← mapR (added p k pub) (seq 0 (length (p_inputs p)));
     Ok (set_signatures p (zip_with union adds (p_signatures p)))).
Proof.
  intros Hwf. unfold signMultisigProposal.
  rewrite (foldR_ext_inv _ (fun sigs i => a ← added p k pub i; Ok (alter (union a) i sigs))
    (fun sigs => length sigs = length (p_inputs p))); [|..|done].
  - rewrite (foldR_alter (fun _ i => added p k pub i)) by done.
    destruct (mapR _ _) as [adds|] eqn:E; [|done]. cbn [mbind res_bind]. do 2 f_equal.
    apply mapR_ok, Forall2_length in E. rewrite length_seq in E. rewrite <-Hwf in *.
    by apply (foldl_alter_zip union []).
  - intros sigs i [_ Hi]%elem_of_seq Hl. apply sign_input_added. lia.
  - intros sigs i sigs' Hl (a & _ & <-%Ok_inj)%res_bind_ok. by rewrite length_alter.
Qed.

(** The key [k] signs with its own public key. *)
Definition sign_as (p : proposal) (k : list Z) : res proposal := signMultisigProposal p k (secp_publicKey k).

Definition adds_of (p : proposal) (k : list Z) : res (list (gmap string string)) :=
  mapR (added p k (secp_publicKey k)) (seq 0 (length (p_inputs p))).

Lemma adds_length p k adds : adds_of p k = Ok adds -> length adds = length (p_inputs p).
Proof. intros E%mapR_ok%Forall2_length. by rewrite length_seq in E. Qed.

Lemma sign_as_set p sigs k :
  length sigs = length (p_inputs p) ->
  sign_as (set_signatures p sigs) k = (adds ← adds_of p k; Ok (set_signatures p (zip_with union adds sigs))).
Proof. intros Hl. unfold sign_as. by rewrite sign_eq. Qed.

(** A proposal nobody has signed yet. *)
Definition fresh (p : proposal) : Prop := p_signatures p = replicate (length (p_inputs p)) ∅.

Lemma zip_union_empty (adds : list (gmap string string)) n :
  length adds = n -> zip_with union adds (replicate n ∅) = adds.
Proof.
  intros <-. induction adds as [|a adds IH]; [done|]. cbn [length replicate zip_with].
  by rewrite IH, (right_id_L ∅ (∪)).
Qed.

Lemma merge_zip (adds sigs : list (gmap string string)) :
  length adds = length sigs -> merge_signatures sigs adds = zip_with union adds sigs.
Proof.
  intros Hl. apply list_eq. intros i. unfold merge_signatures. rewrite list_lookup_imap, lookup_zip_with.
  destruct (sigs !! i) as [c|] eqn:Ec; [|by destruct (adds !! i)].
  destruct (lookup_lt_is_Some_2 adds i) as [a ->]; [rewrite Hl; by eapply lookup_lt_Some|]. done.
Qed.

Lemma sign_fresh p k : fresh p -> sign_as p k = (adds ← adds_of p k; Ok (set_signatures p adds)).
Proof.
  intros Hf. replace p with (set_signatures p (p_signatures p)) at 1 by (by destruct p). rewrite Hf.
  rewrite sign_as_set by apply length_replicate.
  destruct (adds_of p k) as [adds|] eqn:E; [|done]. cbn [mbind res_bind]. rewrite zip_union_empty; [done|].
  by eapply adds_length.
Qed.

Lemma merge_copies p ks sigs :
  fresh p -> length sigs = length (p_inputs p) ->
  (ps ← mapR (sign_as p) ks;
   Ok (foldl (fun merged q => set_signatures merged (merge_signatures (p_signatures merged) (p_signatures q)))
         (set_signatures p sigs) ps)) =
  foldR sign_as (set_signatures p sigs) ks.
Proof.
  intros Hf. revert sigs. induction ks as [|k ks IH]; intros sigs Hl; [done|]. cbn [mapR foldR].
  rewrite sign_as_set, sign_fresh by done.
  destruct (adds_of p k) as [adds|] eqn:E; [|done]. cbn [mbind res_bind]. apply adds_length in E.
  rewrite <-IH by (rewrite length_zip_with; lia).
  destruct (mapR (sign_as p) ks) as [ps|]; [|done]. cbn [mbind res_bind foldl]. do 2 f_equal.
  cbn [p_signatures set_signatures]. by rewrite merge_zip by lia.
Qed.

Lemma merge_sequential_aux p k ks :
  fresh p ->
  (ps ← mapR (sign_as p) (k :: ks); mergeMultisigProposals ps) = foldR sign_as p (k :: ks).
Proof.
  intros Hf. cbn [mapR foldR]. rewrite sign_fresh by done.
  destruct (adds_of p k) as [adds|] eqn:E; [|done]. cbn [mbind res_bind]. apply adds_length in E.
  rewrite <-merge_copies by done. by destruct (mapR (sign_as p) ks).
Qed.

(** *** What is in the maps after a round of signing *)

(** [s] is the signature of input [i] by one of the keys [ks], stored under its
    public key [h]. *)
Definition valid_entry (ks : list (list Z)) (p : proposal) (i : nat) (redeem : list Z) (h s : string) : Prop :=
  exists k sg, k ∈ ks /\ h = bytesToHex (secp_publicKey k) /\
    secp_sign (proposal_sighash p i redeem) k = Ok sg /\ s = sig_hex sg.

(** The maps hold valid entries only, and one for every signer whose key
    occurs in the script. *)
Definition signed_by (ks : list (list Z)) (p : proposal) (sigs : list (gmap string string)) : Prop :=
  length sigs = length (p_inputs p) /\
  forall i inp c, p_inputs p !! i = Some inp -> sigs !! i = Some c ->
    let redeem := hexToBytes (pi_redeemScript inp) in
    (forall h s, c !! h = Some s -> valid_entry ks p i redeem h s) /\
    (forall k, k ∈ ks -> scriptContainsPubkey redeem (secp_publicKey k) = true ->
       is_Some (c !! bytesToHex (secp_publicKey k))).

Lemma signed_by_fresh p : signed_by [] p (replicate (length (p_inputs p)) ∅).
Proof.
  split; [apply length_replicate|]. intros i inp c _ [-> _]%lookup_replicate. split.
  - intros h s. by rewrite lookup_empty.
  - intros k. by rewrite elem_of_nil.
Qed.

Lemma added_lookup p k adds i inp a :
  adds_of p k = Ok adds -> p_inputs p !! i = Some inp -> adds !! i = Some a ->
  let redeem := hexToBytes (pi_redeemScript inp) in
  (forall h s, a !! h = Some s -> valid_entry [k] p i redeem h s) /\
  (scriptContainsPubkey redeem (secp_publicKey k) = true -> is_Some (a !! bytesToHex (secp_publicKey k))).
Proof.
  intros Hadds%mapR_ok Hi Ha. simpl.
  eapply (Forall2_lookup_lr _ _ _ i i a) in Hadds; [|apply lookup_seq_lt; by eapply lookup_lt_Some|done].
  unfold added in Hadds. rewrite Hi in Hadds. cbn [defined mbind res_bind] in Hadds.
  destruct (scriptContainsPubkey _ _).
  - apply res_bind_ok in Hadds as (sg & Hsg & <-%Ok_inj). split.
    + intros h s [<- <-]%lookup_singleton_Some. exists k, sg. by rewrite list_elem_of_singleton.
    + intros _. rewrite lookup_singleton_eq. by eexists.
  - apply Ok_inj in Hadds as <-. split; [|done]. intros h s. by rewrite lookup_empty.
Qed.

Lemma valid_entry_mono ks ks' p i redeem h s :
  ks ⊆ ks' -> valid_entry ks p i redeem h s -> valid_entry ks' p i redeem h s.
Proof. intros Hsub (k & sg & Hk & ?). exists k, sg. split; [by apply Hsub|done]. Qed.

Lemma signed_by_step ks p sigs k adds :
  signed_by ks p sigs -> adds_of p k = Ok adds -> signed_by (ks ++ [k]) p (zip_with union adds sigs).
Proof.
  intros [Hl Hs] Hadds. pose proof (adds_length _ _ _ Hadds) as Hla.
  split; [rewrite length_zip_with; lia|]. intros i inp c Hi Hc. cbv zeta.
  rewrite lookup_zip_with in Hc. destruct (adds !! i) as [a|] eqn:Ea; [|done].
  destruct (sigs !! i) as [c0|] eqn:Ec; [|done]. injection Hc as <-.
  destruct (Hs i inp c0 Hi Ec) as [Hv Hin]. destruct (added_lookup _ _ _ _ _ _ Hadds Hi Ea) as [Hv' Hin'].
  split.
  - intros h s [Hh | [_ Hh]]%lookup_union_Some_raw; (eapply valid_entry_mono; [|eauto]);
      intros x Hx; apply elem_of_app; [by right|by left].
  - intros k' [Hk | ->%list_elem_of_singleton]%elem_of_app Hcont.
    + apply lookup_union_is_Some. right. by apply Hin.
    + apply lookup_union_is_Some. left. by apply Hin'.
Qed.

Lemma signed_by_rounds ks0 p ks sigs q :
  signed_by ks0 p sigs -> foldR sign_as (set_signatures p sigs) ks = Ok q ->
  exists sigs', q = set_signatures p sigs' /\ signed_by (ks0 ++ ks) p sigs'.
Proof.
  revert ks0 sigs. induction ks as [|k ks IH]; intros ks0 sigs Hs Hq.
  - apply Ok_inj in Hq as <-. exists sigs. by rewrite app_nil_r.
  - cbn [foldR] in Hq. rewrite sign_as_set in Hq by apply Hs.
    destruct (adds_of p k) as [adds|] eqn:E; [|done]. cbn [mbind res_bind] in Hq.
    eapply (IH (ks0 ++ [k])) in Hq; [|by apply signed_by_step]. by rewrite <-app_assoc in Hq.
Qed.

End SignSpec.

(** ** Finalising *)

Definition push_sig (sig : list Z) : list Z := u8arr [Z.of_nat (length sig)] ++ sig.

(** The scriptSig of an input: a dummy, the signatures, the redeem script. *)
Definition multisig_scriptSig (sigs : list (list Z)) (redeem : list Z) : list Z :=
  0 :: mjoin (push_sig <$> sigs) ++ varInt (Z.of_nat (length redeem)) ++ redeem.

Definition not_enough (i : nat) (have m : Z) : thrown :=
  JsError ("Input " +:+ toString (Z.of_nat i) +:+ " has " +:+ toString have +:+ " signature(s), needs " +:+ toString m).

Lemma slice_list_take {A} (l : list A) n : (n <= length l)%nat -> slice_list l 0 (Z.of_nat n) = take n l.
Proof.
  intros Hn. unfold slice_list, slice_pos. simpl. rewrite (proj2 (Z.ltb_ge _ 0)) by lia.
  rewrite !Z.min_l by lia. simpl. rewrite drop_0. f_equal. lia.
Qed.

Lemma finalize_script_spec i m keys c :
  wf_keys m keys ->
  finalize_script i (redeem_bytes m keys) (Some c) =
    let sigs := ordered_sigs c (bytesToHex <$> keys) in
    if Z.of_nat (length sigs) <? m then Throw (not_enough i (Z.of_nat (length sigs)) m)
    else Ok (multisig_scriptSig (hexToBytes <$> take (Z.to_nat m) sigs) (redeem_bytes m keys)).
Proof.
  intros Hwf. unfold finalize_script. rewrite parse_redeem by done.
  assert (required_sigs (redeem_bytes m keys) = Some m) as -> by (unfold redeem_bytes; simpl; f_equal; lia).
  replace (match bytesToHex <$> keys with [] => Ok [] | _ => Ok (ordered_sigs c (bytesToHex <$> keys)) end)
    with (Ok (ordered_sigs c (bytesToHex <$> keys)) : res (list string)) by (by destruct keys).
  cbn [mbind res_bind]. change (default 0 (Some m)) with m. cbv zeta. set (sigs := ordered_sigs c (bytesToHex <$> keys)).
  destruct (Z.ltb_spec (Z.of_nat (length sigs)) m) as [|Hge]; [done|]. cbn [throw_if mbind res_bind]. f_equal.
  destruct Hwf as (Hm & _ & _).
  replace (slice_list sigs 0 m) with (take (Z.to_nat m) sigs) by (rewrite <-slice_list_take by lia; f_equal; lia).
  rewrite concatBytes_concat. unfold multisig_scriptSig.
  rewrite !join_app, !mjoin_cons. cbn [mjoin list_join]. rewrite !app_nil_r. change (u8arr [0]) with [0]. cbn [app].
  do 2 f_equal. generalize (hexToBytes <$> take (Z.to_nat m) sigs). clear. intros l.
  induction l as [|x l IH]; [done|]. rewrite !fmap_cons, !mjoin_cons, join_app, IH. unfold push_sig at 2.
  by rewrite !mjoin_cons, app_nil_r.
Qed.

Definition script_for (p : proposal) (i : nat) : res (list Z) :=
  inp ← defined "input" (p_inputs p !! i);
  finalize_script i (hexToBytes (pi_redeemScript inp)) (p_signatures p !! i).

Lemma finalize_eq p :
  finalizeMultisigTransaction p =
    (scripts ← mapR (script_for p) (seq 0 (length (p_inputs p)));
     Ok (serializeTx (p_version p) (zip_with set_scriptSig scripts (proposal_txin <$> p_inputs p))
           (proposal_txout <$> p_outputs p) (p_locktime p))).
Proof.
  unfold finalizeMultisigTransaction. cbn [proposalToTxInputsOutputs].
  rewrite (foldR_ext_inv _ (fun st i => s ← script_for p i; Ok (alter (set_scriptSig s) i st)) (fun _ => True)).
  - rewrite (foldR_alter (fun _ i => script_for p i)) by done.
    destruct (mapR _ _) as [scripts|] eqn:E; [|done]. cbn [mbind res_bind]. do 2 f_equal.
    apply mapR_ok, Forall2_length in E. rewrite length_seq in E.
    rewrite <-(length_fmap proposal_txin (p_inputs p)) in *. by apply (foldl_alter_zip set_scriptSig []).
  - intros st i _ _. unfold finalize_input, script_for. by destruct (defined _ _).
  - done.
  - done.
Qed.

(** The number of signatures found is the number of keys with an entry. *)
Lemma ordered_sigs_all c hs :
  (forall h s, c !! h = Some s -> s <> "") -> ordered_sigs c hs = omap (fun h => c !! h) hs.
Proof.
  intros Hne. unfold ordered_sigs. induction hs as [|h hs IH]; [done|]. cbn [omap list_omap].
  destruct (c !! h) as [s|] eqn:E; [|done]. rewrite filter_cons_True by (by eapply Hne). by rewrite IH.
Qed.

(** [createMultisigRedeemScript] accepts exactly 1 <= m <= n <= 16 with
    33-byte keys; the script is then 3 + 34n bytes long, its first opcode gives
    m back, and the walk [finalizeMultisigTransaction] uses recovers the n keys
    in their order. *)
Theorem redeem_script_roundtrip m keys :
  (is_ok (createMultisigRedeemScript m keys) = true <-> wf_keys m keys) /\
  forall s, createMultisigRedeemScript m keys = Ok s ->
    length s = (3 + 34 * length keys)%nat /\ required_sigs s = Some m /\ parsePubkeysInOrder s = bytesToHex <$> keys.
Proof.
  split.
  - split; [|intros Hwf; by rewrite redeem_ok].
    destruct (createMultisigRedeemScript m keys) as [s|] eqn:E; [|done]. intros _. by apply redeem_inv in E as [? _].
  - intros s [Hwf ->]%redeem_inv. split; [by apply length_redeem|]. split; [|by apply parse_redeem].
    unfold redeem_bytes. simpl. f_equal. lia.
Qed.

(** C27: merging copies of a fresh proposal that the cosigners signed on their own
    gives the same proposal as passing one copy around and signing in turn, and
    fails with the same error when one of them cannot sign. *)
Theorem merge_equals_sequential `{Crypto} p k ks (Hfresh : fresh p) :
  (ps ← mapR (sign_as p) (k :: ks); mergeMultisigProposals ps) = foldR sign_as p (k :: ks).
Proof. by apply merge_sequential_aux. Qed.

(** ** Witnesses *)

Definition ms_keys : list (list Z) := [@secp_publicKey toy_crypto [4]; @secp_publicKey toy_crypto [6]].
Definition ms_inputs : list multisig_input :=
  [{| mi_txid := replicate 32 5; mi_vout := 2; mi_valueSatoshis := 900; mi_redeemScript := redeem_bytes 2 ms_keys |}].
Definition ms_outputs : list tx_output := [{| scriptPubKey := p2pkhScriptPubKey (replicate 20 9); valueSatoshis := 700 |}].
Definition ms_proposal : proposal := createMultisigProposal ms_inputs ms_outputs 0.

Lemma merge_equals_sequential_witness :
  (ps ← mapR (@sign_as toy_crypto ms_proposal) [[4]; [6]]; mergeMultisigProposals ps) =
    foldR (@sign_as toy_crypto) ms_proposal [[4]; [6]].
Proof. apply (@merge_equals_sequential toy_crypto ms_proposal [4] [[6]]). reflexivity. Defined.
