(* ===== verification/MultisigNode.v ===== *)
(** * Multisignature spends, checked by the node

    What the script verifier of [Verify] makes of the transactions
    [finalizeMultisigTransaction] assembles, and what it takes to spend an
    output of a multisignature script. *)

From S2P Require Import Prelude Digits JsString Bytes Crypto JsInt Base58 Bech32 Address Tx NodeTx ScriptError NodeScript ScriptNum Interpreter InterpFacts Verify VerifyFacts InterpSafe Spend Multisig.

Open Scope Z_scope.
Open Scope list_scope.

(** ** Greedy matching finds an order-preserving assignment *)

Inductive matches (check : list Z -> list Z -> bool) : list (list Z) -> list (list Z) -> Prop :=
  | matches_nil keys : matches check [] keys
  | matches_take s k sigs keys : check s k = true -> matches check sigs keys -> matches check (s :: sigs) (k :: keys)
  | matches_skip k sigs keys : matches check sigs keys -> matches check sigs (k :: keys).

Lemma matches_length check sigs keys : matches check sigs keys -> (length sigs <= length keys)%nat.
Proof. induction 1; simpl; lia. Qed.

Lemma matches_tail check s sigs keys : matches check (s :: sigs) keys -> matches check sigs keys.
Proof.
  intros Hm. remember (s :: sigs) as l eqn:E. revert s sigs E. induction Hm; intros s0 sigs0 E; simplify_eq.
  - by apply matches_skip.
  - apply matches_skip. by eapply IHHm.
Qed.

Section Loop.
Context (checker : BaseSignatureChecker) (flags : Z) (code : list Z) (check : list Z -> list Z -> bool).
Context (Hcheck : forall s k, checkECDSA checker s k code BASE = Ret (check s k)).

Lemma multisig_loop_complete keys sigs :
  Forall (fun s => CheckSignatureEncoding s flags = Ret tt) sigs ->
  Forall (fun k => CheckPubKeyEncoding k flags BASE = Ret tt) keys ->
  matches check sigs keys -> multisig_loop checker flags BASE code keys sigs = Ret true.
Proof.
  intros Hs Hk. revert sigs Hs. induction Hk as [|k keys Hkk Hk IH]; intros sigs Hs Hm.
  - inversion Hm; subst. done.
  - destruct sigs as [|s sigs]; [done|]. cbn [multisig_loop].
    pose proof (Forall_cons_1 _ _ _ Hs) as [Hs1 Hs2]. rewrite Hs1, Hkk, Hcheck. cbn [mbind script_res_bind].
    assert (matches check (if check s k then sigs else s :: sigs) keys) as Hm'.
    { inversion Hm as [|? ? ? ? Hck Hm2|? ? ? Hm2]; subst; [by rewrite Hck|].
      destruct (check s k); [by eapply matches_tail|done]. }
    rewrite (proj2 (Nat.ltb_ge _ _)) by (by eapply matches_length).
    apply IH; [by destruct (check s k)|done].
Qed.

(** The loop succeeds only when the signatures match keys in order. *)
Lemma multisig_loop_sound keys sigs :
  multisig_loop checker flags BASE code keys sigs = Ret true -> matches check sigs keys.
Proof.
  revert sigs. induction keys as [|k keys IH]; intros [|s sigs] Hl; try done; [apply matches_nil..|].
  cbn [multisig_loop] in Hl. apply script_bind_ret in Hl as (? & _ & Hl). apply script_bind_ret in Hl as (? & _ & Hl).
  rewrite Hcheck in Hl. cbn [mbind script_res_bind] in Hl. destruct (_ <? _)%nat; [done|]. apply IH in Hl.
  destruct (check s k) eqn:E; [by apply matches_take|by apply matches_skip].
Qed.

End Loop.

Lemma matches_omap check (f : list Z -> option (list Z)) keys :
  (forall k s, k ∈ keys -> f k = Some s -> check s k = true) -> matches check (omap f keys) keys.
Proof.
  induction keys as [|k keys IH]; intros Hf; [apply matches_nil|]. cbn [omap list_omap].
  assert (matches check (omap f keys) keys) as Hm by (apply IH; intros k' s Hk'; apply Hf; by right).
  destruct (f k) as [s|] eqn:E; [|by apply matches_skip]. apply matches_take; [|done]. apply Hf; [by left|done].
Qed.

Lemma matches_drop check n sigs keys : matches check sigs keys -> matches check (drop n sigs) keys.
Proof.
  revert sigs. induction n as [|n IH]; intros [|s sigs] Hm; try done. simpl. apply IH. by eapply matches_tail.
Qed.

Lemma omap_reverse {A B} (f : A -> option B) l : omap f (reverse l) = reverse (omap f l).
Proof.
  induction l as [|x l IH]; [done|]. rewrite reverse_cons, omap_app, IH. cbn [omap list_omap].
  destruct (f x); [by rewrite reverse_cons|by rewrite app_nil_r].
Qed.

Lemma reverse_take {A} n (l : list A) : (n <= length l)%nat -> reverse (take n l) = drop (length l - n) (reverse l).
Proof.
  intros Hn. rewrite <-(take_drop n l) at 3. rewrite reverse_app, drop_app_length'; [done|].
  rewrite length_reverse, length_drop. done.
Qed.

(** The first [n] signatures, in the order of their keys, match from the top of
    the stack too. *)
Lemma matches_take_reverse check (f : list Z -> option (list Z)) keys n :
  (forall k s, k ∈ keys -> f k = Some s -> check s k = true) -> (n <= length (omap f keys))%nat ->
  matches check (reverse (take n (omap f keys))) (reverse keys).
Proof.
  intros Hf Hn. rewrite reverse_take by done. apply matches_drop. rewrite <-omap_reverse. apply matches_omap.
  intros k s Hk. apply Hf. by rewrite elem_of_reverse in Hk.
Qed.

(** ** The inputs of a multisignature spend *)

Definition compressed_key (k : list Z) : Prop := bytes_ok k /\ (byte_at k 0 = 2 \/ byte_at k 0 = 3).

(** An unspent output of an m-of-n script over compressed keys. *)
Definition wf_multisig_input (mi : multisig_input) (mk : Z * list (list Z)) : Prop :=
  length (mi_txid mi) = 32%nat /\ bytes_ok (mi_txid mi) /\ 0 <= mi_vout mi < 2 ^ 32 /\
  wf_keys mk.1 mk.2 /\ Forall compressed_key mk.2 /\ mi_redeemScript mi = redeem_bytes mk.1 mk.2.

Definition wf_multisig_output (o : tx_output) : Prop := wf_output o /\ bytes_ok (scriptPubKey o).

Definition multisig_txin (mi : multisig_input) : tx_input := {|
  prevTxid := mi_txid mi; prevVout := mi_vout mi; scriptSig := []; sequence := None
|}.

Lemma compressed_key_encoding m keys flags v :
  wf_keys m keys -> Forall compressed_key keys ->
  Forall (fun k => CheckPubKeyEncoding k flags v = Ret tt) keys.
Proof.
  intros (_ & _ & Hl) Hc. apply Forall_lookup. intros i k Hi.
  eapply Forall_lookup_1 in Hl; [|done]. eapply Forall_lookup_1 in Hc as [_ Hc]; [|done]. cbv beta in Hl.
  unfold CheckPubKeyEncoding, IsCompressedOrUncompressedPubKey, IsCompressedPubKey. rewrite Hl.
  destruct Hc as [-> | ->]; cbn; by rewrite !andb_false_r.
Qed.

Lemma wf_keys_bytes m keys : wf_keys m keys -> Forall compressed_key keys -> bytes_ok (redeem_bytes m keys).
Proof. intros Hw Hc. apply redeem_bytes_ok; [done|]. eapply Forall_impl; [done|]. by intros k [? _]. Qed.

Lemma plain_redeem m keys : wf_keys m keys -> plain_script (redeem_bytes m keys).
Proof.
  intros (Hm & Hn & Hk). unfold redeem_bytes.
  apply plain_opcode; [unfold OP_PUSHDATA4; lia|unfold OP_CODESEPARATOR; lia|].
  assert (plain_script [80 + Z.of_nat (length keys); OP_CHECKMULTISIG]) as Hend.
  { apply plain_opcode; [unfold OP_PUSHDATA4; lia|unfold OP_CODESEPARATOR; lia|].
    apply plain_opcode; [done|done|apply plain_nil]. }
  revert Hend. generalize [80 + Z.of_nat (length keys); OP_CHECKMULTISIG]. intros tail Htail. clear Hm Hn.
  induction Hk as [|k keys Hl _ IH]; [done|]. rewrite fmap_cons, mjoin_cons, <-app_assoc.
  change (push_key k) with (33 :: k). cbn [app]. change 33 with (Z.of_nat 33). rewrite <-Hl.
  apply plain_push; [lia|done].
Qed.

Section MultisigSpend.
Context `{CryptoLaws} {CU : Curve} {CL : CurveLaws}.
Context (inputs : list multisig_input) (mks : list (Z * list (list Z))) (outputs : list tx_output) (lt : Z).
Context (Hin : Forall2 wf_multisig_input inputs mks) (Hout : Forall wf_multisig_output outputs).

Abbreviation p0 := (createMultisigProposal inputs outputs lt).

Lemma proposal_inputs : proposal_txin <$> p_inputs p0 = multisig_txin <$> inputs.
Proof.
  cbn [p_inputs createMultisigProposal]. rewrite <-list_fmap_compose. apply list_fmap_ext. intros i mi Hi.
  eapply Forall2_lookup_l in Hin as (mk & _ & (_ & Hok & _)); [|done]. unfold compose, proposal_txin, multisig_txin. cbn.
  by rewrite hexToBytes_bytesToHex.
Qed.

Lemma proposal_outputs : proposal_txout <$> p_outputs p0 = outputs.
Proof.
  cbn [p_outputs createMultisigProposal]. rewrite <-list_fmap_compose. rewrite <-(list_fmap_id outputs) at 2.
  apply list_fmap_ext. intros i o Hi. eapply Forall_lookup_1 in Hout as [_ Hok]; [|done].
  unfold compose, proposal_txout. cbn. rewrite hexToBytes_bytesToHex by done. by destruct o.
Qed.

Lemma p0_fresh : fresh p0.
Proof. unfold fresh. cbn. rewrite length_fmap. clear. induction inputs as [|i l IH]; [done|]. cbn. by rewrite IH. Qed.

Lemma p0_redeem i m keys :
  mks !! i = Some (m, keys) -> wf_keys m keys /\ Forall compressed_key keys /\
  exists inp, p_inputs p0 !! i = Some inp /\ hexToBytes (pi_redeemScript inp) = redeem_bytes m keys.
Proof.
  intros Hi. eapply Forall2_lookup_r in Hin as (mi & Hmi & (_ & _ & _ & Hk & Hc & Hr)); [|done]. cbn [fst snd] in *.
  split; [done|]. split; [done|]. eexists. cbn. rewrite list_lookup_fmap, Hmi. split; [done|]. cbn. rewrite Hr.
  by rewrite hexToBytes_bytesToHex by (by apply wf_keys_bytes).
Qed.

(** The signature stored for a public key, as bytes. *)
Definition stored (c : gmap string string) (key : list Z) : option (list Z) := hexToBytes <$> c !! bytesToHex key.

Lemma omap_stored c (keys : list (list Z)) : hexToBytes <$> omap (fun h => c !! h) (bytesToHex <$> keys) = omap (stored c) keys.
Proof.
  induction keys as [|k keys IH]; [done|]. rewrite fmap_cons. cbn [omap list_omap]. unfold stored at 1.
  destruct (c !! bytesToHex k); [|done]. rewrite fmap_cons. cbn [fmap option_fmap option_map]. by rewrite <-IH.
Qed.

Lemma sig_hex_bytes sg : sig_in_range sg -> hexToBytes (sig_hex sg) = derEncodeSignature sg ++ [1].
Proof.
  intros Hsg. unfold sig_hex. rewrite hexToBytes_bytesToHex; [done|]. apply bytes_ok_app_2; [by apply der_bytes|].
  apply bytes_ok_cons; [lia|apply bytes_ok_nil].
Qed.

(** What [finalizeMultisigTransaction] does with input [i] of a signed proposal:
    the signatures stored are those of the cosigners among the signers. *)
Lemma script_for_signed q ks i m keys :
  foldR sign_as p0 ks = Ok q -> mks !! i = Some (m, keys) ->
  exists c,
    (forall key s, key ∈ keys -> stored c key = Some s -> exists k sg, key = secp_publicKey k /\
       secp_sign (proposal_sighash p0 i (redeem_bytes m keys)) k = Ok sg /\ s = derEncodeSignature sg ++ [1]) /\
    (forall key, key ∈ keys -> is_Some (stored c key) <-> key ∈ secp_publicKey <$> ks) /\
    let have := omap (stored c) keys in
    script_for q i =
      if Z.of_nat (length have) <? m then Throw (not_enough i (Z.of_nat (length have)) m)
      else Ok (multisig_scriptSig (take (Z.to_nat m) have) (redeem_bytes m keys)).
Proof.
  intros Hq Hi. destruct (p0_redeem i m keys Hi) as (Hk & Hc & inp & Hinp & Hr).
  replace p0 with (set_signatures p0 (replicate (length (p_inputs p0)) ∅)) in Hq
    by (rewrite <-(p0_fresh); by destruct p0).
  apply (signed_by_rounds []) in Hq as (sigs & -> & Hsl & Hsig); [|apply signed_by_fresh].
  destruct (lookup_lt_is_Some_2 sigs i) as [c Hci]; [rewrite Hsl; by eapply lookup_lt_Some|].
  destruct (Hsig i inp c Hinp Hci) as [Hv Hpres]. rewrite Hr in Hv, Hpres. exists c.
  assert (forall h s, c !! h = Some s -> exists k sg, k ∈ ks /\ h = bytesToHex (secp_publicKey k) /\
    secp_sign (proposal_sighash p0 i (redeem_bytes m keys)) k = Ok sg /\ hexToBytes s = derEncodeSignature sg ++ [1] /\ s <> "") as Hv'.
  { intros h s Hh. destruct (Hv h s Hh) as (k & sg & Hin' & -> & Hsg & ->). exists k, sg.
    pose proof (sig_hex_bytes sg (sign_in_range _ _ _ Hsg)) as Hb. do 4 (split; [done|]). intros He.
    rewrite He in Hb. by destruct (derEncodeSignature sg). }
  assert (forall key k, key ∈ keys -> bytesToHex key = bytesToHex (secp_publicKey k) -> key = secp_publicKey k) as Hinj.
  { intros key k Hkey Hhex. apply bytesToHex_inj in Hhex; [done| |apply publicKey_bytes].
    eapply Forall_forall in Hc as [? _]; [|done]. done. }
  split; [|split].
  - intros key s Hkey Hst. unfold stored in Hst. destruct (c !! bytesToHex key) as [s0|] eqn:E; [|done].
    injection Hst as <-. destruct (Hv' _ _ E) as (k & sg & _ & Hhex & Hsg & Hb & _). exists k, sg. by split; [apply Hinj|].
  - intros key Hkey. unfold stored. rewrite fmap_is_Some, list_elem_of_fmap. split.
    + intros [s0 E]. destruct (Hv' _ _ E) as (k & sg & Hk' & Hhex & _). exists k. by split; [apply Hinj|].
    + intros (k & -> & Hk'). apply Hpres; [done|]. apply contains_key; [done| |done].
      eapply Forall_impl; [done|]. by intros ? [? _].
  - cbv zeta. unfold script_for. cbn [p_inputs p_signatures set_signatures]. rewrite Hinp, Hci.
    cbn [defined mbind res_bind]. rewrite Hr, finalize_script_spec by done. cbv zeta.
    rewrite ordered_sigs_all by (intros h s Hh; destruct (Hv' h s Hh) as (? & ? & _ & _ & _ & _ & ?); done).
    by rewrite fmap_take, <-(length_fmap hexToBytes (omap _ _)), !omap_stored.
Qed.

Lemma finalized_script q ks i m keys script :
  foldR sign_as p0 ks = Ok q -> mks !! i = Some (m, keys) -> script_for q i = Ok script ->
  exists c,
    (forall key s, key ∈ keys -> stored c key = Some s -> exists k sg, key = secp_publicKey k /\
       secp_sign (proposal_sighash p0 i (redeem_bytes m keys)) k = Ok sg /\ s = derEncodeSignature sg ++ [1]) /\
    m <= Z.of_nat (length (omap (stored c) keys)) /\
    script = multisig_scriptSig (take (Z.to_nat m) (omap (stored c) keys)) (redeem_bytes m keys).
Proof.
  intros Hq Hi Hs. destruct (script_for_signed q ks i m keys Hq Hi) as (c & Hv & _ & He). exists c. split; [done|].
  rewrite He in Hs. destruct (Z.ltb_spec (Z.of_nat (length (omap (stored c) keys))) m); [done|].
  by apply Ok_inj in Hs as <-.
Qed.

(** The number of keys of the script that have signed. *)
Definition signer_count (ks keys : list (list Z)) : Z :=
  Z.of_nat (length (filter (fun key => key ∈ secp_publicKey <$> ks) keys)).

Lemma stored_count c ks keys :
  (forall key, key ∈ keys -> is_Some (stored c key) <-> key ∈ secp_publicKey <$> ks) ->
  Z.of_nat (length (omap (stored c) keys)) = signer_count ks keys.
Proof.
  unfold signer_count. intros Hc. f_equal. induction keys as [|key keys IH]; [done|].
  assert (length (omap (stored c) keys) = length (filter (fun key => key ∈ secp_publicKey <$> ks) keys)) as IH'.
  { apply IH. intros key' Hkey. apply Hc. by right. }
  pose proof (Hc key ltac:(by left)) as Hk. cbn [omap list_omap]. rewrite filter_cons.
  destruct (stored c key) as [s|]; case_decide as Hd.
  - cbn [length]. by rewrite <-IH'.
  - exfalso. apply Hd, Hk. by eexists.
  - apply Hk in Hd as [? ?]. done.
  - done.
Qed.

Lemma signed_same q ks :
  foldR sign_as p0 ks = Ok q ->
  p_version q = 2 /\ p_inputs q = p_inputs p0 /\ p_outputs q = p_outputs p0 /\ p_locktime q = lt.
Proof.
  intros Hq. replace p0 with (set_signatures p0 (replicate (length (p_inputs p0)) ∅)) in Hq
    by (rewrite <-(p0_fresh); by destruct p0).
  apply (signed_by_rounds []) in Hq as (sigs & -> & _); [|apply signed_by_fresh]. done.
Qed.

Lemma stored_sigs c m keys :
  (forall key s, key ∈ keys -> stored c key = Some s -> exists k sg, key = secp_publicKey k /\
     secp_sign m k = Ok sg /\ s = derEncodeSignature sg ++ [1]) ->
  Forall (fun s => exists sg, sig_in_range sg /\ s = derEncodeSignature sg ++ [1]) (omap (stored c) keys).
Proof.
  intros Hc. apply Forall_forall. intros s (key & Hkey & Hs)%list_elem_of_omap.
  destruct (Hc key s Hkey Hs) as (k & sg & _ & Hsg%sign_in_range & ->). by exists sg.
Qed.

Lemma multisig_scriptSig_length sigs redeem :
  Forall (fun s => exists sg, sig_in_range sg /\ s = derEncodeSignature sg ++ [1]) sigs ->
  (length (multisig_scriptSig sigs redeem) <= 10 + 73 * length sigs + length redeem)%nat.
Proof.
  intros Hs. unfold multisig_scriptSig. cbn [length]. rewrite !length_app, length_varInt.
  assert (length (mjoin (push_sig <$> sigs)) <= 73 * length sigs)%nat.
  { apply length_mjoin_le. eapply Forall_impl; [done|]. intros s (sg & Hsg%own_sig_length & ->).
    unfold push_sig. rewrite length_app. unfold u8arr. rewrite length_fmap. cbn [length]. lia. }
  repeat case_match; lia.
Qed.

Lemma multisig_wf q ks scripts :
  foldR sign_as p0 ks = Ok q -> mapR (script_for q) (seq 0 (length (p_inputs p0))) = Ok scripts ->
  inputs <> [] -> Z.of_nat (length inputs) <= MAX_SIZE -> Z.of_nat (length outputs) <= MAX_SIZE -> 0 <= lt < 2 ^ 32 ->
  wf_wallet_tx (zip_with set_scriptSig scripts (multisig_txin <$> inputs)) outputs lt.
Proof.
  intros Hq Hs%mapR_ok Hne Hli Hlo Hlt. pose proof (Forall2_length _ _ _ Hs) as Hl.
  rewrite length_seq in Hl. cbn [p_inputs createMultisigProposal] in Hl. rewrite length_fmap in Hl.
  split; [|split; [|split; [|split; [done|split; [|done]]]]].
  - by destruct inputs, scripts.
  - rewrite length_zip_with, length_fmap. lia.
  - apply Forall_lookup. intros i inp. rewrite lookup_zip_with, list_lookup_fmap.
    destruct (scripts !! i) as [s|] eqn:Es; [|done]. destruct (inputs !! i) as [mi|] eqn:Ei; [|done].
    intros Hz. injection Hz as <-.
    destruct (Forall2_lookup_l _ _ _ _ _ Hin Ei) as ([m keys] & Hmk & (? & ? & ? & Hk & _)).
    eapply (Forall2_lookup_r _ _ _ i s) in Hs as (j & Hj & Hs); [|done]. apply lookup_seq in Hj as [-> _].
    destruct (finalized_script q ks _ m keys s Hq Hmk Hs) as (c & Hc & Hm & ->).
    split; [done|]. split; [done|]. split; [|done]. cbn [scriptSig set_scriptSig]. unfold small_blob, MAX_SIZE.
    pose proof (multisig_scriptSig_length (take (Z.to_nat m) (omap (stored c) keys)) (redeem_bytes m keys)
      (Forall_take _ _ _ (stored_sigs _ _ _ Hc))) as Hlen. cbn [fst snd] in *.
    rewrite length_take, length_redeem in Hlen by done. destruct Hk as (? & ? & _). lia.
  - eapply Forall_impl; [done|]. by intros o [? _].
Qed.

End MultisigSpend.

(** ** Scripts and their spends *)

Lemma redeem_mscript m keys : wf_keys m keys -> redeem_bytes m keys = mscript m keys.
Proof.
  intros (Hm & _ & Hk). unfold redeem_bytes, mscript, int_op. rewrite (proj2 (Z.eqb_neq _ _)) by lia. do 2 f_equal.
  unfold pushes. clear Hm. induction Hk as [|k keys Hk _ IH]; [done|]. rewrite !fmap_cons, !mjoin_cons, IH. f_equal.
  rewrite push_data_short by lia. unfold push_key. by rewrite Hk.
Qed.

Lemma p2shScriptPubKey_script h : bytes_ok h -> p2shScriptPubKey h = p2sh_script h.
Proof.
  intros H. unfold p2shScriptPubKey. apply u8arr_id.
  repeat (apply bytes_ok_app_2 || apply bytes_ok_cons || apply bytes_ok_nil); done || lia.
Qed.

Lemma mscript_not_program m keys : 0 <= m <= 16 -> (0 < length keys)%nat -> Forall (fun k => length k = 33%nat) keys ->
  IsWitnessProgram (mscript m keys) = None.
Proof.
  intros Hm Hn Hk. unfold IsWitnessProgram. rewrite mscript_length by done.
  destruct ((3 + 34 * length keys <? 4)%nat || (42 <? 3 + 34 * length keys)%nat) eqn:E; [done|].
  apply orb_false_iff in E as [_ E%Nat.ltb_ge]. assert (length keys = 1%nat) as H1 by lia.
  destruct keys as [|k [|]]; [done| |done]. apply Forall_cons_1 in Hk as [Hk _].
  destruct (negb _ && _); [done|]. unfold mscript. rewrite pushes_cons, push_data_short, Hk by lia. done.
Qed.

(** A signature that starts like one does not occur in a script of such keys. *)
Lemma absent_mscript sg m keys :
  sig_in_range sg -> 0 <= m <= 16 -> (1 <= length keys)%nat -> Forall (fun k => length k = 33%nat) keys -> Forall compressed_key keys ->
  absent (push_data (derEncodeSignature sg ++ [1])) (mscript m keys).
Proof.
  intros Hsg Hm Hn Hk Hc. pose proof (own_sig_length sg Hsg). rewrite push_data_short by lia.
  pose proof (own_sig_valid sg Hsg) as Hv. set (sig := derEncodeSignature sg ++ [1]) in *. clearbody sig.
  assert (absent (Z.of_nat (length sig) :: sig) (pushes keys ++ [0x50 + Z.of_nat (length keys); OP_CHECKMULTISIG])) as Ha.
  { assert (absent (Z.of_nat (length sig) :: sig) [0x50 + Z.of_nat (length keys); OP_CHECKMULTISIG]) as Hend.
    { do 2 (apply absent_opcode; [unfold OP_PUSHDATA4, OP_CHECKMULTISIG; lia|unfold OP_CHECKMULTISIG; lia|]). apply absent_nil. }
    revert Hend. generalize [0x50 + Z.of_nat (length keys); OP_CHECKMULTISIG]. intros tail Htail. clear Hn.
    induction keys as [|k keys IH]; [done|]. apply Forall_cons_1 in Hk as [Hk1 Hk], Hc as [[_ Hc1] Hc].
    rewrite pushes_cons, <-app_assoc, push_data_short by lia. cbn [app]. apply absent_push; [lia| |by apply IH].
    intros ->. unfold IsValidSignatureEncoding in Hv. destruct (_ <? 9); [done|]. destruct (73 <? _); [done|].
    by destruct Hc1 as [E | E]; rewrite E in Hv. }
  unfold mscript, int_op. destruct (Z.eqb_spec m 0).
  - change 0 with (Z.of_nat (length (@nil Z))). apply (absent_push sig [] _); [simpl; lia|by intros ->|done].
  - apply absent_opcode; [unfold OP_PUSHDATA4; lia|lia|done].
Qed.

Lemma drop_signatures_absent flags code sigs :
  Forall (fun s => s <> [] /\ (length s < 76)%nat /\ absent (push_data s) code) sigs -> drop_signatures flags BASE code sigs = Ret code.
Proof.
  induction 1 as [|s sigs (Hne & Hl & Ha) _ IH]; [done|]. cbn [drop_signatures]. unfold drop_signature. cbn [is_BASE].
  rewrite absent_find by (done || by rewrite push_data_short). done.
Qed.

(** [OP_CHECKMULTISIG] over matching signatures, above the empty dummy. *)
Lemma multisig_spend_ok checker flags m keys code sigs :
  Z.of_nat (length sigs) = m -> drop_signatures flags BASE code (reverse sigs) = Ret code ->
  multisig_loop checker flags BASE code (reverse keys) (reverse sigs) = Ret true ->
  multisig_spend checker flags m keys code (reverse ([] :: sigs)) = Ret [vchTrue].
Proof.
  intros Hm Hd Hl. unfold multisig_spend. rewrite reverse_cons, length_app, length_reverse. cbn [length].
  rewrite (proj2 (Nat.leb_gt _ _)) by lia. assert (Z.to_nat m = length (reverse sigs)) as -> by (rewrite length_reverse; lia).
  rewrite take_app_length, Hd. cbn [mbind script_res_bind]. rewrite Hl. cbn [mbind script_res_bind].
  rewrite cleanup_ok by (cbn [length]; rewrite !length_app; cbn [length]; rewrite !length_app, !length_reverse; simpl; lia).
  cbn [mbind script_res_bind]. rewrite drop_args, drop_app_length. cbn. by rewrite andb_false_r.
Qed.

Lemma mscript_pushable m keys : (0 < length keys <= 15)%nat -> Forall (fun k => length k = 33%nat) keys -> pushable (mscript m keys).
Proof. intros Hn Hk. right. rewrite mscript_length by (done || lia). lia. Qed.

(** Enough to spend an output of a script of up to 15 keys: the signatures, in
    the order of their keys, and the script, pushed as the node's own scripts
    are built. *)
Lemma mscript_accepts `{CryptoLaws} {CU : Curve} checker flags m keys sigs :
  flags_ok flags -> 0 <= m <= Z.of_nat (length keys) -> (0 < length keys <= 15)%nat ->
  Forall (fun k => length k = 33%nat) keys -> Z.of_nat (length sigs) = m -> Forall pushable sigs ->
  drop_signatures flags BASE (mscript m keys) (reverse sigs) = Ret (mscript m keys) ->
  multisig_loop checker flags BASE (mscript m keys) (reverse keys) (reverse sigs) = Ret true ->
  VerifyScript checker flags (pushes (([] :: sigs) ++ [mscript m keys])) (p2sh_script (hash160 (mscript m keys))) [] = Ret tt.
Proof.
  intros Hf Hm Hn Hk Hs Hp Hd Hl. apply p2sh_accepts; [done|apply hash160_length| |simpl; lia| |].
  - apply Forall_app. split; [constructor; [by left|done]|]. constructor; [by apply mscript_pushable|constructor].
  - apply mscript_not_program; [lia|lia|done].
  - rewrite mscript_eval; [|lia|lia|lia|done|rewrite length_reverse; simpl; lia].
    by rewrite multisig_spend_ok.
Qed.

(** ** What finalising produces *)

(** The checker of input [i] of [tx]. *)
Definition input_checker (tx : CTransaction) (i : nat) (value : Z) (mdb : MissingDataBehavior)
    (cache : option PrecomputedTransactionData) : tx_checker :=
  {| txTo := tx; m_mdb := mdb; nIn := i; amount := value; txdata := cache |}.

(** The node reads [raw] back as a transaction that pays [outputs], and whose
    inputs carry, for the m-of-n scripts [mks], m signatures in key order.  What
    becomes of an input depends on the number of keys.  With one or two, the
    verifier accepts it as it is.  With three or more, it refuses it, since the
    script is not pushed as the node reads pushes; the signatures are not at
    fault, for up to fifteen keys it would accept them with the script pushed
    that way. *)
Definition multisig_verdict `{Crypto} {CU : Curve} (mks : list (Z * list (list Z))) (outputs : list tx_output) (raw : list Z) : Prop :=
  exists tx, UnserializeTransaction true raw = inr (tx, []) /\ vout tx = node_txout <$> outputs /\
    forall i m keys, mks !! i = Some (m, keys) -> exists txin sigs,
      vin tx !! i = Some txin /\ in_scriptSig txin = multisig_scriptSig sigs (redeem_bytes m keys) /\
      Z.of_nat (length sigs) = m /\
      forall value mdb cache flags, flags_ok flags ->
        let checker := TransactionSignatureChecker (input_checker tx i value mdb cache) in
        let output := p2shScriptPubKey (hash160 (redeem_bytes m keys)) in
        ((length keys <= 2)%nat -> VerifyScript checker flags (in_scriptSig txin) output (scriptWitness txin) = Ret tt) /\
        ((3 <= length keys)%nat -> flag flags SCRIPT_VERIFY_P2SH = true ->
         VerifyScript checker flags (in_scriptSig txin) output (scriptWitness txin) <> Ret tt) /\
        ((length keys <= 15)%nat ->
         VerifyScript checker flags (pushes (([] :: sigs) ++ [redeem_bytes m keys])) output (scriptWitness txin) = Ret tt).

Definition ecdsa_valid `{Crypto} {CU : Curve} (c : tx_checker) (code sig key : list Z) : bool :=
  match CheckECDSASignature c sig key code BASE with Ret b => b | _ => false end.

Lemma ecdsa_valid_ret `{Crypto} {CU : Curve} c code sig key :
  (nIn c < length (vin (txTo c)))%nat -> CheckECDSASignature c sig key code BASE = Ret (ecdsa_valid c code sig key).
Proof.
  intros Hin. unfold ecdsa_valid, CheckECDSASignature. destruct (CPubKey_Set key); [|done]. destruct sig; [done|].
  by rewrite (proj2 (Nat.ltb_lt _ _)).
Qed.

Definition short_sig (s : list Z) : Prop := (length s < 76)%nat.

Lemma push_sig_data s : short_sig s -> push_sig s = push_data s.
Proof.
  unfold short_sig. intros Hs. rewrite push_data_short by done. unfold push_sig, u8arr. by rewrite fmap_cons, Z.mod_small by lia.
Qed.

Lemma multisig_scriptSig_pushes sigs redeem :
  Forall short_sig sigs -> (length redeem < 76)%nat -> multisig_scriptSig sigs redeem = pushes (([] :: sigs) ++ [redeem]).
Proof.
  intros Hs Hr. unfold multisig_scriptSig. cbn [app]. rewrite pushes_cons. change (push_data [] ++ ?l) with (0 :: l). f_equal.
  induction Hs as [|s sigs Hs1 _ IH].
  - unfold pushes. cbn [fmap list_fmap mjoin list_join app]. rewrite push_data_short, app_nil_r by done.
    unfold varInt. rewrite (proj2 (Z.ltb_lt _ _)) by lia. unfold u8arr. by rewrite fmap_cons, Z.mod_small by lia.
  - cbn [app]. rewrite pushes_cons, fmap_cons, mjoin_cons, <-app_assoc, IH. by rewrite push_sig_data.
Qed.

(** A stored set of signatures, checked on a transaction that hashes as the
    proposal did. *)
Lemma stored_accepts `{CryptoLaws} {CU : Curve} {CL : CurveLaws} tx i value mdb cache flags c hash m keys :
  flags_ok flags -> wf_keys m keys -> Forall compressed_key keys -> (length keys <= 15)%nat -> (i < length (vin tx))%nat ->
  (forall key s, key ∈ keys -> stored c key = Some s -> exists k sg, key = secp_publicKey k /\
     secp_sign hash k = Ok sg /\ s = derEncodeSignature sg ++ [1]) ->
  m <= Z.of_nat (length (omap (stored c) keys)) ->
  SignatureHash tx (redeem_bytes m keys) i SIGHASH_ALL value BASE cache = hash ->
  VerifyScript (TransactionSignatureChecker (input_checker tx i value mdb cache)) flags
    (pushes (([] :: take (Z.to_nat m) (omap (stored c) keys)) ++ [redeem_bytes m keys]))
    (p2shScriptPubKey (hash160 (redeem_bytes m keys))) [] = Ret tt.
Proof.
  intros Hf Hk Hck H15 Hi Hc Hm Hhash. rewrite p2shScriptPubKey_script by apply hash160_bytes. rewrite redeem_mscript in * by done.
  pose proof Hk as (Hkm & Hk16 & Hk33). set (sigs := take (Z.to_nat m) (omap (stored c) keys)).
  assert (Forall (fun s => exists sg, sig_in_range sg /\ s = derEncodeSignature sg ++ [1]) sigs) as Hs
    by (apply Forall_take; by eapply stored_sigs).
  apply mscript_accepts; try done; try lia.
  - unfold sigs. rewrite length_take. lia.
  - eapply Forall_impl; [exact Hs|]. intros s (sg & Hsg%own_sig_length & ->). unfold pushable. lia.
  - apply drop_signatures_absent, Forall_reverse. eapply Forall_impl; [exact Hs|]. intros s (sg & Hsg & ->).
    pose proof (own_sig_length sg Hsg). split; [by intros [_ ?]%app_eq_nil|]. split; [lia|].
    apply absent_mscript; [done|lia|lia|done|done].
  - apply (multisig_loop_complete _ _ _ (ecdsa_valid (input_checker tx i value mdb cache) (mscript m keys))).
    + intros s k. by apply ecdsa_valid_ret.
    + apply Forall_reverse. eapply Forall_impl; [exact Hs|]. intros s (sg & Hsg & ->). by apply wallet_signature_encoding_aux.
    + apply Forall_reverse. by eapply compressed_key_encoding.
    + apply matches_take_reverse; [|lia]. intros key sg0 Hkey Hst. destruct (Hc key sg0 Hkey Hst) as (k & sg & -> & Hsg & ->).
      unfold ecdsa_valid. by rewrite check_own_signature by (done || (cbn [txTo nIn amount txdata input_checker]; by rewrite Hhash)).
Qed.

(** ** How the redeem script is pushed *)

Lemma push_sig_cons s : short_sig s -> push_sig s = Z.of_nat (length s) :: s.
Proof. unfold short_sig, push_sig, u8arr. intros Hs. rewrite fmap_cons, Z.mod_small by lia. done. Qed.

Lemma push_only_loop_push f s rest :
  short_sig s -> push_only_loop (S f) (Z.of_nat (length s) :: s ++ rest) = push_only_loop f rest.
Proof.
  intros Hs. cbn [push_only_loop]. rewrite GetScriptOp_push by done. cbn [negb].
  unfold short_sig in Hs. by rewrite (proj2 (Z.ltb_ge OP_16 _)) by (unfold OP_16; lia).
Qed.

Lemma push_only_loop_sigs f sigs rest :
  Forall short_sig sigs ->
  push_only_loop (length sigs + f) (mjoin (push_sig <$> sigs) ++ rest) = push_only_loop f rest.
Proof.
  induction 1 as [|s sigs Hs _ IH]; [done|]. rewrite fmap_cons, mjoin_cons, push_sig_cons, <-app_assoc by done.
  cbn [length Nat.add app]. by rewrite push_only_loop_push.
Qed.

Lemma length_push_sigs sigs : (length sigs <= length (mjoin (push_sig <$> sigs)))%nat.
Proof.
  induction sigs as [|s sigs IH]; [done|]. rewrite fmap_cons, mjoin_cons, length_app. unfold push_sig at 1.
  rewrite length_app. simpl. lia.
Qed.

(** The fuel left when the walk reaches the push of the redeem script. *)
Lemma multisig_fuel sigs redeem :
  exists f, length (multisig_scriptSig sigs redeem) = S (length sigs + S (S f)) \/ redeem = [].
Proof.
  destruct redeem as [|b r]; [exists 0%nat; by right|].
  exists (length (multisig_scriptSig sigs (b :: r)) - 3 - length sigs)%nat. left.
  unfold multisig_scriptSig. cbn [length]. rewrite !length_app. cbn [length].
  pose proof (length_push_sigs sigs). rewrite length_varInt. repeat case_match; lia.
Qed.

Lemma multisig_not_push_only m keys sigs :
  wf_keys m keys -> Forall short_sig sigs -> (3 <= length keys)%nat ->
  IsPushOnly (multisig_scriptSig sigs (redeem_bytes m keys)) = false.
Proof.
  intros Hk Hs H3. pose proof (length_redeem m keys Hk) as Hl. set (redeem := redeem_bytes m keys) in *.
  destruct (multisig_fuel sigs redeem) as [f [Hf | Hr]]; [|by rewrite Hr in Hl].
  assert (short_sig []) as Hsn by (unfold short_sig; simpl; lia). unfold IsPushOnly. rewrite Hf.
  change (multisig_scriptSig sigs redeem) with
    (Z.of_nat (length ([] : list Z)) :: [] ++ mjoin (push_sig <$> sigs) ++ varInt (Z.of_nat (length redeem)) ++ redeem).
  rewrite push_only_loop_push by done. rewrite (push_only_loop_sigs (S (S f))) by done.
  assert (exists b t, varInt (Z.of_nat (length redeem)) = b :: t /\ OP_16 < b) as (b & t & -> & Hb).
  { unfold varInt, OP_16. destruct (Z.ltb_spec (Z.of_nat (length redeem)) 0xfd).
    - unfold u8arr. rewrite fmap_cons, Z.mod_small by lia. eexists _, _. split; [done|lia].
    - repeat case_match; (eexists _, _; split; [done|lia]). }
  cbn [push_only_loop app]. unfold GetScriptOp, OP_16, OP_PUSHDATA4 in *.
  rewrite (proj2 (Z.leb_gt _ _)) by lia. cbn [negb]. by rewrite (proj2 (Z.ltb_lt _ _)).
Qed.

(** from three cosigners on, the redeem script is longer than 75 bytes and
    the finalised script announces its length with a transaction-style size
    prefix instead of a push opcode: the script is not push-only, and the
    node's verifier refuses the spend whatever the signatures, the checker,
    the witness and the other flags are. *)
Theorem multisig_three_keys_refused `{CryptoLaws} {CU : Curve} checker flags m keys sigs witness
  (Hk : wf_keys m keys) (Hs : Forall short_sig sigs) (H3 : (3 <= length keys)%nat)
  (Hp2sh : flag flags SCRIPT_VERIFY_P2SH = true) :
  VerifyScript checker flags (multisig_scriptSig sigs (redeem_bytes m keys))
    (p2shScriptPubKey (hash160 (redeem_bytes m keys))) witness <> Ret tt.
Proof.
  intros Hv. rewrite p2shScriptPubKey_script in Hv by apply hash160_bytes.
  apply p2sh_sound in Hv as [Hpush _]; [|apply hash160_length|done]. by rewrite multisig_not_push_only in Hpush.
Qed.

Lemma multisig_spend_aux `{CryptoLaws} {CU : Curve} {CL : CurveLaws} inputs mks outputs lt ks q raw
  (Hin : Forall2 wf_multisig_input inputs mks) (Hout : Forall wf_multisig_output outputs)
  (Hne : inputs <> []) (Hli : Z.of_nat (length inputs) <= MAX_SIZE) (Hlo : Z.of_nat (length outputs) <= MAX_SIZE)
  (Hlt : 0 <= lt < 2 ^ 32)
  (Hsign : foldR sign_as (createMultisigProposal inputs outputs lt) ks = Ok q)
  (Hfinal : finalizeMultisigTransaction q = Ok raw) :
  multisig_verdict mks outputs raw.
Proof.
  destruct (signed_same inputs outputs lt q ks Hsign) as (Hver & Hpi & Hpo & Hplt).
  rewrite finalize_eq, Hver, Hpi, Hpo, Hplt, (proposal_inputs inputs mks outputs lt Hin), (proposal_outputs inputs outputs lt Hout) in Hfinal.
  apply res_bind_ok in Hfinal as (scripts & Hs & <-%Ok_inj).
  pose proof (multisig_wf inputs mks outputs lt Hin Hout q ks scripts Hsign Hs Hne Hli Hlo Hlt) as Hwf.
  set (txi := zip_with set_scriptSig scripts (multisig_txin <$> inputs)) in *.
  exists (node_tx 2 txi outputs lt). split; [|split; [done|]].
  { rewrite <-(app_nil_r (serializeTx _ _ _ _)), serializeTx_node by lia. by apply unserialize_serialize_aux, wf_node_tx. }
  intros i m keys Hi. apply mapR_ok in Hs. pose proof (Forall2_length _ _ _ Hs) as Hl. rewrite length_seq in Hl.
  cbn [p_inputs createMultisigProposal] in Hl. rewrite length_fmap in Hl.
  destruct (Forall2_lookup_r _ _ _ _ _ Hin Hi) as (mi & Hmi & (_ & _ & _ & Hk & Hck & _)). cbn [fst snd] in *.
  destruct (lookup_lt_is_Some_2 scripts i) as [s Hsi]; [rewrite <-Hl; by eapply lookup_lt_Some|].
  destruct (Forall2_lookup_r _ _ _ _ _ Hs Hsi) as (j & Hj & Hsj). apply lookup_seq in Hj as [-> _]. simpl in Hsj.
  destruct (finalized_script inputs mks outputs lt Hin q ks i m keys s Hsign Hi Hsj) as (c & Hc & Hm & ->).
  assert (vin (node_tx 2 txi outputs lt) !! i = Some (node_txin (set_scriptSig (multisig_scriptSig (take (Z.to_nat m) (omap (stored c) keys))
    (redeem_bytes m keys)) (multisig_txin mi)))) as Hvin
    by (cbn [vin node_tx]; unfold txi; by rewrite list_lookup_fmap, lookup_zip_with, list_lookup_fmap, Hsi, Hmi).
  eexists _, (take (Z.to_nat m) (omap (stored c) keys)). split; [done|]. split; [done|]. split; [rewrite length_take; destruct Hk; lia|].
  intros value mdb cache flags Hf. set (checker := TransactionSignatureChecker _). set (output := p2shScriptPubKey _).
  assert ((length keys <= 15)%nat -> VerifyScript checker flags
    (pushes (([] :: take (Z.to_nat m) (omap (stored c) keys)) ++ [redeem_bytes m keys])) output [] = Ret tt) as Hv.
  { intros H15. eapply stored_accepts; try done; [by eapply lookup_lt_Some|]. rewrite sighash_agree_aux by (by apply plain_redeem).
    unfold txi. rewrite legacySighash_signed by (rewrite length_fmap; lia). unfold proposal_sighash.
    by rewrite (proposal_inputs inputs mks outputs lt Hin), (proposal_outputs inputs outputs lt Hout). }
  change (in_scriptSig _) with (multisig_scriptSig (take (Z.to_nat m) (omap (stored c) keys)) (redeem_bytes m keys)).
  assert (Forall short_sig (take (Z.to_nat m) (omap (stored c) keys))) as Hshort.
  { apply Forall_take. eapply Forall_impl; [by eapply stored_sigs|]. intros s (sg & Hsg%own_sig_length & ->). unfold short_sig. lia. }
  split; [|split; [intros H3 Hp2sh; by apply multisig_three_keys_refused|done]]. intros H2.
  rewrite multisig_scriptSig_pushes; [apply Hv; lia|done|rewrite length_redeem by done; lia].
Qed.

(** a proposal can be finalised exactly when, for every input, at least m of
    the keys in its script belong to someone who signed; signatures of people
    who are not cosigners never count. *)
Theorem multisig_finalizes_iff `{CryptoLaws} inputs mks outputs lt ks q
  (Hin : Forall2 wf_multisig_input inputs mks)
  (Hsign : foldR sign_as (createMultisigProposal inputs outputs lt) ks = Ok q) :
  is_ok (finalizeMultisigTransaction q) = true <->
  forall i m keys, mks !! i = Some (m, keys) -> m <= signer_count ks keys.
Proof.
  destruct (signed_same inputs outputs lt q ks Hsign) as (_ & Hpi & _).
  rewrite finalize_eq, Hpi. cbn [p_inputs createMultisigProposal]. rewrite length_fmap.
  transitivity (is_ok (mapR (script_for q) (seq 0 (length inputs))) = true); [by destruct (mapR _ _)|].
  rewrite mapR_is_ok, Forall_lookup. split.
  - intros Hok i m keys Hi. pose proof (lookup_lt_Some _ _ _ Hi) as Hlt. rewrite <-(Forall2_length _ _ _ Hin) in Hlt.
    specialize (Hok i i (lookup_seq_lt _ _ _ Hlt)).
    destruct (script_for_signed inputs mks outputs lt Hin q ks i m keys Hsign Hi) as (c & _ & Hpres & He).
    rewrite He, (stored_count c ks keys Hpres) in Hok. destruct (Z.ltb_spec (signer_count ks keys) m); [done|lia].
  - intros Hall j i [-> Hlt]%lookup_seq. simpl.
    destruct (lookup_lt_is_Some_2 mks j) as [[m keys] Hi]; [by rewrite <-(Forall2_length _ _ _ Hin)|].
    destruct (script_for_signed inputs mks outputs lt Hin q ks j m keys Hsign Hi) as (c & _ & Hpres & He).
    rewrite He, (stored_count c ks keys Hpres). by rewrite (proj2 (Z.ltb_ge _ _)) by (by eapply Hall).
Qed.

(** ** What a spend needs *)

Lemma multisig_spend_inv checker flags m keys code st st' :
  multisig_spend checker flags m keys code st = Ret st' -> eval_false st' = false ->
  exists code', drop_signatures flags BASE code (take (Z.to_nat m) st) = Ret code' /\ (Z.to_nat m < length st)%nat /\
    multisig_loop checker flags BASE code' (reverse keys) (take (Z.to_nat m) st) = Ret true.
Proof.
  unfold multisig_spend. destruct (Nat.leb_spec (length st) (Z.to_nat m)); [done|]. intros Hs He.
  apply script_bind_ret in Hs as (code' & Hd & Hs). apply script_bind_ret in Hs as (ok & Hl & Hs).
  exists code'. split; [done|]. split; [done|]. rewrite Hl. f_equal.
  apply script_bind_ret in Hs as (st2 & _ & Hs). destruct st2 as [|d st2]; [done|].
  apply script_bind_ret in Hs as (? & _ & [= <-]). by destruct ok.
Qed.

(** C14: an output of an m-of-n script can be spent only with signatures of m of
    its keys.  Whenever the node's verifier accepts an input against the
    script's address, the input is a script of pushes whose last item has the
    address's hash; and if that item is the m-of-n script itself, the m items
    below it are signatures that the node's check accepts for m of the keys,
    each for a different one, in the order of the keys. *)
Theorem multisig_needs_signatures `{CryptoLaws} {CU : Curve} c flags m keys scriptSig witness
  (Hk : wf_keys m keys) (Hin : (nIn c < length (vin (txTo c)))%nat) (Hp2sh : flag flags SCRIPT_VERIFY_P2SH = true)
  (Hv : VerifyScript (TransactionSignatureChecker c) flags scriptSig
          (p2shScriptPubKey (hash160 (redeem_bytes m keys))) witness = Ret tt) :
  IsPushOnly scriptSig = true /\
  exists redeem st, EvalBase (TransactionSignatureChecker c) flags [] scriptSig = Ret (redeem :: st) /\
    hash160 redeem = hash160 (redeem_bytes m keys) /\
    (redeem = redeem_bytes m keys -> exists code,
       drop_signatures flags BASE redeem (take (Z.to_nat m) st) = Ret code /\
       length (take (Z.to_nat m) st) = Z.to_nat m /\
       matches (ecdsa_valid c code) (take (Z.to_nat m) st) (reverse keys)).
Proof.
  rewrite p2shScriptPubKey_script in Hv by apply hash160_bytes.
  apply p2sh_sound in Hv as [Hpush (redeem & st & st' & He & Hh & Hev & Ht)]; [|apply hash160_length|done].
  split; [done|]. exists redeem, st. split; [done|]. split; [done|]. intros ->. pose proof Hk as (Hm & H16 & H33).
  rewrite redeem_mscript in * by done. apply mscript_inv in Hev; [|lia|lia|lia|done].
  destruct (multisig_spend_inv _ _ _ _ _ _ _ Hev Ht) as (code & Hd & Hl & Hloop). exists code. split; [done|].
  split; [rewrite length_take; lia|]. eapply multisig_loop_sound; [|exact Hloop]. intros s k. by apply ecdsa_valid_ret.
Qed.

Lemma redeem_bytes_length m keys : wf_keys m keys -> length (redeem_bytes m keys) = (3 + 34 * length keys)%nat.
Proof.
  intros Hk. rewrite redeem_mscript by done. destruct Hk as (Hm & H16 & H33). apply mscript_length; [lia|done].
Qed.

(** the wallet makes addresses of sixteen keys, but nothing sent to one can be
    spent: the script is longer than the 520 bytes an element of the node's stack
    may have, so no input can present it.  An input the verifier accepts would
    show a second script with the same hash. *)
Theorem multisig_sixteen_keys_unspendable `{CryptoLaws} {CU : Curve} c flags m keys scriptSig witness
  (Hk : wf_keys m keys) (H16 : length keys = 16%nat) (Hin : input_known c) (Hsig : bytes_ok scriptSig)
  (Hp2sh : flag flags SCRIPT_VERIFY_P2SH = true) :
  createMultisigRedeemScript m keys = Ok (redeem_bytes m keys) /\
  (VerifyScript (TransactionSignatureChecker c) flags scriptSig
     (p2shScriptPubKey (hash160 (redeem_bytes m keys))) witness = Ret tt ->
   exists other, other <> redeem_bytes m keys /\ hash160 other = hash160 (redeem_bytes m keys)).
Proof.
  split; [by apply redeem_ok|]. rewrite p2shScriptPubKey_script by apply hash160_bytes. intros Hv.
  apply p2sh_sound in Hv as [_ (other & st & _ & He & Hh & _)]; [|apply hash160_length|done]. exists other. split; [|done]. intros ->.
  pose proof (tx_checker_safe c BASE Hin ltac:(done)) as Hsafe.
  assert (stack_ok []) as Hst by (split; [by apply Forall_nil_2|by cbn]).
  destruct (safe_base (TransactionSignatureChecker c) flags [] scriptSig Hst Hsig) as [_ Hb].
  apply Hb in He as [[[_ Hlen] _]%Forall_cons_1 _]. rewrite redeem_bytes_length, H16 in Hlen by done.
  unfold MAX_SCRIPT_ELEMENT_SIZE in Hlen. lia.
Qed.

(** ** Witnesses *)

Lemma ms_wf_keys : wf_keys 2 ms_keys.
Proof. split; [simpl; lia|]. split; [simpl; lia|]. by repeat constructor. Qed.

Lemma ms_wf_inputs : Forall2 wf_multisig_input ms_inputs [(2, ms_keys)].
Proof.
  constructor; [|constructor]. split; [done|]. split; [by apply (bool_decide_unpack _)|].
  split; [simpl; lia|]. split; [apply ms_wf_keys|]. split; [|done].
  do 2 (constructor; [split; [by apply (bool_decide_unpack _)|by left]|]). constructor.
Qed.

Lemma ms_wf_outputs : Forall wf_multisig_output ms_outputs.
Proof. constructor; [|constructor]. split; [by split|by apply (bool_decide_unpack _)]. Qed.

Definition ms_signed : proposal :=
  match foldR (@sign_as toy_crypto) ms_proposal [[4]; [6]] with Ok q => q | Throw _ => ms_proposal end.

Lemma multisig_finalizes_iff_witness :
  is_ok (finalizeMultisigTransaction ms_signed) = true <->
  forall i m keys, [(2, ms_keys)] !! i = Some (m, keys) -> m <= @signer_count toy_crypto [[4]; [6]] keys.
Proof.
  apply (@multisig_finalizes_iff toy_crypto toy_laws ms_inputs [(2, ms_keys)] ms_outputs 0);
    [apply ms_wf_inputs|vm_compute; reflexivity].
Defined.

Lemma multisig_three_keys_refused_witness :
  @VerifyScript toy_crypto toy_curve
    (@TransactionSignatureChecker toy_crypto toy_curve (input_checker (node_tx 2 [] [] 0) 0 0 FAIL None)) STANDARD_SCRIPT_VERIFY_FLAGS
    (multisig_scriptSig [[48; 1]] (redeem_bytes 1 (ms_keys ++ ms_keys)))
    (p2shScriptPubKey (@hash160 toy_crypto (redeem_bytes 1 (ms_keys ++ ms_keys)))) [] <> Ret tt.
Proof.
  apply (@multisig_three_keys_refused toy_crypto toy_laws); [|repeat constructor|simpl; lia|done].
  split; [simpl; lia|]. split; [simpl; lia|]. by repeat constructor.
Defined.

(** The two-of-two payment of [ms_signed], as the node reads it. *)
Definition ms_tx : CTransaction :=
  match finalizeMultisigTransaction ms_signed with
  | Ok raw => match UnserializeTransaction true raw with inr (tx, _) => tx | inl _ => node_tx 2 [] [] 0 end
  | Throw _ => node_tx 2 [] [] 0
  end.
Definition ms_scriptSig : list Z := from_option in_scriptSig [] (vin ms_tx !! 0%nat).

Lemma multisig_needs_signatures_witness :
  IsPushOnly ms_scriptSig = true /\ exists redeem st,
    @EvalBase toy_crypto (@TransactionSignatureChecker toy_crypto toy_curve (input_checker ms_tx 0 900 FAIL None))
      STANDARD_SCRIPT_VERIFY_FLAGS [] ms_scriptSig = Ret (redeem :: st).
Proof.
  destruct (@multisig_needs_signatures toy_crypto toy_laws toy_curve (input_checker ms_tx 0 900 FAIL None)
    STANDARD_SCRIPT_VERIFY_FLAGS 2 ms_keys ms_scriptSig []) as (Hp & redeem & st & He & _).
  - apply ms_wf_keys.
  - vm_compute. lia.
  - done.
  - vm_compute. reflexivity.
  - split; [exact Hp|]. exists redeem, st. exact He.
Defined.

Lemma multisig_sixteen_keys_unspendable_witness :
  createMultisigRedeemScript 2 (replicate 16 (2 :: replicate 32 7)) = Ok (redeem_bytes 2 (replicate 16 (2 :: replicate 32 7))).
Proof.
  refine (proj1 (@multisig_sixteen_keys_unspendable toy_crypto toy_laws toy_curve (input_checker ms_tx 0 900 FAIL None)
    STANDARD_SCRIPT_VERIFY_FLAGS 2 (replicate 16 (2 :: replicate 32 7)) [] [] _ _ _ _ _)).
  - split; [simpl; lia|]. split; [simpl; lia|]. by repeat constructor.
  - done.
  - split; [by vm_compute; lia|by left].
  - constructor.
  - done.
Defined.
