(* ===== verification/BumpFee.v ===== *)
(** * Replacing a transaction with a higher fee

    [buildBumpFeeTransaction] of [firstislamiccoin-web-wallet/crypto.js]
    (lines 521-558): the same inputs, the same payments, a smaller change
    output. *)

From S2P Require Import Prelude Digits JsString Bytes Crypto JsInt Tx NodeTx NodeScript Spend.

Open Scope Z_scope.
Open Scope list_scope.

(** A sent transaction as the wallet recorded it. *)
Record sent_input : Type := { si_txid : string; si_vout : Z; si_valueSatoshis : Z }.
Record sent_output : Type := { so_scriptPubKeyHex : string; so_valueSatoshis : Z; so_isChange : bool }.
Record sent_record : Type := {
  sr_inputs : list sent_input;
  sr_outputs : list sent_output;
  sr_feeSatoshis : Z
}.
Record input_key : Type := { ik_privateKey : list Z; ik_publicKeyCompressed : list Z }.

Fixpoint findIndex {A} (f : A -> bool) (l : list A) : option nat :=
  match l with
  | [] => None
  | x :: l => if f x then Some 0%nat else S <$> findIndex f l
  end.

Definition with_value (v : Z) (o : sent_output) : sent_output := {|
  so_scriptPubKeyHex := so_scriptPubKeyHex o; so_valueSatoshis := v; so_isChange := so_isChange o
|}.

Section Bump.
Context `{Crypto}.

Definition bump_input (inputKeys : list input_key) (i : nat) (inp : sent_input) : res utxo_input :=
  key ← defined "inputKeys[i]" (inputKeys !! i);
  Ok {|
    u_txid := reverse (hexToBytes (si_txid inp));
    u_vout := si_vout inp;
    u_valueSatoshis := si_valueSatoshis inp;
    u_pubkeyHash := hash160 (ik_publicKeyCompressed key);
    u_privateKey := Some (ik_privateKey key);
    u_publicKeyCompressed := Some (ik_publicKeyCompressed key);
    u_sequence := None
  |}.

Definition buildBumpFeeTransaction (record : sent_record) (newFeeSatoshis : Z) (inputKeys : list input_key)
    : res (list Z * list sent_output) :=
  match findIndex so_isChange (sr_outputs record) with
  | None => Throw (JsError "This transaction has no change output to reduce -- can't bump its fee automatically here.")
  | Some changeOutputIndex =>
      let feeIncrease := newFeeSatoshis - sr_feeSatoshis record in
      changeOutput ← defined "changeOutput" (sr_outputs record !! changeOutputIndex);
      let newChangeValue := so_valueSatoshis changeOutput - feeIncrease in
      _ ← throw_if (newChangeValue <=? 0) (JsError "Not enough change left to cover a higher fee.");
      inputs ← mapR (fun ii => bump_input inputKeys ii.1 ii.2) (imap (fun i inp => (i, inp)) (sr_inputs record));
      let outputs := imap (fun i o => {|
        scriptPubKey := hexToBytes (so_scriptPubKeyHex o);
        valueSatoshis := if (i =? changeOutputIndex)%nat then newChangeValue else so_valueSatoshis o
      |}) (sr_outputs record) in
      rawTx ← buildAndSignTransaction inputs outputs None None 0;
      let newOutputs := imap (fun i o => if (i =? changeOutputIndex)%nat then with_value newChangeValue o else o)
                          (sr_outputs record) in
      Ok (rawTx, newOutputs)
  end.

End Bump.

Definition total_out (outs : list sent_output) : Z := sumZ (so_valueSatoshis <$> outs).

Lemma findIndex_spec {A} (f : A -> bool) l i :
  findIndex f l = Some i -> exists l1 x l2, l = l1 ++ x :: l2 /\ length l1 = i /\ f x = true /\ Forall (fun y => f y = false) l1.
Proof.
  revert i. induction l as [|y l IH]; intros i Hi; [done|]. simpl in Hi. destruct (f y) eqn:E.
  - injection Hi as <-. by exists [], y, l.
  - destruct (findIndex f l) as [j|]; [|done]. injection Hi as <-.
    destruct (IH j eq_refl) as (l1 & x & l2 & -> & <- & Hx & Hl). exists (y :: l1), x, l2. by repeat constructor.
Qed.

Lemma findIndex_none {A} (f : A -> bool) l : findIndex f l = None -> Forall (fun y => f y = false) l.
Proof.
  induction l as [|y l IH]; intros Hi; [constructor|]. simpl in Hi. destruct (f y) eqn:E; [done|].
  destruct (findIndex f l); [done|]. constructor; [done|by apply IH].
Qed.

(** Changing one element of a list of known shape. *)
Lemma imap_at {A} (g : A -> A) (l1 : list A) x l2 :
  imap (fun i o => if (i =? length l1)%nat then g o else o) (l1 ++ x :: l2) = l1 ++ g x :: l2.
Proof.
  apply list_eq. intros i. rewrite list_lookup_imap. destruct (lt_eq_lt_dec i (length l1)) as [[Hi | ->]|Hi].
  - rewrite !lookup_app_l by done. destruct (l1 !! i); [|done]. cbn. by rewrite (proj2 (Nat.eqb_neq _ _)) by lia.
  - rewrite !list_lookup_middle by done. cbn. by rewrite Nat.eqb_refl.
  - rewrite !lookup_app_r by lia. destruct (i - length l1)%nat as [|j] eqn:E; [lia|]. simpl.
    destruct (l2 !! j); [|done]. cbn. by rewrite (proj2 (Nat.eqb_neq _ _)) by lia.
Qed.

Definition sent_txout (o : sent_output) : tx_output := {|
  scriptPubKey := hexToBytes (so_scriptPubKeyHex o); valueSatoshis := so_valueSatoshis o
|}.

Lemma imap_sent_txout (l1 : list sent_output) ch l2 v :
  imap (fun i o => {|
      scriptPubKey := hexToBytes (so_scriptPubKeyHex o);
      valueSatoshis := if (i =? length l1)%nat then v else so_valueSatoshis o |}) (l1 ++ ch :: l2) =
    sent_txout <$> (l1 ++ with_value v ch :: l2).
Proof.
  rewrite <-(imap_at (with_value v)), fmap_imap. apply imap_ext. intros i o _. unfold compose, sent_txout.
  by destruct (i =? length l1)%nat.
Qed.

Section BumpSpec.
Context `{Crypto}.

Lemma bump_inv record newFee keys raw newOutputs :
  buildBumpFeeTransaction record newFee keys = Ok (raw, newOutputs) ->
  exists l1 ch l2 inputs,
    let v := so_valueSatoshis ch - (newFee - sr_feeSatoshis record) in
    sr_outputs record = l1 ++ ch :: l2 /\ so_isChange ch = true /\ 0 < v /\
    newOutputs = l1 ++ with_value v ch :: l2 /\
    Forall2 (fun ii u => bump_input keys ii.1 ii.2 = Ok u) (imap (fun i inp => (i, inp)) (sr_inputs record)) inputs /\
    buildAndSignTransaction inputs (sent_txout <$> newOutputs) None None 0 = Ok raw.
Proof.
  unfold buildBumpFeeTransaction. destruct (findIndex _ _) as [ci|] eqn:E; [|done]. intros Hb.
  apply findIndex_spec in E as (l1 & ch & l2 & Hout & <- & Hch & _). rewrite Hout in Hb.
  rewrite list_lookup_middle in Hb by done. cbn [defined mbind res_bind] in Hb.
  apply res_bind_ok in Hb as (_ & Hpos%throw_if_ok & Hb). b2p.
  apply res_bind_ok in Hb as (inputs & Hin%mapR_ok & Hb). rewrite imap_sent_txout, imap_at in Hb.
  apply res_bind_ok in Hb as (raw' & Hraw & Hb). apply Ok_inj in Hb. simplify_eq.
  exists l1, ch, l2, inputs. cbv zeta. by repeat (split; [done|]).
Qed.

(** The replaced inputs spend the recorded outputs. *)
Lemma bump_inputs keys ins inputs :
  Forall2 (fun ii u => bump_input keys ii.1 ii.2 = Ok u) (imap (fun i inp => (i, inp)) ins) inputs ->
  length inputs = length ins /\
  forall i inp, ins !! i = Some inp -> exists u key, inputs !! i = Some u /\ keys !! i = Some key /\ bump_input keys i inp = Ok u /\
    u_txid u = reverse (hexToBytes (si_txid inp)) /\ u_vout u = si_vout inp /\
    u_pubkeyHash u = hash160 (ik_publicKeyCompressed key) /\
    u_privateKey u = Some (ik_privateKey key) /\ u_publicKeyCompressed u = Some (ik_publicKeyCompressed key) /\
    u_sequence u = None.
Proof.
  intros Hf. split; [by rewrite <-(Forall2_length _ _ _ Hf), length_imap|]. intros i inp Hi.
  eapply (Forall2_lookup_l _ _ _ i (i, inp)) in Hf as (u & Hu & Hb); [|by rewrite list_lookup_imap, Hi].
  cbn [fst snd] in Hb. pose proof Hb as Hb'. unfold bump_input in Hb. destruct (keys !! i) as [key|] eqn:Hk; [|done].
  cbn [defined mbind res_bind] in Hb. apply Ok_inj in Hb as <-. by exists {|
    u_txid := reverse (hexToBytes (si_txid inp)); u_vout := si_vout inp; u_valueSatoshis := si_valueSatoshis inp;
    u_pubkeyHash := hash160 (ik_publicKeyCompressed key); u_privateKey := Some (ik_privateKey key);
    u_publicKeyCompressed := Some (ik_publicKeyCompressed key); u_sequence := None |}, key.
Qed.

End BumpSpec.

Lemma bump_conserves_aux `{Crypto} record newFee keys raw newOutputs
  (Hbump : buildBumpFeeTransaction record newFee keys = Ok (raw, newOutputs)) :
  total_out newOutputs + newFee = total_out (sr_outputs record) + sr_feeSatoshis record /\
  length newOutputs = length (sr_outputs record) /\
  (forall i o, sr_outputs record !! i = Some o -> so_isChange o = false -> newOutputs !! i = Some o) /\
  exists ci change change', sr_outputs record !! ci = Some change /\ so_isChange change = true /\
    newOutputs !! ci = Some change' /\ so_scriptPubKeyHex change' = so_scriptPubKeyHex change /\
    0 < so_valueSatoshis change'.
Proof.
  destruct (bump_inv _ _ _ _ _ Hbump) as (l1 & ch & l2 & inputs & Hout & Hch & Hv & -> & _).
  rewrite Hout. unfold total_out. rewrite !fmap_app, !fmap_cons, !sumZ_app, !length_app. cbn [length].
  split; [|split; [done|split]].
  - unfold sumZ. cbn [foldr so_valueSatoshis with_value]. lia.
  - intros i o Hi Ho. destruct (decide (i = length l1)) as [->|Hne].
    + rewrite list_lookup_middle in Hi by done. congruence.
    + rewrite <-Hi. destruct (lt_eq_lt_dec i (length l1)) as [[Hlt | ?]|Hgt]; [by rewrite !lookup_app_l|done|].
      rewrite !lookup_app_r by lia. destruct (i - length l1)%nat eqn:E; [lia|done].
  - exists (length l1), ch, (with_value (so_valueSatoshis ch - (newFee - sr_feeSatoshis record)) ch).
    by rewrite !list_lookup_middle.
Qed.

(** A fee bump moves satoshis from the change output to the fee and nowhere
    else: outputs plus fee keep their total, every other output keeps its place,
    script and amount, and the change stays positive. *)
Theorem bump_fee_conserves `{Crypto} record newFee keys raw newOutputs
  (Hbump : buildBumpFeeTransaction record newFee keys = Ok (raw, newOutputs)) :
  total_out newOutputs + newFee = total_out (sr_outputs record) + sr_feeSatoshis record /\
  length newOutputs = length (sr_outputs record) /\
  (forall i o, sr_outputs record !! i = Some o -> so_isChange o = false -> newOutputs !! i = Some o) /\
  exists ci change change', sr_outputs record !! ci = Some change /\ so_isChange change = true /\
    newOutputs !! ci = Some change' /\ so_scriptPubKeyHex change' = so_scriptPubKeyHex change /\
    0 < so_valueSatoshis change'.
Proof. by eapply bump_conserves_aux. Qed.

Definition wf_sent_input (i : sent_input) : Prop := strlen (si_txid i) = 64 /\ 0 <= si_vout i < 2 ^ 32.
Definition wf_sent_output (o : sent_output) : Prop := wf_output (sent_txout o).
Definition own_input_key `{Crypto} (k : input_key) : Prop := ik_publicKeyCompressed k = secp_publicKey (ik_privateKey k).

Lemma bump_inputs_wf `{CryptoLaws} keys ins inputs :
  Forall2 (fun ii u => bump_input keys ii.1 ii.2 = Ok u) (imap (fun i inp => (i, inp)) ins) inputs ->
  Forall wf_sent_input ins -> Forall own_input_key keys ->
  Forall wf_utxo inputs /\ Forall (own_key None None) inputs.
Proof.
  intros Hf Hins Hkeys. destruct (bump_inputs _ _ _ Hf) as [Hl Hb].
  assert (forall i u, inputs !! i = Some u -> wf_utxo u /\ own_key None None u) as Hall.
  { intros i u Hu. destruct (lookup_lt_is_Some_2 ins i) as [inp Hinp]; [rewrite <-Hl; by eapply lookup_lt_Some|].
    destruct (Hb i inp Hinp) as (u' & key & Hu' & Hkey & _ & Ht & Hv & Hh & Hpk & Hpub & Hsq). simplify_eq.
    eapply Forall_lookup_1 in Hins as [Hs Hvr]; [|done]. eapply Forall_lookup_1 in Hkeys; [|done].
    split.
    - unfold wf_utxo. rewrite Ht, Hv, Hh, Hsq, length_reverse, length_hexToBytes, Hs. split; [done|]. split; [done|].
      split; [apply hash160_length|]. split; [apply hash160_bytes|]. simpl. lia.
    - exists (ik_privateKey key). rewrite Hpk, Hpub, Hh, Hkeys. done. }
  split; apply Forall_lookup; intros i u Hu; by apply (Hall i u).
Qed.

(** The outpoint a record names. *)
Definition sent_outpoint (i : sent_input) : COutPoint := {| op_hash := reverse (hexToBytes (si_txid i)); op_n := si_vout i |}.

(** The replacement is a valid transaction in the node's eyes: it spends
    exactly the recorded outputs in their order, pays the new outputs, signals
    replaceability in every input, and every signature verifies for the recorded
    coin at the key given for it. *)
Lemma bump_fee_replacement `{CryptoLaws} {CU : Curve} {CL : CurveLaws} record newFee keys raw newOutputs
  (Hbump : buildBumpFeeTransaction record newFee keys = Ok (raw, newOutputs))
  (Hins : Forall wf_sent_input (sr_inputs record)) (Houts : Forall wf_sent_output newOutputs)
  (Hkeys : Forall own_input_key keys)
  (Hli : Z.of_nat (length (sr_inputs record)) <= MAX_SIZE) (Hlo : Z.of_nat (length newOutputs) <= MAX_SIZE) :
  exists tx, UnserializeTransaction true raw = inr (tx, []) /\
    vout tx = (fun o => node_txout (sent_txout o)) <$> newOutputs /\
    length (vin tx) = length (sr_inputs record) /\
    forall i inp, sr_inputs record !! i = Some inp -> exists txin u,
      vin tx !! i = Some txin /\ prevout txin = sent_outpoint inp /\ nSequence txin = 0xfffffffd /\
      bump_input keys i inp = Ok u /\ input_verifies tx i u.
Proof.
  destruct (bump_inv _ _ _ _ _ Hbump) as (l1 & ch & l2 & inputs & Hout & Hch & Hv & _ & Hin & Hraw).
  destruct (bump_inputs _ _ _ Hin) as [Hl Hb]. destruct (bump_inputs_wf _ _ _ Hin Hins Hkeys) as [Hwfi Hown].
  assert (wf_payment inputs (sent_txout <$> newOutputs) 0) as Hwf.
  { split; [lia|]. split; [done|]. split; [by rewrite length_fmap|]. split; [by apply Forall_fmap|lia]. }
  destruct (build_tx _ _ _ _ _ _ Hwf Hown Hraw) as (scripts & Hls & Htx & -> & Hs).
  exists (node_tx 2 (zip_with set_scriptSig scripts (unsigned_input <$> inputs)) (sent_txout <$> newOutputs) 0).
  split; [|split; [|split]].
  - rewrite <-(app_nil_r (serializeTx _ _ _ _)), serializeTx_node by lia. by apply unserialize_serialize_aux, wf_node_tx.
  - cbn [vout node_tx]. by rewrite <-list_fmap_compose.
  - cbn [vin node_tx]. rewrite length_fmap, length_zip_with, length_fmap. lia.
  - intros i inp Hi. destruct (Hb i inp Hi) as (u & key & Hu & _ & Hbi & Ht & Hvo & _ & _ & _ & Hsq).
    destruct (lookup_lt_is_Some_2 scripts i) as [s Hsi]; [rewrite Hls; by eapply lookup_lt_Some|].
    exists (node_txin (set_scriptSig s (unsigned_input u))), u.
    split; [cbn [vin node_tx]; by rewrite list_lookup_fmap, lookup_zip_with, list_lookup_fmap, Hsi, Hu|].
    split; [by cbn; rewrite Ht, Hvo|]. split; [cbn; by rewrite Hsq|]. split; [done|]. by eapply signed_input_verifies.
Qed.

(** A bump is refused when the record has no change output and when the
    change would not stay positive; otherwise, with a key for every input, it
    succeeds. *)
Theorem bump_fee_refusals `{Crypto} record newFee keys (Hsign : forall h k, is_ok (secp_sign h k) = true)
  (Hne : sr_inputs record <> []) (Hkeys : (length (sr_inputs record) <= length keys)%nat) :
  match findIndex so_isChange (sr_outputs record) ≫= (fun i => sr_outputs record !! i) with
  | None => buildBumpFeeTransaction record newFee keys =
      Throw (JsError "This transaction has no change output to reduce -- can't bump its fee automatically here.")
  | Some change =>
      if so_valueSatoshis change <=? newFee - sr_feeSatoshis record then
        buildBumpFeeTransaction record newFee keys = Throw (JsError "Not enough change left to cover a higher fee.")
      else is_ok (buildBumpFeeTransaction record newFee keys) = true
  end.
Proof.
  unfold buildBumpFeeTransaction. destruct (findIndex _ _) as [ci|] eqn:E; [|done].
  apply findIndex_spec in E as (l1 & ch & l2 & Hout & <- & _ & _). rewrite Hout.
  cbn [mbind option_bind]. rewrite list_lookup_middle by done. cbn [defined mbind res_bind].
  destruct (Z.leb_spec (so_valueSatoshis ch) (newFee - sr_feeSatoshis record)).
  - by rewrite (proj2 (Z.leb_le _ _)) by lia.
  - rewrite (proj2 (Z.leb_gt _ _)) by lia. cbn [throw_if mbind res_bind].
    match goal with |- context [mapR ?f ?l] => assert (is_ok (mapR f l) = true) as Hm end.
    { apply mapR_is_ok, Forall_lookup. intros j [i inp] Hj. rewrite list_lookup_imap in Hj.
      destruct (sr_inputs record !! j) as [inp'|] eqn:Ej; [|done]. injection Hj as <- <-.
      destruct (lookup_lt_is_Some_2 keys j) as [key Hkey]; [apply lookup_lt_Some in Ej; lia|].
      unfold bump_input. cbn [fst snd]. by rewrite Hkey. }
    destruct (mapR _ _) as [inputs|] eqn:Em; [|done]. cbn [mbind res_bind]. apply mapR_ok, bump_inputs in Em as [Hl Hb].
    match goal with |- context [buildAndSignTransaction ?a ?b ?c ?d ?e] =>
      assert (is_ok (buildAndSignTransaction a b c d e) = true) as Hok; [|by destruct (buildAndSignTransaction a b c d e)] end.
    apply build_ok; [done| |by destruct inputs, (sr_inputs record)]. apply Forall_lookup. intros j u Hj.
    destruct (lookup_lt_is_Some_2 (sr_inputs record) j) as [inp Hinp]; [rewrite <-Hl; by eapply lookup_lt_Some|].
    destruct (Hb j inp Hinp) as (u' & key & Hu' & _ & _ & _ & _ & _ & Hpk & Hpub & _). simplify_eq.
    rewrite Hpk, Hpub. split; by eexists.
Qed.

(** ** Witnesses *)

Definition bump_record : sent_record := {|
  sr_inputs := [{| si_txid := repeat_char 64 "a"; si_vout := 1; si_valueSatoshis := 820 |}];
  sr_outputs := [{| so_scriptPubKeyHex := "76a9"; so_valueSatoshis := 500; so_isChange := false |};
                 {| so_scriptPubKeyHex := "0014"; so_valueSatoshis := 300; so_isChange := true |}];
  sr_feeSatoshis := 20
|}.
Definition bump_keys : list input_key :=
  [{| ik_privateKey := [4]; ik_publicKeyCompressed := @secp_publicKey toy_crypto [4] |}].
Definition bump_outputs : list sent_output :=
  [{| so_scriptPubKeyHex := "76a9"; so_valueSatoshis := 500; so_isChange := false |};
   {| so_scriptPubKeyHex := "0014"; so_valueSatoshis := 270; so_isChange := true |}].
Definition bump_raw : list Z :=
  match @buildBumpFeeTransaction toy_crypto bump_record 50 bump_keys with Ok (raw, _) => raw | Throw _ => [] end.

Lemma bump_ex : @buildBumpFeeTransaction toy_crypto bump_record 50 bump_keys = Ok (bump_raw, bump_outputs).
Proof. vm_compute. reflexivity. Qed.

Lemma bump_fee_conserves_witness : total_out bump_outputs + 50 = total_out (sr_outputs bump_record) + 20.
Proof. apply (@bump_fee_conserves toy_crypto bump_record 50 bump_keys bump_raw bump_outputs). apply bump_ex. Defined.

Lemma bump_fee_refusals_witness :
  @buildBumpFeeTransaction toy_crypto bump_record 320 bump_keys =
    Throw (JsError "Not enough change left to cover a higher fee.").
Proof. apply (@bump_fee_refusals toy_crypto bump_record 320 bump_keys); [done|done|simpl; lia]. Defined.
