(* ===== verification/Message.v ===== *)
(** * Signed messages

    [firstislamiccoin-web-wallet/message.js] and the node's counterpart in
    [firstislamiccoin-core/src/util/message.cpp], [util/strencodings.cpp]
    ([DecodeBase64]) and [pubkey.cpp] ([RecoverCompact]).  Strings are the
    code units below 256; [btoa], [atob] and UTF-8 are the standard
    algorithms. *)

From S2P Require Import Prelude Digits JsString Bytes Crypto JsInt Base58 Bech32 Address NodeTx Sha256.

Open Scope Z_scope.
Open Scope list_scope.

Definition MESSAGE_MAGIC : string := "FirstIslamicCoin Signed Message:" +:+ str [chr 10].

(** [TextEncoder.encode]: UTF-8 of a code unit below 256. *)
Definition utf8_char (c : ascii) : list Z :=
  let z := code c in if z <? 128 then [z] else [0xc0 + z / 64; 0x80 + z mod 64].
Definition utf8 (s : string) : list Z := mjoin (utf8_char <$> chars s).

(** ** Base64 *)

Definition B64_ALPHABET : string := "ABCDEFGHIJKLMNOPQRSTUVWXYZabcdefghijklmnopqrstuvwxyz0123456789+/".
Definition b64_char (d : Z) : ascii := default "A"%char (char_at B64_ALPHABET d).

Fixpoint btoa_list (l : list Z) : list ascii :=
  match l with
  | a :: b :: c :: l =>
      b64_char (a / 4) :: b64_char (a mod 4 * 16 + b / 16) :: b64_char (b mod 16 * 4 + c / 64) :: b64_char (c mod 64)
      :: btoa_list l
  | [a; b] => [b64_char (a / 4); b64_char (a mod 4 * 16 + b / 16); b64_char (b mod 16 * 4); "="%char]
  | [a] => [b64_char (a / 4); b64_char (a mod 4 * 16); "="%char; "="%char]
  | [] => []
  end.

(** The forgiving decoder of [atob]. *)
Definition b64_space (c : ascii) : bool :=
  let z := code c in (z =? 9) || (z =? 10) || (z =? 12) || (z =? 13) || (z =? 32).

Definition strip_padding (l : list ascii) : list ascii :=
  if (length l mod 4 =? 0)%nat then
    match reverse l with
    | c :: d :: r => if Ascii.eqb c "=" then if Ascii.eqb d "=" then reverse r else reverse (d :: r) else l
    | _ => l
    end
  else l.

Fixpoint b64_groups (l : list Z) : list Z :=
  match l with
  | a :: b :: c :: d :: l => (a * 4 + b / 16) :: (b mod 16 * 16 + c / 4) :: (c mod 4 * 64 + d) :: b64_groups l
  | [a; b; c] => [a * 4 + b / 16; b mod 16 * 16 + c / 4]
  | [a; b] => [a * 4 + b / 16]
  | _ => []
  end.

Definition b64_val (c : ascii) : res Z :=
  let v := indexOf B64_ALPHABET c in
  if v =? -1 then Throw (EngineError "InvalidCharacterError") else Ok v.

Definition atob (s : string) : res (list Z) :=
  let l := strip_padding (filter (fun c => b64_space c = false) (chars s)) in
  _ ← throw_if (length l mod 4 =? 1)%nat (EngineError "InvalidCharacterError");
  vs ← mapR b64_val l;
  Ok (b64_groups vs).

Definition base64Encode (bytes : list Z) : string := str (btoa_list bytes).
Definition base64Decode (s : string) : res (list Z) := atob s.

(** ** The wallet *)

Section Message.
Context `{Crypto}.

Definition messageHash (message : string) : list Z :=
  let magicBytes := utf8 MESSAGE_MAGIC in
  let msgBytes := utf8 message in
  let preimage := concatBytes [varInt (Z.of_nat (length magicBytes)); magicBytes;
                               varInt (Z.of_nat (length msgBytes)); msgBytes] in
  sha256 (sha256 preimage).

Definition signMessage (privateKey : list Z) (message : string) : res string :=
  let hash := messageHash message in
  sg ← secp_sign hash privateKey;
  let header := 27 + sig_recovery sg + 4 in
  Ok (base64Encode (concatBytes [u8arr [header]; sig_toCompactRawBytes sg])).

Definition verifyMessage (address signatureBase64 message : string) (net : network) : res bool :=
  d ← decodeAddress address net;
  _ ← throw_if (match addr_type d with p2pkh => false | _ => true end)
        (JsError "Only P2PKH addresses support message signing/verification");
  sigBytes ← match base64Decode (trim signatureBase64) with
             | Ok b => Ok b
             | Throw _ => Throw (JsError "Malformed signature (not valid base64)")
             end;
  _ ← throw_if (negb (length sigBytes =? 65)%nat) (JsError "Malformed signature (wrong length)");
  let header := nth 0 sigBytes 0 in
  _ ← throw_if ((header <? 27) || (42 <? header)) (JsError "Malformed signature (bad header byte)");
  let recovery := js_and (header - 27) 3 in
  let hash := messageHash message in
  match (rs ← sig_fromCompact (drop 1 sigBytes); sig_recoverPublicKey rs recovery hash) with
  | Throw _ => Ok false
  | Ok pubkey => Ok (String.eqb (bytesToHex (hash160 pubkey)) (bytesToHex (addr_hash d)))
  end.

End Message.

(** ** Base64 round trip *)

(** The characters before the padding, as values. *)
Fixpoint sextets (l : list Z) : list Z :=
  match l with
  | a :: b :: c :: l => (a / 4) :: (a mod 4 * 16 + b / 16) :: (b mod 16 * 4 + c / 64) :: (c mod 64) :: sextets l
  | [a; b] => [a / 4; a mod 4 * 16 + b / 16; b mod 16 * 4]
  | [a] => [a / 4; a mod 4 * 16]
  | [] => []
  end.

Definition b64_padding (n : nat) : list ascii := replicate ((3 - n mod 3) mod 3) "="%char.

(** Induction on a list three elements at a time. *)
Lemma list_ind3 {A} (P : list A -> Prop) :
  P [] -> (forall a, P [a]) -> (forall a b, P [a; b]) -> (forall a b c l, P l -> P (a :: b :: c :: l)) -> forall l, P l.
Proof.
  intros H0 H1 H2 H3 l. cut (P l /\ (forall a, P (a :: l)) /\ (forall a b, P (a :: b :: l))); [by intros [? _]|].
  induction l as [|x l (IH1 & IH2 & IH3)]; repeat split; auto.
Qed.

Lemma b64_padding_3 n : b64_padding (S (S (S n))) = b64_padding n.
Proof.
  unfold b64_padding. replace (S (S (S n)) mod 3)%nat with (n mod 3)%nat; [done|].
  replace (S (S (S n))) with (n + 1 * 3)%nat by lia. by rewrite Nat.Div0.mod_add.
Qed.

Lemma btoa_sextets l : btoa_list l = (b64_char <$> sextets l) ++ b64_padding (length l).
Proof.
  induction l as [|a|a b|a b c l IH] using list_ind3; [done|done|done|]. cbn [btoa_list sextets length].
  by rewrite IH, b64_padding_3, !fmap_cons.
Qed.

Lemma mul_add_div k x y : 0 <= y < k -> (x * k + y) / k = x.
Proof. intros Hy. rewrite Z.div_add_l, Z.div_small; lia. Qed.
Lemma mul_add_mod k x y : 0 <= y < k -> (x * k + y) mod k = y.
Proof. intros Hy. rewrite Z.add_comm, Z.mod_add, Z.mod_small; lia. Qed.

Lemma byte_parts a : 0 <= a < 256 ->
  (0 <= a / 4 < 64) /\ (0 <= a / 16 < 16) /\ (0 <= a / 64 < 4) /\
  (0 <= a mod 4 < 4) /\ (0 <= a mod 16 < 16) /\ (0 <= a mod 64 < 64) /\
  a = a / 4 * 4 + a mod 4 /\ a = a / 16 * 16 + a mod 16 /\ a = a / 64 * 64 + a mod 64.
Proof.
  intros Ha. pose proof (Z.div_mod a 4). pose proof (Z.div_mod a 16). pose proof (Z.div_mod a 64).
  pose proof (Z.mod_pos_bound a 4). pose proof (Z.mod_pos_bound a 16). pose proof (Z.mod_pos_bound a 64).
  repeat split; try apply Z.div_pos; try apply Z.div_lt_upper_bound; lia.
Qed.

Lemma sextets_ok l : bytes_ok l -> digits_ok 64 (sextets l).
Proof.
  induction l as [|a|a b|a b c l IH] using list_ind3; intros Hl; cbn [sextets];
    repeat (apply Forall_cons_1 in Hl as [? Hl]);
    repeat match goal with H : 0 <= _ < 256 |- _ => apply byte_parts in H end;
    repeat (apply Forall_cons_2; [lia|]); [constructor|constructor|constructor|]. by apply IH.
Qed.

Lemma groups_sextets l : bytes_ok l -> b64_groups (sextets l) = l.
Proof.
  induction l as [|a|a b|a b c l IH] using list_ind3; intros Hl; cbn [sextets b64_groups];
    repeat (apply Forall_cons_1 in Hl as [? Hl]);
    repeat match goal with H : 0 <= _ < 256 |- _ => apply byte_parts in H end; [done|..].
  - f_equal. rewrite Z.div_mul; lia.
  - rewrite mul_add_div, mul_add_mod by lia. rewrite Z.div_mul by lia. do 2 f_equal; lia.
  - rewrite IH by done. rewrite !mul_add_div, !mul_add_mod by lia. repeat f_equal; lia.
Qed.

Lemma b64_char_facts d : 0 <= d < 64 ->
  indexOf B64_ALPHABET (b64_char d) = d /\ Ascii.eqb (b64_char d) "=" = false /\ b64_space (b64_char d) = false.
Proof.
  intros Hd.
  assert ((indexOf B64_ALPHABET (b64_char d) =? d) && negb (Ascii.eqb (b64_char d) "=") &&
    negb (b64_space (b64_char d)) = true) as H.
  { apply (forallb_seqZ (fun d => (indexOf B64_ALPHABET (b64_char d) =? d) && negb (Ascii.eqb (b64_char d) "=") &&
      negb (b64_space (b64_char d))) 0 64); [by vm_compute|lia]. }
  by b2p.
Qed.

Lemma strip_padding_ok core k :
  Forall (fun c => Ascii.eqb c "=" = false) core -> (k <= 2)%nat -> ((length core + k) mod 4 = 0)%nat ->
  strip_padding (core ++ replicate k "="%char) = core.
Proof.
  intros Hc Hk Hm. unfold strip_padding. rewrite length_app, length_replicate, Hm. cbn [Nat.eqb].
  rewrite reverse_app. apply Forall_reverse in Hc.
  destruct k as [|[|[|]]]; [..|lia]; cbn [replicate].
  - cbn. rewrite app_nil_r. destruct (reverse core) as [|c [|d r]] eqn:E; [done|done|].
    apply Forall_cons_1 in Hc as [-> _]. done.
  - change (reverse ["="%char]) with ["="%char]. cbn [app]. destruct (reverse core) as [|d r] eqn:E.
    + apply (f_equal length) in E. rewrite length_reverse in E. rewrite E in Hm. done.
    + apply Forall_cons_1 in Hc as [-> _]. cbn [Ascii.eqb]. rewrite <-E. by rewrite reverse_involutive.
  - change (reverse ["="%char; "="%char]) with ["="%char; "="%char]. cbn [app]. by rewrite reverse_involutive.
Qed.

Lemma sextets_length l :
  (length (sextets l) mod 4 <> 1)%nat /\
  ((length (sextets l) + length (b64_padding (length l))) mod 4 = 0)%nat.
Proof.
  induction l as [|a|a b|a b c l [IH1 IH2]] using list_ind3; [done..|]. cbn [sextets length].
  rewrite b64_padding_3. split.
  - replace (S (S (S (S (length (sextets l)))))) with (length (sextets l) + 1 * 4)%nat by lia.
    by rewrite Nat.Div0.mod_add.
  - replace (S (S (S (S (length (sextets l))))) + length (b64_padding (length l)))%nat
      with (length (sextets l) + length (b64_padding (length l)) + 1 * 4)%nat by lia.
    by rewrite Nat.Div0.mod_add.
Qed.

Lemma filter_all {A} (P : A -> Prop) `{!forall x, Decision (P x)} (l : list A) : Forall P l -> filter P l = l.
Proof. induction 1 as [|x l Hx _ IH]; [done|]. rewrite filter_cons_True by done. by rewrite IH. Qed.

Lemma b64_chars_forall (P : ascii -> Prop) l :
  digits_ok 64 l -> (forall d, 0 <= d < 64 -> P (b64_char d)) -> Forall P (b64_char <$> l).
Proof. intros Hl HP. apply Forall_fmap. eapply Forall_impl; [done|]. intros d Hd. by apply HP. Qed.

Lemma strip_padding_btoa l :
  bytes_ok l -> strip_padding ((b64_char <$> sextets l) ++ b64_padding (length l)) = b64_char <$> sextets l.
Proof.
  intros Hl. destruct (sextets_length l) as [_ H0]. apply strip_padding_ok.
  - apply b64_chars_forall; [by apply sextets_ok|]. intros d Hd. by apply b64_char_facts.
  - pose proof (Nat.mod_upper_bound (3 - length l mod 3) 3). lia.
  - rewrite length_fmap. unfold b64_padding in H0. by rewrite length_replicate in H0.
Qed.

Lemma base64_roundtrip_aux l : bytes_ok l -> base64Decode (base64Encode l) = Ok l.
Proof.
  intros Hl. unfold base64Decode, base64Encode, atob. rewrite chars_str, btoa_sextets.
  pose proof (sextets_ok l Hl) as Hs. rewrite filter_all.
  2: { apply Forall_app. split; [apply b64_chars_forall; [done|]; intros d Hd; by apply b64_char_facts|].
       unfold b64_padding. by apply Forall_replicate. }
  rewrite strip_padding_btoa by done. cbv zeta. rewrite length_fmap.
  rewrite (proj2 (Nat.eqb_neq _ _)) by apply sextets_length. cbn [throw_if mbind res_bind].
  rewrite (proj2 (mapR_ok b64_val _ (sextets l))); [cbn [mbind res_bind]; by rewrite groups_sextets|].
  apply Forall2_fmap_l, Forall_Forall2_diag. eapply Forall_impl; [done|]. intros d Hd. cbv beta in Hd.
  destruct (b64_char_facts d Hd) as [Hi _]. unfold compose, b64_val. cbv zeta. rewrite Hi. by rewrite (proj2 (Z.eqb_neq d (-1))) by lia.
Qed.

Lemma base64_no_space l : bytes_ok l -> trim (base64Encode l) = base64Encode l.
Proof.
  intros Hl. apply trim_none. unfold base64Encode. rewrite chars_str, btoa_sextets. apply forallb_forall.
  intros c [Hc|Hc]%list_elem_of_In%elem_of_app.
  - apply list_elem_of_fmap in Hc as (d & -> & Hd). pose proof (sextets_ok l Hl) as Hs.
    eapply Forall_forall in Hs; [|done].
    apply (forallb_seqZ (fun d => negb (is_space (b64_char d))) 0 64); [by vm_compute|lia].
  - by apply elem_of_replicate in Hc as [-> _].
Qed.

(** ** The wallet verifies its own signatures *)

Section MessageSpec.
Context `{CryptoLaws}.

Lemma recovery_bits r : 0 <= r < 4 -> js_and (27 + r + 4 - 27) 3 = r.
Proof.
  intros Hr. apply Z.eqb_eq.
  apply (forallb_seqZ (fun r => js_and (27 + r + 4 - 27) 3 =? r) 0 4); [by vm_compute|lia].
Qed.

(** A signature of [k] verifies for exactly the addresses of the hash of its key. *)
Lemma verify_signed a net h k message sig :
  decodeAddress a net = Ok {| addr_type := p2pkh; addr_hash := h |} -> bytes_ok h ->
  signMessage k message = Ok sig ->
  verifyMessage a sig message net = Ok (bool_decide (h = hash160 (secp_publicKey k))).
Proof.
  intros Ha Hh (sg & Hsg & <-%Ok_inj)%res_bind_ok. destruct (secp_sign_range _ _ _ Hsg) as (_ & _ & Hrec).
  unfold verifyMessage. rewrite Ha. cbn [mbind res_bind addr_type throw_if].
  rewrite concatBytes_concat, !mjoin_cons. cbn [mjoin list_join]. rewrite app_nil_r.
  assert (u8arr [27 + sig_recovery sg + 4] = [27 + sig_recovery sg + 4]) as ->
    by (apply u8arr_id; apply bytes_ok_cons; [lia|apply bytes_ok_nil]).
  assert (bytes_ok ([27 + sig_recovery sg + 4] ++ sig_toCompactRawBytes sg)) as Hb
    by (apply bytes_ok_cons; [lia|apply compact_bytes]).
  rewrite base64_no_space, base64_roundtrip_aux by done. cbn [mbind res_bind app nth drop length].
  rewrite compact_length. cbn [Nat.eqb negb throw_if mbind res_bind].
  rewrite (proj2 (Z.ltb_ge _ 27)), (proj2 (Z.ltb_ge 42 _)) by lia. cbn [orb throw_if mbind res_bind].
  rewrite ?drop_0, recovery_bits by done. rewrite (compact_roundtrip _ _ _ Hsg). cbn [mbind res_bind].
  rewrite (recover_sign _ _ _ Hsg). f_equal.
  case_bool_decide as Heq.
  - rewrite Heq. apply String.eqb_refl.
  - apply String.eqb_neq. intros Hhex. apply Heq. symmetry.
    apply bytesToHex_inj in Hhex; [done|apply hash160_bytes|done].
Qed.

End MessageSpec.

(** ** The node *)

(** [ConvertBits<6, 8, false>] over the values of [decode64_table], which maps a
    character to its place in the alphabet or to -1.  A byte is complete at most
    once per character. *)
Fixpoint convert_6_8 (l : list ascii) (acc bits : Z) (ret : list Z) : option (list Z) :=
  match l with
  | [] => if (6 <=? bits) || negb (Z.land (Z.shiftl acc (8 - bits)) 255 =? 0) then None else Some ret
  | c :: l =>
      let v := indexOf B64_ALPHABET c in
      if v <? 0 then None else
      let acc := Z.land (Z.lor (Z.shiftl acc 6) v) (2 ^ 13 - 1) in
      let bits := bits + 6 in
      if 8 <=? bits then convert_6_8 l acc (bits - 8) (ret ++ [Z.land (Z.shiftr acc (bits - 8)) 255])
      else convert_6_8 l acc bits ret
  end.

(** [str.remove_suffix(1)] when the last character is an equals sign. *)
Definition drop_equals (l : list ascii) : list ascii :=
  match reverse l with c :: r => if Ascii.eqb c "=" then reverse r else l | [] => l end.

Definition DecodeBase64 (s : string) : option (list Z) :=
  let l := chars s in
  if negb (length l mod 4 =? 0)%nat then None
  else convert_6_8 (drop_equals (drop_equals l)) 0 0 [].

Inductive destination : Type := NoDestination | PKHash (hash : list Z) | OtherDestination.

Inductive MessageVerificationResult : Type :=
  | ERR_INVALID_ADDRESS | ERR_ADDRESS_NO_KEY | ERR_MALFORMED_SIGNATURE | ERR_PUBKEY_NOT_RECOVERED | ERR_NOT_SIGNED
  | MESSAGE_OK.

Section NodeMessage.
Context `{Crypto}.
(** libsecp256k1: the compressed public key recovered from a compact signature
    and a recovery id, and the uncompressed form of a compressed key. *)
Context (ecdsa_recover : list Z -> Z -> list Z -> option (list Z)) (uncompressed : list Z -> list Z).

(** [HashWriter << MESSAGE_MAGIC << message]: strings are byte vectors. *)
Definition MessageHash (message : list Z) : list Z :=
  doubleSha256 (write_blob (utf8 MESSAGE_MAGIC) ++ write_blob message).

Definition RecoverCompact (hash vchSig : list Z) : option (list Z) :=
  if negb (length vchSig =? 65)%nat then None else
  let b := nth 0 vchSig 0 - 27 in
  let recid := Z.land b 3 in
  let fComp := negb (Z.land b 4 =? 0) in
  pub ← ecdsa_recover (drop 1 vchSig) recid hash;
  Some (if fComp then pub else uncompressed pub).

(** [MessageVerify], after the address has been decoded to a destination. *)
Definition MessageVerify (d : destination) (signature : string) (message : list Z) : MessageVerificationResult :=
  match d with
  | NoDestination => ERR_INVALID_ADDRESS
  | OtherDestination => ERR_ADDRESS_NO_KEY
  | PKHash h =>
      match DecodeBase64 signature with
      | None => ERR_MALFORMED_SIGNATURE
      | Some sig =>
          match RecoverCompact (MessageHash message) sig with
          | None => ERR_PUBKEY_NOT_RECOVERED
          | Some pub => if bool_decide (hash160 pub = h) then MESSAGE_OK else ERR_NOT_SIGNED
          end
      end
  end.

Lemma messageHash_agree message : messageHash message = MessageHash (utf8 message).
Proof.
  unfold messageHash, MessageHash, doubleSha256, write_blob. do 2 f_equal. rewrite concatBytes_concat, !mjoin_cons.
  rewrite (varInt_compact (Z.of_nat (length (utf8 MESSAGE_MAGIC)))), (varInt_compact (Z.of_nat (length (utf8 message)))) by lia.
  change (mjoin ([] : list (list Z))) with ([] : list Z). by rewrite app_nil_r, <-!app_assoc.
Qed.

End NodeMessage.

(** *** The node decodes what the wallet encodes *)

Lemma lor_shift6 acc v : 0 <= v < 64 -> Z.lor (Z.shiftl acc 6) v = acc * 64 + v.
Proof.
  intros Hv. rewrite Z.shiftl_mul_pow2 by lia. change (2 ^ 6) with 64.
  rewrite <-Z.lxor_lor, <-Z.add_nocarry_lxor; [done|..]; apply Z.bits_inj'; intros n Hn;
    rewrite Z.land_spec, Z.bits_0; change 64 with (2 ^ 6);
    (destruct (Z.lt_ge_cases n 6);
     [by rewrite Z.mul_pow2_bits_low|
      replace (Z.testbit v n) with false; [by rewrite andb_false_r|]; symmetry;
      destruct (decide (v = 0)) as [->|]; [by rewrite Z.bits_0|];
      apply Z.bits_above_log2; [lia|]; assert (Z.log2 v < 6) by (apply Z.log2_lt_pow2; lia); lia]).
Qed.

(** One character, on arithmetic terms. *)
Lemma convert_step d l acc bits ret :
  0 <= d < 64 -> 0 <= bits < 8 ->
  convert_6_8 (b64_char d :: l) acc bits ret =
    (let acc' := (acc * 64 + d) mod 8192 in
     if 2 <=? bits then convert_6_8 l acc' (bits - 2) (ret ++ [acc' / 2 ^ (bits - 2) mod 256])
     else convert_6_8 l acc' (bits + 6) ret).
Proof.
  intros Hd Hb. cbn [convert_6_8]. destruct (b64_char_facts d Hd) as [-> _].
  rewrite (proj2 (Z.ltb_ge d 0)) by lia. rewrite lor_shift6 by done.
  change (2 ^ 13 - 1) with (Z.ones 13). rewrite !Z.land_ones by lia. change (2 ^ 13) with 8192. cbv zeta.
  destruct (Z.leb_spec 2 bits).
  - rewrite (proj2 (Z.leb_le 8 _)) by lia. replace (bits + 6 - 8) with (bits - 2) by lia.
    change 255 with (Z.ones 8). rewrite Z.land_ones, Z.shiftr_div_pow2 by lia. done.
  - by rewrite (proj2 (Z.leb_gt 8 _)) by lia.
Qed.

Lemma sextet_out1 x d1 d2 : 0 <= d1 < 64 -> 0 <= d2 < 64 ->
  (((x * 64 + d1) mod 8192 * 64 + d2) mod 8192) / 2 ^ 4 mod 256 = d1 * 4 + d2 / 16.
Proof. intros H1 H2. change (2 ^ 4) with 16. Z.to_euclidean_division_equations. lia. Qed.

Lemma sextet_out2 x d2 d3 : 0 <= d2 < 64 -> 0 <= d3 < 64 ->
  (((x * 64 + d2) mod 8192 * 64 + d3) mod 8192) / 2 ^ 2 mod 256 = d2 mod 16 * 16 + d3 / 4.
Proof. intros H1 H2. change (2 ^ 2) with 4. Z.to_euclidean_division_equations. lia. Qed.

Lemma sextet_out3 x d3 d4 : 0 <= d3 < 64 -> 0 <= d4 < 64 ->
  (((x * 64 + d3) mod 8192 * 64 + d4) mod 8192) / 2 ^ 0 mod 256 = d3 mod 4 * 64 + d4.
Proof. intros H1 H2. change (2 ^ 0) with 1. Z.to_euclidean_division_equations. lia. Qed.

Lemma land_shift_255 x k : 0 <= k -> Z.land (Z.shiftl x k) 255 = x * 2 ^ k mod 256.
Proof. intros Hk. change 255 with (Z.ones 8). by rewrite Z.land_ones, Z.shiftl_mul_pow2 by lia. Qed.

Lemma low_bits_4 x d : d mod 16 = 0 -> Z.land (Z.shiftl ((x * 64 + d) mod 8192) 4) 255 = 0.
Proof. intros Hd. rewrite land_shift_255 by lia. change (2 ^ 4) with 16. Z.to_euclidean_division_equations. lia. Qed.

Lemma low_bits_2 x d : d mod 4 = 0 -> Z.land (Z.shiftl ((x * 64 + d) mod 8192) 6) 255 = 0.
Proof. intros Hd. rewrite land_shift_255 by lia. change (2 ^ 6) with 64. Z.to_euclidean_division_equations. lia. Qed.

Ltac convert_step :=
  rewrite convert_step by lia; cbv zeta;
  match goal with |- context [2 <=? ?b] => let v := eval vm_compute in (2 <=? b) in change (2 <=? b) with v end;
  cbv iota;
  repeat match goal with |- context [Z.sub (Zpos ?a) (Zpos ?b)] =>
    let v := eval vm_compute in (Z.sub (Zpos a) (Zpos b)) in change (Z.sub (Zpos a) (Zpos b)) with v end;
  try change (0 + 6) with 6.

Lemma convert_sextets l acc ret :
  bytes_ok l -> convert_6_8 (b64_char <$> sextets l) acc 0 ret = Some (ret ++ l).
Proof.
  revert acc ret. induction l as [|a|a b|a b c l IH] using list_ind3; intros acc ret Hl;
    [|repeat (apply Forall_cons_1 in Hl as [? Hl]);
      repeat match goal with H : 0 <= _ < 256 |- _ => apply byte_parts in H end; cbn [sextets]; rewrite !fmap_cons..].
  - cbn [sextets fmap list_fmap convert_6_8]. rewrite land_shift_255, Z.mod_mul by lia. by rewrite app_nil_r.
  - do 2 convert_step. rewrite sextet_out1 by lia. cbn [fmap list_fmap convert_6_8]. change (8 - 4) with 4.
    rewrite low_bits_4 by (by rewrite Z.mod_mul). rewrite Z.div_mul by lia. do 3 f_equal. lia.
  - do 3 convert_step. rewrite sextet_out1, sextet_out2 by lia. cbn [fmap list_fmap convert_6_8]. change (8 - 2) with 6.
    rewrite low_bits_2 by (by rewrite Z.mod_mul). rewrite mul_add_div, mul_add_mod, Z.div_mul by lia.
    rewrite <-app_assoc. cbn [app orb Z.leb Z.compare Pos.compare Pos.compare_cont Z.eqb negb]. do 2 f_equal. repeat f_equal; lia.
  - do 4 convert_step. rewrite IH by done. rewrite sextet_out1, sextet_out2, sextet_out3 by lia.
    rewrite !mul_add_div, !mul_add_mod by lia. rewrite <-!app_assoc. cbn [app]. do 2 f_equal. repeat f_equal; lia.
Qed.

Lemma drop_equals_snoc l : drop_equals (l ++ ["="%char]) = l.
Proof. unfold drop_equals. by rewrite reverse_snoc, Ascii.eqb_refl, reverse_involutive. Qed.

Lemma drop_equals_none l : Forall (fun c => Ascii.eqb c "=" = false) l -> drop_equals l = l.
Proof.
  intros Hl%Forall_reverse. unfold drop_equals. destruct (reverse l); [done|].
  by apply Forall_cons_1 in Hl as [-> _].
Qed.

Lemma node_base64_aux l : bytes_ok l -> DecodeBase64 (base64Encode l) = Some l.
Proof.
  intros Hl. unfold DecodeBase64, base64Encode. rewrite chars_str, btoa_sextets. destruct (sextets_length l) as [_ Hm].
  rewrite length_app, length_fmap, Hm. cbn [Nat.eqb negb].
  assert (Forall (fun c => Ascii.eqb c "=" = false) (b64_char <$> sextets l)) as Hc.
  { apply b64_chars_forall; [by apply sextets_ok|]. intros d Hd. by apply b64_char_facts. }
  assert (drop_equals (drop_equals ((b64_char <$> sextets l) ++ b64_padding (length l))) = b64_char <$> sextets l) as ->.
  { unfold b64_padding. pose proof (Nat.mod_upper_bound (3 - length l mod 3) 3).
    destruct ((3 - length l mod 3) mod 3)%nat as [|[|[|]]]; [..|lia]; cbn [replicate].
    - rewrite app_nil_r. by do 2 rewrite (drop_equals_none (b64_char <$> sextets l)) by done.
    - by rewrite drop_equals_snoc, drop_equals_none.
    - change ["="%char; "="%char] with (["="%char] ++ ["="%char]). by rewrite app_assoc, !drop_equals_snoc. }
  by rewrite convert_sextets.
Qed.

(** Both curve libraries recover the same key. *)
Definition recovery_agrees `{Crypto} (ecdsa_recover : list Z -> Z -> list Z -> option (list Z)) : Prop :=
  forall bs r h, ecdsa_recover bs r h =
    match (rs ← sig_fromCompact bs; sig_recoverPublicKey rs r h) with Ok p => Some p | Throw _ => None end.

(** C31: the node's [MessageVerify] accepts the wallet's signatures: it decodes the
    Base64, computes the same message hash, recovers the signing key, and
    answers OK exactly for the hash of that key. *)
Theorem node_verifies_wallet_message `{CryptoLaws} ecdsa_recover uncompressed k message sig h
  (Hlib : recovery_agrees ecdsa_recover) (Hsign : signMessage k message = Ok sig) :
  MessageVerify ecdsa_recover uncompressed (PKHash h) sig (utf8 message) =
    if bool_decide (hash160 (secp_publicKey k) = h) then MESSAGE_OK else ERR_NOT_SIGNED.
Proof.
  apply res_bind_ok in Hsign as (sg & Hsg & <-%Ok_inj). destruct (secp_sign_range _ _ _ Hsg) as (_ & _ & Hrec).
  unfold MessageVerify. rewrite concatBytes_concat, !mjoin_cons.
  change (mjoin ([] : list (list Z))) with ([] : list Z). rewrite app_nil_r.
  assert (u8arr [27 + sig_recovery sg + 4] = [27 + sig_recovery sg + 4]) as ->
    by (apply u8arr_id; apply bytes_ok_cons; [lia|apply bytes_ok_nil]).
  rewrite node_base64_aux by (apply bytes_ok_cons; [lia|apply compact_bytes]).
  unfold RecoverCompact. cbn [app length nth drop]. rewrite compact_length, drop_0. cbn [Nat.eqb negb].
  assert (Z.land (27 + sig_recovery sg + 4 - 27) 3 = sig_recovery sg /\
          Z.land (27 + sig_recovery sg + 4 - 27) 4 <> 0) as [-> Hcomp].
  { assert ((Z.land (27 + sig_recovery sg + 4 - 27) 3 =? sig_recovery sg) &&
            negb (Z.land (27 + sig_recovery sg + 4 - 27) 4 =? 0) = true) as Hc; [|by b2p].
    apply (forallb_seqZ (fun r => (Z.land (27 + r + 4 - 27) 3 =? r) && negb (Z.land (27 + r + 4 - 27) 4 =? 0)) 0 4);
      [by vm_compute|lia]. }
  rewrite Hlib, (compact_roundtrip _ _ _ Hsg). cbn [mbind res_bind]. rewrite <-messageHash_agree.
  rewrite (recover_sign _ _ _ Hsg). cbn [mbind option_bind]. by rewrite (proj2 (Z.eqb_neq _ _) Hcomp).
Qed.

(** For signatures whose header says the key is uncompressed (27 to 30) the
    wallet and the node disagree: the wallet always compares the hash of the
    compressed key, the node the hash of the uncompressed one.  Whenever the two
    hashes differ, the wallet accepts what the node refuses. *)
Theorem message_uncompressed_header_diverges `{CryptoLaws} ecdsa_recover uncompressed a net header rest message p
  (Hlib : recovery_agrees ecdsa_recover) (Hheader : 27 <= header < 31)
  (Hrest : length rest = 64%nat) (Hok : bytes_ok rest)
  (Haddr : decodeAddress a net = Ok {| addr_type := p2pkh; addr_hash := hash160 p |})
  (Hrecover : (rs ← sig_fromCompact rest; sig_recoverPublicKey rs (header - 27) (messageHash message)) = Ok p)
  (Hdiff : hash160 (uncompressed p) <> hash160 p) :
  verifyMessage a (base64Encode (header :: rest)) message net = Ok true /\
  MessageVerify ecdsa_recover uncompressed (PKHash (hash160 p)) (base64Encode (header :: rest)) (utf8 message) = ERR_NOT_SIGNED.
Proof.
  assert (bytes_ok (header :: rest)) as Hb by (apply bytes_ok_cons; [lia|done]).
  assert (js_and (header - 27) 3 = header - 27 /\ Z.land (header - 27) 3 = header - 27 /\ Z.land (header - 27) 4 = 0) as (Hj & Hl & H4).
  { assert ((js_and (header - 27) 3 =? header - 27) && (Z.land (header - 27) 3 =? header - 27) &&
      (Z.land (header - 27) 4 =? 0) = true) as Hc; [|by b2p].
    apply (forallb_seqZ (fun r => (js_and (r - 27) 3 =? r - 27) && (Z.land (r - 27) 3 =? r - 27) &&
      (Z.land (r - 27) 4 =? 0)) 27 4); [by vm_compute|lia]. }
  split.
  - unfold verifyMessage. rewrite Haddr. cbn [mbind res_bind addr_type throw_if].
    rewrite base64_no_space, base64_roundtrip_aux by done. cbn [mbind res_bind nth drop length].
    rewrite Hrest, drop_0. cbn [Nat.eqb negb throw_if mbind res_bind].
    rewrite (proj2 (Z.ltb_ge _ 27)), (proj2 (Z.ltb_ge 42 _)) by lia. cbn [orb throw_if mbind res_bind].
    rewrite Hj, Hrecover. cbn [addr_hash]. by rewrite String.eqb_refl.
  - unfold MessageVerify. rewrite node_base64_aux by done. unfold RecoverCompact. cbn [length nth drop].
    rewrite Hrest, drop_0. cbn [Nat.eqb negb]. rewrite Hl, Hlib, <-messageHash_agree, Hrecover. cbn [mbind option_bind].
    rewrite H4. cbn [Z.eqb negb]. by rewrite bool_decide_false.
Qed.

(** ** Witnesses *)

Definition toy_recover (bs : list Z) (r : Z) (h : list Z) : option (list Z) :=
  match (rs ← @sig_fromCompact toy_crypto bs; @sig_recoverPublicKey toy_crypto rs r h) with
  | Ok p => Some p | Throw _ => None end.
Definition msg_pub : list Z := @secp_publicKey toy_crypto [9].
Definition msg_sig : string := match @signMessage toy_crypto [9] "hello" with Ok s => s | Throw _ => "" end.

Lemma node_verifies_wallet_message_witness :
  @MessageVerify toy_crypto toy_recover (fun p => 4 :: p) (PKHash (@hash160 toy_crypto msg_pub)) msg_sig (utf8 "hello") = MESSAGE_OK.
Proof.
  rewrite (@node_verifies_wallet_message toy_crypto toy_laws toy_recover (fun p => 4 :: p) [9] "hello" msg_sig);
    [by rewrite bool_decide_true|by intros bs r h|vm_compute; reflexivity].
Defined.

Definition msg_old_pub : list Z := [2; 0] ++ replicate 31 17.
Definition msg_old_address : string :=
  match @p2pkhAddress toy_crypto (@hash160 toy_crypto msg_old_pub) testnet with Ok a => a | Throw _ => "" end.

Lemma message_uncompressed_header_diverges_witness :
  @verifyMessage toy_crypto msg_old_address (base64Encode (28 :: replicate 64 1)) "hello" testnet = Ok true /\
  @MessageVerify toy_crypto toy_recover (fun p => 4 :: p) (PKHash (@hash160 toy_crypto msg_old_pub))
    (base64Encode (28 :: replicate 64 1)) (utf8 "hello") = ERR_NOT_SIGNED.
Proof.
  apply (@message_uncompressed_header_diverges toy_crypto toy_laws); [by intros bs r h|lia|done|..].
  - by apply (bool_decide_unpack _).
  - vm_compute. reflexivity.
  - vm_compute. reflexivity.
  - by vm_compute.
Defined.
