(* ===== verification/JsNum.v ===== *)
(** * JavaScript numbers

    IEEE 754 binary64 with rounding to nearest, ties to even.  A finite number
    is [m * 2^e] with [m] odd, or [0 * 2^0]; the two zeros are identified (no
    code of the repository tells them apart).  Every operation is the exact
    rational result rounded by [rn]. *)

From S2P Require Import Prelude Digits JsString.
From Stdlib Require Import QArith Lqa Qpower.

Open Scope Z_scope.
Open Scope list_scope.

Inductive num : Type :=
  | NaN
  | Inf (neg : bool)
  | Fin (m e : Z).

#[global] Instance num_eq_dec : EqDecision num.
Proof. solve_decision. Defined.

(** ** Rounding *)

Fixpoint odd_part (p : positive) (e : Z) : positive * Z :=
  match p with
  | xO p => odd_part p (e + 1)
  | _ => (p, e)
  end.

Definition norm (m e : Z) : num :=
  match m with
  | Z0 => Fin 0 0
  | Zpos p => let '(p, e) := odd_part p e in Fin (Zpos p) e
  | Zneg p => let '(p, e) := odd_part p e in Fin (Zneg p) e
  end.

(** The integer nearest to [n / d], the even one of two. *)
Definition nearest_even (n d : Z) : Z :=
  let q := n / d in
  let r := n mod d in
  if 2 * r <? d then q
  else if d <? 2 * r then q + 1
  else if Z.even q then q else q + 1.

(** [2^E <= n / d < 2^(E+1)] for positive [n] and [d]. *)
Definition exponent (n d : Z) : Z :=
  let k := Z.log2 n - Z.log2 d in
  if n * 2 ^ Z.max 0 (- k) <? d * 2 ^ Z.max 0 k then k - 1 else k.

(** The unit in the last place of the rounding of [n / d]: [2^ulp_exp]. *)
Definition ulp_exp (n d : Z) : Z := Z.max (exponent n d - 52) (-1074).

(** [n / d] for positive [n], [d]: the significand at that unit. *)
Definition rn_pos (n d : Z) : Z :=
  let e := ulp_exp n d in
  nearest_even (n * 2 ^ Z.max 0 (- e)) (d * 2 ^ Z.max 0 e).

Definition rn (n d : Z) : num :=
  if n =? 0 then Fin 0 0 else
  let a := Z.abs n in
  let e := ulp_exp a d in
  let m := rn_pos a d in
  if 2 ^ (1024 - e) <=? m then Inf (n <? 0)
  else norm (if n <? 0 then - m else m) e.

(** [m * 2^e] rounded. *)
Definition rn_dyadic (m e : Z) : num := rn (m * 2 ^ Z.max 0 e) (2 ^ Z.max 0 (- e)).

(** ** Operations *)

Definition of_Z (n : Z) : num := rn n 1.

Definition is_neg (x : num) : bool :=
  match x with NaN => false | Inf s => s | Fin m _ => m <? 0 end.
Definition is_zero (x : num) : bool := match x with Fin 0 _ => true | _ => false end.
Definition neg (x : num) : num :=
  match x with NaN => NaN | Inf s => Inf (negb s) | Fin m e => Fin (- m) e end.

Definition mul (x y : num) : num :=
  match x, y with
  | NaN, _ | _, NaN => NaN
  | Fin m1 e1, Fin m2 e2 => rn_dyadic (m1 * m2) (e1 + e2)
  | Inf s, z | z, Inf s => if is_zero z then NaN else Inf (xorb s (is_neg z))
  end.

Definition div (x y : num) : num :=
  match x, y with
  | NaN, _ | _, NaN => NaN
  | Inf _, Inf _ => NaN
  | Inf s, Fin m _ => Inf (xorb s (m <? 0))
  | Fin _ _, Inf _ => Fin 0 0
  | Fin m1 e1, Fin m2 e2 =>
      if m2 =? 0 then (if m1 =? 0 then NaN else Inf (m1 <? 0)) else
      rn (m1 * Z.sgn m2 * 2 ^ Z.max 0 (e1 - e2)) (Z.abs m2 * 2 ^ Z.max 0 (e2 - e1))
  end.

Definition add (x y : num) : num :=
  match x, y with
  | NaN, _ | _, NaN => NaN
  | Inf s, Inf t => if Bool.eqb s t then Inf s else NaN
  | Inf s, _ | _, Inf s => Inf s
  | Fin m1 e1, Fin m2 e2 =>
      let e := Z.min e1 e2 in rn_dyadic (m1 * 2 ^ (e1 - e) + m2 * 2 ^ (e2 - e)) e
  end.
Definition sub (x y : num) : num := add x (neg y).

(** [x < y] of two finite numbers, on integers. *)
Definition fin_ltb (m1 e1 m2 e2 : Z) : bool :=
  let e := Z.min e1 e2 in m1 * 2 ^ (e1 - e) <? m2 * 2 ^ (e2 - e).
Definition ltb (x y : num) : bool :=
  match x, y with
  | NaN, _ | _, NaN => false
  | Inf s, Inf t => s && negb t
  | Inf s, _ => s
  | _, Inf t => negb t
  | Fin m1 e1, Fin m2 e2 => fin_ltb m1 e1 m2 e2
  end.
Definition leb (x y : num) : bool :=
  match x, y with NaN, _ | _, NaN => false | _, _ => negb (ltb y x) end.

(** [!x] for a number: zero and NaN are falsy. *)
Definition falsy (x : num) : bool := match x with NaN => true | _ => is_zero x end.

(** [floor (m * 2^e)] *)
Definition fin_floor (m e : Z) : Z := if 0 <=? e then m * 2 ^ e else m / 2 ^ (- e).
Definition math_floor (x : num) : num := match x with Fin m e => norm (fin_floor m e) 0 | _ => x end.
(** [Math.round]: the integer nearest, halves upwards. *)
Definition fin_round (m e : Z) : Z := if 0 <=? e then m * 2 ^ e else (2 * m + 2 ^ (- e)) / 2 ^ (1 - e).
Definition math_round (x : num) : num := match x with Fin m e => norm (fin_round m e) 0 | _ => x end.
Definition math_max (x y : num) : num :=
  match x, y with NaN, _ | _, NaN => NaN | _, _ => if ltb x y then y else x end.

(** [BigInt(x)] of a number: throws unless it is an integer. *)
Definition BigInt_of_num (x : num) : res Z :=
  match x with
  | Fin m e => if 0 <=? e then Ok (m * 2 ^ e) else Throw (EngineError "RangeError: not an integer")
  | _ => Throw (EngineError "RangeError: not an integer")
  end.
(** [Number(n)] of a [BigInt]. *)
Definition Number_of_BigInt (n : Z) : num := of_Z n.

(** ** Text *)

Fixpoint span_digits (l : list ascii) : list Z * list ascii :=
  match l with
  | c :: l' => if is_digit 10 c then let '(ds, r) := span_digits l' in (digit_val c :: ds, r) else ([], l)
  | [] => ([], [])
  end.

(** An exponent part, if one with digits follows. *)
Definition exponent_part (l : list ascii) : Z * list ascii :=
  match l with
  | c :: l' =>
      if Ascii.eqb (lower c) "e" then
        let '(sign, l'') := skip_sign l' in
        match span_digits l'' with
        | ([], _) => (0, l)
        | (ds, r) => (sign * undigits 10 ds, r)
        end
      else (0, l)
  | [] => (0, [])
  end.

(** The longest unsigned decimal literal: significand, power of ten, rest. *)
Definition parse_decimal (l : list ascii) : option (Z * Z * list ascii) :=
  let '(ip, r) := span_digits l in
  let '(fp, r) := match r with
                  | c :: r' => if Ascii.eqb c "." then
                                 let '(fp, r'') := span_digits r' in
                                 match ip ++ fp with [] => ([], r) | _ => (fp, r'') end
                               else ([], r)
                  | [] => ([], r)
                  end in
  match ip ++ fp with
  | [] => None
  | ds => let '(ex, r) := exponent_part r in
          Some (undigits 10 ds, ex - Z.of_nat (length fp), r)
  end.

Definition of_decimal (m ex : Z) : num :=
  if 0 <=? ex then rn (m * 10 ^ ex) 1 else rn m (10 ^ (- ex)).

Definition signed_num (sign : Z) (x : num) : num := if sign <? 0 then neg x else x.
Definition starts_infinity (l : list ascii) : bool := startsWith (str l) "Infinity".

Definition parseFloat (s : string) : num :=
  let '(sign, l) := skip_sign (drop_spaces (chars s)) in
  if starts_infinity l then Inf (sign <? 0) else
  match parse_decimal l with
  | None => NaN
  | Some (m, ex, _) => signed_num sign (of_decimal m ex)
  end.

(** [Number(s)] of a string: the whole trimmed string is the literal. *)
Definition Number_of_string (s : string) : num :=
  let l := chars (trim s) in
  match l with
  | [] => Fin 0 0
  | _ =>
      match parse_prefixed l with
      | Some n => of_Z n
      | None =>
          let '(sign, l) := skip_sign l in
          if String.eqb (str l) "Infinity" then Inf (sign <? 0) else
          match parse_decimal l with
          | Some (m, ex, []) => signed_num sign (of_decimal m ex)
          | _ => NaN
          end
      end
  end.

(** [Number::toString]: the shortest decimal that reads back as the number,
    the closest one among those. [n / d] is the positive value, [10^(E-1) <= n/d < 10^E]. *)
Definition decimal_at (n d : Z) (E k : Z) : list (Z * Z) :=
  let ex := E - k in
  let a := n * 10 ^ Z.max 0 (- ex) in
  let b := d * 10 ^ Z.max 0 ex in
  let s := a / b in
  if 2 * (a mod b) <=? b then [(s, ex); (s + 1, ex)] else [(s + 1, ex); (s, ex)].

Definition decimal_exponent (n d : Z) : Z :=
  if d <=? n then Z.of_nat (length (digits 10 (n / d)))
  else - Z.of_nat (length (digits 10 ((d - 1) / n))) + 1.

Fixpoint shortest (x : num) (n d E : Z) (fuel : nat) (k : Z) : option (Z * Z) :=
  match fuel with
  | O => None
  | S fuel =>
      match List.find (fun c => bool_decide (of_decimal c.1 c.2 = x)) (decimal_at n d E k) with
      | Some c => Some c
      | None => shortest x n d E fuel (k + 1)
      end
  end.

(** The digits [ds] (no trailing zero) with the point after [p] of them. *)
Definition place_point (ds : list ascii) (p : Z) : string :=
  let k := Z.of_nat (length ds) in
  if (k <=? p) && (p <=? 21) then str (ds ++ replicate (Z.to_nat (p - k)) "0"%char)
  else if (0 <? p) && (p <=? 21) then str (take (Z.to_nat p) ds) +:+ "." +:+ str (drop (Z.to_nat p) ds)
  else if (-6 <? p) && (p <=? 0) then "0." +:+ str (replicate (Z.to_nat (- p)) "0"%char ++ ds)
  else str (take 1 ds) +:+ (if k =? 1 then "" else "." +:+ str (drop 1 ds)) +:+ "e" +:+
       (if 0 <? p - 1 then "+" else "") +:+ toString (p - 1).

Fixpoint drop_zeros (l : list Z) : list Z :=
  match l with 0 :: l => drop_zeros l | _ => l end.

Definition num_digits (c : Z * Z) : string :=
  let ds := digits 10 c.1 in
  place_point (digit_char <$> reverse (drop_zeros (reverse ds))) (Z.of_nat (length ds) + c.2).

Definition num_toString (x : num) : string :=
  match x with
  | NaN => "NaN"
  | Inf s => if s then "-Infinity" else "Infinity"
  | Fin m e =>
      if m =? 0 then "0" else
      let n := Z.abs m * 2 ^ Z.max 0 e in
      let d := 2 ^ Z.max 0 (- e) in
      (if m <? 0 then "-" else "") +:+
      match shortest (Fin (Z.abs m) e) n d (decimal_exponent n d) 17 1 with
      | Some c => num_digits c
      | None => ""
      end
  end.
