(* ===== verification/JsNumFacts.v ===== *)
(** * Rounding facts

    The value of a finite number as a rational, the half-unit error bound of
    [rn], exactness on representable values, and what [Math.round] returns near
    an integer. *)

From S2P Require Import Prelude Digits JsString JsNum.
From Stdlib Require Import QArith Qabs Lqa Qpower Qround.

Open Scope Z_scope.
Open Scope list_scope.

Definition fval (m e : Z) : Q := (inject_Z m * 2 ^ e)%Q.
Definition ratio (n d : Z) : Q := (inject_Z n / inject_Z d)%Q.

Lemma two_nz : ~ (2 == 0)%Q.
Proof. discriminate. Qed.

Lemma pow2_pos k : (0 < 2 ^ k)%Q.
Proof. by apply Qpower_0_lt. Qed.

Lemma pow2_plus a b : (2 ^ (a + b) == 2 ^ a * 2 ^ b)%Q.
Proof. apply Qpower_plus, two_nz. Qed.

Lemma pow2_Z k : 0 <= k -> (inject_Z (2 ^ k) == 2 ^ k)%Q.
Proof. intros Hk. by rewrite Zpower_Qpower. Qed.

Lemma pow2_le a b : a <= b -> (2 ^ a <= 2 ^ b)%Q.
Proof. intros H. apply Qpower_le_compat_l; [lia|discriminate]. Qed.

Lemma inject_pos d : 0 < d -> (0 < inject_Z d)%Q.
Proof. intros H. change 0%Q with (inject_Z 0). by rewrite <-Zlt_Qlt. Qed.

(** Moves [inject_Z] down to the atoms. *)
Ltac push_inject H :=
  unfold Z.sub in H;
  repeat first [rewrite inject_Z_opp in H | rewrite inject_Z_mult in H | rewrite inject_Z_plus in H].

(** The two integer powers that stand for [2^k]. *)
Lemma pow2_split k : (inject_Z (2 ^ Z.max 0 k) == 2 ^ k * inject_Z (2 ^ Z.max 0 (- k)))%Q.
Proof.
  rewrite !pow2_Z by lia. rewrite <-pow2_plus. 
  replace (k + Z.max 0 (- k)) with (Z.max 0 k) by lia. reflexivity.
Qed.

Lemma ratio_mult n d : 0 < d -> (ratio n d * inject_Z d == inject_Z n)%Q.
Proof.
  intros Hd. unfold ratio. field. intros E. pose proof (inject_pos d Hd). lra.
Qed.

Lemma ratio_dyadic m e : (ratio (m * 2 ^ Z.max 0 e) (2 ^ Z.max 0 (- e)) == fval m e)%Q.
Proof.
  unfold ratio, fval. rewrite inject_Z_mult, (pow2_split e).
  pose proof (inject_pos (2 ^ Z.max 0 (- e)) ltac:(lia)). field. intros E. lra.
Qed.

(** Comparing [n/d] with [2^k] on integers. *)
Lemma ratio_lt_pow n d k : 0 < d ->
  n * 2 ^ Z.max 0 (- k) < d * 2 ^ Z.max 0 k <-> (ratio n d < 2 ^ k)%Q.
Proof.
  intros Hd. rewrite (Zlt_Qlt (n * _)), !inject_Z_mult, (pow2_split k), <-(ratio_mult n d Hd).
  pose proof (inject_pos d Hd). pose proof (inject_pos (2 ^ Z.max 0 (- k)) ltac:(lia)) as Hp.
  set (p := inject_Z (2 ^ Z.max 0 (- k))) in *. set (q := inject_Z d) in *.
  assert (0 < q * p)%Q as Hqp by nra.
  split; intros Hlt.
  - apply (Qmult_lt_r _ _ _ Hqp). lra.
  - apply (Qmult_lt_r _ _ _ Hqp) in Hlt. lra.
Qed.

Lemma exponent_spec n d : 0 < n -> 0 < d ->
  (2 ^ exponent n d <= ratio n d)%Q /\ (ratio n d < 2 ^ (exponent n d + 1))%Q.
Proof.
  intros Hn Hd. unfold exponent. set (k := Z.log2 n - Z.log2 d).
  pose proof (Z.log2_spec n Hn) as [Hn1 Hn2]. pose proof (Z.log2_spec d Hd) as [Hd1 Hd2].
  pose proof (inject_pos d Hd) as Hq. pose proof (ratio_mult n d Hd) as Hr.
  pose proof (Z.log2_nonneg n). pose proof (Z.log2_nonneg d).
  rewrite Zle_Qle, pow2_Z in Hn1, Hd1 by lia. rewrite Zlt_Qlt, pow2_Z in Hn2, Hd2 by lia.
  assert (2 ^ (k - 1) <= ratio n d)%Q as Hlow.
  { apply (Qmult_le_r _ _ _ Hq). rewrite Hr.
    apply Qle_trans with (2 ^ (k - 1) * 2 ^ (Z.log2 d + 1))%Q.
    - apply Qmult_le_l; [apply pow2_pos|]. unfold Z.succ in *. lra.
    - rewrite <-pow2_plus. replace (k - 1 + (Z.log2 d + 1)) with (Z.log2 n) by lia. done. }
  assert (ratio n d < 2 ^ (k + 1))%Q as Hhigh.
  { apply (Qmult_lt_r _ _ _ Hq). rewrite Hr.
    apply Qlt_le_trans with (2 ^ (k + 1) * 2 ^ Z.log2 d)%Q.
    - rewrite <-pow2_plus. replace (k + 1 + Z.log2 d) with (Z.succ (Z.log2 n)) by lia. done.
    - apply Qmult_le_l; [apply pow2_pos|]. done. }
  destruct (Z.ltb_spec (n * 2 ^ Z.max 0 (- k)) (d * 2 ^ Z.max 0 k)) as [Hlt|Hge].
  - split; [done|]. apply ratio_lt_pow in Hlt; [|done]. by replace (k - 1 + 1) with k by lia.
  - split; [|done]. apply Qnot_lt_le. intros Hlt%ratio_lt_pow; lia.
Qed.

Lemma nearest_even_error n d : 0 < d -> 2 * Z.abs (nearest_even n d * d - n) <= d.
Proof.
  intros Hd. unfold nearest_even. pose proof (Z.div_mod n d ltac:(lia)). pose proof (Z.mod_pos_bound n d Hd).
  destruct (Z.ltb_spec (2 * (n mod d)) d); [nia|]. destruct (Z.ltb_spec d (2 * (n mod d))); [nia|].
  destruct (Z.even (n / d)); nia.
Qed.

Lemma nearest_even_exact q d : 0 < d -> nearest_even (q * d) d = q.
Proof.
  intros Hd. unfold nearest_even. rewrite Z.div_mul, Z.mod_mul by lia.
  destruct (Z.ltb_spec (2 * 0) d); [done|lia].
Qed.

(** Rounding [n/d] at the unit [2^u]. *)
Lemma round_error n d u : 0 < d ->
  let m := nearest_even (n * 2 ^ Z.max 0 (- u)) (d * 2 ^ Z.max 0 u) in
  (Qabs (fval m u - ratio n d) <= 2 ^ u * (1 # 2))%Q.
Proof.
  intros Hd m. pose proof (nearest_even_error (n * 2 ^ Z.max 0 (- u)) (d * 2 ^ Z.max 0 u) ltac:(lia)) as H.
  fold m in H. assert (0 < d * 2 ^ Z.max 0 (- u)) as Hp by lia. apply inject_pos in Hp.
  apply Qabs_Qle_condition.
  assert (- (d * 2 ^ Z.max 0 u) <= 2 * (m * (d * 2 ^ Z.max 0 u) - n * 2 ^ Z.max 0 (- u)) <= d * 2 ^ Z.max 0 u) as [H1 H2] by lia.
  rewrite Zle_Qle in H1, H2.
  push_inject H1. push_inject H2.
  rewrite pow2_split, <-(ratio_mult n d Hd) in H1, H2.
  rewrite inject_Z_mult in Hp. change (inject_Z 2) with 2%Q in *. unfold fval.
  set (p := inject_Z (2 ^ Z.max 0 (- u))) in *. set (q := inject_Z d) in *. set (r := ratio n d) in *.
  set (t := (2 ^ u)%Q) in *. set (x := inject_Z m) in *.
  split; apply (Qmult_le_r _ _ _ Hp); lra.
Qed.

(** ** Normal form *)

Lemma odd_part_spec p e p' e' : odd_part p e = (p', e') ->
  e <= e' /\ Zpos p = Zpos p' * 2 ^ (e' - e) /\ Z.odd (Zpos p') = true.
Proof.
  revert e. induction p as [p IH|p IH|]; intros e H; simpl in H.
  - injection H as <- <-. rewrite Z.sub_diag, Z.mul_1_r. done.
  - apply IH in H as (H1 & H2 & H3). split; [lia|split; [|done]].
    replace (e' - e) with (Z.succ (e' - (e + 1))) by lia. rewrite Z.pow_succ_r by lia. lia.
  - injection H as <- <-. rewrite Z.sub_diag, Z.mul_1_r. done.
Qed.

Lemma norm_spec m e : exists m' e', norm m e = Fin m' e' /\ (fval m' e' == fval m e)%Q /\
  (m <> 0 -> e <= e' /\ m = m' * 2 ^ (e' - e) /\ Z.odd m' = true).
Proof.
  assert (forall m' e', e <= e' -> m = m' * 2 ^ (e' - e) -> (fval m' e' == fval m e)%Q) as Hval.
  { intros m' e' He ->. unfold fval. rewrite inject_Z_mult, pow2_Z by lia.
    replace e' with ((e' - e) + e) at 1 by lia. rewrite pow2_plus. ring. }
  destruct m as [|p|p]; simpl.
  - exists 0, 0. split; [done|split; [|done]]. unfold fval. change (inject_Z 0) with 0%Q. lra.
  - destruct (odd_part p e) as [p' e'] eqn:E. apply odd_part_spec in E as (? & ? & ?).
    exists (Zpos p'), e'. split; [done|split; [by apply Hval|done]].
  - destruct (odd_part p e) as [p' e'] eqn:E. apply odd_part_spec in E as (? & ? & ?).
    assert (Zneg p = Zneg p' * 2 ^ (e' - e)) by lia.
    exists (Zneg p'), e'. split; [done|split; [by apply Hval|done]].
Qed.

Lemma norm_double m e : norm (2 * m) e = norm m (e + 1).
Proof. by destruct m. Qed.

Lemma norm_shift m e k : 0 <= k -> norm (m * 2 ^ k) e = norm m (e + k).
Proof.
  intros Hk. revert m e. pattern k. apply natlike_ind; [|clear k Hk; intros k Hk IH|done]; intros m e.
  - by rewrite Z.mul_1_r, Z.add_0_r.
  - rewrite Z.pow_succ_r, Z.mul_assoc, (Z.mul_comm m 2), IH by done.
    rewrite norm_double. f_equal. lia.
Qed.

Lemma norm_opp m e : norm (- m) e = neg (norm m e).
Proof. destruct m as [|p|p]; simpl; [done| |]; by destruct (odd_part p e). Qed.

(** ** Rounding *)

Lemma rn_opp n d : rn (- n) d = neg (rn n d).
Proof.
  unfold rn. rewrite Z.abs_opp. destruct (Z.eqb_spec n 0) as [->|]; [done|].
  destruct (Z.eqb_spec (- n) 0); [lia|].
  destruct (Z.leb (2 ^ _) _); simpl.
  - f_equal. destruct (Z.ltb_spec (- n) 0), (Z.ltb_spec n 0); lia || done.
  - destruct (Z.ltb_spec (- n) 0), (Z.ltb_spec n 0); try lia; [by rewrite norm_opp|].
    by rewrite norm_opp; destruct (norm _ _); simpl; rewrite ?negb_involutive, ?Z.opp_involutive.
Qed.

Lemma rn_positive n d : 0 < n -> rn n d =
  if 2 ^ (1024 - ulp_exp n d) <=? rn_pos n d then Inf false else norm (rn_pos n d) (ulp_exp n d).
Proof.
  intros Hn. unfold rn. destruct (Z.eqb_spec n 0); [lia|]. rewrite Z.abs_eq by lia.
  by destruct (Z.ltb_spec n 0); [lia|].
Qed.

(** On the normal range a rounding is finite and off by at most [2^-53] of the
    value. *)
Lemma rn_error n d : 0 < n -> 0 < d -> (2 ^ (-1022) <= ratio n d)%Q -> (ratio n d < 2 ^ 1023)%Q ->
  exists m e, rn n d = Fin m e /\ (Qabs (fval m e - ratio n d) <= ratio n d * 2 ^ (-53))%Q.
Proof.
  intros Hn Hd Hlo Hhi. destruct (exponent_spec n d Hn Hd) as [HE1 HE2].
  assert (exponent n d < 1023) as HEhi.
  { apply Z.nle_gt. intros H%pow2_le. lra. }
  assert (-1023 < exponent n d) as HElo.
  { apply Z.nle_gt. intros H. assert (exponent n d + 1 <= -1022) as H'%pow2_le by lia. lra. }
  assert (ulp_exp n d = exponent n d - 52) as Hu by (unfold ulp_exp; lia).
  pose proof (round_error n d (ulp_exp n d) Hd) as He. cbv zeta in He.
  change (nearest_even _ _) with (rn_pos n d) in He.
  assert (2 ^ ulp_exp n d * (1 # 2) <= ratio n d * 2 ^ (-53))%Q as Hb.
  { assert (2 ^ ulp_exp n d * (1 # 2) == 2 ^ exponent n d * 2 ^ (-53))%Q as ->.
    { rewrite Hu. replace (exponent n d - 52) with (exponent n d + -53 + 1) by lia. rewrite !pow2_plus. change (2^1)%Q with 2%Q. field. }
    apply Qmult_le_r; [apply pow2_pos|done]. }
  assert (Qabs (fval (rn_pos n d) (ulp_exp n d) - ratio n d) <= ratio n d * 2 ^ (-53))%Q as Herr by lra.
  rewrite rn_positive by done. destruct (Z.leb_spec (2 ^ (1024 - ulp_exp n d)) (rn_pos n d)) as [Hbig|_].
  - exfalso. rewrite Zle_Qle, pow2_Z in Hbig by lia.
    apply Qabs_Qle_condition in Herr as [_ Herr]. unfold fval in Herr.
    assert (2 ^ 1024 <= inject_Z (rn_pos n d) * 2 ^ ulp_exp n d)%Q.
    { replace 1024 with ((1024 - ulp_exp n d) + ulp_exp n d) at 1 by lia. rewrite pow2_plus.
      by apply Qmult_le_r; [apply pow2_pos|]. }
    change (2 ^ 1024)%Q with (2 ^ (1 + 1023))%Q in *. rewrite pow2_plus in *.
    assert (2 ^ (-53) <= 1 # 2)%Q by (by vm_compute). change (2 ^ 1)%Q with 2%Q in *.
    pose proof (pow2_pos 1023). pose proof (pow2_pos (-1022)). nra.
  - destruct (norm_spec (rn_pos n d) (ulp_exp n d)) as (m & e & -> & Hv & _).
    exists m, e. split; [done|]. by rewrite Hv.
Qed.

(** A significand [m] found at a finer unit. *)
Lemma rn_at_unit n d m e : 0 < n -> 0 < m -> ulp_exp n d <= e -> rn_pos n d = m * 2 ^ (e - ulp_exp n d) ->
  (fval m e < 2 ^ 1024)%Q -> rn n d = norm m e.
Proof.
  intros Hn Hm0 Hu HM Hhi. rewrite rn_positive, HM by done. set (u := ulp_exp n d) in *.
  rewrite norm_shift by lia. replace (u + (e - u)) with e by lia.
  destruct (Z.leb_spec (2 ^ (1024 - u)) (m * 2 ^ (e - u))) as [Hbig|]; [|done]. exfalso.
  assert (u <= 1024) as Hu2.
  { apply Z.nlt_ge. intros H. assert (1024 <= e) as H'%pow2_le by lia. unfold fval in Hhi.
    assert (1 <= m) as Hm1 by lia. rewrite Zle_Qle in Hm1. change (inject_Z 1) with 1%Q in Hm1.
    pose proof (pow2_pos e). nra. }
  rewrite Zle_Qle, inject_Z_mult, !pow2_Z in Hbig by lia. unfold fval in Hhi.
  apply (Qmult_le_r _ _ _ (pow2_pos u)) in Hbig.
  rewrite <-Qmult_assoc, <-!pow2_plus in Hbig. replace (1024 - u + u) with 1024 in Hbig by lia.
  replace (e - u + u) with e in Hbig by lia. lra.
Qed.

(** A representable value is not changed. *)
Lemma rn_exact n d m e : 0 < d -> 0 < m < 2 ^ 53 -> -1074 <= e -> (ratio n d == fval m e)%Q ->
  (fval m e < 2 ^ 1024)%Q -> rn n d = norm m e.
Proof.
  intros Hd [Hm0 Hm] He Hr Hhi.
  assert (0 < n) as Hn.
  { assert (0 < ratio n d)%Q as Hp.
    { rewrite Hr. apply Qmult_lt_0_compat; [by apply inject_pos|apply pow2_pos]. }
    apply Z.nle_gt. intros Hle. pose proof (ratio_mult n d Hd) as Hq. pose proof (inject_pos d Hd).
    rewrite Zle_Qle in Hle. change (inject_Z 0) with 0%Q in Hle. nra. }
  destruct (exponent_spec n d Hn Hd) as [HE1 _].
  assert (exponent n d < 53 + e) as HE.
  { apply Z.nle_gt. intros H%pow2_le. rewrite pow2_plus in H. rewrite Hr in HE1. unfold fval in HE1.
    rewrite Zlt_Qlt, pow2_Z in Hm by done. pose proof (pow2_pos e). nra. }
  assert (ulp_exp n d <= e) as Hu by (unfold ulp_exp; lia).
  set (u := ulp_exp n d) in *.
  assert (n * 2 ^ Z.max 0 (- u) = m * 2 ^ (e - u) * (d * 2 ^ Z.max 0 u)) as Heq.
  { assert (inject_Z (n * 2 ^ Z.max 0 (- u)) == inject_Z (m * 2 ^ (e - u) * (d * 2 ^ Z.max 0 u)))%Q as H.
    { rewrite !inject_Z_mult, (pow2_split u), <-(ratio_mult n d Hd), Hr, (pow2_Z (e - u)) by lia. unfold fval.
      replace e with ((e - u) + u) at 1 by lia. rewrite pow2_plus. ring. }
    by rewrite inject_Z_injective in H. }
  assert (rn_pos n d = m * 2 ^ (e - u)) as HM.
  { unfold rn_pos. fold u. rewrite Heq. apply nearest_even_exact. lia. }
  by apply rn_at_unit.
Qed.

Lemma ratio_1 n : (ratio n 1 == fval n 0)%Q.
Proof. unfold ratio, fval. change (inject_Z 1) with 1%Q. change (2 ^ 0)%Q with 1%Q. field. Qed.

Lemma of_Z_exact n : Z.abs n < 2 ^ 53 -> of_Z n = norm n 0.
Proof.
  assert (forall n, 0 < n < 2 ^ 53 -> of_Z n = norm n 0) as Hpos.
  { intros k Hk. apply rn_exact; [lia|done|lia|apply ratio_1|].
    unfold fval. change (2 ^ 0)%Q with 1%Q. rewrite Qmult_1_r. apply Qlt_trans with (inject_Z (2 ^ 53)).
    - rewrite <-Zlt_Qlt. lia.
    - by vm_compute. }
  intros Hn. destruct (Z.lt_trichotomy n 0) as [|[->|]].
  - replace n with (- (- n)) by lia. unfold of_Z. rewrite rn_opp, norm_opp. f_equal. apply Hpos. lia.
  - done.
  - apply Hpos. lia.
Qed.

(** ** Integers *)

Lemma norm_int n : exists m e, norm n 0 = Fin m e /\ 0 <= e /\ m * 2 ^ e = n.
Proof.
  destruct (norm_spec n 0) as (m & e & HN & _ & Hs). destruct (decide (n = 0)) as [->|Hn].
  - injection HN as <- <-. by exists 0, 0.
  - destruct (Hs Hn) as (He & Hm & _). exists m, e. rewrite Z.sub_0_r in Hm. split; [done|split; [lia|done]].
Qed.

Lemma BigInt_norm n : BigInt_of_num (norm n 0) = Ok n.
Proof.
  destruct (norm_int n) as (m & e & -> & He & Hm). unfold BigInt_of_num.
  destruct (Z.leb_spec 0 e); [|lia]. by rewrite Hm.
Qed.

Lemma fin_round_near m e v : (Qabs (fval m e - inject_Z v) < 1 # 2)%Q -> fin_round m e = v.
Proof.
  intros [H1 H2]%Qabs_Qlt_condition. unfold fin_round, fval in *. destruct (Z.leb_spec 0 e).
  - rewrite <-pow2_Z, <-inject_Z_mult in H1, H2 by done.
    assert (inject_Z (v - 1) < inject_Z (m * 2 ^ e))%Q as Ha by (replace (v - 1) with (v + -1) by lia; rewrite inject_Z_plus; change (inject_Z (-1)) with (-1)%Q; lra).
    assert (inject_Z (m * 2 ^ e) < inject_Z (v + 1))%Q as Hb by (rewrite inject_Z_plus; change (inject_Z 1) with 1%Q; lra).
    rewrite <-Zlt_Qlt in Ha, Hb. lia.
  - assert (2 ^ (1 - e) = 2 * 2 ^ (- e)) as Hp by (rewrite <-Z.pow_succ_r by lia; f_equal; lia).
    rewrite Hp. set (p := 2 ^ (- e)) in *. assert (0 < p) by lia.
    assert (2 ^ e * inject_Z p == 1)%Q as Hep.
    { unfold p. rewrite pow2_Z, <-pow2_plus by lia. replace (e + - e) with 0 by lia. reflexivity. }
    pose proof (inject_pos p ltac:(done)) as Hpp. set (q := inject_Z p) in *. set (t := (2 ^ e)%Q) in *.
    assert (2 * v * p - p < 2 * m < 2 * v * p + p) as [Ha Hb].
    { apply (Qmult_lt_r _ _ _ Hpp) in H1, H2.
      assert (inject_Z m == inject_Z m * t * q)%Q as Hm by (rewrite <-Qmult_assoc, Hep; ring).
      split; rewrite Zlt_Qlt; unfold Z.sub; 
        rewrite ?inject_Z_plus, ?inject_Z_opp, !inject_Z_mult; fold q; change (inject_Z 2) with 2%Q; lra. }
    symmetry. apply (Z.div_unique _ _ v (2 * m + p - v * (2 * p))); lia.
Qed.

(** ** Comparison *)

Lemma fin_ltb_spec m1 e1 m2 e2 : fin_ltb m1 e1 m2 e2 = true <-> (fval m1 e1 < fval m2 e2)%Q.
Proof.
  unfold fin_ltb. rewrite Z.ltb_lt. set (e := Z.min e1 e2).
  assert (forall m k, e <= k -> (inject_Z (m * 2 ^ (k - e)) * 2 ^ e == fval m k)%Q) as H.
  { intros m k Hk. unfold fval. rewrite inject_Z_mult, pow2_Z by lia.
    replace k with ((k - e) + e) at 2 by lia. rewrite pow2_plus. ring. }
  rewrite <-(H m1 e1), <-(H m2 e2) by lia. rewrite Zlt_Qlt. symmetry. apply Qmult_lt_r, pow2_pos.
Qed.
