(* ===== verification/NodeFee.v ===== *)
(** * Fees and sizes

    [policy/feerate.cpp], the minimum fee of [consensus/tx_verify.cpp], the
    weight of [consensus/validation.h] and the virtual size of
    [policy/policy.cpp].  [CFeeRate::GetFee] computes in doubles; for products
    below [2^53] it is the quotient rounded up. *)

From Stdlib Require Import QArith Qabs Lqa Qround.
From S2P Require Import Prelude Digits JsString Bytes Crypto JsInt Tx NodeTx Interpreter JsNum JsNumFacts.

Open Scope Z_scope.
Open Scope list_scope.

(** ** Amounts *)

Definition MAX_MONEY : Z := 2 ^ 63 - 1.
Definition MoneyRange (nValue : Z) : bool := (0 <=? nValue) && (nValue <=? MAX_MONEY).

(** ** Fee rates *)

(** [static_cast<CAmount>(std::ceil(x))] of a finite double. *)
Definition ceil_int (x : num) : Z := match x with Fin m e => - fin_floor (- m) e | _ => 0 end.

(** A rate is a number of satoshis per thousand bytes.  The product is taken in
    [int64_t]; the rates and sizes of the node stay within it. *)
Definition GetFee (nSatoshisPerK num_bytes : Z) : Z :=
  let nFee := ceil_int (div (of_Z (nSatoshisPerK * num_bytes)) (of_Z 1000)) in
  if (nFee =? 0) && negb (num_bytes =? 0) then
    (if 0 <? nSatoshisPerK then 1 else if nSatoshisPerK <? 0 then -1 else nFee)
  else nFee.

Definition MIN_TX_FEE : Z := 10000.
Definition TX_FEE_PER_KB : Z := 100000.
Definition DEFAULT_MIN_RELAY_TX_FEE : Z := 100000.
Definition DUST_RELAY_TX_FEE : Z := 100000.

(** [GetMinFee(size_t, uint32_t)]; [protocol_v3_1] is [IsProtocolV3_1(nTime)]. *)
Definition GetMinFeeOfSize (nBytes : Z) (protocol_v3_1 : bool) : Z :=
  let nBytesForFee := Z.min nBytes 0xffffffff in
  let nMinFee :=
    if protocol_v3_1 then (if nBytes <=? 100 then MIN_TX_FEE else GetFee TX_FEE_PER_KB nBytesForFee)
    else GetFee DEFAULT_MIN_RELAY_TX_FEE nBytesForFee in
  if negb (MoneyRange nMinFee) then MAX_MONEY else nMinFee.

(** ** Sizes *)

Definition WITNESS_SCALE_FACTOR : Z := 4.

Definition GetSerializeSize (witness : bool) (tx : CTransaction) : Z := Z.of_nat (length (SerializeTransaction witness tx)).

Definition GetTransactionWeight (tx : CTransaction) : Z :=
  GetSerializeSize false tx * (WITNESS_SCALE_FACTOR - 1) + GetSerializeSize true tx.

(** Weight, cost of signature operations and bytes per operation. *)
Definition VirtualSize (nWeight nSigOpCost bytes_per_sigop : Z) : Z :=
  (Z.max nWeight (nSigOpCost * bytes_per_sigop) + WITNESS_SCALE_FACTOR - 1) / WITNESS_SCALE_FACTOR.

Definition GetVirtualTransactionSize (tx : CTransaction) : Z := VirtualSize (GetTransactionWeight tx) 0 0.

Definition GetMinFee (tx : CTransaction) (protocol_v3_1 : bool) : Z :=
  GetMinFeeOfSize (GetVirtualTransactionSize tx) protocol_v3_1.

(** ** Rounding up *)

Lemma ceil_between m e v : (inject_Z (v - 1) < fval m e)%Q -> (fval m e <= inject_Z v)%Q -> - fin_floor (- m) e = v.
Proof.
  intros H1 H2. unfold fin_floor, fval in *. destruct (Z.leb_spec 0 e) as [He|He].
  - rewrite <-pow2_Z, <-inject_Z_mult in H1, H2 by done. rewrite <-Zlt_Qlt in H1. rewrite <-Zle_Qle in H2. lia.
  - set (p := 2 ^ (- e)) in *. assert (0 < p) as Hp by (apply Z.pow_pos_nonneg; lia).
    assert (2 ^ e * inject_Z p == 1)%Q as Hep.
    { unfold p. rewrite pow2_Z, <-pow2_plus by lia. replace (e + - e) with 0 by lia. reflexivity. }
    pose proof (inject_pos p Hp) as Hpp.
    assert (inject_Z m == inject_Z m * 2 ^ e * inject_Z p)%Q as Hm by (rewrite <-Qmult_assoc, Hep; ring).
    assert ((v - 1) * p < m /\ m <= v * p) as [Ha Hb].
    { apply (Qmult_lt_r _ _ _ Hpp) in H1. apply (Qmult_le_r _ _ _ Hpp) in H2.
      rewrite Zlt_Qlt, Zle_Qle, !inject_Z_mult, Hm. split; [exact H1|exact H2]. }
    rewrite <-(Z.div_unique (- m) p (- v) (v * p - m)); lia.
Qed.

Lemma div_1000 p : 0 < p < 2 ^ 53 ->
  exists n d, div (of_Z p) (of_Z 1000) = rn n d /\ 0 < n /\ 0 < d /\ (ratio n d == ratio p 1000)%Q.
Proof.
  intros Hp. rewrite (of_Z_exact p) by lia. destruct (norm_int p) as (m & e & -> & He & Hm).
  change (of_Z 1000) with (Fin 125 3). unfold div. change (125 =? 0) with false. cbv iota. change (Z.sgn 125) with 1. change (Z.abs 125) with 125.
  assert (0 < m) as Hm0 by (destruct (Z.lt_trichotomy m 0) as [|[->|]]; [nia|lia|done]).
  assert (0 < 2 ^ Z.max 0 (e - 3)) by (apply Z.pow_pos_nonneg; lia). assert (0 < 2 ^ Z.max 0 (3 - e)) by (apply Z.pow_pos_nonneg; lia).
  eexists _, _. split; [reflexivity|]. split; [nia|]. split; [nia|]. unfold ratio. rewrite !inject_Z_mult.
  assert (inject_Z p == inject_Z m * 2 ^ e)%Q as -> by (by rewrite <-Hm, inject_Z_mult, pow2_Z).
  pose proof (pow2_split (e - 3)) as Hs. replace (- (e - 3)) with (3 - e) in Hs by lia. rewrite Hs.
  assert (2 ^ e == 2 ^ (e - 3) * 8)%Q as -> by (replace e with ((e - 3) + 3) at 1 by lia; rewrite pow2_plus; reflexivity).
  change (inject_Z 1) with 1%Q.
  pose proof (inject_pos (2 ^ Z.max 0 (3 - e)) ltac:(done)). change (inject_Z 1000) with (1000 # 1)%Q. change (inject_Z 125) with (125 # 1)%Q. field.
  lra.
Qed.

Lemma fee_rounds_up p : 0 < p < 2 ^ 53 -> ceil_int (div (of_Z p) (of_Z 1000)) = (p + 999) / 1000.
Proof.
  intros Hp. destruct (div_1000 p Hp) as (n & d & -> & Hn & Hd & Hr). set (v := (p + 999) / 1000).
  assert (1000 * v - 999 <= p <= 1000 * v) as [Hlo Hhi] by (pose proof (Z.div_mod (p + 999) 1000); pose proof (Z.mod_pos_bound (p + 999) 1000); lia).
  assert (0 < v) by lia. destruct (decide (p = 1000 * v)) as [Heq|Hne].
  - assert (ratio n d == fval v 0)%Q as Hv.
    { rewrite Hr, Heq. unfold ratio, fval. rewrite inject_Z_mult. change (2 ^ 0)%Q with 1%Q. change (inject_Z 1000) with (1000 # 1)%Q. field. }
    rewrite (rn_exact n d v 0) by (done || lia || (unfold fval; change (2 ^ 0)%Q with 1%Q; rewrite Qmult_1_r, <-(pow2_Z 1024), <-Zlt_Qlt by done; lia)).
    destruct (norm_int v) as (m & e & -> & He & Hm). cbn [ceil_int]. unfold fin_floor. rewrite (proj2 (Z.leb_le 0 e)) by done. lia.
  - assert (ratio p 1000 == inject_Z p * (1 # 1000))%Q as Hq by (unfold ratio; change (inject_Z 1000) with (1000 # 1)%Q; field).
    assert (inject_Z p < 9007199254740992 # 1)%Q as Hmax by (change (9007199254740992 # 1)%Q with (inject_Z (2 ^ 53)); rewrite <-Zlt_Qlt; lia).
    assert (1 <= inject_Z p)%Q as Hmin by (change 1%Q with (inject_Z 1); rewrite <-Zle_Qle; lia).
    assert (2 ^ (-1022) <= 1 # 1000)%Q as Htiny by (by vm_compute). assert (9007199254741 # 1 < 2 ^ 1023)%Q as Hhuge by (by vm_compute).
    destruct (rn_error n d Hn Hd) as (m & e & -> & Herr); [rewrite Hr, Hq; lra|rewrite Hr, Hq; lra|].
    cbn [ceil_int]. rewrite Hr, Hq in Herr. change (2 ^ (-53))%Q with (1 # 9007199254740992)%Q in Herr.
    apply Qabs_Qle_condition in Herr as [Ha Hb].
    assert (1000 * v - 999 <= p <= 1000 * v - 1) as [Hl Hu] by lia.
    rewrite Zle_Qle in Hl, Hu. unfold Z.sub in Hl, Hu. rewrite inject_Z_plus, inject_Z_mult in Hl, Hu.
    change (inject_Z 1000) with (1000 # 1)%Q in *. change (inject_Z (- (999))) with (- 999 # 1)%Q in *. change (inject_Z (- (1))) with (- 1 # 1)%Q in *.
    apply ceil_between; [unfold Z.sub; rewrite inject_Z_plus; change (inject_Z (- (1))) with (- 1 # 1)%Q|]; lra.
Qed.

Lemma GetFee_rounds_up rate size : 0 <= rate -> 0 <= size -> rate * size < 2 ^ 53 -> GetFee rate size = (rate * size + 999) / 1000.
Proof.
  intros Hr Hs Hp. unfold GetFee. destruct (decide (rate * size = 0)) as [Hz|Hz].
  - rewrite Hz. change (ceil_int _) with 0. change ((0 + 999) / 1000) with 0. change (0 =? 0) with true. cbn [andb].
    destruct (Z.eqb_spec size 0) as [|Hne]; [done|]. cbn [negb]. assert (rate = 0) as -> by nia. done.
  - rewrite fee_rounds_up by nia. set (v := (rate * size + 999) / 1000).
    assert (0 < v) by (apply Z.div_str_pos; nia). by rewrite (proj2 (Z.eqb_neq v 0)) by lia.
Qed.
