(* ===== verification/Arith256.v ===== *)
(** * 256-bit targets

    [arith_uint256] of the node as integers modulo [2^256], and the compact form
    of a target in a block header ([arith_uint256.cpp]: [SetCompact],
    [GetCompact]). *)

From S2P Require Import Prelude Digits.

Open Scope Z_scope.
Open Scope list_scope.

Definition u256 (z : Z) : Z := z mod 2 ^ 256.

(** [bits]: the position of the highest bit, counted from 1. *)
Definition bits (a : Z) : Z := if a =? 0 then 0 else Z.log2 a + 1.

(** The target, and the two flags. *)
Record compact : Type := { c_target : Z; fNegative : bool; fOverflow : bool }.

Definition SetCompact (nCompact : Z) : compact :=
  let nSize := Z.shiftr nCompact 24 in
  let nWord := Z.land nCompact 0x007fffff in
  let '(nWord, target) :=
    if nSize <=? 3 then let w := Z.shiftr nWord (8 * (3 - nSize)) in (w, w)
    else (nWord, u256 (Z.shiftl nWord (8 * (nSize - 3)))) in
  {| c_target := target;
     fNegative := negb (nWord =? 0) && negb (Z.land nCompact 0x00800000 =? 0);
     fOverflow := negb (nWord =? 0) &&
       ((34 <? nSize) || ((0xff <? nWord) && (33 <? nSize)) || ((0xffff <? nWord) && (32 <? nSize))) |}.

(** [GetCompact], of a number that is not negative.  [GetLow64] is the remainder
    modulo [2^64], which [nCompact] cuts to 32 bits. *)
Definition GetCompact (a : Z) : Z :=
  let nSize := (bits a + 7) / 8 in
  let nCompact :=
    if nSize <=? 3 then (Z.shiftl (a mod 2 ^ 64) (8 * (3 - nSize))) mod 2 ^ 32
    else (Z.shiftr a (8 * (nSize - 3)) mod 2 ^ 64) mod 2 ^ 32 in
  let '(nCompact, nSize) :=
    if negb (Z.land nCompact 0x00800000 =? 0) then (Z.shiftr nCompact 8, nSize + 1) else (nCompact, nSize) in
  Z.lor nCompact (Z.shiftl nSize 24).

(** ** The two are inverse up to rounding *)

Lemma bits_spec a : 0 < a -> 2 ^ (bits a - 1) <= a < 2 ^ bits a.
Proof.
  intros Ha. unfold bits. destruct (Z.eqb_spec a 0); [lia|]. pose proof (Z.log2_spec a Ha) as [H1 H2].
  replace (Z.log2 a + 1 - 1) with (Z.log2 a) by lia. by rewrite Z.add_1_r.
Qed.

(** The number of bytes of a number. *)
Definition size_of (a : Z) : Z := (bits a + 7) / 8.

Lemma size_of_spec a : 0 < a -> 1 <= size_of a /\ 2 ^ (8 * (size_of a - 1)) <= a < 2 ^ (8 * size_of a).
Proof.
  intros Ha. pose proof (bits_spec a Ha) as [H1 H2]. unfold size_of.
  assert (1 <= bits a) by (unfold bits; destruct (Z.eqb_spec a 0); [lia|]; pose proof (Z.log2_nonneg a); lia).
  pose proof (Z.div_mod (bits a + 7) 8 ltac:(lia)) as Hd. pose proof (Z.mod_pos_bound (bits a + 7) 8 ltac:(lia)).
  set (n := (bits a + 7) / 8) in *. split; [lia|]. split.
  - etrans; [|exact H1]. apply Z.pow_le_mono_r; lia.
  - eapply Z.lt_le_trans; [exact H2|]. apply Z.pow_le_mono_r; lia.
Qed.

Lemma size_of_bounds a n : 1 <= n -> 2 ^ (8 * (n - 1)) <= a < 2 ^ (8 * n) -> size_of a = n.
Proof.
  intros Hn [H1 H2]. assert (0 < a) as Ha by (pose proof (Z.pow_pos_nonneg 2 (8 * (n - 1)) ltac:(lia) ltac:(lia)); lia).
  destruct (size_of_spec a Ha) as (H0 & H3 & H4). apply Z.le_antisymm.
  - apply Z.lt_succ_r, Z.nle_gt. intros Hc.
    assert (2 ^ (8 * n) <= 2 ^ (8 * (size_of a - 1))) by (apply Z.pow_le_mono_r; lia). lia.
  - apply Z.lt_succ_r, Z.nle_gt. intros Hc.
    assert (2 ^ (8 * size_of a) <= 2 ^ (8 * (n - 1))) by (apply Z.pow_le_mono_r; lia). lia.
Qed.

(** A mantissa of three bytes and a size: what [GetCompact] writes. *)
Definition compact_of (mantissa nSize : Z) : Z := mantissa + nSize * 2 ^ 24.

Lemma compact_fields m n :
  0 <= m < 0x00800000 -> 0 <= n < 256 ->
  Z.shiftr (compact_of m n) 24 = n /\ Z.land (compact_of m n) 0x007fffff = m /\ Z.land (compact_of m n) 0x00800000 = 0.
Proof.
  intros Hm Hn. unfold compact_of. rewrite Z.shiftr_div_pow2 by lia. split; [|split].
  - rewrite Z.div_add by lia. rewrite Z.div_small by lia. lia.
  - change 0x007fffff with (Z.ones 23). rewrite Z.land_ones by lia. replace (n * 2 ^ 24) with (n * 2 * 2 ^ 23) by lia.
    rewrite Z.mod_add by lia. apply Z.mod_small. lia.
  - apply Z.bits_inj'. intros k Hk. rewrite Z.land_spec, Z.bits_0. destruct (Z.eq_dec k 23) as [->|Hne].
    + replace (Z.testbit (m + n * 2 ^ 24) 23) with false; [done|]. symmetry.
      rewrite Z.testbit_false by lia.
      replace (n * 2 ^ 24) with (n * 2 * 2 ^ 23) by lia. rewrite Z.div_add by lia. rewrite (Z.div_small m) by lia. rewrite Z.add_0_l.
      apply Z.mod_mul. lia.
    + change 0x00800000 with (2 ^ 23). rewrite Z.pow2_bits_false by lia. by rewrite andb_false_r.
Qed.

(** The target of a mantissa and a size. *)
Definition scaled (m n : Z) : Z := if n <=? 3 then m / 2 ^ (8 * (3 - n)) else m * 2 ^ (8 * (n - 3)).

Lemma pow_split a b : 0 <= a -> 0 <= b -> 2 ^ (a + b) = 2 ^ a * 2 ^ b.
Proof. intros. by apply Z.pow_add_r. Qed.

(** The leading three bytes, before the sign bit is cleared. *)
Lemma leading a : 0 < a < 2 ^ 256 ->
  let s := size_of a in
  let m := if s <=? 3 then a * 2 ^ (8 * (3 - s)) else a / 2 ^ (8 * (s - 3)) in
  1 <= s <= 32 /\ 2 ^ 16 <= m < 2 ^ 24 /\ scaled m s <= a /\ a - scaled m s < 2 ^ (8 * (s - 3)) + (if s <=? 3 then 1 else 0) /\
  (s <= 3 -> scaled m s = a).
Proof.
  intros [Ha Hb] s m. destruct (size_of_spec a Ha) as (Hs & H1 & H2). fold s in Hs, H1, H2.
  assert (s <= 32) as Hs2.
  { apply Z.lt_succ_r, Z.nle_gt. intros Hc. assert (2 ^ 256 <= 2 ^ (8 * (s - 1))) by (apply Z.pow_le_mono_r; lia). lia. }
  split; [lia|]. unfold scaled, m. destruct (Z.leb_spec s 3) as [Hs3|Hs3].
  - assert (2 ^ (8 * (s - 1)) * 2 ^ (8 * (3 - s)) = 2 ^ 16) as E1 by (rewrite <-Z.pow_add_r by lia; f_equal; lia).
    assert (2 ^ (8 * s) * 2 ^ (8 * (3 - s)) = 2 ^ 24) as E2 by (rewrite <-Z.pow_add_r by lia; f_equal; lia).
    pose proof (Z.pow_pos_nonneg 2 (8 * (3 - s)) ltac:(lia) ltac:(lia)). rewrite Z.div_mul by lia.
    pose proof (Z.pow_nonneg 2 (8 * (s - 3)) ltac:(lia)). split; [nia|]. lia.
  - set (k := 2 ^ (8 * (s - 3))). assert (0 < k) as Hk by (apply Z.pow_pos_nonneg; lia).
    assert (2 ^ (8 * (s - 1)) = 2 ^ 16 * k) as E1 by (unfold k; rewrite <-Z.pow_add_r by lia; f_equal; lia).
    assert (2 ^ (8 * s) = 2 ^ 24 * k) as E2 by (unfold k; rewrite <-Z.pow_add_r by lia; f_equal; lia).
    pose proof (Z.div_mod a k ltac:(lia)). pose proof (Z.mod_pos_bound a k Hk).
    split; [split; [apply Z.div_le_lower_bound; lia|apply Z.div_lt_upper_bound; lia]|]. lia.
Qed.

(** The mantissa without the sign bit, and its size. *)
Definition mantissa (a : Z) : Z * Z :=
  let s := size_of a in
  let m := if s <=? 3 then a * 2 ^ (8 * (3 - s)) else a / 2 ^ (8 * (s - 3)) in
  if m <? 2 ^ 23 then (m, s) else (m / 256, s + 1).

Lemma sign_bit m : 0 <= m < 2 ^ 24 -> (Z.land m 0x00800000 =? 0) = (m <? 2 ^ 23).
Proof.
  intros Hm. change 0x00800000 with (2 ^ 23). destruct (Z.ltb_spec m (2 ^ 23)) as [Hlt|Hge].
  - apply Z.eqb_eq. apply Z.bits_inj'. intros k Hk. rewrite Z.land_spec, Z.bits_0. destruct (Z.eq_dec k 23) as [->|Hne].
    + replace (Z.testbit m 23) with false; [done|]. symmetry. rewrite Z.testbit_false by lia. by rewrite Z.div_small by lia.
    + rewrite Z.pow2_bits_false by lia. apply andb_false_r.
  - apply Z.eqb_neq. intros E. assert (Z.testbit (Z.land m (2 ^ 23)) 23 = true) as Ht; [|by rewrite E in Ht].
    rewrite Z.land_spec, Z.pow2_bits_true by lia. rewrite andb_true_r. apply Z.testbit_true; [lia|].
    assert (m / 2 ^ 23 = 1) as -> by (apply Z.le_antisymm; [apply Z.lt_succ_r, Z.div_lt_upper_bound; lia|apply Z.div_le_lower_bound; lia]). done.
Qed.

Lemma land_high m n k : 0 <= k -> 0 <= m < 2 ^ k -> Z.land m (Z.shiftl n k) = 0.
Proof.
  intros Hk Hm. apply Z.bits_inj'. intros j Hj. rewrite Z.land_spec, Z.bits_0. destruct (Z.ltb_spec j k).
  - rewrite Z.shiftl_spec_low by lia. apply andb_false_r.
  - replace (Z.testbit m j) with false; [done|]. symmetry. rewrite Z.testbit_false by lia.
    assert (2 ^ k <= 2 ^ j) by (apply Z.pow_le_mono_r; lia). by rewrite Z.div_small by lia.
Qed.

Lemma lor_fields m n : 0 <= m < 2 ^ 24 -> Z.lor m (Z.shiftl n 24) = compact_of m n.
Proof.
  intros Hm. unfold compact_of. pose proof (land_high m n 24 ltac:(lia) Hm) as Hl.
  rewrite <-Z.lxor_lor, <-Z.add_nocarry_lxor by done. by rewrite Z.shiftl_mul_pow2 by lia.
Qed.

Lemma GetCompact_mantissa a : 0 < a < 2 ^ 256 -> GetCompact a = compact_of (mantissa a).1 (mantissa a).2.
Proof.
  intros Ha. destruct (leading a Ha) as (Hs & Hm & _). unfold GetCompact, mantissa. fold (size_of a).
  set (s := size_of a) in *. set (m := if s <=? 3 then a * _ else _) in *.
  assert ((if s <=? 3 then Z.shiftl (a mod 2 ^ 64) (8 * (3 - s)) mod 2 ^ 32 else Z.shiftr a (8 * (s - 3)) mod 2 ^ 64 mod 2 ^ 32) = m) as ->.
  { unfold m in *. destruct (Z.leb_spec s 3).
    - assert (a < 2 ^ 24) by (destruct (size_of_spec a ltac:(lia)) as (_ & _ & H2); fold s in H2; eapply Z.lt_le_trans; [exact H2|]; apply Z.pow_le_mono_r; lia).
      rewrite (Z.mod_small a) by lia. rewrite Z.shiftl_mul_pow2 by lia. apply Z.mod_small. lia.
    - rewrite Z.shiftr_div_pow2 by lia. rewrite (Z.mod_small _ (2 ^ 64)) by lia. by rewrite Z.mod_small by lia. }
  rewrite sign_bit by lia. destruct (Z.ltb_spec m (2 ^ 23)); cbn [negb fst snd]; [apply lor_fields; lia|].
  rewrite Z.shiftr_div_pow2 by lia. change (2 ^ 8) with 256. apply lor_fields.
  split; [apply Z.div_pos; lia|apply Z.div_lt_upper_bound; lia].
Qed.

Lemma mantissa_spec a : 0 < a < 2 ^ 256 ->
  let '(m, n) := mantissa a in
  2 ^ 15 <= m < 2 ^ 23 /\ 1 <= n <= 33 /\ (n = 33 -> m < 2 ^ 16) /\
  scaled m n <= a /\ (n <= 3 -> scaled m n = a) /\ (3 < n -> a - scaled m n < 2 ^ (8 * (n - 3))).
Proof.
  intros Ha. destruct (leading a Ha) as (Hs & Hm & Hle & Hlt & Heq). unfold mantissa. set (s := size_of a) in *.
  set (m := if s <=? 3 then a * _ else _) in *. destruct (Z.ltb_spec m (2 ^ 23)) as [Hm23|Hm23].
  - split; [lia|]. split; [lia|]. split; [lia|]. split; [done|]. split; [done|]. intros Hs3. rewrite (proj2 (Z.leb_gt s 3)) in Hlt by lia. lia.
  - assert (2 ^ 15 <= m / 256 < 2 ^ 16) as Hd by (split; [apply Z.div_le_lower_bound; lia|apply Z.div_lt_upper_bound; lia]).
    split; [lia|]. split; [lia|]. split; [lia|]. unfold scaled in *. pose proof (Z.div_mod m 256 ltac:(lia)). pose proof (Z.mod_pos_bound m 256 ltac:(lia)).
    clearbody m. destruct (Z.leb_spec s 3) as [Hs3|Hs3].
    + specialize (Heq Hs3). destruct (Z.leb_spec (s + 1) 3) as [Hs4|Hs4].
      * assert (m / 256 / 2 ^ (8 * (3 - (s + 1))) = a) as ->; [|lia]. rewrite Z.div_div by (try apply Z.pow_pos_nonneg; lia).
        change 256 with (2 ^ 8). rewrite <-Z.pow_add_r by lia. rewrite <-Heq. do 2 f_equal. lia.
      * assert (s = 3) as E3 by lia. rewrite E3 in *. change (2 ^ (8 * (3 - 3))) with 1 in *. change (2 ^ (8 * (3 + 1 - 3))) with 256. rewrite Z.div_1_r in Heq. lia.
    + rewrite (proj2 (Z.leb_gt (s + 1) 3)) by lia. set (k := 2 ^ (8 * (s - 3))) in *.
      assert (2 ^ (8 * (s + 1 - 3)) = 256 * k) as -> by (unfold k; change 256 with (2 ^ 8); rewrite <-Z.pow_add_r by lia; f_equal; lia).
      assert (0 < k) by (apply Z.pow_pos_nonneg; lia). split; [nia|]. split; [lia|]. intros _. nia.
Qed.

Lemma SetCompact_of m n : 0 <= m < 2 ^ 23 -> 1 <= n <= 33 -> (n = 33 -> m < 2 ^ 16) -> scaled m n < 2 ^ 256 ->
  SetCompact (compact_of m n) = {| c_target := scaled m n; fNegative := false; fOverflow := false |}.
Proof.
  intros Hm Hn Hn33 Hlt. destruct (compact_fields m n) as (E1 & E2 & E3); [lia|lia|]. unfold SetCompact, scaled in *. rewrite E1, E2, E3.
  change (0 =? 0) with true. cbn [negb]. destruct (Z.leb_spec n 3); cbn [andb negb]; rewrite andb_false_r.
  - rewrite Z.shiftr_div_pow2 by lia. rewrite (proj2 (Z.ltb_ge 34 n)), (proj2 (Z.ltb_ge 33 n)), (proj2 (Z.ltb_ge 32 n)), !andb_false_r by lia. done.
  - rewrite Z.shiftl_mul_pow2 by lia. unfold u256. rewrite Z.mod_small by (split; [pose proof (Z.pow_nonneg 2 (8 * (n - 3)) ltac:(lia)); nia|done]).
    rewrite (proj2 (Z.ltb_ge 34 n)), (proj2 (Z.ltb_ge 33 n)) by lia. rewrite andb_false_r.
    destruct (Z.ltb_spec 32 n); [|by rewrite !andb_false_r]. rewrite (proj2 (Z.ltb_ge 0xffff m)) by lia. by rewrite andb_false_r.
Qed.

(** A target that has a compact form is written as that form again. *)
Lemma mantissa_scaled m n : 2 ^ 15 <= m < 2 ^ 23 -> 3 < n <= 33 -> mantissa (scaled m n) = (m, n).
Proof.
  intros Hm Hn. unfold scaled. rewrite (proj2 (Z.leb_gt n 3)) by lia. set (k := 2 ^ (8 * (n - 3))).
  assert (0 < k) as Hk by (apply Z.pow_pos_nonneg; lia). unfold mantissa. destruct (Z.ltb_spec m (2 ^ 16)) as [H16|H16].
  - assert (size_of (m * k) = n - 1) as ->.
    { apply size_of_bounds; [lia|]. assert (k = 2 ^ (8 * (n - 4)) * 2 ^ 8) as -> by (unfold k; rewrite <-Z.pow_add_r by lia; f_equal; lia).
      assert (2 ^ (8 * (n - 1 - 1)) = 2 ^ 16 * 2 ^ (8 * (n - 4))) as -> by (rewrite <-Z.pow_add_r by lia; f_equal; lia).
      assert (2 ^ (8 * (n - 1)) = 2 ^ 24 * 2 ^ (8 * (n - 4))) as -> by (rewrite <-Z.pow_add_r by lia; f_equal; lia).
      pose proof (Z.pow_pos_nonneg 2 (8 * (n - 4)) ltac:(lia) ltac:(lia)). nia. }
    assert ((if n - 1 <=? 3 then m * k * 2 ^ (8 * (3 - (n - 1))) else m * k / 2 ^ (8 * (n - 1 - 3))) = m * 256) as ->.
    { destruct (Z.leb_spec (n - 1) 3).
      - assert (n = 4) as E4 by lia. unfold k. rewrite E4. change (2 ^ (8 * (4 - 3))) with 256. change (2 ^ (8 * (3 - (4 - 1)))) with 1. lia.
      - assert (k = 256 * 2 ^ (8 * (n - 1 - 3))) as -> by (unfold k; change 256 with (2 ^ 8); rewrite <-Z.pow_add_r by lia; f_equal; lia).
        rewrite Z.mul_assoc, Z.div_mul; [done|]. apply Z.pow_nonzero; lia. }
    rewrite (proj2 (Z.ltb_ge (m * 256) _)) by lia. rewrite Z.div_mul by lia. f_equal. lia.
  - assert (size_of (m * k) = n) as ->.
    { apply size_of_bounds; [lia|]. assert (2 ^ (8 * (n - 1)) = 2 ^ 16 * k) as -> by (unfold k; rewrite <-Z.pow_add_r by lia; f_equal; lia).
      assert (2 ^ (8 * n) = 2 ^ 24 * k) as -> by (unfold k; rewrite <-Z.pow_add_r by lia; f_equal; lia). nia. }
    rewrite (proj2 (Z.leb_gt n 3)) by lia. fold k. rewrite Z.div_mul by lia. by rewrite (proj2 (Z.ltb_lt m _)) by lia.
Qed.

(** The compact form of a target keeps its leading bits and rounds down.  For
    every 256-bit number the form read back is never negative and never
    overflows, is at most the number, differs from it by at most one part in
    [2^15], and has that same form again. *)
Lemma compact_codec a :
  0 <= a < 2 ^ 256 ->
  let c := GetCompact a in
  let t := c_target (SetCompact c) in
  SetCompact c = {| c_target := t; fNegative := false; fOverflow := false |} /\
  0 <= t <= a /\ (a - t) * 2 ^ 15 <= t /\ GetCompact t = c.
Proof.
  intros Ha c t. subst c t. destruct (Z.eq_dec a 0) as [->|Hne]; [by vm_compute|].
  rewrite (GetCompact_mantissa a) by lia. pose proof (mantissa_spec a ltac:(lia)) as H. destruct (mantissa a) as [m n] eqn:Em.
  destruct H as (Hm & Hn & Hn33 & Hle & Heq & Hlt). cbn [fst snd]. rewrite SetCompact_of by (done || lia). cbn [c_target]. split; [done|].
  destruct (Z.leb_spec n 3) as [H3|H3].
  - rewrite Heq by lia. split; [lia|]. split; [lia|]. by rewrite (GetCompact_mantissa a), Em by lia.
  - specialize (Hlt H3). set (k := 2 ^ (8 * (n - 3))) in *. assert (0 < k) by (apply Z.pow_pos_nonneg; lia).
    assert (scaled m n = m * k) as Es by (unfold scaled; by rewrite (proj2 (Z.leb_gt n 3)) by lia).
    split; [nia|]. split; [nia|]. rewrite GetCompact_mantissa by nia. by rewrite mantissa_scaled by lia.
Qed.
