(* ===== verification/ConsensusParams.v ===== *)
(** * Parameters of the consensus

    [Consensus::Params] of the node ([consensus/params.h]) with the values of the
    main network ([kernel/chainparams.cpp]), the times at which the versions of
    the protocol begin, the drift allowed to a clock, and the amount a block may create ([validation.cpp]:
    [GetBlockSubsidy], [GetProofOfStakeReward]). *)

From S2P Require Import Prelude.

Open Scope Z_scope.

Inductive ChainType : Type := MAIN | TESTNET | SIGNET | REGTEST.

(** The fields the modelled code reads, with the type of the chain they belong to. *)
Record Params : Type := {
  chain_type : ChainType;
  nMaxReorganizationDepth : Z;
  powLimit : Z;
  posLimit : Z;
  posLimitV2 : Z;
  nTargetSpacingV1 : Z;
  fPowNoRetargeting : bool;
  fPoSNoRetargeting : bool;
  nTargetSpacing : Z;
  nTargetTimespan : Z;
  nProtocolV1RetargetingFixedTime : Z;
  nProtocolV2Time : Z;
  nProtocolV3Time : Z;
  nProtocolV3_1Time : Z;
  nLastPOWBlock : Z;
  nStakeTimestampMask : Z;
  nCoinbaseMaturity : Z;
  nPremineTotal : Z;
  nPowSubsidy : Z;
  nFixedStakeReward : Z;
  nRewardHalvingInterval : Z
}.

Definition IsProtocolV1RetargetingFixed (params : Params) (nTime : Z) : bool :=
  (nProtocolV1RetargetingFixedTime params <? nTime) && negb (nTime =? 1395631999).
Definition IsProtocolV2 (params : Params) (nTime : Z) : bool := (nProtocolV2Time params <? nTime) && negb (nTime =? 1407053678).
Definition IsProtocolV3 (params : Params) (nTime : Z) : bool := (nProtocolV3Time params <? nTime) && negb (nTime =? 1444028400).
Definition IsProtocolV3_1 (params : Params) (nTime : Z) : bool :=
  (nProtocolV3_1Time params <? nTime) && negb (nTime =? 1713938400).

(** How far ahead of [nTime] a time may be, with a chain of height [tip_height]. *)
Definition FutureDrift (params : Params) (tip_height nTime : Z) : Z :=
  if fPowNoRetargeting params && (tip_height <=? nLastPOWBlock params) then nTime + 24 * 60 * 60
  else if IsProtocolV2 params nTime then nTime + 15 else nTime + 10 * 60.

(** ** Amounts a block creates *)

(** The reward of a staked block, without its fees.  The division is C's, which
    rounds towards zero. *)
Definition StakeReward (params : Params) (nHeight : Z) : Z :=
  if nRewardHalvingInterval params <=? 0 then nFixedStakeReward params
  else
    let halvings := Z.quot nHeight (nRewardHalvingInterval params) in
    if 63 <=? halvings then 0 else Z.shiftr (nFixedStakeReward params) halvings.

Definition GetBlockSubsidy (nHeight : Z) (params : Params) (fProofOfStake : bool) : Z :=
  if nHeight =? 0 then nPremineTotal params
  else if fProofOfStake then StakeReward params nHeight
  else if nHeight <=? nLastPOWBlock params then nPowSubsidy params else 0.

Definition GetProofOfStakeReward (nHeight nFees : Z) (params : Params) : Z := StakeReward params nHeight + nFees.

(** ** The main network *)

(** [COIN] *)
Definition NODE_COIN : Z := 100000000.

Definition main_params : Params := {|
  chain_type := MAIN;
  nMaxReorganizationDepth := 500;
  powLimit := 2 ^ 236 - 1;
  posLimit := 2 ^ 236 - 1;
  posLimitV2 := 2 ^ 208 - 1;
  nTargetSpacingV1 := 60;
  fPowNoRetargeting := false;
  fPoSNoRetargeting := false;
  nTargetSpacing := 64;
  nTargetTimespan := 16 * 60;
  nProtocolV1RetargetingFixedTime := 1395631999;
  nProtocolV2Time := 1407053625;
  nProtocolV3Time := 1444028400;
  nProtocolV3_1Time := 1713938400;
  nLastPOWBlock := 0;
  nStakeTimestampMask := 0xf;
  nCoinbaseMaturity := 500;
  nPremineTotal := 14000000000 * NODE_COIN;
  nPowSubsidy := 0;
  nFixedStakeReward := 10 * NODE_COIN;
  nRewardHalvingInterval := 0
|}.

Lemma StakeReward_bounds params nHeight :
  0 <= nHeight -> 0 <= nFixedStakeReward params -> 0 <= StakeReward params nHeight <= nFixedStakeReward params.
Proof.
  intros Hh Hr. unfold StakeReward. destruct (Z.leb_spec (nRewardHalvingInterval params) 0); [lia|].
  set (halvings := Z.quot _ _). assert (0 <= halvings) by (apply Z.quot_pos; lia). destruct (Z.leb_spec 63 halvings); [lia|].
  rewrite Z.shiftr_div_pow2 by lia. assert (0 < 2 ^ halvings) by (apply Z.pow_pos_nonneg; lia).
  split; [apply Z.div_pos; lia|]. apply Z.div_le_upper_bound; nia.
Qed.
