(* ===== verification/Chain.v ===== *)
(** * The index of the chain

    [CBlockIndex] of the node ([chain.h], [chain.cpp]): entries linked to their
    predecessors and, for long jumps, to a further one.  [GetAncestor] with its
    jumps is proved to find what following [pprev] finds. *)

From S2P Require Import Prelude Digits Arith256 ConsensusParams.

Open Scope Z_scope.
Open Scope list_scope.

(** The fields of an entry the modelled code reads. *)
Record IndexEntry : Type := {
  phashBlock : list Z;
  bi_nHeight : Z;
  bi_nTime : Z;
  bi_nBits : Z;
  bi_nFlags : Z;
  nStakeModifier : list Z
}.

(** A pointer is the entry it points to, with the fields as they are when the code
    reads them. *)
Inductive CBlockIndex : Type := BlockIndex (entry : IndexEntry) (pprev pskip : option CBlockIndex).

Definition entry (x : CBlockIndex) : IndexEntry := match x with BlockIndex e _ _ => e end.
Definition pprev (x : CBlockIndex) : option CBlockIndex := match x with BlockIndex _ p _ => p end.
Definition pskip (x : CBlockIndex) : option CBlockIndex := match x with BlockIndex _ _ p => p end.
Definition height_of (x : CBlockIndex) : Z := bi_nHeight (entry x).
Definition GetBlockTime (x : CBlockIndex) : Z := bi_nTime (entry x).

Definition BLOCK_PROOF_OF_STAKE : Z := 1.
Definition IndexIsProofOfStake (x : CBlockIndex) : bool := negb (Z.land (bi_nFlags (entry x)) BLOCK_PROOF_OF_STAKE =? 0).

(** ** Ancestors *)

Definition InvertLowestOne (n : Z) : Z := Z.land n (n - 1).

Definition GetSkipHeight (height : Z) : Z :=
  if height <? 2 then 0
  else if negb (Z.land height 1 =? 0) then InvertLowestOne (InvertLowestOne (height - 1)) + 1 else InvertLowestOne height.

(** The loop of [GetAncestor]; [None] is the failed assertion. *)
Fixpoint walk (height heightWalk : Z) (pindexWalk : CBlockIndex) : option CBlockIndex :=
  if heightWalk <=? height then Some pindexWalk else
  let heightSkip := GetSkipHeight heightWalk in
  let heightSkipPrev := GetSkipHeight (heightWalk - 1) in
  let follow := (heightSkip =? height) ||
    ((height <? heightSkip) && negb ((heightSkipPrev <? heightSkip - 2) && (height <=? heightSkipPrev))) in
  match pindexWalk with
  | BlockIndex _ prev skip =>
      match skip, follow with
      | Some skip, true => walk height heightSkip skip
      | _, _ => match prev with Some prev => walk height (heightWalk - 1) prev | None => None end
      end
  end.

(** The null pointer is [Some None]; [None] is the failed assertion. *)
Definition GetAncestor (this : CBlockIndex) (height : Z) : option (option CBlockIndex) :=
  if (height_of this <? height) || (height <? 0) then Some None
  else match walk height (height_of this) this with Some x => Some (Some x) | None => None end.

(** [BuildSkip]: the entry with its [pskip] filled in. *)
Definition BuildSkip (this : CBlockIndex) : option CBlockIndex :=
  match this with
  | BlockIndex e prev skip =>
      match prev with
      | None => Some this
      | Some p => skip ← GetAncestor p (GetSkipHeight (bi_nHeight e)); Some (BlockIndex e prev skip)
      end
  end.

(** [GetLastBlockIndex] *)
Fixpoint GetLastBlockIndex (fProofOfStake : bool) (pindex : CBlockIndex) : CBlockIndex :=
  match pindex with
  | BlockIndex _ (Some prev) _ => if Bool.eqb (IndexIsProofOfStake pindex) fProofOfStake then pindex else GetLastBlockIndex fProofOfStake prev
  | _ => pindex
  end.

(** ** Work *)

(** [~bnTarget] is [2^256 - 1 - bnTarget] and [bnTarget + 1] wraps; [None] is the
    exception of a division by zero. *)
Definition GetBlockProof (nBits : Z) : option Z :=
  let c := SetCompact nBits in
  let bnTarget := c_target c in
  if fNegative c || fOverflow c || (bnTarget =? 0) then Some 0
  else if u256 (bnTarget + 1) =? 0 then None
  else Some (u256 ((2 ^ 256 - 1 - bnTarget) / u256 (bnTarget + 1) + 1)).

(** ** Time *)

Definition nMedianTimeSpan : nat := 11.

(** The times of an entry and its predecessors, the latest last. *)
Fixpoint last_times (n : nat) (pindex : option CBlockIndex) : list Z :=
  match n, pindex with
  | S n, Some x => last_times n (pprev x) ++ [GetBlockTime x]
  | _, _ => []
  end.

(** [std::sort] on integers. *)
Fixpoint insert_time (t : Z) (l : list Z) : list Z :=
  match l with [] => [t] | u :: l' => if t <=? u then t :: l else u :: insert_time t l' end.
Definition sort_times (l : list Z) : list Z := foldr insert_time [] l.

Definition GetMedianTimePast (params : Params) (this : CBlockIndex) : Z :=
  if IsProtocolV2 params (GetBlockTime this) then GetBlockTime this
  else let pmedian := sort_times (last_times nMedianTimeSpan (Some this)) in
       default 0 (pmedian !! (length pmedian / 2)%nat).

(** ** Jumps find the ancestor *)

Lemma InvertLowestOne_bounds n : 0 < n -> 0 <= InvertLowestOne n < n.
Proof.
  intros Hn. unfold InvertLowestOne. split; [apply Z.land_nonneg; lia|].
  assert (Z.land n (n - 1) <= n - 1); [|lia]. rewrite <-(Z2N.id n), <-(Z2N.id (Z.of_N (Z.to_N n) - 1)) by lia.
  rewrite <-N2Z.inj_land, <-N2Z.inj_le. apply N.land_le_r.
Qed.

Lemma GetSkipHeight_bounds n : 0 < n -> 0 <= GetSkipHeight n < n.
Proof.
  intros Hn. unfold GetSkipHeight. destruct (Z.ltb_spec n 2); [lia|]. destruct (negb _); [|apply InvertLowestOne_bounds; lia].
  pose proof (InvertLowestOne_bounds (n - 1) ltac:(lia)). set (m := InvertLowestOne (n - 1)) in *. destruct (Z.eq_dec m 0) as [->|Hne].
  - change (InvertLowestOne 0) with 0. lia.
  - pose proof (InvertLowestOne_bounds m ltac:(lia)). lia.
Qed.

(** Chains as [AddToBlockIndex] builds them. *)
Inductive chain_ok : CBlockIndex -> Prop :=
  | chain_genesis e : bi_nHeight e = 0 -> chain_ok (BlockIndex e None None)
  | chain_next e p x : chain_ok p -> bi_nHeight e = height_of p + 1 -> BuildSkip (BlockIndex e (Some p) None) = Some x -> chain_ok x.

(** The entry [n] steps before. *)
Fixpoint back (n : nat) (x : CBlockIndex) : option CBlockIndex :=
  match n with O => Some x | S n => pprev x ≫= back n end.

Lemma chain_height x : chain_ok x -> 0 <= height_of x.
Proof.
  induction 1 as [e He|e p x _ IH He Hb]; [unfold height_of; cbn; lia|]. cbn in Hb. destruct (GetAncestor p _); [|done].
  injection Hb as <-. unfold height_of. cbn. lia.
Qed.

Lemma chain_pprev x p : chain_ok x -> pprev x = Some p -> chain_ok p /\ height_of x = height_of p + 1.
Proof.
  intros [e He|e p' x' Hp He Hb]; [done|]. cbn in Hb. destruct (GetAncestor p' _); [|done].
  injection Hb as <-. cbn. by intros [= <-].
Qed.

Lemma chain_no_pprev x : chain_ok x -> pprev x = None -> height_of x = 0.
Proof. intros [e He|e p x' Hp He Hb]; [done|]. cbn in Hb. destruct (GetAncestor p _); [|done]. by injection Hb as <-. Qed.

Lemma back_chain n x : chain_ok x -> Z.of_nat n <= height_of x ->
  exists y, back n x = Some y /\ chain_ok y /\ height_of y = height_of x - Z.of_nat n.
Proof.
  revert x. induction n as [|n IH]; intros x Hx Hn; [exists x; split; [done|]; split; [done|lia]|].
  cbn [back]. destruct (pprev x) as [p|] eqn:Ep; [|apply chain_no_pprev in Ep; [lia|done]].
  destruct (chain_pprev x p Hx Ep) as [Hp Hh]. destruct (IH p Hp ltac:(lia)) as (y & Hy & Hc & Hhy). exists y. cbn. split; [done|].
  split; [done|lia].
Qed.

Lemma back_add n m x y : back n x = Some y -> back (n + m) x = back m y.
Proof.
  revert x. induction n as [|n IH]; intros x; cbn [back Nat.add]; [by intros [= ->]|].
  destruct (pprev x) as [p|]; cbn; [apply IH|done].
Qed.

(** What [GetAncestor] returns. *)
Definition ancestor (x : CBlockIndex) (height : Z) : option CBlockIndex :=
  if (0 <=? height) && (height <=? height_of x) then back (Z.to_nat (height_of x - height)) x else None.

Lemma walk_back N x h : Z.of_nat N = height_of x -> chain_ok x -> 0 <= h <= height_of x ->
  walk h (height_of x) x = back (Z.to_nat (height_of x - h)) x.
Proof.
  revert x h. induction N as [N IH] using (well_founded_induction Nat.lt_wf_0). intros x h HN Hx Hh.
  destruct (Z.eq_dec h (height_of x)) as [->|Hne].
  { rewrite Z.sub_diag. destruct x. cbn [walk back Z.to_nat]. by rewrite Z.leb_refl. }
  assert (forall y h', chain_ok y -> height_of y < height_of x -> 0 <= h' <= height_of y ->
    walk h' (height_of y) y = back (Z.to_nat (height_of y - h')) y) as IH'.
  { intros y h' Hy Hlt Hh'. pose proof (chain_height y Hy). apply (IH (Z.to_nat (height_of y))); [lia|lia|done|lia]. } clear IH.
  destruct Hx as [e He|e p x Hp He Hb]; [unfold height_of in *; cbn in *; lia|]. cbn in Hb.
  destruct (GetAncestor p _) as [skip|] eqn:Es; [|done]. injection Hb as <-.
  pose proof (chain_height p Hp). assert (height_of (BlockIndex e (Some p) skip) = bi_nHeight e) as Eh by done. rewrite Eh in *.
  cbn [walk]. rewrite (proj2 (Z.leb_gt _ _)) by lia. set (follow := _ || _).
  assert (walk h (bi_nHeight e - 1) p = back (Z.to_nat (bi_nHeight e - h)) (BlockIndex e (Some p) skip)) as Hprev.
  { replace (bi_nHeight e - 1) with (height_of p) by lia. rewrite IH' by (done || lia).
    replace (Z.to_nat (bi_nHeight e - h)) with (S (Z.to_nat (height_of p - h))) by lia. done. }
  destruct skip as [skip|]; [|done]. destruct follow eqn:Ef; [|done].
  pose proof (GetSkipHeight_bounds (bi_nHeight e) ltac:(lia)) as Hs. set (s := GetSkipHeight (bi_nHeight e)) in *.
  unfold GetAncestor in Es. rewrite (proj2 (Z.ltb_ge _ _)), (proj2 (Z.ltb_ge _ _)) in Es by lia. cbn [orb] in Es.
  rewrite IH' in Es by (done || lia).
  destruct (back_chain (Z.to_nat (height_of p - s)) p Hp ltac:(lia)) as (y & Hy & Hyc & Hyh). rewrite Hy in Es. injection Es as ->.
  assert (h <= s) by (subst follow; apply orb_true_iff in Ef as [?%Z.eqb_eq|[?%Z.ltb_lt _]%andb_true_iff]; lia).
  replace s with (height_of skip) by lia. rewrite IH' by (done || lia).
  replace (Z.to_nat (bi_nHeight e - h)) with (S (Z.to_nat (height_of p - s)) + Z.to_nat (height_of skip - h))%nat by lia.
  symmetry. apply back_add. exact Hy.
Qed.

Lemma GetAncestor_ancestor x h : chain_ok x -> GetAncestor x h = Some (ancestor x h).
Proof.
  intros Hx. unfold GetAncestor, ancestor. pose proof (chain_height x Hx).
  destruct (Z.ltb_spec (height_of x) h); [by rewrite (proj2 (Z.leb_gt h _)), andb_false_r by lia|].
  destruct (Z.ltb_spec h 0); [by rewrite (proj2 (Z.leb_gt 0 h)) by lia|]. cbn [orb].
  rewrite (proj2 (Z.leb_le 0 h)), (proj2 (Z.leb_le h _)) by lia. cbn [andb].
  rewrite (walk_back (Z.to_nat (height_of x))) by (done || lia).
  by destruct (back_chain (Z.to_nat (height_of x - h)) x Hx ltac:(lia)) as (y & -> & _).
Qed.

(** A chain can always be extended. *)
Lemma BuildSkip_total e p : chain_ok p -> bi_nHeight e = height_of p + 1 ->
  exists x, BuildSkip (BlockIndex e (Some p) None) = Some x /\ chain_ok x.
Proof.
  intros Hp He. cbn. rewrite GetAncestor_ancestor by done. cbn. eexists. split; [done|].
  eapply (chain_next e p); [done|done|]. cbn. by rewrite GetAncestor_ancestor by done.
Qed.

(** C19: The jumps of [GetAncestor] find what following [pprev] one entry at a time
    finds.  In a chain built by [BuildSkip] the assertion never fails, a height
    outside the chain gives the null pointer, any other height the entry at that
    height, and every chain can be extended by another entry. *)
Theorem ancestor_by_jumps x h :
  chain_ok x ->
  GetAncestor x h = Some (ancestor x h) /\
  (0 <= h <= height_of x -> exists y, ancestor x h = Some y /\ height_of y = h /\ chain_ok y) /\
  (forall e, bi_nHeight e = height_of x + 1 -> exists x', BuildSkip (BlockIndex e (Some x) None) = Some x' /\ chain_ok x').
Proof.
  intros Hx. split; [by apply GetAncestor_ancestor|]. split; [|intros e He; by apply BuildSkip_total].
  intros Hh. unfold ancestor. rewrite (proj2 (Z.leb_le 0 h)), (proj2 (Z.leb_le h _)) by lia. cbn [andb].
  destruct (back_chain (Z.to_nat (height_of x - h)) x Hx ltac:(lia)) as (y & Hy & Hc & Hh'). exists y. split; [done|]. split; [lia|done].
Qed.

Definition ex_entry (height time flags bits : Z) : IndexEntry := {|
  phashBlock := replicate 32 height; bi_nHeight := height; bi_nTime := time; bi_nBits := bits; bi_nFlags := flags;
  nStakeModifier := replicate 32 (height + 1)
|}.

(** A chain of [n] staked blocks on a first one. *)
Fixpoint ex_chain (n : nat) : option CBlockIndex :=
  match n with
  | O => Some (BlockIndex (ex_entry 0 1789171200 0 0x1e0fffff) None None)
  | S m => p ← ex_chain m;
           BuildSkip (BlockIndex (ex_entry (Z.of_nat n) (1789171200 + 64 * Z.of_nat n) 1 0x1b00cde1) (Some p) None)
  end.

Lemma ex_chain_ok n : exists x, ex_chain n = Some x /\ chain_ok x /\ height_of x = Z.of_nat n.
Proof.
  induction n as [|n (p & Hp & Hc & Hh)]; [eexists; split; [done|]; split; [by apply chain_genesis|done]|].
  cbn [ex_chain]. rewrite Hp. cbn [mbind option_bind].
  set (e := ex_entry _ _ _ _). assert (bi_nHeight e = height_of p + 1) as He by (cbn [e ex_entry bi_nHeight]; lia).
  destruct (BuildSkip_total e p Hc He) as (x & Hx & Hxc). exists x. split; [done|]. split; [done|].
  cbn in Hx. destruct (GetAncestor p _); [|done]. injection Hx as <-. cbn. lia.
Qed.

Lemma ancestor_by_jumps_witness :
  exists x y, ex_chain 20 = Some x /\ GetAncestor x 3 = Some (Some y) /\ height_of y = 3.
Proof.
  destruct (ex_chain_ok 20) as (x & Hx & Hc & Hh). destruct (ancestor_by_jumps x 3 Hc) as (Ha & Hy & _).
  destruct (Hy ltac:(lia)) as (y & Hy' & Hyh & _). exists x, y. split; [exact Hx|]. split; [|exact Hyh]. rewrite Ha, Hy'. reflexivity.
Defined.

(** ** The work of a block *)

Lemma SetCompact_range nBits : 0 <= nBits -> 0 <= c_target (SetCompact nBits) < 2 ^ 256 - 1.
Proof.
  intros Hn. unfold SetCompact. set (w := Z.land nBits 0x007fffff). assert (0 <= w < 2 ^ 23) as Hw.
  { unfold w. change 0x007fffff with (Z.ones 23). rewrite Z.land_ones by lia. apply Z.mod_pos_bound. lia. }
  destruct (Z.leb_spec (Z.shiftr nBits 24) 3) as [Hs|Hs]; cbn [c_target].
  - assert (0 <= Z.shiftr nBits 24) by (apply Z.shiftr_nonneg; lia). rewrite Z.shiftr_div_pow2 by lia.
    assert (1 <= 2 ^ (8 * (3 - Z.shiftr nBits 24))) by (apply (Z.pow_le_mono_r 2 0); lia).
    split; [apply Z.div_pos; lia|]. apply Z.le_lt_trans with w; [apply Z.div_le_upper_bound; nia|lia].
  - unfold u256. pose proof (Z.mod_pos_bound (Z.shiftl w (8 * (Z.shiftr nBits 24 - 3))) (2 ^ 256) ltac:(lia)) as Hm.
    assert (Z.testbit (Z.shiftl w (8 * (Z.shiftr nBits 24 - 3)) mod 2 ^ 256) 0 = false) as Hb.
    { rewrite Z.mod_pow2_bits_low by lia. apply Z.shiftl_spec_low. lia. }
    assert (Z.shiftl w (8 * (Z.shiftr nBits 24 - 3)) mod 2 ^ 256 <> 2 ^ 256 - 1) by (intros E; by rewrite E in Hb). lia.
Qed.

(** The work of a block is the number of hashes its target asks for.  The
    division the code makes in 256 bits never divides by zero and is the division
    of [2^256], which those bits cannot hold, by one more than the target; a
    target that is negative, zero or overflows counts for nothing. *)
Lemma block_proof_exact nBits :
  0 <= nBits < 2 ^ 32 ->
  let c := SetCompact nBits in
  GetBlockProof nBits = Some (if fNegative c || fOverflow c || (c_target c =? 0) then 0 else 2 ^ 256 / (c_target c + 1)).
Proof.
  intros Hn c. unfold GetBlockProof. fold c. pose proof (SetCompact_range nBits ltac:(lia)) as Ht. fold c in Ht.
  destruct (_ || _) eqn:E; [done|]. apply orb_false_iff in E as [_ E]. b2p. unfold u256. rewrite (Z.mod_small (c_target c + 1)) by lia.
  rewrite (proj2 (Z.eqb_neq _ 0)) by lia.
  assert ((2 ^ 256 - 1 - c_target c) / (c_target c + 1) + 1 = 2 ^ 256 / (c_target c + 1)) as ->.
  { rewrite <-Z.div_add by lia. f_equal. lia. }
  f_equal. apply Z.mod_small. split; [apply Z.div_pos; lia|]. apply Z.div_lt; lia.
Qed.

