(* ===== verification/TxCheck.v ===== *)
(** * Checks of a transaction against the consensus rules

    [consensus/tx_check.cpp] and [consensus/tx_verify.cpp]: the checks that need
    no context, the check of a transaction against the coins it spends, final
    and relative lock times, and the count of signature operations
    ([script/script.cpp], [script/interpreter.cpp]). *)

From S2P Require Import Prelude Digits JsString Bytes Crypto JsInt Tx NodeTx ScriptError NodeScript ScriptNum Interpreter Verify Validation JsNum NodeFee ConsensusParams.

Open Scope Z_scope.
Open Scope list_scope.

#[global] Instance COutPoint_eq_dec : EqDecision COutPoint.
Proof. solve_decision. Defined.

(** ** Without context *)

Definition MAX_BLOCK_WEIGHT : Z := 4000000.

Fixpoint check_outputs (special : bool) (nValueOut : Z) (vout : list CTxOut) : check unit :=
  match vout with
  | [] => Valid tt
  | txout :: vout =>
      _ ← invalid_if (IsEmpty txout && negb special) TX_CONSENSUS "bad-txns-vout-empty";
      _ ← invalid_if (nValue txout <? 0) TX_CONSENSUS "bad-txns-vout-negative";
      _ ← invalid_if (MAX_MONEY <? nValue txout) TX_CONSENSUS "bad-txns-vout-toolarge";
      _ ← invalid_if (MAX_MONEY - nValueOut <? nValue txout) TX_CONSENSUS "bad-txns-txouttotal-toolarge";
      check_outputs special (nValueOut + nValue txout) vout
  end.

Fixpoint check_duplicates (seen : list COutPoint) (vin : list CTxIn) : check unit :=
  match vin with
  | [] => Valid tt
  | txin :: vin =>
      _ ← invalid_if (bool_decide (prevout txin ∈ seen)) TX_CONSENSUS "bad-txns-inputs-duplicate";
      check_duplicates (prevout txin :: seen) vin
  end.

Definition CheckTransaction (tx : CTransaction) : check unit :=
  _ ← invalid_if (length (vin tx) =? 0)%nat TX_CONSENSUS "bad-txns-vin-empty";
  _ ← invalid_if (length (vout tx) =? 0)%nat TX_CONSENSUS "bad-txns-vout-empty";
  _ ← invalid_if (MAX_BLOCK_WEIGHT <? GetSerializeSize false tx * WITNESS_SCALE_FACTOR) TX_CONSENSUS "bad-txns-oversize";
  _ ← check_outputs (IsCoinBase tx || IsCoinStake tx) 0 (vout tx);
  _ ← check_duplicates [] (vin tx);
  if IsCoinBase tx then
    let n := from_option (fun i => length (in_scriptSig i)) 0%nat (vin tx !! 0%nat) in
    invalid_if ((n <? 2)%nat || (100 <? n)%nat) TX_CONSENSUS "bad-cb-length"
  else
    invalid_if (existsb (fun i => IsNullOutPoint (prevout i)) (vin tx)) TX_CONSENSUS "bad-txns-prevout-null".

(** ** Lock times *)

Definition IsFinalTx (tx : CTransaction) (nBlockHeight nBlockTime : Z) : bool :=
  if nLockTime tx =? 0 then true
  else if nLockTime tx <? (if nLockTime tx <? LOCKTIME_THRESHOLD then nBlockHeight else nBlockTime) then true
  else forallb (fun i => nSequence i =? SEQUENCE_FINAL) (vin tx).

Definition SEQUENCE_LOCKTIME_GRANULARITY : Z := 9.

(** [median_time_past h] is the median time past of the ancestor at height [h],
    if there is one; the heights are those of the coins being spent. *)
Fixpoint sequence_locks (median_time_past : Z -> option Z) (vin : list CTxIn) (prevHeights : list Z) (nMinHeight nMinTime : Z) :
    check (Z * Z) :=
  match vin, prevHeights with
  | [], _ | _, [] => Valid (nMinHeight, nMinTime)
  | txin :: vin, nCoinHeight :: prevHeights =>
      if negb (Z.land (nSequence txin) SEQUENCE_LOCKTIME_DISABLE_FLAG =? 0) then
        sequence_locks median_time_past vin prevHeights nMinHeight nMinTime
      else if negb (Z.land (nSequence txin) SEQUENCE_LOCKTIME_TYPE_FLAG =? 0) then
        match median_time_past (Z.max (nCoinHeight - 1) 0) with
        | None => Crash
        | Some nCoinTime =>
            sequence_locks median_time_past vin prevHeights nMinHeight
              (Z.max nMinTime
                (nCoinTime + Z.shiftl (Z.land (nSequence txin) SEQUENCE_LOCKTIME_MASK) SEQUENCE_LOCKTIME_GRANULARITY - 1))
        end
      else
        sequence_locks median_time_past vin prevHeights
          (Z.max nMinHeight (nCoinHeight + Z.land (nSequence txin) SEQUENCE_LOCKTIME_MASK - 1)) nMinTime
  end.

(** With [LOCKTIME_VERIFY_SEQUENCE] among the flags. *)
Definition CalculateSequenceLocks (tx : CTransaction) (prevHeights : list Z) (median_time_past : Z -> option Z) : check (Z * Z) :=
  _ ← check_assert (length prevHeights =? length (vin tx))%nat;
  if u32 (nVersion tx) <? 2 then Valid (-1, -1) else sequence_locks median_time_past (vin tx) prevHeights (-1) (-1).

(** At the height and the median time past of the block before. *)
Definition EvaluateSequenceLocks (height time : Z) (lockPair : Z * Z) : bool :=
  negb ((height <=? lockPair.1) || (time <=? lockPair.2)).

(** ** Signature operations *)

(** [CScript::GetSigOpCount(bool)]; every opcode read consumes a byte. *)
Fixpoint sigops (fuel : nat) (fAccurate : bool) (lastOpcode : Z) (pc : list Z) : Z :=
  match pc, fuel with
  | [], _ | _, O => 0
  | _, S fuel =>
      let '(ok, opcode, _, pc) := GetScriptOp pc in
      if negb ok then 0 else
      (if (opcode =? OP_CHECKSIG) || (opcode =? OP_CHECKSIGVERIFY) then 1
       else if (opcode =? OP_CHECKMULTISIG) || (opcode =? OP_CHECKMULTISIGVERIFY) then
         (if fAccurate && (OP_1 <=? lastOpcode) && (lastOpcode <=? OP_16) then DecodeOP_N lastOpcode
          else MAX_PUBKEYS_PER_MULTISIG)
       else 0) + sigops fuel fAccurate opcode pc
  end.

Definition GetSigOpCount (fAccurate : bool) (script : list Z) : Z := sigops (length script) fAccurate OP_INVALIDOPCODE script.

(** The last item a script of pushes leaves; [None] where the script is not one. *)
Fixpoint last_push (fuel : nat) (vData pc : list Z) : option (list Z) :=
  match pc, fuel with
  | [], _ => Some vData
  | _, O => None
  | _, S fuel =>
      let '(ok, opcode, vData, pc) := GetScriptOp pc in
      if negb ok || (OP_16 <? opcode) then None else last_push fuel vData pc
  end.

(** [CScript::GetSigOpCount(const CScript&)] *)
Definition GetSigOpCountOfInput (scriptPubKey scriptSig : list Z) : Z :=
  if negb (IsPayToScriptHash scriptPubKey) then GetSigOpCount true scriptPubKey
  else match last_push (length scriptSig) [] scriptSig with
       | None => 0
       | Some subscript => GetSigOpCount true subscript
       end.

Definition GetLegacySigOpCount (tx : CTransaction) : Z :=
  foldr Z.add 0 ((fun i => GetSigOpCount false (in_scriptSig i)) <$> vin tx) +
  foldr Z.add 0 ((fun o => GetSigOpCount false (out_scriptPubKey o)) <$> vout tx).

Definition WitnessSigOps (witversion : Z) (witprogram : list Z) (witness : list (list Z)) : Z :=
  if witversion =? 0 then
    if (length witprogram =? WITNESS_V0_KEYHASH_SIZE)%nat then 1
    else if (length witprogram =? WITNESS_V0_SCRIPTHASH_SIZE)%nat then from_option (GetSigOpCount true) 0 (last witness)
    else 0
  else 0.

Definition CountWitnessSigOps (scriptSig scriptPubKey : list Z) (witness : list (list Z)) (flags : Z) : check Z :=
  if negb (flag flags SCRIPT_VERIFY_WITNESS) then Valid 0 else
  _ ← check_assert (flag flags SCRIPT_VERIFY_P2SH);
  match IsWitnessProgram scriptPubKey with
  | Some (version, program) => Valid (WitnessSigOps version program witness)
  | None =>
      if IsPayToScriptHash scriptPubKey && IsPushOnly scriptSig then
        match last_push (length scriptSig) [] scriptSig ≫= IsWitnessProgram with
        | Some (version, program) => Valid (WitnessSigOps version program witness)
        | None => Valid 0
        end
      else Valid 0
  end.

(** The inputs with the coins they spend, which must be there. *)
Fixpoint with_coins (inputs : CCoinsView) (vin : list CTxIn) : check (list (CTxIn * Coin)) :=
  match vin with
  | [] => Valid []
  | txin :: vin =>
      match inputs (prevout txin) with
      | None => Crash
      | Some coin => l ← with_coins inputs vin; Valid ((txin, coin) :: l)
      end
  end.

Definition GetP2SHSigOpCount (tx : CTransaction) (inputs : CCoinsView) : check Z :=
  if IsCoinBase tx then Valid 0 else
  l ← with_coins inputs (vin tx);
  Valid (foldr Z.add 0 ((fun '(txin, coin) =>
    if IsPayToScriptHash (out_scriptPubKey (coin_out coin))
    then GetSigOpCountOfInput (out_scriptPubKey (coin_out coin)) (in_scriptSig txin) else 0) <$> l)).

Fixpoint witness_sigops (flags : Z) (l : list (CTxIn * Coin)) : check Z :=
  match l with
  | [] => Valid 0
  | (txin, coin) :: l =>
      n ← CountWitnessSigOps (in_scriptSig txin) (out_scriptPubKey (coin_out coin)) (scriptWitness txin) flags;
      rest ← witness_sigops flags l;
      Valid (n + rest)
  end.

Definition GetTransactionSigOpCost (tx : CTransaction) (inputs : CCoinsView) (flags : Z) : check Z :=
  let nSigOps := GetLegacySigOpCount tx * WITNESS_SCALE_FACTOR in
  if IsCoinBase tx then Valid nSigOps else
  p2sh ← (if flag flags SCRIPT_VERIFY_P2SH then GetP2SHSigOpCount tx inputs else Valid 0);
  l ← with_coins inputs (vin tx);
  w ← witness_sigops flags l;
  Valid (nSigOps + p2sh * WITNESS_SCALE_FACTOR + w).

(** ** Against the coins *)

(** The time of a transaction; version 2 has none and takes the clock's. *)
Definition tx_time (tx : CTransaction) (adjusted_time : Z) : Z :=
  if (nTime tx =? 0) && (2 <=? nVersion tx) then adjusted_time else nTime tx.

Definition HaveInputs (inputs : CCoinsView) (tx : CTransaction) : bool :=
  IsCoinBase tx || forallb (fun i => bool_decide (is_Some (inputs (prevout i)))) (vin tx).

Fixpoint GetValueOut (nValueOut : Z) (vout : list CTxOut) : check Z :=
  match vout with
  | [] => _ ← check_assert (MoneyRange nValueOut); Valid nValueOut
  | o :: vout =>
      if negb (MoneyRange (nValue o)) || (MAX_MONEY - nValueOut <? nValue o) then Crash
      else GetValueOut (nValueOut + nValue o) vout
  end.

(** The confirmations asked of a time before version 3.1.  The source writes
    [Params().nCoinbaseMaturity] inside the namespace [Consensus], where [Params]
    is the structure: a fresh one, every number of it zero. *)
Definition empty_nCoinbaseMaturity : Z := 0.

Fixpoint check_coins (params : Params) (inputs : CCoinsView) (nSpendHeight nTimeTx nValueIn : Z) (vin : list CTxIn) : check Z :=
  match vin with
  | [] => Valid nValueIn
  | txin :: vin =>
      match inputs (prevout txin) with
      | None => Crash
      | Some coin =>
          let maturity := if IsProtocolV3_1 params nTimeTx then nCoinbaseMaturity params else empty_nCoinbaseMaturity in
          _ ← invalid_if ((fCoinBase coin || fCoinStake coin) && negb (nHeight coin =? 0) && (nSpendHeight - nHeight coin <? maturity))
                TX_PREMATURE_SPEND "bad-txns-premature-spend-of-coinbase";
          _ ← invalid_if (nTimeTx <? coin_nTime coin) TX_CONSENSUS "bad-txns-time-earlier-than-input";
          let value := nValue (coin_out coin) in
          _ ← invalid_if (negb (MoneyRange value) || (MAX_MONEY - nValueIn <? value)) TX_CONSENSUS "bad-txns-inputvalues-outofrange";
          check_coins params inputs nSpendHeight nTimeTx (nValueIn + value) vin
      end
  end.

(** [Consensus::CheckTxInputs]: the fee, which a coinstake leaves unset. *)
Definition CheckTxInputs (params : Params) (adjusted_time : Z) (tx : CTransaction) (inputs : CCoinsView) (nSpendHeight : Z) :
    check (option Z) :=
  _ ← invalid_if (negb (HaveInputs inputs tx)) TX_MISSING_INPUTS "bad-txns-inputs-missingorspent";
  let nTimeTx := tx_time tx adjusted_time in
  nValueIn ← check_coins params inputs nSpendHeight nTimeTx 0 (vin tx);
  if IsCoinStake tx then Valid None else
  value_out ← GetValueOut 0 (vout tx);
  _ ← invalid_if (nValueIn <? value_out) TX_CONSENSUS "bad-txns-in-belowout";
  let txfee := nValueIn - value_out in
  _ ← invalid_if (negb (MoneyRange txfee)) TX_CONSENSUS "bad-txns-fee-outofrange";
  _ ← invalid_if (IsProtocolV3_1 params nTimeTx && (txfee <? GetMinFee tx (IsProtocolV3_1 params (u32 nTimeTx)))) TX_CONSENSUS
        "bad-txns-fee-not-enough";
  Valid (Some txfee).

(** ** What the checks establish *)

Definition value_out_sum (vout : list CTxOut) : Z := foldr Z.add 0 (nValue <$> vout).

Lemma value_out_sum_nonneg vout : Forall (fun o => 0 <= nValue o) vout -> 0 <= value_out_sum vout.
Proof. unfold value_out_sum. induction 1; cbn [fmap list_fmap foldr]; lia. Qed.

Lemma check_outputs_valid special acc vout :
  0 <= acc <= MAX_MONEY ->
  check_outputs special acc vout = Valid tt <->
  Forall (fun o => 0 <= nValue o /\ (special = false -> IsEmpty o = false)) vout /\ acc + value_out_sum vout <= MAX_MONEY.
Proof.
  revert acc. induction vout as [|o vout IH]; intros acc Hacc; cbn [check_outputs].
  { split; [intros _; split; [by apply Forall_nil_2|unfold value_out_sum; cbn; lia]|done]. }
  change (value_out_sum (o :: vout)) with (nValue o + value_out_sum vout). rewrite !check_bind_valid. setoid_rewrite Forall_cons. split.
  - intros ([] & He%invalid_if_valid & Hr). apply check_bind_valid in Hr as ([] & Hn%invalid_if_valid & Hr).
    apply check_bind_valid in Hr as ([] & Hm%invalid_if_valid & Hr). apply check_bind_valid in Hr as ([] & Ht%invalid_if_valid & Hr). b2p.
    apply IH in Hr as [Hall Hsum]; [|lia]. split; [|lia]. split; [|done]. split; [lia|]. intros ->. by rewrite andb_true_r in He.
  - intros [[[Hn He] Hall] Hsum]. assert (0 <= value_out_sum vout) by (apply value_out_sum_nonneg; eapply Forall_impl; [exact Hall|]; by intros ? [? _]).
    exists tt. split; [apply invalid_if_valid; destruct special; [by rewrite andb_false_r|by rewrite He]|].
    apply check_bind_valid. exists tt. split; [apply invalid_if_valid, Z.ltb_ge; lia|].
    apply check_bind_valid. exists tt. split; [apply invalid_if_valid, Z.ltb_ge; lia|].
    apply check_bind_valid. exists tt. split; [apply invalid_if_valid, Z.ltb_ge; lia|]. apply IH; [lia|]. split; [done|lia].
Qed.

Lemma check_duplicates_valid seen vin :
  check_duplicates seen vin = Valid tt <-> NoDup (prevout <$> vin) /\ Forall (fun i => prevout i ∉ seen) vin.
Proof.
  revert seen. induction vin as [|i vin IH]; intros seen; cbn [check_duplicates].
  { split; [intros _; split; [constructor|by apply Forall_nil_2]|done]. }
  rewrite check_bind_valid, fmap_cons, NoDup_cons, Forall_cons. split.
  - intros ([] & Hs%invalid_if_valid & Hr). apply bool_decide_eq_false in Hs. apply IH in Hr as [Hnd Hall]. split; [split; [|done]|split; [done|]].
    + intros (j & Hj & Hin)%list_elem_of_fmap. eapply Forall_forall in Hall; [|exact Hin]. apply Hall. rewrite <-Hj. left.
    + eapply Forall_impl; [exact Hall|]. intros j Hj Hin. apply Hj. by right.
  - intros [[Hni Hnd] [Hs Hall]]. exists tt. split; [by apply invalid_if_valid, bool_decide_eq_false|]. apply IH. split; [done|].
    apply Forall_forall. intros j Hj. rewrite not_elem_of_cons. split; [|by eapply Forall_forall in Hall].
    intros Heq. apply Hni. rewrite <-Heq. by apply list_elem_of_fmap_2.
Qed.

(** A transaction sound by itself. *)
Definition tx_sound (tx : CTransaction) : Prop :=
  vin tx <> [] /\ vout tx <> [] /\ 4 * GetSerializeSize false tx <= MAX_BLOCK_WEIGHT /\
  Forall (fun o => 0 <= nValue o /\ (IsCoinBase tx || IsCoinStake tx = false -> IsEmpty o = false)) (vout tx) /\
  value_out_sum (vout tx) <= MAX_MONEY /\
  NoDup (prevout <$> vin tx) /\
  (if IsCoinBase tx then exists i, vin tx !! 0%nat = Some i /\ (2 <= length (in_scriptSig i) <= 100)%nat
   else Forall (fun i => IsNullOutPoint (prevout i) = false) (vin tx)).

Lemma existsb_false_Forall {A} (f : A -> bool) l : existsb f l = false <-> Forall (fun x => f x = false) l.
Proof. induction l as [|x l IH]; [by split|]. cbn. rewrite orb_false_iff, Forall_cons. by rewrite IH. Qed.

Lemma seq_valid {B} (m : check unit) (k : check B) b : (_ ← m; k) = Valid b <-> m = Valid tt /\ k = Valid b.
Proof. rewrite check_bind_valid. split; [by intros ([] & ? & ?)|intros [? ?]; by exists tt]. Qed.

Lemma no_elements {A} (l : list A) r s : invalid_if (length l =? 0)%nat r s = Valid tt <-> l <> [].
Proof. rewrite invalid_if_valid. by destruct l. Qed.

Lemma CheckTransaction_valid tx : CheckTransaction tx = Valid tt <-> tx_sound tx.
Proof.
  unfold CheckTransaction, tx_sound. rewrite !seq_valid, !no_elements, check_outputs_valid, check_duplicates_valid by (unfold MAX_MONEY; lia).
  rewrite invalid_if_valid, Z.ltb_ge, Z.add_0_l. unfold WITNESS_SCALE_FACTOR. rewrite (Z.mul_comm 4).
  assert (Forall (fun i => prevout i ∉ []) (vin tx)) as Hnil by (apply Forall_forall; intros ? _; apply not_elem_of_nil).
  assert ((if IsCoinBase tx then
      invalid_if ((from_option (fun i => length (in_scriptSig i)) 0 (vin tx !! 0) <? 2)
        || (100 <? from_option (fun i => length (in_scriptSig i)) 0 (vin tx !! 0)))%nat TX_CONSENSUS "bad-cb-length"
    else invalid_if (existsb (fun i => IsNullOutPoint (prevout i)) (vin tx)) TX_CONSENSUS "bad-txns-prevout-null") = Valid tt <->
    (if IsCoinBase tx then exists i, vin tx !! 0%nat = Some i /\ (2 <= length (in_scriptSig i) <= 100)%nat
     else Forall (fun i => IsNullOutPoint (prevout i) = false) (vin tx))) as Hlast.
  { destruct (IsCoinBase tx); rewrite invalid_if_valid; [|apply existsb_false_Forall].
    rewrite orb_false_iff, !Nat.ltb_ge. destruct (vin tx !! 0%nat) as [i|]; cbn; [|split; [lia|naive_solver]].
    split; [intros; by exists i|by intros (? & [= <-] & ?)]. }
  cbv zeta. rewrite Hlast. naive_solver.
Qed.

(** [GetValueOut] of a sound transaction is the sum of its outputs. *)
Lemma GetValueOut_total acc vout :
  0 <= acc -> Forall (fun o => 0 <= nValue o) vout -> acc + value_out_sum vout <= MAX_MONEY -> GetValueOut acc vout = Valid (acc + value_out_sum vout).
Proof.
  intros Hacc Hall. revert acc Hacc. induction Hall as [|o vout Ho Hall IH]; intros acc Hacc Hsum; cbn [GetValueOut].
  { unfold value_out_sum in *. cbn in *. unfold MoneyRange. rewrite (proj2 (Z.leb_le _ _)), (proj2 (Z.leb_le _ _)) by lia. cbn. by rewrite Z.add_0_r. }
  change (value_out_sum (o :: vout)) with (nValue o + value_out_sum vout) in *. pose proof (value_out_sum_nonneg _ Hall). unfold MoneyRange.
  rewrite (proj2 (Z.leb_le 0 _)), (proj2 (Z.leb_le _ MAX_MONEY)), (proj2 (Z.ltb_ge _ _)) by lia. cbn [andb negb orb].
  rewrite IH by lia. f_equal. lia.
Qed.

Definition input_value (inputs : CCoinsView) (i : CTxIn) : Z := from_option (fun c => nValue (coin_out c)) 0 (inputs (prevout i)).

Lemma check_coins_valid params inputs height time acc vin v :
  0 <= acc <= MAX_MONEY -> check_coins params inputs height time acc vin = Valid v ->
  v = acc + foldr Z.add 0 (input_value inputs <$> vin) /\ v <= MAX_MONEY /\
  Forall (fun i => exists coin, inputs (prevout i) = Some coin /\ 0 <= nValue (coin_out coin) /\ coin_nTime coin <= time /\
    (fCoinBase coin || fCoinStake coin = true -> nHeight coin <> 0 ->
     (if IsProtocolV3_1 params time then nCoinbaseMaturity params else empty_nCoinbaseMaturity) <= height - nHeight coin)) vin.
Proof.
  revert acc. induction vin as [|i vin IH]; intros acc Hacc; cbn [check_coins].
  { intros [= <-]. cbn. split; [lia|]. split; [lia|by apply Forall_nil_2]. }
  destruct (inputs (prevout i)) as [coin|] eqn:Ei; [|done]. rewrite !seq_valid, !invalid_if_valid. intros (Hm & Ht & Hv & Hr).
  b2p. unfold MoneyRange in *. b2p. apply IH in Hr as (Hsum & Hmax & Hall); [|lia]. rewrite fmap_cons. cbn [foldr].
  unfold input_value at 1. rewrite Ei. cbn. split; [lia|]. split; [done|]. constructor; [|done]. exists coin. split; [done|]. split; [done|].
  split; [done|]. intros Hgen Hh. rewrite Hgen, (proj2 (Z.eqb_neq _ _) Hh) in Hm. cbn in Hm. by apply Z.ltb_ge in Hm.
Qed.

Lemma refuse_no_crash {B} c r s (k : check B) : k <> Crash -> (_ ← invalid_if c r s; k) <> Crash.
Proof. by destruct c. Qed.

Lemma check_coins_no_crash params inputs height time acc vin :
  Forall (fun i => is_Some (inputs (prevout i))) vin -> check_coins params inputs height time acc vin <> Crash.
Proof.
  intros Hall. revert acc. induction Hall as [|i vin [coin Hc] _ IH]; intros acc; [done|]. cbn [check_coins]. rewrite Hc.
  do 3 apply refuse_no_crash. apply IH.
Qed.

(** C15: The consensus checks create no value and cannot be made to overflow.  A
    transaction passes [CheckTransaction] exactly if it is sound by itself: it has
    inputs, all different, and outputs of no negative value whose sum is an
    amount.  Then [CheckTxInputs] neither throws nor asserts, and where it accepts
    a transaction that is no coinstake, the coins it spends, each of them there,
    mature and not younger than the transaction, are worth exactly the outputs
    and the fee, in sums that stay within [int64_t], and the fee reaches the
    minimum once that rule is in force. *)
Theorem transaction_conserves_value params adjusted_time tx inputs height :
  (CheckTransaction tx = Valid tt <-> tx_sound tx) /\
  (tx_sound tx -> IsCoinBase tx = false -> CheckTxInputs params adjusted_time tx inputs height <> Crash) /\
  (forall fee, tx_sound tx -> CheckTxInputs params adjusted_time tx inputs height = Valid (Some fee) ->
    let time := tx_time tx adjusted_time in
    0 <= fee /\ foldr Z.add 0 (input_value inputs <$> vin tx) = value_out_sum (vout tx) + fee /\ value_out_sum (vout tx) + fee <= MAX_MONEY /\
    Forall (fun i => exists coin, inputs (prevout i) = Some coin /\ 0 <= nValue (coin_out coin) /\ coin_nTime coin <= time /\
      (fCoinBase coin || fCoinStake coin = true -> nHeight coin <> 0 ->
       (if IsProtocolV3_1 params time then nCoinbaseMaturity params else empty_nCoinbaseMaturity) <= height - nHeight coin))
      (vin tx) /\
    (IsProtocolV3_1 params time = true -> GetMinFee tx (IsProtocolV3_1 params (u32 time)) <= fee)).
Proof.
  split; [apply CheckTransaction_valid|].
  assert (tx_sound tx -> GetValueOut 0 (vout tx) = Valid (value_out_sum (vout tx))) as Hout.
  { intros (_ & _ & _ & Hall & Hmax & _). rewrite GetValueOut_total; [by rewrite Z.add_0_l|done| |lia].
    eapply Forall_impl; [exact Hall|]. by intros o [? _]. }
  split.
  - intros Hs Hcb. unfold CheckTxInputs, HaveInputs. rewrite Hcb. cbn [orb]. destruct (forallb _ (vin tx)) eqn:Eh; [|done].
    cbn [negb invalid_if mbind check_bind]. pose proof (check_coins_no_crash params inputs height (tx_time tx adjusted_time) 0 (vin tx)) as Hc.
    destruct (check_coins _ _ _ _ _ _) as [v| |]; [|done|].
    + cbn [mbind check_bind]. destruct (IsCoinStake tx); [done|]. rewrite Hout by done. cbn [mbind check_bind].
      by do 3 apply refuse_no_crash.
    + exfalso. apply Hc; [|done]. apply Forall_forall. intros i Hi. rewrite forallb_forall in Eh.
      apply list_elem_of_In, Eh in Hi. by apply bool_decide_eq_true in Hi.
  - intros fee Hs. unfold CheckTxInputs. rewrite seq_valid, check_bind_valid. intros (_ & v & Hv & Hr).
    apply check_coins_valid in Hv as (Hsum & Hmax & Hall); [|unfold MAX_MONEY; lia]. destruct (IsCoinStake tx); [done|].
    rewrite Hout in Hr by done. cbn [mbind check_bind] in Hr. rewrite !seq_valid, !invalid_if_valid in Hr.
    destruct Hr as (Hlt & Hrange & Hfee & [= <-]). b2p. rewrite Z.add_0_l in Hsum. subst v. cbv zeta. split; [lia|]. split; [lia|].
    split; [lia|]. split; [done|]. intros H31. rewrite H31 in Hfee. cbn [andb] in Hfee. b2p. lia.
Qed.

Definition ex_spend : CTransaction := {|
  nVersion := 2; nTime := 0; nLockTime := 0;
  vin := [{| prevout := {| op_hash := replicate 32 7; op_n := 0 |}; in_scriptSig := []; nSequence := 0xfffffffd; scriptWitness := [] |}];
  vout := [{| nValue := 20000; out_scriptPubKey := [OP_1] |}]
|}.
Definition ex_coins : CCoinsView := fun _ => Some {|
  coin_out := {| nValue := 50000; out_scriptPubKey := [OP_1] |}; fCoinBase := true; fCoinStake := false; nHeight := 100; coin_nTime := 0
|}.

Lemma transaction_conserves_value_witness :
  foldr Z.add 0 (input_value ex_coins <$> vin ex_spend) = value_out_sum (vout ex_spend) + 30000.
Proof.
  destruct (transaction_conserves_value main_params 1800000000 ex_spend ex_coins 700) as (Hs & _ & Hfee).
  apply (Hfee 30000); [apply Hs; by vm_compute|by vm_compute].
Defined.

(** ** The time of a transaction is its own *)

Lemma check_coins_total params inputs height time acc vin :
  0 <= acc ->
  Forall (fun i => exists coin, inputs (prevout i) = Some coin /\ 0 <= nValue (coin_out coin) /\ coin_nTime coin <= time /\
    (if IsProtocolV3_1 params time then nCoinbaseMaturity params else empty_nCoinbaseMaturity) <= height - nHeight coin) vin ->
  acc + foldr Z.add 0 (input_value inputs <$> vin) <= MAX_MONEY ->
  check_coins params inputs height time acc vin = Valid (acc + foldr Z.add 0 (input_value inputs <$> vin)).
Proof.
  intros Hacc Hall. revert acc Hacc. induction Hall as [|i vin (coin & Hc & Hv & Ht & Hm) Hall IH]; intros acc Hacc; [cbn; by rewrite Z.add_0_r|].
  rewrite fmap_cons. cbn [foldr check_coins]. unfold input_value at 1 3. rewrite Hc. cbn [from_option]. intros Hsum.
  assert (0 <= foldr Z.add 0 (input_value inputs <$> vin)) as Hnn.
  { clear -Hall. induction Hall as [|i vin (c & Hc & Hv & _) _ IH]; [done|]. rewrite fmap_cons. cbn [foldr]. unfold input_value at 1. rewrite Hc. cbn. lia. }
  rewrite (proj2 (Z.ltb_ge (height - _) _)), andb_false_r, (proj2 (Z.ltb_ge time _)) by done. cbn [invalid_if mbind check_bind].
  unfold MoneyRange. rewrite (proj2 (Z.leb_le 0 _)), (proj2 (Z.leb_le _ MAX_MONEY)), (proj2 (Z.ltb_ge (MAX_MONEY - acc) _)) by lia.
  cbn [andb negb orb invalid_if mbind check_bind]. rewrite IH by lia. f_equal. lia.
Qed.

(** C40: A transaction chooses the rules it is held to.  The maturity of staked and
    mined coins and the minimum fee are decided by the time written in a version 1
    transaction, which nothing bounds from below but the times of its coins, and
    coins of version 2 transactions carry none.  A transaction dated before
    version 3.1 of the protocol is accepted whatever the height, in the very block
    after the one that created its coins, and with no fee. *)
Theorem backdated_spend_unrestricted params adjusted_time tx inputs height :
  tx_sound tx -> IsCoinBase tx = false -> IsCoinStake tx = false ->
  nVersion tx < 2 -> nTime tx <= nProtocolV3_1Time params ->
  Forall (fun i => exists coin, inputs (prevout i) = Some coin /\ 0 <= nValue (coin_out coin) /\ coin_nTime coin <= nTime tx /\
    nHeight coin <= height) (vin tx) ->
  value_out_sum (vout tx) <= foldr Z.add 0 (input_value inputs <$> vin tx) <= MAX_MONEY ->
  CheckTxInputs params adjusted_time tx inputs height =
    Valid (Some (foldr Z.add 0 (input_value inputs <$> vin tx) - value_out_sum (vout tx))).
Proof.
  intros (_ & _ & _ & Hall & Hmax & _) Hcb Hcs Hver Htime Hcoins Hsum.
  assert (tx_time tx adjusted_time = nTime tx) as Et by (unfold tx_time; by rewrite (proj2 (Z.leb_gt 2 _)), andb_false_r by done).
  assert (IsProtocolV3_1 params (nTime tx) = false) as Ev by (unfold IsProtocolV3_1; by rewrite (proj2 (Z.ltb_ge _ _)) by done).
  unfold CheckTxInputs. rewrite Et, Ev, Hcs. unfold HaveInputs. rewrite Hcb.
  replace (forallb _ (vin tx)) with true; cbn [orb negb invalid_if mbind check_bind andb].
  2:{ symmetry. apply forallb_forall. intros i Hi%list_elem_of_In. rewrite Forall_forall in Hcoins. apply Hcoins in Hi as (c & -> & _). by apply bool_decide_eq_true. }
  rewrite check_coins_total; [|done| |lia].
  2:{ eapply Forall_impl; [exact Hcoins|]. cbn beta. rewrite Ev. intros i (c & ? & ? & ? & ?). exists c. unfold empty_nCoinbaseMaturity. auto with lia. }
  cbn [mbind check_bind]. rewrite GetValueOut_total; [|lia| |lia]; [|eapply Forall_impl; [exact Hall|]; by intros o [? _]].
  pose proof (value_out_sum_nonneg (vout tx) ltac:(eapply Forall_impl; [exact Hall|]; by intros o [? _])).
  cbn [mbind check_bind]. rewrite !Z.add_0_l, (proj2 (Z.ltb_ge _ _)) by lia. unfold MoneyRange.
  rewrite (proj2 (Z.leb_le 0 _)), (proj2 (Z.leb_le _ MAX_MONEY)) by lia. done.
Qed.

Definition ex_backdated : CTransaction := {|
  nVersion := 1; nTime := 1; nLockTime := 0; vin := vin ex_spend; vout := [{| nValue := 50000; out_scriptPubKey := [OP_1] |}]
|}.

Lemma backdated_spend_unrestricted_witness : CheckTxInputs main_params 1800000000 ex_backdated ex_coins 101 = Valid (Some 0).
Proof.
  apply (backdated_spend_unrestricted main_params 1800000000 ex_backdated ex_coins 101).
  - by apply CheckTransaction_valid.
  - reflexivity.
  - reflexivity.
  - reflexivity.
  - by vm_compute.
  - constructor; [|constructor]. eexists. split; [reflexivity|]. cbn. lia.
  - by vm_compute.
Defined.
