(* ===== verification/Policy.v ===== *)
(** * Relay policy

    [script/solver.cpp]: the kinds of output scripts; [policy/policy.cpp]: dust
    and the transactions and inputs a node relays. *)

From S2P Require Import Prelude Digits JsString Bytes Crypto JsInt Tx NodeTx ScriptError NodeScript ScriptNum Interpreter Verify SoftFork Validation JsNum NodeFee TxCheck.

Open Scope Z_scope.
Open Scope list_scope.

(** ** Kinds of scripts *)

Inductive TxoutType : Type :=
  | NONSTANDARD | PUBKEY | PUBKEYHASH | SCRIPTHASH | MULTISIG | NULL_DATA | WITNESS_V0_SCRIPTHASH | WITNESS_V0_KEYHASH
  | WITNESS_V1_TAPROOT | WITNESS_UNKNOWN.

Definition ValidSize (vch : list Z) : bool :=
  match vch with [] => false | h :: _ => GetLen h =? Z.of_nat (length vch) end.

Definition back (script : list Z) : Z := List.last script 0.

Definition MatchPayToPubkey (script : list Z) : option (list Z) :=
  let try_size (n : nat) :=
    if (length script =? n + 2)%nat && (byte0 script =? Z.of_nat n) && (back script =? OP_CHECKSIG)
    then Some (take n (drop 1 script)) else None in
  match try_size 65%nat with
  | Some pubkey => if ValidSize pubkey then Some pubkey else None
  | None => match try_size 33%nat with Some pubkey => if ValidSize pubkey then Some pubkey else None | None => None end
  end.

Definition MatchPayToPubkeyHash (script : list Z) : option (list Z) :=
  if (length script =? 25)%nat && (nth 0 script 0 =? OP_DUP) && (nth 1 script 0 =? OP_HASH160) && (nth 2 script 0 =? 20) &&
     (nth 23 script 0 =? OP_EQUALVERIFY) && (nth 24 script 0 =? OP_CHECKSIG)
  then Some (take 20 (drop 3 script)) else None.

Definition IsSmallInteger (opcode : Z) : bool := (OP_1 <=? opcode) && (opcode <=? OP_16).
Definition IsPushdataOp (opcode : Z) : bool := (0 <? opcode) && (opcode <=? OP_PUSHDATA4).

Definition GetScriptNumber (opcode : Z) (data : list Z) (min max : Z) : option Z :=
  let count :=
    if IsSmallInteger opcode then Some (DecodeOP_N opcode)
    else if IsPushdataOp opcode then
      if negb (CheckMinimalPush data opcode) then None
      else match CScriptNum data true nDefaultMaxNumSize with Ret n => Some (getint n) | _ => None end
    else None in
  match count with
  | Some count => if (count <? min) || (max <? count) then None else Some count
  | None => None
  end.

(** The loop over the keys: the opcode that ends it, its data, the rest and the
    keys. *)
Fixpoint multisig_keys (fuel : nat) (pc : list Z) (pubkeys : list (list Z)) : Z * list Z * list Z * list (list Z) :=
  let '(ok, opcode, data, pc) := GetScriptOp pc in
  match fuel with
  | O => (opcode, data, pc, pubkeys)
  | S fuel => if ok && ValidSize data then multisig_keys fuel pc (pubkeys ++ [data]) else (opcode, data, pc, pubkeys)
  end.

Definition MatchMultisig (script : list Z) : option (Z * list (list Z)) :=
  if (length script <? 1)%nat || negb (back script =? OP_CHECKMULTISIG) then None else
  let '(ok, opcode, data, it) := GetScriptOp script in
  if negb ok then None else
  match GetScriptNumber opcode data 1 MAX_PUBKEYS_PER_MULTISIG with
  | None => None
  | Some required_sigs =>
      let '(opcode, data, it, pubkeys) := multisig_keys (length it) it [] in
      match GetScriptNumber opcode data required_sigs MAX_PUBKEYS_PER_MULTISIG with
      | None => None
      | Some num_keys =>
          if negb (Z.of_nat (length pubkeys) =? num_keys) then None
          else if (length it =? 1)%nat then Some (required_sigs, pubkeys) else None
      end
  end.

Definition Solver (scriptPubKey : list Z) : TxoutType * list (list Z) :=
  if IsPayToScriptHash scriptPubKey then (SCRIPTHASH, [take 20 (drop 2 scriptPubKey)]) else
  match IsWitnessProgram scriptPubKey with
  | Some (version, program) =>
      if (version =? 0) && (length program =? WITNESS_V0_KEYHASH_SIZE)%nat then (WITNESS_V0_KEYHASH, [program])
      else if (version =? 0) && (length program =? WITNESS_V0_SCRIPTHASH_SIZE)%nat then (WITNESS_V0_SCRIPTHASH, [program])
      else if (version =? 1) && (length program =? WITNESS_V1_TAPROOT_SIZE)%nat then (WITNESS_V1_TAPROOT, [program])
      else if negb (version =? 0) then (WITNESS_UNKNOWN, [[version]; program])
      else (NONSTANDARD, [])
  | None =>
      if (1 <=? length scriptPubKey)%nat && (byte0 scriptPubKey =? OP_RETURN) && IsPushOnly (drop 1 scriptPubKey) then (NULL_DATA, [])
      else match MatchPayToPubkey scriptPubKey with
      | Some data => (PUBKEY, [data])
      | None =>
          match MatchPayToPubkeyHash scriptPubKey with
          | Some data => (PUBKEYHASH, [data])
          | None =>
              match MatchMultisig scriptPubKey with
              | Some (required, keys) => (MULTISIG, [required] :: keys ++ [[Z.of_nat (length keys)]])
              | None => (NONSTANDARD, [])
              end
          end
      end
  end.

(** ** Dust *)

Definition IsUnspendable (script : list Z) : bool :=
  ((0 <? length script)%nat && (byte0 script =? OP_RETURN)) || (MAX_SCRIPT_SIZE <? Z.of_nat (length script)).

Definition GetDustThreshold (txout : CTxOut) (dustRelayFee : Z) : Z :=
  if IsUnspendable (out_scriptPubKey txout) then 0 else
  let nSize := Z.of_nat (length (write_txout txout)) in
  let nSize :=
    match IsWitnessProgram (out_scriptPubKey txout) with
    | Some _ => nSize + (32 + 4 + 1 + 107 / WITNESS_SCALE_FACTOR + 4)
    | None => nSize + (32 + 4 + 1 + 107 + 4)
    end in
  GetFee dustRelayFee nSize.

Definition IsDust (txout : CTxOut) (dustRelayFee : Z) : bool := nValue txout <? GetDustThreshold txout dustRelayFee.

(** ** Standard transactions *)

(** The settings of the node that policy reads. *)
Record PolicySettings : Type := {
  max_datacarrier_bytes : option Z;
  permit_bare_multisig : bool;
  dust_relay_fee : Z
}.

Definition is_witness_type (t : TxoutType) : bool :=
  match t with WITNESS_V0_SCRIPTHASH | WITNESS_V0_KEYHASH | WITNESS_V1_TAPROOT | WITNESS_UNKNOWN => true | _ => false end.

Definition IsStandard (settings : PolicySettings) (scriptPubKey : list Z) (witnessEnabled : bool) : bool * TxoutType :=
  let '(whichType, vSolutions) := Solver scriptPubKey in
  (match whichType with
   | NONSTANDARD => false
   | MULTISIG =>
       let m := byte0 (default [] (head vSolutions)) in
       let n := byte0 (List.last vSolutions []) in
       negb ((n <? 1) || (3 <? n)) && negb ((m <? 1) || (n <? m))
   | NULL_DATA =>
       match max_datacarrier_bytes settings with
       | None => false
       | Some max => negb (max <? Z.of_nat (length scriptPubKey))
       end
   | _ => negb (negb witnessEnabled && is_witness_type whichType)
   end, whichType).

Definition TX_MAX_STANDARD_VERSION : Z := 2.
Definition MAX_STANDARD_TX_WEIGHT : Z := 400000.
Definition MAX_STANDARD_SCRIPTSIG_SIZE : Z := 1650.
Definition MAX_P2SH_SIGOPS : Z := 15.

Fixpoint standard_inputs (vin : list CTxIn) : option string :=
  match vin with
  | [] => None
  | txin :: vin =>
      if MAX_STANDARD_SCRIPTSIG_SIZE <? Z.of_nat (length (in_scriptSig txin)) then Some "scriptsig-size"
      else if negb (IsPushOnly (in_scriptSig txin)) then Some "scriptsig-not-pushonly"
      else standard_inputs vin
  end.

(** The number of data outputs, or the reason to refuse. *)
Fixpoint standard_outputs (settings : PolicySettings) (witnessEnabled : bool) (nDataOut : Z) (vout : list CTxOut) : string + Z :=
  match vout with
  | [] => inr nDataOut
  | txout :: vout =>
      let '(standard, whichType) := IsStandard settings (out_scriptPubKey txout) witnessEnabled in
      if negb standard then inl "scriptpubkey" else
      match whichType with
      | NULL_DATA => standard_outputs settings witnessEnabled (nDataOut + 1) vout
      | _ =>
          if match whichType with MULTISIG => negb (permit_bare_multisig settings) | _ => false end then inl "bare-multisig"
          else if IsDust txout (dust_relay_fee settings) then inl "dust"
          else standard_outputs settings witnessEnabled nDataOut vout
      end
  end.

(** The reason to refuse a transaction, [None] for a standard one. *)
Definition IsStandardTx (settings : PolicySettings) (tx : CTransaction) (witnessEnabled : bool) : option string :=
  if (TX_MAX_STANDARD_VERSION <? nVersion tx) || (nVersion tx <? 1) then Some "version"
  else if MAX_STANDARD_TX_WEIGHT <? GetTransactionWeight tx then Some "tx-size"
  else match standard_inputs (vin tx) with
  | Some reason => Some reason
  | None =>
      match standard_outputs settings witnessEnabled 0 (vout tx) with
      | inl reason => Some reason
      | inr nDataOut =>
          if (1 <? nDataOut) && (Z.of_nat (length (vout tx)) / 2 <? nDataOut) then Some "multi-op-return" else None
      end
  end.

(** ** Standard inputs *)

(** [AccessCoin]: a coin that is not there reads as an output of no script. *)
Definition spent_script (inputs : CCoinsView) (txin : CTxIn) : list Z :=
  from_option (fun c => out_scriptPubKey (coin_out c)) [] (inputs (prevout txin)).

Section Inputs.
Context `{Crypto}.

(** The script an input shows for a script hash: the top of the stack that its
    evaluation leaves. *)
Definition shown_script (scriptSig : list Z) : script_res (option (list Z)) :=
  match EvalBase base_checker SCRIPT_VERIFY_NONE [] scriptSig with
  | Ret (top :: _) => Ret (Some top)
  | Ret [] | Err _ => Ret None
  | Abort => Abort
  end.

Definition input_standard (inputs : CCoinsView) (txin : CTxIn) : script_res bool :=
  let script := spent_script inputs txin in
  match (Solver script).1 with
  | NONSTANDARD | WITNESS_UNKNOWN => Ret false
  | SCRIPTHASH =>
      shown ← shown_script (in_scriptSig txin);
      match shown with
      | None => Ret false
      | Some subscript => Ret (negb (MAX_P2SH_SIGOPS <? GetSigOpCount true subscript))
      end
  | _ => Ret true
  end.

Fixpoint all_inputs (f : CTxIn -> script_res bool) (vin : list CTxIn) : script_res bool :=
  match vin with
  | [] => Ret true
  | txin :: vin => ok ← f txin; if ok : bool then all_inputs f vin else Ret false
  end.

Definition AreInputsStandard (tx : CTransaction) (inputs : CCoinsView) : script_res bool :=
  if IsCoinBase tx then Ret true else all_inputs (input_standard inputs) (vin tx).

Definition MAX_STANDARD_P2WSH_STACK_ITEMS : nat := 100.
Definition MAX_STANDARD_P2WSH_STACK_ITEM_SIZE : nat := 80.
Definition MAX_STANDARD_TAPSCRIPT_STACK_ITEM_SIZE : nat := 80.
Definition MAX_STANDARD_P2WSH_SCRIPT_SIZE : nat := 3600.
Definition MAX_STANDARD_WITNESS_SIZE : Z := 100000.

Definition p2wsh_limits (witness : list (list Z)) : bool :=
  negb (MAX_STANDARD_P2WSH_SCRIPT_SIZE <? length (List.last witness []))%nat &&
  negb (MAX_STANDARD_P2WSH_STACK_ITEMS <? length witness - 1)%nat &&
  forallb (fun item => negb (MAX_STANDARD_P2WSH_STACK_ITEM_SIZE <? length item)%nat) (removelast witness).

Definition taproot_limits (stack : list (list Z)) : bool :=
  let top := List.last stack [] in
  if (2 <=? length stack)%nat && negb (length top =? 0)%nat && (byte0 top =? ANNEX_TAG) then false
  else if (2 <=? length stack)%nat then
    if (length top =? 0)%nat then false
    else if Z.land (byte0 top) TAPROOT_LEAF_MASK =? TAPROOT_LEAF_TAPSCRIPT then
      forallb (fun item => negb (MAX_STANDARD_TAPSCRIPT_STACK_ITEM_SIZE <? length item)%nat) (removelast (removelast stack))
    else true
  else (length stack =? 1)%nat.

Definition witness_standard (inputs : CCoinsView) (txin : CTxIn) : script_res bool :=
  let witness := scriptWitness txin in
  if IsNullWitness witness then Ret true else
  let prevScript := spent_script inputs txin in
  let p2sh := IsPayToScriptHash prevScript in
  shown ← (if p2sh then shown_script (in_scriptSig txin) else Ret (Some prevScript));
  match shown ≫= IsWitnessProgram with
  | None => Ret false
  | Some (version, program) =>
      if (version =? 0) && (length program =? WITNESS_V0_SCRIPTHASH_SIZE)%nat && negb (p2wsh_limits witness) then Ret false
      else if (version =? 1) && (length program =? WITNESS_V1_TAPROOT_SIZE)%nat && negb p2sh && negb (taproot_limits witness) then Ret false
      else Ret (negb (MAX_STANDARD_WITNESS_SIZE <? foldr Z.add 0 ((fun item => Z.of_nat (length item)) <$> witness)))
  end.

Definition IsWitnessStandard (tx : CTransaction) (inputs : CCoinsView) : script_res bool :=
  if IsCoinBase tx then Ret true else all_inputs (witness_standard inputs) (vin tx).

End Inputs.
