(* ===== verification/Block.v ===== *)
(** * Blocks

    The verdict on a block ([consensus/validation.h]), the header and the block
    ([primitives/block.h] and [.cpp]) and the commitment to the witnesses in the
    first transaction. *)

From S2P Require Import Prelude Digits JsString Bytes Crypto JsInt Tx NodeTx ScriptError NodeScript Validation NodeFee.

Open Scope Z_scope.
Open Scope list_scope.

(** ** Verdicts *)

Inductive BlockValidationResult : Type :=
  | BLOCK_RESULT_UNSET
  | BLOCK_CONSENSUS
  | BLOCK_RECENT_CONSENSUS_CHANGE
  | BLOCK_CACHED_INVALID
  | BLOCK_INVALID_HEADER
  | BLOCK_MUTATED
  | BLOCK_MISSING_PREV
  | BLOCK_INVALID_PREV
  | BLOCK_TIME_FUTURE
  | BLOCK_CHECKPOINT
  | BLOCK_HEADER_SPAM
  | BLOCK_HEADER_REJECT
  | BLOCK_HEADER_SYNC
  | BLOCK_HEADER_LOW_WORK.

(** A check with its [BlockValidationState]: [true], [false] with a reason in the
    state, [false] with the state left as it was, or a stop by an assertion, an
    exception or an overflow of a signed integer. *)
Inductive verdict (A : Type) : Type :=
  | Accepted (a : A)
  | Refused (r : BlockValidationResult) (reason : string)
  | Undecided
  | Stopped.
Arguments Accepted {A}.
Arguments Refused {A}.
Arguments Undecided {A}.
Arguments Stopped {A}.

#[global] Instance verdict_ret : MRet verdict := fun A a => Accepted a.
#[global] Instance verdict_bind : MBind verdict := fun A B f m =>
  match m with Accepted a => f a | Refused r s => Refused r s | Undecided => Undecided | Stopped => Stopped end.

Definition refuse_if (c : bool) (r : BlockValidationResult) (reason : string) : verdict unit := if c then Refused r reason else Accepted tt.
Definition assert_that (c : bool) : verdict unit := if c then Accepted tt else Stopped.

(** The sum of two signed 64-bit numbers, undefined where it overflows. *)
Definition add_int64 (a b : Z) : verdict Z :=
  if (- 2 ^ 63 <=? a + b) && (a + b <? 2 ^ 63) then Accepted (a + b) else Stopped.

(** A transaction that fails makes its block fail. *)
Definition of_tx {A} (m : check A) : verdict A :=
  match m with Valid a => Accepted a | Invalid _ reason => Refused BLOCK_CONSENSUS reason | Crash => Stopped end.

Lemma verdict_bind_accepted {A B} (m : verdict A) (f : A -> verdict B) b :
  (m ≫= f) = Accepted b <-> exists a, m = Accepted a /\ f a = Accepted b.
Proof. destruct m; cbn; split; [by eexists| |done| |done| |done|]; intros (a' & ? & ?); by simplify_eq. Qed.

Lemma refuse_if_accepted c r s u : refuse_if c r s = Accepted u <-> c = false.
Proof. destruct c, u; done. Qed.

Lemma assert_that_accepted c u : assert_that c = Accepted u <-> c = true.
Proof. destruct c, u; done. Qed.

Definition is_accepted {A} (m : verdict A) : bool := match m with Accepted _ => true | _ => false end.

Lemma accepted_exists {A} (m : verdict A) : is_accepted m = true -> exists a, m = Accepted a.
Proof. destruct m; [by eexists|done..]. Qed.

Lemma verdict_seq {B} (m : verdict unit) (k : verdict B) b : (_ ← m; k) = Accepted b <-> m = Accepted tt /\ k = Accepted b.
Proof. rewrite verdict_bind_accepted. split; [intros ([] & ? & ?); done|intros []; by exists tt]. Qed.

Lemma of_tx_accepted {A} (m : check A) a : of_tx m = Accepted a <-> m = Valid a.
Proof. destruct m; cbn; naive_solver. Qed.

Lemma add_int64_accepted a b c : add_int64 a b = Accepted c -> c = a + b.
Proof. unfold add_int64. case_match; [by intros [= <-]|done]. Qed.

(** ** Headers and blocks *)

Record CBlockHeader : Type := {
  bh_nVersion : Z;
  hashPrevBlock : list Z;
  hashMerkleRoot : list Z;
  bh_nTime : Z;
  bh_nBits : Z;
  nNonce : Z;
  bh_nFlags : Z
}.

(** The last three fields are in memory only and remember which checks the block has
    passed. *)
Record CBlock : Type := {
  header : CBlockHeader; vtx : list CTransaction; vchBlockSig : list Z;
  fChecked : bool; m_checked_witness_commitment : bool; m_checked_merkle_root : bool
}.

Definition set_fChecked (b : CBlock) : CBlock :=
  {| header := header b; vtx := vtx b; vchBlockSig := vchBlockSig b;
     fChecked := true; m_checked_witness_commitment := m_checked_witness_commitment b; m_checked_merkle_root := m_checked_merkle_root b |}.
Definition set_checked_witness (b : CBlock) : CBlock :=
  {| header := header b; vtx := vtx b; vchBlockSig := vchBlockSig b;
     fChecked := fChecked b; m_checked_witness_commitment := true; m_checked_merkle_root := m_checked_merkle_root b |}.
Definition set_checked_root (b : CBlock) : CBlock :=
  {| header := header b; vtx := vtx b; vchBlockSig := vchBlockSig b;
     fChecked := fChecked b; m_checked_witness_commitment := m_checked_witness_commitment b; m_checked_merkle_root := true |}.

(** A block as it is read, and what is left of one when the marks are forgotten. *)
Definition as_read (h : CBlockHeader) (txs : list CTransaction) (sig : list Z) : CBlock :=
  {| header := h; vtx := txs; vchBlockSig := sig; fChecked := false; m_checked_witness_commitment := false; m_checked_merkle_root := false |}.
Definition unmarked (b : CBlock) : CBlock := as_read (header b) (vtx b) (vchBlockSig b).

Definition BlockIsProofOfStake (block : CBlock) : bool :=
  match vtx block with _ :: tx :: _ => IsCoinStake tx | _ => false end.

(** What is hashed: the flags of a header are not. *)
Definition write_header (h : CBlockHeader) : list Z :=
  le_bytes 4 (bh_nVersion h) ++ hashPrevBlock h ++ hashMerkleRoot h ++ le_bytes 4 (bh_nTime h) ++ le_bytes 4 (bh_nBits h) ++ le_bytes 4 (nNonce h).

Definition BlockSize (fAllowWitness : bool) (block : CBlock) : Z :=
  Z.of_nat (length (write_header (header block) ++ write_vector (SerializeTransaction fAllowWitness) (vtx block) ++ write_blob (vchBlockSig block))).

Definition GetBlockWeight (block : CBlock) : Z := BlockSize false block * (WITNESS_SCALE_FACTOR - 1) + BlockSize true block.

Section Hash.
Context `{Crypto} (scrypt_1024_1_1_256 : list Z -> list Z).

Definition GetPoWHash (h : CBlockHeader) : list Z := scrypt_1024_1_1_256 (write_header h).
Definition BlockHash (h : CBlockHeader) : list Z := if 6 <? bh_nVersion h then doubleSha256 (write_header h) else GetPoWHash h.

End Hash.

(** ** The witness commitment *)

Definition MINIMUM_WITNESS_COMMITMENT : nat := 38.

Definition is_witness_commitment (script : list Z) : bool :=
  (MINIMUM_WITNESS_COMMITMENT <=? length script)%nat && bool_decide (take 6 script = [0x6a; 0x24; 0xaa; 0x21; 0xa9; 0xed]).

(** The number of the last output that commits; [None] is [NO_WITNESS_COMMITMENT]. *)
Fixpoint last_commitment (o : nat) (commitpos : option nat) (vout : list CTxOut) : option nat :=
  match vout with
  | [] => commitpos
  | out :: vout => last_commitment (S o) (if is_witness_commitment (out_scriptPubKey out) then Some o else commitpos) vout
  end.

Definition GetWitnessCommitmentIndex (block : CBlock) : option nat :=
  match vtx block with [] => None | tx :: _ => last_commitment 0 None (vout tx) end.
