(* ===== verification/Merkle.v ===== *)
(** * Merkle trees

    [consensus/merkle.cpp], and the checks of a block that use it
    ([validation.cpp]: [CheckMerkleRoot], [CheckWitnessMalleation]).  A root that
    passes them binds the transactions of its block. *)

From S2P Require Import Prelude Digits JsString Bytes Crypto JsInt Tx NodeTx ScriptError NodeScript Validation NodeFee Block.

Open Scope Z_scope.
Open Scope list_scope.

Section Merkle.
Context `{Crypto}.

(** The scan for equal neighbours on one level. *)
Fixpoint equal_pair (hashes : list (list Z)) : bool :=
  match hashes with a :: b :: hashes => bool_decide (a = b) || equal_pair hashes | _ => false end.

(** [SHA256D64] on one level, the last hash repeated where the number is odd. *)
Fixpoint hash_level (hashes : list (list Z)) : list (list Z) :=
  match hashes with
  | [] => []
  | [a] => [doubleSha256 (a ++ a)]
  | a :: b :: hashes => doubleSha256 (a ++ b) :: hash_level hashes
  end.

(** The loop; every level is shorter than the one before. *)
Fixpoint merkle_levels (fuel : nat) (mutation : bool) (hashes : list (list Z)) : list Z * bool :=
  match hashes, fuel with
  | [], _ => (replicate 32 0, mutation)
  | [h], _ => (h, mutation)
  | h :: _, O => (h, mutation)
  | _, S fuel => merkle_levels fuel (mutation || equal_pair hashes) (hash_level hashes)
  end.

Definition ComputeMerkleRoot (hashes : list (list Z)) : list Z * bool := merkle_levels (length hashes) false hashes.

Definition BlockMerkleRoot (block : CBlock) : list Z * bool := ComputeMerkleRoot (GetHash <$> vtx block).

Definition BlockWitnessMerkleRoot (block : CBlock) : list Z :=
  (ComputeMerkleRoot (match vtx block with [] => [] | _ :: txs => replicate 32 0 :: (GetWitnessHash <$> txs) end)).1.

Definition CheckMerkleRoot (block : CBlock) : verdict CBlock :=
  if m_checked_merkle_root block then Accepted block else
  let '(merkle_root, mutated) := BlockMerkleRoot block in
  _ ← refuse_if (negb (bool_decide (hashMerkleRoot (header block) = merkle_root))) BLOCK_MUTATED "bad-txnmrklroot";
  _ ← refuse_if mutated BLOCK_MUTATED "bad-txns-duplicate";
  Accepted (set_checked_root block).

Definition CheckWitnessMalleation (block : CBlock) (expect_witness_commitment : bool) : verdict CBlock :=
  if expect_witness_commitment && m_checked_witness_commitment block then Accepted block else
  match (if expect_witness_commitment then GetWitnessCommitmentIndex block else None) with
  | Some commitpos =>
      match vtx block with
      | tx :: _ =>
          match vin tx with
          | [] => Stopped
          | txin :: _ =>
              match scriptWitness txin with
              | [reserved] =>
                  _ ← refuse_if (negb (length reserved =? 32)%nat) BLOCK_MUTATED "bad-witness-nonce-size";
                  let hash_witness := doubleSha256 (BlockWitnessMerkleRoot block ++ reserved) in
                  let committed := take 32 (drop 6 (from_option out_scriptPubKey [] (vout tx !! commitpos))) in
                  _ ← refuse_if (negb (bool_decide (hash_witness = committed))) BLOCK_MUTATED "bad-witness-merkle-match";
                  Accepted (set_checked_witness block)
              | _ => Refused BLOCK_MUTATED "bad-witness-nonce-size"
              end
          end
      | [] => Stopped
      end
  | None => _ ← refuse_if (existsb (fun tx => HasWitness (vin tx)) (vtx block)) BLOCK_MUTATED "unexpected-witness"; Accepted block
  end.

(** ** The loop *)

Lemma hash_level_length l : length (hash_level l) = ((length l + 1) / 2)%nat.
Proof.
  induction l as [l IH] using (induction_ltof1 _ (@length _)). unfold ltof in IH. destruct l as [|a [|b l]]; [done|done|].
  cbn [hash_level length]. rewrite IH by (cbn; lia). replace (S (S (length l)) + 1)%nat with (1 * 2 + (length l + 1))%nat by lia.
  rewrite Nat.div_add_l by lia. lia.
Qed.

Lemma half_smaller n : (1 < n)%nat -> (0 < (n + 1) / 2 < n)%nat.
Proof. intros Hn. split; [apply Nat.div_str_pos; lia|]. apply Nat.Div0.div_lt_upper_bound; lia. Qed.

Lemma merkle_levels_fuel fuel fuel' m l :
  (length l <= fuel)%nat -> (length l <= fuel')%nat -> merkle_levels fuel m l = merkle_levels fuel' m l.
Proof.
  revert fuel' m l. induction fuel as [|fuel IH]; intros fuel' m l Hf Hf'; [destruct l; [by destruct fuel'|cbn in Hf; lia]|].
  destruct l as [|a [|b l]]; [by destruct fuel'|by destruct fuel'|]. destruct fuel' as [|fuel']; [cbn in Hf'; lia|].
  pose proof (half_smaller (length (a :: b :: l)) ltac:(cbn; lia)).
  change (merkle_levels fuel (m || equal_pair (a :: b :: l)) (hash_level (a :: b :: l)) =
    merkle_levels fuel' (m || equal_pair (a :: b :: l)) (hash_level (a :: b :: l))). apply IH; rewrite hash_level_length; lia.
Qed.

(** One turn of the loop. *)
Lemma merkle_step m l : (1 < length l)%nat ->
  merkle_levels (length l) m l = merkle_levels (length (hash_level l)) (m || equal_pair l) (hash_level l).
Proof.
  intros Hl. destruct l as [|a [|b l]]; [cbn in Hl; lia|cbn in Hl; lia|].
  change (length (a :: b :: l)) with (S (length (b :: l))). cbn [merkle_levels]. apply merkle_levels_fuel; [|done].
  rewrite hash_level_length. pose proof (half_smaller (length (a :: b :: l)) ltac:(cbn; lia)). cbn in *. lia.
Qed.

Lemma merkle_mutated_keeps m l fuel : (merkle_levels fuel m l).2 = false -> m = false.
Proof.
  revert m l. induction fuel as [|fuel IH]; intros m l; destruct l as [|a [|b l]]; cbn [merkle_levels snd]; try done.
  intros Hf%IH. by apply orb_false_iff in Hf as [? _].
Qed.

(** ** What a root binds *)

(** What the nodes of one level, and of the whole tree, are hashed from. *)
Fixpoint level_inputs (hashes : list (list Z)) : list (list Z) :=
  match hashes with
  | [] => []
  | [a] => [a ++ a]
  | a :: b :: hashes => (a ++ b) :: level_inputs hashes
  end.

Fixpoint tree_inputs (fuel : nat) (hashes : list (list Z)) : list (list Z) :=
  match hashes, fuel with
  | [], _ | [_], _ | _, O => []
  | _, S fuel => level_inputs hashes ++ tree_inputs fuel (hash_level hashes)
  end.

Definition block_inputs (block : CBlock) : list (list Z) := tree_inputs (length (vtx block)) (GetHash <$> vtx block).

(** No node of the one tree has the hash of a different node of the other. *)
Definition no_collision (xs ys : list (list Z)) : Prop := forall x y, x ∈ xs -> y ∈ ys -> doubleSha256 x = doubleSha256 y -> x = y.

Fixpoint pad (l : list (list Z)) : list (list Z) :=
  match l with [] => [] | [a] => [a; a] | a :: b :: l => a :: b :: pad l end.

Definition hash32 (h : list Z) : Prop := length h = 32%nat.

Lemma hash_level_inputs l : hash_level l = doubleSha256 <$> level_inputs l.
Proof.
  induction l as [l IH] using (induction_ltof1 _ (@length _)). unfold ltof in IH. destruct l as [|a [|b l]]; [done|done|].
  cbn [hash_level level_inputs]. by rewrite fmap_cons, IH by (cbn; lia).
Qed.

Definition no_collision_b (xs ys : list (list Z)) : bool :=
  forallb (fun x => forallb (fun y => negb (bool_decide (doubleSha256 x = doubleSha256 y)) || bool_decide (x = y)) ys) xs.

Lemma no_collision_dec xs ys : no_collision_b xs ys = true -> no_collision xs ys.
Proof.
  unfold no_collision_b. rewrite forallb_forall. intros Hf x y Hx Hy He. specialize (Hf x (proj1 (list_elem_of_In _ _) Hx)).
  rewrite forallb_forall in Hf. specialize (Hf y (proj1 (list_elem_of_In _ _) Hy)). rewrite bool_decide_true in Hf by done. by apply bool_decide_eq_true in Hf.
Qed.

Lemma fmap_no_collision xs ys : no_collision xs ys -> doubleSha256 <$> xs = doubleSha256 <$> ys -> xs = ys.
Proof.
  revert ys. induction xs as [|x xs IH]; intros [|y ys] Hn He; [done..|]. rewrite !fmap_cons in He. injection He as Hx Hxs. f_equal.
  - apply Hn; [left|left|done].
  - apply IH; [|done]. intros a b Ha Hb. apply Hn; by right.
Qed.

Lemma level_inputs_inj l1 l2 : Forall hash32 l1 -> Forall hash32 l2 -> level_inputs l1 = level_inputs l2 -> pad l1 = pad l2.
Proof.
  unfold hash32. revert l2. induction l1 as [l1 IH] using (induction_ltof1 _ (@length _)). unfold ltof in IH. intros l2 H1 H2 He.
  assert (forall l, level_inputs l = [] -> l = []) as Hnil by (by intros [|? [|? ?]]).
  destruct l1 as [|a [|b l1]], l2 as [|c [|d l2]]; try done; cbn [level_inputs] in He; injection He; clear He;
    repeat match goal with H : Forall _ (_ :: _) |- _ => apply Forall_cons_1 in H as [? H] end.
  - intros [-> _]%app_inj_1; [done|lia].
  - intros Hn [-> ->]%app_inj_1; [|lia]. by rewrite (Hnil l2).
  - intros Hn [-> ->]%app_inj_1; [|lia]. by rewrite (Hnil l1).
  - intros Hl [-> ->]%app_inj_1; [|lia]. cbn [pad]. by rewrite (IH l1 ltac:(cbn; lia) l2).
Qed.

Lemma tree_inputs_fuel fuel fuel' l : (length l <= fuel)%nat -> (length l <= fuel')%nat -> tree_inputs fuel l = tree_inputs fuel' l.
Proof.
  revert fuel' l. induction fuel as [|fuel IH]; intros fuel' l Hf Hf'; [destruct l; [by destruct fuel'|cbn in Hf; lia]|].
  destruct l as [|a [|b l]]; [by destruct fuel'|by destruct fuel'|]. destruct fuel' as [|fuel']; [cbn in Hf'; lia|].
  pose proof (half_smaller (length (a :: b :: l)) ltac:(cbn; lia)).
  change (level_inputs (a :: b :: l) ++ tree_inputs fuel (hash_level (a :: b :: l)) = level_inputs (a :: b :: l) ++ tree_inputs fuel' (hash_level (a :: b :: l))).
  f_equal. apply IH; rewrite hash_level_length; lia.
Qed.

Lemma tree_inputs_step l : (1 < length l)%nat ->
  tree_inputs (length l) l = level_inputs l ++ tree_inputs (length (hash_level l)) (hash_level l).
Proof.
  intros Hl. destruct l as [|a [|b l]]; [cbn in Hl; lia|cbn in Hl; lia|].
  change (length (a :: b :: l)) with (S (length (b :: l))). cbn [tree_inputs]. f_equal. apply tree_inputs_fuel; [|done].
  rewrite hash_level_length. pose proof (half_smaller (length (a :: b :: l)) ltac:(cbn; lia)). cbn in *. lia.
Qed.

Lemma pad_inj l1 l2 : equal_pair l1 = false -> equal_pair l2 = false -> pad l1 = pad l2 -> l1 = l2.
Proof.
  revert l2. induction l1 as [l1 IH] using (induction_ltof1 _ (@length _)). unfold ltof in IH. intros l2 H1 H2 He.
  assert (forall l, pad l = [] -> l = []) as Hnil by (by intros [|? [|? ?]]).
  destruct l1 as [|a [|b l1]], l2 as [|c [|d l2]]; try done; cbn [pad] in He; cbn [equal_pair] in *.
  - by injection He as ->.
  - injection He as -> <- _. by rewrite bool_decide_true in H2.
  - injection He as <- -> _. by rewrite bool_decide_true in H1.
  - injection He as -> -> He. apply orb_false_iff in H1 as [_ H1], H2 as [_ H2]. by rewrite (IH l1 ltac:(cbn; lia) l2).
Qed.

Context `{!CryptoLaws}.

Lemma hash_level_32 l : Forall hash32 (hash_level l).
Proof.
  induction l as [l IH] using (induction_ltof1 _ (@length _)). unfold ltof in IH.
  destruct l as [|a [|b l]]; cbn [hash_level]; repeat constructor; [apply doubleSha256_length..|]. apply IH. cbn. lia.
Qed.

(** The number of levels above the leaves. *)
Fixpoint levels (fuel n : nat) : nat :=
  match fuel with O => O | S fuel => if (n <=? 1)%nat then O else S (levels fuel ((n + 1) / 2)) end.

Definition height_of_tree (n : nat) : nat := levels n n.

Lemma levels_fuel fuel fuel' n : (n <= fuel)%nat -> (n <= fuel')%nat -> levels fuel n = levels fuel' n.
Proof.
  revert fuel' n. induction fuel as [|fuel IH]; intros fuel' n Hf Hf'; [replace n with 0%nat by lia; by destruct fuel'|].
  destruct fuel' as [|fuel']; [by replace n with 0%nat by lia|]. cbn [levels]. destruct (Nat.leb_spec n 1); [done|].
  pose proof (half_smaller n ltac:(lia)). f_equal. apply IH; lia.
Qed.

Lemma height_step n : (1 < n)%nat -> height_of_tree n = S (height_of_tree ((n + 1) / 2)).
Proof.
  intros Hn. unfold height_of_tree. destruct n as [|n]; [lia|]. cbn [levels]. rewrite (proj2 (Nat.leb_gt _ _)) by lia. f_equal.
  pose proof (half_smaller (S n) Hn). apply levels_fuel; lia.
Qed.

Lemma root_binds m1 m2 l1 l2 :
  Forall hash32 l1 -> Forall hash32 l2 -> l1 <> [] -> l2 <> [] -> height_of_tree (length l1) = height_of_tree (length l2) ->
  let r1 := merkle_levels (length l1) m1 l1 in let r2 := merkle_levels (length l2) m2 l2 in
  no_collision (tree_inputs (length l1) l1) (tree_inputs (length l2) l2) -> r1.2 = false -> r2.2 = false -> r1.1 = r2.1 -> l1 = l2.
Proof.
  intros H1 H2 N1 N2 Hh. cbv zeta. remember (height_of_tree (length l1)) as k eqn:Hk. revert m1 m2 l1 l2 H1 H2 N1 N2 Hk Hh.
  induction k as [|k IH]; intros m1 m2 l1 l2 H1 H2 N1 N2 Hk Hh Hnc M1 M2 He.
  - assert (forall l : list (list Z), l <> [] -> 0%nat = height_of_tree (length l) -> exists h, l = [h]) as Hone.
    { intros [|a [|b l]] Hn Hl; [done|by exists a|]. by rewrite height_step in Hl by (cbn; lia). }
    destruct (Hone l1) as [a ->], (Hone l2) as [b ->]; [done..|]. cbn in He. by subst.
  - assert (forall l : list (list Z), S k = height_of_tree (length l) -> (1 < length l)%nat) as Htwo.
    { intros [|a [|b l]] Hl; [done|done|cbn; lia]. }
    pose proof (Htwo l1 Hk) as L1. pose proof (Htwo l2 Hh) as L2. rewrite height_step in Hk, Hh by done.
    rewrite (merkle_step _ l1) in M1, He by done. rewrite (merkle_step _ l2) in M2, He by done.
    pose proof (half_smaller _ L1). pose proof (half_smaller _ L2).
    rewrite (tree_inputs_step l1), (tree_inputs_step l2) in Hnc by done.
    assert (hash_level l1 = hash_level l2) as E.
    { apply (IH (m1 || equal_pair l1) (m2 || equal_pair l2)); try done; try apply hash_level_32; rewrite ?hash_level_length; try congruence.
      1, 2: intros E; apply (f_equal length) in E; rewrite hash_level_length in E; change (length []) with 0%nat in E; lia.
      intros x y Hx Hy. rewrite <-hash_level_length in Hx, Hy. apply Hnc; set_solver. }
    apply merkle_mutated_keeps, orb_false_iff in M1 as [_ M1], M2 as [_ M2]. apply pad_inj, level_inputs_inj; try done.
    rewrite !hash_level_inputs in E. apply fmap_no_collision; [|done]. intros x y Hx Hy. apply Hnc; set_solver.
Qed.

(** A mark says what a check of the root would find. *)
Definition root_mark_ok (b : CBlock) : Prop :=
  m_checked_merkle_root b = true -> BlockMerkleRoot b = (hashMerkleRoot (header b), false).

Lemma CheckMerkleRoot_sound b b' :
  root_mark_ok b -> CheckMerkleRoot b = Accepted b' ->
  BlockMerkleRoot b = (hashMerkleRoot (header b), false) /\ root_mark_ok b' /\ unmarked b' = unmarked b /\ fChecked b' = fChecked b.
Proof.
  intros Hm. unfold CheckMerkleRoot. destruct (m_checked_merkle_root b) eqn:Em; [intros [= <-]; by rewrite (Hm Em)|].
  destruct (BlockMerkleRoot b) as [root mutated] eqn:Eb. rewrite !verdict_seq, !refuse_if_accepted, negb_false_iff, bool_decide_eq_true.
  intros (<- & -> & [= <-]). split; [done|]. split; [exact (fun _ => Eb)|done].
Qed.

(** C16: A header binds the transactions of its block.  Two blocks whose headers
    carry the same root, both past [CheckMerkleRoot] and with trees of the same
    height, hold transactions with the same identifiers in the same order, where no
    two different inputs that are hashed for nodes of these two trees have the same
    double SHA-256.  A mark left by an earlier check counts where it is true, as it
    is in a block just read and in one that was checked. *)
Theorem merkle_root_binds b1 b2 :
  vtx b1 <> [] -> vtx b2 <> [] -> hashMerkleRoot (header b1) = hashMerkleRoot (header b2) ->
  height_of_tree (length (vtx b1)) = height_of_tree (length (vtx b2)) ->
  root_mark_ok b1 -> root_mark_ok b2 -> is_accepted (CheckMerkleRoot b1) = true -> is_accepted (CheckMerkleRoot b2) = true ->
  no_collision (block_inputs b1) (block_inputs b2) ->
  GetHash <$> vtx b1 = GetHash <$> vtx b2.
Proof.
  intros N1 N2 He Hh M1 M2 [b1' A1]%accepted_exists [b2' A2]%accepted_exists Hnc.
  apply CheckMerkleRoot_sound in A1 as [E1 _]; [|done]. apply CheckMerkleRoot_sound in A2 as [E2 _]; [|done].
  unfold BlockMerkleRoot, ComputeMerkleRoot in E1, E2. set (l1 := GetHash <$> vtx b1) in *. set (l2 := GetHash <$> vtx b2) in *.
  assert (forall b, Forall hash32 (GetHash <$> vtx b)) as H32 by (intros b; apply Forall_fmap, Forall_true; intros; apply doubleSha256_length).
  apply (root_binds false false l1 l2); [apply H32|apply H32| | | | | | |].
  - by destruct (vtx b1).
  - by destruct (vtx b2).
  - by unfold l1, l2; rewrite !length_fmap.
  - unfold l1, l2. rewrite !length_fmap. exact Hnc.
  - by rewrite E1.
  - by rewrite E2.
  - rewrite E1, E2. cbn. congruence.
Qed.

End Merkle.

Definition ex_leaf (n : Z) : CTransaction := {|
  nVersion := 2; nTime := 0; nLockTime := n;
  vin := [{| prevout := {| op_hash := replicate 32 n; op_n := 0 |}; in_scriptSig := []; nSequence := 0xffffffff; scriptWitness := [] |}];
  vout := [{| nValue := 1000; out_scriptPubKey := [0x51] |}]
|}.

Definition ex_block (nonce : Z) (txs : list CTransaction) : CBlock := {|
  header := {| bh_nVersion := 7; hashPrevBlock := replicate 32 0; bh_nTime := 1789171264; bh_nBits := 0x1b00cde1; nNonce := nonce; bh_nFlags := 0;
    hashMerkleRoot := (@ComputeMerkleRoot small_crypto (@GetHash small_crypto <$> txs)).1 |};
  vtx := txs; vchBlockSig := []; fChecked := false; m_checked_witness_commitment := false; m_checked_merkle_root := false
|}.

(** The last transaction twice gives the same root and is refused. *)
Lemma merkle_root_binds_witness :
  let txs := [ex_leaf 1; ex_leaf 2; ex_leaf 3] in
  @GetHash small_crypto <$> vtx (ex_block 1 txs) = @GetHash small_crypto <$> vtx (ex_block 2 txs) /\
  @BlockMerkleRoot small_crypto (ex_block 1 (txs ++ [ex_leaf 3])) = (hashMerkleRoot (header (ex_block 1 txs)), true).
Proof.
  intros txs. split; [|vm_compute; reflexivity].
  apply (@merkle_root_binds small_crypto small_laws (ex_block 1 txs) (ex_block 2 txs)).
  9: apply no_collision_dec.
  all: vm_compute; (discriminate || reflexivity).
Defined.
