(* ===== verification/Coins.v ===== *)
(** * The set of unspent outputs

    [CCoinsViewCache] of the node as a finite map ([coins.cpp]), what a
    transaction does to it ([validation.cpp]: [UpdateCoins]) and how a block is
    undone ([ApplyTxInUndo], [DisconnectBlock]).  The layers of caches below the
    set, and its file, are not modelled: an entry of the map is a coin that is not
    spent. *)

From stdpp Require Import gmap.
From S2P Require Import Prelude Digits JsString Bytes Crypto JsInt Tx NodeTx ScriptError NodeScript ScriptNum Interpreter Validation JsNum NodeFee TxCheck Policy Block.

Open Scope Z_scope.
Open Scope list_scope.

#[global] Instance COutPoint_countable : Countable COutPoint.
Proof.
  apply (inj_countable' (fun p => (op_hash p, op_n p)) (fun x => {| op_hash := x.1; op_n := x.2 |})). by intros [].
Defined.

Notation coins := (gmap COutPoint Coin).
Definition view_of (view : coins) : CCoinsView := fun p => view !! p.

(** [CTxOut::IsNull] *)
Definition IsSpent (coin : Coin) : bool := nValue (coin_out coin) =? -1.

Section Coins.
Context `{Crypto}.

(** ** Adding and spending *)

Definition AddCoin (view : coins) (outpoint : COutPoint) (coin : Coin) (possible_overwrite : bool) : verdict coins :=
  _ ← assert_that (negb (IsSpent coin));
  if IsUnspendable (out_scriptPubKey (coin_out coin)) then Accepted view else
  _ ← assert_that (possible_overwrite || negb (bool_decide (is_Some (view !! outpoint))));
  Accepted (<[outpoint := coin]> view).

(** The loop of [AddCoins] over the outputs, from number [i] on. *)
Fixpoint add_outputs (view : coins) (txid : list Z) (height time : Z) (fCoinbase fCoinstake : bool) (i : Z) (vout : list CTxOut) : verdict coins :=
  match vout with
  | [] => Accepted view
  | o :: vout =>
      let coin := {| coin_out := o; fCoinBase := fCoinbase; fCoinStake := fCoinstake; nHeight := height; coin_nTime := time |} in
      view ← AddCoin view {| op_hash := txid; op_n := i |} coin fCoinbase;
      add_outputs view txid height time fCoinbase fCoinstake (i + 1) vout
  end.

Definition AddCoins (view : coins) (tx : CTransaction) (height : Z) : verdict coins :=
  add_outputs view (GetHash tx) height (nTime tx) (IsCoinBase tx) (IsCoinStake tx) 0 (vout tx).

(** The inputs spent in order, with the coins moved out. *)
Fixpoint spend_inputs (view : coins) (vin : list CTxIn) : verdict (coins * list Coin) :=
  match vin with
  | [] => Accepted (view, [])
  | txin :: vin =>
      match view !! prevout txin with
      | None => Stopped
      | Some coin => '(view, undo) ← spend_inputs (delete (prevout txin) view) vin; Accepted (view, coin :: undo)
      end
  end.

(** With the undo data of the transaction. *)
Definition UpdateCoins (tx : CTransaction) (inputs : coins) (height : Z) : verdict (coins * list Coin) :=
  '(inputs, txundo) ← (if IsCoinBase tx then Accepted (inputs, []) else spend_inputs inputs (vin tx));
  inputs ← AddCoins inputs tx height;
  Accepted (inputs, txundo).

(** [AccessCoin] of a missing coin is the empty one, whose value is -1. *)
Definition GetValueIn (view : coins) (tx : CTransaction) : verdict Z :=
  if IsCoinBase tx then Accepted 0
  else foldl (fun nResult i => r ← nResult; add_int64 r (from_option (fun c => nValue (coin_out c)) (-1) (view !! prevout i))) (Accepted 0) (vin tx).

(** ** Undoing *)

Inductive DisconnectResult : Type := DISCONNECT_OK | DISCONNECT_UNCLEAN | DISCONNECT_FAILED.

(** An output takes nine bytes at least. *)
Definition MAX_OUTPUTS_PER_BLOCK : nat := Z.to_nat (MAX_BLOCK_WEIGHT / (WITNESS_SCALE_FACTOR * 9)).

(** The first unspent output of a transaction; [None] is the empty coin. *)
Fixpoint access_by_txid (fuel : nat) (view : coins) (txid : list Z) (n : Z) : option Coin :=
  match fuel with
  | O => None
  | S fuel => match view !! {| op_hash := txid; op_n := n |} with Some c => Some c | None => access_by_txid fuel view txid (n + 1) end
  end.

Definition AccessByTxid (view : coins) (txid : list Z) : option Coin := access_by_txid MAX_OUTPUTS_PER_BLOCK view txid 0.

(** [None] is [DISCONNECT_FAILED], otherwise whether it was clean. *)
Definition ApplyTxInUndo (undo : Coin) (view : coins) (out : COutPoint) : verdict (option (coins * bool)) :=
  let fClean := negb (bool_decide (is_Some (view !! out))) in
  match
    if nHeight undo =? 0 then
      alternate ← AccessByTxid view (op_hash out);
      Some {| coin_out := coin_out undo; fCoinBase := fCoinBase alternate; fCoinStake := fCoinStake alternate;
              nHeight := nHeight alternate; coin_nTime := coin_nTime alternate |}
    else Some undo
  with
  | None => Accepted None
  | Some undo => view ← AddCoin view out undo (negb fClean); Accepted (Some (view, fClean))
  end.

(** The outputs of a transaction taken back. *)
Fixpoint remove_outputs (view : coins) (txid : list Z) (height : Z) (is_coinbase is_coinstake fClean : bool) (o : Z) (vout : list CTxOut) :
    coins * bool :=
  match vout with
  | [] => (view, fClean)
  | out :: vout =>
      if IsUnspendable (out_scriptPubKey out) then remove_outputs view txid height is_coinbase is_coinstake fClean (o + 1) vout else
      let p := {| op_hash := txid; op_n := o |} in
      let matches :=
        match view !! p with
        | None => false
        | Some coin => (nValue out =? nValue (coin_out coin)) && bool_decide (out_scriptPubKey out = out_scriptPubKey (coin_out coin)) &&
            (height =? nHeight coin) && Bool.eqb is_coinbase (fCoinBase coin) && Bool.eqb is_coinstake (fCoinStake coin)
        end in
      remove_outputs (delete p view) txid height is_coinbase is_coinstake (fClean && matches) (o + 1) vout
  end.

(** The inputs restored, the last one first. *)
Fixpoint restore_inputs (view : coins) (fClean : bool) (l : list (CTxIn * Coin)) : verdict (option (coins * bool)) :=
  match l with
  | [] => Accepted (Some (view, fClean))
  | (txin, undo) :: l =>
      r ← ApplyTxInUndo undo view (prevout txin);
      match r with
      | None => Accepted None
      | Some (view, clean) => restore_inputs view (fClean && clean) l
      end
  end.

(** The transactions, the last one first, each with its undo data; the first of
    the block has none. *)
Fixpoint disconnect_txs (view : coins) (height : Z) (fClean : bool) (l : list (CTransaction * option (list Coin))) :
    verdict (option (coins * bool)) :=
  match l with
  | [] => Accepted (Some (view, fClean))
  | (tx, txundo) :: l =>
      let '(view, fClean) := remove_outputs view (GetHash tx) height (IsCoinBase tx) (IsCoinStake tx) fClean 0 (vout tx) in
      match txundo with
      | None => disconnect_txs view height fClean l
      | Some vprevout =>
          if negb (length vprevout =? length (vin tx))%nat then Accepted None else
          r ← restore_inputs view fClean (reverse (zip (vin tx) vprevout));
          match r with
          | None => Accepted None
          | Some (view, fClean) => disconnect_txs view height fClean l
          end
      end
  end.

(** [undo] is what [UndoReadFromDisk] returns; after a failure the set means
    nothing. *)
Definition DisconnectBlock (view : coins) (txs : list CTransaction) (height : Z) (undo : list (list Coin)) : verdict (coins * DisconnectResult) :=
  if negb (length undo + 1 =? length txs)%nat then Accepted (view, DISCONNECT_FAILED) else
  r ← disconnect_txs view height true (reverse (zip txs (None :: (Some <$> undo))));
  match r with
  | None => Accepted (view, DISCONNECT_FAILED)
  | Some (view, fClean) => Accepted (view, if fClean : bool then DISCONNECT_OK else DISCONNECT_UNCLEAN)
  end.

End Coins.
