(* ===== verification/Undo.v ===== *)
(** * Undoing a block

    [DisconnectBlock] takes back what [UpdateCoins] did, and where it cannot. *)

From stdpp Require Import gmap.
From S2P Require Import Prelude Digits JsString Bytes Crypto JsInt Tx NodeTx ScriptError NodeScript ScriptNum Interpreter Validation JsNum NodeFee TxCheck Policy Block Coins.

Open Scope Z_scope.
Open Scope list_scope.

(** What a coin remembers of the transaction that created it. *)
Definition coin_meta (c : Coin) : bool * bool * Z * Z := (fCoinBase c, fCoinStake c, nHeight c, coin_nTime c).

(** No coin of a set is spent or unspendable, and those of one transaction agree. *)
Definition coin_good (c : Coin) : Prop := IsSpent c = false /\ IsUnspendable (out_scriptPubKey (coin_out c)) = false.
Definition coins_good (view : coins) : Prop := map_Forall (fun _ => coin_good) view.
Definition uniform (view : coins) : Prop :=
  forall p q c d, view !! p = Some c -> view !! q = Some d -> op_hash p = op_hash q -> coin_meta c = coin_meta d.

Definition no_coin_of (view : coins) (txid : list Z) : Prop := forall p, op_hash p = txid -> view !! p = None.

Section Undo.
Context `{Crypto}.

(** What the loop of [ConnectBlock] does to the set. *)
Fixpoint update_all (view : coins) (height : Z) (txs : list CTransaction) : verdict (coins * list (list Coin)) :=
  match txs with
  | [] => Accepted (view, [])
  | tx :: txs =>
      '(view, txundo) ← UpdateCoins tx view height;
      '(view, undo) ← update_all view height txs;
      Accepted (view, txundo :: undo)
  end.

(** ** Outputs *)

Lemma AddCoin_accepted view p c o view' :
  AddCoin view p c o = Accepted view' ->
  IsSpent c = false /\
  ((IsUnspendable (out_scriptPubKey (coin_out c)) = true /\ view' = view) \/
   (IsUnspendable (out_scriptPubKey (coin_out c)) = false /\ view' = <[p := c]> view /\ (o = false -> view !! p = None))).
Proof.
  unfold AddCoin. rewrite verdict_seq, assert_that_accepted, negb_true_iff. intros [Hs Hr]. split; [done|].
  destruct (IsUnspendable _); [left; by injection Hr as <-|right]. rewrite verdict_seq, assert_that_accepted in Hr.
  destruct Hr as [Ho [= <-]]. split; [done|]. split; [done|]. intros ->. cbn [orb] in Ho. apply negb_true_iff, bool_decide_eq_false in Ho.
  by apply eq_None_not_Some.
Qed.

Lemma AddCoin_good view p c : coin_good c -> view !! p = None -> AddCoin view p c false = Accepted (<[p := c]> view).
Proof.
  intros [Hs Hu] Hp. unfold AddCoin. rewrite Hs, Hu. cbn [negb assert_that mbind verdict_bind orb]. rewrite Hp.
  by rewrite bool_decide_false by (by intros []).
Qed.

(** Outputs from number [i] on are written nowhere else. *)
Lemma add_outputs_frame view txid h t cb cs i vout view' p :
  add_outputs view txid h t cb cs i vout = Accepted view' -> (op_hash p = txid -> op_n p < i) -> view' !! p = view !! p.
Proof.
  revert view i. induction vout as [|o vout IH]; intros view i; cbn [add_outputs]; [by intros [= <-]|].
  rewrite verdict_bind_accepted. intros (v & Ha & Hr) Hp. rewrite (IH v (i + 1)) by (try done; intros E; apply Hp in E; lia).
  apply AddCoin_accepted in Ha as (_ & [[_ ->]|(_ & -> & _)]); [done|]. apply lookup_insert_ne. intros <-. specialize (Hp eq_refl). cbn in Hp. lia.
Qed.

Lemma remove_outputs_delete view txid h cb cs c i vout p :
  (op_hash p = txid -> op_n p < i) ->
  remove_outputs (delete p view) txid h cb cs c i vout =
    (delete p (remove_outputs view txid h cb cs c i vout).1, (remove_outputs view txid h cb cs c i vout).2).
Proof.
  revert view c i. induction vout as [|o vout IH]; intros view c i Hp; [done|]. cbn [remove_outputs].
  destruct (IsUnspendable _); [apply IH; intros E; apply Hp in E; lia|].
  set (q := {| op_hash := txid; op_n := i |}). assert (p <> q) as Hne by (intros ->; specialize (Hp eq_refl); cbn in Hp; lia).
  rewrite delete_delete, lookup_delete_ne by done. apply IH. intros E. apply Hp in E. lia.
Qed.

Lemma remove_added view txid h t cb cs i vout view' c :
  add_outputs view txid h t cb cs i vout = Accepted view' -> no_coin_of view txid ->
  remove_outputs view' txid h cb cs c i vout = (view, c).
Proof.
  intros Ha Hno. assert (forall p, op_hash p = txid -> i <= op_n p -> view !! p = None) as Hn by (intros p Hp _; by apply Hno). clear Hno.
  revert view i Ha Hn. induction vout as [|o vout IH]; intros view i; cbn [add_outputs remove_outputs]; [by intros [= <-]|].
  rewrite verdict_bind_accepted. intros (v & Ha & Hr) Hn. set (q := {| op_hash := txid; op_n := i |}) in *.
  apply AddCoin_accepted in Ha as (_ & Hcase). cbn [coin_out] in Hcase. destruct Hcase as [[-> ->]|(-> & -> & _)].
  - apply (IH _ (i + 1)); [done|]. intros p Hp Hi. apply Hn; [done|lia].
  - rewrite (add_outputs_frame _ _ _ _ _ _ _ _ _ q Hr) by (cbn; intros; lia). rewrite lookup_insert_eq. cbn [coin_out nHeight fCoinBase fCoinStake].
    rewrite !Z.eqb_refl, bool_decide_true, !eqb_reflx by done. cbn [andb]. rewrite andb_true_r.
    rewrite remove_outputs_delete by (cbn; intros; lia). rewrite (IH _ _ Hr).
    + cbn [fst snd]. rewrite delete_insert_id; [done|]. apply Hn; [done|cbn; lia].
    + intros p Hp Hi. rewrite lookup_insert_ne; [apply Hn; [done|lia]|]. intros <-. cbn in Hi. lia.
Qed.

(** ** Inputs *)

Lemma spend_inputs_facts view vin view1 undo :
  spend_inputs view vin = Accepted (view1, undo) ->
  length undo = length vin /\ view1 ⊆ view /\
  Forall2 (fun i c => view !! prevout i = Some c /\ view1 !! prevout i = None) vin undo /\
  (forall p, p ∉ (prevout <$> vin) -> view1 !! p = view !! p).
Proof.
  revert view undo. induction vin as [|i vin IH]; intros view undo; cbn [spend_inputs].
  { intros [= <- <-]. split; [done|]. split; [done|]. split; [by constructor|done]. }
  destruct (view !! prevout i) as [c|] eqn:Ec; [|done]. rewrite verdict_bind_accepted. intros ([v u] & Hs & [= <- <-]).
  apply IH in Hs as (Hl & Hsub & Hall & Hframe). split; [cbn; lia|]. split; [etrans; [exact Hsub|apply delete_subseteq]|].
  assert (v !! prevout i = None) as Hi.
  { apply eq_None_not_Some. intros [d Hd]. eapply lookup_weaken in Hd; [|exact Hsub]. by rewrite lookup_delete_eq in Hd. }
  split.
  - constructor; [done|]. eapply Forall2_impl; [exact Hall|]. intros j d [Hj Hn]. split; [|done].
    by apply lookup_delete_Some in Hj as [_ Hj].
  - intros p Hp. rewrite fmap_cons, not_elem_of_cons in Hp. destruct Hp as [Hne Hp]. rewrite Hframe by done. by apply lookup_delete_ne.
Qed.

Lemma access_by_txid_some fuel view txid n c :
  access_by_txid fuel view txid n = Some c -> exists p, op_hash p = txid /\ view !! p = Some c.
Proof.
  revert n. induction fuel as [|fuel IH]; intros n; cbn [access_by_txid]; [done|].
  destruct (view !! _) as [d|] eqn:Ed; [intros [= <-]; by exists {| op_hash := txid; op_n := n |}|apply IH].
Qed.

Lemma access_by_txid_finds fuel view txid n k :
  n <= k < n + Z.of_nat fuel -> is_Some (view !! {| op_hash := txid; op_n := k |}) -> is_Some (access_by_txid fuel view txid n).
Proof.
  revert n. induction fuel as [|fuel IH]; intros n Hk Hs; cbn [access_by_txid]; [lia|].
  destruct (view !! {| op_hash := txid; op_n := n |}) eqn:En; [done|]. apply IH; [|done].
  assert (k <> n) by (intros ->; rewrite En in Hs; by destruct Hs). lia.
Qed.

(** Another output of the transaction is left. *)
Definition one_left (view : coins) (txid : list Z) : Prop :=
  exists k, 0 <= k < Z.of_nat MAX_OUTPUTS_PER_BLOCK /\ is_Some (view !! {| op_hash := txid; op_n := k |}).

(** A coin put back into a part of the set it was taken from. *)
Lemma ApplyTxInUndo_restores (whole view : coins) c p :
  view ⊆ whole -> uniform whole -> whole !! p = Some c -> coin_good c -> view !! p = None ->
  (nHeight c = 0 -> one_left view (op_hash p)) ->
  ApplyTxInUndo c view p = Accepted (Some (<[p := c]> view, true)).
Proof.
  intros Hsub Hu Hc Hg Hp Hleft. unfold ApplyTxInUndo. rewrite Hp, bool_decide_false by (by intros []). cbn [negb].
  assert ((if nHeight c =? 0 then
    alternate ← AccessByTxid view (op_hash p);
    Some {| coin_out := coin_out c; fCoinBase := fCoinBase alternate; fCoinStake := fCoinStake alternate;
            nHeight := nHeight alternate; coin_nTime := coin_nTime alternate |} else Some c) = Some c) as ->.
  { destruct (Z.eqb_spec (nHeight c) 0) as [H0|]; [|done]. destruct (Hleft H0) as (k & Hk & Hs).
    destruct (access_by_txid_finds MAX_OUTPUTS_PER_BLOCK view (op_hash p) 0 k ltac:(lia) Hs) as [d Hd].
    unfold AccessByTxid. rewrite Hd. cbn [mbind option_bind]. apply access_by_txid_some in Hd as (q & Hq & Hd).
    eapply lookup_weaken in Hd; [|exact Hsub]. pose proof (Hu q p d c Hd Hc Hq) as Hm. unfold coin_meta in Hm. injection Hm as -> -> -> ->. by destruct c. }
  rewrite AddCoin_good by done. done.
Qed.

Lemma restore_inputs_app view c l1 l2 :
  restore_inputs view c (l1 ++ l2) =
    r ← restore_inputs view c l1; match r with None => Accepted None | Some (view, c) => restore_inputs view c l2 end.
Proof.
  revert view c. induction l1 as [|[i u] l1 IH]; intros view c; [done|]. cbn [restore_inputs app].
  destruct (ApplyTxInUndo _ _ _) as [[[v b]|]| | |]; cbn [mbind verdict_bind]; [apply IH|done..].
Qed.

Lemma restore_spent whole view vin view1 undo c :
  view ⊆ whole -> uniform whole -> coins_good whole -> spend_inputs view vin = Accepted (view1, undo) ->
  Forall2 (fun i c => nHeight c = 0 -> one_left view1 (op_hash (prevout i))) vin undo ->
  restore_inputs view1 c (reverse (zip vin undo)) = Accepted (Some (view, c)).
Proof.
  intros Hsub Hu Hg Hs Hleft. revert view undo Hsub Hs Hleft. induction vin as [|i vin IH]; intros view undo Hsub; cbn [spend_inputs].
  { by intros [= <- <-] _. }
  destruct (view !! prevout i) as [d|] eqn:Ed; [|done]. rewrite verdict_bind_accepted. intros ([v u] & Hs & [= <- <-]) Hleft.
  apply Forall2_cons_1 in Hleft as [Hd Hleft]. cbn [zip zip_with]. rewrite reverse_cons, restore_inputs_app.
  assert (delete (prevout i) view ⊆ whole) as Hsub' by (etrans; [apply delete_subseteq|done]).
  pose proof (spend_inputs_facts _ _ _ _ Hs) as (_ & Hv & _ & _).
  rewrite (IH _ _ Hsub' Hs Hleft). cbn [mbind verdict_bind restore_inputs].
  rewrite (ApplyTxInUndo_restores whole); [|done|done|by eapply lookup_weaken|exact (Hg _ _ (lookup_weaken _ _ _ _ Ed Hsub))|apply lookup_delete_eq|].
  - cbn [mbind verdict_bind]. by rewrite insert_delete_id, andb_true_r by done.
  - intros H0. destruct (Hd H0) as (k & Hk & [e He]). exists k. split; [done|]. exists e. by eapply lookup_weaken.
Qed.

(** ** Transactions *)

Lemma add_outputs_new view txid h t cb cs i vout view' p c :
  add_outputs view txid h t cb cs i vout = Accepted view' -> view' !! p = Some c ->
  view !! p = Some c \/ (op_hash p = txid /\ coin_meta c = (cb, cs, h, t) /\ coin_good c).
Proof.
  revert view i. induction vout as [|o vout IH]; intros view i; cbn [add_outputs]; [intros [= <-]; by left|].
  rewrite verdict_bind_accepted. intros (v & Ha & Hr) Hp. destruct (IH _ _ Hr Hp) as [Hv|?]; [|by right].
  apply AddCoin_accepted in Ha as (Hs & [[_ ->]|(Hu & -> & _)]); [by left|]. apply lookup_insert_Some in Hv as [[<- <-]|[_ ?]]; [|by left].
  right. done.
Qed.

(** The set between the inputs and the outputs. *)
Definition after_inputs (tx : CTransaction) (view view1 : coins) (undo : list Coin) : Prop :=
  if IsCoinBase tx then view1 = view /\ undo = [] else spend_inputs view (vin tx) = Accepted (view1, undo).

Lemma UpdateCoins_accepted tx view height view' undo :
  UpdateCoins tx view height = Accepted (view', undo) <->
  exists view1, after_inputs tx view view1 undo /\ AddCoins view1 tx height = Accepted view'.
Proof.
  unfold UpdateCoins, after_inputs. rewrite verdict_bind_accepted. split.
  - intros ([v u] & Hv & Hr). rewrite verdict_bind_accepted in Hr. destruct Hr as (w & Hw & [= <- <-]). exists v. split; [|done].
    destruct (IsCoinBase tx); [by injection Hv as <- <-|done].
  - intros (v & Hv & Ha). exists (v, undo). split; [destruct (IsCoinBase tx); [by destruct Hv as [-> ->]|done]|]. by rewrite Ha.
Qed.

Lemma after_inputs_sub tx view view1 undo : after_inputs tx view view1 undo -> view1 ⊆ view.
Proof. unfold after_inputs. destruct (IsCoinBase tx); [by intros [-> _]|]. intros (_ & Hs & _)%spend_inputs_facts. done. Qed.

Lemma update_new tx view height view' undo p c :
  UpdateCoins tx view height = Accepted (view', undo) -> view' !! p = Some c ->
  view !! p = Some c \/ (op_hash p = GetHash tx /\ coin_meta c = (IsCoinBase tx, IsCoinStake tx, height, nTime tx) /\ coin_good c).
Proof.
  rewrite UpdateCoins_accepted. intros (v & Hv & Ha) Hp. destruct (add_outputs_new _ _ _ _ _ _ _ _ _ _ _ Ha Hp) as [Hc|?]; [left|by right].
  eapply lookup_weaken; [exact Hc|]. by eapply after_inputs_sub.
Qed.

Lemma update_good tx view height view' undo :
  coins_good view -> UpdateCoins tx view height = Accepted (view', undo) -> coins_good view'.
Proof. intros Hg Hu p c Hp. destruct (update_new _ _ _ _ _ _ _ Hu Hp) as [?|(_ & _ & ?)]; [by eapply Hg|done]. Qed.

Lemma update_uniform tx view height view' undo :
  uniform view -> no_coin_of view (GetHash tx) -> UpdateCoins tx view height = Accepted (view', undo) -> uniform view'.
Proof.
  intros Hu Hno Ha p q c d Hp Hq Heq.
  destruct (update_new _ _ _ _ _ _ _ Ha Hp) as [Hc|(Ep & -> & _)], (update_new _ _ _ _ _ _ _ Ha Hq) as [Hd|(Eq & -> & _)];
    [by eapply Hu|rewrite (Hno p) in Hc by congruence; done|rewrite (Hno q) in Hd by congruence; done|done].
Qed.

Lemma update_all_old view height txs view' undo p c :
  update_all view height txs = Accepted (view', undo) -> view' !! p = Some c -> op_hash p ∉ (GetHash <$> txs) -> view !! p = Some c.
Proof.
  revert view undo. induction txs as [|tx txs IH]; intros view undo; cbn [update_all]; [by intros [= <- <-]|].
  rewrite verdict_bind_accepted. intros ([v u] & Hu & Hr). rewrite verdict_bind_accepted in Hr. destruct Hr as ([w us] & Hr & [= <- <-]).
  intros Hp [Hne Hin]%not_elem_of_cons. specialize (IH _ _ Hr Hp Hin). destruct (update_new _ _ _ _ _ _ _ Hu IH) as [?|(? & _)]; done.
Qed.

(** One transaction undone. *)
Lemma disconnect_tx tx view height view' undo c rest :
  IsCoinBase tx = false -> coins_good view -> uniform view -> no_coin_of view (GetHash tx) ->
  UpdateCoins tx view height = Accepted (view', undo) ->
  (forall p c, view !! p = Some c -> nHeight c = 0 -> view' !! p = None -> one_left view' (op_hash p)) ->
  disconnect_txs view' height c ((tx, Some undo) :: rest) = disconnect_txs view height c rest.
Proof.
  intros Hcb Hg Hu Hno Hup Hkept. pose proof Hup as Hup'. rewrite UpdateCoins_accepted in Hup. destruct Hup as (view1 & Hin & Ha).
  pose proof (after_inputs_sub _ _ _ _ Hin) as Hsub. unfold after_inputs in Hin. rewrite Hcb in Hin. cbn [disconnect_txs].
  assert (no_coin_of view1 (GetHash tx)) as Hno1.
  { intros p Hp. apply eq_None_not_Some. intros [d Hd]. eapply lookup_weaken in Hd; [|exact Hsub]. by rewrite Hno in Hd. }
  rewrite (remove_added _ _ _ _ _ _ _ _ _ c Ha Hno1). destruct (spend_inputs_facts _ _ _ _ Hin) as (Hl & _ & Hall & _).
  rewrite Hl, Nat.eqb_refl. cbn [negb]. rewrite (restore_spent view view (vin tx) view1 undo c); [done|done|done|done|done|].
  eapply Forall2_impl; [exact Hall|]. intros i d [Hd Hn] H0. cbv beta in *.
  assert (op_hash (prevout i) <> GetHash tx) as Hne by (intros E; by rewrite Hno in Hd).
  destruct (Hkept _ _ Hd H0) as (k & Hk & [e He]).
  - unfold AddCoins in Ha. rewrite (add_outputs_frame _ _ _ _ _ _ _ _ _ _ Ha) by (intros; done). done.
  - exists k. split; [done|]. exists e. unfold AddCoins in Ha. by rewrite (add_outputs_frame _ _ _ _ _ _ _ _ _ _ Ha) in He by (intros; done).
Qed.

Lemma disconnect_all view height txs view' undo c rest :
  height <> 0 -> Forall (fun tx => IsCoinBase tx = false) txs -> coins_good view -> uniform view ->
  NoDup (GetHash <$> txs) -> Forall (fun tx => no_coin_of view (GetHash tx)) txs ->
  update_all view height txs = Accepted (view', undo) ->
  (forall p c, view !! p = Some c -> nHeight c = 0 -> view' !! p = None -> one_left view' (op_hash p)) ->
  disconnect_txs view' height c (reverse (zip txs (Some <$> undo)) ++ rest) = disconnect_txs view height c rest.
Proof.
  intros Hh. revert view undo rest. induction txs as [|tx txs IH]; intros view undo rest Hcb Hg Hu Hnd Hno; cbn [update_all]; [by intros [= <- <-]|].
  rewrite verdict_bind_accepted. intros ([v u] & Hup & Hr). rewrite verdict_bind_accepted in Hr. destruct Hr as ([w us] & Hr & [= <- <-]). intros Hkept.
  apply Forall_cons_1 in Hcb as [Hcb1 Hcb], Hno as [Hno1 Hno]. rewrite fmap_cons in Hnd. apply NoDup_cons in Hnd as [Hnin Hnd].
  rewrite fmap_cons. cbn [zip zip_with]. rewrite reverse_cons, <-app_assoc. cbn [app].
  assert (forall p c, view !! p = Some c -> op_hash p ∉ (GetHash <$> txs)) as Hfresh.
  { intros p d Hp (t & Ht & Hin)%list_elem_of_fmap. rewrite Forall_forall in Hno. by rewrite (Hno t Hin) in Hp. }
  rewrite (IH v us); [|done| by eapply update_good|by eapply update_uniform|done| |exact Hr|].
  - apply disconnect_tx; [done..|]. intros p d Hp H0 Hv. destruct (Hkept p d Hp H0) as (k & Hk & [e He]).
    + apply eq_None_not_Some. intros [e He]. apply (update_all_old _ _ _ _ _ _ _ Hr) in He; [by rewrite Hv in He|by eapply Hfresh].
    + exists k. split; [done|]. exists e. apply (update_all_old _ _ _ _ _ _ _ Hr He). cbn. exact (Hfresh p d Hp).
  - apply Forall_forall. intros t Ht p Hp. apply eq_None_not_Some. intros [d Hd]. destruct (update_new _ _ _ _ _ _ _ Hup Hd) as [Hd'|(E & _)].
    + rewrite Forall_forall in Hno. by rewrite (Hno t Ht) in Hd'.
    + apply Hnin. rewrite <-E, Hp. by apply list_elem_of_fmap_2.
  - intros p d Hp H0 Hw. destruct (update_new _ _ _ _ _ _ _ Hup Hp) as [Hd|(_ & Hm & _)]; [by eapply Hkept|].
    exfalso. apply Hh. unfold coin_meta in Hm. injection Hm as _ _ Hm _. congruence.
Qed.

Lemma update_no_coin tx view height view' undo g :
  UpdateCoins tx view height = Accepted (view', undo) -> no_coin_of view g -> g <> GetHash tx -> no_coin_of view' g.
Proof.
  intros Hu Hno Hne p Hp. apply eq_None_not_Some. intros [d Hd]. destruct (update_new _ _ _ _ _ _ _ Hu Hd) as [Hd'|(E & _)]; [by rewrite Hno in Hd'|congruence].
Qed.

Lemma update_all_length view height txs view' undo : update_all view height txs = Accepted (view', undo) -> length undo = length txs.
Proof.
  revert view undo. induction txs as [|tx txs IH]; intros view undo; cbn [update_all]; [by intros [= <- <-]|].
  rewrite verdict_bind_accepted. intros ([v u] & _ & Hr). rewrite verdict_bind_accepted in Hr. destruct Hr as ([w us] & Hr & [= <- <-]).
  cbn. f_equal. by eapply IH.
Qed.

(** A block undone. *)
Lemma disconnect_block cb txs view height view' undo0 undo :
  height <> 0 -> IsCoinBase cb = true -> Forall (fun tx => IsCoinBase tx = false) txs -> coins_good view -> uniform view ->
  NoDup (GetHash <$> cb :: txs) -> Forall (fun tx => no_coin_of view (GetHash tx)) (cb :: txs) ->
  update_all view height (cb :: txs) = Accepted (view', undo0 :: undo) ->
  (forall p c, view !! p = Some c -> nHeight c = 0 -> view' !! p = None -> one_left view' (op_hash p)) ->
  DisconnectBlock view' (cb :: txs) height undo = Accepted (view, DISCONNECT_OK).
Proof.
  intros Hh Hcb Hcbs Hg Hu Hnd Hno Hup Hkept. cbn [update_all] in Hup. rewrite verdict_bind_accepted in Hup. destruct Hup as ([v u] & H0 & Hr).
  rewrite verdict_bind_accepted in Hr. destruct Hr as ([w us] & Hr & [= <- <- <-]).
  apply Forall_cons_1 in Hno as [Hno1 Hno]. rewrite fmap_cons in Hnd. apply NoDup_cons in Hnd as [Hnin Hnd].
  unfold DisconnectBlock. rewrite (update_all_length _ _ _ _ _ Hr), Nat.add_1_r. cbn [length]. rewrite Nat.eqb_refl. cbn [negb].
  cbn [zip zip_with]. rewrite reverse_cons, (disconnect_all v height txs w us true [(cb, None)] Hh Hcbs); [|by eapply update_good|by eapply update_uniform|done| |done|].
  - cbn [disconnect_txs]. rewrite UpdateCoins_accepted in H0. destruct H0 as (v1 & Hin & Ha). unfold after_inputs in Hin. rewrite Hcb in Hin.
    destruct Hin as [-> _]. by rewrite (remove_added _ _ _ _ _ _ _ _ _ true Ha Hno1).
  - apply Forall_forall. intros t Ht. apply (update_no_coin _ _ _ _ _ _ H0); [rewrite Forall_forall in Hno; by apply Hno|].
    intros E. apply Hnin. rewrite <-E. by apply list_elem_of_fmap_2.
  - intros p d Hp Hz Hw. destruct (update_new _ _ _ _ _ _ _ H0 Hp) as [Hd|(_ & Hm & _)]; [by eapply Hkept|].
    exfalso. apply Hh. unfold coin_meta in Hm. injection Hm as _ _ Hm _. congruence.
Qed.

(** ** The coins of the first block *)

Lemma ApplyTxInUndo_total c view p :
  coin_good c -> ApplyTxInUndo c view p = Accepted None \/ exists d b, ApplyTxInUndo c view p = Accepted (Some (<[p := d]> view, b)).
Proof.
  intros [Hs Hu]. unfold ApplyTxInUndo. set (m := if nHeight c =? 0 then _ else _).
  assert (forall d, m = Some d -> coin_out d = coin_out c) as Hm.
  { intros d. unfold m. destruct (nHeight c =? 0); [|by intros [= <-]]. destruct (AccessByTxid _ _); [|done]. by intros [= <-]. }
  destruct m as [d|]; [right|by left]. specialize (Hm d eq_refl). exists d. eexists. unfold AddCoin. unfold IsSpent in *. rewrite Hm, Hs, Hu.
  rewrite negb_involutive, orb_negb_r. done.
Qed.

Lemma ApplyTxInUndo_lost c view p : nHeight c = 0 -> no_coin_of view (op_hash p) -> ApplyTxInUndo c view p = Accepted None.
Proof.
  intros H0 Hno. unfold ApplyTxInUndo. rewrite H0, Z.eqb_refl. destruct (AccessByTxid view (op_hash p)) as [d|] eqn:E; [|done].
  apply access_by_txid_some in E as (q & Hq & Hd). by rewrite Hno in Hd.
Qed.

(** Undo data in which every coin of the transaction [g] is one of the first block. *)
Definition undo_of (g : list Z) (x : CTxIn * Coin) : Prop := coin_good x.2 /\ (op_hash (prevout x.1) = g -> nHeight x.2 = 0).

Lemma restore_inputs_lost view b l g :
  no_coin_of view g -> Forall (undo_of g) l ->
  (restore_inputs view b l = Accepted None \/ exists view' b', restore_inputs view b l = Accepted (Some (view', b')) /\ no_coin_of view' g) /\
  (Exists (fun x => op_hash (prevout x.1) = g) l -> restore_inputs view b l = Accepted None).
Proof.
  intros Hno Hg. revert view b Hno. induction Hg as [|[i c] l [Hc H0] Hg IH]; intros view b Hno; cbn [restore_inputs].
  { split; [right; by exists view, b|]. by intros Hex%Exists_nil. }
  cbn [fst snd] in *. destruct (decide (op_hash (prevout i) = g)) as [E|Hn].
  { rewrite ApplyTxInUndo_lost; [by split; [left|]|by apply H0|by rewrite E]. }
  destruct (ApplyTxInUndo_total c view (prevout i) Hc) as [->|(d & b' & ->)]; [by split; [left|]|]. cbn [mbind verdict_bind].
  destruct (IH (<[prevout i := d]> view) (b && b')) as [IH1 IH2].
  { intros q Hq. rewrite lookup_insert_ne; [by apply Hno|congruence]. }
  split; [done|]. intros [E|Hex]%Exists_cons; [done|by apply IH2].
Qed.

Lemma remove_outputs_sub view txid h cb cs c i vout : (remove_outputs view txid h cb cs c i vout).1 ⊆ view.
Proof.
  revert view c i. induction vout as [|o vout IH]; intros view c i; [done|]. cbn [remove_outputs].
  destruct (IsUnspendable _); [apply IH|]. etrans; [apply IH|apply delete_subseteq].
Qed.

Lemma disconnect_lost view height b l g rest :
  no_coin_of view g -> Forall (fun y => Forall (undo_of g) (zip (vin y.1) y.2)) l ->
  Exists (fun y => Exists (fun x => op_hash (prevout x.1) = g) (zip (vin y.1) y.2)) l ->
  disconnect_txs view height b (((fun y => (y.1, Some y.2)) <$> l) ++ rest) = Accepted None.
Proof.
  intros Hno Hg. revert view b Hno. induction Hg as [|[tx u] l Hu Hg IH]; intros view b Hno Hex; [by apply Exists_nil in Hex|].
  rewrite fmap_cons. cbn [disconnect_txs app fst snd] in *. destruct (remove_outputs _ _ _ _ _ _ _ _) as [v b'] eqn:Er.
  assert (no_coin_of v g) as Hno'.
  { intros p Hp. apply eq_None_not_Some. intros [d Hd]. pose proof (remove_outputs_sub view (GetHash tx) height (IsCoinBase tx) (IsCoinStake tx) b 0 (vout tx)) as Hs.
    rewrite Er in Hs. eapply lookup_weaken in Hd; [|exact Hs]. by rewrite Hno in Hd. }
  destruct (negb _); [done|]. apply Forall_reverse in Hu. destruct (restore_inputs_lost v b' (reverse (zip (vin tx) u)) g Hno' Hu) as [H1 H2].
  apply Exists_cons in Hex as [Hex|Hex].
  - rewrite H2; [done|]. apply Exists_exists in Hex as (x & Hx & Hp). apply Exists_exists. exists x. split; [by apply elem_of_reverse|done].
  - destruct H1 as [->|(v' & b'' & -> & Hv)]; [done|]. cbn [mbind verdict_bind]. by apply IH.
Qed.

Lemma Forall2_zip {A B} (P : A -> B -> Prop) l k : Forall2 P l k -> Forall (fun x => P x.1 x.2) (zip l k).
Proof. by induction 1; constructor. Qed.

Lemma elem_of_zip_fst {A B} (l : list A) (k : list B) x : length k = length l -> x ∈ l -> exists y, (x, y) ∈ zip l k.
Proof.
  intros Hl Hx. apply list_elem_of_lookup in Hx as [i Hi]. destruct (lookup_lt_is_Some_2 k i) as [y Hy]; [rewrite Hl; by eapply lookup_lt_Some|].
  exists y. apply list_elem_of_lookup. exists i. rewrite lookup_zip_with, Hi. cbn. by rewrite Hy.
Qed.

Lemma update_all_undo view height txs view' undo g :
  update_all view height txs = Accepted (view', undo) -> coins_good view -> Forall (fun tx => IsCoinBase tx = false) txs -> g ∉ (GetHash <$> txs) ->
  (forall p c, view !! p = Some c -> op_hash p = g -> nHeight c = 0) ->
  Forall (fun y => Forall (undo_of g) (zip (vin y.1) y.2)) (zip txs undo) /\
  (forall p, op_hash p = g -> is_Some (view !! p) -> view' !! p = None ->
    Exists (fun y => Exists (fun x => op_hash (prevout x.1) = g) (zip (vin y.1) y.2)) (zip txs undo)).
Proof.
  revert view undo. induction txs as [|tx txs IH]; intros view undo; cbn [update_all].
  { intros [= <- <-] _ _ _ _. split; [constructor|]. intros p _ [c Hc] Hn. congruence. }
  rewrite verdict_bind_accepted. intros ([v u] & Hup & Hr). rewrite verdict_bind_accepted in Hr. destruct Hr as ([w us] & Hr & [= <- <-]).
  intros Hg [Hcb Hcbs]%Forall_cons_1 Hnin H0. rewrite fmap_cons in Hnin. apply not_elem_of_cons in Hnin as [Hne Hnin].
  assert (forall p c, v !! p = Some c -> op_hash p = g -> nHeight c = 0) as H0'.
  { intros p c Hp E. destruct (update_new _ _ _ _ _ _ _ Hup Hp) as [?|(? & _)]; [by eapply H0|congruence]. }
  destruct (IH _ _ Hr (update_good _ _ _ _ _ Hg Hup) Hcbs Hnin H0') as [IH1 IH2]. rewrite UpdateCoins_accepted in Hup.
  destruct Hup as (v1 & Hin & Ha). unfold after_inputs in Hin. rewrite Hcb in Hin. destruct (spend_inputs_facts _ _ _ _ Hin) as (Hl & _ & Hall & Hframe).
  cbn [zip zip_with]. split.
  - constructor; [|done]. cbn [fst snd]. apply (Forall2_zip (fun i c => undo_of g (i, c))). eapply Forall2_impl; [exact Hall|].
    intros i c [Hc _]. split; cbn [fst snd]; [by eapply Hg|]. by eapply H0.
  - intros p Hp Hs Hw. apply Exists_cons. destruct (decide (p ∈ (prevout <$> vin tx))) as [Hi|Hi]; [left|right].
    + apply list_elem_of_fmap in Hi as (i & -> & Hi). destruct (elem_of_zip_fst (vin tx) u i Hl Hi) as [c Hc].
      apply Exists_exists. by exists (i, c).
    + apply (IH2 p); [done| |done]. unfold AddCoins in Ha. rewrite (add_outputs_frame _ _ _ _ _ _ _ _ _ p Ha) by congruence. by rewrite Hframe.
Qed.

(** A block that spends the last of them. *)
Lemma disconnect_block_lost cb txs view height view' undo0 undo p c :
  IsCoinBase cb = true -> Forall (fun tx => IsCoinBase tx = false) txs -> coins_good view -> uniform view ->
  op_hash p ∉ (GetHash <$> cb :: txs) -> update_all view height (cb :: txs) = Accepted (view', undo0 :: undo) ->
  view !! p = Some c -> nHeight c = 0 -> no_coin_of view' (op_hash p) ->
  DisconnectBlock view' (cb :: txs) height undo = Accepted (view', DISCONNECT_FAILED).
Proof.
  intros Hcb Hcbs Hg Hu Hnin Hup Hc H0 Hno. cbn [update_all] in Hup. rewrite verdict_bind_accepted in Hup. destruct Hup as ([v u] & Hv & Hr).
  rewrite verdict_bind_accepted in Hr. destruct Hr as ([w us] & Hr & [= <- <- <-]).
  rewrite fmap_cons in Hnin. apply not_elem_of_cons in Hnin as [Hne Hnin].
  unfold DisconnectBlock. rewrite (update_all_length _ _ _ _ _ Hr), Nat.add_1_r. cbn [length]. rewrite Nat.eqb_refl. cbn [negb zip zip_with].
  assert (zip_with pair txs (Some <$> us) = (fun y => (y.1, Some y.2)) <$> zip txs us) as ->.
  { clear. revert us. induction txs as [|tx txs IH]; intros [|u us]; [done..|]. cbn. by rewrite IH. }
  rewrite reverse_cons, <-fmap_reverse. destruct (update_all_undo _ _ _ _ _ (op_hash p) Hr (update_good _ _ _ _ _ Hg Hv) Hcbs Hnin) as [H1 H2].
  { intros q d Hq E. destruct (update_new _ _ _ _ _ _ _ Hv Hq) as [Hd|(? & _)]; [|congruence].
    pose proof (Hu q p d c Hd Hc E) as Hm. unfold coin_meta in Hm. injection Hm as _ _ Hm _. congruence. }
  rewrite (disconnect_lost w height true (reverse (zip txs us)) (op_hash p)); [done|done|by apply Forall_reverse|].
  assert (is_Some (v !! p)) as Hvp.
  { rewrite UpdateCoins_accepted in Hv. destruct Hv as (v1 & Hin & Ha). unfold after_inputs in Hin. rewrite Hcb in Hin. destruct Hin as [-> _].
    unfold AddCoins in Ha. rewrite (add_outputs_frame _ _ _ _ _ _ _ _ _ p Ha) by congruence. by rewrite Hc. }
  specialize (H2 p eq_refl Hvp (Hno p eq_refl)). apply Exists_exists in H2 as (y & Hy & Hp). apply Exists_exists. exists y.
  split; [by apply elem_of_reverse|done].
Qed.

End Undo.
