(* ===== verification/ProofOfStake.v ===== *)
(** * Proof of stake

    [pos.cpp] and [pos.h]: the stake modifier, the times of a coinstake, the
    kernel with its cache, the proof of stake of a block and its reward; and
    [VerifySignature] of [script/sign.cpp]. *)

From stdpp Require Import gmap.
From S2P Require Import Prelude Digits JsString Bytes Crypto JsInt Tx NodeTx ScriptError NodeScript ScriptNum Interpreter Verify Spend Validation JsNum NodeFee Arith256 ConsensusParams Chain TxCheck Policy Block Coins.

Open Scope Z_scope.
Open Scope list_scope.

(** ** Times and maturity *)

Definition CheckCoinStakeTimestamp (params : Params) (nTimeBlock nTimeTx : Z) : bool :=
  if IsProtocolV2 params nTimeBlock then (nTimeBlock =? nTimeTx) && (Z.land nTimeTx (nStakeTimestampMask params) =? 0)
  else nTimeBlock =? nTimeTx.

Definition CheckStakeBlockTimestamp (params : Params) (nTimeBlock : Z) : bool := CheckCoinStakeTimestamp params nTimeBlock nTimeBlock.

Definition IsStakeMature (nCoinHeight nSpendHeight : Z) (params : Params) : bool :=
  (nCoinHeight =? 0) || (nCoinbaseMaturity params <=? nSpendHeight - nCoinHeight).

Definition IsValidCoinstakeReward (nActualStakeReward nFees nHeight : Z) (params : Params) : bool :=
  nActualStakeReward =? GetProofOfStakeReward nHeight nFees params.

Section ProofOfStake.
Context `{Crypto} `{Curve} (params : Params).

Definition ComputeStakeModifier (pindexPrev : option CBlockIndex) (kernel : list Z) : list Z :=
  match pindexPrev with None => replicate 32 0 | Some x => doubleSha256 (kernel ++ nStakeModifier (entry x)) end.

(** ** The kernel *)

Definition max256 : Z := 2 ^ 256 - 1.

(** [UintToArith256] *)
Definition UintToArith256 (a : list Z) : Z := un_le a.

(** What is hashed: the modifier, the time of the coin, the coin and the time. *)
Definition kernel_bytes (modifier : list Z) (blockFromTime : Z) (prevout : COutPoint) (nTimeTx : Z) : list Z :=
  modifier ++ le_bytes 4 blockFromTime ++ op_hash prevout ++ le_bytes 4 (op_n prevout) ++ le_bytes 4 nTimeTx.

(** The target times the value, which is taken modulo [2^64], or the largest
    number where the product would not fit. *)
Definition weighted_target (nBits nValueIn : Z) : Z :=
  let bnTarget := c_target (SetCompact nBits) in
  let bnWeight := nValueIn mod 2 ^ 64 in
  if max256 / bnWeight <? bnTarget then max256 else u256 (bnTarget * bnWeight).

Definition CheckStakeKernelHash (pindexPrev : CBlockIndex) (nBits blockFromTime prevoutValue : Z) (prevout : COutPoint) (nTimeTx : Z) : bool :=
  if nTimeTx <? blockFromTime then false
  else if prevoutValue =? 0 then false
  else
    let hashProofOfStake := doubleSha256 (kernel_bytes (nStakeModifier (entry pindexPrev)) blockFromTime prevout nTimeTx) in
    negb (weighted_target nBits prevoutValue <? UintToArith256 hashProofOfStake).

(** The time the kernel uses for a coin: its own or that of its block. *)
Definition coin_time (coin : Coin) (blockFrom : CBlockIndex) : Z := if negb (coin_nTime coin =? 0) then coin_nTime coin else GetBlockTime blockFrom.

Definition VerifySignature (coin : Coin) (txFromHash : list Z) (txTo : CTransaction) (nIn : nat) (flags : Z) : script_res bool :=
  match vin txTo !! nIn with
  | None => Abort
  | Some txin =>
      if negb (bool_decide (op_hash (prevout txin) = txFromHash)) then Ret false else
      match VerifyScript (TransactionSignatureChecker {| txTo := txTo; m_mdb := FAIL; nIn := nIn; amount := 0; txdata := None |})
              flags (in_scriptSig txin) (out_scriptPubKey (coin_out coin)) [] with
      | Ret _ => Ret true
      | Err _ => Ret false
      | Abort => Abort
      end
  end.

(** ** The proof of a block *)

Definition CheckProofOfStake (pindexPrev : CBlockIndex) (tx : CTransaction) (nBits : Z) (view : coins) (nTimeTx : Z) : verdict unit :=
  if negb (IsCoinStake tx) then Undecided else
  match vin tx with
  | [] => Stopped
  | txin :: _ =>
      match view !! prevout txin with
      | None => Refused BLOCK_INVALID_HEADER "stake-prevout-not-exist"
      | Some coinPrev =>
          _ ← refuse_if (negb (IsStakeMature (nHeight coinPrev) (height_of pindexPrev + 1) params)) BLOCK_INVALID_HEADER "stake-prevout-not-mature";
          match GetAncestor pindexPrev (nHeight coinPrev) with
          | None => Stopped
          | Some None => Refused BLOCK_INVALID_HEADER "stake-prevout-not-loaded"
          | Some (Some blockFrom) =>
              match VerifySignature coinPrev (op_hash (prevout txin)) tx 0 SCRIPT_VERIFY_NONE with
              | Abort => Stopped
              | Ret false | Err _ => Refused BLOCK_INVALID_HEADER "stake-verify-signature-failed"
              | Ret true =>
                  refuse_if (negb (CheckStakeKernelHash pindexPrev nBits (coin_time coinPrev blockFrom) (nValue (coin_out coinPrev)) (prevout txin) nTimeTx))
                    BLOCK_HEADER_SYNC "stake-check-kernel-failed"
              end
          end
      end
  end.

(** ** The kernel without and with a cache *)

Record CStakeCache : Type := { cs_blockFromTime : Z; cs_amount : Z }.
Notation stake_cache := (gmap COutPoint CStakeCache).

(** What both take from a coin: nothing where it is missing, not mature, or its
    block is not found; [None] is the failed assertion of [GetAncestor]. *)
Definition stake_of (pindexPrev : CBlockIndex) (prevout : COutPoint) (view : coins) : option (option CStakeCache) :=
  match view !! prevout with
  | None => Some None
  | Some coinPrev =>
      if negb (IsStakeMature (nHeight coinPrev) (height_of pindexPrev + 1) params) then Some None else
      blockFrom ← GetAncestor pindexPrev (nHeight coinPrev);
      match blockFrom with
      | None => Some None
      | Some blockFrom => Some (Some {| cs_blockFromTime := coin_time coinPrev blockFrom; cs_amount := nValue (coin_out coinPrev) |})
      end
  end.

(** [CheckKernel] where the cache has no entry.  A coin found is not spent. *)
Definition CheckKernelUncached (pindexPrev : CBlockIndex) (nBits nTime : Z) (prevout : COutPoint) (view : coins) : option bool :=
  stake ← stake_of pindexPrev prevout view;
  match stake with
  | None => Some false
  | Some stake => Some (CheckStakeKernelHash pindexPrev nBits (cs_blockFromTime stake) (cs_amount stake) prevout nTime)
  end.

Definition CheckKernel (pindexPrev : CBlockIndex) (nBits nTime : Z) (prevout : COutPoint) (view : coins) (cache : stake_cache) : option bool :=
  match cache !! prevout with
  | None => CheckKernelUncached pindexPrev nBits nTime prevout view
  | Some stake =>
      if CheckStakeKernelHash pindexPrev nBits (cs_blockFromTime stake) (cs_amount stake) prevout nTime
      then CheckKernelUncached pindexPrev nBits nTime prevout view
      else Some false
  end.

Definition CacheKernel (cache : stake_cache) (prevout : COutPoint) (pindexPrev : CBlockIndex) (view : coins) : option stake_cache :=
  match cache !! prevout with
  | Some _ => Some cache
  | None => stake ← stake_of pindexPrev prevout view;
            Some (match stake with None => cache | Some c => <[prevout := c]> cache end)
  end.

(** ** The weight of a coin *)

Lemma weighted_target_spec nBits v hash :
  0 <= nBits -> 0 < v < 2 ^ 63 -> 0 <= hash < 2 ^ 256 ->
  negb (weighted_target nBits v <? hash) = true <-> hash <= c_target (SetCompact nBits) * v.
Proof.
  intros Hn Hv Hh. rewrite negb_true_iff, Z.ltb_ge. unfold weighted_target. rewrite (Z.mod_small v) by lia.
  pose proof (SetCompact_range nBits Hn) as Ht. set (t := c_target _) in *. unfold max256, u256 in *.
  pose proof (Z.div_mod (2 ^ 256 - 1) v ltac:(lia)) as Hd. pose proof (Z.mod_pos_bound (2 ^ 256 - 1) v ltac:(lia)) as Hm.
  set (q := (2 ^ 256 - 1) / v) in *. destruct (Z.ltb_spec q t) as [Hlt|Hge].
  - split; intros; [nia|lia].
  - rewrite Z.mod_small by nia. done.
Qed.

Context `{!CryptoLaws}.

Lemma hash_range bs : 0 <= UintToArith256 (doubleSha256 bs) < 2 ^ 256.
Proof.
  unfold UintToArith256. pose proof (un_le_bound (doubleSha256 bs) (doubleSha256_bytes bs)) as Hb. rewrite doubleSha256_length in Hb.
  change (256 ^ Z.of_nat 32) with (2 ^ 256) in Hb. exact Hb.
Qed.

Lemma kernel_iff pindexPrev nBits fromTime v p nTimeTx :
  0 <= nBits -> 0 < v < 2 ^ 63 ->
  CheckStakeKernelHash pindexPrev nBits fromTime v p nTimeTx = true <->
  fromTime <= nTimeTx /\
  UintToArith256 (doubleSha256 (kernel_bytes (nStakeModifier (entry pindexPrev)) fromTime p nTimeTx)) <= c_target (SetCompact nBits) * v.
Proof.
  intros Hn Hv. unfold CheckStakeKernelHash. destruct (Z.ltb_spec nTimeTx fromTime); [split; [done|lia]|].
  rewrite (proj2 (Z.eqb_neq v 0)) by lia. rewrite weighted_target_spec by (done || apply hash_range). split; [done|by intros []].
Qed.

(** C12: A coin's chance to stake is its value, in exact arithmetic.  Whatever the
    target and the value of a coin, the code accepts a kernel exactly if its time
    is not before the coin's and its hash is at most the target times the value as
    integers without a bound: neither the 256 bits of the product nor its cap
    change the outcome.  A coin of at least the value is accepted wherever a
    smaller one with the same kernel is. *)
Theorem kernel_weight_exact pindexPrev nBits fromTime v p nTimeTx :
  0 <= nBits < 2 ^ 32 -> 0 < v <= MAX_MONEY ->
  (CheckStakeKernelHash pindexPrev nBits fromTime v p nTimeTx = true <->
   fromTime <= nTimeTx /\
   UintToArith256 (doubleSha256 (kernel_bytes (nStakeModifier (entry pindexPrev)) fromTime p nTimeTx)) <= c_target (SetCompact nBits) * v) /\
  (forall v', v <= v' <= MAX_MONEY ->
   CheckStakeKernelHash pindexPrev nBits fromTime v p nTimeTx = true -> CheckStakeKernelHash pindexPrev nBits fromTime v' p nTimeTx = true).
Proof.
  unfold MAX_MONEY. intros Hn Hv. split; [apply kernel_iff; lia|]. intros v' Hv'. rewrite !kernel_iff by lia. intros [Ht Hh].
  split; [done|]. pose proof (SetCompact_range nBits ltac:(lia)). nia.
Qed.

(** ** The cache *)

Definition cache_current (pindexPrev : CBlockIndex) (view : coins) (cache : stake_cache) : Prop :=
  forall p c, cache !! p = Some c -> stake_of pindexPrev p view = Some (Some c).

Lemma stake_of_total pindexPrev p view : chain_ok pindexPrev -> is_Some (stake_of pindexPrev p view).
Proof.
  intros Hc. unfold stake_of. destruct (view !! p); [|by eexists]. destruct (negb _); [by eexists|]. rewrite GetAncestor_ancestor by done.
  cbn [mbind option_bind]. destruct (ancestor _ _); by eexists.
Qed.

Lemma CacheKernel_current pindexPrev view cache p :
  chain_ok pindexPrev -> cache_current pindexPrev view cache ->
  exists cache', CacheKernel cache p pindexPrev view = Some cache' /\ cache_current pindexPrev view cache'.
Proof.
  intros Hc Hcur. unfold CacheKernel. destruct (cache !! p) as [c|] eqn:E; [by exists cache|].
  destruct (stake_of_total pindexPrev p view Hc) as [st Hst]. rewrite Hst. cbn [mbind option_bind]. eexists. split; [done|].
  destruct st as [c|]; [|done]. intros q d [[<- <-]|[_ Hq]]%lookup_insert_Some; [done|by apply Hcur].
Qed.

(** The cache after a run of [CacheKernel] over some coins. *)
Definition CacheKernels (pindexPrev : CBlockIndex) (view : coins) (ps : list COutPoint) : option stake_cache :=
  foldl (fun cache p => cache ← cache; CacheKernel cache p pindexPrev view) (Some ∅) ps.

Lemma CacheKernels_current pindexPrev view ps :
  chain_ok pindexPrev -> exists cache, CacheKernels pindexPrev view ps = Some cache /\ cache_current pindexPrev view cache.
Proof.
  intros Hc. unfold CacheKernels. induction ps as [|p ps IH] using rev_ind; [by exists ∅|]. rewrite foldl_app. destruct IH as (cache & -> & Hcur).
  cbn. by apply CacheKernel_current.
Qed.

Lemma cached_true pindexPrev nBits nTime p view cache :
  CheckKernel pindexPrev nBits nTime p view cache = Some true -> CheckKernelUncached pindexPrev nBits nTime p view = Some true.
Proof. unfold CheckKernel. destruct (cache !! p); [|done]. by destruct (CheckStakeKernelHash _ _ _ _ _ _). Qed.

(** C20: The cache of kernels never decides for a stake.  Whatever a cache holds,
    also after a reorganisation, a kernel found with it is found without it; and a
    cache filled by [CacheKernel] for the current block gives the same answer as
    none, for every coin and time. *)
Theorem kernel_cache_safe pindexPrev view ps :
  chain_ok pindexPrev ->
  (forall cache nBits nTime p, CheckKernel pindexPrev nBits nTime p view cache = Some true ->
    CheckKernelUncached pindexPrev nBits nTime p view = Some true) /\
  exists cache, CacheKernels pindexPrev view ps = Some cache /\
    forall nBits nTime p, CheckKernel pindexPrev nBits nTime p view cache = CheckKernelUncached pindexPrev nBits nTime p view.
Proof.
  intros Hc. split; [intros cache nBits nTime p; apply cached_true|]. destruct (CacheKernels_current pindexPrev view ps Hc) as (cache & Hcache & Hcur).
  exists cache. split; [done|]. intros nBits nTime p. unfold CheckKernel. destruct (cache !! p) as [c|] eqn:E; [|done].
  unfold CheckKernelUncached. rewrite (Hcur p c E). cbn [mbind option_bind]. by destruct (CheckStakeKernelHash _ _ _ _ _ _).
Qed.

(** ** What a staker finds, every node accepts *)

Lemma CheckProofOfStake_iff pindexPrev tx nBits view nTimeTx txin :
  chain_ok pindexPrev -> IsCoinStake tx = true -> head (vin tx) = Some txin ->
  CheckProofOfStake pindexPrev tx nBits view nTimeTx = Accepted tt <->
  CheckKernelUncached pindexPrev nBits nTimeTx (prevout txin) view = Some true /\
  exists coin, view !! prevout txin = Some coin /\ VerifySignature coin (op_hash (prevout txin)) tx 0 SCRIPT_VERIFY_NONE = Ret true.
Proof.
  intros Hc Hcs Hin. unfold CheckProofOfStake, CheckKernelUncached, stake_of. rewrite Hcs. cbn [negb]. destruct (vin tx) as [|i l]; [done|].
  injection Hin as ->. destruct (view !! prevout txin) as [coin|]; [|split; [done|intros (_ & ? & ? & _); done]].
  destruct (IsStakeMature _ _ _); cbn [negb refuse_if mbind verdict_bind option_bind]; [|split; [done|by intros [? _]]].
  rewrite GetAncestor_ancestor by done. destruct (ancestor _ _) as [b|]; cbn [mbind option_bind cs_blockFromTime cs_amount]; [|split; [done|by intros [? _]]].
  destruct (VerifySignature _ _ _ _ _) as [[]| |] eqn:Ev.
  - rewrite refuse_if_accepted, negb_false_iff. split; [intros ->; split; [done|by exists coin]|by intros [[= ->] _]].
  - split; [done|]. intros (_ & c & [= <-] & E). congruence.
  - split; [done|]. intros (_ & c & [= <-] & E). congruence.
  - split; [done|]. intros (_ & c & [= <-] & E). congruence.
Qed.

(** C11: What a staker finds, every node accepts.  A coinstake proves its stake to
    [CheckProofOfStake] exactly if [CheckKernel], with which stakers search, finds
    the kernel of its first input at that time and target, and the input's script
    passes; in particular a kernel found with any cache does. *)
Theorem found_kernel_proves_stake pindexPrev tx nBits view nTimeTx txin :
  chain_ok pindexPrev -> IsCoinStake tx = true -> head (vin tx) = Some txin ->
  (CheckProofOfStake pindexPrev tx nBits view nTimeTx = Accepted tt <->
   CheckKernelUncached pindexPrev nBits nTimeTx (prevout txin) view = Some true /\
   exists coin, view !! prevout txin = Some coin /\ VerifySignature coin (op_hash (prevout txin)) tx 0 SCRIPT_VERIFY_NONE = Ret true) /\
  (forall cache coin, CheckKernel pindexPrev nBits nTimeTx (prevout txin) view cache = Some true ->
   view !! prevout txin = Some coin -> VerifySignature coin (op_hash (prevout txin)) tx 0 SCRIPT_VERIFY_NONE = Ret true ->
   CheckProofOfStake pindexPrev tx nBits view nTimeTx = Accepted tt).
Proof.
  intros Hc Hcs Hin. split; [by apply CheckProofOfStake_iff|]. intros cache coin Hk Hcoin Hv. apply (CheckProofOfStake_iff _ _ _ _ _ txin Hc Hcs Hin).
  split; [by eapply cached_true|by exists coin].
Qed.

End ProofOfStake.

(** ** A staker on a chain of six hundred blocks *)

Definition ex_stake_point : COutPoint := {| op_hash := replicate 32 7; op_n := 1 |}.
Definition ex_stake_coin : Coin := {|
  coin_out := {| nValue := 1400000000000000; out_scriptPubKey := [0x51] |}; fCoinBase := false; fCoinStake := true; nHeight := 20; coin_nTime := 0
|}.
Definition ex_stake_view : coins := {[ ex_stake_point := ex_stake_coin ]}.
Definition ex_coinstake : CTransaction := {|
  nVersion := 2; nTime := 0; nLockTime := 0;
  vin := [{| prevout := ex_stake_point; in_scriptSig := [0x51]; nSequence := 0xffffffff; scriptWitness := [] |}];
  vout := [{| nValue := 0; out_scriptPubKey := [] |}; {| nValue := 1400001000000000; out_scriptPubKey := [0x51] |}]
|}.
Definition ex_tip : CBlockIndex := default (BlockIndex (ex_entry 0 0 0 0) None None) (ex_chain 600).

Lemma ex_tip_ok : chain_ok ex_tip /\ height_of ex_tip = 600.
Proof. destruct (ex_chain_ok 600) as (x & Hx & Hc & Hh). unfold ex_tip. rewrite Hx. exact (conj Hc Hh). Qed.

Lemma kernel_weight_exact_witness :
  @CheckStakeKernelHash toy_crypto ex_tip 0x1b00cde1 1789171200 1400000000000000 ex_stake_point 1789209600 = true <->
  1789171200 <= 1789209600 /\
  UintToArith256 (@doubleSha256 toy_crypto (kernel_bytes (nStakeModifier (entry ex_tip)) 1789171200 ex_stake_point 1789209600)) <=
    c_target (SetCompact 0x1b00cde1) * 1400000000000000.
Proof.
  refine (proj1 (@kernel_weight_exact toy_crypto toy_laws ex_tip 0x1b00cde1 1789171200 1400000000000000 ex_stake_point 1789209600 _ _));
    vm_compute; split; discriminate || reflexivity.
Defined.

Lemma kernel_cache_safe_witness :
  exists cache, CacheKernels main_params ex_tip ex_stake_view [ex_stake_point] = Some cache /\
    @CheckKernel toy_crypto main_params ex_tip 0x207fffff 1789209600 ex_stake_point ex_stake_view cache =
    @CheckKernelUncached toy_crypto main_params ex_tip 0x207fffff 1789209600 ex_stake_point ex_stake_view.
Proof.
  destruct (@kernel_cache_safe toy_crypto main_params ex_tip ex_stake_view [ex_stake_point] (proj1 ex_tip_ok)) as (_ & cache & Hc & He).
  exists cache. split; [exact Hc|apply He].
Defined.

Lemma found_kernel_proves_stake_witness :
  @CheckProofOfStake toy_crypto toy_curve main_params ex_tip ex_coinstake 0x207fffff ex_stake_view 1789209600 = Accepted tt.
Proof.
  apply (proj2 (@found_kernel_proves_stake toy_crypto toy_curve main_params ex_tip ex_coinstake 0x207fffff ex_stake_view 1789209600
    {| prevout := ex_stake_point; in_scriptSig := [0x51]; nSequence := 0xffffffff; scriptWitness := [] |} (proj1 ex_tip_ok) eq_refl eq_refl) ∅ ex_stake_coin);
    vm_compute; reflexivity.
Defined.
