(* ===== verification/Retarget.v ===== *)
(** * The next target

    [pow.cpp]: the target of the next block from the times of the last two of its
    kind, and the check of a proof of work. *)

From S2P Require Import Prelude Digits Bytes Arith256 ConsensusParams Chain.

Open Scope Z_scope.
Open Scope list_scope.

Definition GetTargetLimit (nTime : Z) (params : Params) (fProofOfStake : bool) : Z :=
  if fProofOfStake then (if IsProtocolV2 params nTime then posLimitV2 params else posLimit params) else powLimit params.

(** The times are 32 bits wide.  The factor, an [int64_t], is multiplied as a
    [uint32_t] and the divisor converted to [uint64_t]; [None] is a division by
    zero. *)
Definition CalculateNextTargetRequired (pindexLast : CBlockIndex) (nFirstBlockTime : Z) (params : Params) (fProofOfStake : bool) : option Z :=
  if (if fProofOfStake then fPoSNoRetargeting params else fPowNoRetargeting params) then Some (bi_nBits (entry pindexLast)) else
  let time := GetBlockTime pindexLast in
  let spacing := if IsProtocolV2 params time then nTargetSpacing params else nTargetSpacingV1 params in
  let nActualSpacing := time - nFirstBlockTime in
  let nActualSpacing := if IsProtocolV1RetargetingFixed params time && (nActualSpacing <? 0) then spacing else nActualSpacing in
  let nActualSpacing := if IsProtocolV3 params time && (spacing * 10 <? nActualSpacing) then spacing * 10 else nActualSpacing in
  let bnTargetLimit := GetTargetLimit time params fProofOfStake in
  let bnNew := c_target (SetCompact (bi_nBits (entry pindexLast))) in
  if spacing =? 0 then None else
  let nInterval := Z.quot (nTargetTimespan params) spacing in
  let bnNew := u256 (bnNew * (((nInterval - 1) * spacing + nActualSpacing + nActualSpacing) mod 2 ^ 32)) in
  let divisor := ((nInterval + 1) * spacing) mod 2 ^ 64 in
  if divisor =? 0 then None else
  let bnNew := bnNew / divisor in
  let bnNew := if (bnNew <=? 0) || (bnTargetLimit <? bnNew) then bnTargetLimit else bnNew in
  Some (GetCompact bnNew).

Definition GetNextTargetRequired (pindexLast : option CBlockIndex) (params : Params) (fProofOfStake : bool) : option Z :=
  match pindexLast with
  | None => Some (GetCompact (powLimit params))
  | Some pindexLast =>
      let pindexPrev := GetLastBlockIndex fProofOfStake pindexLast in
      let nTargetLimit := GetCompact (GetTargetLimit (GetBlockTime pindexLast) params fProofOfStake) in
      match pprev pindexPrev with
      | None => Some nTargetLimit
      | Some before =>
          let pindexPrevPrev := GetLastBlockIndex fProofOfStake before in
          match pprev pindexPrevPrev with
          | None => Some nTargetLimit
          | Some _ =>
              match chain_type params with
              | REGTEST => Some (GetCompact (c_target (SetCompact 0x207fffff)))
              | _ => CalculateNextTargetRequired pindexPrev (GetBlockTime pindexPrevPrev) params fProofOfStake
              end
          end
      end
  end.

Definition CheckProofOfWork (hash : list Z) (nBits : Z) (params : Params) : bool :=
  let c := SetCompact nBits in
  if fNegative c || (c_target c =? 0) || fOverflow c || (powLimit params <? c_target c) then false
  else negb (c_target c <? un_le hash).

(** ** Targets stay in range *)

(** The compact form of a target in a range is one in that range. *)
Lemma compact_in_range a : 0 < a < 2 ^ 256 ->
  exists t, SetCompact (GetCompact a) = {| c_target := t; fNegative := false; fOverflow := false |} /\ 0 < t <= a.
Proof.
  intros Ha. destruct (compact_codec a ltac:(lia)) as (Hs & Ht & Hd & _). eexists. split; [exact Hs|].
  assert (c_target (SetCompact (GetCompact a)) <> 0) by (intros E; rewrite E in Hd; lia). lia.
Qed.

(** Parameters of a network whose targets move, as all but the test chain's do. *)
Definition moving_targets (params : Params) : Prop :=
  chain_type params <> REGTEST /\ fPowNoRetargeting params = false /\ fPoSNoRetargeting params = false /\
  0 < powLimit params < 2 ^ 256 /\ 0 < posLimit params < 2 ^ 256 /\ 0 < posLimitV2 params < 2 ^ 256 /\
  0 < nTargetSpacing params < 2 ^ 62 /\ 0 < nTargetSpacingV1 params < 2 ^ 62 /\ 0 <= nTargetTimespan params < 2 ^ 62.

(** The limit at a time: stakes have a lower one since version 2. *)
Definition limit_in_force (params : Params) (fProofOfStake : bool) (nTime : Z) : Z :=
  if fProofOfStake then (if IsProtocolV2 params nTime then posLimitV2 params else posLimit params) else powLimit params.

(** The block whose time decides: the last one of the kind, where two of the kind
    stand before it, and the last one of all otherwise. *)
Definition deciding_block (fProofOfStake : bool) (pindexLast : CBlockIndex) : CBlockIndex :=
  let pindexPrev := GetLastBlockIndex fProofOfStake pindexLast in
  match pprev pindexPrev ≫= (fun before => pprev (GetLastBlockIndex fProofOfStake before)) with Some _ => pindexPrev | None => pindexLast end.

Lemma limit_range params nTime pos : moving_targets params ->
  0 < GetTargetLimit nTime params pos <= limit_in_force params pos nTime /\ limit_in_force params pos nTime < 2 ^ 256.
Proof. intros (_ & _ & _ & ? & ? & ? & _). unfold GetTargetLimit, limit_in_force. destruct pos; [destruct (IsProtocolV2 _ _)|]; lia. Qed.

Lemma Calculate_in_range params last first pos : moving_targets params ->
  exists a, CalculateNextTargetRequired last first params pos = Some (GetCompact a) /\ 0 < a <= limit_in_force params pos (GetBlockTime last).
Proof.
  intros Hp. pose proof (limit_range params (GetBlockTime last) pos Hp) as [Hl Hm]. destruct Hp as (_ & Hw & Hs & _ & _ & _ & Hsp & Hsp1 & Hts).
  unfold CalculateNextTargetRequired. rewrite Hw, Hs. replace (if pos then false else false) with false by (by destruct pos).
  set (spacing := if IsProtocolV2 params _ then _ else _). assert (0 < spacing < 2 ^ 62) as Hspace by (unfold spacing; destruct (IsProtocolV2 _ _); lia).
  rewrite (proj2 (Z.eqb_neq spacing 0)) by lia. rewrite Z.quot_div_nonneg by lia.
  pose proof (Z.div_pos (nTargetTimespan params) spacing ltac:(lia) ltac:(lia)). pose proof (Z.mul_div_le (nTargetTimespan params) spacing ltac:(lia)).
  set (q := nTargetTimespan params / spacing) in *. rewrite (Z.mod_small ((q + 1) * spacing)) by nia. rewrite (proj2 (Z.eqb_neq _ 0)) by nia.
  set (bnNew := u256 _ / _). eexists. split; [reflexivity|].
  destruct (Z.leb_spec bnNew 0); cbn [orb]; [lia|]. destruct (Z.ltb_spec (GetTargetLimit (GetBlockTime last) params pos) bnNew); lia.
Qed.

(** C17: Every target the code asks for can be met.  On a network whose targets move,
    as on all but the regression test network, and on any chain, whatever its times
    and earlier targets, the next target is computed without a division by zero and
    is positive, neither negative nor overflowing as it is read back from its
    compact form, and not above the limit in force at the time of the block that
    decides, which for stakes since version 2 is the lower one. *)
Theorem next_target_in_range params pindexLast fProofOfStake :
  moving_targets params ->
  exists nBits t, GetNextTargetRequired pindexLast params fProofOfStake = Some nBits /\
    SetCompact nBits = {| c_target := t; fNegative := false; fOverflow := false |} /\
    0 < t <= match pindexLast with
             | None => powLimit params
             | Some last => limit_in_force params fProofOfStake (GetBlockTime (deciding_block fProofOfStake last))
             end.
Proof.
  intros Hp. set (limit := match pindexLast with None => _ | Some _ => _ end).
  assert (limit < 2 ^ 256 /\ exists a, GetNextTargetRequired pindexLast params fProofOfStake = Some (GetCompact a) /\ 0 < a <= limit) as (Hl & a & -> & Ha).
  { subst limit. destruct pindexLast as [last|]; [|destruct Hp as (_ & _ & _ & ? & _); split; [lia|]; exists (powLimit params); split; [done|lia]].
    split; [by apply limit_range|]. unfold GetNextTargetRequired, deciding_block. pose proof (limit_range params (GetBlockTime last) fProofOfStake Hp) as [Hl _].
    destruct (pprev (GetLastBlockIndex _ last)) as [before|]; cbn [mbind option_bind]; [|by eexists].
    destruct (pprev _); [|by eexists]. destruct (chain_type params) eqn:Et.
    1-3: by apply Calculate_in_range. by destruct Hp. }
  destruct (compact_in_range a ltac:(lia)) as (t & Ht & Hb). exists (GetCompact a), t. split; [done|]. split; [done|lia].
Qed.

Lemma main_moving : moving_targets main_params.
Proof. repeat split; try done; vm_compute; discriminate. Qed.

Lemma next_target_in_range_witness :
  exists nBits t, GetNextTargetRequired (ex_chain 5) main_params true = Some nBits /\
    SetCompact nBits = {| c_target := t; fNegative := false; fOverflow := false |} /\ 0 < t <= 2 ^ 208 - 1.
Proof. exact (next_target_in_range main_params (ex_chain 5) true main_moving). Defined.

(** ** Blocks on time keep the target *)

Lemma main_versions t : 1444028400 < t ->
  IsProtocolV1RetargetingFixed main_params t = true /\ IsProtocolV2 main_params t = true /\ IsProtocolV3 main_params t = true.
Proof.
  intros Ht. unfold IsProtocolV1RetargetingFixed, IsProtocolV2, IsProtocolV3. cbn [nProtocolV1RetargetingFixedTime nProtocolV2Time nProtocolV3Time main_params].
  rewrite !(proj2 (Z.ltb_lt _ t)), !(proj2 (Z.eqb_neq t _)) by lia. done.
Qed.

(** C18: On the main network a staked block moves the target towards one block in
    64 seconds.  After a block [s] seconds after the one before, [s] taken as 64
    where it is negative and as 640 where it is more, the target is multiplied by
    [(896 + 2 s) / 1024], rounded down and capped: it never falls by more than an
    eighth nor rises to more than 17 eighths, and a block exactly on time leaves
    the bits of the header as they were. *)
Theorem retarget_towards_spacing last first :
  1444028400 < GetBlockTime last -> 0 <= bi_nBits (entry last) ->
  let t := c_target (SetCompact (bi_nBits (entry last))) in
  let limit := posLimitV2 main_params in
  let s := GetBlockTime last - first in
  let new := t * (896 + 2 * (if s <? 0 then 64 else Z.min s 640)) / 1024 in
  t <= limit ->
  CalculateNextTargetRequired last first main_params true = Some (GetCompact (if (new <=? 0) || (limit <? new) then limit else new)) /\
  7 * t <= 8 * new + 7 /\ 8 * new <= 17 * t /\
  (forall a, s = 64 -> 0 < a <= limit -> bi_nBits (entry last) = GetCompact a ->
    CalculateNextTargetRequired last first main_params true = Some (bi_nBits (entry last))).
Proof.
  intros Ht Hn t limit s new Hlim. destruct (main_versions _ Ht) as (V1 & V2 & V3). pose proof (SetCompact_range _ Hn) as Hr. fold t in Hr.
  assert (CalculateNextTargetRequired last first main_params true = Some (GetCompact (if (new <=? 0) || (limit <? new) then limit else new))) as Hcalc.
  { unfold CalculateNextTargetRequired. rewrite V1, V2, V3. unfold GetTargetLimit. rewrite V2. fold s t limit.
    change (fPoSNoRetargeting main_params) with false. change (nTargetSpacing main_params) with 64. change (nTargetTimespan main_params) with 960.
    change (64 =? 0) with false. change (Z.quot 960 64) with 15. change ((15 + 1) * 64 mod 2 ^ 64) with 1024. cbn [andb]. cbv zeta iota.
    change (1024 =? 0) with false. cbv iota. change (64 * 10) with 640. change ((15 - 1) * 64) with 896.
    set (w := if s <? 0 then 64 else s). replace (if 640 <? w then 640 else w) with (if s <? 0 then 64 else Z.min s 640).
    2:{ unfold w. destruct (Z.ltb_spec s 0); [done|]. destruct (Z.ltb_spec 640 s); lia. }
    set (k := if s <? 0 then 64 else Z.min s 640) in *. assert (0 <= k <= 640) as Hk by (unfold k; destruct (Z.ltb_spec s 0); lia).
    rewrite (Z.mod_small (896 + k + k)) by lia. unfold u256. change (posLimitV2 main_params) with (2 ^ 208 - 1) in limit.
    rewrite Z.mod_small by (unfold limit in Hlim; nia). replace (896 + k + k) with (896 + 2 * k) by lia. done. }
  split; [exact Hcalc|]. set (k := if s <? 0 then 64 else Z.min s 640) in *. assert (0 <= k <= 640) as Hk by (unfold k; destruct (Z.ltb_spec s 0); lia).
  pose proof (Z.div_mod (t * (896 + 2 * k)) 1024 ltac:(lia)) as Hd. pose proof (Z.mod_pos_bound (t * (896 + 2 * k)) 1024 ltac:(lia)) as Hb.
  fold new in Hd. split; [nia|]. split; [nia|]. intros a Hs Ha Ea. rewrite Hcalc. f_equal.
  assert (k = 64) as Ek by (unfold k; rewrite Hs; done). assert (new = t) as -> by (unfold new; rewrite Ek; change (896 + 2 * 64) with 1024; apply Z.div_mul; lia).
  assert (a < 2 ^ 256) by (unfold limit in Ha; change (posLimitV2 main_params) with (2 ^ 208 - 1) in Ha; lia).
  destruct (compact_codec a ltac:(lia)) as (_ & _ & Hta & Hgc). rewrite <-Ea in Hta, Hgc. fold t in Hta, Hgc.
  rewrite (proj2 (Z.leb_gt t 0)), (proj2 (Z.ltb_ge limit t)) by lia. exact Hgc.
Qed.

Lemma retarget_towards_spacing_witness :
  CalculateNextTargetRequired (BlockIndex (ex_entry 9 1789171776 1 0x1b00cde1) None None) (1789171776 - 64) main_params true = Some 0x1b00cde1.
Proof.
  apply (retarget_towards_spacing (BlockIndex (ex_entry 9 1789171776 1 0x1b00cde1) None None) (1789171776 - 64)) with (a := 0x00cde1 * 2 ^ 192);
    vm_compute; try (split; [reflexivity|]); (reflexivity || discriminate).
Defined.
