(* ===== verification/BlockCheck.v ===== *)
(** * Checks of a block without its coins

    [validation.cpp]: [CheckBlockSignature], [CheckBlockHeader], [CheckBlock],
    [ContextualCheckBlockHeader] and [ContextualCheckBlock], and the checkpoints of
    [node/blockstorage.cpp].  The marks that remember a check already made are
    fields of the block; scrypt and the solution of a signet block are arguments. *)

From stdpp Require Import gmap.
From S2P Require Import Prelude Digits JsString Bytes Crypto JsInt Tx NodeTx ScriptError NodeScript ScriptNum Interpreter Verify Validation JsNum NodeFee Arith256 ConsensusParams Chain TxCheck Policy Block Merkle Coins ProofOfStake Retarget.

Open Scope Z_scope.
Open Scope list_scope.

Definition MAX_BLOCK_SIGOPS_COST : Z := 80000.
Definition MAX_FUTURE_BLOCK_TIME : Z := 2 * 60 * 60.

Section BlockCheck.
Context `{Crypto} `{Curve} (params : Params) (scrypt_1024_1_1_256 : list Z -> list Z) (CheckSignetBlockSolution : CBlock -> bool).

(** ** The signature of a block *)

Definition VerifyWith (vchPubKey hash sig : list Z) : bool :=
  match CPubKey_Set vchPubKey with None => false | Some pubkey => Verify pubkey hash sig end.

Definition CheckBlockSignature (block : CBlock) : bool :=
  if negb (BlockIsProofOfStake block) then (length (vchBlockSig block) =? 0)%nat
  else if (length (vchBlockSig block) =? 0)%nat then false
  else
    match vtx block !! 1%nat ≫= (fun tx => vout tx !! 1%nat) with
    | None => false
    | Some txout =>
        let hash := BlockHash scrypt_1024_1_1_256 (header block) in
        match Solver (out_scriptPubKey txout) with
        | (PUBKEY, vchPubKey :: _) => VerifyWith vchPubKey hash (vchBlockSig block)
        | _ =>
            let '(ok, opcode, _, pc) := GetScriptOp (out_scriptPubKey txout) in
            if negb ok then false
            else if negb (opcode =? OP_RETURN) then false
            else
              let '(ok, _, vchPushValue, _) := GetScriptOp pc in
              if negb ok then false
              else if negb (IsCompressedOrUncompressedPubKey vchPushValue) then false
              else VerifyWith vchPushValue hash (vchBlockSig block)
        end
    end.

(** ** Without context *)

(** [fOldClient] leaves the state as it was. *)
Definition CheckBlockHeader (tip_height adjusted_time : Z) (h : CBlockHeader) (fCheckPOW fOldClient : bool) : verdict unit :=
  _ ← refuse_if ((bh_nVersion h <? 7) && IsProtocolV2 params (bh_nTime h)) BLOCK_INVALID_HEADER "bad-version";
  _ ← (if fCheckPOW && negb (CheckProofOfWork (GetPoWHash scrypt_1024_1_1_256 h) (bh_nBits h) params) then
         if fOldClient : bool then Undecided else Refused BLOCK_INVALID_HEADER "high-hash"
       else Accepted tt);
  refuse_if (FutureDrift params tip_height adjusted_time <? bh_nTime h) BLOCK_INVALID_HEADER "time-too-new".

(** The time of a transaction in a block, which is the block's where it has none. *)
Definition time_in_block (block : CBlock) (tx : CTransaction) : Z := if negb (nTime tx =? 0) then nTime tx else bh_nTime (header block).

(** The first transaction of a staked block: nothing, or nothing and the witness
    commitment. *)
Definition coinbase_empty (block : CBlock) (coinbase : CTransaction) : bool :=
  match GetWitnessCommitmentIndex block, vout coinbase with
  | None, [o] => IsEmpty o
  | Some _, [o; c] => IsEmpty o && (nValue c =? 0)
  | _, _ => false
  end.

Definition check_shape (tip_height : Z) (block : CBlock) : verdict unit :=
  match vtx block with
  | [] => Refused BLOCK_CONSENSUS "bad-blk-length"
  | coinbase :: txs =>
      _ ← refuse_if ((MAX_BLOCK_WEIGHT <? Z.of_nat (length (vtx block)) * WITNESS_SCALE_FACTOR) ||
                     (MAX_BLOCK_WEIGHT <? BlockSize false block * WITNESS_SCALE_FACTOR)) BLOCK_CONSENSUS "bad-blk-length";
      _ ← refuse_if (negb (IsCoinBase coinbase)) BLOCK_CONSENSUS "bad-cb-missing";
      _ ← refuse_if (existsb IsCoinBase txs) BLOCK_CONSENSUS "bad-cb-multiple";
      _ ← refuse_if (FutureDrift params tip_height (time_in_block block coinbase) <? bh_nTime (header block)) BLOCK_CONSENSUS "bad-cb-time";
      match txs with
      | coinstake :: txs =>
          if negb (IsCoinStake coinstake) then Accepted tt else
          _ ← refuse_if (negb (CheckCoinStakeTimestamp params (bh_nTime (header block)) (time_in_block block coinstake))) BLOCK_CONSENSUS "bad-cs-time";
          _ ← refuse_if (negb (coinbase_empty block coinbase)) BLOCK_CONSENSUS "bad-cb-not-empty";
          refuse_if (existsb IsCoinStake txs) BLOCK_CONSENSUS "bad-cs-multiple"
      | [] => Accepted tt
      end
  end.

(** The assertion is that a transaction fails only by consensus.  What follows it
    in the source, a check of the transaction's time, is never reached. *)
Fixpoint check_transactions (txs : list CTransaction) : verdict unit :=
  match txs with
  | [] => Accepted tt
  | tx :: txs =>
      match CheckTransaction tx with
      | Valid _ => check_transactions txs
      | Invalid TX_CONSENSUS reason => Refused BLOCK_CONSENSUS reason
      | _ => Stopped
      end
  end.

Definition CheckBlock (tip_height adjusted_time : Z) (block : CBlock) (fCheckPOW fCheckMerkleRoot fCheckSig : bool) : verdict CBlock :=
  if fChecked block then Accepted block else
  _ ← CheckBlockHeader tip_height adjusted_time (header block) (fCheckPOW && negb (BlockIsProofOfStake block)) false;
  _ ← refuse_if (match chain_type params with SIGNET => fCheckPOW && negb (CheckSignetBlockSolution block) | _ => false end)
        BLOCK_CONSENSUS "bad-signet-blksig";
  marked ← (if fCheckMerkleRoot then CheckMerkleRoot block else Accepted block);
  _ ← check_shape tip_height block;
  _ ← refuse_if (fCheckSig && negb (CheckBlockSignature block)) BLOCK_CONSENSUS "bad-blk-signature";
  _ ← check_transactions (vtx block);
  let nSigOps := foldr Z.add 0 (GetLegacySigOpCount <$> vtx block) in
  _ ← refuse_if (MAX_BLOCK_SIGOPS_COST <? u32 (u32 nSigOps * WITNESS_SCALE_FACTOR)) BLOCK_CONSENSUS "bad-blk-sigops";
  Accepted (if fCheckPOW && fCheckMerkleRoot then set_fChecked marked else marked).

(** ** Checkpoints *)

Definition CheckHardened (checkpoints : gmap Z (list Z)) (nHeight : Z) (hash : list Z) : bool :=
  match checkpoints !! nHeight with None => true | Some h => bool_decide (hash = h) end.

(** The loop of [AutoSelectSyncCheckpoint], from the tip at height [best] down. *)
Fixpoint AutoSelectSyncCheckpoint (best : Z) (pindex : CBlockIndex) : CBlockIndex :=
  match pindex with
  | BlockIndex e (Some prev) _ => if best <? bi_nHeight e + nCoinbaseMaturity params then AutoSelectSyncCheckpoint best prev else pindex
  | _ => pindex
  end.

Definition CheckSyncCheckpoint (nHeight : Z) (pindexBest : CBlockIndex) : bool :=
  negb (negb (nHeight =? 0) && (nHeight <=? height_of (AutoSelectSyncCheckpoint (height_of pindexBest) pindexBest))).

(** ** With the chain before it *)

(** [checkpoints] are none where they are disabled, and [last_checkpoint] is the
    height of the last one in the index. *)
Definition ContextualCheckBlockHeader (checkpoints : option (gmap Z (list Z))) (last_checkpoint : option Z) (tip : CBlockIndex) (now : Z)
    (h : CBlockHeader) (pindexPrev : CBlockIndex) (fProofOfStake : bool) : verdict unit :=
  let nHeight := height_of pindexPrev + 1 in
  nBits ← match GetNextTargetRequired (Some pindexPrev) params fProofOfStake with None => Stopped | Some n => Accepted n end;
  _ ← refuse_if (negb (bh_nBits h =? nBits)) BLOCK_INVALID_HEADER "bad-diffbits";
  _ ← refuse_if (nMaxReorganizationDepth params <=? height_of tip - nHeight) BLOCK_INVALID_HEADER "older-than-maxreorg-depth";
  _ ← refuse_if ((nLastPOWBlock params <? nHeight) && negb fProofOfStake) BLOCK_INVALID_HEADER "reject-pow";
  _ ← refuse_if ((nLastPOWBlock params <? nHeight) && negb (CheckStakeBlockTimestamp params (bh_nTime h))) BLOCK_INVALID_HEADER "bad-pos-time";
  _ ← match checkpoints with
      | None => Accepted tt
      | Some cps =>
          _ ← refuse_if (match last_checkpoint with Some c => nHeight <? c | None => false end) BLOCK_CHECKPOINT "bad-fork-prior-to-checkpoint";
          refuse_if (negb (CheckHardened cps nHeight (BlockHash scrypt_1024_1_1_256 h))) BLOCK_CHECKPOINT "bad-fork-hardened-checkpoint"
      end;
  _ ← refuse_if (negb (CheckSyncCheckpoint nHeight tip)) BLOCK_INVALID_HEADER "bad-fork-prior-to-synch-checkpoint";
  _ ← refuse_if (bh_nTime h <=? GetMedianTimePast params pindexPrev) BLOCK_INVALID_HEADER "time-too-old";
  refuse_if (now + MAX_FUTURE_BLOCK_TIME <? bh_nTime h) BLOCK_TIME_FUTURE "time-too-new".

(** [CScript() << n] *)
Definition push_int64 (n : Z) : list Z :=
  if (n =? -1) || ((1 <=? n) && (n <=? 16)) then [n + 0x50] else if n =? 0 then [0] else push_data (serialize n).

(** [csv] and [segwit] say whether these rules are in force after the block before. *)
Definition ContextualCheckBlock (csv segwit : bool) (block : CBlock) (pindexPrev : option CBlockIndex) : verdict CBlock :=
  match pindexPrev with
  | None => Accepted block
  | Some pindexPrev =>
      let nHeight := height_of pindexPrev + 1 in
      let nLockTimeCutoff := if csv then GetMedianTimePast params pindexPrev else bh_nTime (header block) in
      _ ← refuse_if (existsb (fun tx => negb (IsFinalTx tx nHeight nLockTimeCutoff)) (vtx block)) BLOCK_CONSENSUS "bad-txns-nonfinal";
      match vtx block !! 0%nat ≫= (fun tx => vin tx !! 0%nat) with
      | None => Stopped
      | Some txin =>
          let expect := push_int64 nHeight in
          _ ← refuse_if (negb (bool_decide (take (length expect) (in_scriptSig txin) = expect))) BLOCK_CONSENSUS "bad-cb-height";
          block ← CheckWitnessMalleation block segwit;
          _ ← refuse_if (MAX_BLOCK_WEIGHT <? GetBlockWeight block) BLOCK_CONSENSUS "bad-blk-weight";
          Accepted block
      end
  end.

(** ** Marks *)

(** A block that carries the mark was checked before, with its proof of work and its
    root; the height of the tip and the time may have been others, and the signature
    may not have been looked at. *)
Definition checked_before (block : CBlock) : Prop :=
  exists b tip now sig, unmarked b = unmarked block /\ fChecked b = false /\ is_accepted (CheckBlock tip now b true true sig) = true.
Definition marks_ok (block : CBlock) : Prop := root_mark_ok block /\ (fChecked block = true -> checked_before block).

Lemma as_read_marks_ok h txs sig : marks_ok (as_read h txs sig).
Proof. by split. Qed.

Lemma CheckBlock_made tip now block pow merkle sig block' :
  fChecked block = false -> CheckBlock tip now block pow merkle sig = Accepted block' ->
  check_shape tip block = Accepted tt /\ check_transactions (vtx block) = Accepted tt /\
  exists marked, (if merkle then CheckMerkleRoot block else Accepted block) = Accepted marked /\
    block' = (if pow && merkle then set_fChecked marked else marked).
Proof.
  intros Hf. unfold CheckBlock. rewrite Hf, !verdict_seq, verdict_bind_accepted. intros (_ & _ & marked & Hm & Hr). rewrite !verdict_seq in Hr.
  destruct Hr as (Hs & _ & Ht & _ & [= <-]). split; [done|]. split; [done|]. by exists marked.
Qed.

(** What an accepted block is known to have passed, now or before. *)
Lemma CheckBlock_passed tip now block pow merkle sig block' :
  marks_ok block -> CheckBlock tip now block pow merkle sig = Accepted block' ->
  exists tip', check_shape tip' block = Accepted tt /\ check_transactions (vtx block) = Accepted tt.
Proof.
  intros [_ Hb] Hc. destruct (fChecked block) eqn:Ef.
  - destruct (Hb eq_refl) as (b & tip' & now' & sig' & Hu & Hf & [b' Hc']%accepted_exists). apply CheckBlock_made in Hc' as (Hs & Ht & _); [|done].
    exists tip'. destruct b, block. injection Hu as -> -> ->. done.
  - apply CheckBlock_made in Hc as (Hs & Ht & _); [|done]. by exists tip.
Qed.

(** The marks stay true from check to check. *)
Lemma CheckBlock_marks tip now block pow merkle sig block' :
  marks_ok block -> CheckBlock tip now block pow merkle sig = Accepted block' -> unmarked block' = unmarked block /\ marks_ok block'.
Proof.
  intros [Hm Hb] Hc. destruct (fChecked block) eqn:Ef; [unfold CheckBlock in Hc; rewrite Ef in Hc; injection Hc as <-; by repeat split; auto|].
  destruct (CheckBlock_made _ _ _ _ _ _ _ Ef Hc) as (_ & _ & marked & Hr & ->).
  assert (unmarked marked = unmarked block /\ root_mark_ok marked /\ fChecked marked = false) as (Hu & Hm' & Hf).
  { destruct merkle; [|by injection Hr as <-]. destruct (CheckMerkleRoot_sound _ _ Hm Hr) as (_ & ? & ? & ->). done. }
  destruct pow, merkle; cbn [andb]; (split; [exact Hu|split; [exact Hm'|]]); try congruence.
  intros _. exists block, tip, now, sig. split; [done|]. split; [done|]. by rewrite Hc.
Qed.

End BlockCheck.
