(* ===== verification/ConnectBlock.v ===== *)
(** * Connecting a block

    [Chainstate::ConnectBlock] of [validation.cpp]: the checks of a block against
    the coins it spends, the reward, and the set of unspent outputs after it.
    Whether scripts are checked, given to other threads or found in the cache are
    arguments; the undo data are taken to be written. *)

From stdpp Require Import gmap.
From S2P Require Import Prelude Digits JsString Bytes Crypto JsInt Tx NodeTx ScriptError NodeScript ScriptNum Interpreter Verify Spend Validation CheckInputs JsNum NodeFee Arith256 ConsensusParams Chain TxCheck Policy Block Merkle Coins Undo ProofOfStake Retarget BlockCheck.

Open Scope Z_scope.
Open Scope list_scope.

(** What [ConnectBlock] reads besides the block, its index and the coins. *)
Record ConnectContext : Type := {
  cc_tip_height : Z;
  cc_adjusted_time : Z;
  hashGenesisBlock : list Z;
  cc_checkpoints : option (gmap Z (list Z));
  csv_active : bool;                    (** [DeploymentActiveAt] the block *)
  script_flags : Z;                     (** [GetBlockScriptFlags] *)
  fScriptChecks : bool;                 (** not below the block assumed valid *)
  parallel_script_checks : bool;
  script_cache_prefix : list Z;
  script_cache : list Z -> bool
}.

(** The set with the block it stands for. *)
Record chainstate : Type := { set_of : coins; best_block : list Z }.

(** What the loop over the transactions carries. *)
Record tally : Type := { t_view : coins; t_nFees : Z; t_nActualStakeReward : Z; t_nSigOpsCost : Z; t_control : list CScriptCheck }.

(** The result, with the block as the checks marked it. *)
Record connected : Type := { c_state : chainstate; c_vtxundo : list (list Coin); c_nStakeModifier : list Z; c_block : CBlock }.

Section ConnectBlock.
Context `{Crypto} `{Curve} (params : Params) (scrypt_1024_1_1_256 : list Z -> list Z) (CheckSignetBlockSolution : CBlock -> bool) (ctx : ConnectContext).

Definition median_at (pindex : CBlockIndex) (height : Z) : option Z :=
  match GetAncestor pindex height with Some (Some b) => Some (GetMedianTimePast params b) | _ => None end.

(** [SequenceLocks] of a transaction in the block of [pindex]. *)
Definition SequenceLocks (tx : CTransaction) (view : coins) (pindex : CBlockIndex) : verdict bool :=
  let prevheights := (fun i => from_option nHeight 0 (view !! prevout i)) <$> vin tx in
  lockPair ← (if csv_active ctx then of_tx (CalculateSequenceLocks tx prevheights (median_at pindex)) else Accepted (-1, -1));
  match pprev pindex with
  | None => Stopped
  | Some prev => Accepted (EvaluateSequenceLocks (height_of pindex) (GetMedianTimePast params prev) lockPair)
  end.

(** The fee of a transaction that is not the first, and the locks of its inputs. *)
Definition connect_inputs (pindex : CBlockIndex) (nFees : Z) (view : coins) (tx : CTransaction) : verdict Z :=
  if IsCoinBase tx then Accepted nFees else
  fee ← of_tx (CheckTxInputs params (cc_adjusted_time ctx) tx (view_of view) (height_of pindex));
  let txfee := default 0 fee in
  _ ← refuse_if (negb (MoneyRange txfee) || (MAX_MONEY - nFees <? txfee)) BLOCK_CONSENSUS "bad-txns-accumulated-fee-outofrange";
  locks ← SequenceLocks tx view pindex;
  _ ← refuse_if (negb locks) BLOCK_CONSENSUS "bad-txns-nonfinal";
  Accepted (nFees + txfee).

(** What a coinstake adds, and the checks of the scripts. *)
Definition connect_scripts (fJustCheck : bool) (view : coins) (tx : CTransaction) (nActualStakeReward : Z) : verdict (Z * list CScriptCheck) :=
  if IsCoinBase tx then Accepted (nActualStakeReward, []) else
  nActualStakeReward ← (if IsCoinStake tx then
                          value_out ← of_tx (GetValueOut 0 (vout tx)); value_in ← GetValueIn view tx; add_int64 value_out (- value_in)
                        else Accepted nActualStakeReward);
  checks ← (if fScriptChecks ctx then
              '(_, _, checks) ← of_tx (CheckInputScripts (script_cache_prefix ctx) (script_cache ctx) tx (view_of view) (script_flags ctx) fJustCheck
                                         (parallel_script_checks ctx) no_txdata);
              Accepted checks
            else Accepted []);
  Accepted (nActualStakeReward, checks).

Definition connect_tx (fJustCheck : bool) (pindex : CBlockIndex) (t : tally) (tx : CTransaction) : verdict (tally * list Coin) :=
  nFees ← connect_inputs pindex (t_nFees t) (t_view t) tx;
  cost ← of_tx (GetTransactionSigOpCost tx (view_of (t_view t)) (script_flags ctx));
  let nSigOpsCost := t_nSigOpsCost t + cost in
  _ ← refuse_if (MAX_BLOCK_SIGOPS_COST <? nSigOpsCost) BLOCK_CONSENSUS "bad-blk-sigops";
  '(nActualStakeReward, checks) ← connect_scripts fJustCheck (t_view t) tx (t_nActualStakeReward t);
  '(view, txundo) ← UpdateCoins tx (t_view t) (height_of pindex);
  Accepted ({| t_view := view; t_nFees := nFees; t_nActualStakeReward := nActualStakeReward; t_nSigOpsCost := nSigOpsCost;
               t_control := t_control t ++ checks |}, txundo).

Fixpoint connect_txs (fJustCheck : bool) (pindex : CBlockIndex) (t : tally) (txs : list CTransaction) : verdict (tally * list (list Coin)) :=
  match txs with
  | [] => Accepted (t, [])
  | tx :: txs =>
      '(t, txundo) ← connect_tx fJustCheck pindex t tx;
      '(t, undo) ← connect_txs fJustCheck pindex t txs;
      Accepted (t, txundo :: undo)
  end.

(** The check against overwriting, BIP 30. *)
Definition overwrites (view : coins) (tx : CTransaction) : bool :=
  existsb (fun o => bool_decide (is_Some (view !! {| op_hash := GetHash tx; op_n := Z.of_nat o |}))) (seq 0 (length (vout tx))).

Definition check_reward (pindex : CBlockIndex) (block : CBlock) (t : tally) : verdict unit :=
  if negb (BlockIsProofOfStake block) then
    blockReward ← add_int64 (t_nFees t) (GetBlockSubsidy (height_of pindex) params false);
    match vtx block with
    | [] => Stopped
    | coinbase :: _ => value_out ← of_tx (GetValueOut 0 (vout coinbase)); refuse_if (blockReward <? value_out) BLOCK_CONSENSUS "bad-cb-amount"
    end
  else if IsProtocolV3 params (bh_nTime (header block)) then
    _ ← add_int64 (StakeReward params (height_of pindex)) (t_nFees t);
    refuse_if (negb (IsValidCoinstakeReward (t_nActualStakeReward t) (t_nFees t) (height_of pindex) params)) BLOCK_CONSENSUS "bad-cs-amount"
  else Accepted tt.

(** [control.Wait()] *)
Fixpoint wait_checks (control : list CScriptCheck) : verdict unit :=
  match control with
  | [] => Accepted tt
  | c :: control =>
      match run_check c with
      | Ret _ => wait_checks control
      | Err _ => Refused BLOCK_CONSENSUS "block-validation-failed"
      | Abort => Stopped
      end
  end.

(** A block that is found corrupt stops the node. *)
Definition recheck (m : verdict CBlock) : verdict CBlock := match m with Refused BLOCK_MUTATED _ => Stopped | m => m end.

Definition check_stake (block : CBlock) (pindex : CBlockIndex) (view : coins) : verdict unit :=
  if BlockIsProofOfStake block && IsProtocolV3 params (bh_nTime (header block)) then
    match vtx block !! 1%nat, pprev pindex with
    | Some coinstake, Some prev => CheckProofOfStake params prev coinstake (bh_nBits (header block)) view (time_in_block block coinstake)
    | _, _ => Stopped
    end
  else Accepted tt.

Definition block_modifier (block : CBlock) (pindex : CBlockIndex) (block_hash : list Z) : list Z :=
  ComputeStakeModifier (pprev pindex)
    (if BlockIsProofOfStake block then from_option (fun i => op_hash (prevout i)) [] (vtx block !! 1%nat ≫= (fun tx => vin tx !! 0%nat)) else block_hash).

Definition ConnectBlock (block : CBlock) (pindex : CBlockIndex) (state : chainstate) (fJustCheck : bool) : verdict connected :=
  let block_hash := BlockHash scrypt_1024_1_1_256 (header block) in
  let height := height_of pindex in
  _ ← assert_that (bool_decide (phashBlock (entry pindex) = block_hash));
  _ ← refuse_if (match cc_checkpoints ctx with Some cps => negb (CheckHardened cps height block_hash) | None => false end)
        BLOCK_CHECKPOINT "bad-fork-hardened-checkpoint";
  marked ← recheck (CheckBlock params scrypt_1024_1_1_256 CheckSignetBlockSolution (cc_tip_height ctx) (cc_adjusted_time ctx) block
        (negb fJustCheck) (negb fJustCheck) true);
  _ ← assert_that (bool_decide (from_option (fun p => phashBlock (entry p)) (replicate 32 0) (pprev pindex) = best_block state));
  _ ← check_stake block pindex (set_of state);
  if bool_decide (block_hash = hashGenesisBlock ctx) then
    match vtx block with
    | [] => Stopped
    | coinbase :: _ =>
        view ← (if fJustCheck then Accepted (set_of state) else AddCoins (set_of state) coinbase height);
        Accepted {| c_state := {| set_of := view; best_block := if fJustCheck then best_block state else block_hash |}; c_vtxundo := [];
                    c_nStakeModifier := nStakeModifier (entry pindex); c_block := marked |}
    end
  else
  _ ← refuse_if (existsb (overwrites (set_of state)) (vtx block)) BLOCK_CONSENSUS "bad-txns-BIP30";
  '(t, undo) ← connect_txs fJustCheck pindex {| t_view := set_of state; t_nFees := 0; t_nActualStakeReward := 0; t_nSigOpsCost := 0; t_control := [] |} (vtx block);
  _ ← check_reward pindex block t;
  _ ← wait_checks (t_control t);
  Accepted {| c_state := {| set_of := t_view t; best_block := if fJustCheck then best_block state else block_hash |};
              c_vtxundo := tail undo; c_nStakeModifier := block_modifier block pindex block_hash; c_block := marked |}.

End ConnectBlock.
