(* ===== verification/Supply.v ===== *)
(** * The supply

    The sum of all coins is changed by a staked block by its reward and nothing
    else, so that the supply after [N] blocks is the one the documentation states;
    and what a block without a coinstake in second place may create. *)

From stdpp Require Import gmap.
From S2P Require Import Prelude Digits JsString Bytes Crypto JsInt Tx NodeTx ScriptError NodeScript ScriptNum Interpreter Verify Spend Validation CheckInputs JsNum NodeFee Arith256 ConsensusParams Chain TxCheck Policy Block Merkle Coins Undo ProofOfStake Retarget BlockCheck ConnectBlock.

Open Scope Z_scope.
Open Scope list_scope.

(** ** Sums of coins *)

Definition coin_value (c : Coin) : Z := nValue (coin_out c).

(** The value of all unspent outputs. *)
Definition supply (view : coins) : Z := map_fold (fun _ c acc => coin_value c + acc) 0 view.

Lemma supply_insert view p c : view !! p = None -> supply (<[p := c]> view) = coin_value c + supply view.
Proof. intros Hp. unfold supply. by rewrite (map_fold_insert_L (fun _ c acc => coin_value c + acc) 0 p c view) by (done || intros; lia). Qed.

Lemma supply_delete view p c : view !! p = Some c -> supply view = coin_value c + supply (delete p view).
Proof. intros Hp. unfold supply. by rewrite (map_fold_delete_L (fun _ c acc => coin_value c + acc) 0 p c view) by (done || intros; lia). Qed.

Lemma value_out_sum_cons o vout : value_out_sum (o :: vout) = nValue o + value_out_sum vout.
Proof. done. Qed.

Definition coins_sum (l : list Coin) : Z := foldr Z.add 0 (coin_value <$> l).

(** Outputs that can never be spent are not added. *)
Definition burned_outputs (vout : list CTxOut) : Z := value_out_sum (filter (fun o => IsUnspendable (out_scriptPubKey o) = true) vout).
Definition burned (txs : list CTransaction) : Z := foldr Z.add 0 ((fun tx => burned_outputs (vout tx)) <$> txs).

Section Supply.
Context `{Crypto}.

Lemma spend_inputs_supply view vin view1 undo : spend_inputs view vin = Accepted (view1, undo) -> supply view = supply view1 + coins_sum undo.
Proof.
  revert view undo. induction vin as [|i vin IH]; intros view undo; cbn [spend_inputs]; [intros [= <- <-]; unfold coins_sum; cbn; lia|].
  destruct (view !! prevout i) as [c|] eqn:Ec; [|done]. rewrite verdict_bind_accepted. intros ([v u] & Hs & [= <- <-]).
  apply IH in Hs. rewrite (supply_delete _ _ _ Ec). change (coins_sum (c :: u)) with (coin_value c + coins_sum u). lia.
Qed.

Lemma spend_inputs_value view vin view1 undo :
  spend_inputs view vin = Accepted (view1, undo) -> coins_sum undo = foldr Z.add 0 (input_value (view_of view) <$> vin).
Proof.
  intros Hs. destruct (spend_inputs_facts _ _ _ _ Hs) as (_ & _ & Hall & _). clear Hs.
  induction Hall as [|i c vin undo [Hc _] Hall IH]; [done|]. rewrite fmap_cons. cbn [foldr].
  change (coins_sum (c :: undo)) with (coin_value c + coins_sum undo). assert (input_value (view_of view) i = coin_value c) as -> by (unfold input_value, view_of; by rewrite Hc). lia.
Qed.

Lemma add_outputs_supply view txid h t cb cs i vout view' :
  add_outputs view txid h t cb cs i vout = Accepted view' ->
  (forall k, i <= k < i + Z.of_nat (length vout) -> view !! {| op_hash := txid; op_n := k |} = None) \/ cb = false ->
  supply view' + burned_outputs vout = supply view + value_out_sum vout.
Proof.
  revert view i. induction vout as [|o vout IH]; intros view i; cbn [add_outputs]; [by intros [= <-]|].
  rewrite verdict_bind_accepted. intros (v & Ha & Hr) Hfresh. unfold burned_outputs in *. rewrite filter_cons.
  rewrite value_out_sum_cons.
  apply AddCoin_accepted in Ha as (_ & [[Hu ->]|(Hu & -> & Hov)]); cbn [coin_out] in Hu.
  - rewrite decide_True, value_out_sum_cons by done. specialize (IH _ _ Hr).
    enough (supply view' + value_out_sum (filter (fun o => IsUnspendable (out_scriptPubKey o) = true) vout) = supply view + value_out_sum vout) by lia.
    apply IH. destruct Hfresh as [Hfresh|?]; [left; intros k Hk; apply Hfresh; cbn [length]; lia|by right].
  - rewrite decide_False by congruence. specialize (IH _ _ Hr).
    assert (view !! {| op_hash := txid; op_n := i |} = None) as Hp by (destruct Hfresh as [Hfresh | ->]; [apply Hfresh; cbn [length]; lia|by apply Hov]).
    rewrite supply_insert in IH by done. unfold coin_value in IH. cbn [coin_out] in IH.
    enough (supply view' + value_out_sum (filter (fun o => IsUnspendable (out_scriptPubKey o) = true) vout) = nValue o + supply view + value_out_sum vout) by lia.
    apply IH. destruct Hfresh as [Hfresh|?]; [|by right]. left. intros k Hk. rewrite lookup_insert_ne by (intros [= E]; lia). apply Hfresh. cbn [length]. lia.
Qed.

(** One transaction: what goes in comes out. *)
Lemma update_supply tx view height view' undo :
  UpdateCoins tx view height = Accepted (view', undo) -> IsCoinBase tx = false ->
  supply view' + burned_outputs (vout tx) = supply view - foldr Z.add 0 (input_value (view_of view) <$> vin tx) + value_out_sum (vout tx).
Proof.
  rewrite UpdateCoins_accepted. intros (view1 & Hin & Ha) Hcb. unfold after_inputs in Hin. rewrite Hcb in Hin.
  pose proof (spend_inputs_supply _ _ _ _ Hin). pose proof (spend_inputs_value _ _ _ _ Hin).
  unfold AddCoins in Ha. rewrite Hcb in Ha. pose proof (add_outputs_supply _ _ _ _ _ _ _ _ _ Ha (or_intror eq_refl)). lia.
Qed.

(** ** The loop of a block *)

Context `{Curve} (params : Params) (scrypt : list Z -> list Z) (signet : CBlock -> bool) (ctx : ConnectContext).

(** The value of the coins a transaction spends. *)
Definition value_in (view : coins) (tx : CTransaction) : Z := foldr Z.add 0 (input_value (view_of view) <$> vin tx).

Lemma GetValueIn_value view tx v : GetValueIn view tx = Accepted v -> Forall (fun i => is_Some (view !! prevout i)) (vin tx) -> IsCoinBase tx = false ->
  v = value_in view tx.
Proof.
  intros Hg Hall Hcb. unfold GetValueIn in Hg. rewrite Hcb in Hg. unfold value_in.
  enough (forall l acc, Forall (fun i => is_Some (view !! prevout i)) l ->
    foldl (fun r i => r ← r; add_int64 r (from_option (fun c => nValue (coin_out c)) (-1) (view !! prevout i))) (Accepted acc) l = Accepted v ->
    v = acc + foldr Z.add 0 (input_value (view_of view) <$> l)) as Hf by (rewrite (Hf (vin tx) 0 Hall Hg); lia).
  clear. induction l as [|i l IH]; intros acc Hall; [intros [= <-]; cbn; lia|]. apply Forall_cons_1 in Hall as [[c Hc] Hall].
  cbn [foldl mbind verdict_bind]. rewrite Hc. cbn [from_option]. intros Hf. destruct (add_int64 acc _) as [w| | |] eqn:Ew.
  - apply add_int64_accepted in Ew. apply IH in Hf; [|done]. rewrite fmap_cons. cbn [foldr].
    assert (input_value (view_of view) i = nValue (coin_out c)) as -> by (unfold input_value, view_of; by rewrite Hc). lia.
  - exfalso. clear -Hf. induction l as [|j l IH]; [done|by apply IH].
  - exfalso. clear -Hf. induction l as [|j l IH]; [done|by apply IH].
  - exfalso. clear -Hf. induction l as [|j l IH]; [done|by apply IH].
Qed.

Lemma sound_value_out tx : tx_sound tx -> GetValueOut 0 (vout tx) = Valid (value_out_sum (vout tx)).
Proof.
  intros (_ & _ & _ & Hall & Hmax & _). rewrite GetValueOut_total; [by rewrite Z.add_0_l|done| |lia].
  eapply Forall_impl; [exact Hall|]. by intros o [? _].
Qed.

Lemma coinbase_no_coinstake tx : IsCoinBase tx = true -> IsCoinStake tx = false.
Proof. unfold IsCoinBase, IsCoinStake. destruct (vin tx) as [|i [|j l]]; [done| |done]. intros ->. by destruct (vout tx) as [|o [|? ?]]. Qed.

(** What the checks of one transaction establish about its value. *)
Lemma connect_tx_value fJust pindex t tx t' undo :
  connect_tx params ctx fJust pindex t tx = Accepted (t', undo) -> tx_sound tx -> IsCoinBase tx = false ->
  let net := value_out_sum (vout tx) - value_in (t_view t) tx in
  supply (t_view t') + burned_outputs (vout tx) = supply (t_view t) + net /\
  (IsCoinStake tx = true -> t_nFees t' = t_nFees t /\ t_nActualStakeReward t' = net) /\
  (IsCoinStake tx = false -> t_nFees t' = t_nFees t - net /\ net <= 0 /\ t_nActualStakeReward t' = t_nActualStakeReward t).
Proof.
  intros Hc Hs Hcb net. unfold connect_tx in Hc. rewrite verdict_bind_accepted in Hc. destruct Hc as (nFees & Hfee & Hc).
  rewrite verdict_bind_accepted in Hc. destruct Hc as (cost & _ & Hc). rewrite verdict_seq in Hc. destruct Hc as (_ & Hc).
  rewrite verdict_bind_accepted in Hc. destruct Hc as ([reward checks] & Hrew & Hc). rewrite verdict_bind_accepted in Hc.
  destruct Hc as ([view u] & Hup & [= <- <-]). cbn [t_view t_nFees t_nActualStakeReward].
  pose proof (update_supply _ _ _ _ _ Hup Hcb) as Hsup. split; [unfold net, value_in; lia|].
  unfold connect_inputs in Hfee. rewrite Hcb, verdict_bind_accepted in Hfee. destruct Hfee as (fee & Hfee & Hr). apply of_tx_accepted in Hfee.
  rewrite verdict_seq, verdict_bind_accepted in Hr. destruct Hr as (_ & locks & _ & Hr). rewrite verdict_seq in Hr. destruct Hr as (_ & [= <-]).
  unfold connect_scripts in Hrew. rewrite Hcb, verdict_bind_accepted in Hrew. destruct Hrew as (r & Hr & Hrest).
  rewrite verdict_bind_accepted in Hrest. destruct Hrest as (cs & _ & [= <- <-]).
  pose proof (sound_value_out _ Hs) as Hout.
  unfold CheckTxInputs in Hfee. rewrite seq_valid, check_bind_valid in Hfee. destruct Hfee as (_ & v & Hv & Hfee).
  apply check_coins_valid in Hv as (Hsum & _ & Hall); [|unfold MAX_MONEY; lia]. rewrite Z.add_0_l in Hsum. fold (value_in (t_view t) tx) in Hsum.
  split; intros Hst; rewrite Hst in *.
  - injection Hfee as <-. cbn [default]. split; [lia|]. rewrite Hout in Hr. cbn [of_tx mbind verdict_bind] in Hr.
    rewrite verdict_bind_accepted in Hr. destruct Hr as (vi & Hvi & Hadd). apply add_int64_accepted in Hadd.
    apply GetValueIn_value in Hvi; [unfold net; lia| |done]. eapply Forall_impl; [exact Hall|]. intros i (c & Hci & _). exists c. exact Hci.
  - injection Hr as <-. rewrite Hout in Hfee. cbn [mbind check_bind] in Hfee. rewrite !seq_valid, !invalid_if_valid in Hfee.
    destruct Hfee as (Hlt & _ & _ & [= <-]). b2p. change (default 0 (Some (v - value_out_sum (vout tx)))) with (v - value_out_sum (vout tx)). unfold net. split; [lia|]. split; [lia|done].
Qed.

Lemma connect_tx_update fJust pindex t tx t' undo :
  connect_tx params ctx fJust pindex t tx = Accepted (t', undo) -> UpdateCoins tx (t_view t) (height_of pindex) = Accepted (t_view t', undo).
Proof.
  unfold connect_tx. rewrite verdict_bind_accepted. intros (nFees & _ & Hc). rewrite verdict_bind_accepted in Hc.
  destruct Hc as (cost & _ & Hc). rewrite verdict_seq, verdict_bind_accepted in Hc. destruct Hc as (_ & [reward checks] & _ & Hc).
  rewrite verdict_bind_accepted in Hc. by destruct Hc as ([view u] & Hup & [= <- <-]).
Qed.

Lemma connect_txs_value fJust pindex t txs t' undo :
  connect_txs params ctx fJust pindex t txs = Accepted (t', undo) ->
  Forall (fun tx => tx_sound tx /\ IsCoinBase tx = false /\ IsCoinStake tx = false) txs ->
  supply (t_view t') + burned txs + t_nFees t' = supply (t_view t) + t_nFees t /\ t_nActualStakeReward t' = t_nActualStakeReward t.
Proof.
  revert t undo. induction txs as [|tx txs IH]; intros t undo; cbn [connect_txs]; [intros [= <- <-] _; unfold burned; cbn; lia|].
  rewrite verdict_bind_accepted. intros ([t1 u] & H1 & Hr) [(Hs & Hcb & Hcs) Hall]%Forall_cons_1. rewrite verdict_bind_accepted in Hr.
  destruct Hr as ([t2 us] & H2 & [= <- <-]). destruct (connect_tx_value _ _ _ _ _ _ H1 Hs Hcb) as (Hsup & _ & Hn). destruct (Hn Hcs) as (Hf & _ & Ha).
  destruct (IH _ _ H2 Hall) as [Hs2 Ha2]. unfold burned in *. rewrite fmap_cons. cbn [foldr]. split; [lia|congruence].
Qed.

(** ** The shape of a block *)

Lemma check_transactions_sound txs : check_transactions txs = Accepted tt -> Forall tx_sound txs.
Proof.
  induction txs as [|tx txs IH]; [by constructor|]. cbn [check_transactions]. destruct (CheckTransaction tx) as [[]|[]|] eqn:E; [|done..].
  intros Ht. constructor; [by apply CheckTransaction_valid|by apply IH].
Qed.

Lemma CheckBlock_parts tip now block pow merkle sig :
  marks_ok params scrypt signet block -> is_accepted (recheck (CheckBlock params scrypt signet tip now block pow merkle sig)) = true ->
  exists tip', check_shape params tip' block = Accepted tt /\ Forall tx_sound (vtx block).
Proof.
  intros Hm. destruct (CheckBlock _ _ _ _ _ _ _ _ _) as [b|[]| |] eqn:Hc; try done. intros _.
  destruct (CheckBlock_passed _ _ _ _ _ _ _ _ _ _ Hm Hc) as (tip' & Hs & Ht). exists tip'. split; [done|by apply check_transactions_sound].
Qed.

Lemma check_shape_parts tip block :
  check_shape params tip block = Accepted tt ->
  exists coinbase txs, vtx block = coinbase :: txs /\ IsCoinBase coinbase = true /\ Forall (fun tx => IsCoinBase tx = false) txs /\
    (BlockIsProofOfStake block = true -> exists coinstake rest, txs = coinstake :: rest /\ IsCoinStake coinstake = true /\
      value_out_sum (vout coinbase) = 0 /\ Forall (fun tx => IsCoinStake tx = false) rest).
Proof.
  unfold check_shape, BlockIsProofOfStake. destruct (vtx block) as [|coinbase txs]; [done|]. rewrite !verdict_seq, !refuse_if_accepted, negb_false_iff.
  intros (_ & Hcb & Hno & _ & Hr). exists coinbase, txs. split; [done|]. split; [done|]. split; [by apply existsb_false_Forall|].
  destruct txs as [|cs rest]; [done|]. intros Hcs. rewrite Hcs in Hr. cbn [negb] in Hr. rewrite !verdict_seq, !refuse_if_accepted, !negb_false_iff in Hr.
  destruct Hr as (_ & He & Hm). exists cs, rest. split; [done|]. split; [done|]. split; [|by apply existsb_false_Forall].
  unfold coinbase_empty in He. destruct (GetWitnessCommitmentIndex block), (vout coinbase) as [|o [|c [|? ?]]]; try done.
  - apply andb_true_iff in He as [[Ho _]%andb_true_iff Hc]. b2p. unfold value_out_sum. cbn. lia.
  - apply andb_true_iff in He as [Ho _]. b2p. unfold value_out_sum. cbn. lia.
Qed.

(** The first transaction of a block. *)
Lemma connect_coinbase_value fJust pindex t tx t' undo :
  connect_tx params ctx fJust pindex t tx = Accepted (t', undo) -> IsCoinBase tx = true -> overwrites (t_view t) tx = false ->
  supply (t_view t') + burned_outputs (vout tx) = supply (t_view t) + value_out_sum (vout tx) /\
  t_nFees t' = t_nFees t /\ t_nActualStakeReward t' = t_nActualStakeReward t.
Proof.
  intros Hc Hcb Hov. unfold connect_tx, connect_inputs, connect_scripts in Hc. rewrite Hcb in Hc. cbn [mbind verdict_bind] in Hc.
  rewrite verdict_bind_accepted in Hc. destruct Hc as (cost & _ & Hc). rewrite verdict_seq, verdict_bind_accepted in Hc.
  destruct Hc as (_ & [view u] & Hup & [= <- <-]). cbn [t_view t_nFees t_nActualStakeReward]. split; [|done].
  rewrite UpdateCoins_accepted in Hup. destruct Hup as (v & Hin & Ha). unfold after_inputs in Hin. rewrite Hcb in Hin. destruct Hin as [-> _].
  apply (add_outputs_supply _ _ _ _ _ _ _ _ _ Ha). left. intros k Hk. apply eq_None_not_Some. intros Hs. unfold overwrites in Hov.
  rewrite existsb_false_Forall, Forall_forall in Hov. specialize (Hov (Z.to_nat k)). rewrite Z2Nat.id, bool_decide_eq_false in Hov by lia.
  apply Hov; [apply elem_of_seq; lia|done].
Qed.

(** What an accepted block passed. *)
Lemma ConnectBlock_parts block pindex state fJust r :
  marks_ok params scrypt signet block -> ConnectBlock params scrypt signet ctx block pindex state fJust = Accepted r ->
  BlockHash scrypt (header block) <> hashGenesisBlock ctx ->
  exists tip t undo, check_shape params tip block = Accepted tt /\ Forall tx_sound (vtx block) /\ existsb (overwrites (set_of state)) (vtx block) = false /\
    connect_txs params ctx fJust pindex {| t_view := set_of state; t_nFees := 0; t_nActualStakeReward := 0; t_nSigOpsCost := 0; t_control := [] |} (vtx block)
      = Accepted (t, undo) /\
    check_reward params pindex block t = Accepted tt /\ set_of (c_state r) = t_view t /\ c_vtxundo r = tail undo.
Proof.
  intros Hmk Hc Hgen. unfold ConnectBlock in Hc. rewrite !verdict_seq, verdict_bind_accepted in Hc. destruct Hc as (_ & _ & marked & Hcheck & Hc).
  rewrite !verdict_seq in Hc. destruct Hc as (_ & _ & Hc). rewrite bool_decide_false in Hc by done. rewrite verdict_seq, refuse_if_accepted, verdict_bind_accepted in Hc.
  destruct Hc as (Hov & [t undo] & Hloop & Hc). rewrite !verdict_seq in Hc. destruct Hc as (Hrew & _ & [= <-]).
  destruct (CheckBlock_parts _ _ _ _ _ _ Hmk ltac:(by rewrite Hcheck)) as (tip & Hs & Ht). by exists tip, t, undo.
Qed.

Lemma staked_block_supply block pindex state fJust r :
  marks_ok params scrypt signet block -> ConnectBlock params scrypt signet ctx block pindex state fJust = Accepted r ->
  BlockIsProofOfStake block = true -> IsProtocolV3 params (bh_nTime (header block)) = true ->
  BlockHash scrypt (header block) <> hashGenesisBlock ctx ->
  supply (set_of (c_state r)) + burned (vtx block) = supply (set_of state) + StakeReward params (height_of pindex).
Proof.
  intros Hmk Hc Hpos Hv3 Hgen. destruct (ConnectBlock_parts _ _ _ _ _ Hmk Hc Hgen) as (tip & t & undo & Hshape & Hsound & Hov & Hloop & Hrew & -> & _).
  destruct (check_shape_parts _ _ Hshape) as (coinbase & txs & Evtx & Hcb & Hncb & Hst). destruct (Hst Hpos) as (cs & rest & -> & Hcs & Hz & Hncs).
  rewrite Evtx in *. apply existsb_false_Forall, Forall_cons_1 in Hov as [Hov _]. cbn [connect_txs] in Hloop.
  rewrite verdict_bind_accepted in Hloop. destruct Hloop as ([t1 u1] & H1 & Hloop). rewrite verdict_bind_accepted in Hloop.
  destruct Hloop as ([t3 u3] & Hloop & [= <- <-]). rewrite verdict_bind_accepted in Hloop. destruct Hloop as ([t2 u2] & H2 & Hloop).
  rewrite verdict_bind_accepted in Hloop. destruct Hloop as ([t4 u4] & H3 & [= <- <-]).
  apply Forall_cons_1 in Hsound as [_ [Hs2 Hs3]%Forall_cons_1], Hncb as [Hcb2 Hcb3].
  destruct (connect_coinbase_value _ _ _ _ _ _ H1 Hcb Hov) as (S1 & F1 & _). destruct (connect_tx_value _ _ _ _ _ _ H2 Hs2 Hcb2) as (S2 & A2 & _).
  destruct (A2 Hcs) as [F2 R2]. destruct (connect_txs_value _ _ _ _ _ _ H3) as [S3 R3].
  { apply Forall_forall. intros tx Htx. rewrite Forall_forall in Hs3, Hcb3, Hncs. auto. }
  unfold check_reward in Hrew. rewrite Hpos, Hv3 in Hrew. cbn [negb] in Hrew. rewrite verdict_bind_accepted in Hrew. destruct Hrew as (w & _ & Hrew).
  rewrite refuse_if_accepted, negb_false_iff in Hrew. unfold IsValidCoinstakeReward, GetProofOfStakeReward in Hrew. b2p.
  cbn [t_view t_nFees] in *. unfold burned in *. rewrite !fmap_cons. cbn [foldr]. lia.
Qed.

(** ** Blocks without a coinstake in second place *)

(** A sum over the transactions of a block, each against the coins it finds. *)
Fixpoint along (f : coins -> CTransaction -> Z) (view : coins) (height : Z) (txs : list CTransaction) : Z :=
  match txs with
  | [] => 0
  | tx :: txs => f view tx + match UpdateCoins tx view height with Accepted (view, _) => along f view height txs | _ => 0 end
  end.

(** What transactions of the form of a coinstake pay above what they spend, and what
    the others leave to the block. *)
Definition minted : coins -> Z -> list CTransaction -> Z :=
  along (fun view tx => if IsCoinStake tx then value_out_sum (vout tx) - value_in view tx else 0).
Definition fees : coins -> Z -> list CTransaction -> Z :=
  along (fun view tx => if IsCoinBase tx || IsCoinStake tx then 0 else value_in view tx - value_out_sum (vout tx)).

Lemma along_step f view height tx txs view' undo :
  UpdateCoins tx view height = Accepted (view', undo) -> along f view height (tx :: txs) = f view tx + along f view' height txs.
Proof. intros Hup. cbn [along]. by rewrite Hup. Qed.

Lemma connect_txs_along fJust pindex t txs t' undo :
  connect_txs params ctx fJust pindex t txs = Accepted (t', undo) -> Forall tx_sound txs -> Forall (fun tx => IsCoinBase tx = false) txs ->
  supply (t_view t') + burned txs = supply (t_view t) + minted (t_view t) (height_of pindex) txs - fees (t_view t) (height_of pindex) txs /\
  t_nFees t' = t_nFees t + fees (t_view t) (height_of pindex) txs.
Proof.
  revert t undo. induction txs as [|tx txs IH]; intros t undo; cbn [connect_txs]; [intros [= <- <-] _ _; unfold burned; cbn; lia|].
  rewrite verdict_bind_accepted. intros ([t1 u] & H1 & Hr) [Hs Hall]%Forall_cons_1 [Hcb Hcbs]%Forall_cons_1. rewrite verdict_bind_accepted in Hr.
  destruct Hr as ([t2 us] & H2 & [= <- <-]). destruct (connect_tx_value _ _ _ _ _ _ H1 Hs Hcb) as (Hsup & Hst & Hn).
  destruct (IH _ _ H2 Hall Hcbs) as [Hs2 Hf2]. apply connect_tx_update in H1. unfold minted, fees in *. rewrite !(along_step _ _ _ _ _ _ _ H1), Hcb.
  unfold burned in *. rewrite fmap_cons. cbn [foldr orb]. destruct (IsCoinStake tx); [destruct (Hst eq_refl)|destruct (Hn eq_refl) as (? & _ & _)]; lia.
Qed.

Lemma unstaked_block_supply block pindex state fJust r :
  marks_ok params scrypt signet block -> ConnectBlock params scrypt signet ctx block pindex state fJust = Accepted r ->
  BlockIsProofOfStake block = false -> BlockHash scrypt (header block) <> hashGenesisBlock ctx ->
  exists coinbase txs, vtx block = coinbase :: txs /\
    supply (set_of (c_state r)) + burned (vtx block) =
      supply (set_of state) + value_out_sum (vout coinbase) - fees (set_of state) (height_of pindex) (vtx block)
        + minted (set_of state) (height_of pindex) (vtx block) /\
    value_out_sum (vout coinbase) <= fees (set_of state) (height_of pindex) (vtx block) + GetBlockSubsidy (height_of pindex) params false.
Proof.
  intros Hmk Hc Hpos Hgen. destruct (ConnectBlock_parts _ _ _ _ _ Hmk Hc Hgen) as (tip & t & undo & Hshape & Hsound & Hov & Hloop & Hrew & -> & _).
  destruct (check_shape_parts _ _ Hshape) as (coinbase & txs & Evtx & Hcb & Hncb & _). exists coinbase, txs. split; [done|].
  unfold check_reward in Hrew. rewrite Hpos, Evtx in Hrew. rewrite Evtx in *. apply existsb_false_Forall, Forall_cons_1 in Hov as [Hov _]. cbn [connect_txs] in Hloop.
  rewrite verdict_bind_accepted in Hloop. destruct Hloop as ([t1 u1] & H1 & Hloop). rewrite verdict_bind_accepted in Hloop.
  destruct Hloop as ([t2 u2] & H2 & [= <- <-]). apply Forall_cons_1 in Hsound as [Hs1 Hs].
  destruct (connect_coinbase_value _ _ _ _ _ _ H1 Hcb Hov) as (S1 & F1 & _). destruct (connect_txs_along _ _ _ _ _ _ H2 Hs Hncb) as [S2 F2].
  apply connect_tx_update in H1. unfold minted, fees in *. rewrite !(along_step _ _ _ _ _ _ _ H1), Hcb. cbn [orb t_view t_nFees] in *.
  assert (IsCoinStake coinbase = false) as -> by by apply coinbase_no_coinstake.
  assert (GetValueOut 0 (vout coinbase) = Valid (value_out_sum (vout coinbase))) as Hout by by apply sound_value_out.
  cbn [negb] in Hrew. rewrite verdict_bind_accepted in Hrew. destruct Hrew as (w & Hw%add_int64_accepted & Hrew). rewrite Hout in Hrew. cbn [of_tx mbind verdict_bind] in Hrew.
  rewrite refuse_if_accepted in Hrew. apply Z.ltb_ge in Hrew. unfold burned in *. rewrite fmap_cons. cbn [foldr]. lia.
Qed.

End Supply.

(** ** A chain of staked blocks *)

(** [GenesisPremineOutputs] of [kernel/chainparams.cpp]; [None] is the failed
    assertion. *)
Definition GenesisPremineOutputs (premineScript : list Z) (premineTotal : Z) (nOutputs : nat) : option (list CTxOut) :=
  if (0 <? nOutputs)%nat && (Z.rem premineTotal (Z.of_nat nOutputs) =? 0)
  then Some (replicate nOutputs {| nValue := Z.quot premineTotal (Z.of_nat nOutputs); out_scriptPubKey := premineScript |})
  else None.

Section Chain.
Context `{Crypto} `{Curve} (params : Params) (scrypt : list Z -> list Z) (signet : CBlock -> bool).

(** A block with its entry in the index, and what is read when it is connected. *)
Definition step : Type := ConnectContext * CBlock * CBlockIndex.

Fixpoint connect_chain (state : chainstate) (l : list step) : verdict chainstate :=
  match l with
  | [] => Accepted state
  | (ctx, block, pindex) :: l => r ← ConnectBlock params scrypt signet ctx block pindex state false; connect_chain (c_state r) l
  end.

Definition staked (s : step) : Prop :=
  let '(ctx, block, _) := s in
  marks_ok params scrypt signet block /\ BlockIsProofOfStake block = true /\ IsProtocolV3 params (bh_nTime (header block)) = true /\
  BlockHash scrypt (header block) <> hashGenesisBlock ctx.

Definition rewards (l : list step) : Z := foldr Z.add 0 ((fun s : step => StakeReward params (height_of s.2)) <$> l).
Definition burned_all (l : list step) : Z := foldr Z.add 0 ((fun s : step => burned (vtx s.1.2)) <$> l).

Lemma connect_chain_supply state l state' :
  connect_chain state l = Accepted state' -> Forall staked l ->
  supply (set_of state') + burned_all l = supply (set_of state) + rewards l.
Proof.
  unfold burned_all, rewards. revert state. induction l as [|[[ctx block] pindex] l IH]; intros state; cbn [connect_chain]; [intros [= <-] _; done|].
  rewrite verdict_bind_accepted. intros (r & Hr & Hl) [(Hmk & Hp & Hv & Hg) Hall]%Forall_cons_1. specialize (IH _ Hl Hall).
  pose proof (staked_block_supply _ _ _ _ _ _ _ _ _ Hmk Hr Hp Hv Hg). rewrite !fmap_cons. cbn [foldr fst snd] in *. lia.
Qed.

Definition empty_chainstate : chainstate := {| set_of := ∅; best_block := replicate 32 0 |}.

Lemma ConnectBlock_genesis ctx block pindex r :
  ConnectBlock params scrypt signet ctx block pindex empty_chainstate false = Accepted r -> BlockHash scrypt (header block) = hashGenesisBlock ctx ->
  exists coinbase txs, vtx block = coinbase :: txs /\ AddCoins ∅ coinbase (height_of pindex) = Accepted (set_of (c_state r)).
Proof.
  intros Hc Hg. unfold ConnectBlock in Hc. rewrite !verdict_seq, verdict_bind_accepted in Hc. destruct Hc as (_ & _ & marked & _ & Hc).
  rewrite !verdict_seq in Hc. destruct Hc as (_ & _ & Hc). rewrite bool_decide_true in Hc by done. destruct (vtx block) as [|coinbase txs]; [done|].
  rewrite verdict_bind_accepted in Hc. destruct Hc as (view & Ha & [= <-]). by exists coinbase, txs.
Qed.

Lemma genesis_supply ctx block pindex r script total n outs :
  ConnectBlock params scrypt signet ctx block pindex empty_chainstate false = Accepted r ->
  BlockHash scrypt (header block) = hashGenesisBlock ctx -> GenesisPremineOutputs script total n = Some outs -> IsUnspendable script = false ->
  vout <$> head (vtx block) = Some outs -> supply (set_of (c_state r)) = total.
Proof.
  intros Hc Hg Ho Hu Hv. destruct (ConnectBlock_genesis _ _ _ _ Hc Hg) as (coinbase & txs & Ev & Ha). rewrite Ev in Hv. injection Hv as Hv. unfold AddCoins in Ha. rewrite Hv in Ha.
  pose proof (add_outputs_supply _ _ _ _ _ _ _ _ _ Ha (or_introl (fun k _ => lookup_empty _))) as Hs.
  change (supply ∅) with 0 in Hs. unfold GenesisPremineOutputs in Ho. destruct (_ && _) eqn:E; [|done]. injection Ho as <-. apply andb_true_iff in E as [Hn%Nat.ltb_lt Hrem%Z.eqb_eq].
  assert (burned_outputs (replicate n {| nValue := Z.quot total (Z.of_nat n); out_scriptPubKey := script |}) = 0) as Hb.
  { unfold burned_outputs. generalize (Z.quot total (Z.of_nat n)) as v. clear -Hu. intros v. induction n as [|n IH]; [done|]. cbn [replicate]. rewrite filter_cons, decide_False by (cbn; congruence). exact IH. }
  assert (value_out_sum (replicate n {| nValue := Z.quot total (Z.of_nat n); out_scriptPubKey := script |}) = total) as Hsum; [|lia].
  assert (forall m v, value_out_sum (replicate m {| nValue := v; out_scriptPubKey := script |}) = Z.of_nat m * v) as Hr.
  { intros m v. induction m as [|m IH]; [done|]. cbn [replicate]. rewrite value_out_sum_cons, IH. cbn [nValue]. lia. }
  rewrite Hr. pose proof (Z.quot_rem total (Z.of_nat n) ltac:(lia)). lia.
Qed.

(** C8: A staked block creates its reward and nothing else.  Where [ConnectBlock]
    accepts a staked block, the sum of all unspent outputs grows by exactly the
    reward of its height, less what its transactions pay to outputs that can never
    be spent: fees are moved and not created, the first transaction creates
    nothing and no output is overwritten.  The marks of earlier checks have to be
    true, which [CheckBlock] keeps. *)
Theorem staked_block_creates_reward ctx block pindex state fJustCheck r :
  marks_ok params scrypt signet block -> ConnectBlock params scrypt signet ctx block pindex state fJustCheck = Accepted r ->
  BlockIsProofOfStake block = true -> IsProtocolV3 params (bh_nTime (header block)) = true ->
  BlockHash scrypt (header block) <> hashGenesisBlock ctx ->
  supply (set_of (c_state r)) + burned (vtx block) = supply (set_of state) + StakeReward params (height_of pindex).
Proof. apply staked_block_supply. Qed.

End Chain.

(** C4: The supply of the main network is the one its documentation states.  After
    the first block, whose outputs are the premine in equal parts, and any [N] staked blocks
    connected one after the other, the unspent outputs are worth 14,000,000,000 and
    10 [N] coins, less what was paid to outputs that can never be spent. *)
Theorem supply_formula `{Crypto} `{Curve} scrypt signet ctx block pindex r script nOutputs outs l state :
  ConnectBlock main_params scrypt signet ctx block pindex empty_chainstate false = Accepted r ->
  BlockHash scrypt (header block) = hashGenesisBlock ctx ->
  GenesisPremineOutputs script (nPremineTotal main_params) nOutputs = Some outs -> IsUnspendable script = false ->
  vout <$> head (vtx block) = Some outs ->
  connect_chain main_params scrypt signet (c_state r) l = Accepted state -> Forall (staked main_params scrypt signet) l ->
  supply (set_of state) + burned_all l = (14000000000 + 10 * Z.of_nat (length l)) * NODE_COIN.
Proof.
  intros Hc Hg Ho Hu Hv Hl Hs. rewrite (connect_chain_supply _ _ _ _ _ _ Hl Hs), (genesis_supply _ _ _ _ _ _ _ _ _ _ _ Hc Hg Ho Hu Hv).
  assert (rewards main_params l = 10 * Z.of_nat (length l) * NODE_COIN) as ->.
  { clear. unfold rewards. induction l as [|s l IH]; [done|]. rewrite fmap_cons. cbn [foldr length]. rewrite IH.
    change (StakeReward main_params (height_of s.2)) with (10 * NODE_COIN). lia. }
  change (nPremineTotal main_params) with (14000000000 * NODE_COIN). lia.
Qed.

(** ** The first two blocks of a chain *)

Definition ex_scrypt (bs : list Z) : list Z := replicate 32 0.
Definition ex_key : list Z := @secp_publicKey small_crypto [4].
Definition ex_key_script : list Z := 33 :: ex_key ++ [0xac].
Definition ex_sig : list Z := [0x30; 6; 2; 1; 5; 2; 1; 1].

Definition ex_made (time bits : Z) (prev : list Z) (txs : list CTransaction) (sig : list Z) : CBlock := {|
  header := {| bh_nVersion := 7; hashPrevBlock := prev; hashMerkleRoot := (@ComputeMerkleRoot small_crypto (@GetHash small_crypto <$> txs)).1;
               bh_nTime := time; bh_nBits := bits; nNonce := 1; bh_nFlags := 1 |};
  vtx := txs; vchBlockSig := sig; fChecked := false; m_checked_witness_commitment := false; m_checked_merkle_root := false
|}.
Definition ex_spending (h : list Z) (n : Z) : CTxIn := {|
  prevout := {| op_hash := h; op_n := n |}; in_scriptSig := []; nSequence := 0xffffffff; scriptWitness := []
|}.
Definition ex_first_tx (outs : list CTxOut) (n : Z) : CTransaction := {|
  nVersion := 2; nTime := 0; nLockTime := 0; vout := outs;
  vin := [{| prevout := {| op_hash := replicate 32 0; op_n := NULL_INDEX |}; in_scriptSig := [n; 0]; nSequence := 0xffffffff; scriptWitness := [] |}]
|}.
Definition ex_pays (ins : list CTxIn) (outs : list CTxOut) : CTransaction := {| nVersion := 2; nTime := 0; nLockTime := 0; vin := ins; vout := outs |}.

Definition ex_premine_outs : list CTxOut := default [] (GenesisPremineOutputs [0x51] (nPremineTotal main_params) 2).
Definition ex_genesis_block : CBlock := ex_made 1789171200 0x1e0fffff (replicate 32 0) [ex_first_tx ex_premine_outs 0] [].
Definition ex_premine_txid : list Z := @GetHash small_crypto (ex_first_tx ex_premine_outs 0).

Definition ex_hash (b : CBlock) : list Z := @BlockHash small_crypto ex_scrypt (header b).
Definition ex_index (b : CBlock) (height : Z) (prev : option CBlockIndex) : CBlockIndex :=
  BlockIndex {| phashBlock := ex_hash b; bi_nHeight := height; bi_nTime := bh_nTime (header b); bi_nBits := bh_nBits (header b);
                bi_nFlags := if height =? 0 then 0 else 1; nStakeModifier := replicate 32 (height + 1) |} prev prev.
Definition ex_genesis_index : CBlockIndex := ex_index ex_genesis_block 0 None.

(** A payment with a fee of 300000 that burns 7, and the coinstake that collects it. *)
Definition ex_fee_tx : CTransaction :=
  ex_pays [ex_spending ex_premine_txid 1] [{| nValue := 7000000000 * NODE_COIN - 300007; out_scriptPubKey := [0x51] |}; {| nValue := 7; out_scriptPubKey := [0x6a] |}].
Definition ex_stake_tx : CTransaction :=
  ex_pays [ex_spending ex_premine_txid 0]
    [{| nValue := 0; out_scriptPubKey := [] |}; {| nValue := 7000000010 * NODE_COIN + 300000; out_scriptPubKey := ex_key_script |}].
Definition ex_staked_block : CBlock :=
  ex_made 1789171264 0x207fffff (ex_hash ex_genesis_block) [ex_first_tx [{| nValue := 0; out_scriptPubKey := [] |}] 0x51; ex_stake_tx; ex_fee_tx] ex_sig.
Definition ex_staked_index : CBlockIndex := ex_index ex_staked_block 1 (Some ex_genesis_index).

Definition ex_ctx (height : Z) (time : Z) : ConnectContext := {|
  cc_tip_height := height; cc_adjusted_time := time; hashGenesisBlock := ex_hash ex_genesis_block; cc_checkpoints := Some ∅; csv_active := true;
  script_flags := GetBlockScriptFlags None true true true true; fScriptChecks := true; parallel_script_checks := true;
  script_cache_prefix := []; script_cache := fun _ => false
|}.

Local Notation ex_connect_genesis :=
  (@ConnectBlock small_crypto toy_curve main_params ex_scrypt (fun _ => true) (ex_ctx 0 1789171200) ex_genesis_block ex_genesis_index empty_chainstate false).
Definition state_after (m : verdict connected) : chainstate := match m with Accepted r => c_state r | _ => empty_chainstate end.
Definition ex_state : chainstate := state_after ex_connect_genesis.
Definition ex_step : step := (ex_ctx 0 1789171264, ex_staked_block, ex_staked_index).

Lemma staked_block_creates_reward_witness :
  exists r, @ConnectBlock small_crypto toy_curve main_params ex_scrypt (fun _ => true) (ex_ctx 0 1789171264) ex_staked_block ex_staked_index ex_state false = Accepted r /\
    supply (set_of (c_state r)) + burned (vtx ex_staked_block) = supply (set_of ex_state) + StakeReward main_params (height_of ex_staked_index).
Proof.
  destruct (accepted_exists
    (@ConnectBlock small_crypto toy_curve main_params ex_scrypt (fun _ => true) (ex_ctx 0 1789171264) ex_staked_block ex_staked_index ex_state false)) as [r Hr].
  - vm_compute. reflexivity.
  - exists r. split; [exact Hr|].
    apply (@staked_block_creates_reward small_crypto toy_curve main_params ex_scrypt (fun _ => true) (ex_ctx 0 1789171264) ex_staked_block ex_staked_index ex_state false r (as_read_marks_ok _ _ _ _ _ _) Hr);
      vm_compute; (reflexivity || discriminate).
Defined.

Lemma supply_formula_witness :
  exists r state, ex_connect_genesis = Accepted r /\
    @connect_chain small_crypto toy_curve main_params ex_scrypt (fun _ => true) (c_state r) [ex_step] = Accepted state /\
    supply (set_of state) + burned_all [ex_step] = (14000000000 + 10 * Z.of_nat (length [ex_step])) * NODE_COIN.
Proof.
  destruct (accepted_exists ex_connect_genesis) as [r Hr]; [vm_compute; reflexivity|].
  destruct (accepted_exists (@connect_chain small_crypto toy_curve main_params ex_scrypt (fun _ => true) ex_state [ex_step])) as [state Hs]; [vm_compute; reflexivity|].
  assert (ex_state = c_state r) as Es by (unfold ex_state; rewrite Hr; reflexivity). rewrite Es in Hs. exists r, state. split; [exact Hr|]. split; [exact Hs|].
  apply (@supply_formula small_crypto toy_curve ex_scrypt (fun _ => true) (ex_ctx 0 1789171200) ex_genesis_block ex_genesis_index r [0x51] 2 ex_premine_outs [ex_step] state Hr).
  - reflexivity.
  - vm_compute. reflexivity.
  - reflexivity.
  - reflexivity.
  - exact Hs.
  - constructor; [|constructor]. split; [apply as_read_marks_ok|]. split; [reflexivity|]. split; [reflexivity|]. vm_compute. discriminate.
Defined.

(** ** A coinstake in the wrong place *)

(** A block whose header says it is staked and whose second transaction is an
    ordinary one; the third has the form of a coinstake and pays a million coins
    more than it spends. *)
Definition ex_minting_tx : CTransaction :=
  ex_pays [ex_spending ex_premine_txid 0] [{| nValue := 0; out_scriptPubKey := [] |}; {| nValue := 7001000000 * NODE_COIN; out_scriptPubKey := [0x51] |}].
Definition ex_plain_tx : CTransaction := ex_pays [ex_spending ex_premine_txid 1] [{| nValue := 7000000000 * NODE_COIN - 300000; out_scriptPubKey := [0x51] |}].
Definition ex_minting_block : CBlock :=
  ex_made 1789171264 (GetCompact (posLimitV2 main_params)) (ex_hash ex_genesis_block)
    [ex_first_tx [{| nValue := 300000; out_scriptPubKey := [0x51] |}] 0x51; ex_plain_tx; ex_minting_tx] [].
Definition ex_minting_index : CBlockIndex := ex_index ex_minting_block 1 (Some ex_genesis_index).

Section Unstaked.
Context `{Crypto} `{Curve} (params : Params) (scrypt : list Z -> list Z) (signet : CBlock -> bool) (ctx : ConnectContext).

(** A block with other flags in its header. *)
Definition with_flags (flags : Z) (b : CBlock) : CBlock := {|
  header := {| bh_nVersion := bh_nVersion (header b); hashPrevBlock := hashPrevBlock (header b); hashMerkleRoot := hashMerkleRoot (header b);
               bh_nTime := bh_nTime (header b); bh_nBits := bh_nBits (header b); nNonce := nNonce (header b); bh_nFlags := flags |};
  vtx := vtx b; vchBlockSig := vchBlockSig b;
  fChecked := fChecked b; m_checked_witness_commitment := m_checked_witness_commitment b; m_checked_merkle_root := m_checked_merkle_root b
|}.

Lemma CheckBlock_flags flags tip now b pow merkle sig b' :
  chain_type params <> SIGNET -> CheckBlock params scrypt signet tip now b pow merkle sig = Accepted b' ->
  CheckBlock params scrypt signet tip now (with_flags flags b) pow merkle sig = Accepted (with_flags flags b').
Proof.
  intros Hs. unfold CheckBlock. cbn [fChecked with_flags]. destruct (fChecked b); [by intros [= <-]|].
  rewrite !verdict_seq, !verdict_bind_accepted. intros (H1 & _ & marked & Hm & Hr). rewrite !verdict_seq in Hr. destruct Hr as (H2 & H3 & H4 & H5 & [= <-]).
  split; [exact H1|]. split; [by destruct (chain_type params)|]. exists (with_flags flags marked). split.
  - destruct merkle; [|by injection Hm as <-]. unfold CheckMerkleRoot in *. cbn [m_checked_merkle_root with_flags].
    destruct (m_checked_merkle_root b); [by injection Hm as <-|]. change (BlockMerkleRoot (with_flags flags b)) with (BlockMerkleRoot b).
    destruct (BlockMerkleRoot b). rewrite !verdict_seq in *. destruct Hm as (? & ? & [= <-]). done.
  - rewrite !verdict_seq. split; [exact H2|]. split; [exact H3|]. split; [exact H4|]. split; [exact H5|]. by destruct (pow && merkle).
Qed.

(** Neither [CheckBlock] nor [ConnectBlock] reads the flags. *)
Lemma ConnectBlock_flags flags block pindex state fJust r :
  chain_type params <> SIGNET -> ConnectBlock params scrypt signet ctx block pindex state fJust = Accepted r ->
  exists r', ConnectBlock params scrypt signet ctx (with_flags flags block) pindex state fJust = Accepted r' /\ c_state r' = c_state r.
Proof.
  intros Hs. unfold ConnectBlock. rewrite !verdict_seq, verdict_bind_accepted. intros (H1 & H2 & marked & Hc & Hr).
  assert (CheckBlock params scrypt signet (cc_tip_height ctx) (cc_adjusted_time ctx) block (negb fJust) (negb fJust) true = Accepted marked) as Hk
    by (destruct (CheckBlock _ _ _ _ _ _ _ _ _) as [|[]| |]; done).
  apply (CheckBlock_flags flags) in Hk; [|done]. setoid_rewrite verdict_seq. setoid_rewrite verdict_seq. rewrite Hk. cbn [recheck mbind verdict_bind].
  change (BlockHash scrypt (header (with_flags flags block))) with (BlockHash scrypt (header block)).
  setoid_rewrite verdict_seq. setoid_rewrite verdict_seq. rewrite !verdict_seq in Hr. destruct Hr as (H3 & H4 & Hr).
  destruct (bool_decide (BlockHash scrypt (header block) = hashGenesisBlock ctx)).
  - cbn [vtx with_flags]. destruct (vtx block) as [|coinbase txs]; [done|]. rewrite verdict_bind_accepted in Hr. destruct Hr as (view & Hv & [= <-]).
    eexists. split; [|]. { split; [exact H1|]. split; [exact H2|]. split; [exact H3|]. split; [exact H4|]. rewrite Hv. done. } done.
  - rewrite verdict_seq, verdict_bind_accepted in Hr. destruct Hr as (H5 & [t undo] & Hl & Hr). rewrite !verdict_seq in Hr. destruct Hr as (H6 & H7 & [= <-]).
    eexists. split; [|]. { split; [exact H1|]. split; [exact H2|]. split; [exact H3|]. split; [exact H4|]. rewrite verdict_seq. split; [exact H5|].
      cbn [vtx with_flags]. rewrite Hl. cbn [mbind verdict_bind]. rewrite !verdict_seq. split; [exact H6|]. split; [exact H7|]. done. } done.
Qed.

(** C38: Nothing holds a block that claims to be staked to its claim.  The flag in the
    header, by which the node decides whether a block is staked when it asks for its
    target and refuses proofs of work, is not read by [ConnectBlock]: with any
    other flags a block is accepted with the same coins.  Where the second
    transaction is no coinstake, only the first one is held to the fees and the
    subsidy; the coins grow, besides, by all that transactions of the form of a
    coinstake further back pay above what they spend.  No rule compares that sum with
    anything: such a transaction passes the check of its inputs whatever it pays, and
    the reward the loop counts makes no difference to the check of the reward.
    (The witness creates a million coins on the main network past all checks.) *)
Theorem unstaked_block_creates_coins block pindex state fJustCheck r :
  marks_ok params scrypt signet block -> chain_type params <> SIGNET ->
  ConnectBlock params scrypt signet ctx block pindex state fJustCheck = Accepted r ->
  BlockIsProofOfStake block = false -> BlockHash scrypt (header block) <> hashGenesisBlock ctx ->
  let height := height_of pindex in
  (exists coinbase txs, vtx block = coinbase :: txs /\
    supply (set_of (c_state r)) + burned (vtx block) =
      supply (set_of state) + value_out_sum (vout coinbase) - fees (set_of state) height (vtx block) + minted (set_of state) height (vtx block) /\
    value_out_sum (vout coinbase) <= fees (set_of state) height (vtx block) + GetBlockSubsidy height params false) /\
  (forall flags, exists r', ConnectBlock params scrypt signet ctx (with_flags flags block) pindex state fJustCheck = Accepted r' /\ c_state r' = c_state r) /\
  (forall tx tx' view, IsCoinStake tx = true -> IsCoinStake tx' = true -> vin tx' = vin tx -> nVersion tx' = nVersion tx -> nTime tx' = nTime tx ->
    CheckTxInputs params (cc_adjusted_time ctx) tx' view height = CheckTxInputs params (cc_adjusted_time ctx) tx view height) /\
  (forall t t', t_nFees t' = t_nFees t -> check_reward params pindex block t' = check_reward params pindex block t).
Proof.
  intros Hmk Hs Hc Hpos Hgen height. split; [by eapply unstaked_block_supply|]. split; [intros flags; by apply ConnectBlock_flags|]. split.
  - intros tx tx' view H1 H2 Hv Hn Ht. unfold CheckTxInputs, HaveInputs, tx_time, IsCoinBase. by rewrite H1, H2, Hv, Hn, Ht.
  - intros t t' Hf. unfold check_reward. by rewrite Hpos, Hf.
Qed.

End Unstaked.

Lemma unstaked_block_creates_coins_witness :
  let h := header ex_minting_block in
  let claimed := negb (Z.land (bh_nFlags h) BLOCK_PROOF_OF_STAKE =? 0) in
  claimed = true /\
  CheckBlockHeader main_params ex_scrypt 0 1789171264 h (negb claimed) false = Accepted tt /\
  @ContextualCheckBlockHeader small_crypto main_params ex_scrypt (Some ∅) None ex_genesis_index 1789171264 h ex_genesis_index claimed = Accepted tt /\
  is_accepted (@CheckBlock small_crypto toy_curve main_params ex_scrypt (fun _ => true) 0 1789171264 ex_minting_block true true true) = true /\
  is_accepted (@ContextualCheckBlock small_crypto main_params true true ex_minting_block (Some ex_genesis_index)) = true /\
  exists r coinbase txs, @ConnectBlock small_crypto toy_curve main_params ex_scrypt (fun _ => true) (ex_ctx 0 1789171264) ex_minting_block ex_minting_index ex_state false = Accepted r /\
    vtx ex_minting_block = coinbase :: txs /\
    supply (set_of (c_state r)) + burned (vtx ex_minting_block) =
      supply (set_of ex_state) + value_out_sum (vout coinbase) - @fees small_crypto (set_of ex_state) 1 (vtx ex_minting_block) + 1000000 * NODE_COIN.
Proof.
  cbv zeta. do 5 (split; [vm_compute; reflexivity|]).
  destruct (accepted_exists
    (@ConnectBlock small_crypto toy_curve main_params ex_scrypt (fun _ => true) (ex_ctx 0 1789171264) ex_minting_block ex_minting_index ex_state false)) as [r Hr];
    [vm_compute; reflexivity|].
  assert (@minted small_crypto (set_of ex_state) 1 (vtx ex_minting_block) = 1000000 * NODE_COIN) as Hm by (vm_compute; reflexivity).
  destruct (@unstaked_block_creates_coins small_crypto toy_curve main_params ex_scrypt (fun _ => true) (ex_ctx 0 1789171264) ex_minting_block ex_minting_index ex_state false r)
    as [(coinbase & txs & Ev & Hs & _) _]; [exact (as_read_marks_ok _ _ _ _ _ _)|discriminate|exact Hr|vm_compute; reflexivity|vm_compute; discriminate|].
  exists r, coinbase, txs. split; [exact Hr|]. split; [exact Ev|]. change (height_of ex_minting_index) with 1 in Hs. rewrite Hm in Hs. exact Hs.
Defined.
