(* ===== verification/Reorg.v ===== *)
(** * Leaving a block again

    What [DisconnectBlock] makes of the set of coins [ConnectBlock] left, with the
    undo data it wrote: the composition a reorganisation of the chain relies on. *)

From stdpp Require Import gmap.
From S2P Require Import Prelude Digits JsString Bytes Crypto JsInt Tx NodeTx ScriptError NodeScript ScriptNum Interpreter Verify Spend Validation CheckInputs JsNum NodeFee Arith256 ConsensusParams Chain TxCheck Policy Block Merkle Coins Undo ProofOfStake Retarget BlockCheck ConnectBlock Supply.

Open Scope Z_scope.
Open Scope list_scope.

Section Reorg.
Context `{Crypto} `{Curve} (params : Params) (scrypt : list Z -> list Z) (signet : CBlock -> bool) (ctx : ConnectContext).

Lemma connect_txs_update fJust pindex t txs t' undo :
  connect_txs params ctx fJust pindex t txs = Accepted (t', undo) -> update_all (t_view t) (height_of pindex) txs = Accepted (t_view t', undo).
Proof.
  revert t undo. induction txs as [|tx txs IH]; intros t undo; cbn [connect_txs update_all]; [by intros [= <- <-]|].
  rewrite verdict_bind_accepted. intros ([t1 u] & H1 & Hr). rewrite verdict_bind_accepted in Hr. destruct Hr as ([t2 us] & H2 & [= <- <-]).
  apply connect_tx_update in H1. rewrite H1. cbn [mbind verdict_bind].
  by rewrite (IH _ _ H2).
Qed.

(** The set after a block, as [UpdateCoins] makes it. *)
Lemma ConnectBlock_update block pindex state r :
  marks_ok params scrypt signet block -> ConnectBlock params scrypt signet ctx block pindex state false = Accepted r ->
  BlockHash scrypt (header block) <> hashGenesisBlock ctx ->
  exists coinbase txs undo0, vtx block = coinbase :: txs /\ IsCoinBase coinbase = true /\ Forall (fun tx => IsCoinBase tx = false) txs /\
    update_all (set_of state) (height_of pindex) (coinbase :: txs) = Accepted (set_of (c_state r), undo0 :: c_vtxundo r).
Proof.
  intros Hmk Hc Hgen. destruct (ConnectBlock_parts _ _ _ _ _ _ _ _ _ Hmk Hc Hgen) as (tip & t & undo & Hshape & _ & _ & Hloop & _ & -> & ->). destruct (check_shape_parts _ _ _ Hshape) as (coinbase & txs & Evtx & Hcb & Hncb & _).
  apply connect_txs_update in Hloop. rewrite Evtx in Hloop. cbn [t_view] in Hloop. pose proof (update_all_length _ _ _ _ _ Hloop) as Hl.
  destruct undo as [|undo0 undo]; [done|]. by exists coinbase, txs, undo0.
Qed.

(** Blocks keep what the undo data rely on. *)
Lemma update_all_invariant view height txs view' undo :
  update_all view height txs = Accepted (view', undo) -> coins_good view -> uniform view ->
  NoDup (GetHash <$> txs) -> Forall (fun tx => no_coin_of view (GetHash tx)) txs -> coins_good view' /\ uniform view'.
Proof.
  revert view undo. induction txs as [|tx txs IH]; intros view undo; cbn [update_all]; [by intros [= <- <-]|].
  rewrite verdict_bind_accepted. intros ([v u] & Hup & Hr). rewrite verdict_bind_accepted in Hr. destruct Hr as ([w us] & Hr & [= <- <-]).
  intros Hg Hu [Hnin Hnd]%NoDup_cons [Hno1 Hno]%Forall_cons_1. apply (IH _ _ Hr); [by eapply update_good|by eapply update_uniform|done|].
  apply Forall_forall. intros t Ht. apply (update_no_coin _ _ _ _ _ _ Hup); [rewrite Forall_forall in Hno; by apply Hno|].
  intros E. apply Hnin. rewrite <-E. by apply list_elem_of_fmap_2.
Qed.

(** C7: A block left again restores the set of unspent outputs.  What
    [ConnectBlock] did to the set, transaction by transaction and with
    transactions spending each other's outputs, [DisconnectBlock] takes back with
    the undo data recorded, where the transactions of the block have identifiers of
    their own; coins of the first block are restored as long as another output of
    the first block is left.  What this needs of the set holds again after every
    block. *)
Theorem connect_then_disconnect block pindex state r :
  marks_ok params scrypt signet block ->
  ConnectBlock params scrypt signet ctx block pindex state false = Accepted r ->
  BlockHash scrypt (header block) <> hashGenesisBlock ctx -> height_of pindex <> 0 ->
  coins_good (set_of state) -> uniform (set_of state) ->
  NoDup (GetHash <$> vtx block) -> Forall (fun tx => no_coin_of (set_of state) (GetHash tx)) (vtx block) ->
  (forall p c, set_of state !! p = Some c -> nHeight c = 0 -> set_of (c_state r) !! p = None -> one_left (set_of (c_state r)) (op_hash p)) ->
  DisconnectBlock (set_of (c_state r)) (vtx block) (height_of pindex) (c_vtxundo r) = Accepted (set_of state, DISCONNECT_OK) /\
  coins_good (set_of (c_state r)) /\ uniform (set_of (c_state r)).
Proof.
  intros Hmk Hc Hgen Hh Hg Hu Hnd Hno Hkept. destruct (ConnectBlock_update _ _ _ _ Hmk Hc Hgen) as (coinbase & txs & undo0 & Ev & Hcb & Hncb & Hup).
  rewrite Ev in *. split; [by eapply disconnect_block|by eapply update_all_invariant].
Qed.

(** C39: A block that spends the last outputs of the first block cannot be left.
    The undo data of such a coin has height 0, which is its true height here, but
    which [ApplyTxInUndo] takes for data of an older version without one: it looks
    for another unspent output of the same transaction to copy it from.  Where none
    is left [DisconnectBlock] fails, so the node cannot leave a branch that holds
    the block. *)
Theorem last_premine_spend_not_undone block pindex state r p c :
  marks_ok params scrypt signet block ->
  ConnectBlock params scrypt signet ctx block pindex state false = Accepted r ->
  BlockHash scrypt (header block) <> hashGenesisBlock ctx -> coins_good (set_of state) -> uniform (set_of state) ->
  set_of state !! p = Some c -> nHeight c = 0 -> op_hash p ∉ (GetHash <$> vtx block) ->
  no_coin_of (set_of (c_state r)) (op_hash p) ->
  DisconnectBlock (set_of (c_state r)) (vtx block) (height_of pindex) (c_vtxundo r) = Accepted (set_of (c_state r), DISCONNECT_FAILED).
Proof.
  intros Hmk Hc Hgen Hg Hu Hp Hz Hnin Hno. destruct (ConnectBlock_update _ _ _ _ Hmk Hc Hgen) as (coinbase & txs & undo0 & Ev & Hcb & Hncb & Hup).
  rewrite Ev in *. by eapply disconnect_block_lost.
Qed.

(** The set after the first block. *)
Lemma genesis_set_ok block pindex r :
  ConnectBlock params scrypt signet ctx block pindex empty_chainstate false = Accepted r -> BlockHash scrypt (header block) = hashGenesisBlock ctx ->
  coins_good (set_of (c_state r)) /\ uniform (set_of (c_state r)) /\
  forall p c, set_of (c_state r) !! p = Some c -> nHeight c = height_of pindex /\ exists tx, head (vtx block) = Some tx /\ op_hash p = GetHash tx.
Proof.
  intros Hc Hg. destruct (ConnectBlock_genesis _ _ _ _ _ _ _ Hc Hg) as (coinbase & txs & -> & Ha). set (view := set_of (c_state r)) in *.
  assert (forall p c, view !! p = Some c -> op_hash p = GetHash coinbase /\
    coin_meta c = (IsCoinBase coinbase, IsCoinStake coinbase, height_of pindex, nTime coinbase) /\ coin_good c) as Hnew.
  { intros p c Hp. by destruct (add_outputs_new _ _ _ _ _ _ _ _ _ _ _ Ha Hp) as [?|?]. }
  split; [intros p c Hp; by apply (Hnew p c Hp)|]. split.
  - intros p q c d Hp Hq _. destruct (Hnew p c Hp) as (_ & -> & _). by destruct (Hnew q d Hq) as (_ & -> & _).
  - intros p c Hp. destruct (Hnew p c Hp) as (E & Hm & _). unfold coin_meta in Hm. injection Hm as _ _ Hm _. split; [done|]. by exists coinbase.
Qed.

End Reorg.

(** ** A block over the first one *)

(** The coinstake alone, which leaves the second output of the first block unspent. *)
Definition ex_lone_stake : CTransaction :=
  ex_pays [ex_spending ex_premine_txid 0]
    [{| nValue := 0; out_scriptPubKey := [] |}; {| nValue := 7000000010 * NODE_COIN; out_scriptPubKey := ex_key_script |}].
Definition ex_lone_block : CBlock :=
  ex_made 1789171264 0x207fffff (ex_hash ex_genesis_block) [ex_first_tx [{| nValue := 0; out_scriptPubKey := [] |}] 0x51; ex_lone_stake] ex_sig.
Definition ex_lone_index : CBlockIndex := ex_index ex_lone_block 1 (Some ex_genesis_index).

Local Notation ex_connect block index :=
  (@ConnectBlock small_crypto toy_curve main_params ex_scrypt (fun _ => true) (ex_ctx 0 1789171264) block index ex_state false).

Definition result_holds (m : verdict connected) (P : connected -> bool) : bool := match m with Accepted r => P r | _ => false end.

Lemma result_holds_accepted m P : result_holds m P = true -> exists r, m = Accepted r /\ P r = true.
Proof. destruct m as [r| | |]; intros Hm; [by exists r|done..]. Qed.

Lemma ex_state_ok :
  coins_good (set_of ex_state) /\ uniform (set_of ex_state) /\
  forall p c, set_of ex_state !! p = Some c -> nHeight c = 0 /\ op_hash p = ex_premine_txid.
Proof.
  destruct (accepted_exists (@ConnectBlock small_crypto toy_curve main_params ex_scrypt (fun _ => true) (ex_ctx 0 1789171200) ex_genesis_block ex_genesis_index
    empty_chainstate false)) as [r Hr]; [vm_compute; exact eq_refl|].
  assert (ex_state = c_state r) as -> by (unfold ex_state; rewrite Hr; exact eq_refl).
  destruct (@genesis_set_ok small_crypto toy_curve _ _ _ _ _ _ _ Hr eq_refl) as (Hg & Hu & Hp). split; [exact Hg|]. split; [exact Hu|].
  intros p c Hc. destruct (Hp p c Hc) as (Hh & tx & [= <-] & He). split; [exact Hh|exact He].
Qed.

(** The transactions of a block over the first one have no outputs in its set. *)
Lemma ex_fresh txs : ex_premine_txid ∉ (@GetHash small_crypto <$> txs) -> Forall (fun tx => no_coin_of (set_of ex_state) (@GetHash small_crypto tx)) txs.
Proof.
  intros Hnin. apply Forall_forall. intros tx Htx p Hp. destruct (set_of ex_state !! p) as [c|] eqn:E; [|exact eq_refl]. exfalso. apply Hnin.
  destruct (proj2 (proj2 ex_state_ok) p c E) as [_ He]. rewrite <-He, Hp. by apply list_elem_of_fmap_2.
Qed.

Lemma connect_then_disconnect_witness :
  exists r, ex_connect ex_lone_block ex_lone_index = Accepted r /\
    @DisconnectBlock small_crypto (set_of (c_state r)) (vtx ex_lone_block) 1 (c_vtxundo r) = Accepted (set_of ex_state, DISCONNECT_OK).
Proof.
  destruct (result_holds_accepted (ex_connect ex_lone_block ex_lone_index)
    (fun r => bool_decide (is_Some (set_of (c_state r) !! {| op_hash := ex_premine_txid; op_n := 1 |})))) as (r & Hr & Hk); [vm_compute; exact eq_refl|].
  exists r. split; [exact Hr|]. destruct ex_state_ok as (Hg & Hu & Hp).
  refine (proj1 (@connect_then_disconnect small_crypto toy_curve main_params ex_scrypt (fun _ => true) (ex_ctx 0 1789171264) ex_lone_block ex_lone_index ex_state r
    (as_read_marks_ok _ _ _ _ _ _) Hr _ _ Hg Hu _ _ _)).
  - vm_compute. discriminate.
  - vm_compute. discriminate.
  - apply (bool_decide_unpack _). vm_compute. exact I.
  - apply ex_fresh. apply (bool_decide_unpack _). vm_compute. exact I.
  - intros p c Hc _ _. destruct (Hp p c Hc) as [_ ->]. exists 1. split; [vm_compute; split; [discriminate|exact eq_refl]|]. by apply bool_decide_eq_true in Hk.
Defined.

Lemma last_premine_spend_not_undone_witness :
  exists r, ex_connect ex_staked_block ex_staked_index = Accepted r /\
    @DisconnectBlock small_crypto (set_of (c_state r)) (vtx ex_staked_block) 1 (c_vtxundo r) = Accepted (set_of (c_state r), DISCONNECT_FAILED).
Proof.
  destruct (result_holds_accepted (ex_connect ex_staked_block ex_staked_index)
    (fun r => forallb (fun pc => negb (bool_decide (op_hash pc.1 = ex_premine_txid))) (map_to_list (set_of (c_state r))))) as (r & Hr & Hk); [vm_compute; exact eq_refl|].
  exists r. split; [exact Hr|]. destruct ex_state_ok as (Hg & Hu & Hp).
  assert (is_Some (set_of ex_state !! {| op_hash := ex_premine_txid; op_n := 0 |})) as [c Hc] by (apply (bool_decide_unpack _); vm_compute; exact I).
  apply (@last_premine_spend_not_undone small_crypto toy_curve main_params ex_scrypt (fun _ => true) (ex_ctx 0 1789171264) ex_staked_block ex_staked_index ex_state r
    {| op_hash := ex_premine_txid; op_n := 0 |} c (as_read_marks_ok _ _ _ _ _ _) Hr).
  - vm_compute. discriminate.
  - exact Hg.
  - exact Hu.
  - exact Hc.
  - exact (proj1 (Hp _ _ Hc)).
  - apply (bool_decide_unpack _). vm_compute. exact I.
  - intros p Hpe. destruct (set_of (c_state r) !! p) as [d|] eqn:E; [|exact eq_refl]. exfalso. rewrite forallb_forall in Hk.
    specialize (Hk (p, d)). rewrite <-list_elem_of_In, elem_of_map_to_list in Hk. apply Hk, negb_true_iff, bool_decide_eq_false in E. exact (E Hpe).
Defined.
