(* ===== verification/Mempool.v ===== *)
(** * Admission to the memory pool

    [validation.cpp]: [MemPoolAccept] for a single transaction, from [PreChecks]
    to [Finalize], with the views and helpers it calls.  The pool is the list of
    its transactions; the ancestor limits and the eviction of transactions are
    functions of the node.  Packages are in Package. *)

From S2P Require Import Prelude Digits JsString Bytes Crypto JsInt Tx NodeTx ScriptError NodeScript ScriptNum Interpreter InterpFacts Verify VerifyFacts InterpSafe Spend SoftFork Validation CheckInputs JsNum NodeFee ConsensusParams TxCheck Policy.

Open Scope Z_scope.
Open Scope list_scope.

(** ** The node around the pool *)

(** [CTxMemPool::Limits] *)
Record Limits : Type := { ancestor_count : Z; ancestor_size_vbytes : Z; descendant_count : Z; descendant_size_vbytes : Z }.

Record NodeState : Type := {
  params : Params;
  adjusted_time : Z;                    (** [GetAdjustedTimeSeconds()] *)
  tip_height : Z;
  tip_median_time : Z;                  (** of the tip *)
  median_time_past : Z -> option Z;     (** of its ancestors, by height *)
  segwit_active : bool;
  block_flags : Z;                      (** [GetBlockScriptFlags] of the tip *)
  prematurewitness : bool;
  coins_tip : CCoinsView;               (** [CoinsTip()] *)
  in_cache : COutPoint -> bool;         (** [HaveCoinInCache] *)
  require_standard : bool;
  settings : PolicySettings;
  min_relay_feerate : Z;
  bytes_per_sigop : Z;
  fee_delta : list Z -> Z;              (** of [prioritisetransaction], by txid *)
  limits : Limits;
  ancestors_within : list CTransaction -> CTransaction -> Limits -> bool;
  package_within : list CTransaction -> list CTransaction -> Z -> bool;     (** [CheckPackageLimits] *)
  evict : list CTransaction -> list CTransaction;
  cache_prefix : list Z;
  cache_contains : list Z -> bool
}.

(** [ATMPArgs], as its four constructors make it. *)
Record ATMPArgs : Type := {
  m_bypass_limits : bool;
  m_test_accept : bool;
  m_allow_replacement : bool;
  m_package_submission : bool;
  m_package_feerates : bool
}.
Definition SingleAccept (bypass_limits test_accept : bool) : ATMPArgs := {|
  m_bypass_limits := bypass_limits; m_test_accept := test_accept; m_allow_replacement := true; m_package_submission := false; m_package_feerates := false
|}.
Definition PackageTestAccept : ATMPArgs := {|
  m_bypass_limits := false; m_test_accept := true; m_allow_replacement := false; m_package_submission := false; m_package_feerates := false
|}.
Definition PackageChildWithParents : ATMPArgs := {|
  m_bypass_limits := false; m_test_accept := false; m_allow_replacement := false; m_package_submission := true; m_package_feerates := true
|}.
Definition SingleInPackageAccept (package_args : ATMPArgs) : ATMPArgs := {|
  m_bypass_limits := false; m_test_accept := m_test_accept package_args; m_allow_replacement := true; m_package_submission := true; m_package_feerates := false
|}.

Definition MEMPOOL_HEIGHT : Z := 0x7fffffff.
Definition EXTRA_DESCENDANT_TX_SIZE_LIMIT : Z := 10000.
Definition MIN_STANDARD_TX_NONWITNESS_SIZE : Z := 65.
Definition MAX_STANDARD_TX_SIGOPS_COST : Z := 80000 / 5.

Section Mempool.
Context `{Crypto} `{Curve}.

(** ** The pool *)

Definition pool_get (pool : list CTransaction) (txid : list Z) : option CTransaction :=
  List.find (fun t => bool_decide (GetHash t = txid)) pool.

Definition spends (t : CTransaction) (p : COutPoint) : bool := existsb (fun i => bool_decide (prevout i = p)) (vin t).

(** [GetConflictTx] *)
Definition has_conflict (pool : list CTransaction) (p : COutPoint) : bool := existsb (fun t => spends t p) pool.

(** [CCoinsViewMemPool::GetCoin] *)
Definition mempool_view (pool : list CTransaction) (base : CCoinsView) : CCoinsView := fun outpoint =>
  match pool_get pool (op_hash outpoint) with
  | Some t =>
      match vout t !! Z.to_nat (op_n outpoint) with
      | Some o => Some {| coin_out := o; nHeight := MEMPOOL_HEIGHT; fCoinBase := false; fCoinStake := false; coin_nTime := nTime t |}
      | None => None
      end
  | None => base outpoint
  end.

(** ** Checks before the scripts *)

Definition CheckFinalTxAtTip (node : NodeState) (tx : CTransaction) : bool :=
  IsFinalTx tx (tip_height node + 1) (tip_median_time node).

Fixpoint CalculatePrevHeights (node : NodeState) (view : CCoinsView) (vin : list CTxIn) : option (list Z) :=
  match vin with
  | [] => Some []
  | txin :: vin =>
      coin ← view (prevout txin);
      heights ← CalculatePrevHeights node view vin;
      Some ((if nHeight coin =? MEMPOOL_HEIGHT then tip_height node + 1 else nHeight coin) :: heights)
  end.

(** [CalculateLockPointsAtTip] and [CheckSequenceLocksAtTip]; the block that the
    lock points are valid for, which only matters later, is left out. *)
Definition sequence_locks_ok (node : NodeState) (view : CCoinsView) (tx : CTransaction) : check bool :=
  match CalculatePrevHeights node view (vin tx) with
  | None => Valid false
  | Some heights =>
      lockPair ← CalculateSequenceLocks tx heights (median_time_past node);
      Valid (EvaluateSequenceLocks (tip_height node + 1) (tip_median_time node) lockPair)
  end.

Definition CheckFeeRate (node : NodeState) (package_size package_fee : Z) : check unit :=
  let minFee := GetMinFeeOfSize package_size (IsProtocolV3_1 (params node) (u32 (adjusted_time node))) in
  _ ← invalid_if ((0 <? minFee) && (package_fee <? minFee)) TX_MEMPOOL_POLICY "min fee not met";
  invalid_if (package_fee <? GetFee (min_relay_feerate node) package_size) TX_MEMPOOL_POLICY "min relay fee not met".

(** A script evaluation used by policy, which returns a boolean. *)
Definition of_script {A} (m : script_res A) : check A :=
  match m with Ret a => Valid a | Err _ => Invalid TX_RESULT_UNSET "" | Abort => Crash end.

(** The inputs, one after the other: a missing one may be one that was spent by
    this very transaction before. *)
Fixpoint inputs_exist (node : NodeState) (view : CCoinsView) (tx : CTransaction) (vin : list CTxIn) : check unit :=
  match vin with
  | [] => Valid tt
  | txin :: vin =>
      match view (prevout txin) with
      | Some _ => inputs_exist node view tx vin
      | None =>
          if existsb (fun n => in_cache node {| op_hash := GetHash tx; op_n := Z.of_nat n |}) (seq 0 (length (vout tx)))
          then Invalid TX_CONFLICT "txn-already-known"
          else Invalid TX_MISSING_INPUTS "bad-txns-inputs-missingorspent"
      end
  end.

Record Workspace : Type := { m_base_fees : Z; m_modified_fees : Z; m_vsize : Z }.

Definition within_limits (node : NodeState) (pool : list CTransaction) (tx : CTransaction) (vsize : Z) : check unit :=
  if ancestors_within node pool tx (limits node) then Valid tt
  else
    let carve_out := {|
      ancestor_count := 2;
      ancestor_size_vbytes := ancestor_size_vbytes (limits node);
      descendant_count := descendant_count (limits node) + 1;
      descendant_size_vbytes := descendant_size_vbytes (limits node) + EXTRA_DESCENDANT_TX_SIZE_LIMIT
    |} in
    _ ← invalid_if (EXTRA_DESCENDANT_TX_SIZE_LIMIT <? vsize) TX_MEMPOOL_POLICY "too-long-mempool-chain";
    invalid_if (negb (ancestors_within node pool tx carve_out)) TX_MEMPOOL_POLICY "too-long-mempool-chain".

(** [view] is what [m_viewmempool] shows at the time. *)
Definition PreChecks (node : NodeState) (args : ATMPArgs) (view : CCoinsView) (pool : list CTransaction) (tx : CTransaction) : check Workspace :=
  let nTimeTx := tx_time tx (adjusted_time node) in
  let v3_1 := IsProtocolV3_1 (params node) in
  _ ← CheckTransaction tx;
  _ ← invalid_if (IsCoinBase tx) TX_CONSENSUS "coinbase";
  _ ← invalid_if (IsCoinStake tx) TX_CONSENSUS "coinstake";
  _ ← invalid_if (negb (prematurewitness node) && HasWitness (vin tx) && negb (segwit_active node)) TX_NOT_STANDARD "no-witness-yet";
  _ ← (if require_standard node then
         match IsStandardTx (settings node) tx (segwit_active node) with
         | Some reason => Invalid TX_NOT_STANDARD reason
         | None => Valid tt
         end
       else Valid tt);
  _ ← invalid_if (GetSerializeSize false tx <? MIN_STANDARD_TX_NONWITNESS_SIZE) TX_NOT_STANDARD "tx-size-small";
  _ ← invalid_if (negb (CheckFinalTxAtTip node tx)) TX_PREMATURE_SPEND "non-final";
  _ ← invalid_if (FutureDrift (params node) (tip_height node) (adjusted_time node) <? nTimeTx) TX_PREMATURE_SPEND "time-too-new";
  _ ← invalid_if (existsb (fun t => bool_decide (GetWitnessHash t = GetWitnessHash tx)) pool) TX_CONFLICT "txn-already-in-mempool";
  _ ← invalid_if (bool_decide (is_Some (pool_get pool (GetHash tx)))) TX_CONFLICT "txn-same-nonwitness-data-in-mempool";
  _ ← invalid_if (existsb (fun i => has_conflict pool (prevout i)) (vin tx)) TX_MEMPOOL_POLICY "txn-mempool-conflict";
  _ ← inputs_exist node view tx (vin tx);
  locks ← sequence_locks_ok node view tx;
  _ ← invalid_if (negb locks) TX_PREMATURE_SPEND "non-BIP68-final";
  fee ← CheckTxInputs (params node) (adjusted_time node) tx view (tip_height node + 1);
  let base_fees := default 0 fee in
  _ ← invalid_if (v3_1 nTimeTx && (base_fees <? GetMinFee tx (v3_1 (u32 nTimeTx)))) TX_CONSENSUS "bad-txns-fee-not-enough";
  _ ← (if require_standard node then
         ok ← of_script (AreInputsStandard tx view); invalid_if (negb ok) TX_INPUTS_NOT_STANDARD "bad-txns-nonstandard-inputs"
       else Valid tt);
  _ ← (if HasWitness (vin tx) && require_standard node then
         ok ← of_script (IsWitnessStandard tx view); invalid_if (negb ok) TX_WITNESS_MUTATED "bad-witness-nonstandard"
       else Valid tt);
  nSigOpsCost ← GetTransactionSigOpCost tx view STANDARD_SCRIPT_VERIFY_FLAGS;
  let modified_fees := base_fees + fee_delta node (GetHash tx) in
  let vsize := VirtualSize (GetTransactionWeight tx) nSigOpsCost (bytes_per_sigop node) in
  _ ← invalid_if (MAX_STANDARD_TX_SIGOPS_COST <? nSigOpsCost) TX_NOT_STANDARD "bad-txns-too-many-sigops";
  _ ← (if m_bypass_limits args || m_package_feerates args then Valid tt else CheckFeeRate node vsize modified_fees);
  _ ← within_limits node pool tx vsize;
  Valid {| m_base_fees := base_fees; m_modified_fees := modified_fees; m_vsize := vsize |}.

(** ** Checks of the scripts *)

Definition check_scripts (node : NodeState) (view : CCoinsView) (tx : CTransaction) (flags : Z) (store : bool)
    (txdata : PrecomputedTransactionData) : check (PrecomputedTransactionData * option (list Z) * list CScriptCheck) :=
  CheckInputScripts (cache_prefix node) (cache_contains node) tx view flags store false txdata.

Definition accepted {A} (m : check A) : check bool := match m with Valid _ => Valid true | Invalid _ _ => Valid false | Crash => Crash end.

(** A failure leaves the precomputed data as the first call made it; the calls
    after it would compute the same. *)
Definition PolicyScriptChecks (node : NodeState) (view : CCoinsView) (tx : CTransaction) : check PrecomputedTransactionData :=
  let flags := STANDARD_SCRIPT_VERIFY_FLAGS in
  match check_scripts node view tx flags false no_txdata with
  | Valid (d, _, _) => Valid d
  | Crash => Crash
  | Invalid r reason =>
      stripped ← (if HasWitness (vin tx) then Valid false else
        without ← accepted (check_scripts node view tx
          (Z.ldiff flags (Z.lor SCRIPT_VERIFY_WITNESS SCRIPT_VERIFY_CLEANSTACK)) false no_txdata);
        if negb without then Valid false else
        with_witness ← accepted (check_scripts node view tx (Z.ldiff flags SCRIPT_VERIFY_CLEANSTACK) false no_txdata);
        Valid (negb with_witness));
      if stripped : bool then Invalid TX_WITNESS_STRIPPED reason else Invalid r reason
  end.

(** [CheckInputsFromMempoolAndCache]: the coins of the view are those of the pool
    or of the chain. *)
Fixpoint coins_match (node : NodeState) (view : CCoinsView) (pool : list CTransaction) (vin : list CTxIn) : check unit :=
  match vin with
  | [] => Valid tt
  | txin :: vin =>
      let p := prevout txin in
      match view p with
      | None => Invalid TX_RESULT_UNSET ""
      | Some coin =>
          _ ← check_assert
            (match pool_get pool (op_hash p) with
             | Some from =>
                 match vout from !! Z.to_nat (op_n p) with
                 | Some o => (nValue o =? nValue (coin_out coin)) && bool_decide (out_scriptPubKey o = out_scriptPubKey (coin_out coin))
                 | None => false
                 end
             | None =>
                 match coins_tip node p with
                 | Some c => (nValue (coin_out c) =? nValue (coin_out coin)) &&
                             bool_decide (out_scriptPubKey (coin_out c) = out_scriptPubKey (coin_out coin))
                 | None => false
                 end
             end);
          coins_match node view pool vin
      end
  end.

Definition ConsensusScriptChecks (node : NodeState) (view : CCoinsView) (pool : list CTransaction) (tx : CTransaction)
    (d : PrecomputedTransactionData) : check unit :=
  _ ← check_assert (negb (IsCoinBase tx));
  _ ← coins_match node view pool (vin tx);
  _ ← check_scripts node view tx (block_flags node) true d;
  Valid tt.

(** ** Admission *)

(** [Finalize]: the pool with the transaction, after eviction, which a package
    leaves for its end. *)
Definition Finalize (node : NodeState) (args : ATMPArgs) (pool : list CTransaction) (tx : CTransaction) :
    list CTransaction * check unit :=
  let pool := tx :: pool in
  if m_package_submission args || m_bypass_limits args then (pool, Valid tt)
  else
    let pool := evict node pool in
    (pool, invalid_if (negb (bool_decide (is_Some (pool_get pool (GetHash tx))))) TX_MEMPOOL_POLICY "mempool full").

(** [AcceptSingleTransaction]: the pool afterwards and the result. *)
Definition AcceptSingleTransaction (node : NodeState) (args : ATMPArgs) (pool : list CTransaction) (tx : CTransaction) :
    list CTransaction * check Workspace :=
  let view := mempool_view pool (coins_tip node) in
  match
    ws ← PreChecks node args view pool tx;
    d ← PolicyScriptChecks node view tx;
    _ ← ConsensusScriptChecks node view pool tx d;
    Valid ws
  with
  | Valid ws =>
      if m_test_accept args then (pool, Valid ws)
      else let '(pool, m) := Finalize node args pool tx in (pool, _ ← m; Valid ws)
  | Invalid r reason => (pool, Invalid r reason)
  | Crash => (pool, Crash)
  end.

End Mempool.

(** ** No double spends *)

Definition pool_spends (pool : list CTransaction) : list COutPoint := mjoin ((fun t => prevout <$> vin t) <$> pool).

Lemma has_conflict_true pool p : has_conflict pool p = true <-> p ∈ pool_spends pool.
Proof.
  unfold has_conflict, pool_spends, spends. rewrite existsb_exists, list_elem_of_join. split.
  - intros (t & Ht & (i & Hi & Hp%bool_decide_eq_true)%existsb_exists). exists (prevout <$> vin t). split.
    + rewrite <-Hp. by apply list_elem_of_fmap_2, list_elem_of_In.
    + apply list_elem_of_fmap. exists t. split; [done|by apply list_elem_of_In].
  - intros (l & Hp & (t & -> & Ht)%list_elem_of_fmap). exists t. split; [by apply list_elem_of_In|].
    apply list_elem_of_fmap in Hp as (i & -> & Hi). apply existsb_exists. exists i. split; [by apply list_elem_of_In|].
    by apply bool_decide_eq_true.
Qed.

Section Facts.
Context `{Crypto} `{Curve}.

(** What [PreChecks] refuses, as far as other theorems use it. *)
Lemma PreChecks_inv node args view pool tx ws :
  PreChecks node args view pool tx = Valid ws ->
  tx_sound tx /\ IsCoinBase tx = false /\ Forall (fun i => prevout i ∉ pool_spends pool) (vin tx) /\
  (require_standard node = true -> IsStandardTx (settings node) tx (segwit_active node) = None).
Proof.
  unfold PreChecks. rewrite seq_valid, CheckTransaction_valid, seq_valid, invalid_if_valid. intros (Hs & Hcb & Hr).
  split; [done|]. split; [done|]. rewrite seq_valid in Hr. destruct Hr as (_ & Hr). rewrite seq_valid in Hr. destruct Hr as (_ & Hr).
  rewrite seq_valid in Hr. destruct Hr as (Hstd & Hr). do 5 (rewrite seq_valid in Hr; destruct Hr as (_ & Hr)).
  rewrite seq_valid, invalid_if_valid in Hr. destruct Hr as (Hc & _). split.
  - apply existsb_false_Forall in Hc. eapply Forall_impl; [exact Hc|]. intros i Hi Hin. cbv beta in Hi.
    by rewrite (proj2 (has_conflict_true _ _) Hin) in Hi.
  - intros Hreq. rewrite Hreq in Hstd. by destruct (IsStandardTx _ _ _).
Qed.

(** The pool changes only by taking in a transaction that passed, or by
    eviction. *)
Lemma Accept_pool node args pool tx :
  (AcceptSingleTransaction node args pool tx).1 = pool \/
  ((exists ws, PreChecks node args (mempool_view pool (coins_tip node)) pool tx = Valid ws) /\
   ((AcceptSingleTransaction node args pool tx).1 = tx :: pool \/
    (AcceptSingleTransaction node args pool tx).1 = evict node (tx :: pool))).
Proof.
  unfold AcceptSingleTransaction. destruct (_ ≫= _) as [ws| |] eqn:E; [|by left|by left].
  apply check_bind_valid in E as (ws' & Hpre & _). destruct (m_test_accept args); [by left|]. right. split; [by eexists|].
  unfold Finalize. destruct (_ || _); [by left|by right].
Qed.

Lemma Accept_valid node args pool tx ws :
  (AcceptSingleTransaction node args pool tx).2 = Valid ws -> PreChecks node args (mempool_view pool (coins_tip node)) pool tx = Valid ws.
Proof.
  unfold AcceptSingleTransaction. destruct (_ ≫= _) as [ws'| |] eqn:E; [|done|done].
  apply check_bind_valid in E as (ws2 & Hpre & Hr). apply check_bind_valid in Hr as (d & _ & Hr).
  apply check_bind_valid in Hr as (? & _ & [= ->]). destruct (m_test_accept args); [by intros [= <-]|]. destruct (Finalize _ _ _ _) as [pool' m].
  intros (? & _ & [= <-])%check_bind_valid. done.
Qed.

Definition pool_ok (pool : list CTransaction) : Prop := Forall tx_sound pool /\ NoDup (pool_spends pool).

Lemma sublist_join {A B} (f : A -> list B) l1 l2 : l1 `sublist_of` l2 -> mjoin (f <$> l1) `sublist_of` mjoin (f <$> l2).
Proof.
  induction 1 as [|x l1 l2 _ IH|x l1 l2 _ IH]; [done|..]; rewrite ?fmap_cons; cbn [mjoin list_join foldr].
  - by apply sublist_app.
  - by apply sublist_inserts_l.
Qed.

Lemma sublist_Forall {A} (P : A -> Prop) l1 l2 : l1 `sublist_of` l2 -> Forall P l2 -> Forall P l1.
Proof. induction 1; [done|..]; intros [? ?]%Forall_cons_1; [constructor|]; auto. Qed.

Lemma pool_ok_sublist pool pool' : pool' `sublist_of` pool -> pool_ok pool -> pool_ok pool'.
Proof.
  intros Hsub [Hs Hn]. split; [by eapply sublist_Forall|]. eapply sublist_NoDup; [exact Hn|]. by apply sublist_join.
Qed.

Lemma pool_ok_cons pool tx : pool_ok pool -> tx_sound tx /\ Forall (fun i => prevout i ∉ pool_spends pool) (vin tx) -> pool_ok (tx :: pool).
Proof.
  intros [Hs Hn] [Htx Hc]. split; [by constructor|].
  change (pool_spends (tx :: pool)) with ((prevout <$> vin tx) ++ pool_spends pool). apply NoDup_app. split; [by destruct Htx as (?&?&?&?&?&?&?)|].
  split; [|done]. intros p (i & -> & Hi)%list_elem_of_fmap. by eapply Forall_forall in Hc.
Qed.

Lemma pool_ok_accept node args view pool tx ws : pool_ok pool -> PreChecks node args view pool tx = Valid ws -> pool_ok (tx :: pool).
Proof.
  intros Hp (Htx & _ & Hc & _)%PreChecks_inv. by apply pool_ok_cons.
Qed.

End Facts.

(** A node that relays anything valid, with one kind of coin. *)
Definition ex_node : NodeState := {|
  params := main_params; adjusted_time := 1800000000; tip_height := 5000; tip_median_time := 1799999000; median_time_past := fun _ => Some 1799990000;
  segwit_active := true; block_flags := GetBlockScriptFlags None true true true true; prematurewitness := false;
  coins_tip := ex_coins; in_cache := fun _ => false; require_standard := false;
  settings := {| max_datacarrier_bytes := Some 223; permit_bare_multisig := true; dust_relay_fee := DUST_RELAY_TX_FEE |};
  min_relay_feerate := DEFAULT_MIN_RELAY_TX_FEE; bytes_per_sigop := 20; fee_delta := fun _ => 0;
  limits := {| ancestor_count := 25; ancestor_size_vbytes := 101000; descendant_count := 25; descendant_size_vbytes := 101000 |};
  ancestors_within := fun _ _ _ => true; package_within := fun _ _ _ => true; evict := fun l => l; cache_prefix := []; cache_contains := fun _ => false
|}.

Definition ex_offer : CTransaction := {|
  nVersion := 2; nTime := 0; nLockTime := 0; vin := vin ex_spend;
  vout := [{| nValue := 20000; out_scriptPubKey := p2pkh_script (replicate 20 1) |}]
|}.
