(* ===== verification/Package.v ===== *)
(** * Packages of transactions

    [policy/packages.cpp] and the package half of [MemPoolAccept] in
    [validation.cpp]: [AcceptMultipleTransactions], [SubmitPackage],
    [AcceptSubPackage], [AcceptPackage] and [ProcessNewPackage].  A failed
    assertion stops the node, so that the operations return an option; a failed
    [Assume] does nothing, as in the builds that are released.  The last part is
    the invariant of the pool, over transactions offered one by one and in
    packages: no two inputs spend the same coin. *)

From stdpp Require Import gmap.
From S2P Require Import Prelude Digits JsString Bytes Crypto JsInt Tx NodeTx ScriptError NodeScript ScriptNum Interpreter InterpFacts Verify VerifyFacts InterpSafe Spend SoftFork Validation CheckInputs JsNum NodeFee ConsensusParams TxCheck Policy Mempool.

Open Scope Z_scope.
Open Scope list_scope.

Definition MAX_PACKAGE_COUNT : nat := 25.
Definition MAX_PACKAGE_WEIGHT : Z := 404000.

Inductive PackageValidationResult : Type :=
  | PCKG_RESULT_UNSET
  | PCKG_POLICY
  | PCKG_TX
  | PCKG_MEMPOOL_ERROR.

(** [None] while the package is valid. *)
Definition PackageValidationState : Type := option (PackageValidationResult * string).

(** [MempoolAcceptResult], without the sizes, fees and fee rates it repeats. *)
Inductive MempoolAcceptResult : Type :=
  | Success (ws : Workspace)
  | Failure (r : TxValidationResult) (reason : string)
  | MempoolTx
  | MempoolTxDifferentWitness (wtxid : list Z).

Record PackageMempoolAcceptResult : Type := {
  m_state : PackageValidationState;
  m_tx_results : gmap (list Z) MempoolAcceptResult
}.

(** [std::map::emplace], which keeps what is there. *)
Definition emplace (k : list Z) (v : MempoolAcceptResult) (m : gmap (list Z) MempoolAcceptResult) : gmap (list Z) MempoolAcceptResult :=
  match m !! k with Some _ => m | None => <[k := v]> m end.

Section Package.
Context `{Crypto} `{Curve}.

(** ** Checks without context *)

(** [std::accumulate] from the [int] 0. *)
Definition total_weight (txns : list CTransaction) : Z :=
  foldl (fun sum tx => to_int32 (sum + GetTransactionWeight tx)) 0 txns.

Fixpoint package_sorted (later_txids : list (list Z)) (txns : list CTransaction) : bool :=
  match txns with
  | [] => true
  | tx :: txns =>
      negb (existsb (fun i => bool_decide (op_hash (prevout i) ∈ later_txids)) (vin tx)) &&
      package_sorted (filter (fun h => h <> GetHash tx) later_txids) txns
  end.

Fixpoint package_conflict_free (inputs_seen : list COutPoint) (txns : list CTransaction) : bool :=
  match txns with
  | [] => true
  | tx :: txns =>
      negb (existsb (fun i => bool_decide (prevout i ∈ inputs_seen)) (vin tx)) &&
      package_conflict_free ((prevout <$> vin tx) ++ inputs_seen) txns
  end.

Definition CheckPackage (txns : list CTransaction) : PackageValidationState :=
  let later_txids := GetHash <$> txns in
  if (MAX_PACKAGE_COUNT <? length txns)%nat then Some (PCKG_POLICY, "package-too-many-transactions")
  else if (1 <? length txns)%nat && (MAX_PACKAGE_WEIGHT <? total_weight txns) then Some (PCKG_POLICY, "package-too-large")
  else if negb (bool_decide (NoDup later_txids)) then Some (PCKG_POLICY, "package-contains-duplicates")
  else if negb (package_sorted later_txids txns) then Some (PCKG_POLICY, "package-not-sorted")
  else if negb (package_conflict_free [] txns) then Some (PCKG_POLICY, "conflict-in-package")
  else None.

(** The parents, and the child that comes last. *)
Definition split_child (package : list CTransaction) : option (list CTransaction * CTransaction) :=
  child ← last package; Some (removelast package, child).

Definition IsChildWithParents (package : list CTransaction) : bool :=
  if (length package <? 2)%nat then false else
  match split_child package with
  | None => false
  | Some (parents, child) => forallb (fun tx => bool_decide (GetHash tx ∈ ((fun i => op_hash (prevout i)) <$> vin child))) parents
  end.

(** ** Several transactions at once *)

(** [m_temp_added], and what the view shows over it. *)
Definition PackageAddTransaction (temp : list (COutPoint * Coin)) (tx : CTransaction) : list (COutPoint * Coin) :=
  temp ++ imap (fun n o => ({| op_hash := GetHash tx; op_n := Z.of_nat n |},
    {| coin_out := o; nHeight := MEMPOOL_HEIGHT; fCoinBase := false; fCoinStake := false; coin_nTime := nTime tx |})) (vout tx).

Definition package_view (temp : list (COutPoint * Coin)) (pool : list CTransaction) (base : CCoinsView) : CCoinsView := fun outpoint =>
  match List.find (fun e => bool_decide (e.1 = outpoint)) temp with
  | Some e => Some e.2
  | None => mempool_view pool base outpoint
  end.

(** A transaction, the coins that [m_view] cached for it, and its workspace. *)
Record Candidate : Type := { m_ptx : CTransaction; m_coins : CCoinsView; m_ws : Workspace }.

(** A transaction that failed. *)
Definition failure : Type := option (CTransaction * MempoolAcceptResult).

Fixpoint package_prechecks (node : NodeState) (args : ATMPArgs) (pool : list CTransaction) (temp : list (COutPoint * Coin))
    (txns : list CTransaction) : option (list Candidate * failure) :=
  match txns with
  | [] => Some ([], None)
  | tx :: txns =>
      let view := package_view temp pool (coins_tip node) in
      match PreChecks node args view pool tx with
      | Crash => None
      | Invalid r reason => Some ([], Some (tx, Failure r reason))
      | Valid ws =>
          if m_allow_replacement args then None else
          '(l, failed) ← package_prechecks node args pool (PackageAddTransaction temp tx) txns;
          Some ({| m_ptx := tx; m_coins := view; m_ws := ws |} :: l, failed)
      end
  end.

(** The candidates that pass, with what was computed for their signatures, up
    to one that fails. *)
Fixpoint package_scripts (node : NodeState) (l : list Candidate) : option (list (Candidate * PrecomputedTransactionData) * failure) :=
  match l with
  | [] => Some ([], None)
  | c :: l =>
      match PolicyScriptChecks node (m_coins c) (m_ptx c) with
      | Crash => None
      | Invalid r reason => Some ([], Some (m_ptx c, Failure r reason))
      | Valid d =>
          '(done, failed) ← package_scripts node l;
          Some ((c, d) :: done, failed)
      end
  end.

Definition not_in_pool (pool : list CTransaction) (txns : list CTransaction) : bool :=
  forallb (fun tx => negb (bool_decide (is_Some (pool_get pool (GetHash tx))))) txns.

Definition PackageMempoolChecks (node : NodeState) (pool txns : list CTransaction) (total_vsize : Z) : option PackageValidationState :=
  if negb (not_in_pool pool txns) then None
  else Some (if package_within node pool txns total_vsize then None else Some (PCKG_POLICY, "package-mempool-limits")).

(** The loop of [SubmitPackage]: a failure is recorded, and the transaction goes
    in all the same. *)
Fixpoint submit_all (node : NodeState) (args : ATMPArgs) (pool : list CTransaction) (state : PackageValidationState)
    (results : gmap (list Z) MempoolAcceptResult) (l : list (Candidate * PrecomputedTransactionData)) :
    option (list CTransaction * PackageValidationState * gmap (list Z) MempoolAcceptResult) :=
  match l with
  | [] => Some (pool, state, results)
  | (c, d) :: l =>
      let tx := m_ptx c in
      '(state, results) ←
        match ConsensusScriptChecks node (m_coins c) pool tx d with
        | Crash => None
        | Invalid r reason =>
            Some (Some (PCKG_MEMPOOL_ERROR, "BUG! PolicyScriptChecks succeeded but ConsensusScriptChecks failed"),
                  emplace (GetWitnessHash tx) (Failure r reason) results)
        | Valid _ => Some (state, results)
        end;
      let '(state, results) :=
        if ancestors_within node pool tx (limits node) then (state, results)
        else (Some (PCKG_MEMPOOL_ERROR, "BUG! Mempool ancestors or descendants were underestimated"),
              emplace (GetWitnessHash tx) (Failure TX_RESULT_UNSET "") results) in
      let '(pool, m) := Finalize node args pool tx in
      '(state, results) ←
        match m with
        | Crash => None
        | Invalid r reason =>
            Some (Some (PCKG_MEMPOOL_ERROR, "BUG! Adding to mempool failed"), emplace (GetWitnessHash tx) (Failure r reason) results)
        | Valid _ => Some (state, results)
        end;
      submit_all node args pool state results l
  end.

Definition succeed (l : list Candidate) (results : gmap (list Z) MempoolAcceptResult) : gmap (list Z) MempoolAcceptResult :=
  foldl (fun results c => emplace (GetWitnessHash (m_ptx c)) (Success (m_ws c)) results) results l.

Definition SubmitPackage (node : NodeState) (args : ATMPArgs) (pool : list CTransaction) (l : list (Candidate * PrecomputedTransactionData)) :
    option (list CTransaction * PackageMempoolAcceptResult) :=
  if negb (not_in_pool pool ((fun e => m_ptx e.1) <$> l)) then None else
  '(pool, state, results) ← submit_all node args pool None ∅ l;
  Some (pool, {| m_state := state; m_tx_results := succeed (fst <$> l) results |}).

Definition tx_failed (results : gmap (list Z) MempoolAcceptResult) (f : CTransaction * MempoolAcceptResult) : PackageMempoolAcceptResult := {|
  m_state := Some (PCKG_TX, "transaction failed"); m_tx_results := emplace (GetWitnessHash f.1) f.2 results
|}.

Definition AcceptMultipleTransactions (node : NodeState) (args : ATMPArgs) (pool txns : list CTransaction) :
    option (list CTransaction * PackageMempoolAcceptResult) :=
  let quit state := Some (pool, {| m_state := state; m_tx_results := ∅ |}) in
  match CheckPackage txns with
  | Some e => quit (Some e)
  | None =>
      '(l, failed) ← package_prechecks node args pool [] txns;
      match failed with
      | Some f => Some (pool, tx_failed ∅ f)
      | None =>
          let total_vsize := foldl (fun sum c => sum + m_vsize (m_ws c)) 0 l in
          let total_modified_fees := foldl (fun sum c => sum + m_modified_fees (m_ws c)) 0 l in
          let fee_too_low := match CheckFeeRate node total_vsize total_modified_fees with Valid _ => false | _ => true end in
          if m_package_feerates args && fee_too_low then quit (Some (PCKG_POLICY, "package-fee-too-low")) else
          limits ← (if (1 <? length txns)%nat then PackageMempoolChecks node pool txns total_vsize else Some None);
          match limits with
          | Some e => quit (Some e)
          | None =>
              '(passed, failed) ← package_scripts node l;
              let results := if m_test_accept args then succeed (fst <$> passed) ∅ else ∅ in
              match failed with
              | Some f => Some (pool, tx_failed results f)
              | None =>
                  if m_test_accept args then Some (pool, {| m_state := None; m_tx_results := results |})
                  else SubmitPackage node args pool passed
              end
          end
      end
  end.

(** A single transaction of a package. *)
Definition accept_alone (node : NodeState) (args : ATMPArgs) (pool : list CTransaction) (tx : CTransaction) :
    option (list CTransaction * MempoolAcceptResult) :=
  match AcceptSingleTransaction node (SingleInPackageAccept args) pool tx with
  | (pool, Valid ws) => Some (pool, Success ws)
  | (pool, Invalid r reason) => Some (pool, Failure r reason)
  | (_, Crash) => None
  end.

Definition AcceptSubPackage (node : NodeState) (args : ATMPArgs) (pool subpackage : list CTransaction) :
    option (list CTransaction * PackageMempoolAcceptResult) :=
  match subpackage with
  | [tx] =>
      '(pool, res) ← accept_alone node args pool tx;
      Some (pool, {| m_state := match res with Success _ => None | _ => Some (PCKG_TX, "transaction failed") end;
                     m_tx_results := {[GetWitnessHash tx := res]} |})
  | [] => None
  | _ => AcceptMultipleTransactions node args pool subpackage
  end.

(** ** A child with its parents *)

(** The variables of the loop of [AcceptPackage] over the transactions. *)
Record PackageLoop : Type := {
  l_pool : list CTransaction;
  results_final : gmap (list Z) MempoolAcceptResult;
  individual_results_nonfinal : gmap (list Z) MempoolAcceptResult;
  quit_early : bool;
  txns_package_eval : list CTransaction
}.

Definition add_final (k : list Z) (v : MempoolAcceptResult) (s : PackageLoop) : PackageLoop := {|
  l_pool := l_pool s; results_final := emplace k v (results_final s); individual_results_nonfinal := individual_results_nonfinal s;
  quit_early := quit_early s; txns_package_eval := txns_package_eval s
|}.

Definition in_pool_wtxid (pool : list CTransaction) (wtxid : list Z) : bool := existsb (fun t => bool_decide (GetWitnessHash t = wtxid)) pool.

(** The body of that loop. *)
Definition try_single (node : NodeState) (args : ATMPArgs) (s : PackageLoop) (tx : CTransaction) : option PackageLoop :=
  let wtxid := GetWitnessHash tx in
  if in_pool_wtxid (l_pool s) wtxid then
    _ ← pool_get (l_pool s) (GetHash tx);
    Some (add_final wtxid MempoolTx s)
  else
  match pool_get (l_pool s) (GetHash tx) with
  | Some t => Some (add_final wtxid (MempoolTxDifferentWitness (GetWitnessHash t)) s)
  | None =>
      '(pool, sub) ← AcceptSubPackage node args (l_pool s) [tx];
      single_res ← m_tx_results sub !! wtxid;
      match single_res with
      | Success _ =>
          if negb (in_pool_wtxid pool wtxid) then None
          else Some {| l_pool := pool; results_final := emplace wtxid single_res (results_final s);
                       individual_results_nonfinal := individual_results_nonfinal s; quit_early := quit_early s; txns_package_eval := txns_package_eval s |}
      | Failure TX_MEMPOOL_POLICY _ | Failure TX_MISSING_INPUTS _ =>
          Some {| l_pool := pool; results_final := results_final s;
                  individual_results_nonfinal := emplace wtxid single_res (individual_results_nonfinal s);
                  quit_early := quit_early s; txns_package_eval := txns_package_eval s ++ [tx] |}
      | _ =>
          Some {| l_pool := pool; results_final := results_final s;
                  individual_results_nonfinal := emplace wtxid single_res (individual_results_nonfinal s);
                  quit_early := true; txns_package_eval := txns_package_eval s |}
      end
  end.

Fixpoint try_singly (node : NodeState) (args : ATMPArgs) (s : PackageLoop) (package : list CTransaction) : option PackageLoop :=
  match package with
  | [] => Some s
  | tx :: package => s ← try_single node args s tx; try_singly node args s package
  end.

Definition mempool_full : MempoolAcceptResult := Failure TX_MEMPOOL_POLICY "mempool full".
Definition evicted_state : PackageValidationState := Some (PCKG_TX, "transaction failed").

(** The body of the loop after eviction, over the state of the package and the
    final results. *)
Definition final_result (pool : list CTransaction) (multi individual : gmap (list Z) MempoolAcceptResult)
    (s : PackageValidationState * gmap (list Z) MempoolAcceptResult) (tx : CTransaction) :
    PackageValidationState * gmap (list Z) MempoolAcceptResult :=
  let '(state, results) := s in
  let wtxid := GetWitnessHash tx in
  match multi !! wtxid with
  | Some (Success _ as txresult) =>
      if in_pool_wtxid pool wtxid then (state, emplace wtxid txresult results)
      else (evicted_state, emplace wtxid mempool_full results)
  | Some txresult => (state, emplace wtxid txresult results)
  | None =>
      match results !! wtxid with
      | Some _ =>
          if bool_decide (is_Some (pool_get pool (GetHash tx))) then s
          else (evicted_state, <[wtxid := mempool_full]> results)
      | None => match individual !! wtxid with Some r => (state, emplace wtxid r results) | None => s end
      end
  end.

Definition final_results (pool : list CTransaction) (multi : PackageMempoolAcceptResult) (s : PackageLoop) (package : list CTransaction) :
    PackageMempoolAcceptResult :=
  let r := foldl (final_result pool (m_tx_results multi) (individual_results_nonfinal s)) (m_state multi, results_final s) package in
  {| m_state := r.1; m_tx_results := r.2 |}.

Definition package_or_confirmed (node : NodeState) (parents : list CTransaction) (child : CTransaction) : bool :=
  forallb (fun i => bool_decide (op_hash (prevout i) ∈ (GetHash <$> parents)) || bool_decide (is_Some (coins_tip node (prevout i)))) (vin child).

(** [multi_submission_result] *)
Definition package_eval (node : NodeState) (args : ATMPArgs) (s : PackageLoop) : option (list CTransaction * PackageMempoolAcceptResult) :=
  if quit_early s then Some (l_pool s, {| m_state := Some (PCKG_TX, "transaction failed"); m_tx_results := ∅ |})
  else match txns_package_eval s with
       | [] => Some (l_pool s, {| m_state := None; m_tx_results := ∅ |})
       | txns => AcceptSubPackage node args (l_pool s) txns
       end.

Definition AcceptPackage (node : NodeState) (args : ATMPArgs) (pool package : list CTransaction) :
    option (list CTransaction * PackageMempoolAcceptResult) :=
  let quit state := Some (pool, {| m_state := state; m_tx_results := ∅ |}) in
  match CheckPackage package with
  | Some e => quit (Some e)
  | None =>
      if negb (IsChildWithParents package) then quit (Some (PCKG_POLICY, "package-not-child-with-parents")) else
      '(parents, child) ← split_child package;
      if negb (package_or_confirmed node parents child)
      then quit (Some (PCKG_POLICY, "package-not-child-with-unconfirmed-parents")) else
      s ← try_singly node args {| l_pool := pool; results_final := ∅; individual_results_nonfinal := ∅; quit_early := false; txns_package_eval := [] |} package;
      '(pool, multi) ← package_eval node args s;
      let pool := evict node pool in
      Some (pool, final_results pool multi s package)
  end.

Definition ProcessNewPackage (node : NodeState) (test_accept : bool) (pool package : list CTransaction) :
    option (list CTransaction * PackageMempoolAcceptResult) :=
  match package with
  | [] => None
  | _ =>
      if test_accept then AcceptMultipleTransactions node PackageTestAccept pool package
      else AcceptPackage node PackageChildWithParents pool package
  end.

End Package.

(** ** No double spends *)

Section Facts.
Context `{Crypto} `{Curve}.

Lemma package_conflict_free_cons seen tx txns :
  package_conflict_free seen (tx :: txns) = true ->
  Forall (fun i => prevout i ∉ seen) (vin tx) /\ package_conflict_free ((prevout <$> vin tx) ++ seen) txns = true.
Proof.
  cbn [package_conflict_free]. rewrite andb_true_iff, negb_true_iff. intros [Hx Hr]. split; [|done].
  apply existsb_false_Forall in Hx. eapply Forall_impl; [exact Hx|]. intros i Hi. by apply bool_decide_eq_false in Hi.
Qed.

Lemma CheckPackage_conflict_free txns : CheckPackage txns = None -> package_conflict_free [] txns = true.
Proof. unfold CheckPackage. do 4 (case_match; [done|]). by destruct (package_conflict_free [] txns). Qed.

(** What is known of a candidate: it passed [PreChecks] over the pool. *)
Definition candidate_ok (pool : list CTransaction) (tx : CTransaction) : Prop :=
  tx_sound tx /\ Forall (fun i => prevout i ∉ pool_spends pool) (vin tx).

Lemma package_prechecks_ok node args pool txns temp l :
  package_prechecks node args pool temp txns = Some (l, None) -> m_ptx <$> l = txns /\ Forall (candidate_ok pool) txns.
Proof.
  revert temp l. induction txns as [|tx txns IH]; intros temp l; cbn [package_prechecks]; [intros [= <-]; by split|].
  destruct (PreChecks _ _ _ _ tx) as [ws| |] eqn:Hpre; [|done|done]. destruct (m_allow_replacement args); [done|].
  destruct (package_prechecks _ _ _ _ txns) as [[l' failed]|] eqn:E; [|done]. cbn. intros [= <- ->].
  destruct (IH _ _ E) as [<- Hall]. split; [done|]. constructor; [|done].
  by apply PreChecks_inv in Hpre as (? & _ & ? & _).
Qed.

Lemma package_scripts_ok node l passed : package_scripts node l = Some (passed, None) -> fst <$> passed = l.
Proof.
  revert passed. induction l as [|c l IH]; intros passed; cbn [package_scripts]; [by intros [= <-]|].
  destruct (PolicyScriptChecks _ _ _); [|done|done]. destruct (package_scripts node l) as [[p f]|] eqn:E; [|done].
  cbn. intros [= <- ->]. by rewrite fmap_cons, (IH p eq_refl).
Qed.

Lemma Finalize_pool node args pool tx : (Finalize node args pool tx).1 = tx :: pool \/ (Finalize node args pool tx).1 = evict node (tx :: pool).
Proof. unfold Finalize. destruct (_ || _); [by left|by right]. Qed.

Section Evict.
Context (node : NodeState) (Hevict : forall l, evict node l `sublist_of` l).

Lemma Finalize_ok args pool tx : pool_ok pool -> candidate_ok pool tx ->
  pool_ok (Finalize node args pool tx).1 /\
  forall p, p ∈ pool_spends (Finalize node args pool tx).1 -> p ∈ (prevout <$> vin tx) \/ p ∈ pool_spends pool.
Proof.
  intros Hp Htx. assert (pool_ok (tx :: pool)) as Hall by (by apply pool_ok_cons).
  assert ((Finalize node args pool tx).1 `sublist_of` tx :: pool) as Hsub by (destruct (Finalize_pool node args pool tx) as [-> | ->]; [done|apply Hevict]).
  split; [by eapply pool_ok_sublist|]. intros p Hin. apply elem_of_app.
  change ((prevout <$> vin tx) ++ pool_spends pool) with (pool_spends (tx :: pool)).
  eapply elem_of_submseteq; [exact Hin|]. by apply sublist_submseteq, sublist_join.
Qed.

(** [base] is the pool when the candidates were checked, [seen] what the ones
    submitted since then spend. *)
Lemma submit_all_ok args base seen l pool state results r :
  pool_ok pool -> (forall p, p ∈ pool_spends pool -> p ∈ seen \/ p ∈ pool_spends base) ->
  Forall (candidate_ok base) ((fun e => m_ptx e.1) <$> l) -> package_conflict_free seen ((fun e => m_ptx e.1) <$> l) = true ->
  submit_all node args pool state results l = Some r -> pool_ok r.1.1.
Proof.
  revert seen pool state results. induction l as [|[c d] l IH]; intros seen pool state results Hpool Hseen; rewrite ?fmap_cons; cbn [submit_all fst].
  - by intros _ _ [= <-].
  - intros [Hc Hl]%Forall_cons_1 [Hfree Hfrees]%package_conflict_free_cons.
    destruct (match ConsensusScriptChecks _ _ _ _ _ with Valid _ => _ | _ => _ end) as [[s1 r1]|]; [|done]. cbn [mbind option_bind].
    destruct (if ancestors_within _ _ _ _ then _ else _) as [s2 r2]. destruct (Finalize node args pool (m_ptx c)) as [pool' m] eqn:E.
    destruct (match m with Valid _ => _ | _ => _ end) as [[s3 r3]|]; [|done]. cbn [mbind option_bind].
    assert (candidate_ok pool (m_ptx c)) as Hcand.
    { destruct Hc as [Hs Hb]. split; [done|]. rewrite Forall_forall in *. intros i Hi [Hx|Hx]%Hseen; [by apply (Hfree i)|by apply (Hb i)]. }
    destruct (Finalize_ok args pool (m_ptx c) Hpool Hcand) as [Hok Hsp]. rewrite E in Hok, Hsp.
    apply (IH ((prevout <$> vin (m_ptx c)) ++ seen)); [done| |done|done].
    intros p [Hp|[Hp|Hp]%Hseen]%Hsp; rewrite elem_of_app; tauto.
Qed.

Lemma AcceptMultiple_ok args pool txns pool' r :
  pool_ok pool -> AcceptMultipleTransactions node args pool txns = Some (pool', r) -> pool_ok pool'.
Proof.
  intros Hpool. unfold AcceptMultipleTransactions. destruct (CheckPackage txns) eqn:Hcheck; [by intros [= <- _]|].
  apply CheckPackage_conflict_free in Hcheck.
  destruct (package_prechecks _ _ _ _ _) as [[l [f|]]|] eqn:Hpre; [by intros [= <- _]| |done]. cbn [mbind option_bind].
  apply package_prechecks_ok in Hpre as [<- Hall]. destruct (m_package_feerates args && _); [by intros [= <- _]|].
  destruct (if (_ <? _)%nat then _ else _) as [[e|]|]; [by intros [= <- _]| |done]. cbn [mbind option_bind].
  destruct (package_scripts node l) as [[passed [f|]]|] eqn:Hs; [by intros [= <- _]| |done]. cbn [mbind option_bind].
  apply package_scripts_ok in Hs as <-. destruct (m_test_accept args); [by intros [= <- _]|]. unfold SubmitPackage.
  destruct (negb _); [done|]. destruct (submit_all _ _ _ _ _ _) as [[[p s] rs]|] eqn:Hsub; [|done]. cbn. intros [= <- _].
  rewrite <-list_fmap_compose in Hall, Hcheck. eapply (submit_all_ok args pool []) in Hsub; [exact Hsub|done|by right|done|done].
Qed.

Lemma AcceptSingle_ok args pool tx : pool_ok pool -> pool_ok (AcceptSingleTransaction node args pool tx).1.
Proof.
  intros Hp. destruct (Accept_pool node args pool tx) as [-> | [[ws Hpre] [-> | ->]]]; [done|by eapply pool_ok_accept|].
  eapply pool_ok_sublist; [apply Hevict|]. by eapply pool_ok_accept.
Qed.

Lemma AcceptSubPackage_ok args pool txns pool' r : pool_ok pool -> AcceptSubPackage node args pool txns = Some (pool', r) -> pool_ok pool'.
Proof.
  intros Hp. destruct txns as [|tx [|tx' txns]]; [done| |by apply AcceptMultiple_ok]. cbn [AcceptSubPackage]. unfold accept_alone.
  pose proof (AcceptSingle_ok (SingleInPackageAccept args) pool tx Hp) as Hok.
  destruct (AcceptSingleTransaction _ _ _ _) as [p [ws|v reason|]]; [| |done]; cbn; by intros [= <- _].
Qed.

Lemma try_single_ok args s tx s' : pool_ok (l_pool s) -> try_single node args s tx = Some s' -> pool_ok (l_pool s').
Proof.
  intros Hp. unfold try_single. destruct (in_pool_wtxid _ _); [destruct (pool_get _ _); [|done]; cbn; by intros [= <-]|].
  destruct (pool_get _ _); [by intros [= <-]|]. destruct (AcceptSubPackage _ _ _ _) as [[p sub]|] eqn:E; [|done]. cbn [mbind option_bind].
  apply AcceptSubPackage_ok in E; [|done]. destruct (m_tx_results sub !! _) as [[ws|v reason| |w]|]; [| | | |done]; cbn [mbind option_bind].
  - destruct (negb _); [done|]. by intros [= <-].
  - destruct v; by intros [= <-].
  - by intros [= <-].
  - by intros [= <-].
Qed.

Lemma try_singly_ok args package s s' : pool_ok (l_pool s) -> try_singly node args s package = Some s' -> pool_ok (l_pool s').
Proof.
  revert s. induction package as [|tx package IH]; intros s Hp; cbn [try_singly]; [by intros [= <-]|].
  destruct (try_single node args s tx) as [s1|] eqn:E; [|done]. cbn. apply IH. by eapply try_single_ok.
Qed.

Lemma AcceptPackage_ok args pool package pool' r : pool_ok pool -> AcceptPackage node args pool package = Some (pool', r) -> pool_ok pool'.
Proof.
  intros Hp. unfold AcceptPackage. destruct (CheckPackage package); [by intros [= <- _]|]. destruct (negb _); [by intros [= <- _]|].
  destruct (split_child package) as [[parents child]|]; [|done]. cbn [mbind option_bind]. destruct (negb _); [by intros [= <- _]|].
  destruct (try_singly _ _ _ _) as [s|] eqn:E; [|done]. cbn [mbind option_bind]. apply try_singly_ok in E; [|done].
  destruct (package_eval node args s) as [[p multi]|] eqn:Em; [|done]. cbn. intros [= <- _].
  eapply pool_ok_sublist; [apply Hevict|]. unfold package_eval in Em. destruct (quit_early s); [by injection Em as <- _|].
  destruct (txns_package_eval s); [by injection Em as <- _|]. by eapply AcceptSubPackage_ok.
Qed.

Lemma ProcessNewPackage_ok test pool package pool' r : pool_ok pool -> ProcessNewPackage node test pool package = Some (pool', r) -> pool_ok pool'.
Proof.
  intros Hp. destruct package; [done|]. cbn [ProcessNewPackage]. destruct test; [by apply AcceptMultiple_ok|by apply AcceptPackage_ok].
Qed.

End Evict.

(** The life of a pool: transactions are offered, alone or in packages, and any of
    them may leave, as they are confirmed, expire or conflict with a block. *)
Inductive reachable : list CTransaction -> Prop :=
  | reachable_empty : reachable []
  | reachable_offer node args pool tx :
      (forall l, evict node l `sublist_of` l) -> reachable pool -> reachable (AcceptSingleTransaction node args pool tx).1
  | reachable_package node test pool package pool' r :
      (forall l, evict node l `sublist_of` l) -> reachable pool -> ProcessNewPackage node test pool package = Some (pool', r) -> reachable pool'
  | reachable_leave pool pool' : reachable pool -> pool' `sublist_of` pool -> reachable pool'.

End Facts.

(** C6: However transactions are offered to a node, one by one or in packages,
    and leave it, with whatever options, chain and policy, no coin is ever spent
    by two inputs of its memory pool, and every transaction there is sound by
    itself. *)
Theorem mempool_never_double_spends `{Crypto} `{CU : Curve} pool : reachable pool -> pool_ok pool.
Proof.
  induction 1 as [|node args pool tx Hev _ IH|node test pool package pool' r Hev _ IH Hr|pool pool' _ IH Hsub].
  - split; [by apply Forall_nil_2|constructor].
  - by apply AcceptSingle_ok.
  - by eapply ProcessNewPackage_ok.
  - by eapply pool_ok_sublist.
Qed.

(** A node that asks for more than the least fee, and a parent that it refuses
    alone but takes with its child. *)
Definition ex_dear_node : NodeState := {|
  params := params ex_node; adjusted_time := adjusted_time ex_node; tip_height := tip_height ex_node; tip_median_time := tip_median_time ex_node;
  median_time_past := median_time_past ex_node; segwit_active := true; block_flags := block_flags ex_node; prematurewitness := false;
  coins_tip := fun p => if bool_decide (op_hash p = replicate 32 7) then ex_coins p else None; in_cache := fun _ => false; require_standard := false;
  settings := settings ex_node; min_relay_feerate := 150000; bytes_per_sigop := 20; fee_delta := fun _ => 0; limits := limits ex_node;
  ancestors_within := fun _ _ _ => true; package_within := fun _ _ _ => true; evict := fun l => l; cache_prefix := []; cache_contains := fun _ => false
|}.
Definition ex_parent : CTransaction := {|
  nVersion := 2; nTime := 0; nLockTime := 0; vin := vin ex_spend;
  vout := [{| nValue := 38000; out_scriptPubKey := [OP_1] |}; {| nValue := 2000; out_scriptPubKey := p2pkh_script (replicate 20 1) |}]
|}.
Definition ex_child : CTransaction := {|
  nVersion := 2; nTime := 0; nLockTime := 0;
  vin := [{| prevout := {| op_hash := @GetHash small_crypto ex_parent; op_n := 0 |}; in_scriptSig := []; nSequence := 0xfffffffd; scriptWitness := [] |}];
  vout := [{| nValue := 8000; out_scriptPubKey := p2pkh_script (replicate 20 1) |}]
|}.

Lemma mempool_never_double_spends_witness :
  @AcceptSingleTransaction small_crypto toy_curve ex_dear_node (SingleAccept false false) [] ex_parent = ([], Invalid TX_MEMPOOL_POLICY "min relay fee not met") /\
  fst <$> @ProcessNewPackage small_crypto toy_curve ex_dear_node false [] [ex_parent; ex_child] = Some [ex_child; ex_parent] /\
  pool_ok [ex_child; ex_parent].
Proof.
  split; [vm_compute; reflexivity|].
  destruct (@ProcessNewPackage small_crypto toy_curve ex_dear_node false [] [ex_parent; ex_child]) as [[pool r]|] eqn:E.
  - assert (pool = [ex_child; ex_parent]) as -> by (revert E; vm_compute; congruence).
    split; [reflexivity|]. apply (@mempool_never_double_spends small_crypto toy_curve).
    eapply reachable_package; [|apply reachable_empty|exact E]. intros l. reflexivity.
  - exfalso. revert E. vm_compute. discriminate.
Defined.
