(* ===== verification/Admission.v ===== *)
(** * Plain payments and the rules of the memory pool

    What [MemPoolAccept] makes of the transactions the wallet builds: inputs that
    push a signature and a key, outputs to a key hash or a script hash, no
    witness, no lock time.  Each check of [PreChecks] is settled in turn. *)

From S2P Require Import Prelude Digits JsString Bytes Crypto JsInt Tx NodeTx ScriptError NodeScript ScriptNum Interpreter InterpFacts Verify VerifyFacts InterpSafe Spend SoftFork Validation CheckInputs JsNum NodeFee ConsensusParams TxCheck Policy Mempool.

Open Scope Z_scope.
Open Scope list_scope.

(** ** Plain inputs and outputs *)

Definition plain_txin (i : CTxIn) : Prop :=
  IsPushOnly (in_scriptSig i) = true /\ (44 <= length (in_scriptSig i) <= 107)%nat /\ nSequence i = 0xfffffffd /\
  scriptWitness i = [] /\ length (op_hash (prevout i)) = 32%nat /\ IsNullOutPoint (prevout i) = false.

Definition p2wpkh_script (h : list Z) : list Z := [0; 20] ++ h.

(** An output of at least the given value to a key hash, a script hash or a
    witness key hash: the kinds of addresses the wallet pays. *)
Definition pays_hash (least : Z) (o : CTxOut) : Prop :=
  least <= nValue o /\ exists h, length h = 20%nat /\
    (out_scriptPubKey o = p2pkh_script h \/ out_scriptPubKey o = p2sh_script h \/ out_scriptPubKey o = p2wpkh_script h).

(** ** Scripts *)

(** A list of twenty bytes, element by element. *)
Ltac twenty h Hh := do 20 (destruct h as [|? h]; [done|]); destruct h; [|done]; clear Hh.

Lemma solver_p2pkh h : length h = 20%nat -> Solver (p2pkh_script h) = (PUBKEYHASH, [h]).
Proof. intros Hh. twenty h Hh. reflexivity. Qed.

Lemma solver_p2sh h : length h = 20%nat -> Solver (p2sh_script h) = (SCRIPTHASH, [h]).
Proof. intros Hh. twenty h Hh. reflexivity. Qed.

Lemma solver_p2wpkh h : length h = 20%nat -> Solver (p2wpkh_script h) = (WITNESS_V0_KEYHASH, [h]).
Proof. intros Hh. twenty h Hh. reflexivity. Qed.

Lemma sigops_p2wpkh h accurate : length h = 20%nat -> GetSigOpCount accurate (p2wpkh_script h) = 0.
Proof. intros Hh. twenty h Hh. reflexivity. Qed.

Lemma sigops_p2pkh h accurate : length h = 20%nat -> GetSigOpCount accurate (p2pkh_script h) = 1.
Proof. intros Hh. twenty h Hh. reflexivity. Qed.

Lemma sigops_p2sh h accurate : length h = 20%nat -> GetSigOpCount accurate (p2sh_script h) = 0.
Proof. intros Hh. twenty h Hh. reflexivity. Qed.

Lemma sigops_push_only fuel accurate last pc : push_only_loop fuel pc = true -> (length pc <= fuel)%nat -> sigops fuel accurate last pc = 0.
Proof.
  revert last pc. induction fuel as [|fuel IH]; intros last [|b pc] Hp Hl; try done. cbn [push_only_loop sigops] in *.
  destruct (GetScriptOp (b :: pc)) as [[[ok opcode] data] pc'] eqn:Eg. destruct ok; [|done]. cbn [negb] in *.
  destruct (OP_16 <? opcode) eqn:Eo; [done|]. apply GetScriptOp_shorter in Eg. simpl in Eg, Hl. rewrite IH by (done || lia).
  apply Z.ltb_ge in Eo. unfold OP_16, OP_CHECKSIG, OP_CHECKSIGVERIFY, OP_CHECKMULTISIG, OP_CHECKMULTISIGVERIFY in *.
  rewrite !(proj2 (Z.eqb_neq opcode _)) by lia. done.
Qed.

Lemma GetSigOpCount_push_only accurate s : IsPushOnly s = true -> GetSigOpCount accurate s = 0.
Proof. intros Hp. by apply sigops_push_only. Qed.

(** ** Dust *)

Lemma GetFee_100 n : 0 <= n < 2 ^ 32 -> GetFee 100000 n = 100 * n.
Proof.
  intros Hn. rewrite GetFee_rounds_up by lia. replace (100000 * n + 999) with (999 + 100 * n * 1000) by lia.
  rewrite Z.div_add by lia. change (999 / 1000) with 0. lia.
Qed.

Lemma dust_p2pkh v h : length h = 20%nat -> GetDustThreshold {| nValue := v; out_scriptPubKey := p2pkh_script h |} DUST_RELAY_TX_FEE = 18200.
Proof.
  intros Hh. unfold GetDustThreshold. cbn [out_scriptPubKey]. destruct (p2pkh_not_program h Hh) as [-> _].
  assert (length (write_txout {| nValue := v; out_scriptPubKey := p2pkh_script h |}) = 34%nat) as ->.
  { unfold write_txout, write_blob. cbn [nValue out_scriptPubKey]. rewrite length_app, length_le. twenty h Hh. reflexivity. }
  assert (IsUnspendable (p2pkh_script h) = false) as -> by (twenty h Hh; reflexivity).
  apply (GetFee_100 182). lia.
Qed.

Lemma dust_p2sh v h : length h = 20%nat -> GetDustThreshold {| nValue := v; out_scriptPubKey := p2sh_script h |} DUST_RELAY_TX_FEE = 18000.
Proof.
  intros Hh. unfold GetDustThreshold. cbn [out_scriptPubKey]. destruct (p2sh_is_p2sh h Hh) as [_ ->].
  assert (length (write_txout {| nValue := v; out_scriptPubKey := p2sh_script h |}) = 32%nat) as ->.
  { unfold write_txout, write_blob. cbn [nValue out_scriptPubKey]. rewrite length_app, length_le. twenty h Hh. reflexivity. }
  assert (IsUnspendable (p2sh_script h) = false) as -> by (twenty h Hh; reflexivity).
  apply (GetFee_100 180). lia.
Qed.

Lemma dust_p2wpkh v h : length h = 20%nat -> GetDustThreshold {| nValue := v; out_scriptPubKey := p2wpkh_script h |} DUST_RELAY_TX_FEE = 9800.
Proof.
  intros Hh. unfold GetDustThreshold. cbn [out_scriptPubKey].
  assert (length (write_txout {| nValue := v; out_scriptPubKey := p2wpkh_script h |}) = 31%nat) as ->.
  { unfold write_txout, write_blob. cbn [nValue out_scriptPubKey]. rewrite length_app, length_le. twenty h Hh. reflexivity. }
  assert (IsUnspendable (p2wpkh_script h) = false) as -> by (twenty h Hh; reflexivity).
  assert (exists p, IsWitnessProgram (p2wpkh_script h) = Some p) as (p & ->) by (twenty h Hh; eexists; reflexivity).
  apply (GetFee_100 98). lia.
Qed.

(** The least value of an output to a key hash that the node relays. *)
Definition DUST : Z := 18200.

Lemma pays_not_dust o : pays_hash DUST o -> IsDust o DUST_RELAY_TX_FEE = false.
Proof.
  unfold DUST. destruct o as [v s]. intros (Hv & h & Hh & Hs). cbn [nValue out_scriptPubKey] in Hv, Hs. unfold IsDust. cbn [nValue]. apply Z.ltb_ge.
  destruct Hs as [-> | [-> | ->]]; rewrite ?dust_p2pkh, ?dust_p2sh, ?dust_p2wpkh by done; lia.
Qed.

(** ** A plain payment *)

Record plain_payment (tx : CTransaction) : Prop := {
  plain_version : nVersion tx = 2;
  plain_time : nTime tx = 0;
  plain_lock : nLockTime tx = 0;
  plain_vin : vin tx <> [];
  plain_inputs : Forall plain_txin (vin tx);
  plain_vin_length : (length (vin tx) < 253)%nat;
  plain_distinct : NoDup (prevout <$> vin tx);
  plain_vout : vout tx <> [];
  plain_outputs : Forall (pays_hash 0) (vout tx);
  plain_vout_length : (length (vout tx) < 253)%nat;
  plain_sum : value_out_sum (vout tx) <= MAX_MONEY
}.

Section Plain.
Context (tx : CTransaction) (Hp : plain_payment tx).

Lemma plain_no_witness : HasWitness (vin tx) = false.
Proof.
  destruct Hp as [_ _ _ _ Hin _ _ _ _ _ _]. unfold HasWitness. apply existsb_false_Forall. eapply Forall_impl; [exact Hin|].
  intros i (_ & _ & _ & Hw & _). by rewrite Hw.
Qed.

Lemma length_compact n : 0 <= n < 253 -> length (WriteCompactSize n) = 1%nat.
Proof. intros Hn. unfold WriteCompactSize. rewrite (proj2 (Z.ltb_lt _ _)) by lia. by rewrite length_le. Qed.

Lemma length_plain_txin i : plain_txin i -> (85 <= length (write_txin i) <= 148)%nat.
Proof.
  intros (_ & Hl & _ & _ & Hh & _). unfold write_txin, write_outpoint, write_blob. rewrite !length_app, !length_le, Hh, length_compact by lia. lia.
Qed.

Lemma length_plain_txout o : pays_hash 0 o -> (31 <= length (write_txout o) <= 34)%nat.
Proof.
  intros (_ & h & Hh & Hs). unfold write_txout, write_blob. rewrite !length_app, length_le.
  destruct Hs as [-> | [-> | ->]]; unfold p2pkh_script, p2sh_script, p2wpkh_script; rewrite length_compact by (rewrite !length_app, Hh; cbn; lia);
    rewrite !length_app, Hh; cbn; lia.
Qed.

Lemma length_mjoin_between {A} (f : A -> list Z) (P : A -> Prop) a b l :
  (forall x, P x -> (a <= length (f x) <= b)%nat) -> Forall P l ->
  (a * length l <= length (mjoin (f <$> l)) <= b * length l)%nat.
Proof.
  intros Hf. induction 1 as [|x l Hx _ IH]; [cbn; lia|].
  change (mjoin (f <$> x :: l)) with (f x ++ mjoin (f <$> l)). rewrite length_app. cbn [length]. specialize (Hf x Hx). nia.
Qed.

Lemma plain_size : GetSerializeSize true tx = GetSerializeSize false tx /\
  10 + 85 * Z.of_nat (length (vin tx)) + 31 * Z.of_nat (length (vout tx)) <= GetSerializeSize false tx
    <= 10 + 148 * Z.of_nat (length (vin tx)) + 34 * Z.of_nat (length (vout tx)).
Proof.
  pose proof plain_no_witness as Hw. pose proof Hp as [Hv _ _ _ Hin Hln _ _ Hout Hlm _].
  unfold GetSerializeSize, SerializeTransaction. rewrite Hw, Hv. cbn [andb]. change (2 <? 2) with false. change (0 =? 0) with true.
  change (Z.land 0 1 =? 0) with true. cbn [negb]. split; [done|]. rewrite !app_nil_l, !length_app, !length_le. unfold write_vector.
  rewrite !length_app, !length_compact by lia.
  pose proof (length_mjoin_between _ _ _ _ _ length_plain_txin Hin). pose proof (length_mjoin_between _ _ _ _ _ length_plain_txout Hout). lia.
Qed.

Lemma plain_counts : 1 <= Z.of_nat (length (vin tx)) < 253 /\ 1 <= Z.of_nat (length (vout tx)) < 253.
Proof. pose proof Hp as [_ _ _ Hvi _ Hln _ Hvo _ Hlm _]. destruct (vin tx), (vout tx); try done; cbn [length] in *; lia. Qed.

Lemma plain_weight : GetTransactionWeight tx = 4 * GetSerializeSize false tx /\ GetVirtualTransactionSize tx = GetSerializeSize false tx.
Proof.
  destruct plain_size as [Ht Hb]. pose proof plain_counts. unfold GetVirtualTransactionSize, VirtualSize, GetTransactionWeight, WITNESS_SCALE_FACTOR.
  rewrite Ht. set (n := GetSerializeSize false tx) in *. split; [lia|]. rewrite Z.max_l by lia.
  replace (n * (4 - 1) + n + 4 - 1) with (3 + n * 4) by lia. by rewrite Z.div_add by lia.
Qed.

Lemma plain_not_coinbase : IsCoinBase tx = false.
Proof.
  pose proof Hp as [_ _ _ _ Hin _ _ _ _ _ _]. unfold IsCoinBase. destruct (vin tx) as [|i [|]]; [done| |done].
  apply Forall_cons_1 in Hin as [(_ & _ & _ & _ & _ & Hn) _]. done.
Qed.

Lemma pays_not_empty o : pays_hash 0 o -> IsEmpty o = false.
Proof.
  intros (_ & h & Hh & Hs). unfold IsEmpty. apply andb_false_iff. right. by destruct Hs as [-> | [-> | ->]].
Qed.

Lemma plain_not_coinstake : IsCoinStake tx = false.
Proof.
  pose proof Hp as [_ _ _ _ _ _ _ _ Hout _ _]. unfold IsCoinStake. destruct (vin tx); [done|]. destruct (vout tx) as [|o [|]]; [done|done|].
  apply Forall_cons_1 in Hout as [Ho%pays_not_empty _]. by rewrite Ho, andb_false_r.
Qed.

Lemma plain_sound : tx_sound tx.
Proof.
  destruct plain_size as [_ Hb]. pose proof plain_counts as [Hc1 Hc2]. pose proof Hp as [_ _ _ Hvi Hin _ Hnd Hvo Hout _ Hsum].
  split; [done|]. split; [done|]. split; [unfold MAX_BLOCK_WEIGHT; lia|]. split; [|split; [done|split; [done|]]].
  - eapply Forall_impl; [exact Hout|]. intros o Ho. split; [by destruct Ho|]. intros _. by apply pays_not_empty.
  - rewrite plain_not_coinbase. eapply Forall_impl; [exact Hin|]. by intros i (_ & _ & _ & _ & _ & ?).
Qed.

(** ** Policy *)

Lemma plain_standard_inputs : standard_inputs (vin tx) = None.
Proof.
  pose proof Hp as [_ _ _ _ Hin _ _ _ _ _ _]. induction Hin as [|i l (Hpo & Hl & _) _ IH]; [done|]. cbn [standard_inputs].
  rewrite (proj2 (Z.ltb_ge _ _)) by (unfold MAX_STANDARD_SCRIPTSIG_SIZE; lia). by rewrite Hpo.
Qed.

Lemma pays_standard settings o :
  pays_hash 0 o -> exists t, IsStandard settings (out_scriptPubKey o) true = (true, t) /\ t <> NULL_DATA /\ t <> MULTISIG.
Proof.
  intros (_ & h & Hh & Hs). unfold IsStandard.
  destruct Hs as [-> | [-> | ->]]; rewrite ?solver_p2pkh, ?solver_p2sh, ?solver_p2wpkh by done; by eexists.
Qed.

(** The outputs are standard exactly if none of them is dust. *)
Lemma plain_standard_outputs settings n l :
  Forall (pays_hash 0) l ->
  standard_outputs settings true n l = if existsb (fun o => IsDust o (dust_relay_fee settings)) l then inl "dust" else inr n.
Proof.
  induction 1 as [|o l Ho _ IH]; [done|]. cbn [standard_outputs existsb]. destruct (pays_standard settings o Ho) as (t & -> & Ht1 & Ht2).
  cbn [negb]. rewrite IH. destruct (IsDust _ _); by destruct t.
Qed.

Lemma plain_standard settings :
  IsStandardTx settings tx true = if existsb (fun o => IsDust o (dust_relay_fee settings)) (vout tx) then Some "dust" else None.
Proof.
  destruct plain_weight as [Hw _]. destruct plain_size as [_ Hb]. pose proof plain_counts. unfold IsStandardTx.
  rewrite (plain_version _ Hp), Hw, (proj2 (Z.ltb_ge MAX_STANDARD_TX_WEIGHT _)) by (unfold MAX_STANDARD_TX_WEIGHT; lia).
  change ((TX_MAX_STANDARD_VERSION <? 2) || (2 <? 1)) with false. cbv iota.
  rewrite plain_standard_inputs, plain_standard_outputs by apply (plain_outputs _ Hp). by destruct (existsb _ _).
Qed.

End Plain.

(** ** The coins and the node *)

(** A node with the default rates, on a chain with segwit, whose pool has room. *)
Record node_ready (node : NodeState) (pool : list CTransaction) (tx : CTransaction) : Prop := {
  ready_dust : dust_relay_fee (settings node) = DUST_RELAY_TX_FEE;
  ready_relay : min_relay_feerate node = DEFAULT_MIN_RELAY_TX_FEE;
  ready_sigop : bytes_per_sigop node = 20;
  ready_height : 0 <= tip_height node;
  ready_time : 0 <= tip_median_time node;
  ready_segwit : segwit_active node = true;
  ready_flags : flags_ok (block_flags node);
  ready_delta : forall txid, 0 <= fee_delta node txid;
  ready_room : ancestors_within node pool tx (limits node) = true;
  ready_evict : evict node (tx :: pool) = tx :: pool
}.

(** A coin not younger than the node's clock and, if it was mined or minted, old
    enough to be spent in the next block. *)
Definition mature (node : NodeState) (coin : Coin) : Prop :=
  coin_nTime coin <= adjusted_time node /\
  (fCoinBase coin || fCoinStake coin = true -> nHeight coin <> 0 ->
   (if IsProtocolV3_1 (params node) (adjusted_time node) then nCoinbaseMaturity (params node) else empty_nCoinbaseMaturity)
     <= tip_height node + 1 - nHeight coin).

(** The input spends a mature output to a key hash that the chain or the pool
    holds. *)
Definition spendable (node : NodeState) (view : CCoinsView) (i : CTxIn) : Prop :=
  exists coin h, view (prevout i) = Some coin /\ length h = 20%nat /\ out_scriptPubKey (coin_out coin) = p2pkh_script h /\
    0 <= nValue (coin_out coin) /\ mature node coin.

Section Coins.
Context (node : NodeState) (view : CCoinsView).

Definition coins_sum (l : list CTxIn) : Z := foldr Z.add 0 (input_value view <$> l).

Lemma coins_sum_nonneg l : Forall (spendable node view) l -> 0 <= coins_sum l.
Proof.
  unfold coins_sum. induction 1 as [|i l (coin & h & Hc & _ & _ & Hv & _) _ IH]; [done|]. rewrite fmap_cons. cbn [foldr].
  unfold input_value at 1. rewrite Hc. cbn. lia.
Qed.

Lemma plain_check_coins acc l :
  Forall (spendable node view) l -> 0 <= acc -> acc + coins_sum l <= MAX_MONEY ->
  check_coins (params node) view (tip_height node + 1) (adjusted_time node) acc l = Valid (acc + coins_sum l).
Proof.
  intros Hl. revert acc. induction Hl as [|i l (coin & h & Hc & _ & _ & Hv & Ht & Hm) Hl IH]; intros acc Ha Hs; cbn [check_coins].
  { unfold coins_sum in *. cbn. by rewrite Z.add_0_r. }
  change (coins_sum (i :: l)) with (input_value view i + coins_sum l) in *. unfold input_value in *. rewrite Hc in *. cbn [from_option] in *.
  pose proof (coins_sum_nonneg _ Hl). unfold MoneyRange.
  rewrite (proj2 (Z.leb_le 0 _)), (proj2 (Z.leb_le _ MAX_MONEY)), (proj2 (Z.ltb_ge (MAX_MONEY - acc) _)), (proj2 (Z.ltb_ge (adjusted_time node) _)) by lia.
  cbn [andb negb orb]. set (maturity := if IsProtocolV3_1 _ _ then _ else _) in *.
  assert ((fCoinBase coin || fCoinStake coin) && negb (nHeight coin =? 0) && (tip_height node + 1 - nHeight coin <? maturity) = false) as ->.
  { destruct (fCoinBase coin || fCoinStake coin); [|done]. destruct (Z.eqb_spec (nHeight coin) 0); [done|]. apply Z.ltb_ge. by apply Hm. }
  cbn [invalid_if mbind check_bind]. rewrite IH by lia. f_equal. lia.
Qed.

Lemma spendable_there l : Forall (spendable node view) l -> Forall (fun i => is_Some (view (prevout i))) l.
Proof. intros Hl. eapply Forall_impl; [exact Hl|]. intros i (coin & h & Hc & _). rewrite Hc. by eexists. Qed.

Lemma inputs_there `{Crypto} t l : Forall (spendable node view) l -> inputs_exist node view t l = Valid tt.
Proof. induction 1 as [|i l (coin & h & Hc & _) _ IH]; [done|]. cbn [inputs_exist]. by rewrite Hc. Qed.

Lemma prev_heights l : Forall (spendable node view) l -> exists heights, CalculatePrevHeights node view l = Some heights /\ length heights = length l.
Proof.
  induction 1 as [|i l (coin & h & Hc & _) _ (heights & Hh & Hl)]; [by exists []|]. cbn [CalculatePrevHeights]. rewrite Hc, Hh.
  eexists. split; [done|]. cbn. by rewrite Hl.
Qed.

Lemma no_sequence_locks mtp l heights hmin tmin :
  Forall plain_txin l -> length heights = length l -> sequence_locks mtp l heights hmin tmin = Valid (hmin, tmin).
Proof.
  intros Hl. revert heights. induction Hl as [|i l (_ & _ & Hs & _) _ IH]; intros [|h heights] Hlen; try done. cbn [sequence_locks].
  rewrite Hs. change (Z.land 0xfffffffd SEQUENCE_LOCKTIME_DISABLE_FLAG =? 0) with false. cbn [negb]. apply IH. by injection Hlen.
Qed.

Lemma with_coins_ok l : Forall (spendable node view) l ->
  exists cs, with_coins view l = Valid cs /\ Forall (fun c => exists h, length h = 20%nat /\ out_scriptPubKey (coin_out c.2) = p2pkh_script h) cs.
Proof.
  induction 1 as [|i l (coin & h & Hc & Hh & Hs & _) _ (cs & Hcs & Hall)]; [exists []; split; [done|apply Forall_nil_2]|].
  cbn [with_coins]. rewrite Hc, Hcs. eexists. split; [done|]. constructor; [by exists h|done].
Qed.

Lemma no_witness_sigops flags cs :
  flags_ok flags -> Forall (fun c => exists h, length h = 20%nat /\ out_scriptPubKey (coin_out c.2) = p2pkh_script h) cs ->
  witness_sigops flags cs = Valid 0.
Proof.
  intros [_ Hf]. induction 1 as [|[i coin] cs (h & Hh & Hs) _ IH]; [done|]. cbn [witness_sigops snd] in *. rewrite IH.
  unfold CountWitnessSigOps. rewrite Hs. destruct (p2pkh_not_program h Hh) as [-> ->].
  destruct (flag flags SCRIPT_VERIFY_WITNESS); [|done]. by rewrite Hf.
Qed.

Lemma p2sh_sigops_zero cs :
  Forall (fun c : CTxIn * Coin => exists h, length h = 20%nat /\ out_scriptPubKey (coin_out c.2) = p2pkh_script h) cs ->
  foldr Z.add 0 ((fun '(txin, coin) =>
    if IsPayToScriptHash (out_scriptPubKey (coin_out coin))
    then GetSigOpCountOfInput (out_scriptPubKey (coin_out coin)) (in_scriptSig txin) else 0) <$> cs) = 0.
Proof.
  induction 1 as [|[i coin] cs (h & Hh & Hs) _ IH]; [done|]. rewrite fmap_cons. cbn [foldr snd] in *.
  rewrite IH, Hs. by destruct (p2pkh_not_program h Hh) as [_ ->].
Qed.

Lemma inputs_standard `{Crypto} l : Forall (spendable node view) l -> all_inputs (input_standard view) l = Ret true.
Proof.
  induction 1 as [|i l (coin & h & Hc & Hh & Hs & _) _ IH]; [done|]. cbn [all_inputs]. unfold input_standard, spent_script.
  rewrite Hc. cbn [from_option]. rewrite Hs, solver_p2pkh by done. done.
Qed.

End Coins.

Lemma input_sigops l : Forall plain_txin l -> foldr Z.add 0 ((fun i => GetSigOpCount false (in_scriptSig i)) <$> l) = 0.
Proof. induction 1 as [|i l (Hp & _) _ IH]; [done|]. rewrite fmap_cons. cbn [foldr]. by rewrite IH, GetSigOpCount_push_only. Qed.

Lemma output_sigops l : Forall (pays_hash 0) l ->
  0 <= foldr Z.add 0 ((fun o => GetSigOpCount false (out_scriptPubKey o)) <$> l) <= Z.of_nat (length l).
Proof.
  induction 1 as [|o l (_ & h & Hh & Hs) _ IH]; [cbn; lia|]. rewrite fmap_cons. cbn [foldr length].
  destruct Hs as [-> | [-> | ->]]; rewrite ?sigops_p2pkh, ?sigops_p2sh, ?sigops_p2wpkh by done; lia.
Qed.

Lemma plain_sigops node view tx :
  plain_payment tx -> Forall (spendable node view) (vin tx) ->
  exists k, 0 <= k <= Z.of_nat (length (vout tx)) /\ GetTransactionSigOpCost tx view STANDARD_SCRIPT_VERIFY_FLAGS = Valid (4 * k).
Proof.
  intros Hp Hs. exists (GetLegacySigOpCount tx). unfold GetLegacySigOpCount. rewrite (input_sigops _ (plain_inputs _ Hp)).
  split; [apply output_sigops, (plain_outputs _ Hp)|]. unfold GetTransactionSigOpCost, GetP2SHSigOpCount, GetLegacySigOpCount.
  rewrite (plain_not_coinbase _ Hp), (input_sigops _ (plain_inputs _ Hp)). change (flag STANDARD_SCRIPT_VERIFY_FLAGS SCRIPT_VERIFY_P2SH) with true. cbv iota.
  destruct (with_coins_ok _ _ _ Hs) as (cs & -> & Hcs). cbn [mbind check_bind]. rewrite p2sh_sigops_zero by done.
  rewrite no_witness_sigops; [|split; by vm_compute|done]. cbn [mbind check_bind]. f_equal. unfold WITNESS_SCALE_FACTOR. lia.
Qed.

(** ** The checks before the scripts *)

Lemma min_fee_100 n v3_1 : 100 < n < 2 ^ 32 -> GetMinFeeOfSize n v3_1 = 100 * n.
Proof.
  intros Hn. unfold GetMinFeeOfSize, TX_FEE_PER_KB, DEFAULT_MIN_RELAY_TX_FEE. rewrite Z.min_l by lia.
  rewrite (proj2 (Z.leb_gt _ _)) by lia. rewrite GetFee_100 by lia. unfold MoneyRange, MAX_MONEY.
  by destruct v3_1; rewrite (proj2 (Z.leb_le _ _)), (proj2 (Z.leb_le _ _)) by lia.
Qed.

Lemma pool_get_none `{Crypto} pool txid : Forall (fun t => GetHash t <> txid) pool -> pool_get pool txid = None.
Proof. unfold pool_get. induction 1 as [|t l Ht _ IH]; [done|]. cbn [List.find]. by rewrite bool_decide_false. Qed.

Section Admit.
Context `{Crypto} (node : NodeState) (pool : list CTransaction) (tx : CTransaction).
Let view : CCoinsView := mempool_view pool (coins_tip node).
Let size : Z := GetSerializeSize false tx.
Let fee : Z := coins_sum view (vin tx) - value_out_sum (vout tx).
Context (Hp : plain_payment tx) (Hr : node_ready node pool tx) (Hs : Forall (spendable node view) (vin tx)).
Context (Hmax : coins_sum view (vin tx) <= MAX_MONEY) (Hfee : 100 * size <= fee).

Lemma size_bounds : 126 <= size < 46000.
Proof. destruct (plain_size tx Hp) as [_ Hb]. pose proof (plain_counts tx Hp). unfold size. lia. Qed.

Lemma plain_tx_time : tx_time tx (adjusted_time node) = adjusted_time node.
Proof. unfold tx_time. by rewrite (plain_time _ Hp), (plain_version _ Hp). Qed.

Lemma value_out_nonneg : 0 <= value_out_sum (vout tx).
Proof. apply value_out_sum_nonneg. eapply Forall_impl; [apply (plain_outputs _ Hp)|]. by intros o [? _]. Qed.

Lemma plain_min_fee v3_1 : GetMinFee tx v3_1 <= fee.
Proof.
  unfold GetMinFee. rewrite (proj2 (plain_weight tx Hp)). fold size. pose proof size_bounds. rewrite min_fee_100 by lia. done.
Qed.

Lemma plain_CheckTxInputs : CheckTxInputs (params node) (adjusted_time node) tx view (tip_height node + 1) = Valid (Some fee).
Proof.
  unfold CheckTxInputs. assert (HaveInputs view tx = true) as ->.
  { unfold HaveInputs. apply orb_true_iff. right. apply forallb_forall. intros i Hi%list_elem_of_In. apply bool_decide_eq_true.
    eapply Forall_forall in Hi; [exact Hi|by eapply spendable_there]. }
  cbn [negb invalid_if mbind check_bind]. rewrite plain_tx_time, plain_check_coins by (done || lia). cbn [mbind check_bind].
  rewrite (plain_not_coinstake _ Hp), Z.add_0_l. pose proof value_out_nonneg. pose proof size_bounds. pose proof (plain_sum _ Hp).
  rewrite GetValueOut_total; [|done| |lia]; [|eapply Forall_impl; [apply (plain_outputs _ Hp)|]; by intros o [? _]].
  cbn [mbind check_bind]. rewrite Z.add_0_l. fold fee. rewrite (proj2 (Z.ltb_ge (coins_sum view (vin tx)) _)) by (unfold fee in *; lia). cbn [invalid_if mbind check_bind].
  assert (0 <= fee <= MAX_MONEY) as [Hf0 Hf1] by (unfold fee in *; lia).
  assert (MoneyRange fee = true) as -> by (unfold MoneyRange; by rewrite (proj2 (Z.leb_le _ _) Hf0), (proj2 (Z.leb_le _ _) Hf1)).
  cbn [negb invalid_if mbind check_bind]. rewrite (proj2 (Z.ltb_ge fee _)) by apply plain_min_fee. by rewrite andb_false_r.
Qed.

Lemma plain_locks : sequence_locks_ok node view tx = Valid true.
Proof.
  unfold sequence_locks_ok. destruct (prev_heights node view _ Hs) as (heights & -> & Hl). unfold CalculateSequenceLocks.
  rewrite Hl, Nat.eqb_refl, (plain_version _ Hp). cbn [check_assert mbind check_bind]. change (u32 2 <? 2) with false. cbv iota.
  rewrite no_sequence_locks by (done || apply (plain_inputs _ Hp)). cbn [mbind check_bind]. unfold EvaluateSequenceLocks. cbn [fst snd].
  pose proof (ready_height _ _ _ Hr). pose proof (ready_time _ _ _ Hr).
  rewrite (proj2 (Z.leb_gt _ _)), (proj2 (Z.leb_gt _ _)) by lia. done.
Qed.

Lemma plain_vsize k : 0 <= k <= Z.of_nat (length (vout tx)) -> VirtualSize (GetTransactionWeight tx) (4 * k) 20 = size.
Proof.
  intros Hk. rewrite (proj1 (plain_weight tx Hp)). fold size. destruct (plain_size tx Hp) as [_ Hb]. fold size in Hb.
  unfold VirtualSize, WITNESS_SCALE_FACTOR. rewrite Z.max_l by lia. replace (4 * size + 4 - 1) with (3 + size * 4) by lia.
  by rewrite Z.div_add by lia.
Qed.

Lemma plain_fee_rate : CheckFeeRate node size (fee + fee_delta node (GetHash tx)) = Valid tt.
Proof.
  unfold CheckFeeRate. pose proof size_bounds. pose proof (ready_delta _ _ _ Hr (GetHash tx)).
  rewrite min_fee_100 by lia. rewrite (ready_relay _ _ _ Hr). unfold DEFAULT_MIN_RELAY_TX_FEE. rewrite GetFee_100 by lia.
  rewrite !(proj2 (Z.ltb_ge (fee + _) _)) by lia. by rewrite andb_false_r.
Qed.

Lemma plain_drift : (FutureDrift (params node) (tip_height node) (adjusted_time node) <? adjusted_time node) = false.
Proof. apply Z.ltb_ge. unfold FutureDrift. destruct (_ && _); [lia|]. destruct (IsProtocolV2 _ _); lia. Qed.

(** Not yet in the pool, under either hash. *)
Definition fresh : Prop := Forall (fun t => GetHash t <> GetHash tx /\ GetWitnessHash t <> GetWitnessHash tx) pool.

Lemma fresh_pool : fresh ->
  existsb (fun t => bool_decide (GetWitnessHash t = GetWitnessHash tx)) pool = false /\ pool_get pool (GetHash tx) = None.
Proof.
  intros Hf. split.
  - apply existsb_false_Forall. eapply Forall_impl; [exact Hf|]. intros t [_ Ht]. by apply bool_decide_eq_false.
  - apply pool_get_none. eapply Forall_impl; [exact Hf|]. by intros t [? _].
Qed.

Lemma PreChecks_plain args :
  fresh -> Forall (fun i => prevout i ∉ pool_spends pool) (vin tx) ->
  (require_standard node = true -> existsb (fun o => IsDust o DUST_RELAY_TX_FEE) (vout tx) = false) ->
  PreChecks node args view pool tx =
    Valid {| m_base_fees := fee; m_modified_fees := fee + fee_delta node (GetHash tx); m_vsize := size |}.
Proof.
  intros [Hf1 Hf2]%fresh_pool Hc Hd. unfold PreChecks. rewrite (proj2 (CheckTransaction_valid tx)) by (by apply plain_sound).
  cbn [mbind check_bind]. rewrite (plain_not_coinbase tx Hp), (plain_not_coinstake tx Hp), (plain_no_witness tx Hp), andb_false_r.
  cbn [invalid_if andb mbind check_bind]. rewrite plain_tx_time, (ready_segwit _ _ _ Hr), plain_standard, (ready_dust _ _ _ Hr) by done.
  assert (forall c : bool, (c = true -> existsb (fun o => IsDust o DUST_RELAY_TX_FEE) (vout tx) = false) ->
    (if c then match (if existsb (fun o => IsDust o DUST_RELAY_TX_FEE) (vout tx) then Some "dust" else None) with
      Some reason => Invalid TX_NOT_STANDARD reason | None => Valid tt end else Valid tt) = Valid tt) as Hstd by (intros [] Hx; [by rewrite Hx|done]).
  rewrite Hstd by done. cbn [mbind check_bind]. fold size. pose proof size_bounds.
  rewrite (proj2 (Z.ltb_ge size _)) by (unfold MIN_STANDARD_TX_NONWITNESS_SIZE; lia). cbn [invalid_if mbind check_bind].
  unfold CheckFinalTxAtTip, IsFinalTx. rewrite (plain_lock _ Hp). change (0 =? 0) with true. cbn [negb invalid_if mbind check_bind].
  rewrite plain_drift, Hf1, Hf2. rewrite bool_decide_false by (by intros []). cbn [invalid_if mbind check_bind].
  assert (existsb (fun i => has_conflict pool (prevout i)) (vin tx) = false) as ->.
  { apply existsb_false_Forall. eapply Forall_impl; [exact Hc|]. intros i Hi. apply not_true_iff_false. by rewrite has_conflict_true. }
  cbn [invalid_if mbind check_bind]. rewrite (inputs_there node view) by done. cbn [mbind check_bind]. rewrite plain_locks.
  cbn [negb invalid_if mbind check_bind]. rewrite plain_CheckTxInputs. cbn [mbind check_bind default from_option id].
  rewrite (proj2 (Z.ltb_ge fee _)) by apply plain_min_fee. rewrite andb_false_r. cbn [invalid_if mbind check_bind].
  assert (AreInputsStandard tx view = Ret true) as -> by (unfold AreInputsStandard; rewrite (plain_not_coinbase _ Hp); by eapply inputs_standard).
  cbn [of_script mbind check_bind negb invalid_if].
  assert (forall c : bool, (if c then Valid tt else Valid tt) = Valid tt) as Hboth by (by intros []). rewrite Hboth. cbn [mbind check_bind].
  destruct (plain_sigops node view tx Hp Hs) as (k & Hk & ->). cbn [mbind check_bind]. rewrite (ready_sigop _ _ _ Hr), plain_vsize by done.
  pose proof (plain_counts tx Hp). rewrite (proj2 (Z.ltb_ge MAX_STANDARD_TX_SIGOPS_COST _)) by (change MAX_STANDARD_TX_SIGOPS_COST with 16000; lia).
  cbn [invalid_if mbind check_bind]. rewrite plain_fee_rate, Hboth. cbn [mbind check_bind]. unfold within_limits.
  by rewrite (ready_room _ _ _ Hr).
Qed.

End Admit.

(** ** The checks of the scripts *)

Lemma coins_match_ok `{Crypto} node pool l :
  Forall (fun i => is_Some (mempool_view pool (coins_tip node) (prevout i))) l -> coins_match node (mempool_view pool (coins_tip node)) pool l = Valid tt.
Proof.
  induction 1 as [|i l [coin Hc] _ IH]; [done|]. cbn [coins_match]. rewrite Hc. unfold mempool_view in Hc.
  destruct (pool_get pool (op_hash (prevout i))) as [t|].
  - destruct (vout t !! Z.to_nat (op_n (prevout i))) as [o|]; [|done]. injection Hc as <-. cbn [coin_out].
    rewrite Z.eqb_refl, bool_decide_true by done. done.
  - rewrite Hc, Z.eqb_refl, bool_decide_true by done. done.
Qed.

Lemma judge_inputs_all `{Crypto} `{Curve} tx flags d i outs :
  (forall k o, outs !! k = Some o ->
    run_check {| m_tx_out := o; ptxTo := tx; check_nIn := i + k; nFlags := flags; check_txdata := d |} = Ret tt) ->
  judge_inputs tx flags d i outs = Valid tt.
Proof.
  revert i. induction outs as [|o outs IH]; intros i Hrun; [done|]. cbn [judge_inputs].
  rewrite (proj2 (judge_valid (fun flags => {| m_tx_out := o; ptxTo := tx; check_nIn := i; nFlags := flags; check_txdata := d |}) flags)).
  - cbn [mbind check_bind]. apply IH. intros k o' Hk. rewrite Nat.add_succ_comm. by apply Hrun.
  - rewrite <-(Nat.add_0_r i). by apply (Hrun 0%nat).
Qed.

Section Scripts.
Context `{CryptoLaws} `{CU : Curve} (node : NodeState) (pool : list CTransaction) (tx : CTransaction).
Let view : CCoinsView := mempool_view pool (coins_tip node).

(** Every input passes against the coin it spends, with any flags that fit
    together. *)
Definition inputs_pass : Prop := forall i txin coin d flags,
  vin tx !! i = Some txin -> view (prevout txin) = Some coin -> flags_ok flags ->
  run_check {| m_tx_out := coin_out coin; ptxTo := tx; check_nIn := i; nFlags := flags; check_txdata := d |} = Ret tt.

Context (Hne : vin tx <> []) (Hcb : IsCoinBase tx = false) (Hthere : Forall (fun i => is_Some (view (prevout i))) (vin tx)).
Context (Hpass : inputs_pass).

Lemma spent_coins_there l : Forall (fun i => is_Some (view (prevout i))) l ->
  exists outs, spent_coins view l = Valid outs /\ length outs = length l /\
    forall k o, outs !! k = Some o -> exists txin coin, l !! k = Some txin /\ view (prevout txin) = Some coin /\ o = coin_out coin.
Proof.
  induction 1 as [|i l [coin Hc] _ (outs & Ho & Hl & Hk)]; [by exists []|]. exists (coin_out coin :: outs). cbn [spent_coins]. rewrite Hc, Ho.
  split; [done|]. split; [cbn [length]; by rewrite Hl|]. intros [|k] o; [intros [= <-]; by exists i, coin|]. apply Hk.
Qed.

Lemma prepared : exists d outs, prepare tx view no_txdata = Valid d /\ prepare tx view d = Valid d /\ default [] (c_spent_outputs d) = outs /\
  forall flags, flags_ok flags -> judge_inputs tx flags d 0 outs = Valid tt.
Proof.
  destruct (spent_coins_there _ Hthere) as (outs & Hs & Hl & Hk). destruct (prepare_ok tx view outs Hs Hl) as (d & Hd & Hp & Hdef).
  exists d, outs. split; [done|]. split; [|split; [done|]].
  - assert (outs <> []) as Hno by (intros ->; destruct (vin tx); done). destruct (init_spent tx outs d Hd Hno) as (Hsp & _).
    unfold prepare. rewrite Hsp. cbn [mbind check_bind]. rewrite Hsp. cbn [default from_option id]. by rewrite Hl, Nat.eqb_refl.
  - intros flags Hf. apply judge_inputs_all. intros k o Ho. destruct (Hk k o Ho) as (txin & coin & Hi & Hv & ->). by apply Hpass with txin.
Qed.

Lemma check_scripts_ok flags store d0 :
  flags_ok flags -> (d0 = no_txdata \/ exists d, prepare tx view no_txdata = Valid d /\ d0 = d) ->
  exists d1 e, check_scripts node view tx flags store d0 = Valid (d1, e, []) /\
    (d1 = no_txdata \/ exists d, prepare tx view no_txdata = Valid d /\ d1 = d).
Proof.
  intros Hf Hd0. destruct prepared as (d & outs & Hp & Hpd & Hdef & Hj). unfold check_scripts, CheckInputScripts. fold view. rewrite Hcb.
  destruct (cache_contains node _); [by exists d0, None|].
  assert (prepare tx view d0 = Valid d) as -> by (destruct Hd0 as [-> | (d' & Hd' & ->)]; [done|congruence]).
  cbn [mbind check_bind]. rewrite Hdef, (Hj flags Hf). cbn [mbind check_bind]. do 2 eexists. split; [done|]. right. by exists d.
Qed.

Lemma scripts_pass :
  flags_ok (block_flags node) ->
  exists d, PolicyScriptChecks node view tx = Valid d /\ ConsensusScriptChecks node view pool tx d = Valid tt.
Proof.
  intros Hf. assert (flags_ok STANDARD_SCRIPT_VERIFY_FLAGS) as Hstd by (split; by vm_compute).
  destruct (check_scripts_ok STANDARD_SCRIPT_VERIFY_FLAGS false no_txdata Hstd (or_introl eq_refl)) as (d1 & e1 & H1 & Hd1).
  exists d1. unfold PolicyScriptChecks, ConsensusScriptChecks. rewrite H1. split; [done|]. rewrite Hcb. cbn [negb check_assert mbind check_bind].
  unfold view. rewrite coins_match_ok by done. fold view. destruct (check_scripts_ok (block_flags node) true d1 Hf Hd1) as (d2 & e2 & -> & _). done.
Qed.

End Scripts.

(** A plain payment whose inputs pass enters the pool. *)
Lemma plain_admitted `{CryptoLaws} `{CU : Curve} node pool tx :
  let view := mempool_view pool (coins_tip node) in
  let fee := coins_sum view (vin tx) - value_out_sum (vout tx) in
  plain_payment tx -> node_ready node pool tx -> Forall (spendable node view) (vin tx) ->
  coins_sum view (vin tx) <= MAX_MONEY -> 100 * GetSerializeSize false tx <= fee ->
  fresh pool tx -> Forall (fun i => prevout i ∉ pool_spends pool) (vin tx) ->
  (require_standard node = true -> existsb (fun o => IsDust o DUST_RELAY_TX_FEE) (vout tx) = false) ->
  inputs_pass node pool tx ->
  AcceptSingleTransaction node (SingleAccept false false) pool tx =
    (tx :: pool, Valid {| m_base_fees := fee; m_modified_fees := fee + fee_delta node (GetHash tx); m_vsize := GetSerializeSize false tx |}).
Proof.
  intros view fee Hp Hr Hs Hmax Hfee Hf Hc Hd Hpass. unfold AcceptSingleTransaction. rewrite PreChecks_plain by done. cbn [mbind check_bind].
  destruct (scripts_pass node pool tx) as (d & -> & Hcons); [by apply plain_vin|by apply plain_not_coinbase|by eapply spendable_there|done|by apply (ready_flags _ _ _ Hr)|].
  cbn [mbind check_bind]. rewrite Hcons. cbn [mbind check_bind]. unfold Finalize. rewrite (ready_evict _ _ _ Hr).
  unfold pool_get. cbn [List.find]. rewrite (bool_decide_true (GetHash tx = GetHash tx)) by done. done.
Qed.

(** A plain payment with a dust output is refused by a node that relays standard
    transactions only. *)
Lemma dust_refused `{Crypto} `{CU : Curve} node args pool tx :
  plain_payment tx -> require_standard node = true -> segwit_active node = true -> dust_relay_fee (settings node) = DUST_RELAY_TX_FEE ->
  existsb (fun o => IsDust o DUST_RELAY_TX_FEE) (vout tx) = true ->
  AcceptSingleTransaction node args pool tx = (pool, Invalid TX_NOT_STANDARD "dust").
Proof.
  intros Hp Hstd Hseg Hrelay Hdust. unfold AcceptSingleTransaction, PreChecks. rewrite (proj2 (CheckTransaction_valid tx)) by (by apply plain_sound).
  cbn [mbind check_bind]. rewrite (plain_not_coinbase tx Hp), (plain_not_coinstake tx Hp), (plain_no_witness tx Hp), andb_false_r.
  cbn [invalid_if andb mbind check_bind]. by rewrite Hstd, Hseg, plain_standard, Hrelay, Hdust.
Qed.

(** So is a transaction that spends what one in the pool spends. *)
Lemma conflict_unchecked `{Crypto} `{CU : Curve} node args view pool tx i ws :
  i ∈ vin tx -> prevout i ∈ pool_spends pool -> PreChecks node args view pool tx <> Valid ws.
Proof. intros Hi Hin (_ & _ & Hc & _)%PreChecks_inv. rewrite Forall_forall in Hc. by apply (Hc i Hi). Qed.

Lemma conflict_refused `{Crypto} `{CU : Curve} node args pool tx i :
  i ∈ vin tx -> prevout i ∈ pool_spends pool ->
  (AcceptSingleTransaction node args pool tx).1 = pool /\
  forall ws, (AcceptSingleTransaction node args pool tx).2 <> Valid ws.
Proof.
  intros Hi Hin. split; [|intros ws Hv%Accept_valid; by eapply conflict_unchecked].
  destruct (Accept_pool node args pool tx) as [? | [[ws Hws] _]]; [done|]. by eapply conflict_unchecked in Hws.
Qed.
