(* ===== verification/JsNumText.v ===== *)
(** * Numbers and their texts

    [Number::toString] prints a decimal that [parseFloat], [Number] and
    [JSON.parse] read back as the same number: seventeen digits are always
    enough, and the rounding of a decimal depends on its value only. *)

From Stdlib Require Import QArith Qabs Lqa Qpower.
From S2P Require Import Prelude Digits JsString JsNum JsNumFacts.

Open Scope Z_scope.
Open Scope list_scope.

(** The finite numbers of the format. *)
Definition is_double (x : num) : Prop :=
  match x with
  | Fin m e => (m = 0 /\ e = 0) \/
      (Z.odd m = true /\ Z.abs m < 2 ^ 53 /\ -1074 <= e /\ (fval (Z.abs m) e < 2 ^ 1024)%Q)
  | _ => False
  end.

(** ** Rounding depends on the value only *)

Lemma exponent_unique n d k : 0 < n -> 0 < d -> (2 ^ k <= ratio n d)%Q -> (ratio n d < 2 ^ (k + 1))%Q ->
  exponent n d = k.
Proof.
  intros Hn Hd H1 H2. destruct (exponent_spec n d Hn Hd) as [H3 H4].
  destruct (Z.lt_trichotomy (exponent n d) k) as [H|[H|H]]; [|done|].
  - assert (exponent n d + 1 <= k) as H'%pow2_le by lia. lra.
  - assert (k + 1 <= exponent n d) as H'%pow2_le by lia. lra.
Qed.

Lemma nearest_even_scale n d k : 0 < d -> 0 < k -> nearest_even (n * k) (d * k) = nearest_even n d.
Proof.
  intros Hd Hk. unfold nearest_even. rewrite Z.div_mul_cancel_r, Z.mul_mod_distr_r by lia.
  destruct (Z.ltb_spec (2 * (n mod d)) d), (Z.ltb_spec (2 * (n mod d * k)) (d * k)); try nia.
  destruct (Z.ltb_spec d (2 * (n mod d))), (Z.ltb_spec (d * k) (2 * (n mod d * k))); try nia; done.
Qed.

Lemma nearest_even_ext n d n' d' : 0 < d -> 0 < d' -> n * d' = n' * d -> nearest_even n d = nearest_even n' d'.
Proof.
  intros Hd Hd' H. rewrite <-(nearest_even_scale n d d'), <-(nearest_even_scale n' d' d) by done.
  by rewrite H, (Z.mul_comm d d').
Qed.

Lemma ratio_cross n d n' d' : 0 < d -> 0 < d' -> (ratio n d == ratio n' d')%Q <-> n * d' = n' * d.
Proof.
  intros Hd Hd'. pose proof (inject_pos d Hd). pose proof (inject_pos d' Hd').
  pose proof (ratio_mult n d Hd) as E. pose proof (ratio_mult n' d' Hd') as E'.
  split; intros Heq.
  - apply inject_Z_injective. rewrite !inject_Z_mult, <-E, <-E', Heq. ring.
  - apply (Qmult_inj_r _ _ (inject_Z d * inject_Z d')); [nra|].
    transitivity (inject_Z (n * d')); [rewrite inject_Z_mult, <-E; ring|].
    rewrite Heq, inject_Z_mult, <-E'. ring.
Qed.

Lemma rn_ext n d n' d' : 0 < n -> 0 < n' -> 0 < d -> 0 < d' -> (ratio n d == ratio n' d')%Q -> rn n d = rn n' d'.
Proof.
  intros Hn Hn' Hd Hd' H. rewrite !rn_positive by done.
  assert (ulp_exp n d = ulp_exp n' d') as ->.
  { unfold ulp_exp. f_equal. f_equal. destruct (exponent_spec n' d' Hn' Hd').
    apply exponent_unique; by rewrite ?H. }
  assert (rn_pos n d = rn_pos n' d') as ->; [|done].
  unfold rn_pos. assert (ulp_exp n d = ulp_exp n' d') as ->.
  { unfold ulp_exp. f_equal. f_equal. destruct (exponent_spec n' d' Hn' Hd').
    apply exponent_unique; by rewrite ?H. }
  apply nearest_even_ext; [lia|lia|]. pose proof (proj1 (ratio_cross n d n' d' Hd Hd') H) as Hx.
  set (a := 2 ^ Z.max 0 _). set (b := 2 ^ Z.max 0 _).
  transitivity (n * d' * (a * b)); [ring|rewrite Hx; ring].
Qed.

(** ** Decimals close to a number *)

Lemma nearest_even_unique n d u k : 0 < d ->
  (Qabs (ratio n d - fval k u) < 2 ^ u * (1 # 2))%Q ->
  nearest_even (n * 2 ^ Z.max 0 (- u)) (d * 2 ^ Z.max 0 u) = k.
Proof.
  intros Hd [H1 H2]%Qabs_Qlt_condition. pose proof (round_error n d u Hd) as H. cbv zeta in H.
  set (M := nearest_even _ _) in *. apply Qabs_Qle_condition in H as [H3 H4]. unfold fval in *.
  pose proof (pow2_pos u) as Hp. set (t := (2 ^ u)%Q) in *. set (r := ratio n d) in *.
  assert (inject_Z (k - 1) < inject_Z M)%Q as Ha.
  { replace (k - 1) with (k + -1) by lia. rewrite inject_Z_plus. change (inject_Z (-1)) with (-1)%Q.
    apply (Qmult_lt_r _ _ _ Hp). lra. }
  assert (inject_Z M < inject_Z (k + 1))%Q as Hb.
  { rewrite inject_Z_plus. change (inject_Z 1) with 1%Q. apply (Qmult_lt_r _ _ _ Hp). lra. }
  rewrite <-Zlt_Qlt in Ha, Hb. lia.
Qed.

(** The tolerance of seventeen digits, below [2^-54]. *)
Definition tol : Q := 1 # 20000000000000000.

Section Near.
Context (m e n d : Z).
Hypothesis Hm : 0 < m < 2 ^ 53.
Hypothesis He : -1074 <= e.
Hypothesis Hd : 0 < d.
Hypothesis Hnear : (Qabs (ratio n d - fval m e) <= fval m e * tol)%Q.

Lemma near_bounds : (fval m e * (1 - tol) <= ratio n d)%Q /\ (ratio n d <= fval m e * (1 + tol))%Q.
Proof. apply Qabs_Qle_condition in Hnear as [H1 H2]. split; lra. Qed.

Lemma near_fval_pos : (0 < fval m e)%Q.
Proof. apply Qmult_lt_0_compat; [apply inject_pos; lia|apply pow2_pos]. Qed.

Lemma near_num_pos : 0 < n.
Proof.
  destruct near_bounds as [H _]. pose proof near_fval_pos as Hp. apply Z.nle_gt. intros Hn.
  pose proof (ratio_mult n d Hd) as Hr. pose proof (inject_pos d Hd).
  rewrite Zle_Qle in Hn. change (inject_Z 0) with 0%Q in Hn. unfold tol in *. nra.
Qed.

(** [m * 2^e] as a multiple of a unit below it. *)
Lemma fval_unit u : u <= e -> (fval (m * 2 ^ (e - u)) u == fval m e)%Q.
Proof.
  intros Hu. unfold fval. rewrite inject_Z_mult, pow2_Z by lia. replace e with ((e - u) + u) at 2 by lia.
  rewrite pow2_plus. ring.
Qed.

(** The unit of [n/d] does not exceed the one of [m * 2^e]. *)
Lemma near_unit : ulp_exp n d <= e.
Proof.
  pose proof near_num_pos as Hn. destruct (exponent_spec n d Hn Hd) as [H1 _]. destruct near_bounds as [_ H2].
  assert (exponent n d - 52 <= e) as H; [|unfold ulp_exp; lia].
  apply Z.nlt_ge. intros Hlt. assert (53 + e <= exponent n d) as Hle%pow2_le by lia.
  rewrite pow2_plus in Hle. unfold fval in H2. pose proof (pow2_pos e) as Hp.
  assert (m <= 2 ^ 53 - 1) as Hm' by lia. rewrite Zle_Qle in Hm'.
  change (inject_Z (2 ^ 53 - 1)) with 9007199254740991%Q in Hm'. change (2 ^ 53)%Q with 9007199254740992%Q in Hle.
  set (t := (2 ^ e)%Q) in *. set (x := inject_Z m) in *.
  assert (9007199254740992 * t <= x * t * (1 + tol))%Q as Hc by lra.
  assert (x * t <= 9007199254740991 * t)%Q as Hd' by (apply Qmult_le_r; lra). unfold tol in Hc. lra.
Qed.

Lemma near_half_unit : (fval m e * tol < 2 ^ ulp_exp n d * (1 # 2))%Q.
Proof.
  pose proof near_num_pos as Hn. destruct (exponent_spec n d Hn Hd) as [_ H2]. destruct near_bounds as [H1 _].
  assert (2 ^ (exponent n d - 52) <= 2 ^ ulp_exp n d)%Q as Hu by (apply pow2_le; unfold ulp_exp; lia).
  replace (exponent n d + 1) with (53 + (exponent n d - 52)) in H2 by lia. rewrite pow2_plus in H2.
  change (2 ^ 53)%Q with 9007199254740992%Q in H2. pose proof (pow2_pos (exponent n d - 52)). unfold tol in *. lra.
Qed.

Lemma rn_near : (fval m e < 2 ^ 1024)%Q -> rn n d = norm m e.
Proof.
  intros Hhi. pose proof near_unit as Hu. pose proof near_num_pos as Hn. set (u := ulp_exp n d) in *.
  assert (rn_pos n d = m * 2 ^ (e - u)) as HM.
  { unfold rn_pos. fold u. apply nearest_even_unique; [done|]. rewrite fval_unit by done.
    pose proof near_half_unit. fold u in H. lra. }
  apply rn_at_unit; [done|lia|done|done|done].
Qed.
End Near.

(** ** Seventeen digits *)

Definition pow10 (k : Z) : Q := ((10 # 1) ^ k)%Q.

Lemma pow10_pos k : (0 < pow10 k)%Q.
Proof. by apply Qpower_0_lt. Qed.
Lemma pow10_plus a b : (pow10 (a + b) == pow10 a * pow10 b)%Q.
Proof. apply Qpower_plus. discriminate. Qed.
Lemma pow10_Z k : 0 <= k -> (inject_Z (10 ^ k) == pow10 k)%Q.
Proof. intros Hk. unfold pow10. by rewrite Zpower_Qpower. Qed.
Lemma pow10_split k : (inject_Z (10 ^ Z.max 0 k) == pow10 k * inject_Z (10 ^ Z.max 0 (- k)))%Q.
Proof.
  rewrite !pow10_Z by lia. rewrite <-pow10_plus.
  replace (k + Z.max 0 (- k)) with (Z.max 0 k) by lia. reflexivity.
Qed.

(** The value of a decimal. *)
Definition dval (m ex : Z) : Q := (inject_Z m * pow10 ex)%Q.

Lemma of_decimal_rn m ex : exists n d, of_decimal m ex = rn n d /\ 0 < d /\ (0 < m -> 0 < n) /\ (ratio n d == dval m ex)%Q.
Proof.
  unfold of_decimal, dval. destruct (Z.leb_spec 0 ex).
  - eexists _, _. split; [done|]. split; [lia|]. split; [lia|].
    rewrite ratio_1. unfold fval. rewrite inject_Z_mult, pow10_Z by done. change (2 ^ 0)%Q with 1%Q. ring.
  - eexists _, _. split; [done|]. split; [lia|]. split; [done|].
    unfold ratio. rewrite pow10_Z by lia. pose proof (pow10_pos ex). pose proof (pow10_pos (- ex)).
    assert (pow10 ex * pow10 (- ex) == 1)%Q as E by (rewrite <-pow10_plus; by rewrite Z.add_opp_diag_r).
    apply (Qmult_inj_r _ _ (pow10 (- ex))); [lra|]. rewrite <-Qmult_assoc, E. field. lra.
Qed.

(** The rounding of a decimal depends on its value. *)
Lemma of_decimal_ext m ex m' ex' : 0 < m -> 0 < m' -> (dval m ex == dval m' ex')%Q -> of_decimal m ex = of_decimal m' ex'.
Proof.
  intros Hm Hm' H. destruct (of_decimal_rn m ex) as (n & d & -> & Hd & Hn & E).
  destruct (of_decimal_rn m' ex') as (n' & d' & -> & Hd' & Hn' & E').
  apply rn_ext; auto. by rewrite E, E'.
Qed.

Lemma digits_length_pow n : 0 < n ->
  10 ^ (Z.of_nat (length (digits 10 n)) - 1) <= n < 10 ^ Z.of_nat (length (digits 10 n)).
Proof.
  intros Hn. pose proof (undigits_digits 10 n ltac:(lia) ltac:(lia)) as Hu.
  pose proof (undigits_bound 10 (digits 10 n)) as Hb. pose proof (digits_bound 10 n ltac:(lia)) as Hok.
  pose proof (digits_nonempty 10 n ltac:(lia) Hn) as Hne. pose proof (digits_head 10 n ltac:(lia)) as Hh.
  rewrite Hu in Hb. split; [|lia || (apply Hb; [lia|done])].
  destruct (digits 10 n) as [|x ds] eqn:E; [done|]. rewrite undigits_cons in Hu.
  apply Forall_cons_1 in Hok as [Hx Hds]. cbn [no_leading_zero] in Hh.
  pose proof (undigits_bound 10 ds) as Hb'. cbn [length].
  replace (Z.of_nat (S (length ds)) - 1) with (Z.of_nat (length ds)) by lia.
  assert (0 <= undigits 10 ds) by (apply Hb'; [lia|done]). nia.
Qed.

Lemma decimal_exponent_spec n d : 0 < n -> 0 < d -> (pow10 (decimal_exponent n d - 1) <= ratio n d)%Q.
Proof.
  intros Hn Hd. unfold decimal_exponent. pose proof (inject_pos d Hd) as Hq. pose proof (ratio_mult n d Hd) as Hr.
  destruct (Z.leb_spec d n) as [Hle|Hlt].
  - assert (0 < n / d) as Hp by (apply Z.div_str_pos; lia). destruct (digits_length_pow _ Hp) as [H _].
    set (L := Z.of_nat (length (digits 10 (n / d)))) in *.
    assert (1 <= L) as HL by (pose proof (digits_nonempty 10 _ ltac:(lia) Hp); destruct (digits 10 (n / d)); [done|cbn [length] in *; lia]).
    apply (Qmult_le_r _ _ _ Hq). rewrite Hr, <-pow10_Z, <-inject_Z_mult, <-Zle_Qle by lia.
    pose proof (Z.mul_div_le n d Hd). nia.
  - assert (0 < (d - 1) / n) as Hp by (apply Z.div_str_pos; lia). destruct (digits_length_pow _ Hp) as [_ H].
    set (L := Z.of_nat (length (digits 10 ((d - 1) / n)))) in *. replace (- L + 1 - 1) with (- L) by lia.
    assert (d <= n * 10 ^ L) as Hd'.
    { pose proof (Z.mul_succ_div_gt (d - 1) n Hn). nia. }
    rewrite Zle_Qle, inject_Z_mult, pow10_Z in Hd' by lia.
    assert (pow10 (- L) * pow10 L == 1)%Q as E by (rewrite <-pow10_plus; by rewrite Z.add_opp_diag_l).
    apply (Qmult_le_r _ _ _ Hq). rewrite Hr. pose proof (pow10_pos (- L)).
    apply (Qmult_le_l _ _ (pow10 (- L))) in Hd'; [|done].
    assert (pow10 (- L) * (inject_Z n * pow10 L) == inject_Z n)%Q by (rewrite Qmult_comm, <-Qmult_assoc, (Qmult_comm (pow10 L)), E; ring). lra.
Qed.

Lemma decimal_at_nearest n d E k : 0 <= n -> 0 < d -> exists c rest, decimal_at n d E k = c :: rest /\
  (Qabs (dval c.1 c.2 - ratio n d) <= pow10 (E - k) * (1 # 2))%Q.
Proof.
  intros Hn Hd. unfold decimal_at. set (ex := E - k). set (a := n * _). set (b := d * _).
  assert (0 < b) as Hb by (unfold b; lia). pose proof (Z.div_mod a b ltac:(lia)) as Hdm.
  pose proof (Z.mod_pos_bound a b Hb) as Hmod. pose proof (inject_pos b Hb) as Hbq.
  assert (inject_Z a == ratio n d * inject_Z (10 ^ Z.max 0 (- ex)) * inject_Z d)%Q as Ha
    by (unfold a; rewrite inject_Z_mult, <-(ratio_mult n d Hd); ring).
  assert (inject_Z b == pow10 ex * inject_Z (10 ^ Z.max 0 (- ex)) * inject_Z d)%Q as Hb'
    by (unfold b; rewrite inject_Z_mult, pow10_split; ring).
  assert (forall s, 2 * Z.abs (s * b - a) <= b -> (Qabs (dval s ex - ratio n d) <= pow10 ex * (1 # 2))%Q) as Hs.
  { intros s Hs. assert (- b <= 2 * (s * b - a) <= b) as [H1 H2] by lia. rewrite Zle_Qle in H1, H2.
    push_inject H1. push_inject H2. change (inject_Z 2) with 2%Q in *. rewrite Ha, Hb' in H1, H2.
    set (q := (inject_Z (10 ^ Z.max 0 (- ex)) * inject_Z d)%Q) in *.
    assert (0 < q)%Q as Hq by (apply Qmult_lt_0_compat; apply inject_pos; lia).
    apply Qabs_Qle_condition. unfold dval. unfold q in *. split; apply (Qmult_le_r _ _ _ Hq); lra. }
  destruct (Z.leb_spec (2 * (a mod b)) b); eexists _, _; (split; [done|apply Hs; cbn [fst]; nia]).
Qed.

Lemma decimal_at_nonneg n d E k c : 0 <= n -> 0 < d -> c ∈ decimal_at n d E k -> 0 <= c.1.
Proof.
  intros Hn Hd. unfold decimal_at. set (a := n * _). set (b := d * _).
  assert (0 <= a / b) by (apply Z.div_pos; unfold a, b; lia).
  destruct (_ <=? _); rewrite !elem_of_cons; intros [->|[->|H']]; cbn [fst]; try lia; by apply elem_of_nil in H'.
Qed.

Lemma shortest_sound x n d E fuel k c : 0 <= n -> 0 < d -> shortest x n d E fuel k = Some c ->
  of_decimal c.1 c.2 = x /\ 0 <= c.1.
Proof.
  intros Hn Hd. revert k. induction fuel as [|fuel IH]; intros k H; cbn [shortest] in H; [done|].
  destruct (List.find _ _) as [c'|] eqn:F; [|by eapply IH].
  injection H as <-. apply List.find_some in F as [Hin Hc]. apply bool_decide_eq_true in Hc.
  split; [done|]. eapply decimal_at_nonneg; [done|done|by apply list_elem_of_In].
Qed.

Lemma shortest_found x n d E fuel k j c rest : k <= j < k + Z.of_nat fuel ->
  decimal_at n d E j = c :: rest -> of_decimal c.1 c.2 = x -> exists c', shortest x n d E fuel k = Some c'.
Proof.
  intros Hj Hat Hc. revert k Hj. induction fuel as [|fuel IH]; intros k Hj; [lia|]. cbn [shortest].
  destruct (decide (k = j)) as [->|].
  - rewrite Hat. cbn [List.find]. rewrite bool_decide_eq_true_2 by done. by eexists.
  - destruct (List.find _ _); [by eexists|]. apply IH. lia.
Qed.

Lemma norm_odd m e : Z.odd m = true -> norm m e = Fin m e.
Proof. by destruct m as [|[p|p|]|[p|p|]]. Qed.

Lemma shortest_reads_back m e : 0 < m -> is_double (Fin m e) ->
  let n := m * 2 ^ Z.max 0 e in let d := 2 ^ Z.max 0 (- e) in
  exists c, shortest (Fin m e) n d (decimal_exponent n d) 17 1 = Some c /\ of_decimal c.1 c.2 = Fin m e /\ 0 < c.1.
Proof.
  intros Hm [[? _]|(Hodd & Hlt & He & Hhi)]; [lia|]. intros n d.
  rewrite Z.abs_eq in * by lia. assert (0 < n) as Hn by lia. assert (0 < d) as Hd by lia.
  pose proof (decimal_exponent_spec n d Hn Hd) as Hexp. set (E := decimal_exponent n d) in *.
  assert (ratio n d == fval m e)%Q as Hr by apply ratio_dyadic.
  destruct (decimal_at_nearest n d E 17 ltac:(lia) Hd) as (c & rest & Hat & Hc).
  assert (of_decimal c.1 c.2 = Fin m e) as Hof.
  { destruct (of_decimal_rn c.1 c.2) as (n' & d' & -> & Hd' & _ & Hr'). rewrite <-norm_odd by done.
    apply rn_near; [lia|done|done| |done].
    assert (pow10 (E - 17) == pow10 (E - 1) * (1 # 10000000000000000))%Q as Hp.
    { replace (E - 17) with ((E - 1) + -16) by lia. rewrite pow10_plus. reflexivity. }
    apply Qabs_Qle_condition in Hc as [Hc1 Hc2]. rewrite Hp in Hc1, Hc2.
    apply Qabs_Qle_condition. unfold tol. split; lra. }
  destruct (shortest_found (Fin m e) n d E 17 1 17 c rest ltac:(lia) Hat Hof) as (c' & Hc').
  destruct (shortest_sound _ n d E _ _ c' ltac:(lia) Hd Hc') as [Hof' Hnn].
  exists c'. split; [done|]. split; [done|]. destruct (decide (c'.1 = 0)) as [H0|]; [|lia].
  rewrite H0 in Hof'. unfold of_decimal in Hof'. destruct (0 <=? c'.2); injection Hof' as <- <-; lia.
Qed.

(** ** Texts *)

(** The text of an unsigned decimal with integer digits [ip] and fraction [fp]. *)
Definition decimal_text (ip fp : list Z) : string :=
  str (digit_char <$> ip) +:+ (match fp with [] => "" | _ => "." +:+ str (digit_char <$> fp) end).

Lemma span_digits_app ds r :
  digits_ok 10 ds -> (forall c r', r = c :: r' -> is_digit 10 c = false) ->
  span_digits ((digit_char <$> ds) ++ r) = (ds, r).
Proof.
  intros Hds Hr. induction Hds as [|d ds Hd Hds IH]; cbn [fmap list_fmap app].
  - destruct r as [|c r]; [done|]. cbn [span_digits]. by rewrite (Hr c r).
  - cbn [span_digits]. rewrite is_digit_char, IH, digit_val_char by lia. done.
Qed.

(** [r] does not continue a numeral with digits or a point. *)
Definition ends_digits (r : list ascii) : bool :=
  match r with c :: _ => negb (is_digit 10 c) && negb (Ascii.eqb c ".") | [] => true end.

Lemma parse_decimal_tail ip fp r : digits_ok 10 ip -> digits_ok 10 fp -> ip <> [] -> ends_digits r = true ->
  parse_decimal (chars (decimal_text ip fp) ++ r) =
    let '(ex, r') := exponent_part r in Some (undigits 10 (ip ++ fp), ex - Z.of_nat (length fp), r').
Proof.
  intros Hip Hfp Hne Hr. unfold decimal_text. rewrite chars_app, chars_str. unfold parse_decimal.
  assert (forall c r', r = c :: r' -> is_digit 10 c = false /\ Ascii.eqb c "." = false) as Hend.
  { intros c r' ->. cbn [ends_digits] in Hr. apply andb_true_iff in Hr as [?%negb_true_iff ?%negb_true_iff]. done. }
  destruct fp as [|f fp].
  - cbn [app chars String.list_ascii_of_string]. rewrite app_nil_r, span_digits_app; [|done|intros c r' Hc; apply (Hend c r' Hc)].
    destruct ip as [|i ip]; [done|]. destruct r as [|c r].
    + cbn -[undigits digit_char]. by rewrite app_nil_r.
    + destruct (Hend c r eq_refl) as [_ ->]. cbn [app]. by rewrite app_nil_r.
  - rewrite chars_app, chars_str. change (chars ".") with ["."%char]. rewrite <-!app_assoc. cbn [app].
    rewrite span_digits_app; [|done|by intros c r' Hc; injection Hc as <- _].
    change (Ascii.eqb "." ".") with true. cbv iota. rewrite span_digits_app; [|done|intros c r' Hc; apply (Hend c r' Hc)].
    by destruct ip.
Qed.

Lemma parse_decimal_text ip fp : digits_ok 10 ip -> digits_ok 10 fp -> ip <> [] ->
  parse_decimal (chars (decimal_text ip fp)) = Some (undigits 10 (ip ++ fp), - Z.of_nat (length fp), []).
Proof.
  intros. rewrite <-(app_nil_r (chars _)), parse_decimal_tail by done. done.
Qed.

Lemma starts_infinity_text ip fp : digits_ok 10 ip -> ip <> [] ->
  starts_infinity (chars (decimal_text ip fp)) = false.
Proof.
  intros Hip Hne. destruct ip as [|d ip]; [done|]. apply Forall_cons_1 in Hip as [Hd _].
  unfold decimal_text, starts_infinity. rewrite str_chars. unfold startsWith, str. cbn -[digit_char].
  assert (forallb (fun d => negb (bool_decide (digit_char d = "I"%char))) (seqZ 0 10) = true) as H by (by vm_compute).
  apply forallb_seqZ with (i := d) in H; [|lia]. apply negb_true_iff, bool_decide_eq_false in H.
  set (c := digit_char d) in *. clearbody c.
  match goal with |- String.prefix _ ?x = _ => change x with (String c (str (digit_char <$> ip) +:+
    match fp with [] => "" | _ => "." +:+ str (digit_char <$> fp) end)) end.
  cbn [String.prefix]. destruct (Ascii.ascii_dec "I" c) as [E|]; [by destruct H|done].
Qed.

Lemma parseFloat_text ip fp : digits_ok 10 ip -> digits_ok 10 fp -> ip <> [] ->
  parseFloat (decimal_text ip fp) = of_decimal (undigits 10 (ip ++ fp)) (- Z.of_nat (length fp)).
Proof.
  intros Hip Hfp Hne. unfold parseFloat.
  assert (exists d l, chars (decimal_text ip fp) = digit_char d :: l /\ 0 <= d < 10) as (d & l & Hl & Hd).
  { destruct ip as [|d ip]; [done|]. apply Forall_cons_1 in Hip as [Hd _]. by eexists d, _. }
  pose proof (is_digit_char 10 d ltac:(lia) ltac:(lia)) as Hdig.
  rewrite Hl. cbn [drop_spaces]. rewrite (is_digit_not_space 10) by done. cbn [skip_sign].
  destruct (is_digit_not_sign 10 _ Hdig) as [-> ->]. rewrite <-Hl, starts_infinity_text, parse_decimal_text by done.
  done.
Qed.


Lemma digits_ok_app b l1 l2 : digits_ok b (l1 ++ l2) <-> digits_ok b l1 /\ digits_ok b l2.
Proof. apply Forall_app. Qed.
Lemma digits_ok_zeros b n : 0 < b -> digits_ok b (replicate n 0).
Proof. intros Hb. apply Forall_replicate. lia. Qed.

Lemma digits_text_cons ip fp : ip <> [] -> digits_ok 10 ip ->
  exists c l, chars (decimal_text ip fp) = c :: l /\ is_digit 10 c = true.
Proof.
  intros Hne Hok. destruct ip as [|d ip]; [done|]. apply Forall_cons_1 in Hok as [Hd _].
  eexists (digit_char d), _. split; [reflexivity|]. by apply is_digit_char.
Qed.

(** A decimal literal: its text, and the significand and power of ten read. *)
Definition reads_decimal (l : list ascii) (q : Q) : Prop :=
  exists ip fp tail ex, l = chars (decimal_text ip fp) ++ tail /\ ip <> [] /\ digits_ok 10 ip /\ digits_ok 10 fp /\
    (tail = [] /\ ex = 0 \/ (exists t, tail = "e"%char :: t /\ exponent_part tail = (ex, []))) /\
    (no_leading_zero ip \/ ip = [0]) /\
    0 < undigits 10 (ip ++ fp) /\ (dval (undigits 10 (ip ++ fp)) (ex - Z.of_nat (length fp)) == q)%Q.

Lemma exponent_part_text q : q <> 0 ->
  exponent_part ("e"%char :: chars ((if 0 <? q then "+" else "") +:+ toString q)) = (q, []).
Proof.
  intros Hq. unfold exponent_part. change (Ascii.eqb (lower "e") "e") with true. cbv iota.
  assert (forall n, 0 < n -> span_digits (digit_char <$> digits 10 n) = (digits 10 n, [])) as Hs.
  { intros n Hn. rewrite <-(app_nil_r (_ <$> _)). apply span_digits_app; [by apply digits_bound|discriminate]. }
  unfold toString, toString_radix. destruct (Z.eqb_spec q 0); [done|].
  destruct (Z.ltb_spec 0 q), (Z.ltb_spec q 0); try lia.
  - rewrite chars_app, chars_str. cbn [chars String.list_ascii_of_string app skip_sign].
    change (Ascii.eqb "+" "-") with false. change (Ascii.eqb "+" "+") with true. cbv iota.
    rewrite Hs by done. pose proof (digits_nonempty 10 q ltac:(lia) ltac:(lia)). 
    pose proof (undigits_digits 10 q ltac:(lia) ltac:(lia)). destruct (digits 10 q); [done|]. f_equal. lia.
  - rewrite !chars_app, chars_str. cbn [chars String.list_ascii_of_string app skip_sign].
    change (Ascii.eqb "-" "-") with true. cbv iota.
    rewrite Hs by lia. pose proof (digits_nonempty 10 (- q) ltac:(lia) ltac:(lia)).
    pose proof (undigits_digits 10 (- q) ltac:(lia) ltac:(lia)). destruct (digits 10 (- q)); [done|]. f_equal. lia.
Qed.

Lemma dval_shift m k ex : 0 <= k -> (dval (m * 10 ^ k) ex == dval m (ex + k))%Q.
Proof. intros Hk. unfold dval. rewrite inject_Z_mult, pow10_Z, pow10_plus by done. ring. Qed.

Lemma undigits_trailing ds z : undigits 10 (ds ++ replicate z 0) = undigits 10 ds * 10 ^ Z.of_nat z.
Proof.
  rewrite undigits_app, length_replicate. rewrite <-(app_nil_r (replicate z 0)), undigits_zeros.
  change (undigits 10 []) with 0. lia.
Qed.

Lemma undigits_positive ds : digits_ok 10 ds -> ds <> [] -> no_leading_zero ds -> 0 < undigits 10 ds.
Proof.
  intros Hok Hne Hlz. destruct ds as [|d ds]; [done|]. apply Forall_cons_1 in Hok as [Hd Hds]. rewrite undigits_cons.
  pose proof (undigits_bound 10 ds ltac:(lia) Hds). cbn [no_leading_zero] in Hlz. nia.
Qed.

Lemma decimal_text_int ip : chars (decimal_text ip []) = digit_char <$> ip.
Proof. unfold decimal_text. by rewrite chars_app, chars_str, app_nil_r. Qed.
Lemma decimal_text_frac ip fp : fp <> [] ->
  chars (decimal_text ip fp) = (digit_char <$> ip) ++ "."%char :: (digit_char <$> fp).
Proof. intros Hf. unfold decimal_text. destruct fp; [done|]. by rewrite chars_app, chars_str, chars_app, chars_str. Qed.

Lemma place_point_reads ds p : digits_ok 10 ds -> ds <> [] -> no_leading_zero ds ->
  reads_decimal (chars (place_point (digit_char <$> ds) p)) (dval (undigits 10 ds) (p - Z.of_nat (length ds))).
Proof.
  intros Hok Hne Hlz. pose proof (undigits_positive ds Hok Hne Hlz) as Hpos.
  assert (0 < length ds)%nat as Hlen by (destruct ds; [done|cbn; lia]).
  unfold place_point. rewrite length_fmap.
  destruct ((Z.of_nat (length ds) <=? p) && (p <=? 21)) eqn:C1; [|destruct ((0 <? p) && (p <=? 21)) eqn:C2;
    [|destruct ((-6 <? p) && (p <=? 0)) eqn:C3]].
  - apply andb_true_iff in C1 as [C1%Z.leb_le _].
    exists (ds ++ replicate (Z.to_nat (p - Z.of_nat (length ds))) 0), [], [], 0.
    rewrite !app_nil_r, decimal_text_int, chars_str, fmap_app, fmap_replicate, undigits_trailing.
    split; [done|]. split; [by destruct ds|]. split; [by apply digits_ok_app; split; [|apply digits_ok_zeros]|].
    split; [apply Forall_nil_2|]. split; [by left|]. split; [left; by destruct ds|]. split; [nia|].
    rewrite dval_shift by lia. rewrite Z2Nat.id by lia. cbn [length]. by replace (0 - Z.of_nat 0 + _) with (p - Z.of_nat (length ds)) by lia.
  - apply andb_true_iff in C2 as [C2%Z.ltb_lt C2'%Z.leb_le]. apply andb_false_iff in C1 as [C1%Z.leb_gt|C1%Z.leb_gt]; [|lia].
    exists (take (Z.to_nat p) ds), (drop (Z.to_nat p) ds), [], 0.
    assert (drop (Z.to_nat p) ds <> []) by (intros E%(f_equal length); rewrite length_drop in E; cbn in E; lia).
    rewrite app_nil_r, decimal_text_frac, take_drop by done.
    split; [rewrite !chars_app, !chars_str, fmap_take, fmap_drop; done|].
    split; [intros E%(f_equal length); rewrite length_take in E; cbn in E; lia|].
    split; [by apply Forall_take|]. split; [by apply Forall_drop|]. split; [by left|].
    split; [left; destruct ds; [done|]; by destruct (Z.to_nat p) eqn:E; [lia|]|]. split; [done|].
    rewrite length_drop. by replace (0 - _) with (p - Z.of_nat (length ds)) by lia.
  - apply andb_true_iff in C3 as [_ C3%Z.leb_le].
    exists [0], (replicate (Z.to_nat (- p)) 0 ++ ds), [], 0. rewrite app_nil_r, decimal_text_frac by (destruct (Z.to_nat (- p)); [by destruct ds|done]).
    assert (undigits 10 ([0] ++ replicate (Z.to_nat (- p)) 0 ++ ds) = undigits 10 ds) as ->
      by (change [0] with (replicate 1 0); by rewrite !undigits_zeros).
    split; [rewrite chars_app, chars_str, fmap_app, fmap_replicate; done|]. split; [done|].
    split; [by apply (digits_ok_zeros 10 1)|]. split; [by apply digits_ok_app; split; [apply digits_ok_zeros|]|].
    split; [by left|]. split; [by right|]. split; [done|].
    rewrite length_app, length_replicate. by replace (0 - _) with (p - Z.of_nat (length ds)) by lia.
  - assert (p - 1 <> 0) as Hq.
    { apply andb_false_iff in C2 as [C2%Z.ltb_ge|C2%Z.leb_gt]; [|lia]. lia. }
    destruct ds as [|d ds]; [done|]. 
    exists [d], ds, ("e"%char :: chars ((if 0 <? p - 1 then "+" else "") +:+ toString (p - 1))), (p - 1).
    split.
    { destruct ds as [|d' ds].
      - rewrite decimal_text_int. cbn [length fmap list_fmap take]. by rewrite !chars_app, chars_str.
      - rewrite decimal_text_frac by done. destruct (Z.eqb_spec (Z.of_nat (length (d :: d' :: ds))) 1) as [E|]; [cbn [length] in E; lia|].
        cbn [fmap list_fmap take drop]. rewrite !chars_app, !chars_str. cbn [app]. by rewrite <-!app_assoc. }
    apply Forall_cons_1 in Hok as [Hd Hds]. split; [done|]. split; [by apply Forall_cons_2; [|apply Forall_nil_2]|].
    split; [done|]. split; [right; eexists; split; [done|by apply exponent_part_text]|]. split; [by left|]. split; [done|].
    cbn [app length]. by replace (p - 1 - Z.of_nat (length ds)) with (p - Z.of_nat (S (length ds))) by lia.
Qed.

(** [l] is a literal that denotes the number [x]. *)
Definition number_text (l : list ascii) (x : num) : Prop :=
  exists ip fp tail ex, l = chars (decimal_text ip fp) ++ tail /\ ip <> [] /\ digits_ok 10 ip /\ digits_ok 10 fp /\
    (tail = [] /\ ex = 0 \/ (exists t, tail = "e"%char :: t /\ exponent_part tail = (ex, []))) /\
    (no_leading_zero ip \/ ip = [0]) /\
    of_decimal (undigits 10 (ip ++ fp)) (ex - Z.of_nat (length fp)) = x.

Lemma reads_number l m ex : 0 < m -> reads_decimal l (dval m ex) -> number_text l (of_decimal m ex).
Proof.
  intros Hm (ip & fp & tail & ex' & Hl & Hne & Hip & Hfp & Ht & Hz & Hp & Hv).
  exists ip, fp, tail, ex'. repeat (split; [done|]). by apply of_decimal_ext.
Qed.

Lemma drop_zeros_split l : exists z, l = replicate z 0 ++ drop_zeros l.
Proof. induction l as [|[| |] l [z IH]]; [by exists 0%nat|exists (S z); cbn; by rewrite <-IH|by exists 0%nat..]. Qed.

Lemma num_digits_text c : 0 < c.1 -> number_text (chars (num_digits c)) (of_decimal c.1 c.2).
Proof.
  intros Hc. apply reads_number; [done|]. unfold num_digits. set (ds := digits 10 c.1).
  destruct (drop_zeros_split (reverse ds)) as [z Hz]. set (ds' := reverse (drop_zeros (reverse ds))).
  assert (ds = ds' ++ replicate z 0) as Hds.
  { unfold ds'. rewrite <-(reverse_involutive ds), Hz at 1. by rewrite reverse_app, reverse_replicate. }
  assert (undigits 10 ds = c.1) as Hu by (apply undigits_digits; lia).
  pose proof (digits_bound 10 c.1 ltac:(lia)) as Hok. pose proof (digits_head 10 c.1 ltac:(lia)) as Hh. fold ds in Hok, Hh.
  rewrite Hds in Hu, Hok, Hh. rewrite undigits_trailing in Hu. apply digits_ok_app in Hok as [Hok _].
  assert (ds' <> []) as Hne by (intros E; rewrite E in Hu; change (undigits 10 []) with 0 in Hu; lia).
  pose proof (place_point_reads ds' (Z.of_nat (length ds) + c.2) Hok Hne ltac:(by destruct ds')) as H.
  assert (dval (undigits 10 ds') (Z.of_nat (length ds) + c.2 - Z.of_nat (length ds')) == dval c.1 c.2)%Q as Hv.
  { rewrite <-Hu, dval_shift by lia. rewrite Hds, length_app, length_replicate.
    by replace (c.2 + Z.of_nat z) with (Z.of_nat (length ds' + z) + c.2 - Z.of_nat (length ds')) by lia. }
  destruct H as (ip & fp & tail & ex & H). exists ip, fp, tail, ex.
  destruct H as (? & ? & ? & ? & ? & ? & ? & Hq). repeat (split; [done|]). by rewrite Hq, Hv.
Qed.

(** The text of a number: a sign and a literal of its magnitude. *)
Lemma num_toString_text m e : is_double (Fin m e) ->
  exists l, chars (num_toString (Fin m e)) = (if m <? 0 then ["-"%char] else []) ++ l /\
    number_text l (Fin (Z.abs m) e).
Proof.
  intros Hd. unfold num_toString. destruct (Z.eqb_spec m 0) as [->|Hm].
  - destruct Hd as [[_ ->]|(Ho & _)]; [|done]. exists ["0"%char]. split; [done|].
    exists [0], [], [], 0. split; [done|]. split; [done|]. split; [by apply (digits_ok_zeros 10 1)|].
    split; [apply Forall_nil_2|]. split; [by left|]. split; [by right|]. done.
  - destruct (shortest_reads_back (Z.abs m) e ltac:(lia)) as (c & Hs & Hof & Hc).
    { destruct Hd as [[? _]|(Ho & Hlt & He & Hhi)]; [done|]. right. rewrite Z.abs_idemp.
      split; [by destruct m|done]. }
    exists (chars (num_digits c)). rewrite Hs. split; [by destruct (m <? 0); rewrite chars_app|].
    rewrite <-Hof. by apply num_digits_text.
Qed.

Lemma span_digits_tail l r ds : span_digits l = (ds, []) -> ends_digits r = true -> span_digits (l ++ r) = (ds, r).
Proof.
  revert ds. induction l as [|c l IH]; intros ds H Hr.
  - injection H as <-. destruct r as [|c r]; [done|]. cbn [app span_digits]. cbn [ends_digits] in Hr.
    apply andb_true_iff in Hr as [->%negb_true_iff _]. done.
  - cbn [app span_digits] in *. destruct (is_digit 10 c); [|done].
    destruct (span_digits l) as [ds' r'] eqn:E. injection H as <- ->. by rewrite (IH ds').
Qed.

Lemma exponent_part_tail t ex r : exponent_part ("e"%char :: t) = (ex, []) -> ends_digits r = true ->
  exponent_part ("e"%char :: t ++ r) = (ex, r).
Proof.
  unfold exponent_part. change (Ascii.eqb (lower "e") "e") with true. cbv iota. intros H Hr.
  destruct t as [|c t]; [done|].
  assert (skip_sign ((c :: t) ++ r) = ((skip_sign (c :: t)).1, (skip_sign (c :: t)).2 ++ r)) as ->
    by (cbn [skip_sign app]; by destruct (Ascii.eqb c "-"), (Ascii.eqb c "+")).
  destruct (skip_sign (c :: t)) as [sign l]. cbn [fst snd].
  destruct (span_digits l) as [ds r'] eqn:E. destruct ds as [|d ds]; [done|].
  injection H as <- ->. by rewrite (span_digits_tail l r _ E Hr).
Qed.

(** Reading the literal back, followed by something that cannot continue it. *)
Lemma number_text_parse l x r : number_text l x -> ends_digits r = true -> exponent_part r = (0, r) ->
  exists m ex, parse_decimal (l ++ r) = Some (m, ex, r) /\ of_decimal m ex = x.
Proof.
  intros (ip & fp & tail & ex & -> & Hne & Hip & Hfp & Ht & _ & Hx) Hr Hr'. rewrite <-app_assoc.
  destruct Ht as [[-> ->]|(t & -> & He)].
  - cbn [app]. rewrite parse_decimal_tail, Hr' by done. by eexists _, _.
  - rewrite parse_decimal_tail by done. cbn [app]. rewrite (exponent_part_tail t ex r He Hr). by eexists _, _.
Qed.

Lemma number_text_head l x : number_text l x -> exists c l', l = c :: l' /\ is_digit 10 c = true.
Proof.
  intros (ip & fp & tail & ex & -> & Hne & Hip & _). destruct (digits_text_cons ip fp Hne Hip) as (c & l' & -> & Hc).
  by eexists c, _.
Qed.

Lemma digit_not_infinity l c l' : l = c :: l' -> is_digit 10 c = true -> starts_infinity l = false.
Proof.
  intros -> Hc. unfold starts_infinity, startsWith, str. cbn [String.string_of_list_ascii String.prefix].
  destruct (Ascii.ascii_dec "I" c) as [<-|]; [done|done].
Qed.

(** Printing a number and reading it with [parseFloat] gives it back. *)
Lemma parseFloat_num_toString x : is_double x -> parseFloat (num_toString x) = x.
Proof.
  destruct x as [| |m e]; [done..|]. intros Hd. destruct (num_toString_text m e Hd) as (l & Hl & Ht).
  destruct (number_text_head l _ Ht) as (c & l' & Hc & Hdig).
  destruct (number_text_parse l _ [] Ht eq_refl eq_refl) as (n & ex & Hp & Hof). rewrite app_nil_r in Hp.
  unfold parseFloat. rewrite Hl.
  assert (skip_sign (drop_spaces ((if m <? 0 then ["-"%char] else []) ++ l)) = (if m <? 0 then -1 else 1, l)) as ->.
  { subst l. destruct (m <? 0); cbn [app drop_spaces].
    - done.
    - rewrite (is_digit_not_space 10) by done. cbn [skip_sign]. by destruct (is_digit_not_sign 10 c Hdig) as [-> ->]. }
  rewrite (digit_not_infinity l c l'), Hp, Hof by done.
  destruct (Z.ltb_spec m 0); cbn [signed_num]; unfold signed_num; cbn; f_equal; lia.
Qed.

(** ** Every rounding is a number of the format *)

Definition is_num (x : num) : Prop := match x with Fin _ _ => is_double x | _ => True end.

Lemma is_num_neg x : is_num x -> is_num (neg x).
Proof.
  destruct x as [| |m e]; [done..|]. intros [[-> ->]|(H1 & H2 & H3 & H4)]; [by left|].
  right. rewrite Z.abs_opp. split; [by destruct m|done].
Qed.

Lemma rn_pos_bound n d : 0 < n -> 0 < d -> 0 <= rn_pos n d <= 2 ^ 53.
Proof.
  intros Hn Hd. destruct (exponent_spec n d Hn Hd) as [H1 H2].
  pose proof (round_error n d (ulp_exp n d) Hd) as H. cbv zeta in H. change (nearest_even _ _) with (rn_pos n d) in H.
  apply Qabs_Qle_condition in H as [H3 H4]. unfold fval in *. pose proof (pow2_pos (ulp_exp n d)) as Hp.
  assert (2 ^ (exponent n d + 1) <= 9007199254740992 * 2 ^ ulp_exp n d)%Q as Hle.
  { change 9007199254740992%Q with (2 ^ 53)%Q. rewrite <-pow2_plus. apply pow2_le. unfold ulp_exp. lia. }
  assert (0 < ratio n d)%Q as Hr by (pose proof (pow2_pos (exponent n d)); lra).
  set (t := (2 ^ ulp_exp n d)%Q) in *. set (r := ratio n d) in *. set (M := rn_pos n d) in *. split.
  - assert (inject_Z (-1) < inject_Z M)%Q as Ha by (apply (Qmult_lt_r _ _ _ Hp); change (inject_Z (-1)) with (-1)%Q; lra).
    rewrite <-Zlt_Qlt in Ha. lia.
  - assert (inject_Z M < inject_Z (2 ^ 53 + 1))%Q as Ha.
    { apply (Qmult_lt_r _ _ _ Hp). change (inject_Z (2 ^ 53 + 1)) with 9007199254740993%Q. lra. }
    rewrite <-Zlt_Qlt in Ha. lia.
Qed.

Lemma rn_is_num n d : 0 < d -> is_num (rn n d).
Proof.
  assert (forall k, 0 < k -> 0 < d -> is_num (rn k d)) as Hpos.
  { clear n. intros n Hn Hd. pose proof (rn_pos_bound n d Hn Hd) as HM. rewrite rn_positive by done.
    set (u := ulp_exp n d). set (M := rn_pos n d) in *. assert (-1074 <= u) as Hu by (unfold u, ulp_exp; lia).
    destruct (Z.leb_spec (2 ^ (1024 - u)) M) as [|Hlt]; [done|].
    destruct (norm_spec M u) as (m & e & HN & Hv & Hs). rewrite HN.
    destruct (decide (M = 0)) as [E|E]; [rewrite E in HN; injection HN as <- <-; by left|].
    destruct (Hs E) as (He & Hm & Ho). assert (0 < m) as Hm0 by nia. right.
    rewrite Z.abs_eq by lia. split; [done|]. split; [|split; [lia|]].
    - assert (m <= M) by (assert (1 <= 2 ^ (e - u)) by lia; nia).
      assert (m <> 2 ^ 53) by (intros ->; done). lia.
    - rewrite Hv. assert (u <= 1024) as Hu'.
      { apply Z.nlt_ge. intros Hgt. rewrite Z.pow_neg_r in Hlt by lia. lia. }
      rewrite Zlt_Qlt, pow2_Z in Hlt by lia. apply (Qmult_lt_r _ _ _ (pow2_pos u)) in Hlt.
      rewrite <-pow2_plus in Hlt. replace (1024 - u + u) with 1024 in Hlt by lia. exact Hlt. }
  intros Hd. destruct (Z.lt_trichotomy n 0) as [H|[->|H]].
  - replace n with (- - n) by lia. rewrite rn_opp. apply is_num_neg, Hpos; lia.
  - by left.
  - by apply Hpos.
Qed.

Lemma of_decimal_is_num m ex : is_num (of_decimal m ex).
Proof. destruct (of_decimal_rn m ex) as (n & d & -> & Hd & _). by apply rn_is_num. Qed.

Lemma parseFloat_is_num s : is_num (parseFloat s).
Proof.
  unfold parseFloat. destruct (skip_sign _) as [sign l]. destruct (starts_infinity l); [done|].
  destruct (parse_decimal l) as [[[m ex] r]|]; [|done]. unfold signed_num.
  pose proof (of_decimal_is_num m ex). destruct (sign <? 0); [by apply is_num_neg|done].
Qed.

Lemma of_Z_is_num n : is_num (of_Z n).
Proof. by apply rn_is_num. Qed.

(** ** The characters of a number's text

    Below [10^21] there is no exponent with a [+] sign. *)

Lemma pow10_le a b : a <= b -> (pow10 a <= pow10 b)%Q.
Proof. intros H. apply Qpower_le_compat_l; [lia|discriminate]. Qed.

Lemma decimal_exponent_upper n d : 0 < n -> 0 < d -> (ratio n d < pow10 (decimal_exponent n d))%Q.
Proof.
  intros Hn Hd. unfold decimal_exponent. pose proof (inject_pos d Hd) as Hq. pose proof (ratio_mult n d Hd) as Hr.
  apply (Qmult_lt_r _ _ _ Hq). rewrite Hr. destruct (Z.leb_spec d n) as [Hle|Hlt].
  - assert (0 < n / d) as Hp by (apply Z.div_str_pos; lia). destruct (digits_length_pow _ Hp) as [_ H].
    rewrite <-pow10_Z, <-inject_Z_mult, <-Zlt_Qlt by lia. pose proof (Z.mul_succ_div_gt n d Hd). nia.
  - assert (0 < (d - 1) / n) as Hp by (apply Z.div_str_pos; lia). destruct (digits_length_pow _ Hp) as [H _].
    set (L := Z.of_nat (length (digits 10 ((d - 1) / n)))) in *.
    assert (1 <= L) as HL by (pose proof (digits_nonempty 10 _ ltac:(lia) Hp); destruct (digits 10 ((d - 1) / n)); [done|cbn [length] in *; lia]).
    assert (n * 10 ^ (L - 1) < d) as Hd' by (pose proof (Z.mul_div_le (d - 1) n Hn); nia).
    rewrite Zlt_Qlt, inject_Z_mult, pow10_Z in Hd' by lia.
    assert (pow10 (- L + 1) * pow10 (L - 1) == 1)%Q as E by (rewrite <-pow10_plus; by replace (- L + 1 + (L - 1)) with 0 by lia).
    apply (Qmult_lt_r _ _ _ (pow10_pos (L - 1))). rewrite <-Qmult_assoc, (Qmult_comm (inject_Z d)), Qmult_assoc, E. lra.
Qed.

Lemma decimal_at_upper n d E k c : 0 < n -> 0 < d -> 0 <= k -> (ratio n d < pow10 E)%Q -> c ∈ decimal_at n d E k ->
  c.2 = E - k /\ c.1 <= 10 ^ k.
Proof.
  intros Hn Hd Hk Hlt. unfold decimal_at. set (ex := E - k). set (a := n * _). set (b := d * _).
  assert (0 < b) as Hb by (unfold b; lia).
  assert (a < 10 ^ k * b) as Hab.
  { rewrite Zlt_Qlt, inject_Z_mult, pow10_Z by done. unfold a, b. rewrite !inject_Z_mult, (pow10_split ex), <-(ratio_mult n d Hd).
    set (p := inject_Z (10 ^ Z.max 0 (- ex))). set (q := inject_Z d).
    assert (0 < q * p)%Q as Hp by (apply Qmult_lt_0_compat; apply inject_pos; lia).
    assert (pow10 E == pow10 k * pow10 ex)%Q as HE by (rewrite <-pow10_plus; by replace (k + ex) with E by (unfold ex; lia)).
    rewrite HE in Hlt. apply (Qmult_lt_r _ _ _ Hp) in Hlt. lra. }
  assert (a / b < 10 ^ k) by (apply Z.div_lt_upper_bound; lia).
  destruct (_ <=? _); rewrite !elem_of_cons; intros [->|[->|H']]; cbn [fst snd]; try lia; by apply elem_of_nil in H'.
Qed.

Lemma shortest_at x n d E fuel k c : shortest x n d E fuel k = Some c ->
  exists j, k <= j /\ c ∈ decimal_at n d E j.
Proof.
  revert k. induction fuel as [|fuel IH]; intros k H; cbn [shortest] in H; [done|].
  destruct (List.find _ _) as [c'|] eqn:F.
  - injection H as <-. apply List.find_some in F as [Hin _]. exists k. split; [lia|by apply list_elem_of_In].
  - destruct (IH _ H) as (j & Hj & Hin). exists j. split; [lia|done].
Qed.

Lemma num_point m e c : 0 < m -> let n := m * 2 ^ Z.max 0 e in let d := 2 ^ Z.max 0 (- e) in
  (ratio n d < pow10 21)%Q -> shortest (Fin m e) n d (decimal_exponent n d) 17 1 = Some c ->
  Z.of_nat (length (digits 10 c.1)) + c.2 <= 21.
Proof.
  intros Hm n d Hlt Hs. assert (0 < n) as Hn by lia. assert (0 < d) as Hd by lia.
  destruct (shortest_sound _ n d _ _ _ _ ltac:(lia) Hd Hs) as [Hof Hc0].
  destruct (shortest_at _ _ _ _ _ _ _ Hs) as (j & Hj & Hin).
  destruct (decimal_at_upper n d _ j c Hn Hd ltac:(lia) (decimal_exponent_upper n d Hn Hd) Hin) as [He Hle].
  pose proof (decimal_exponent_spec n d Hn Hd) as Hspec. set (E := decimal_exponent n d) in *.
  assert (E <= 21) as HE by (apply Z.nlt_ge; intros H; assert (21 <= E - 1) as H'%pow10_le by lia; lra).
  destruct (Z.eq_dec c.1 (10 ^ j)) as [Heq|Hne].
  - assert (length (digits 10 (10 ^ j)) <= Z.to_nat j + 1)%nat as Hlen.
    { apply digits_length_le; [lia|]. replace (Z.of_nat (Z.to_nat j + 1)) with (Z.succ j) by lia. rewrite Z.pow_succ_r; lia. }
    rewrite Heq. destruct (Z.eq_dec E 21) as [E21|]; [|lia]. exfalso.
    rewrite (of_decimal_ext c.1 c.2 1 21) in Hof; [|lia|lia|].
    + change (of_decimal 1 21) with (Fin 476837158203125 21) in Hof. injection Hof as <- <-.
      revert Hlt. unfold n, d. by vm_compute.
    + rewrite Heq, <-(Z.mul_1_l (10 ^ j)), dval_shift by lia. rewrite He, E21. by replace (21 - j + j) with 21 by lia.
  - assert (length (digits 10 c.1) <= Z.to_nat j)%nat as Hlen by (apply digits_length_le; [lia|]; rewrite Z2Nat.id by lia; lia). lia.
Qed.

Definition plain_char (c : ascii) : bool := is_digit 10 c || Ascii.eqb c "." || Ascii.eqb c "e" || Ascii.eqb c "-".

Lemma plain_digits ds : digits_ok 10 ds -> forallb plain_char (digit_char <$> ds) = true.
Proof.
  intros H. apply forallb_forall. intros c Hc. apply list_elem_of_In, list_elem_of_fmap in Hc as (d & -> & Hd).
  unfold plain_char. rewrite is_digit_char; [done| |lia]. by eapply Forall_forall in H.
Qed.

Lemma plain_point ds p : digits_ok 10 ds -> p <= 21 -> forallb plain_char (chars (place_point (digit_char <$> ds) p)) = true.
Proof.
  intros Hok Hp. pose proof (plain_digits ds Hok) as Hds.
  assert (forall n, forallb plain_char (replicate n "0"%char) = true) as Hz by (induction n; done).
  pose proof (plain_digits _ (Forall_take _ (Z.to_nat p) _ Hok)) as Ht. pose proof (plain_digits _ (Forall_drop _ (Z.to_nat p) _ Hok)) as Hd.
  pose proof (plain_digits _ (Forall_take _ 1 _ Hok)) as Ht1. pose proof (plain_digits _ (Forall_drop _ 1 _ Hok)) as Hd1.
  rewrite fmap_take in Ht, Ht1. rewrite fmap_drop in Hd, Hd1.
  unfold place_point. destruct (_ && _); [by rewrite chars_str, forallb_app, Hds, Hz|].
  destruct ((0 <? p) && (p <=? 21)) eqn:C; [by rewrite !chars_app, !chars_str, !forallb_app, Ht, Hd|].
  assert (p <= 0) by (apply andb_false_iff in C as [?%Z.ltb_ge|?%Z.leb_gt]; lia). clear C.
  destruct (_ && _); [by rewrite !chars_app, !chars_str, !forallb_app, Hds, Hz|].
  rewrite !chars_app, !forallb_app, chars_str, Ht1. cbn [andb].
  assert (forallb plain_char (chars (if Z.of_nat (length (digit_char <$> ds)) =? 1 then "" else "." +:+ str (drop 1 (digit_char <$> ds)))) = true) as ->
    by (destruct (_ =? _); [done|]; by rewrite chars_app, chars_str, forallb_app, Hd1).
  destruct (Z.ltb_spec 0 (p - 1)); [lia|]. unfold toString, toString_radix.
  destruct (p - 1 =? 0); [done|]. pose proof (plain_digits _ (digits_bound 10 (- (p - 1)) ltac:(lia))).
  pose proof (plain_digits _ (digits_bound 10 (p - 1) ltac:(lia))).
  by destruct (p - 1 <? 0); rewrite ?chars_app, chars_str, ?forallb_app.
Qed.

Lemma num_toString_plain m e : 0 < m -> is_double (Fin m e) -> (fval m e < pow10 21)%Q ->
  forallb plain_char (chars (num_toString (Fin m e))) = true.
Proof.
  intros Hm Hd Hlt. destruct (shortest_reads_back m e Hm Hd) as (c & Hs & _).
  unfold num_toString. destruct (Z.eqb_spec m 0); [lia|]. destruct (Z.ltb_spec m 0); [lia|]. rewrite Z.abs_eq by lia.
  rewrite Hs. change ("" +:+ num_digits c) with (num_digits c). unfold num_digits. apply plain_point.
  - apply Forall_reverse. destruct (drop_zeros_split (reverse (digits 10 c.1))) as [z Hz].
    pose proof (proj2 (Forall_reverse _ _) (digits_bound 10 c.1 ltac:(lia))) as Hb. rewrite Hz in Hb. by apply Forall_app in Hb as [_ Hb].
  - apply (num_point m e); [done| |done]. by rewrite ratio_dyadic.
Qed.
