(* ===== verification/Amount.v ===== *)
(** * Amounts

    The wallet's amount text ([formatFic] of app.js) and the conversion of a
    typed amount to satoshis ([Math.round(parseFloat(text) * 1e8)]). *)

From Stdlib Require Import QArith Qabs Lqa Qpower.
From S2P Require Import Prelude Digits JsString JsNum JsNumFacts JsNumText.

Open Scope Z_scope.
Open Scope list_scope.

Definition COIN : Z := 100000000.

Definition formatFic (s : Z) : string :=
  let whole := Z.quot s COIN in
  let frac := padStart 8 "0" (toString (Z.rem s COIN)) in
  toString whole +:+ "." +:+ frac.

(** [1e8] *)
Definition num_1e8 : num := Fin 390625 8.

(** [Math.round(amountFic * 1e8)] *)
Definition amount_round (amountFic : num) : num := math_round (mul amountFic num_1e8).
(** [BigInt(Math.round(amountFic * 1e8))] *)
Definition amount_satoshis (amountFic : num) : res Z := BigInt_of_num (amount_round amountFic).

(** ** Exactness of the conversion *)

Lemma num_1e8_literal : of_Z 100000000 = num_1e8.
Proof. by vm_compute. Qed.

Lemma fval_mul m1 e1 m2 e2 : (fval (m1 * m2) (e1 + e2) == fval m1 e1 * fval m2 e2)%Q.
Proof. unfold fval. rewrite inject_Z_mult, pow2_plus. ring. Qed.

(** Rounding the product of a finite positive value with [1e8]. *)
Lemma mul_1e8 m e : (2 ^ (-1000) <= fval m e)%Q -> (fval m e < 2 ^ 900)%Q ->
  exists m' e', mul (Fin m e) num_1e8 = Fin m' e' /\
    (Qabs (fval m' e' - fval m e * inject_Z COIN) <= fval m e * inject_Z COIN * 2 ^ (-53))%Q.
Proof.
  intros Hlo Hhi. unfold num_1e8, mul, rn_dyadic.
  assert (fval (m * 390625) (e + 8) == fval m e * inject_Z COIN)%Q as Hv by (rewrite fval_mul; reflexivity).
  pose proof (ratio_dyadic (m * 390625) (e + 8)) as Hr. rewrite Hv in Hr.
  assert (0 < m) as Hm.
  { apply Z.nle_gt. intros Hm. rewrite Zle_Qle in Hm. unfold fval in Hlo. change (inject_Z 0) with 0%Q in Hm.
    pose proof (pow2_pos e). pose proof (pow2_pos (-1000)). nra. }
  change (inject_Z COIN) with (100000000)%Q in *.
  destruct (rn_error (m * 390625 * 2 ^ Z.max 0 (e + 8)) (2 ^ Z.max 0 (- (e + 8)))) as (m' & e' & Heq & Herr).
  - lia.
  - lia.
  - rewrite Hr. assert (2 ^ (-1022) <= 2 ^ (-1000))%Q by (apply pow2_le; lia).
    pose proof (pow2_pos (-1000)). lra.
  - rewrite Hr. apply Qlt_trans with (2 ^ 900 * 100000000)%Q; [lra|by vm_compute].
  - exists m', e'. split; [done|]. rewrite <-!Hr. done.
Qed.

(** A decimal within [2^51] satoshis that is a whole number of satoshis. *)
Lemma amount_exact_aux n d v : 0 < d -> 0 < v < 2 ^ 51 -> n * COIN = v * d ->
  amount_satoshis (rn n d) = Ok v.
Proof.
  intros Hd Hv Hn.
  assert (ratio n d * inject_Z COIN == inject_Z v)%Q as Hr.
  { unfold ratio. pose proof (inject_pos d Hd) as Hq.
    assert (inject_Z n * inject_Z COIN == inject_Z v * inject_Z d)%Q as H by (rewrite <-!inject_Z_mult; by rewrite Hn).
    rewrite <-(Qdiv_mult_l (inject_Z v) (inject_Z d)) by lra. rewrite <-H. field. lra. }
  change (inject_Z COIN) with 100000000%Q in *.
  assert (0 < n) as Hn0 by (assert (0 < v * d) by nia; unfold COIN in Hn; lia).
  assert (1 <= inject_Z v /\ inject_Z v <= 2 ^ 51 - 1)%Q as [Hv1 Hv2].
  { split; [change 1%Q with (inject_Z 1); rewrite <-Zle_Qle; lia|].
    assert (v <= 2 ^ 51 - 1) as H by lia. rewrite Zle_Qle in H. apply H. }
  destruct (rn_error n d Hn0 Hd) as (m & e & -> & He).
  { assert (2 ^ (-1022) <= 1 # 100000000)%Q by (by vm_compute). lra. }
  { apply Qlt_trans with (2 ^ 51)%Q; [lra|by vm_compute]. }
  set (r := ratio n d) in *. set (x := fval m e).
  assert (2 ^ (-53) == 1 # 9007199254740992)%Q as H53 by reflexivity. rewrite H53 in He.
  apply Qabs_Qle_condition in He as [He1 He2]. fold x in He1, He2.
  destruct (mul_1e8 m e) as (m' & e' & Hm & He').
  { fold x. assert (2 ^ (-1000) <= 1 # 200000000)%Q by (by vm_compute). lra. }
  { fold x. apply Qlt_trans with (2 ^ 52)%Q; [|by vm_compute]. change (2 ^ 52)%Q with 4503599627370496%Q.
    change (2 ^ 51)%Q with 2251799813685248%Q in *. lra. }
  fold x in He'. rewrite H53 in He'. change (inject_Z COIN) with 100000000%Q in He'.
  apply Qabs_Qle_condition in He' as [He1' He2'].
  unfold amount_satoshis, amount_round. rewrite Hm. unfold math_round. rewrite (fin_round_near m' e' v).
  - apply BigInt_norm.
  - change (2 ^ 51)%Q with 2251799813685248%Q in *. apply Qabs_Qlt_condition. lra.
Qed.

(** ** Typed amounts *)

Definition satoshi_value (ip fp : list Z) : Z := undigits 10 (ip ++ fp) * 10 ^ (8 - Z.of_nat (length fp)).

Lemma of_decimal_satoshis ip fp v : (length fp <= 8)%nat -> satoshi_value ip fp = v -> 0 < v < 2 ^ 51 ->
  exists n d, of_decimal (undigits 10 (ip ++ fp)) (- Z.of_nat (length fp)) = rn n d /\ 0 < d /\ n * COIN = v * d.
Proof.
  intros Hlen <- Hv. unfold of_decimal, satoshi_value in *. destruct fp as [|f fp].
  - eexists _, _. split; [done|]. cbn [length]. rewrite Z.sub_0_r. unfold COIN. lia.
  - destruct (Z.leb_spec 0 (- Z.of_nat (length (f :: fp)))); [cbn [length] in *; lia|].
    eexists _, _. split; [done|]. rewrite Z.opp_involutive. set (k := Z.of_nat (length (f :: fp))) in *.
    split; [lia|]. rewrite <-Z.mul_assoc, <-Z.pow_add_r by lia. replace (8 - k + k) with 8 by lia. done.
Qed.

(** a typed amount with at most eight decimals and below 2^51 satoshis
    (about 22.5 million FIC) is converted to exactly the satoshis it denotes:
    neither reading it as a binary floating point number nor multiplying by
    1e8 can move [Math.round] off the intended integer. *)
Theorem amount_text_exact ip fp v : digits_ok 10 ip -> digits_ok 10 fp -> ip <> [] -> (length fp <= 8)%nat ->
  satoshi_value ip fp = v -> 0 < v < 2 ^ 51 ->
  amount_satoshis (parseFloat (decimal_text ip fp)) = Ok v.
Proof.
  intros Hip Hfp Hne Hlen Hval Hv. rewrite parseFloat_text by done.
  destruct (of_decimal_satoshis ip fp v Hlen Hval Hv) as (n & d & -> & Hd & Hn). by apply amount_exact_aux.
Qed.

Lemma amount_text_exact_witness :
  amount_satoshis (parseFloat "12345.67890001") = Ok 1234567890001.
Proof.
  apply (amount_text_exact [1; 2; 3; 4; 5] [6; 7; 8; 9; 0; 0; 0; 1]).
  - repeat (apply Forall_cons_2; [lia|]). apply Forall_nil_2.
  - repeat (apply Forall_cons_2; [lia|]). apply Forall_nil_2.
  - discriminate.
  - apply le_n.
  - reflexivity.
  - split; reflexivity.
Defined.

(** ** Printed amounts *)

(** The digits of a printed natural number. *)
Definition nat_digits (n : Z) : list Z := if n =? 0 then [0] else digits 10 n.

Lemma toString_digits n : 0 <= n -> toString n = str (digit_char <$> nat_digits n).
Proof.
  intros Hn. unfold toString, toString_radix, nat_digits. destruct (n =? 0); [done|].
  by destruct (Z.ltb_spec n 0); [lia|].
Qed.

Lemma nat_digits_ok n : 0 <= n -> digits_ok 10 (nat_digits n) /\ nat_digits n <> [] /\ undigits 10 (nat_digits n) = n.
Proof.
  intros Hn. unfold nat_digits. destruct (Z.eqb_spec n 0) as [->|].
  - split; [by apply (digits_ok_zeros 10 1)|done].
  - split; [by apply digits_bound|]. split; [by apply digits_nonempty; lia|by apply undigits_digits].
Qed.

Lemma nat_digits_length n k : 0 <= n < 10 ^ Z.of_nat k -> (0 < k)%nat -> (length (nat_digits n) <= k)%nat.
Proof.
  intros Hn Hk. unfold nat_digits. destruct (Z.eqb_spec n 0); [cbn; lia|].
  apply digits_length_le; lia.
Qed.

(** A non-negative amount is printed as a decimal with eight fraction digits. *)
Lemma formatFic_text v : 0 <= v -> exists ip fp, formatFic v = decimal_text ip fp /\
  digits_ok 10 ip /\ digits_ok 10 fp /\ ip <> [] /\ length fp = 8%nat /\ satoshi_value ip fp = v.
Proof.
  intros Hv. unfold formatFic. rewrite Z.quot_div_nonneg, Z.rem_mod_nonneg by (unfold COIN; lia).
  assert (0 <= v mod COIN < 10 ^ Z.of_nat 8) as Hr by (apply Z.mod_pos_bound; done).
  assert (0 <= v / COIN) as Hq by (apply Z.div_pos; done).
  destruct (nat_digits_ok (v / COIN) Hq) as (Hq1 & Hq2 & Hq3).
  destruct (nat_digits_ok (v mod COIN) ltac:(lia)) as (Hr1 & Hr2 & Hr3).
  pose proof (nat_digits_length _ 8 Hr ltac:(lia)) as Hlen.
  set (k := (8 - length (nat_digits (v mod COIN)))%nat).
  exists (nat_digits (v / COIN)), (replicate k 0 ++ nat_digits (v mod COIN)).
  assert (length (replicate k 0 ++ nat_digits (v mod COIN)) = 8%nat) as Hl by (rewrite length_app, length_replicate; lia).
  split; [|split; [done|split; [by apply digits_ok_app; split; [apply digits_ok_zeros|]|split; [done|split; [done|]]]]].
  - rewrite !toString_digits by lia. apply chars_inj. rewrite decimal_text_frac by (intros E; by rewrite E in Hl).
    unfold padStart, repeat_char. rewrite !chars_app, !chars_str, length_fmap, fmap_app, fmap_replicate. done.
  - unfold satoshi_value. rewrite undigits_app, undigits_zeros, Hq3, Hr3, Hl.
    pose proof (Z.div_mod v COIN ltac:(done)). change (10 ^ (8 - Z.of_nat 8)) with 1.
    change (10 ^ Z.of_nat 8) with COIN. lia.
Qed.

(** An amount the wallet prints, typed back into an amount field, is
    converted to the same number of satoshis (up to 2^51). *)
Theorem formatFic_roundtrip v : 0 < v < 2 ^ 51 -> amount_satoshis (parseFloat (formatFic v)) = Ok v.
Proof.
  intros Hv. destruct (formatFic_text v ltac:(lia)) as (ip & fp & -> & Hip & Hfp & Hne & Hlen & Hval).
  rewrite parseFloat_text by done.
  destruct (of_decimal_satoshis ip fp v ltac:(lia) Hval Hv) as (n & d & -> & Hd & Hn). by apply amount_exact_aux.
Qed.

Lemma formatFic_roundtrip_witness : amount_satoshis (parseFloat "0.00000001") = Ok 1.
Proof. apply (formatFic_roundtrip 1). split; reflexivity. Defined.

(** Above 2^53 satoshis the conversion is off: an amount of
    90071992.54740993 FIC, typed with all its decimals, becomes one satoshi
    more than it denotes. *)
Theorem amount_text_inexact :
  formatFic 9007199254740993 = "90071992.54740993" /\
  amount_satoshis (parseFloat (formatFic 9007199254740993)) = Ok 9007199254740994.
Proof. split; by vm_compute. Qed.
