(* ===== verification/Texts.v ===== *)
(** * Texts of the wallet page

    [escapeHtml] of app.js, and payment URIs: [parseBip21] and the URI that
    [refreshReceiveQr] puts in the QR code. *)

From Stdlib Require Import QArith Lqa.
From S2P Require Import Prelude Digits JsString JsInt Bytes Crypto Base58 Bech32 Address Tx Message JsNum JsNumFacts JsNumText.

Open Scope Z_scope.
Open Scope list_scope.

(** ** HTML *)

Definition quote_char : ascii := chr 34.

Definition html_entity (c : ascii) : option string :=
  if Ascii.eqb c "&" then Some "&amp;"
  else if Ascii.eqb c "<" then Some "&lt;"
  else if Ascii.eqb c ">" then Some "&gt;"
  else if Ascii.eqb c quote_char then Some "&quot;"
  else if Ascii.eqb c "'" then Some "&#39;"
  else None.
Definition escape_char (c : ascii) : list ascii :=
  match html_entity c with Some e => chars e | None => [c] end.
Definition escapeHtml (s : string) : string := str (mjoin (escape_char <$> chars s)).

(** ** Query strings

    [new URLSearchParams(query)]: pieces between [&], the name up to the first
    [=], [+] for a space, percent-encoded bytes, decoded as UTF-8.  A decoded
    code point above 255 or a malformed sequence is shown as [chr 255]. *)

Definition hex_pair (a b : ascii) : option Z :=
  if is_digit 16 a && is_digit 16 b then Some (16 * digit_val a + digit_val b) else None.

Fixpoint percent_decode (l : list ascii) : list Z :=
  match l with
  | [] => []
  | c :: l1 =>
      if Ascii.eqb c "+" then 32 :: percent_decode l1
      else if Ascii.eqb c "%" then
        match l1 with
        | a :: b :: l2 => match hex_pair a b with
                          | Some z => z :: percent_decode l2
                          | None => code c :: percent_decode l1
                          end
        | _ => code c :: percent_decode l1
        end
      else utf8_char c ++ percent_decode l1
  end.

Fixpoint utf8_decode (l : list Z) : list ascii :=
  match l with
  | [] => []
  | b :: l1 =>
      if b <? 128 then chr b :: utf8_decode l1
      else match l1 with
           | b2 :: l2 => if ((b =? 0xc2) || (b =? 0xc3)) && (128 <=? b2) && (b2 <? 192)
                         then chr (64 * (b - 0xc0) + (b2 - 128)) :: utf8_decode l2
                         else chr 255 :: utf8_decode l1
           | [] => [chr 255]
           end
  end.
Definition url_decode (l : list ascii) : string := str (utf8_decode (percent_decode l)).

Fixpoint cut_at (sep : ascii) (l : list ascii) : list ascii * list ascii :=
  match l with
  | [] => ([], [])
  | c :: l' => if Ascii.eqb c sep then ([], l') else let '(a, b) := cut_at sep l' in (c :: a, b)
  end.
Definition query_params (query : string) : list (string * string) :=
  omap (fun p => match chars p with
                 | [] => None
                 | l => let '(n, v) := cut_at "=" l in Some (url_decode n, url_decode v)
                 end) (split query "&").
(** [params.get(name)]: the first one. *)
Definition param_get (params : list (string * string)) (name : string) : option string :=
  snd <$> List.find (fun p => String.eqb p.1 name) params.

(** ** Payment URIs *)

Definition URI_SCHEME : string := "firstislamiccoin:".

Definition parseBip21 (text : string) : string * option num :=
  let trimmed := trim text in
  if negb (startsWith (toLowerCase trimmed) URI_SCHEME) then (trimmed, None) else
  let withoutScheme := slice_from trimmed (strlen URI_SCHEME) in
  match split withoutScheme "?" with
  | [] => ("", None)
  | address :: rest =>
      let amount :=
        match rest with
        | query :: _ =>
            if String.eqb query "" then None else
            match param_get (query_params query) "amount" with
            | Some amountStr => if String.eqb amountStr "" then None else Some (parseFloat amountStr)
            | None => None
            end
        | [] => None
        end in
      (address, amount)
  end.

(** The text of the QR code of [refreshReceiveQr]. *)
Definition receive_uri (address amount_field : string) : string :=
  let amountNum := parseFloat (trim amount_field) in
  if ltb (Fin 0 0) amountNum then URI_SCHEME +:+ address +:+ "?amount=" +:+ num_toString amountNum
  else address.

(** ** Escaping *)

(** How a browser reads the five character references. *)
Fixpoint html_decode (l : list ascii) : list ascii :=
  match l with
  | "&"%char :: "a"%char :: "m"%char :: "p"%char :: ";"%char :: l' => "&"%char :: html_decode l'
  | "&"%char :: "l"%char :: "t"%char :: ";"%char :: l' => "<"%char :: html_decode l'
  | "&"%char :: "g"%char :: "t"%char :: ";"%char :: l' => ">"%char :: html_decode l'
  | "&"%char :: "q"%char :: "u"%char :: "o"%char :: "t"%char :: ";"%char :: l' => quote_char :: html_decode l'
  | "&"%char :: "#"%char :: "3"%char :: "9"%char :: ";"%char :: l' => "'"%char :: html_decode l'
  | c :: l' => c :: html_decode l'
  | [] => []
  end.

(** A character that can end a text node or an attribute value. *)
Definition html_special (c : ascii) : bool :=
  Ascii.eqb c "<" || Ascii.eqb c ">" || Ascii.eqb c quote_char || Ascii.eqb c "'".

Lemma html_decode_plain c l : c <> "&"%char -> html_decode (c :: l) = c :: html_decode l.
Proof. intros Hc. destruct c as [[] [] [] [] [] [] [] []]; try done. Qed.

Lemma html_decode_escape c l : html_decode (escape_char c ++ l) = c :: html_decode l.
Proof.
  unfold escape_char, html_entity.
  destruct (Ascii.eqb_spec c "&") as [->|]; [done|].
  destruct (Ascii.eqb_spec c "<") as [->|]; [done|].
  destruct (Ascii.eqb_spec c ">") as [->|]; [done|].
  destruct (Ascii.eqb_spec c quote_char) as [->|]; [done|].
  destruct (Ascii.eqb_spec c "'") as [->|]; [done|]. by apply html_decode_plain.
Qed.

Lemma escape_char_safe c : forallb (fun c => negb (html_special c)) (escape_char c) = true.
Proof. destruct c as [[] [] [] [] [] [] [] []]; reflexivity. Qed.

(** Escaped text holds no character that can end a text node or a quoted
    attribute, and a browser decodes it back to the original text. *)
Theorem escapeHtml_sound s :
  html_decode (chars (escapeHtml s)) = chars s /\
  forallb (fun c => negb (html_special c)) (chars (escapeHtml s)) = true.
Proof.
  unfold escapeHtml. rewrite chars_str. induction (chars s) as [|c l [IH1 IH2]]; [done|].
  cbn [fmap list_fmap]. rewrite mjoin_cons. split.
  - rewrite html_decode_escape. by f_equal.
  - by rewrite forallb_app, escape_char_safe.
Qed.

(** ** The URI of the receive screen *)

Definition without (sep : ascii) (l : list ascii) : bool := forallb (fun c => negb (Ascii.eqb c sep)) l.

Lemma split_list_end sep l cur : without sep l = true -> split_list sep l cur = [reverse cur ++ l].
Proof.
  revert cur. induction l as [|c l IH]; intros cur H; cbn [split_list].
  - by rewrite app_nil_r.
  - cbn in H. apply andb_true_iff in H as [->%negb_true_iff H]. by rewrite IH, reverse_cons, <-app_assoc.
Qed.

Lemma split_list_cut sep l r cur : without sep l = true ->
  split_list sep (l ++ sep :: r) cur = (reverse cur ++ l) :: split_list sep r [].
Proof.
  revert cur. induction l as [|c l IH]; intros cur H; cbn [app split_list].
  - by rewrite eqb_ascii_refl, app_nil_r.
  - cbn in H. apply andb_true_iff in H as [->%negb_true_iff H]. by rewrite IH, reverse_cons, <-app_assoc.
Qed.

Lemma forallb_impl {A} (p q : A -> bool) l : (forall x, p x = true -> q x = true) -> forallb p l = true -> forallb q l = true.
Proof. intros Hpq. rewrite !forallb_forall. intros H x Hx. auto. Qed.

(** The characters of a number's text are not touched by the query syntax. *)
Lemma plain_char_spec c : plain_char c = true ->
  is_space c = false /\ Ascii.eqb c "?" = false /\ Ascii.eqb c "&" = false /\
  Ascii.eqb c "+" = false /\ Ascii.eqb c "%" = false /\ code c < 128.
Proof. destruct c as [[] [] [] [] [] [] [] []]; done. Qed.

Lemma url_decode_plain l : forallb plain_char l = true -> url_decode l = str l.
Proof.
  intros H. unfold url_decode. f_equal. induction l as [|c l IH]; [done|].
  cbn [forallb] in H. apply andb_true_iff in H as [Hc H].
  destruct (plain_char_spec c Hc) as (_ & _ & _ & E1 & E2 & Hlt). cbn [percent_decode]. rewrite E1, E2.
  unfold utf8_char. destruct (Z.ltb_spec (code c) 128); [|lia]. cbn [app utf8_decode].
  destruct (Z.ltb_spec (code c) 128); [|lia]. by rewrite chr_code, IH.
Qed.

Lemma amount_param l : forallb plain_char l = true -> l <> [] ->
  param_get (query_params ("amount=" +:+ str l)) "amount" = Some (str l).
Proof.
  intros H Hne. unfold query_params, split.
  rewrite split_list_end; [cbn [reverse rev_append app]|].
  - cbn [fmap list_fmap omap list_omap]. rewrite chars_str. unfold param_get.
    rewrite chars_app, chars_str. cbn -[url_decode].
    rewrite (url_decode_plain l) by done. reflexivity.
  - rewrite chars_app, chars_str. unfold without. rewrite forallb_app. apply andb_true_iff. split; [done|].
    eapply forallb_impl; [|done]. intros c Hc. by destruct (plain_char_spec c Hc) as (_ & _ & -> & _).
Qed.

Lemma startsWith_app p s : startsWith (p +:+ s) p = true.
Proof.
  unfold startsWith. induction p as [|c p IH]; [by destruct s|].
  change (String c p +:+ s) with (String c (p +:+ s)). cbn [String.prefix].
  destruct (Ascii.ascii_dec c c); [done|congruence].
Qed.

Lemma toLowerCase_app s t : toLowerCase (s +:+ t) = toLowerCase s +:+ toLowerCase t.
Proof. unfold toLowerCase. by rewrite chars_app, fmap_app, str_app. Qed.

Lemma slice_from_app s t : slice_from (s +:+ t) (strlen s) = t.
Proof.
  unfold slice_from, slice, slice_list, slice_pos, strlen. rewrite chars_app, length_app.
  destruct (Z.ltb_spec (Z.of_nat (length (chars s))) 0); [lia|].
  destruct (Z.ltb_spec (Z.of_nat (length (chars s) + length (chars t))) 0); [lia|].
  replace (Z.to_nat _) with (length (chars t)) at 1 by lia.
  replace (Z.to_nat _) with (length (chars s)) by lia. rewrite drop_app_length, take_ge by done. apply str_chars.
Qed.

(** An address as the wallet shows it: no white space, no question mark, and
    not itself a URI. *)
Definition plain_address (a : string) : bool :=
  forallb (fun c => negb (is_space c) && negb (Ascii.eqb c "?")) (chars a) &&
  negb (startsWith (toLowerCase a) URI_SCHEME).

Lemma plain_address_spec a : plain_address a = true ->
  forallb (fun c => negb (is_space c)) (chars a) = true /\ without "?" (chars a) = true /\
  startsWith (toLowerCase a) URI_SCHEME = false.
Proof.
  unfold plain_address. intros [H ->%negb_true_iff]%andb_true_iff. split; [|split; [|done]];
    (eapply forallb_impl; [|exact H]); intros c; cbn; intros [? ?]%andb_true_iff; done.
Qed.

Lemma parseBip21_uri a l : plain_address a = true -> forallb plain_char l = true -> l <> [] ->
  parseBip21 (URI_SCHEME +:+ a +:+ "?amount=" +:+ str l) = (a, Some (parseFloat (str l))).
Proof.
  intros Ha Hl Hne. destruct (plain_address_spec a Ha) as (Hsp & Hq & _). unfold parseBip21.
  assert (forallb (fun c => negb (is_space c)) l = true) as Hls.
  { eapply forallb_impl; [|exact Hl]. intros c Hc. by destruct (plain_char_spec c Hc) as (-> & _). }
  assert (without "?" (chars ("amount=" +:+ str l)) = true) as Hlq.
  { rewrite chars_app, chars_str. unfold without. rewrite forallb_app. apply andb_true_iff. split; [done|].
    eapply forallb_impl; [|exact Hl]. intros c Hc. by destruct (plain_char_spec c Hc) as (_ & -> & _). }
  rewrite trim_none; [|rewrite !chars_app, !forallb_app, chars_str, Hsp, Hls; done].
  rewrite toLowerCase_app. change (toLowerCase URI_SCHEME) with URI_SCHEME. rewrite startsWith_app. cbn [negb].
  rewrite slice_from_app. unfold split. rewrite chars_app.
  change (chars ("?amount=" +:+ str l)) with ("?"%char :: chars ("amount=" +:+ str l)).
  rewrite split_list_cut, split_list_end by done. cbn [fmap list_fmap reverse rev_append app].
  change (str (reverse [] ++ chars a)) with (str (chars a)). change (reverse [] ++ ?x) with x.
  rewrite !str_chars, amount_param by done. by destruct l.
Qed.

(** [1e21], from which on [Number::toString] writes an exponent. *)
Definition num_1e21 : num := Fin 476837158203125 21.

Lemma positive_text x : is_num x -> ltb (Fin 0 0) x = true -> ltb x num_1e21 = true ->
  forallb plain_char (chars (num_toString x)) = true /\ chars (num_toString x) <> [] /\
  parseFloat (num_toString x) = x.
Proof.
  intros Hn H0 H1. destruct x as [| |m e]; [done|by destruct neg|]. cbn [is_num] in Hn. cbn [ltb] in H0, H1.
  apply fin_ltb_spec in H0, H1.
  assert (0 < m) as Hm.
  { unfold fval in H0. pose proof (pow2_pos e). apply Z.nle_gt. intros Hle. rewrite Zle_Qle in Hle.
    change (inject_Z 0) with 0%Q in *. nra. }
  split; [|split; [|by apply parseFloat_num_toString]].
  - apply num_toString_plain; [done|done|]. exact H1.
  - destruct (num_toString_text m e Hn) as (l & -> & Ht). destruct (number_text_head l _ Ht) as (c & l' & -> & _).
    by destruct (m <? 0).
Qed.

(** Scanning the QR code of the receive screen gives back the address
    shown and the requested amount, for every amount below 1e21 (the text of
    a larger one has an exponent with a [+], which a query string reads as a
    space); without a positive amount the code is the bare address. *)
Theorem bip21_roundtrip a field : plain_address a = true ->
  (ltb (Fin 0 0) (parseFloat (trim field)) = true -> ltb (parseFloat (trim field)) num_1e21 = true) ->
  parseBip21 (receive_uri a field) =
    (a, if ltb (Fin 0 0) (parseFloat (trim field)) then Some (parseFloat (trim field)) else None).
Proof.
  intros Ha Hlt. unfold receive_uri. pose proof (parseFloat_is_num (trim field)) as Hn.
  set (x := parseFloat (trim field)) in *. destruct (ltb (Fin 0 0) x) eqn:H0.
  - destruct (positive_text x Hn H0 (Hlt eq_refl)) as (Hp & Hne & Hback).
    rewrite <-(str_chars (num_toString x)), parseBip21_uri, str_chars, Hback by done. done.
  - destruct (plain_address_spec a Ha) as (Hs & _ & Hu). unfold parseBip21. by rewrite trim_none, Hu.
Qed.

Lemma bip21_roundtrip_witness :
  parseBip21 (receive_uri "FTestAddress" "0.1") = ("FTestAddress", Some (parseFloat "0.1")).
Proof.
  apply (bip21_roundtrip "FTestAddress" "0.1").
  - vm_compute. reflexivity.
  - intros _. vm_compute. reflexivity.
Defined.
