(* ===== verification/Json.v ===== *)
(** * JavaScript values and JSON

    The values that travel through [JSON.parse] and [JSON.stringify], with the
    operations the clients apply to them: property access, truthiness,
    [String], [BigInt] and [Number] conversion.  An object is its list of
    properties in insertion order (no code of the clients uses keys that are
    array indices on such objects). *)

From S2P Require Import Prelude Digits JsString JsNum JsNumFacts JsNumText.

Open Scope Z_scope.
Open Scope list_scope.

Unset Elimination Schemes.
Inductive js : Type :=
  | JUndef
  | JNull
  | JBool (b : bool)
  | JNum (x : num)
  | JStr (s : string)
  | JArr (l : list js)
  | JObj (l : list (string * js)).
Set Elimination Schemes.

(** Induction with the hypothesis for every element and property. *)
Fixpoint js_ind (P : js -> Prop) (Hundef : P JUndef) (Hnull : P JNull) (Hbool : forall b, P (JBool b))
    (Hnum : forall x, P (JNum x)) (Hstr : forall s, P (JStr s))
    (Harr : forall l, Forall P l -> P (JArr l))
    (Hobj : forall l, Forall (fun kv => P kv.2) l -> P (JObj l)) (v : js) : P v :=
  let rec := js_ind P Hundef Hnull Hbool Hnum Hstr Harr Hobj in
  match v with
  | JUndef => Hundef
  | JNull => Hnull
  | JBool b => Hbool b
  | JNum x => Hnum x
  | JStr s => Hstr s
  | JArr l => Harr l ((fix go l := match l return Forall P l with
                                   | [] => Forall_nil_2 _
                                   | v :: l => Forall_cons_2 _ _ _ (rec v) (go l)
                                   end) l)
  | JObj l => Hobj l ((fix go l := match l return Forall (fun kv => P kv.2) l with
                                   | [] => Forall_nil_2 _
                                   | kv :: l => Forall_cons_2 _ _ _ (rec kv.2) (go l)
                                   end) l)
  end.

(** ** Objects *)

Fixpoint obj_get (l : list (string * js)) (k : string) : js :=
  match l with
  | [] => JUndef
  | (k', v) :: l => if String.eqb k' k then v else obj_get l k
  end.
(** [o[k] = v]: in place if the property exists, else at the end. *)
Fixpoint obj_set (l : list (string * js)) (k : string) (v : js) : list (string * js) :=
  match l with
  | [] => [(k, v)]
  | (k', v') :: l => if String.eqb k' k then (k', v) :: l else (k', v') :: obj_set l k v
  end.
(** [delete o[k]] *)
Definition obj_delete (l : list (string * js)) (k : string) : list (string * js) :=
  filter (fun kv => kv.1 <> k) l.

(** [v.k]; reading a property of [undefined] or [null] is a [TypeError]. *)
Definition get (v : js) (k : string) : res js :=
  match v with
  | JUndef | JNull => Throw (EngineError ("TypeError: Cannot read properties (reading " +:+ k +:+ ")"))
  | JObj l => Ok (obj_get l k)
  | JArr l => Ok (if String.eqb k "length" then JNum (of_Z (Z.of_nat (length l))) else JUndef)
  | JStr s => Ok (if String.eqb k "length" then JNum (of_Z (strlen s)) else JUndef)
  | _ => Ok JUndef
  end.

(** [for (const x of v)]: the elements. *)
Definition elements (v : js) : res (list js) :=
  match v with
  | JArr l => Ok l
  | JStr s => Ok ((fun c => JStr (str [c])) <$> chars s)
  | _ => Throw (EngineError "TypeError: not iterable")
  end.

Definition truthy (v : js) : bool :=
  match v with
  | JUndef | JNull => false
  | JBool b => b
  | JNum x => negb (falsy x)
  | JStr s => negb (String.eqb s "")
  | JArr _ | JObj _ => true
  end.
(** [v == null] *)
Definition nullishb (v : js) : bool := match v with JUndef | JNull => true | _ => false end.

(** ** Conversions *)

(** [String(v)] *)
Fixpoint js_toString (v : js) : string :=
  match v with
  | JUndef => "undefined"
  | JNull => "null"
  | JBool b => if b then "true" else "false"
  | JNum x => num_toString x
  | JStr s => s
  | JArr l => str_join "," ((fun v => match v with JUndef | JNull => "" | _ => js_toString v end) <$> l)
  | JObj _ => "[object Object]"
  end.

(** [BigInt(v)] *)
Definition to_BigInt (v : js) : res Z :=
  match v with
  | JUndef | JNull => Throw (EngineError ("TypeError: Cannot convert " +:+ js_toString v +:+ " to a BigInt"))
  | JBool b => Ok (if b then 1 else 0)
  | JNum x => BigInt_of_num x
  | _ => BigInt_of_string (js_toString v)
  end.

(** [Number(v)] *)
Definition to_Number (v : js) : num :=
  match v with
  | JUndef => NaN
  | JNull => Fin 0 0
  | JBool b => if b then of_Z 1 else Fin 0 0
  | JNum x => x
  | _ => Number_of_string (js_toString v)
  end.

(** ** Writing JSON *)

Definition json_quote : ascii := chr 34.
Definition backslash : ascii := chr 92.
Definition newline : ascii := chr 10.

Definition hex4 (z : Z) : list ascii :=
  chars (padStart 4 "0" (toString_radix 16 z)).

Definition json_escape (c : ascii) : list ascii :=
  let z := code c in
  if (z =? 34) || (z =? 92) then [backslash; c]
  else if z =? 8 then [backslash; "b"%char]
  else if z =? 9 then [backslash; "t"%char]
  else if z =? 10 then [backslash; "n"%char]
  else if z =? 12 then [backslash; "f"%char]
  else if z =? 13 then [backslash; "r"%char]
  else if z <? 32 then backslash :: "u"%char :: hex4 z
  else [c].
Definition json_string (s : string) : list ascii :=
  json_quote :: mjoin (json_escape <$> chars s) ++ [json_quote].

Fixpoint join_list (sep : list ascii) (l : list (list ascii)) : list ascii :=
  match l with
  | [] => []
  | [x] => x
  | x :: l => x ++ sep ++ join_list sep l
  end.

Definition is_undef (v : js) : bool := match v with JUndef => true | _ => false end.

(** [SerializeJSONProperty] with a gap; [indent] is the current indentation.
    An undefined element of an array is written as [null], an undefined
    property is left out. *)
Fixpoint write_json (gap indent : list ascii) (v : js) : list ascii :=
  let inner := indent ++ gap in
  let nl i := match gap with [] => [] | _ => newline :: i end in
  match v with
  | JUndef | JNull => chars "null"
  | JBool b => chars (if b then "true" else "false")
  | JNum x => chars (match x with Fin _ _ => num_toString x | _ => "null" end)
  | JStr s => json_string s
  | JArr [] => chars "[]"
  | JArr l => "["%char :: nl inner ++
              join_list (","%char :: nl inner) ((fun v => write_json gap inner v) <$> l) ++
              nl indent ++ ["]"%char]
  | JObj l =>
      match mjoin ((fun kv => match kv with (k, v) =>
                     if is_undef v then [] else
                     [json_string k ++ ":"%char :: (match gap with [] => [] | _ => [" "%char] end) ++
                      write_json gap inner v] end) <$> l) with
      | [] => chars "{}"
      | ms => "{"%char :: nl inner ++ join_list (","%char :: nl inner) ms ++ nl indent ++ ["}"%char]
      end
  end.

(** [JSON.stringify(v)] and [JSON.stringify(v, null, 2)] of a defined value. *)
Definition JSON_stringify (v : js) : string := str (write_json [] [] v).
Definition JSON_stringify2 (v : js) : string := str (write_json [" "; " "]%char [] v).

(** ** Reading JSON *)

Definition is_ws (c : ascii) : bool :=
  let z := code c in (z =? 32) || (z =? 9) || (z =? 10) || (z =? 13).
Fixpoint skip_ws (l : list ascii) : list ascii :=
  match l with c :: l' => if is_ws c then skip_ws l' else l | [] => [] end.

Definition simple_escape (c : ascii) : option ascii :=
  let z := code c in
  if (z =? 34) || (z =? 92) || (z =? 47) then Some c
  else if z =? 98 then Some (chr 8)
  else if z =? 116 then Some (chr 9)
  else if z =? 110 then Some (chr 10)
  else if z =? 102 then Some (chr 12)
  else if z =? 114 then Some (chr 13)
  else None.

(** The rest of a string literal; a [\u] escape above 255 has no code unit in
    this model and is refused. *)
Fixpoint read_string (l : list ascii) : option (list ascii * list ascii) :=
  match l with
  | [] => None
  | c :: l1 =>
      if code c =? 34 then Some ([], l1)
      else if code c =? 92 then
        match l1 with
        | e :: l2 =>
            if Ascii.eqb e "u" then
              match l2 with
              | h1 :: h2 :: h3 :: h4 :: l3 =>
                  match parse_nat_all 16 [h1; h2; h3; h4] with
                  | Some z => if z <? 256 then '(s, r) ← read_string l3; Some (chr z :: s, r) else None
                  | None => None
                  end
              | _ => None
              end
            else ch ← simple_escape e; '(s, r) ← read_string l2; Some (ch :: s, r)
        | [] => None
        end
      else if code c <? 32 then None
      else '(s, r) ← read_string l1; Some (c :: s, r)
  end.

(** An unsigned number by the JSON grammar: no leading zero, digits after the
    point, digits in the exponent. *)
Definition json_number_ok (l : list ascii) : bool :=
  let '(ip, r) := span_digits l in
  match ip with [] => false | 0 :: _ :: _ => false | _ => true end &&
  (let '(ok, r) := match r with
                   | c :: r' => if Ascii.eqb c "." then
                                  let '(fp, r'') := span_digits r' in (match fp with [] => false | _ => true end, r'')
                                else (true, r)
                   | [] => (true, [])
                   end in
   ok && match r with
         | c :: _ => if Ascii.eqb (lower c) "e" then negb (length (exponent_part r).2 =? length r)%nat else true
         | [] => true
         end).
Definition read_number (sign : Z) (l : list ascii) : option (num * list ascii) :=
  if json_number_ok l then '(m, ex, r) ← parse_decimal l; Some (signed_num sign (of_decimal m ex), r) else None.

Fixpoint expect (p l : list ascii) : option (list ascii) :=
  match p, l with
  | [], _ => Some l
  | c :: p, d :: l => if Ascii.eqb c d then expect p l else None
  | _, [] => None
  end.

(** The rest after white space and the character [c]. *)
Definition peel (c : ascii) (l : list ascii) : option (list ascii) :=
  match skip_ws l with d :: r => if Ascii.eqb d c then Some r else None | [] => None end.

(** Parsers of a value, of the elements of an array after the bracket, and of
    the members of an object after the brace, up to the closing one. *)
Fixpoint read_value (fuel : nat) (l : list ascii) {struct fuel} : option (js * list ascii) :=
  match fuel with
  | O => None
  | S fuel =>
      match skip_ws l with
      | [] => None
      | c :: l1 =>
          if Ascii.eqb c "{" then
            match peel "}" l1 with
            | Some r => Some (JObj [], r)
            | None => '(ms, r) ← read_members fuel l1 []; Some (JObj ms, r)
            end
          else if Ascii.eqb c "[" then
            match peel "]" l1 with
            | Some r => Some (JArr [], r)
            | None => '(vs, r) ← read_elements fuel l1; Some (JArr vs, r)
            end
          else if Ascii.eqb c json_quote then '(s, r) ← read_string l1; Some (JStr (str s), r)
          else if Ascii.eqb c "-" then '(x, r) ← read_number (-1) l1; Some (JNum x, r)
          else if is_digit 10 c then '(x, r) ← read_number 1 (c :: l1); Some (JNum x, r)
          else if Ascii.eqb c "t" then r ← expect (chars "rue") l1; Some (JBool true, r)
          else if Ascii.eqb c "f" then r ← expect (chars "alse") l1; Some (JBool false, r)
          else if Ascii.eqb c "n" then r ← expect (chars "ull") l1; Some (JNull, r)
          else None
      end
  end
with read_elements (fuel : nat) (l : list ascii) {struct fuel} : option (list js * list ascii) :=
  match fuel with
  | O => None
  | S fuel =>
      '(v, r) ← read_value fuel l;
      match peel "]" r with
      | Some r => Some ([v], r)
      | None => r ← peel "," r; '(vs, r) ← read_elements fuel r; Some (v :: vs, r)
      end
  end
with read_members (fuel : nat) (l : list ascii) (acc : list (string * js)) {struct fuel} : option (list (string * js) * list ascii) :=
  match fuel with
  | O => None
  | S fuel =>
      l ← peel json_quote l;
      '(k, r) ← read_string l;
      r ← peel ":" r;
      '(v, r) ← read_value fuel r;
      let acc := obj_set acc (str k) v in
      match peel "}" r with
      | Some r => Some (acc, r)
      | None => r ← peel "," r; read_members fuel r acc
      end
  end.

(** [JSON.parse(s)] *)
Definition JSON_parse (s : string) : res js :=
  let l := chars s in
  match read_value (S (2 * length l)) l with
  | Some (v, r) => match skip_ws r with [] => Ok v | _ => Throw (EngineError "SyntaxError: JSON.parse") end
  | None => Throw (EngineError "SyntaxError: JSON.parse")
  end.
