(* ===== verification/JsonFacts.v ===== *)
(** * JSON round trip

    What [JSON.stringify] writes, with or without indentation, [JSON.parse]
    reads back. *)

From S2P Require Import Prelude Digits JsString JsNum JsNumFacts JsNumText Json.

Open Scope Z_scope.
Open Scope list_scope.

(** The values JSON can carry: no [undefined], finite numbers, distinct keys. *)
Unset Elimination Schemes.
Inductive json_ok : js -> Prop :=
  | ok_null : json_ok JNull
  | ok_bool b : json_ok (JBool b)
  | ok_num x : is_double x -> json_ok (JNum x)
  | ok_str s : json_ok (JStr s)
  | ok_arr l : Forall json_ok l -> json_ok (JArr l)
  | ok_obj l : NoDup l.*1 -> Forall (fun kv => json_ok kv.2) l -> json_ok (JObj l).
Set Elimination Schemes.

Definition all_ws (l : list ascii) : Prop := Forall (fun c => is_ws c = true) l.

(** What may follow a value. *)
Definition delim (r : list ascii) : Prop :=
  match r with
  | [] => True
  | c :: _ => is_ws c = true \/ c = ","%char \/ c = "]"%char \/ c = "}"%char
  end.

Lemma skip_ws_app w l : all_ws w -> skip_ws (w ++ l) = skip_ws l.
Proof. induction 1 as [|c w Hc _ IH]; [done|]. cbn. by rewrite Hc. Qed.

Lemma peel_app w c l : all_ws w -> peel c (w ++ l) = peel c l.
Proof. intros Hw. unfold peel. by rewrite skip_ws_app. Qed.

Lemma peel_hit c l : is_ws c = false -> peel c (c :: l) = Some l.
Proof. intros Hc. unfold peel. cbn. by rewrite Hc, eqb_ascii_refl. Qed.

Lemma peel_miss c d l : is_ws d = false -> d <> c -> peel c (d :: l) = None.
Proof. intros Hd Hne. unfold peel. cbn. rewrite Hd. by destruct (Ascii.eqb_spec d c). Qed.

Lemma read_value_ws fuel w l : all_ws w -> read_value fuel (w ++ l) = read_value fuel l.
Proof. intros Hw. destruct fuel; [done|]. cbn [read_value]. by rewrite skip_ws_app. Qed.

Lemma read_elements_ws fuel w l : all_ws w -> read_elements fuel (w ++ l) = read_elements fuel l.
Proof. intros Hw. destruct fuel; [done|]. cbn [read_elements]. by rewrite read_value_ws. Qed.

Lemma read_members_ws fuel w l acc : all_ws w -> read_members fuel (w ++ l) acc = read_members fuel l acc.
Proof. intros Hw. destruct fuel; [done|]. cbn [read_members]. by rewrite peel_app. Qed.

(** ** Strings *)

Lemma json_escape_cases c :
  (code c =? 34) || (code c =? 92) = false /\ (code c <? 32) = false /\ json_escape c = [c] \/
  (exists e, json_escape c = [backslash; e] /\ Ascii.eqb e "u" = false /\ simple_escape e = Some c) \/
  (exists a b, json_escape c = [backslash; "u"; "0"; "0"; a; b]%char /\ parse_nat_all 16 ["0"; "0"; a; b]%char = Some (code c)).
Proof.
  destruct c as [[] [] [] [] [] [] [] []];
    first [by left|right; left; eexists; split; [reflexivity|]; by split|right; right; eexists _, _; split; reflexivity].
Qed.

Lemma read_string_app s r : read_string (mjoin (json_escape <$> s) ++ json_quote :: r) = Some (s, r).
Proof.
  induction s as [|c s IH]; [done|]. cbn [fmap list_fmap]. rewrite mjoin_cons, <-app_assoc.
  set (t := mjoin _ ++ _) in *.
  destruct (json_escape_cases c) as [(Hq & Hc & ->)|[(e & -> & Hu & He)|(a & b & -> & Hp)]]; cbn [app].
  - apply orb_false_iff in Hq as [H1 H2]. cbn [read_string]. by rewrite H1, H2, Hc, IH.
  - cbn [read_string]. change (code backslash =? 34) with false. change (code backslash =? 92) with true. cbv iota.
    rewrite Hu, He. cbn [mbind option_bind]. by rewrite IH.
  - cbn [read_string]. change (code backslash =? 34) with false. change (code backslash =? 92) with true.
    change (Ascii.eqb "u" "u") with true. cbv iota. rewrite Hp.
    destruct (Z.ltb_spec (code c) 256); [|pose proof (code_bound c); lia]. by rewrite IH, chr_code.
Qed.

Lemma read_json_string s r : exists t, json_string s ++ r = json_quote :: t /\ read_string t = Some (chars s, r).
Proof.
  exists (mjoin (json_escape <$> chars s) ++ json_quote :: r). split; [|apply read_string_app].
  unfold json_string. cbn [app]. by rewrite <-app_assoc.
Qed.

(** ** Numbers *)

Lemma delim_ends r : delim r -> ends_digits r = true /\ exponent_part r = (0, r) /\
  match r with c :: _ => Ascii.eqb c "." = false /\ Ascii.eqb (lower c) "e" = false | [] => True end.
Proof.
  destruct r as [|c r]; [done|]. intros H.
  assert (is_digit 10 c = false /\ Ascii.eqb c "." = false /\ Ascii.eqb (lower c) "e" = false) as (H1 & H2 & H3).
  { destruct H as [H|[-> |[-> | ->]]]; [|done..]. destruct c as [[] [] [] [] [] [] [] []]; done. }
  split; [cbn; by rewrite H1, H2|]. split; [unfold exponent_part; by rewrite H3|done].
Qed.

Lemma json_number_text l x r : number_text l x -> delim r -> json_number_ok (l ++ r) = true.
Proof.
  intros (ip & fp & tail & ex & -> & Hne & Hip & Hfp & Ht & Hz & _) Hr.
  destruct (delim_ends r Hr) as (He & Hx & Hh). unfold json_number_ok.
  assert (match ip with [] => false | 0 :: _ :: _ => false | _ => true end = true) as Hlz.
  { destruct ip as [|d [|d' ip]]; [done|by destruct d|]. destruct Hz as [Hz|[=]]. by destruct d. }
  set (t := tail ++ r).
  assert (ends_digits t = true /\ match t with c :: _ => Ascii.eqb c "." = false | [] => True end /\
    match t with c :: _ => if Ascii.eqb (lower c) "e" then negb (length (exponent_part t).2 =? length t)%nat else true | [] => true end = true) as (Ht1 & Ht2 & Ht3).
  { unfold t. destruct Ht as [[-> _]|(t' & -> & Hexp)]; cbn [app].
    - split; [done|]. destruct r as [|c r]; [done|]. destruct Hh as [-> ->]. done.
    - split; [done|]. split; [done|]. rewrite (exponent_part_tail t' ex r Hexp He). cbn [snd lower].
      change (Ascii.eqb (lower "e") "e") with true. cbn [length]. rewrite length_app.
      apply negb_true_iff, Nat.eqb_neq. lia. }
  rewrite <-app_assoc. fold t. destruct fp as [|f fp].
  - rewrite decimal_text_int, span_digits_app; [|done|].
    + rewrite Hlz. cbn [andb]. destruct t as [|c t']; [done|]. by rewrite Ht2.
    + intros c r' E. rewrite E in Ht1. cbn in Ht1. apply andb_true_iff in Ht1 as [?%negb_true_iff _]. done.
  - rewrite decimal_text_frac by done. rewrite <-app_assoc. cbn [app]. rewrite span_digits_app; [|done|by intros c r' [= <- <-]].
    rewrite Hlz. change (Ascii.eqb "." ".") with true. cbv iota. cbn [andb].
    rewrite span_digits_app; [by rewrite Ht3|done|].
    intros c r' E. rewrite E in Ht1. cbn in Ht1. apply andb_true_iff in Ht1 as [?%negb_true_iff _]. done.
Qed.

Lemma read_number_text m e r : is_double (Fin m e) -> delim r ->
  exists c t, chars (num_toString (Fin m e)) ++ r = c :: t /\
    (c = "-"%char /\ read_number (-1) t = Some (Fin m e, r) \/
     is_digit 10 c = true /\ read_number 1 (c :: t) = Some (Fin m e, r)).
Proof.
  intros Hd Hr. destruct (num_toString_text m e Hd) as (l & Hl & Ht). rewrite Hl.
  destruct (delim_ends r Hr) as (He & Hx & _).
  destruct (number_text_parse l _ r Ht He Hx) as (n & ex & Hp & Hof).
  destruct (number_text_head l _ Ht) as (c & l' & Hc & Hdig).
  destruct (Z.ltb_spec m 0).
  - exists "-"%char, (l ++ r). split; [done|]. left. split; [done|]. unfold read_number.
    rewrite (json_number_text l _ r Ht Hr), Hp. cbn. rewrite Hof. unfold signed_num. cbn. do 3 f_equal. lia.
  - exists c, (l' ++ r). rewrite Hc. split; [done|]. right. split; [done|]. change (c :: l' ++ r) with ((c :: l') ++ r).
    rewrite <-Hc. unfold read_number. rewrite (json_number_text l _ r Ht Hr), Hp. cbn. rewrite Hof. unfold signed_num. cbn.
    do 3 f_equal. lia.
Qed.

(** ** Arrays and objects *)

Definition nl (gap i : list ascii) : list ascii := match gap with [] => [] | _ => newline :: i end.
Definition member_text (gap inner : list ascii) (kv : string * js) : list ascii :=
  json_string kv.1 ++ ":"%char :: (match gap with [] => [] | _ => [" "%char] end) ++ write_json gap inner kv.2.

Lemma write_json_arr gap indent v l : write_json gap indent (JArr (v :: l)) =
  "["%char :: nl gap (indent ++ gap) ++
  join_list (","%char :: nl gap (indent ++ gap)) (write_json gap (indent ++ gap) <$> (v :: l)) ++ nl gap indent ++ ["]"%char].
Proof. done. Qed.

Lemma write_json_obj gap indent kv l : Forall (fun kv => json_ok kv.2) (kv :: l) ->
  write_json gap indent (JObj (kv :: l)) =
  "{"%char :: nl gap (indent ++ gap) ++
  join_list (","%char :: nl gap (indent ++ gap)) (member_text gap (indent ++ gap) <$> (kv :: l)) ++ nl gap indent ++ ["}"%char].
Proof.
  intros Hok. cbn [write_json]. fold (nl gap (indent ++ gap)) (nl gap indent).
  match goal with |- context [mjoin (?f <$> _)] => set (text := f) end.
  assert (forall l, Forall (fun kv => json_ok kv.2) l -> mjoin (text <$> l) = member_text gap (indent ++ gap) <$> l) as Hgo.
  { clear kv l Hok. induction 1 as [|[k v] l Hv _ IH]; [done|]. cbn [fmap list_fmap]. rewrite mjoin_cons. unfold text at 1.
    destruct (is_undef v) eqn:E; [destruct v; inversion Hv; done|]. by rewrite IH. }
  rewrite (Hgo _ Hok). done.
Qed.

Lemma nl_ws gap i : all_ws i -> all_ws (nl gap i).
Proof. intros Hi. destruct gap; [apply Forall_nil_2|by apply Forall_cons_2]. Qed.

(** Fuel that is enough to read a value back. *)
Fixpoint cost (v : js) : nat :=
  match v with
  | JArr l => S (list_sum ((fun v => S (cost v)) <$> l))
  | JObj l => S (list_sum ((fun kv => S (cost kv.2)) <$> l))
  | _ => 1
  end.

Lemma write_json_head gap indent v : json_ok v ->
  exists c t, write_json gap indent v = c :: t /\ is_ws c = false /\ c <> "]"%char.
Proof.
  intros Hv. destruct Hv as [| [] |x Hx|s|l _|l _ Hl].
  - by eexists _, _.
  - by eexists _, _.
  - by eexists _, _.
  - destruct x as [| |m e]; [done..|]. destruct (read_number_text m e [] Hx I) as (c & t & E & Hc).
    rewrite app_nil_r in E. exists c, t. split; [exact E|].
    destruct Hc as [[-> _]|[Hc _]]; [done|]. destruct c as [[] [] [] [] [] [] [] []]; done.
  - by eexists _, _.
  - destruct l; by eexists _, _.
  - destruct l as [|kv l]; [by eexists _, _|]. rewrite write_json_obj by done. by eexists _, _.
Qed.

(** Reading back one value, whatever delimiter follows. *)
Definition reads_back (v : js) : Prop := forall gap indent fuel r,
  all_ws gap -> all_ws indent -> (cost v <= fuel)%nat -> delim r ->
  read_value fuel (write_json gap indent v ++ r) = Some (v, r).

Lemma join_list_cons sep x y l : join_list sep (x :: y :: l) = x ++ sep ++ join_list sep (y :: l).
Proof. done. Qed.

Lemma delim_close w c r : all_ws w -> c = "]"%char \/ c = "}"%char -> delim (w ++ c :: r).
Proof. intros Hw Hc. destruct Hw as [|d w Hd _]; cbn; [|by left]. destruct Hc as [-> | ->]; auto. Qed.

Lemma read_elements_back gap inner w r v l fuel :
  all_ws gap -> all_ws inner -> all_ws w -> Forall reads_back (v :: l) ->
  (list_sum ((fun v => S (cost v)) <$> (v :: l)) <= fuel)%nat ->
  read_elements fuel (join_list (","%char :: nl gap inner) (write_json gap inner <$> (v :: l)) ++ w ++ "]"%char :: r) = Some (v :: l, r).
Proof.
  intros Hg Hi Hw. revert v fuel. induction l as [|v' l IH]; intros v fuel HF Hf;
    (apply Forall_cons_1 in HF as [Hv HF]); (destruct fuel as [|fuel]; [cbn in Hf; lia|]); cbn in Hf.
  - cbn [fmap list_fmap join_list read_elements]. rewrite Hv; [|done|done|lia|by apply delim_close; [|left]].
    cbn [mbind option_bind]. by rewrite peel_app, peel_hit.
  - cbn [fmap list_fmap]. rewrite join_list_cons. cbn [read_elements]. rewrite <-!app_assoc. cbn [app].
    rewrite Hv; [|done|done|lia|by right; left].
    cbn [mbind option_bind]. rewrite peel_miss, peel_hit by done. cbn [mbind option_bind].
    rewrite read_elements_ws by (by apply nl_ws).
    rewrite <-fmap_cons, IH by (done || (cbn; lia)). done.
Qed.

Lemma obj_set_new acc k v : k ∉ acc.*1 -> obj_set acc k v = acc ++ [(k, v)].
Proof.
  induction acc as [|[k' v'] acc IH]; [done|]. cbn. intros Hk. apply not_elem_of_cons in Hk as [Hne Hk].
  destruct (String.eqb_spec k' k); [done|]. by rewrite IH.
Qed.

Lemma read_members_back gap inner w r kv l fuel acc :
  all_ws gap -> all_ws inner -> all_ws w -> Forall (fun kv => reads_back kv.2) (kv :: l) ->
  NoDup (acc ++ kv :: l).*1 ->
  (list_sum ((fun kv => S (cost kv.2)) <$> (kv :: l)) <= fuel)%nat ->
  read_members fuel (join_list (","%char :: nl gap inner) (member_text gap inner <$> (kv :: l)) ++ w ++ "}"%char :: r) acc
    = Some (acc ++ kv :: l, r).
Proof.
  intros Hg Hi Hw. revert kv fuel acc. induction l as [|kv' l IH]; intros kv fuel acc HF Hnd Hf;
    (apply Forall_cons_1 in HF as [Hv HF]); (destruct fuel as [|fuel]; [cbn in Hf; lia|]); cbn in Hf.
  1: cbn [fmap list_fmap join_list read_members].
  2: cbn [fmap list_fmap]; rewrite join_list_cons; cbn [read_members]; rewrite <-app_assoc.
  all: unfold member_text at 1; rewrite <-!app_assoc.
  all: match goal with |- context [json_string ?k ++ ?rest] =>
         destruct (read_json_string k rest) as (t & -> & Ht) end.
  all: rewrite peel_hit by done; cbn [mbind option_bind]; rewrite Ht; cbn [mbind option_bind app].
  all: rewrite peel_hit by done; cbn [mbind option_bind]; rewrite <-app_assoc, read_value_ws by (destruct gap; [apply Forall_nil_2|by apply Forall_cons_2]).
  all: assert (obj_set acc (str (chars kv.1)) kv.2 = acc ++ [kv]) as Hset
         by (rewrite str_chars, obj_set_new; [by destruct kv|];
             rewrite fmap_app in Hnd; apply NoDup_app in Hnd as (_ & Hd & _); intros Hin; apply (Hd _ Hin); cbn; left).
  - rewrite Hv; [|done|done|lia|by apply delim_close; [|right]]. cbn [mbind option_bind]. rewrite Hset.
    by rewrite peel_app, peel_hit.
  - rewrite Hv; [|done|done|lia|by right; left]. cbn [mbind option_bind]. rewrite Hset.
    cbn [app]. rewrite peel_miss, peel_hit by done. cbn [mbind option_bind].
    rewrite read_members_ws by (by apply nl_ws).
    rewrite <-fmap_cons, IH by (done || (cbn; lia) || by rewrite <-app_assoc). by rewrite <-app_assoc.
Qed.

Lemma read_value_back v : json_ok v -> reads_back v.
Proof.
  induction v as [| |b|x|s|l IH|l IH] using js_ind; intros Hok gap indent fuel r Hg Hi Hf Hr;
    (destruct fuel as [|fuel]; [cbn in Hf; lia|]).
  - inversion Hok.
  - done.
  - by destruct b.
  - inversion Hok as [| |x' Hx| | |]; subst. destruct x as [| |m e]; [done..|].
    destruct (read_number_text m e r Hx Hr) as (c & t & E & Hc). cbn [write_json]. rewrite E.
    destruct Hc as [[-> Hread]|[Hdig Hread]]; cbn [read_value].
    + cbn [skip_ws]. change (is_ws "-") with false. cbv iota. cbn -[read_number]. by rewrite Hread.
    + assert (is_ws c = false /\ Ascii.eqb c "{" = false /\ Ascii.eqb c "[" = false /\ Ascii.eqb c json_quote = false /\
        Ascii.eqb c "-" = false) as (H1 & H2 & H3 & H4 & H5) by (destruct c as [[] [] [] [] [] [] [] []]; done).
      cbn [skip_ws]. by rewrite H1, H2, H3, H4, H5, Hdig, Hread.
  - cbn [write_json]. destruct (read_json_string s r) as (t & -> & Ht). cbn [read_value skip_ws].
    change (is_ws json_quote) with false. cbv iota. cbn -[read_string]. rewrite Ht. cbn. by rewrite str_chars.
  - inversion Hok as [| | | |l' Hl|]; subst. destruct l as [|v l]; [done|].
    rewrite write_json_arr. cbn [app read_value skip_ws]. change (is_ws "[") with false. cbv iota.
    change (Ascii.eqb "[" "{") with false. change (Ascii.eqb "[" "[") with true. cbv iota.
    assert (all_ws (indent ++ gap)) as Hin by (by apply Forall_app). rewrite <-!app_assoc, peel_app by (by apply nl_ws).
    assert (forall r', peel "]" (join_list (","%char :: nl gap (indent ++ gap)) (write_json gap (indent ++ gap) <$> v :: l) ++ r') = None) as ->.
    { intros r'. destruct (write_json_head gap (indent ++ gap) v) as (c & t & E & Hc1 & Hc2); [by inversion Hl|].
      destruct l; cbn [fmap list_fmap join_list]; rewrite E; cbn [app]; by apply peel_miss. }
    rewrite read_elements_ws by (by apply nl_ws).
    change (["]"%char] ++ r) with ("]"%char :: r).
    rewrite read_elements_back; [done|done|done|by apply nl_ws| |cbn in *; lia].
    apply Forall_forall. intros v' Hv'. rewrite Forall_forall in IH, Hl. by apply IH; [|apply Hl].
  - inversion Hok as [| | | | |l' Hnd Hl]; subst. destruct l as [|kv l]; [done|].
    rewrite write_json_obj by done. cbn [app read_value skip_ws]. change (is_ws "{") with false. cbv iota.
    change (Ascii.eqb "{" "{") with true. cbv iota.
    assert (all_ws (indent ++ gap)) as Hin by (by apply Forall_app). rewrite <-!app_assoc, peel_app by (by apply nl_ws).
    assert (forall r', peel "}" (join_list (","%char :: nl gap (indent ++ gap)) (member_text gap (indent ++ gap) <$> kv :: l) ++ r') = None) as ->.
    { intros r'. unfold member_text, json_string. by destruct l. }
    rewrite read_members_ws by (by apply nl_ws).
    change (["}"%char] ++ r) with ("}"%char :: r).
    rewrite read_members_back; [done|done|done|by apply nl_ws| |done|cbn in *; lia].
    apply Forall_forall. intros v' Hv'. rewrite Forall_forall in IH, Hl. by apply IH; [|apply Hl].
Qed.

Lemma length_join_list sep (l : list (list ascii)) : (length (mjoin l) + length l <= length (join_list (","%char :: sep) l) + 1)%nat.
Proof.
  induction l as [|x [|y l] IH]; [cbn; lia|cbn; rewrite app_nil_r; lia|].
  rewrite join_list_cons, mjoin_cons, !length_app. cbn [length] in *. lia.
Qed.

Lemma cost_list {A} (f : A -> list ascii) (c : A -> nat) l : Forall (fun x => c x + 1 <= 2 * length (f x))%nat l ->
  (list_sum ((fun x => S (c x)) <$> l) <= 2 * length (mjoin (f <$> l)))%nat.
Proof.
  induction 1 as [|x l Hx _ IH]; [cbn; lia|]. cbn [fmap list_fmap]. rewrite mjoin_cons, length_app. unfold list_sum in *. cbn [foldr fmap list_fmap] in *. lia.
Qed.

Lemma cost_bound v : json_ok v -> forall gap indent, (cost v + 1 <= 2 * length (write_json gap indent v))%nat.
Proof.
  induction v as [| |b|x|s|l IH|l IH] using js_ind; intros Hok gap indent.
  1-5: destruct (write_json_head gap indent _ Hok) as (c & t & -> & _); cbn; lia.
  - inversion Hok as [| | | |l' Hl|]; subst. destruct l as [|v l]; [cbn; lia|]. rewrite write_json_arr.
    pose proof (cost_list (write_json gap (indent ++ gap)) cost (v :: l)) as H.
    pose proof (length_join_list (nl gap (indent ++ gap)) (write_json gap (indent ++ gap) <$> v :: l)) as HJ.
    cbn [length] in *. rewrite !length_app. cbn [length]. rewrite length_fmap in HJ. cbn [length] in HJ.
    assert (list_sum ((λ x : js, S (cost x)) <$> v :: l) <= 2 * length (mjoin (write_json gap (indent ++ gap) <$> v :: l)))%nat.
    { apply H. apply Forall_forall. intros v' Hv'. rewrite Forall_forall in IH, Hl. by apply IH; [|apply Hl]. }
    cbn [cost]. lia.
  - inversion Hok as [| | | | |l' Hnd Hl]; subst. destruct l as [|kv l]; [cbn; lia|]. rewrite write_json_obj by done.
    pose proof (cost_list (member_text gap (indent ++ gap)) (fun kv => cost kv.2) (kv :: l)) as H.
    pose proof (length_join_list (nl gap (indent ++ gap)) (member_text gap (indent ++ gap) <$> kv :: l)) as HJ.
    cbn [length] in *. rewrite !length_app. cbn [length]. rewrite length_fmap in HJ. cbn [length] in HJ.
    assert (list_sum ((λ kv, S (cost kv.2)) <$> kv :: l) <= 2 * length (mjoin (member_text gap (indent ++ gap) <$> kv :: l)))%nat.
    { apply H. apply Forall_forall. intros v' Hv'. rewrite Forall_forall in IH, Hl.
      unfold member_text. rewrite length_app. cbn [length]. rewrite length_app.
      pose proof (IH _ Hv' (Hl _ Hv') gap (indent ++ gap)). lia. }
    cbn [cost]. lia.
Qed.

Lemma parse_write v gap : json_ok v -> all_ws gap -> JSON_parse (str (write_json gap [] v)) = Ok v.
Proof.
  intros Hok Hg. unfold JSON_parse. rewrite chars_str. rewrite <-(app_nil_r (write_json gap [] v)) at 2.
  rewrite read_value_back; [done|done|done|apply Forall_nil_2| |done]. pose proof (cost_bound v Hok gap []). lia.
Qed.

(** A value written by [JSON.stringify], plainly or with the two-space
    indentation the multisig screen uses, is read back unchanged by
    [JSON.parse]: nesting, string escapes and every finite number included. *)
Theorem json_roundtrip v : json_ok v -> JSON_parse (JSON_stringify v) = Ok v /\ JSON_parse (JSON_stringify2 v) = Ok v.
Proof. intros Hok. split; apply parse_write; try done; [apply Forall_nil_2|by repeat apply Forall_cons_2]. Qed.

Definition json_example : js :=
  JObj [("label", JStr (str [chr 34; chr 92; chr 1; chr 10; chr 233]));
        ("rows", JArr [JNum (parseFloat "-0.1"); JNull; JBool true; JObj []; JArr []; JNum (parseFloat "1e300")])].

Lemma json_roundtrip_witness :
  JSON_parse (JSON_stringify json_example) = Ok json_example /\ JSON_parse (JSON_stringify2 json_example) = Ok json_example.
Proof.
  apply json_roundtrip. apply ok_obj.
  - apply (bool_decide_unpack _). vm_compute. exact I.
  - apply Forall_cons_2; [apply ok_str|]. apply Forall_cons_2; [|apply Forall_nil_2]. apply ok_arr.
    apply Forall_cons_2; [apply ok_num, (parseFloat_is_num "-0.1")|].
    apply Forall_cons_2; [apply ok_null|]. apply Forall_cons_2; [apply ok_bool|].
    apply Forall_cons_2; [apply ok_obj; [apply NoDup_nil_2|apply Forall_nil_2]|].
    apply Forall_cons_2; [apply ok_arr, Forall_nil_2|].
    apply Forall_cons_2; [apply ok_num, (parseFloat_is_num "1e300")|apply Forall_nil_2].
Defined.
