(* ===== verification/Keys.v ===== *)
(** * Recovery phrases and derived keys

    The BIP39/BIP32 part of crypto.js (lines 203-245).  The [@scure/bip39] and
    [@scure/bip32] packages are parameters: [Hd] lists the calls, [HdLaws] the
    documented facts the theorems use. *)

From S2P Require Import Prelude Digits JsString JsInt Bytes Crypto Base58 Bech32 Address Texts.

Open Scope Z_scope.
Open Scope list_scope.

Class Hd : Type := {
  (** [bip39.generateMnemonic(wordlist, strength)] on the [n]-th draw of randomness *)
  bip39_generateMnemonic : nat -> Z -> string;
  (** [bip39.validateMnemonic(mnemonic, wordlist)] *)
  bip39_validateMnemonic : string -> bool;
  (** [bip39.mnemonicToSeed(mnemonic, passphrase)] *)
  bip39_mnemonicToSeed : string -> string -> res (list Z);
  HDKey : Type;
  (** [HDKey.fromMasterSeed(seed, versions?)] *)
  hd_fromMasterSeed : list Z -> option bip32versions -> res HDKey;
  (** [HDKey.fromExtendedKey(xpub, versions)] *)
  hd_fromExtendedKey : string -> bip32versions -> res HDKey;
  (** [node.derive(path)] *)
  hd_derive : HDKey -> string -> res HDKey;
  hd_privateKey : HDKey -> list Z;
  hd_publicKey : HDKey -> list Z;
  hd_publicExtendedKey : HDKey -> string
}.

Record key : Type := { privateKey : list Z; publicKey : list Z }.

Section Keys.
Context `{Crypto} `{Hd}.

Definition generateMnemonic (draw : nat) : string := bip39_generateMnemonic draw 128.
Definition isValidMnemonic (mnemonic : string) : bool := bip39_validateMnemonic mnemonic.

Definition account_path (net : network) : string := "m/44'/" +:+ toString (bip44CoinType net) +:+ "'/0'".

Definition deriveKey (mnemonic : string) (net : network) (index : Z) (passphrase : string) (change : bool) : res key :=
  seed ← bip39_mnemonicToSeed mnemonic passphrase;
  root ← hd_fromMasterSeed seed None;
  let path := "m/44'/" +:+ toString (bip44CoinType net) +:+ "'/0'/" +:+ (if change then "1" else "0") +:+ "/" +:+ toString index in
  node ← hd_derive root path;
  Ok {| privateKey := hd_privateKey node; publicKey := hd_publicKey node |}.

Definition deriveAccountXpub (mnemonic : string) (net : network) (passphrase : string) : res string :=
  seed ← bip39_mnemonicToSeed mnemonic passphrase;
  root ← hd_fromMasterSeed seed (Some (bip32Versions net));
  account ← hd_derive root (account_path net);
  Ok (hd_publicExtendedKey account).

Definition deriveXpubAddress (xpub : string) (net : network) (index : Z) : res string :=
  node ← hd_fromExtendedKey xpub (bip32Versions net);
  child ← hd_derive node ("m/0/" +:+ toString index);
  p2pkhAddress (hash160 (hd_publicKey child)) net.

End Keys.

(** ** What the packages document *)

Class HdLaws `{Crypto} `{Hd} : Prop := {
  (** the public key of a node derived from a seed belongs to its private key *)
  hd_keypair seed v root path node : hd_fromMasterSeed seed v = Ok root -> hd_derive root path = Ok node ->
    hd_publicKey node = secp_publicKey (hd_privateKey node);
  (** the version bytes do not take part in the derivation *)
  hd_versions seed v v' root path node : hd_fromMasterSeed seed v = Ok root -> hd_derive root path = Ok node ->
    exists root' node', hd_fromMasterSeed seed v' = Ok root' /\ hd_derive root' path = Ok node' /\
      hd_publicKey node' = hd_publicKey node;
  (** deriving a path goes through each of its prefixes *)
  hd_prefix root path rest node : hd_derive root (path +:+ "/" +:+ rest) = Ok node -> path <> "" ->
    exists n, hd_derive root path = Ok n;
  (** BIP32: a non-hardened child of an account has the public key that the
      account's extended public key derives *)
  hd_public_child seed v root path account i child : hd_fromMasterSeed seed (Some v) = Ok root ->
    hd_derive root path = Ok account -> hd_derive root (path +:+ "/0/" +:+ toString i) = Ok child ->
    exists node child', hd_fromExtendedKey (hd_publicExtendedKey account) v = Ok node /\
      hd_derive node ("m/0/" +:+ toString i) = Ok child' /\ hd_publicKey child' = hd_publicKey child;
  (** an extended key of other version bytes is refused *)
  hd_other_versions seed v root path account v' : hd_fromMasterSeed seed (Some v) = Ok root ->
    hd_derive root path = Ok account -> bip32_public v' <> bip32_public v ->
    is_ok (hd_fromExtendedKey (hd_publicExtendedKey account) v') = false
}.

(** ** A toy instance *)

Section Toy.
Context `{Crypto}.

Definition toy_node : Type := Z * string.
Definition toy_derive (n : toy_node) (path : string) : res toy_node :=
  match path with
  | String "m" rest => Ok (n.1, n.2 +:+ rest)
  | _ => Throw (JsError "Path must start with m")
  end.
Definition toy_version (v : option bip32versions) : Z :=
  match v with Some v => bip32_public v | None => 0x0488b21e end.
Definition toy_private (n : toy_node) : list Z := [toy_sum (code <$> chars n.2) mod 256].

Definition toy_hd : Hd := {|
  bip39_generateMnemonic := fun n _ =>
    "abandon ability able about above absent absorb abstract absurd abuse access " +:+ toString (Z.of_nat n);
  bip39_validateMnemonic := fun s => negb (String.eqb s "");
  bip39_mnemonicToSeed := fun m p => Ok (code <$> chars (m +:+ p));
  HDKey := toy_node;
  hd_fromMasterSeed := fun seed v => Ok (toy_version v, str (chr <$> seed));
  hd_fromExtendedKey := fun x v =>
    let '(t, b) := cut_at ":" (chars x) in
    if String.eqb (str t) (toString (bip32_public v)) then Ok (bip32_public v, str b) else Throw (JsError "Version mismatch");
  hd_derive := toy_derive;
  hd_privateKey := toy_private;
  hd_publicKey := fun n => secp_publicKey (toy_private n);
  hd_publicExtendedKey := fun n => toString n.1 +:+ ":" +:+ n.2
|}.
End Toy.

Lemma cut_at_app sep l r : without sep l = true -> cut_at sep (l ++ sep :: r) = (l, r).
Proof.
  induction l as [|c l IH]; intros Hl; cbn.
  - by rewrite eqb_ascii_refl.
  - cbn in Hl. apply andb_true_iff in Hl as [->%negb_true_iff Hl]. by rewrite IH.
Qed.

Lemma toString_without sep n : is_digit 10 sep = false -> sep <> "-"%char -> without sep (chars (toString n)) = true.
Proof.
  intros Hsep Hminus. assert (forall k, without sep (digit_char <$> digits 10 k) = true) as H.
  { intros k. unfold without. eapply forallb_impl; [|apply (forallb_digits 10 k); lia].
    intros c Hc. apply negb_true_iff, Ascii.eqb_neq. intros ->. by rewrite Hsep in Hc. }
  unfold toString, toString_radix. destruct (n =? 0).
  { apply List.forallb_forall. intros c [<-|[]]. apply negb_true_iff, Ascii.eqb_neq. by intros <-. }
  destruct (n <? 0); rewrite ?chars_app, chars_str; [|apply H]. unfold without. rewrite forallb_app. apply andb_true_iff.
  split; [|apply H]. apply List.forallb_forall. intros c [<-|[]]. apply negb_true_iff, Ascii.eqb_neq. by intros <-.
Qed.

Lemma digits_without_colon n : without ":" (chars (toString n)) = true.
Proof. by apply toString_without. Qed.

Lemma toy_derive_ok n path n' : toy_derive n path = Ok n' -> exists rest, path = String "m" rest /\ n' = (n.1, n.2 +:+ rest).
Proof.
  unfold toy_derive. destruct path as [|c rest]; [done|]. intros H. exists rest.
  destruct c as [[] [] [] [] [] [] [] []]; try done. by apply Ok_inj in H as <-.
Qed.

Lemma str_assoc (a b c : string) : (a +:+ b) +:+ c = a +:+ (b +:+ c).
Proof. apply chars_inj. by rewrite !chars_app, app_assoc. Qed.

Lemma toy_hd_laws `{Crypto} : @HdLaws _ toy_hd.
Proof.
  split; cbn [hd_fromMasterSeed hd_fromExtendedKey hd_derive hd_privateKey hd_publicKey hd_publicExtendedKey toy_hd HDKey].
  - done.
  - intros seed v v' root path node Hr Hd. apply Ok_inj in Hr as <-. apply toy_derive_ok in Hd as (rest & -> & ->).
    eexists _, _. split; [done|]. split; [done|]. done.
  - intros root path rest node Hd Hne. destruct path as [|c path]; [done|].
    apply toy_derive_ok in Hd as (r & E & _). injection E as -> _. by eexists.
  - intros seed v root path account i child Hr Ha Hc. apply Ok_inj in Hr as <-.
    apply toy_derive_ok in Ha as (rest & -> & ->). apply toy_derive_ok in Hc as (rest' & E & ->). cbn [fst snd].
    injection E as <-. rewrite chars_app.
    change (chars (":" +:+ ?x)) with (":"%char :: chars x).
    rewrite cut_at_app by apply digits_without_colon. rewrite !str_chars, String.eqb_refl.
    eexists _, _. split; [done|]. split; [done|]. unfold toy_private. cbn [fst snd]. do 5 f_equal.
    by rewrite !str_assoc.
  - intros seed v root path account v' Hr Ha Hne. apply Ok_inj in Hr as <-.
    apply toy_derive_ok in Ha as (rest & -> & ->). cbn [fst snd]. rewrite chars_app.
    change (chars (":" +:+ ?x)) with (":"%char :: chars x).
    rewrite cut_at_app by apply digits_without_colon. rewrite str_chars.
    destruct (String.eqb_spec (toString (toy_version (Some v))) (toString (bip32_public v'))) as [E|]; [|done].
    apply toString_inj in E. by destruct Hne.
Qed.

(** ** Watching an account *)

Section Watch.
Context `{HdLaws}.

Lemma deriveKey_pair mnemonic net index passphrase change k :
  deriveKey mnemonic net index passphrase change = Ok k -> publicKey k = secp_publicKey (privateKey k).
Proof.
  unfold deriveKey. intros (seed & _ & Hk)%res_bind_ok. apply res_bind_ok in Hk as (root & Hroot & Hk).
  cbv zeta in Hk. apply res_bind_ok in Hk as (node & Hnode & Hk). apply Ok_inj in Hk as <-. by eapply hd_keypair.
Qed.

(** the account key a wallet exports for watching derives exactly the
    wallet's own receiving addresses, index by index, and is refused on the
    network with other version bytes. *)
Theorem xpub_watches_wallet mnemonic net index passphrase k :
  deriveKey mnemonic net index passphrase false = Ok k ->
  exists xpub, deriveAccountXpub mnemonic net passphrase = Ok xpub /\
    deriveXpubAddress xpub net index = p2pkhAddress (hash160 (publicKey k)) net /\
    forall net', bip32_public (bip32Versions net') <> bip32_public (bip32Versions net) ->
      is_ok (deriveXpubAddress xpub net' index) = false.
Proof.
  unfold deriveKey, deriveAccountXpub, deriveXpubAddress. intros (seed & -> & Hk)%res_bind_ok. cbn [mbind res_bind].
  apply res_bind_ok in Hk as (root & Hroot & Hk). cbv zeta in Hk. apply res_bind_ok in Hk as (node & Hnode & Hk).
  apply Ok_inj in Hk as <-. cbn [publicKey].
  destruct (hd_versions _ _ (Some (bip32Versions net)) _ _ _ Hroot Hnode) as (root' & node' & Hroot' & Hnode' & Hpub).
  replace ("m/44'/" +:+ _) with (account_path net +:+ "/0/" +:+ toString index) in Hnode'
    by (unfold account_path; by rewrite !str_assoc).
  rewrite Hroot'. cbn [mbind res_bind].
  destruct (hd_prefix root' (account_path net) ("0/" +:+ toString index) node') as (account & Hacc); [exact Hnode'|done|].
  rewrite Hacc. cbn [mbind res_bind]. eexists. split; [done|]. split.
  - destruct (hd_public_child _ _ _ _ _ _ _ Hroot' Hacc Hnode') as (n & c & E1 & E2 & Hc).
    rewrite E1. cbn [mbind res_bind]. rewrite E2. cbn [mbind res_bind]. by rewrite Hc, Hpub.
  - intros net' Hne. pose proof (hd_other_versions _ _ _ _ _ _ Hroot' Hacc Hne) as Hno.
    by destruct (hd_fromExtendedKey _ _).
Qed.

End Watch.

Lemma xpub_watches_wallet_witness :
  exists xpub, @deriveAccountXpub (@toy_hd toy_crypto) "abandon" mainnet "" = Ok xpub /\
    @deriveXpubAddress toy_crypto (@toy_hd toy_crypto) xpub mainnet 3 =
      @p2pkhAddress toy_crypto (@hash160 toy_crypto [2; 127; 17; 17; 17; 17; 17; 17; 17; 17; 17; 17; 17; 17; 17; 17; 17; 17; 17; 17; 17; 17; 17; 17; 17; 17; 17; 17; 17; 17; 17; 17; 17]) mainnet /\
    forall net', bip32_public (bip32Versions net') <> bip32_public (bip32Versions mainnet) ->
      is_ok (@deriveXpubAddress toy_crypto (@toy_hd toy_crypto) xpub net' 3) = false.
Proof.
  apply (@xpub_watches_wallet toy_crypto (@toy_hd toy_crypto) toy_hd_laws "abandon" mainnet 3 ""
    {| privateKey := [127]; publicKey := [2; 127; 17; 17; 17; 17; 17; 17; 17; 17; 17; 17; 17; 17; 17; 17; 17; 17; 17; 17; 17; 17; 17; 17; 17; 17; 17; 17; 17; 17; 17; 17; 17] |}).
  vm_compute. reflexivity.
Defined.
