(* ===== verification/World.v ===== *)
(** * The page and its surroundings

    The state the wallet page works on: [localStorage], [sessionStorage], the
    texts, values and visibility of the page's elements, the application's
    [state] object, and the requests sent so far.  Code runs in the monad [M],
    which threads the state and carries thrown values; the state reached before
    a [throw] is kept.  A handler is run to completion before the next one
    starts.  [Browser] collects what the page cannot determine: the replies of
    the gateway (which may depend on every request so far), randomness, and
    the user's answers. *)

From S2P Require Import Prelude Digits JsString JsInt Bytes Crypto Base58 Bech32 Address Tx JsNum Json Keys.

Open Scope Z_scope.
Open Scope list_scope.

(** ** Requests *)

Record request : Type := {
  rq_method : string;
  rq_url : string;
  rq_auth : option string;
  rq_body : option string
}.
(** [json()] is the outcome of [await resp.json()]. *)
Record response : Type := { rs_ok : bool; rs_status : Z; rs_json : res js }.

Class Browser : Type := {
  (** [await fetch(...)]: earlier requests, this one *)
  fetch_reply : list request -> request -> res response;
  (** [crypto.getRandomValues(new Uint8Array(n))] on a draw *)
  random_bytes : nat -> nat -> list Z;
  (** [Math.random()] on a draw *)
  math_random : nat -> num;
  (** [confirm(...)] on a draw *)
  confirm_reply : nat -> bool;
  (** [Notification.requestPermission()] on a draw *)
  permission_reply : nat -> string;
  (** [serviceWorker] and [PushManager] exist *)
  push_supported : bool;
  (** [navigator.serviceWorker.register] and [ready] succeed *)
  worker_ready : nat -> res unit;
  (** [pushManager.getSubscription()], as its [toJSON()] *)
  existing_subscription : nat -> res (option js);
  (** [pushManager.subscribe] with that server key, as its [toJSON()] *)
  push_subscription : nat -> list Z -> res js;
  (** [QRCode.toCanvas] accepts the text *)
  qr_accepts : string -> bool;
  (** [navigator.clipboard.writeText] succeeds on a draw *)
  clipboard_ok : nat -> bool;
  (** [new Date().toISOString().slice(0, 10)] on a draw *)
  today : nat -> string;
  (** [new Date(x).toLocaleDateString()] *)
  locale_date : num -> string;
  (** [x.toLocaleString("en-US", ...)], for [x] neither undefined nor null *)
  locale_string : js -> string
}.

(** Randomness has the requested length and is made of bytes. *)
Class BrowserLaws `{Browser} : Prop := {
  random_length d n : length (random_bytes d n) = n;
  random_bytes_ok d n : bytes_ok (random_bytes d n)
}.

(** A browser whose network is down. *)
Definition offline : Browser := {|
  fetch_reply := fun _ _ => Throw (EngineError "TypeError: Failed to fetch");
  random_bytes := fun d n => replicate n (Z.of_nat d mod 256);
  math_random := fun d => div (of_Z (Z.of_nat d mod 10)) (of_Z 10);
  confirm_reply := fun _ => true;
  permission_reply := fun _ => "granted";
  push_supported := true;
  worker_ready := fun _ => Ok tt; existing_subscription := fun _ => Ok None; push_subscription := fun _ _ => Ok (JObj []);
  qr_accepts := fun _ => true; clipboard_ok := fun _ => true; today := fun _ => "2026-01-01";
  locale_date := num_toString; locale_string := js_toString
|}.

Lemma offline_laws : @BrowserLaws offline.
Proof.
  split; intros d n; cbn [random_bytes offline]; [apply length_replicate|].
  apply Forall_replicate. apply Z.mod_pos_bound. lia.
Qed.

(** The same browser with a server that answers each URL by its prefix. *)
Definition answering (replies : list (string * js)) : Browser := {|
  fetch_reply := fun _ rq => match List.find (fun r => startsWith (rq_url rq) (fst r)) replies with
                             | Some (_, v) => Ok {| rs_ok := true; rs_status := 200; rs_json := Ok v |}
                             | None => Throw (EngineError "TypeError: Failed to fetch")
                             end;
  random_bytes := @random_bytes offline; math_random := @math_random offline; confirm_reply := fun _ => true;
  permission_reply := fun _ => "granted"; push_supported := true;
  worker_ready := fun _ => Ok tt; existing_subscription := fun _ => Ok None; push_subscription := fun _ _ => Ok (JObj []);
  qr_accepts := fun _ => true; clipboard_ok := fun _ => true; today := fun _ => "2026-01-01";
  locale_date := num_toString; locale_string := js_toString
|}.

(** ** State *)

(** A recipient row of the send screen: its [data-recipient-id] and its two fields. *)
Record recipient_row : Type := {
  row_id : Z;
  row_address : string;
  row_amount : string
}.
Definition set_row_id (v : Z) (r : recipient_row) : recipient_row := {|
  row_id := v; row_address := row_address r; row_amount := row_amount r |}.
Definition set_row_address (v : string) (r : recipient_row) : recipient_row := {|
  row_id := row_id r; row_address := v; row_amount := row_amount r |}.
Definition set_row_amount (v : string) (r : recipient_row) : recipient_row := {|
  row_id := row_id r; row_address := row_address r; row_amount := v |}.

(** The part of [state] about keys and addresses; [baseUrl] is [state.gateway.baseUrl]. *)
Record wallet_state : Type := {
  network_name : string;
  mnemonic : option string;
  pendingMnemonic : option string;
  addressIndices : list Z;
  activeIndex : Z;
  keys : gmap Z key;
  addresses : gmap Z string;
  baseUrl : string
}.
Definition set_network_name (v : string) (r : wallet_state) : wallet_state := {|
    network_name := v; mnemonic := mnemonic r; pendingMnemonic := pendingMnemonic r; addressIndices :=
  addressIndices r; activeIndex := activeIndex r; keys := keys r; addresses := addresses r; baseUrl := baseUrl r |}.
Definition set_mnemonic (v : option string) (r : wallet_state) : wallet_state := {|
    network_name := network_name r; mnemonic := v; pendingMnemonic := pendingMnemonic r; addressIndices :=
  addressIndices r; activeIndex := activeIndex r; keys := keys r; addresses := addresses r; baseUrl := baseUrl r |}.
Definition set_pendingMnemonic (v : option string) (r : wallet_state) : wallet_state := {|
    network_name := network_name r; mnemonic := mnemonic r; pendingMnemonic := v; addressIndices := addressIndices
  r; activeIndex := activeIndex r; keys := keys r; addresses := addresses r; baseUrl := baseUrl r |}.
Definition set_addressIndices (v : list Z) (r : wallet_state) : wallet_state := {|
    network_name := network_name r; mnemonic := mnemonic r; pendingMnemonic := pendingMnemonic r; addressIndices :=
  v; activeIndex := activeIndex r; keys := keys r; addresses := addresses r; baseUrl := baseUrl r |}.
Definition set_activeIndex (v : Z) (r : wallet_state) : wallet_state := {|
    network_name := network_name r; mnemonic := mnemonic r; pendingMnemonic := pendingMnemonic r; addressIndices :=
  addressIndices r; activeIndex := v; keys := keys r; addresses := addresses r; baseUrl := baseUrl r |}.
Definition set_keys (v : gmap Z key) (r : wallet_state) : wallet_state := {|
    network_name := network_name r; mnemonic := mnemonic r; pendingMnemonic := pendingMnemonic r; addressIndices :=
  addressIndices r; activeIndex := activeIndex r; keys := v; addresses := addresses r; baseUrl := baseUrl r |}.
Definition set_addresses (v : gmap Z string) (r : wallet_state) : wallet_state := {|
    network_name := network_name r; mnemonic := mnemonic r; pendingMnemonic := pendingMnemonic r; addressIndices :=
  addressIndices r; activeIndex := activeIndex r; keys := keys r; addresses := v; baseUrl := baseUrl r |}.
Definition set_baseUrl (v : string) (r : wallet_state) : wallet_state := {|
    network_name := network_name r; mnemonic := mnemonic r; pendingMnemonic := pendingMnemonic r; addressIndices :=
  addressIndices r; activeIndex := activeIndex r; keys := keys r; addresses := addresses r; baseUrl := v |}.

(** The part of [state] the send screen uses, with its rows. *)
Record send_state : Type := {
  sendFeeMinRate : option Z;
  sendFeeRateOverride : option Z;
  rows : list recipient_row;
  sendRecipientIdCounter : Z;
  activeSendRecipientId : option Z
}.
Definition set_sendFeeMinRate (v : option Z) (r : send_state) : send_state := {|
    sendFeeMinRate := v; sendFeeRateOverride := sendFeeRateOverride r; rows := rows r; sendRecipientIdCounter :=
  sendRecipientIdCounter r; activeSendRecipientId := activeSendRecipientId r |}.
Definition set_sendFeeRateOverride (v : option Z) (r : send_state) : send_state := {|
    sendFeeMinRate := sendFeeMinRate r; sendFeeRateOverride := v; rows := rows r; sendRecipientIdCounter :=
  sendRecipientIdCounter r; activeSendRecipientId := activeSendRecipientId r |}.
Definition set_rows (v : list recipient_row) (r : send_state) : send_state := {|
    sendFeeMinRate := sendFeeMinRate r; sendFeeRateOverride := sendFeeRateOverride r; rows := v;
  sendRecipientIdCounter := sendRecipientIdCounter r; activeSendRecipientId := activeSendRecipientId r |}.
Definition set_sendRecipientIdCounter (v : Z) (r : send_state) : send_state := {|
    sendFeeMinRate := sendFeeMinRate r; sendFeeRateOverride := sendFeeRateOverride r; rows := rows r;
  sendRecipientIdCounter := v; activeSendRecipientId := activeSendRecipientId r |}.
Definition set_activeSendRecipientId (v : option Z) (r : send_state) : send_state := {|
    sendFeeMinRate := sendFeeMinRate r; sendFeeRateOverride := sendFeeRateOverride r; rows := rows r;
  sendRecipientIdCounter := sendRecipientIdCounter r; activeSendRecipientId := v |}.

(** The rest of [state]: the staking session, the last history shown, the transactions seen ([_seenTxids]), whether
    the polling timer runs, the quiz fields, and the screen last shown. *)
Record page_state : Type := {
  stakeToken : option string;
  lastHistory : option (list js);
  seen : option (gset string);
  polling : bool;
  quiz : list (Z * string);
  screen : string
}.
Definition set_stakeToken (v : option string) (r : page_state) : page_state := {|
    stakeToken := v; lastHistory := lastHistory r; seen := seen r; polling := polling r; quiz := quiz r; screen :=
  screen r |}.
Definition set_lastHistory (v : option (list js)) (r : page_state) : page_state := {|
    stakeToken := stakeToken r; lastHistory := v; seen := seen r; polling := polling r; quiz := quiz r; screen :=
  screen r |}.
Definition set_seen (v : option (gset string)) (r : page_state) : page_state := {|
    stakeToken := stakeToken r; lastHistory := lastHistory r; seen := v; polling := polling r; quiz := quiz r;
  screen := screen r |}.
Definition set_polling (v : bool) (r : page_state) : page_state := {|
    stakeToken := stakeToken r; lastHistory := lastHistory r; seen := seen r; polling := v; quiz := quiz r; screen
  := screen r |}.
Definition set_quiz (v : list (Z * string)) (r : page_state) : page_state := {|
    stakeToken := stakeToken r; lastHistory := lastHistory r; seen := seen r; polling := polling r; quiz := v;
  screen := screen r |}.
Definition set_screen (v : string) (r : page_state) : page_state := {|
    stakeToken := stakeToken r; lastHistory := lastHistory r; seen := seen r; polling := polling r; quiz := quiz r;
  screen := v |}.

(** The whole: [dom] maps an element and a facet of it ([#id.text], [#id.value], [#id.display], [#id.html]) to its
    content, [effects] lists what left the page otherwise (windows opened, clipboard, reload). *)
Record world : Type := {
  local : gmap string string;
  session : gmap string string;
  dom : gmap string string;
  log : list request;
  draws : nat;
  effects : list string;
  wal : wallet_state;
  snd_st : send_state;
  page : page_state
}.
Definition set_local (v : gmap string string) (r : world) : world := {|
    local := v; session := session r; dom := dom r; log := log r; draws := draws r; effects := effects r; wal := wal
  r; snd_st := snd_st r; page := page r |}.
Definition set_session (v : gmap string string) (r : world) : world := {|
    local := local r; session := v; dom := dom r; log := log r; draws := draws r; effects := effects r; wal := wal
  r; snd_st := snd_st r; page := page r |}.
Definition set_dom (v : gmap string string) (r : world) : world := {|
    local := local r; session := session r; dom := v; log := log r; draws := draws r; effects := effects r; wal :=
  wal r; snd_st := snd_st r; page := page r |}.
Definition set_log (v : list request) (r : world) : world := {|
    local := local r; session := session r; dom := dom r; log := v; draws := draws r; effects := effects r; wal :=
  wal r; snd_st := snd_st r; page := page r |}.
Definition set_draws (v : nat) (r : world) : world := {|
    local := local r; session := session r; dom := dom r; log := log r; draws := v; effects := effects r; wal := wal
  r; snd_st := snd_st r; page := page r |}.
Definition set_effects (v : list string) (r : world) : world := {|
    local := local r; session := session r; dom := dom r; log := log r; draws := draws r; effects := v; wal := wal
  r; snd_st := snd_st r; page := page r |}.
Definition set_wal (v : wallet_state) (r : world) : world := {|
    local := local r; session := session r; dom := dom r; log := log r; draws := draws r; effects := effects r; wal
  := v; snd_st := snd_st r; page := page r |}.
Definition set_snd_st (v : send_state) (r : world) : world := {|
    local := local r; session := session r; dom := dom r; log := log r; draws := draws r; effects := effects r; wal
  := wal r; snd_st := v; page := page r |}.
Definition set_page (v : page_state) (r : world) : world := {|
    local := local r; session := session r; dom := dom r; log := log r; draws := draws r; effects := effects r; wal
  := wal r; snd_st := snd_st r; page := v |}.

(** ** The monad *)

Definition M (A : Type) : Type := world -> res A * world.

#[global] Instance M_ret : MRet M := fun A a w => (Ok a, w).
#[global] Instance M_bind : MBind M := fun A B f m w =>
  match m w with
  | (Ok a, w) => f a w
  | (Throw e, w) => (Throw e, w)
  end.

Definition lift {A} (r : res A) : M A := fun w => (r, w).
Definition throw {A} (e : thrown) : M A := fun w => (Throw e, w).
Definition gets {A} (f : world -> A) : M A := fun w => (Ok (f w), w).
Definition modify (f : world -> world) : M unit := fun w => (Ok tt, f w).
Definition try_catch {A} (m : M A) (handler : thrown -> M A) : M A := fun w =>
  match m w with
  | (Ok a, w) => (Ok a, w)
  | (Throw e, w) => handler e w
  end.

Fixpoint for_each {A} (f : A -> M unit) (l : list A) : M unit :=
  match l with
  | [] => mret tt
  | x :: l => _ ← f x; for_each f l
  end.
Fixpoint map_m {A B} (f : A -> M B) (l : list A) : M (list B) :=
  match l with
  | [] => mret []
  | x :: l => y ← f x; ys ← map_m f l; mret (y :: ys)
  end.

(** ** Storage, elements, state *)

Definition getItem (k : string) : M (option string) := gets (fun w => local w !! k).
Definition setItem (k v : string) : M unit := modify (fun w => set_local (<[k := v]> (local w)) w).
Definition removeItem (k : string) : M unit := modify (fun w => set_local (delete k (local w)) w).
Definition session_set (k v : string) : M unit := modify (fun w => set_session (<[k := v]> (session w)) w).
Definition session_remove (k : string) : M unit := modify (fun w => set_session (delete k (session w)) w).

Definition element (id facet : string) : M string := gets (fun w => default "" (dom w !! (id +:+ "." +:+ facet))).
Definition set_element (id facet v : string) : M unit :=
  modify (fun w => set_dom (<[id +:+ "." +:+ facet := v]> (dom w)) w).
Definition value (id : string) : M string := element id "value".
Definition set_value (id v : string) : M unit := set_element id "value" v.
Definition set_text (id v : string) : M unit := set_element id "text" v.
Definition set_html (id v : string) : M unit := set_element id "html" v.
Definition set_display (id v : string) : M unit := set_element id "display" v.
Definition effect (e : string) : M unit := modify (fun w => set_effects (effects w ++ [e]) w).

Definition wstate {A} (f : wallet_state -> A) : M A := gets (fun w => f (wal w)).
Definition set_wstate (f : wallet_state -> wallet_state) : M unit := modify (fun w => set_wal (f (wal w)) w).
Definition sstate {A} (f : send_state -> A) : M A := gets (fun w => f (snd_st w)).
Definition set_sstate (f : send_state -> send_state) : M unit := modify (fun w => set_snd_st (f (snd_st w)) w).
Definition pstate {A} (f : page_state -> A) : M A := gets (fun w => f (page w)).
Definition set_pstate (f : page_state -> page_state) : M unit := modify (fun w => set_page (f (page w)) w).

(** A fresh draw of randomness or of a user's answer. *)
Definition draw : M nat := fun w => (Ok (draws w), set_draws (S (draws w)) w).

(** ** Thrown values as the handlers show them *)

(** [e.message] *)
Definition err_message (e : thrown) : string :=
  match e with JsError m | GatewayError _ m | EngineError m => m end.
(** [String(e)] *)
Definition err_string (e : thrown) : string :=
  match e with JsError m | GatewayError _ m => "Error: " +:+ m | EngineError m => m end.
Definition is_GatewayError (e : thrown) : bool := match e with GatewayError _ _ => true | _ => false end.
(** [e instanceof GatewayError ? e.message : String(e)] *)
Definition gateway_or_string (e : thrown) : string :=
  match e with GatewayError _ m => m | _ => err_string e end.
(** [String(e.message || e)] *)
Definition message_or_string (e : thrown) : string :=
  if String.eqb (err_message e) "" then err_string e else err_message e.

(** A property of a JavaScript value, in the monad. *)
Definition prop (v : js) (k : string) : M js := lift (get v k).

(** An asynchronous call that is not awaited, where its caller does not wait for
    anything afterwards: its rejection is not seen, and it is done before the next
    event. *)
Definition spawn {A} (m : M A) : M unit := fun w => (Ok tt, (m w).2).

(** ** Preservation

    [preserves R m]: whatever the outcome of [m], the state it leaves is
    related by the preorder [R] to the one it started from. *)

Definition preserves {A} (R : world -> world -> Prop) (m : M A) : Prop := forall w, R w (m w).2.

Section Preserves.
Context (R : world -> world -> Prop) `{!PreOrder R}.

Lemma pres_ret {A} (a : A) : preserves R (mret a).
Proof. intros w. reflexivity. Qed.
Lemma pres_lift {A} (r : res A) : preserves R (lift r).
Proof. intros w. reflexivity. Qed.
Lemma pres_throw {A} e : preserves R (@throw A e).
Proof. intros w. reflexivity. Qed.
Lemma pres_gets {A} (f : world -> A) : preserves R (gets f).
Proof. intros w. reflexivity. Qed.
Lemma pres_modify f : (forall w, R w (f w)) -> preserves R (modify f).
Proof. intros H w. apply H. Qed.
Lemma pres_bind {A B} (m : M A) (f : A -> M B) : preserves R m -> (forall a, preserves R (f a)) -> preserves R (m ≫= f).
Proof.
  intros Hm Hf w. unfold mbind, M_bind. specialize (Hm w). destruct (m w) as [[a|e] w']; [|exact Hm].
  etransitivity; [exact Hm|apply Hf].
Qed.
Lemma pres_catch {A} (m : M A) h : preserves R m -> (forall e, preserves R (h e)) -> preserves R (try_catch m h).
Proof.
  intros Hm Hh w. unfold try_catch. specialize (Hm w). destruct (m w) as [[a|e] w']; [exact Hm|].
  etransitivity; [exact Hm|apply Hh].
Qed.
Lemma pres_for_each {A} (f : A -> M unit) l : (forall a, preserves R (f a)) -> preserves R (for_each f l).
Proof. intros Hf. induction l as [|x l IH]; cbn; [apply pres_ret|apply pres_bind; auto]. Qed.
Lemma pres_map_m {A B} (f : A -> M B) l : (forall a, preserves R (f a)) -> preserves R (map_m f l).
Proof.
  intros Hf. induction l as [|x l IH]; cbn; [apply pres_ret|]. apply pres_bind; [done|]. intros y.
  apply pres_bind; [done|]. intros ys. apply pres_ret.
Qed.
Lemma pres_spawn {A} (m : M A) : preserves R m -> preserves R (spawn m).
Proof. intros Hm w. apply Hm. Qed.
End Preserves.

Create HintDb pres.
#[export] Hint Unfold getItem setItem removeItem session_set session_remove element set_element value set_value
  set_text set_html set_display effect wstate set_wstate sstate set_sstate pstate set_pstate prop : pres.

(** [R] for "this part of the world is untouched". *)
Definition same {B} (f : world -> B) (w w' : world) : Prop := f w = f w'.
#[global] Instance same_preorder {B} (f : world -> B) : PreOrder (same f).
Proof. split; [done|]. intros ? ? ?. unfold same. congruence. Qed.

(** Splits a handler into its steps; what remains are the state updates that
    are not obviously harmless. *)
Ltac pres_step :=
  match goal with
  | |- preserves _ (mbind _ _) => apply pres_bind; [typeclasses eauto| |intros ?]
  | |- preserves _ (try_catch _ _) => apply pres_catch; [typeclasses eauto| |intros ?]
  | |- preserves _ (for_each _ _) => apply pres_for_each; [typeclasses eauto|intros ?]
  | |- preserves _ (map_m _ _) => apply pres_map_m; [typeclasses eauto|intros ?]
  | |- preserves _ (spawn _) => apply pres_spawn
  | |- preserves _ (mret _) => apply pres_ret; typeclasses eauto
  | |- preserves _ (lift _) => apply pres_lift; typeclasses eauto
  | |- preserves _ (throw _) => apply pres_throw; typeclasses eauto
  | |- preserves _ (gets _) => apply pres_gets; typeclasses eauto
  | |- preserves (same _) (modify _) => apply pres_modify; intros ?; reflexivity
  | |- preserves _ (match ?x with _ => _ end) => destruct x
  | |- preserves _ _ => solve [eauto with pres]
  | |- preserves _ _ => progress autounfold with pres
  end.
Ltac pres := repeat pres_step.

(** ** Handlers that never throw *)

Definition quiet {A} (m : M A) : Prop := forall w, is_ok (m w).1 = true.

Lemma quiet_ret {A} (a : A) : quiet (mret a).
Proof. done. Qed.
Lemma quiet_gets {A} (f : world -> A) : quiet (gets f).
Proof. done. Qed.
Lemma quiet_modify f : quiet (modify f).
Proof. done. Qed.
Lemma quiet_spawn {A} (m : M A) : quiet (spawn m).
Proof. done. Qed.
Lemma quiet_draw : quiet draw.
Proof. done. Qed.
Lemma quiet_bind {A B} (m : M A) (f : A -> M B) : quiet m -> (forall a, quiet (f a)) -> quiet (m ≫= f).
Proof. intros Hm Hf w. unfold mbind, M_bind. specialize (Hm w). destruct (m w) as [[a|e] w']; [apply Hf|done]. Qed.
Lemma quiet_catch {A} (m : M A) h : (forall e, quiet (h e)) -> quiet (try_catch m h).
Proof. intros Hh w. unfold try_catch. destruct (m w) as [[a|e] w']; [done|apply Hh]. Qed.

Ltac quiet_step :=
  match goal with
  | |- quiet (mbind _ _) => apply quiet_bind; [|intros ?]
  | |- quiet (try_catch _ _) => apply quiet_catch; intros ?
  | |- quiet (spawn _) => apply quiet_spawn
  | |- quiet (mret _) => apply quiet_ret
  | |- quiet (gets _) => apply quiet_gets
  | |- quiet (modify _) => apply quiet_modify
  | |- quiet draw => apply quiet_draw
  | |- quiet (match ?x with _ => _ end) => destruct x
  | |- quiet _ => progress autounfold with pres
  end.
Ltac quiet := repeat quiet_step.

(** ** An empty page *)

Definition empty_wallet : wallet_state := {|
  network_name := "mainnet"; mnemonic := None; pendingMnemonic := None; addressIndices := []; activeIndex := 0;
  keys := ∅; addresses := ∅; baseUrl := "" |}.
Definition empty_world : world := {|
  local := ∅; session := ∅; dom := ∅; log := []; draws := 0; effects := []; wal := empty_wallet;
  snd_st := {| sendFeeMinRate := None; sendFeeRateOverride := None; rows := []; sendRecipientIdCounter := 0;
               activeSendRecipientId := None |};
  page := {| stakeToken := None; lastHistory := None; seen := None; polling := false; quiz := []; screen := "" |} |}.
