(* ===== verification/Gateway.v ===== *)
(** * The gateway client

    [GatewayError] and the class [Gateway] of gateway.js: how a request is
    built, how a reply is decoded, and one function per endpoint. *)

From S2P Require Import Prelude Digits JsString JsInt Bytes Crypto Base58 Bech32 Address Tx JsNum JsNumFacts JsNumText Json Keys World.

Open Scope Z_scope.
Open Scope list_scope.

Section Gateway.
Context `{Browser}.

Definition fetch (rq : request) : M response := fun w =>
  (fetch_reply (log w) rq, set_log (log w ++ [rq]) w).

(** [auth ? { Authorization: ... } : {}] *)
Definition bearer (auth : option string) : option string :=
  match auth with
  | Some token => if String.eqb token "" then None else Some ("Bearer " +:+ token)
  | None => None
  end.

(** [v || d] for a text *)
Definition or_text (v : js) (d : string) : string := if truthy v then js_toString v else d.

Definition decode (resp : response) : M js :=
  data ← lift (rs_json resp);
  if rs_ok resp then mret data else
  err ← prop data "error";
  let err := if truthy err then err else JObj [] in
  code ← prop err "code";
  message ← prop err "message";
  throw (GatewayError (or_text code "unknown-error")
                      (or_text message ("Request failed (" +:+ toString (rs_status resp) +:+ ")"))).

Definition get_ (path : string) (auth : option string) : M js :=
  base ← wstate baseUrl;
  resp ← fetch {| rq_method := "GET"; rq_url := base +:+ path; rq_auth := bearer auth; rq_body := None |};
  decode resp.

Definition post_ (path : string) (body : js) (auth : option string) : M js :=
  base ← wstate baseUrl;
  resp ← fetch {| rq_method := "POST"; rq_url := base +:+ path; rq_auth := bearer auth;
                  rq_body := Some (JSON_stringify body) |};
  decode resp.

Definition networkStatus : M js := get_ "/v1/network/status" None.
Definition balance (address : string) : M js := get_ ("/v1/address/" +:+ address +:+ "/balance") None.
Definition utxos (address : string) : M js := get_ ("/v1/address/" +:+ address +:+ "/utxos") None.
Definition history (address : string) (limit : Z) : M js :=
  get_ ("/v1/address/" +:+ address +:+ "/history?limit=" +:+ toString limit) None.
Definition tx (txid : string) : M js := get_ ("/v1/tx/" +:+ txid) None.
Definition broadcast (rawTxHex : string) : M js := post_ "/v1/tx/broadcast" (JObj [("raw_tx_hex", JStr rawTxHex)]) None.
Definition feeEstimate (targetBlocks : Z) : M js :=
  get_ ("/v1/fee-estimate?target_blocks=" +:+ toString targetBlocks) None.

(** [{ email, password, ...kyc }] *)
Definition signup (email password : string) (kyc : list (string * string)) : M js :=
  post_ "/v1/auth/signup"
    (JObj (foldl (fun o kv => obj_set o kv.1 (JStr kv.2)) [("email", JStr email); ("password", JStr password)] kyc)) None.
Definition login (email password : string) : M js :=
  post_ "/v1/auth/login" (JObj [("email", JStr email); ("password", JStr password)]) None.

Definition stakingStatus (token : option string) : M js := get_ "/v1/staking/status" token.
Definition stakingDeposit (token : option string) (amountSatoshis : num) : M js :=
  post_ "/v1/staking/deposit" (JObj [("amount", JStr (num_toString amountSatoshis))]) token.
Definition stakingWithdraw (token : option string) (amountSatoshis : num) (toAddress : string) : M js :=
  post_ "/v1/staking/withdraw" (JObj [("amount", JStr (num_toString amountSatoshis)); ("to_address", JStr toAddress)]) token.

Definition pushVapidPublicKey : M js := get_ "/v1/push/vapid-public-key" None.
Definition pushSubscribe (token : option string) (subscription : js) : M js := post_ "/v1/push/subscribe" subscription token.

Definition referralStatus (token : option string) : M js := get_ "/v1/referral/status" token.
Definition referralHistory (token : option string) : M js := get_ "/v1/referral/history" token.
Definition referralWithdraw (token : option string) (toAddress : string) : M js :=
  post_ "/v1/referral/withdraw" (JObj [("to_address", JStr toAddress)]) token.

Definition currentPrice : M js := get_ "/v1/price" None.
Definition priceAlertsList (token : option string) : M js := get_ "/v1/price-alerts/web" token.
Definition priceAlertsCreate (token : option string) (direction : string) (thresholdUsd : num) : M js :=
  post_ "/v1/price-alerts/web" (JObj [("direction", JStr direction); ("threshold_usd", JNum thresholdUsd)]) token.
Definition priceAlertsDelete (token : option string) (alertId : string) : M js :=
  base ← wstate baseUrl;
  resp ← fetch {| rq_method := "DELETE"; rq_url := base +:+ "/v1/price-alerts/web/" +:+ alertId;
                  rq_auth := Some ("Bearer " +:+ default "null" token); rq_body := None |};
  decode resp.

(** ** Lemmas *)

(** A call sends exactly its request and leaves the rest of the world alone. *)
Definition sends (w w' : world) (rq : request) : Prop := w' = set_log (log w ++ [rq]) w.

Lemma decode_world resp w : (decode resp w).2 = w.
Proof.
  unfold decode, prop, lift, mbind, M_bind. destruct (rs_json resp) as [data|e]; [|done].
  destruct (rs_ok resp); [done|]. destruct (get data "error") as [err|e]; [|done].
  destruct (get _ "code") as [c|e]; [|done]. by destruct (get _ "message").
Qed.

Lemma get_sends path auth w : sends w (get_ path auth w).2
  {| rq_method := "GET"; rq_url := baseUrl (wal w) +:+ path; rq_auth := bearer auth; rq_body := None |}.
Proof.
  unfold get_, sends, wstate, gets, fetch. cbn [mbind M_bind]. unfold mbind, M_bind.
  destruct (fetch_reply _ _); [apply decode_world|done].
Qed.

Lemma post_sends path body auth w : sends w (post_ path body auth w).2
  {| rq_method := "POST"; rq_url := baseUrl (wal w) +:+ path; rq_auth := bearer auth; rq_body := Some (JSON_stringify body) |}.
Proof.
  unfold post_, sends, wstate, gets, fetch. cbn [mbind M_bind]. unfold mbind, M_bind.
  destruct (fetch_reply _ _); [apply decode_world|done].
Qed.

Lemma pres_fetch R rq : (forall w l, R w (set_log l w)) -> preserves R (fetch rq).
Proof. intros HR w. apply HR. Qed.
Lemma pres_decode R `{!PreOrder R} resp : preserves R (decode resp).
Proof. intros w. rewrite decode_world. reflexivity. Qed.
Lemma pres_get R `{!PreOrder R} path auth : (forall w l, R w (set_log l w)) -> preserves R (get_ path auth).
Proof. intros HR w. rewrite (get_sends path auth w). apply HR. Qed.
Lemma pres_post R `{!PreOrder R} path body auth : (forall w l, R w (set_log l w)) -> preserves R (post_ path body auth).
Proof. intros HR w. rewrite (post_sends path body auth w). apply HR. Qed.

End Gateway.

#[export] Hint Unfold networkStatus balance utxos history tx broadcast feeEstimate signup login stakingStatus stakingDeposit
  stakingWithdraw pushVapidPublicKey pushSubscribe referralStatus referralHistory referralWithdraw currentPrice
  priceAlertsList priceAlertsCreate priceAlertsDelete : pres.
#[export] Hint Extern 1 (preserves _ (get_ _ _)) => apply pres_get; [typeclasses eauto|intros ? ?; reflexivity] : pres.
#[export] Hint Extern 1 (preserves _ (post_ _ _ _)) => apply pres_post; [typeclasses eauto|intros ? ?; reflexivity] : pres.
#[export] Hint Extern 1 (preserves _ (fetch _)) => apply pres_fetch; intros ? ?; reflexivity : pres.
#[export] Hint Extern 1 (preserves _ (decode _)) => apply pres_decode; typeclasses eauto : pres.
