(* ===== verification/Async.v ===== *)
(** * Asynchronous functions that overlap

    An [async] function runs until its first [await] and goes on when the reply
    is there; a call that is not awaited leaves a second function waiting beside
    the caller.  [Co] are such functions, in continuation-passing style: running
    one leaves the functions that wait for a reply, each with what it does next.
    [replies] hands out the replies in any order, so that a theorem about every
    list of choices is one about every interleaving. *)

From Stdlib Require Import FunctionalExtensionality.
From S2P Require Import Prelude Digits JsString JsInt Bytes Crypto Base58 Bech32 Address Tx Message JsNum JsNumFacts JsNumText Amount Texts Json JsonFacts Keys World Gateway.

Open Scope Z_scope.
Open Scope list_scope.

(** A function that waits, by what it does when its reply is there: it changes
    the page and leaves functions that wait in turn. *)
Inductive task : Type :=
  | Await (resume : world -> list task * world).

Definition cont (A : Type) : Type := res A -> world -> list task * world.
Definition Co (A : Type) : Type := cont A -> world -> list task * world.

#[global] Instance Co_ret : MRet Co := fun A a k => k (Ok a).
#[global] Instance Co_bind : MBind Co := fun A B f m k =>
  m (fun r => match r with Ok a => f a k | Throw e => k (Throw e) end).

(** Code without an [await]. *)
Definition sync {A} (m : M A) : Co A := fun k w => k (m w).1 (m w).2.
(** [await] of a request: it is sent now, and answered at some time. *)
Definition await {A} (m : M A) : Co A := fun k w => ([Await (k (m w).1)], (m w).2).
Definition co_try {A} (m : Co A) (h : thrown -> Co A) : Co A := fun k =>
  m (fun r => match r with Ok a => k (Ok a) | Throw e => h e k end).
(** Nobody waits for the result. *)
Definition ignored {A} : cont A := fun _ w => ([], w).
(** A call that is not awaited. *)
Definition fork {A} (m : Co A) : Co unit := fun k w =>
  let '(ts, w) := m ignored w in
  let '(ts', w) := k (Ok tt) w in
  (ts ++ ts', w).

Definition start {A} (m : Co A) (w : world) : list task * world := m ignored w.

(** ** Interleavings *)

(** The function at place [i] gets its reply. *)
Definition reply (i : nat) (s : list task * world) : option (list task * world) :=
  match s.1 !! i with
  | Some (Await f) => let '(ts, w) := f s.2 in Some (take i s.1 ++ ts ++ drop (S i) s.1, w)
  | None => None
  end.
Fixpoint replies (choices : list nat) (s : list task * world) : option (list task * world) :=
  match choices with
  | [] => Some s
  | i :: choices => s ← reply i s; replies choices s
  end.

(** The order in which every function ends before the next one goes on, as one
    step of the page. *)
Fixpoint run_task (t : task) (w : world) : world :=
  match t with
  | Await f =>
      match f w with
      | (ts, w) => (fix run (ts : list task) (w : world) : world := match ts with [] => w | t :: ts => run ts (run_task t w) end) ts w
      end
  end.
Definition run_tasks (ts : list task) (w : world) : world := foldl (fun w t => run_task t w) w ts.
Definition complete {A} (m : Co A) : M unit := fun w => (Ok tt, run_tasks (start m w).1 (start m w).2).

(** ** The number of replies *)

(** [t] is done after at most [n] replies, to it and to what it leaves. *)
Inductive within : nat -> task -> Prop :=
  | within_await n f : (forall w, exists ns, Forall2 within ns (f w).1 /\ (sum_list ns <= n)%nat) -> within (S n) (Await f).
Definition all_within (n : nat) (ts : list task) : Prop := exists ns, Forall2 within ns ts /\ (sum_list ns <= n)%nat.

Lemma sum_list_take_drop i ns x : ns !! i = Some x -> sum_list ns = (sum_list (take i ns) + x + sum_list (drop (S i) ns))%nat.
Proof.
  intros Hi. rewrite <-(take_drop_middle ns i x Hi) at 1. rewrite sum_list_with_app. cbn. lia.
Qed.

Lemma reply_within i n s s' : all_within n s.1 -> reply i s = Some s' -> exists m, n = S m /\ all_within m s'.1.
Proof.
  intros (ns & Hf & Hn). unfold reply. destruct (s.1 !! i) as [[f]|] eqn:Hi; [|done].
  destruct (Forall2_lookup_r _ _ _ _ _ Hf Hi) as (x & Hx & Hw). inversion Hw as [y f' Hall]; subst.
  destruct (Hall s.2) as (ms & Hms & Hle). destruct (f s.2) as [ts w] eqn:E. cbn [fst] in Hms. intros [= <-].
  pose proof (sum_list_take_drop i ns (S y) Hx) as Hsum. destruct n as [|m]; [lia|]. exists m. split; [done|].
  exists (take i ns ++ ms ++ drop (S i) ns). split.
  - apply Forall2_app; [by apply Forall2_take|]. apply Forall2_app; [done|by apply Forall2_drop].
  - rewrite !sum_list_with_app. lia.
Qed.

Lemma replies_within choices n s s' : all_within n s.1 -> replies choices s = Some s' -> (length choices <= n)%nat.
Proof.
  revert n s. induction choices as [|i choices IH]; intros n s Hn; cbn [replies length]; [lia|].
  destruct (reply i s) as [s1|] eqn:E; [|done]. cbn. intros Hr. destruct (reply_within i n s s1 Hn E) as (m & -> & Hm).
  specialize (IH m s1 Hm Hr). lia.
Qed.

(** [m] waits for at most [n] replies before its caller goes on, or beside it. *)
Definition awaits {A} (n : nat) (m : Co A) : Prop := forall j (k : cont A),
  (forall r w, all_within j (k r w).1) -> forall w, all_within (n + j) (m k w).1.

Lemma all_within_le n m ts : (n <= m)%nat -> all_within n ts -> all_within m ts.
Proof. intros Hle (ns & Hf & Hn). exists ns. split; [done|lia]. Qed.
Lemma awaits_ret {A} (a : A) : awaits 0 (mret a).
Proof. intros j k Hk w. apply Hk. Qed.
Lemma awaits_sync {A} (m : M A) : awaits 0 (sync m).
Proof. intros j k Hk w. apply Hk. Qed.
Lemma awaits_await {A} (m : M A) : awaits 1 (await m).
Proof.
  intros j k Hk w. exists [S j]. split; [|cbn; lia]. constructor; [|constructor]. constructor. intros w'.
  destruct (Hk (m w).1 w') as (ns & ? & ?). by exists ns.
Qed.
Lemma awaits_bind {A B} n p (m : Co A) (f : A -> Co B) : awaits n m -> (forall a, awaits p (f a)) -> awaits (n + p) (m ≫= f).
Proof.
  intros Hm Hf j k Hk w. rewrite <-Nat.add_assoc. apply Hm. intros [a|e] w'; [by apply Hf|].
  eapply all_within_le; [|apply Hk]. lia.
Qed.
Lemma awaits_try {A} n p (m : Co A) h : awaits n m -> (forall e, awaits p (h e)) -> awaits (n + p) (co_try m h).
Proof.
  intros Hm Hh j k Hk w. rewrite <-Nat.add_assoc. apply Hm. intros [a|e] w'; [|by apply Hh].
  eapply all_within_le; [|apply Hk]. lia.
Qed.
Lemma awaits_fork {A} n (m : Co A) : awaits n m -> awaits n (fork m).
Proof.
  intros Hm j k Hk w. unfold fork. destruct (m ignored w) as [ts w1] eqn:E. destruct (k (Ok tt) w1) as [ts' w2] eqn:E'.
  destruct (Hm 0%nat ignored ltac:(by intros; exists []) w) as (ns & Hns & Hle). rewrite E in Hns.
  destruct (Hk (Ok tt) w1) as (ms & Hms & Hle'). rewrite E' in Hms. exists (ns ++ ms).
  split; [by apply Forall2_app|rewrite sum_list_with_app; lia].
Qed.

(** ** Preservation *)

Section Pres.
Context (R : world -> world -> Prop) `{!PreOrder R}.

Inductive keeps_task : task -> Prop :=
  | keeps_await f : (forall w, R w (f w).2 /\ Forall keeps_task (f w).1) -> keeps_task (Await f).
Definition keeps_cont (f : world -> list task * world) : Prop := forall w, R w (f w).2 /\ Forall keeps_task (f w).1.
Definition co_preserves {A} (m : Co A) : Prop := forall k : cont A, (forall r, keeps_cont (k r)) -> keeps_cont (m k).

Lemma keeps_after (k : world -> list task * world) w w' : keeps_cont k -> R w w' -> R w (k w').2 /\ Forall keeps_task (k w').1.
Proof. intros Hk Hw. destruct (Hk w') as [? ?]. split; [by etransitivity|done]. Qed.
Lemma co_pres_ret {A} (a : A) : co_preserves (mret a).
Proof. intros k Hk. apply Hk. Qed.
Lemma co_pres_sync {A} (m : M A) : preserves R m -> co_preserves (sync m).
Proof. intros Hm k Hk w. apply (keeps_after (k (m w).1)); [apply Hk|apply Hm]. Qed.
Lemma co_pres_await {A} (m : M A) : preserves R m -> co_preserves (await m).
Proof. intros Hm k Hk w. split; [apply Hm|]. apply Forall_cons_2; [constructor; apply Hk|apply Forall_nil_2]. Qed.
Lemma co_pres_bind {A B} (m : Co A) (f : A -> Co B) : co_preserves m -> (forall a, co_preserves (f a)) -> co_preserves (m ≫= f).
Proof. intros Hm Hf k Hk. apply Hm. intros [a|e]; [by apply Hf|apply Hk]. Qed.
Lemma co_pres_try {A} (m : Co A) h : co_preserves m -> (forall e, co_preserves (h e)) -> co_preserves (co_try m h).
Proof. intros Hm Hh k Hk. apply Hm. intros [a|e]; [apply Hk|by apply Hh]. Qed.
Lemma keeps_ignored {A} r : keeps_cont (@ignored A r).
Proof. intros w. split; [reflexivity|apply Forall_nil_2]. Qed.
Lemma co_pres_fork {A} (m : Co A) : co_preserves m -> co_preserves (fork m).
Proof.
  intros Hm k Hk w. unfold fork. destruct (Hm ignored keeps_ignored w) as [H1 H2]. destruct (m ignored w) as [ts w1]. cbn [fst snd] in H1, H2.
  destruct (keeps_after _ _ _ (Hk (Ok tt)) H1) as [H3 H4]. destruct (k (Ok tt) w1) as [ts' w2]. split; [done|by apply Forall_app].
Qed.

Lemma keeps_run_task : forall t, keeps_task t -> forall w, R w (run_task t w).
Proof.
  fix IH 2. intros t [f Hf] w. cbn [run_task]. destruct (Hf w) as [Hw Ht]. destruct (f w) as [ts w1]. cbn [fst snd] in *.
  revert w1 Hw. induction Ht as [|t' ts Ht' Hts IHts]; intros w1 Hw; [exact Hw|]. apply IHts. etransitivity; [exact Hw|]. by apply IH.
Qed.

Lemma pres_complete {A} (m : Co A) : co_preserves m -> preserves R (complete m).
Proof.
  intros Hm w. cbn [complete snd]. destruct (Hm ignored keeps_ignored w) as [Hw Ht]. unfold start. destruct (m ignored w) as [ts w1]. cbn [fst snd] in *.
  revert w1 Hw. induction Ht as [|t ts Ht Hts IH]; intros w1 Hw; [done|]. cbn. apply IH. etransitivity; [exact Hw|]. by apply keeps_run_task.
Qed.
End Pres.

Ltac co_pres_step :=
  match goal with
  | |- co_preserves _ (mbind _ _) => apply co_pres_bind; [|intros ?]
  | |- co_preserves _ (co_try _ _) => apply co_pres_try; [|intros ?]
  | |- co_preserves _ (fork _) => apply co_pres_fork; [typeclasses eauto|]
  | |- co_preserves _ (await _) => apply co_pres_await
  | |- co_preserves _ (sync _) => apply co_pres_sync; [typeclasses eauto|]
  | |- co_preserves _ (mret _) => apply co_pres_ret
  | |- co_preserves _ (match ?x with _ => _ end) => destruct x
  | |- co_preserves _ _ => solve [eauto with pres]
  | |- preserves _ (complete _) => apply pres_complete; [typeclasses eauto|]
  | |- preserves _ _ => pres_step
  end.
Ltac co_pres := repeat co_pres_step.

(** ** Functions that never reject *)

(** The caller's continuation is only called with a value. *)
Definition settled {A} (m : Co A) : Prop := forall k1 k2 : cont A, (forall a, k1 (Ok a) = k2 (Ok a)) -> m k1 = m k2.

Lemma settled_ret {A} (a : A) : settled (mret a).
Proof. intros k1 k2 Hk. apply Hk. Qed.
Lemma settled_sync {A} (m : M A) : quiet m -> settled (sync m).
Proof. intros Hm k1 k2 Hk. extensionality w. unfold sync. specialize (Hm w). destruct (m w) as [[a|e] w']; [|done]. cbn. by rewrite Hk. Qed.
Lemma settled_bind {A B} (m : Co A) (f : A -> Co B) : settled m -> (forall a, settled (f a)) -> settled (m ≫= f).
Proof. intros Hm Hf k1 k2 Hk. apply Hm. intros a. by apply Hf. Qed.
Lemma settled_try {A} (m : Co A) h : (forall e, settled (h e)) -> settled (co_try m h).
Proof. intros Hh k1 k2 Hk. unfold co_try. f_equal. extensionality r. destruct r as [a|e]; [apply Hk|by apply Hh]. Qed.
Lemma settled_fork {A} (m : Co A) : settled (fork m).
Proof. intros k1 k2 Hk. extensionality w. unfold fork. destruct (m ignored w). by rewrite Hk. Qed.
