(* ===== verification/Storage.v ===== *)
(** * The recovery phrase at rest

    storage.js: the phrase encrypted under a PIN.  PBKDF2 and AES-GCM are the
    browser's Web Crypto: [Subtle] lists the calls. *)

From S2P Require Import Prelude Digits JsString JsInt Bytes Crypto Base58 Bech32 Address Tx Message JsNum JsNumFacts JsNumText Texts Json JsonFacts Keys World Gateway.

Open Scope Z_scope.
Open Scope list_scope.

Class Subtle : Type := {
  AesKey : Type;
  (** [importKey] of the PIN bytes and [deriveKey] with PBKDF2-SHA-256: salt, iterations *)
  pbkdf2 : list Z -> list Z -> Z -> AesKey;
  (** [encrypt({ name: "AES-GCM", iv }, key, data)] *)
  aes_encrypt : AesKey -> list Z -> list Z -> list Z;
  (** [decrypt({ name: "AES-GCM", iv }, key, data)] *)
  aes_decrypt : AesKey -> list Z -> list Z -> res (list Z)
}.

Class SubtleLaws `{Subtle} : Prop := {
  (** decryption inverts encryption under the same key and iv *)
  aes_roundtrip k iv data : bytes_ok data -> aes_decrypt k iv (aes_encrypt k iv data) = Ok data;
  aes_bytes k iv data : bytes_ok (aes_encrypt k iv data);
  (** encryption is authenticated: under whatever key, the text or a failure *)
  aes_authentic k k' iv data data' : bytes_ok data -> aes_decrypt k' iv (aes_encrypt k iv data) = Ok data' -> data' = data
}.

Section Storage.
Context `{Browser} `{Subtle}.

Definition PBKDF2_ITERATIONS : Z := 200000.

Definition storage_bytesToHex (bytes : list Z) : string := bytesToHex bytes.
(** [hexToBytes(v)]: anything but a string has no length to divide. *)
Definition storage_hexToBytes (v : js) : res (list Z) :=
  match v with
  | JStr hex => Ok (hexToBytes hex)
  | JUndef | JNull => Throw (EngineError "TypeError: Cannot read properties (reading length)")
  | _ => Ok []
  end.

Definition deriveAesKey (pin : string) (saltBytes : list Z) : AesKey :=
  pbkdf2 (utf8 pin) saltBytes PBKDF2_ITERATIONS.

Definition encryptMnemonic (mnemonic pin : string) : M js :=
  d1 ← draw; let salt := random_bytes d1 16 in
  d2 ← draw; let iv := random_bytes d2 12 in
  let key := deriveAesKey pin salt in
  let ciphertext := aes_encrypt key iv (utf8 mnemonic) in
  mret (JObj [("salt", JStr (storage_bytesToHex salt)); ("iv", JStr (storage_bytesToHex iv));
              ("ciphertext", JStr (storage_bytesToHex ciphertext))]).

Definition decryptMnemonic (blob : js) (pin : string) : M string :=
  salt ← prop blob "salt"; salt ← lift (storage_hexToBytes salt);
  iv ← prop blob "iv"; iv ← lift (storage_hexToBytes iv);
  let key := deriveAesKey pin salt in
  ciphertext ← prop blob "ciphertext"; ciphertext ← lift (storage_hexToBytes ciphertext);
  plaintext ← lift (aes_decrypt key iv ciphertext);
  mret (str (utf8_decode plaintext)).

Definition isPinSet : M bool := raw ← getItem "fic_mnemonic_encrypted"; mret (is_someb raw).

(** [raw ? JSON.parse(raw) : d] *)
Definition parse_or (raw : option string) (d : js) : res js :=
  match raw with
  | Some s => if String.eqb s "" then Ok d else JSON_parse s
  | None => Ok d
  end.

Definition loadEncryptedBlob : M js := raw ← getItem "fic_mnemonic_encrypted"; lift (parse_or raw JNull).

(** A [null] phrase is written and encoded as the text [null]. *)
Definition phrase_text (mnemonic : option string) : string := default "null" mnemonic.

Definition setPin (mnemonic : option string) (pin : string) : M unit :=
  blob ← encryptMnemonic (phrase_text mnemonic) pin;
  _ ← setItem "fic_mnemonic_encrypted" (JSON_stringify blob);
  removeItem "fic_mnemonic".

Definition removePin (mnemonic : option string) : M unit :=
  _ ← setItem "fic_mnemonic" (phrase_text mnemonic);
  removeItem "fic_mnemonic_encrypted".

End Storage.

(** ** Lemmas *)

Lemma utf8_decode_utf8 s : utf8_decode (utf8 s) = chars s.
Proof.
  unfold utf8. induction (chars s) as [|c l IH]; [done|]. cbn [fmap list_fmap]. rewrite mjoin_cons.
  set (t := mjoin _) in *. unfold utf8_char. pose proof (code_bound c). destruct (Z.ltb_spec (code c) 128); cbn [app].
  - cbn [utf8_decode]. destruct (Z.ltb_spec (code c) 128); [|lia]. by rewrite chr_code, IH.
  - cbn [utf8_decode]. assert (2 <= code c / 64 <= 3) by (Z.to_euclidean_division_equations; lia).
    pose proof (Z.mod_pos_bound (code c) 64 ltac:(lia)).
    destruct (Z.ltb_spec (192 + code c / 64) 128); [lia|].
    replace ((192 + code c / 64 =? 194) || (192 + code c / 64 =? 195)) with true
      by (symmetry; apply orb_true_iff; rewrite !Z.eqb_eq; lia).
    destruct (Z.leb_spec 128 (128 + code c mod 64)); [|lia]. destruct (Z.ltb_spec (128 + code c mod 64) 192); [|lia].
    cbn [andb]. rewrite IH. f_equal. rewrite <-(chr_code c) at 3. f_equal. Z.to_euclidean_division_equations; lia.
Qed.

Lemma utf8_bytes s : bytes_ok (utf8 s).
Proof.
  unfold utf8. induction (chars s) as [|c l IH]; [apply bytes_ok_nil|]. cbn [fmap list_fmap]. rewrite mjoin_cons.
  apply bytes_ok_app_2; [|exact IH]. unfold utf8_char. pose proof (code_bound c).
  destruct (Z.ltb_spec (code c) 128); repeat apply bytes_ok_cons; try apply bytes_ok_nil;
    Z.to_euclidean_division_equations; lia.
Qed.

Section StorageFacts.
Context `{BrowserLaws} `{SubtleLaws}.

Definition pin_blob (m pin : string) (d : nat) : js :=
  let salt := random_bytes d 16 in let iv := random_bytes (S d) 12 in
  JObj [("salt", JStr (bytesToHex salt)); ("iv", JStr (bytesToHex iv));
        ("ciphertext", JStr (bytesToHex (aes_encrypt (deriveAesKey pin salt) iv (utf8 m))))].

Lemma pin_blob_json m pin d : JSON_parse (JSON_stringify (pin_blob m pin d)) = Ok (pin_blob m pin d).
Proof.
  apply parse_write; [|apply Forall_nil_2]. apply ok_obj.
  - apply (bool_decide_unpack _). by vm_compute.
  - repeat (apply Forall_cons_2; [apply ok_str|]). apply Forall_nil_2.
Qed.

Lemma decrypt_pin_blob m pin d w : decryptMnemonic (pin_blob m pin d) pin w = (Ok m, w).
Proof.
  unfold decryptMnemonic, pin_blob, prop, lift, mbind, M_bind. cbn -[bytesToHex hexToBytes aes_decrypt aes_encrypt deriveAesKey utf8_decode utf8].
  rewrite !hexToBytes_bytesToHex by (apply random_bytes_ok || apply aes_bytes). rewrite aes_roundtrip by apply utf8_bytes.
  unfold mret, M_ret. by rewrite utf8_decode_utf8, str_chars.
Qed.

(** With any PIN, the phrase that was sealed or a failure. *)
Lemma decrypt_authentic m pin d pin' w m' w' : decryptMnemonic (pin_blob m pin d) pin' w = (Ok m', w') -> m' = m /\ w' = w.
Proof.
  unfold decryptMnemonic, pin_blob, prop, lift, mbind, M_bind. cbn -[bytesToHex hexToBytes aes_decrypt aes_encrypt deriveAesKey utf8_decode utf8].
  rewrite !hexToBytes_bytesToHex by (apply random_bytes_ok || apply aes_bytes).
  destruct (aes_decrypt _ _ _) as [data|e] eqn:E; [|done]. apply aes_authentic in E as ->; [|apply utf8_bytes].
  unfold mret, M_ret. rewrite utf8_decode_utf8, str_chars. by intros [= <- <-].
Qed.

Lemma decrypt_world blob pin w : (decryptMnemonic blob pin w).2 = w.
Proof.
  unfold decryptMnemonic, prop, lift, mbind, M_bind. repeat case_match; simplify_eq; done.
Qed.

Lemma setPin_spec m pin w : setPin (Some m) pin w =
  (Ok tt, set_local (delete "fic_mnemonic" (<["fic_mnemonic_encrypted" := JSON_stringify (pin_blob m pin (draws w))]> (local w)))
            (set_draws (S (S (draws w))) w)).
Proof. done. Qed.

(** Loading and decrypting, as [btn-unlock] does. *)
Definition unlock_phrase (pin : string) : M string := blob ← loadEncryptedBlob; decryptMnemonic blob pin.

(** C34: setting a PIN leaves no plain-text phrase in storage, the PIN is then
    reported as set, and on any later page that still holds the stored blob
    the same PIN gives the phrase back; removing the PIN puts the phrase back
    in plain text and the blob away. *)
Theorem pin_roundtrip m pin w :
  let w1 := (setPin (Some m) pin w).2 in
  local w1 !! "fic_mnemonic" = None /\ (isPinSet w1).1 = Ok true /\
  (forall w2, local w2 !! "fic_mnemonic_encrypted" = local w1 !! "fic_mnemonic_encrypted" ->
    unlock_phrase pin w2 = (Ok m, w2)) /\
  (let w3 := (removePin (Some m) w1).2 in
   local w3 !! "fic_mnemonic" = Some m /\ (isPinSet w3).1 = Ok false).
Proof.
  intros w1. unfold w1. rewrite setPin_spec. cbn [snd]. set (blob := pin_blob m pin (draws w)).
  split; [apply lookup_delete_eq|]. split; [|split].
  - unfold isPinSet, getItem, gets, mbind, M_bind. cbn [local set_local]. by rewrite lookup_delete_ne, lookup_insert_eq.
  - intros w2. cbn [local set_local]. rewrite lookup_delete_ne, lookup_insert_eq by done. intros E.
    unfold unlock_phrase, loadEncryptedBlob, getItem, gets, lift, mbind, M_bind, parse_or. rewrite E.
    destruct (String.eqb_spec (JSON_stringify blob) ""); [done|]. unfold blob. rewrite pin_blob_json. apply decrypt_pin_blob.
  - unfold removePin, setItem, removeItem, modify, isPinSet, getItem, gets, mbind, M_bind. cbn [local set_local snd fst phrase_text default].
    rewrite lookup_delete_ne, lookup_insert_eq, lookup_delete_eq by done. done.
Qed.

End StorageFacts.

(** A toy cipher: the key is the PIN and the salt, the text is kept as it is. *)
Definition toy_subtle : Subtle := {|
  AesKey := list Z; pbkdf2 := fun p s _ => p ++ s;
  aes_encrypt := fun k iv data => u8arr data;
  aes_decrypt := fun k iv data => Ok data
|}.

Lemma toy_subtle_laws : @SubtleLaws toy_subtle.
Proof.
  split; intros; cbn [aes_decrypt aes_encrypt toy_subtle].
  - f_equal. by apply u8arr_id.
  - apply bytes_ok_u8arr.
  - match goal with Hd : aes_decrypt _ _ _ = Ok _ |- _ => injection Hd as <- end. by apply u8arr_id.
Qed.

Lemma pin_roundtrip_witness :
  let w1 := (@setPin offline toy_subtle (Some "abandon ability") "1234" empty_world).2 in
  local w1 !! "fic_mnemonic" = None /\ (isPinSet w1).1 = Ok true /\
  (forall w2, local w2 !! "fic_mnemonic_encrypted" = local w1 !! "fic_mnemonic_encrypted" ->
    @unlock_phrase toy_subtle "1234" w2 = (Ok "abandon ability", w2)) /\
  (let w3 := (removePin (Some "abandon ability") w1).2 in
   local w3 !! "fic_mnemonic" = Some "abandon ability" /\ (isPinSet w3).1 = Ok false).
Proof. apply (@pin_roundtrip offline offline_laws toy_subtle toy_subtle_laws). Defined.
