(* ===== verification/Wallet.v ===== *)
(** * Addresses, keys and the home screen

    app.js lines 11-114 and 291-311: the gateway address, the table of keys and
    addresses the wallet has generated, the coins it can spend, and the balance
    shown on the home screen. *)

From S2P Require Import Prelude Digits JsString JsInt Bytes Crypto Base58 Bech32 Address Tx Message JsNum JsNumFacts JsNumText Amount Texts Json JsonFacts Keys World Gateway Storage.

Open Scope Z_scope.
Open Scope list_scope.

(** [s || ""] of a stored item *)
Definition or_empty (s : option string) : string := default "" s.

(** [GATEWAY_URLS[net]] *)
Definition GATEWAY_URLS (store : gmap string string) (net : string) : option string :=
  if String.eqb net "mainnet" then Some (or_empty (store !! "fic_gateway_url_mainnet"))
  else if String.eqb net "testnet" then Some (or_empty (store !! "fic_gateway_url_testnet"))
  else None.

(** The text of a value that may be [undefined]. *)
Definition or_undefined (s : option string) : string := default "undefined" s.

Definition refreshGateway : M unit :=
  net ← wstate network_name;
  url ← gets (fun w => GATEWAY_URLS (local w) net);
  _ ← set_wstate (set_baseUrl (or_undefined url));
  set_text "network-badge" net.

(** ** Addresses *)

Definition addressIndicesStorageKey : M string := net ← wstate network_name; mret ("fic_address_indices_" +:+ net).

Definition js_index (v : js) : option Z :=
  match v with JNum (Fin m e) => if 0 <=? e then Some (m * 2 ^ e) else None | _ => None end.
(** The stored array; an array of anything but integers has no counterpart here. *)
Definition js_indices (v : js) : res (list Z) :=
  match v with
  | JArr l => match mapM js_index l with Some l => Ok l | None => Throw (EngineError "indices") end
  | _ => Throw (EngineError "indices")
  end.

Definition loadAddressIndices : M (list Z) :=
  key ← addressIndicesStorageKey;
  raw ← getItem key;
  parsed ← lift (parse_or raw JNull);
  if truthy parsed then
    len ← prop parsed "length";
    if truthy len then lift (js_indices parsed) else mret [0]
  else mret [0].

Definition indices_json (l : list Z) : js := JArr ((fun i => JNum (of_Z i)) <$> l).

Definition saveAddressIndices : M unit :=
  key ← addressIndicesStorageKey;
  indices ← wstate addressIndices;
  setItem key (JSON_stringify (indices_json indices)).

Section Wallet.
Context `{Crypto} `{Hd} `{Browser}.

(** [fic.NETWORKS[state.network]], used by its properties. *)
Definition current_network : M network :=
  net ← wstate network_name; lift (defined "network" (NETWORKS net)).

Definition ensureKey (index : Z) : M key :=
  known ← wstate (fun s => keys s !! index);
  match known with
  | Some k => mret k
  | None =>
      network ← current_network;
      phrase ← wstate mnemonic;
      phrase ← lift (defined "mnemonic" phrase);
      key ← lift (deriveKey phrase network index "" false);
      _ ← set_wstate (fun s => set_keys (<[index := key]> (keys s)) s);
      address ← lift (p2pkhAddress (hash160 (publicKey key)) network);
      _ ← set_wstate (fun s => set_addresses (<[index := address]> (addresses s)) s);
      mret key
  end.

Definition deriveAllKnownAddresses : M unit :=
  indices ← loadAddressIndices;
  _ ← set_wstate (set_addressIndices indices);
  _ ← for_each (fun idx => _ ← ensureKey idx; mret tt) indices;
  active ← wstate activeIndex;
  if bool_decide (active ∈ indices) then mret tt
  else set_wstate (set_activeIndex (default 0 (last indices))).

Definition activeAddress : M (option string) := wstate (fun s => addresses s !! activeIndex s).

(** A coin: the gateway's object and the index of the address that holds it. *)
Record coin : Type := { coin_js : js; coin_index : Z }.

Definition address_text (idx : Z) : M string := wstate (fun s => or_undefined (addresses s !! idx)).

Definition gather_address (idx : Z) : M (list coin) :=
  address ← address_text idx;
  resp ← utxos address;
  us ← prop resp "utxos";
  us ← lift (elements us);
  mret ((fun u => {| coin_js := u; coin_index := idx |}) <$> us).

Definition gatherAllUtxos : M (list coin) :=
  indices ← wstate addressIndices;
  all ← map_m gather_address indices;
  mret (mjoin all).

(** ** Home *)

Definition address_total (idx : Z) : M Z :=
  address ← address_text idx;
  b ← balance address;
  c ← prop b "confirmed"; c ← lift (to_BigInt c);
  u ← prop b "unconfirmed"; u ← lift (to_BigInt u);
  mret (c + u).

Definition loadHome : M unit :=
  _ ← set_text "home-error" "";
  address ← activeAddress;
  _ ← set_text "home-address" (or_empty address);
  indices ← wstate addressIndices;
  _ ← set_text "home-address-count"
        (if (1 <? length indices)%nat
         then "Balance combined across " +:+ toString (Z.of_nat (length indices)) +:+ " addresses" else "");
  try_catch
    (totals ← map_m address_total indices;
     set_text "home-balance" (formatFic (sumZ totals) +:+ " FIC"))
    (fun e => set_text "home-error"
       (if is_GatewayError e then err_message e else "Could not reach the network: " +:+ err_string e)).

End Wallet.
