(* ===== verification/WalletFacts.v ===== *)
(** * The table of keys and addresses

    Every key the page holds is the one the recovery phrase derives for its
    index on the current network, and the address shown for an index is the
    P2PKH address of that key. *)

From S2P Require Import Prelude Digits JsString JsInt Bytes Crypto Base58 Bech32 Address Tx NodeTx NodeScript Spend Message JsNum JsNumFacts JsNumText Amount Texts Json JsonFacts Keys World Gateway Storage Wallet.

Open Scope Z_scope.
Open Scope list_scope.

(** ** Running the monad *)

Lemma M_bind_ok {A B} (m : M A) (f : A -> M B) w b w' : (m ≫= f) w = (Ok b, w') ->
  exists a w1, m w = (Ok a, w1) /\ f a w1 = (Ok b, w').
Proof. unfold mbind, M_bind. destruct (m w) as [[a|e] w1]; [|done]. intros H. by exists a, w1. Qed.

Lemma lift_ok {A} (r : res A) w a w' : lift r w = (Ok a, w') -> r = Ok a /\ w' = w.
Proof. unfold lift. intros [= -> ->]. done. Qed.

Lemma prop_ok v k w a w' : prop v k w = (Ok a, w') -> get v k = Ok a /\ w' = w.
Proof. apply lift_ok. Qed.

Lemma gets_ok {A} (f : world -> A) w a w' : gets f w = (Ok a, w') -> a = f w /\ w' = w.
Proof. unfold gets. intros [= <- <-]. done. Qed.

Lemma mret_ok {A} (a : A) w b w' : (mret a : M A) w = (Ok b, w') -> b = a /\ w' = w.
Proof. unfold mret, M_ret. intros [= <- <-]. done. Qed.

Lemma bind_lift {A B} (r : res A) (f : A -> M B) w : (lift r ≫= f) w = match r with Ok a => f a w | Throw e => (Throw e, w) end.
Proof. by destruct r. Qed.
Lemma bind_gets {A B} (g : world -> A) (f : A -> M B) w : (gets g ≫= f) w = f (g w) w.
Proof. done. Qed.
Lemma bind_modify {B} (g : world -> world) (f : unit -> M B) w : (modify g ≫= f) w = f tt (g w).
Proof. done. Qed.

(** Runs a step that cannot fail, or names the result of one that can. *)
Ltac m_inv H :=
  match type of H with
  | (mbind _ _) _ = (Ok _, _) =>
      let a := fresh "a" in let w1 := fresh "w" in let E := fresh "E" in
      apply M_bind_ok in H as (a & w1 & E & H)
  end.

(** ** Keys *)

Section WalletFacts.
Context `{CryptoLaws} `{Hd} {HL : HdLaws} `{Browser}.

Definition table_ok (s : wallet_state) : Prop := forall i k, keys s !! i = Some k ->
  exists m net a, mnemonic s = Some m /\ NETWORKS (network_name s) = Some net /\
    deriveKey m net i "" false = Ok k /\ p2pkhAddress (hash160 (publicKey k)) net = Ok a /\ addresses s !! i = Some a.

Lemma p2pkhAddress_total k net : exists a, p2pkhAddress (hash160 k) net = Ok a.
Proof.
  unfold p2pkhAddress, versioned. rewrite hash160_length. cbn [Nat.leb mbind res_bind]. by eexists.
Qed.

Lemma table_ok_empty s : keys s = ∅ -> table_ok s.
Proof. intros E i k. by rewrite E, lookup_empty. Qed.

(** Adding the derived key and its address. *)
Definition with_key (i : Z) (k : key) (a : string) (s : wallet_state) : wallet_state :=
  set_addresses (<[i := a]> (addresses s)) (set_keys (<[i := k]> (keys s)) s).

(** What [ensureKey] does: nothing for a known index, the derived entry for a
    new one, or a failure that leaves the state alone. *)
Inductive ensured (i : Z) (s : wallet_state) : res key -> wallet_state -> Prop :=
  | ensured_known k : keys s !! i = Some k -> ensured i s (Ok k) s
  | ensured_new m net k a : keys s !! i = None -> mnemonic s = Some m -> NETWORKS (network_name s) = Some net ->
      deriveKey m net i "" false = Ok k -> p2pkhAddress (hash160 (publicKey k)) net = Ok a ->
      ensured i s (Ok k) (with_key i k a s)
  | ensured_fail e : keys s !! i = None -> ensured i s (Throw e) s.

Lemma set_wal_eta w : set_wal (wal w) w = w.
Proof. by destruct w. Qed.

Lemma ensureKey_spec i w : exists r s, ensureKey i w = (r, set_wal s w) /\ ensured i (wal w) r s.
Proof.
  unfold ensureKey, wstate. rewrite bind_gets. destruct (keys (wal w) !! i) as [k|] eqn:E.
  { exists (Ok k), (wal w). rewrite set_wal_eta. split; [done|]. by apply ensured_known. }
  unfold current_network, wstate. unfold mbind at 1, M_bind at 1. rewrite bind_gets.
  destruct (NETWORKS (network_name (wal w))) as [net|] eqn:En; cbn [defined lift];
    [|eexists (Throw _), (wal w); rewrite set_wal_eta; split; [done|by apply ensured_fail]].
  rewrite bind_gets, bind_lift. destruct (mnemonic (wal w)) as [m|] eqn:Em; cbn [defined];
    [|eexists (Throw _), (wal w); rewrite set_wal_eta; split; [done|by apply ensured_fail]].
  rewrite bind_lift. destruct (deriveKey m net i "" false) as [k|e] eqn:Ek;
    [|eexists (Throw e), (wal w); rewrite set_wal_eta; split; [done|by apply ensured_fail]].
  unfold set_wstate. rewrite bind_modify, bind_lift.
  destruct (p2pkhAddress_total (publicKey k) net) as [a Ha]. rewrite Ha, bind_modify.
  eexists (Ok k), (with_key i k a (wal w)). split; [by destruct w|]. by eapply ensured_new.
Qed.

Lemma with_key_table i k a s m net : keys s !! i = None -> mnemonic s = Some m -> NETWORKS (network_name s) = Some net ->
  deriveKey m net i "" false = Ok k -> p2pkhAddress (hash160 (publicKey k)) net = Ok a ->
  table_ok s -> table_ok (with_key i k a s).
Proof.
  intros Hi Hm Hn Hk Ha Hs j kj. cbn [with_key keys set_keys set_addresses addresses mnemonic network_name].
  destruct (decide (i = j)) as [<-|Hne].
  - rewrite lookup_insert_eq. intros [= <-]. exists m, net, a. by rewrite lookup_insert_eq.
  - rewrite lookup_insert_ne by done. intros Hj. destruct (Hs j kj Hj) as (m' & net' & a' & ? & ? & ? & ? & ?).
    exists m', net', a'. by rewrite lookup_insert_ne.
Qed.

Lemma ensured_table i s r s' : ensured i s r s' -> table_ok s -> table_ok s'.
Proof. intros He Hs. destruct He; [done| |done]. by eapply with_key_table. Qed.

Lemma ensured_grows i s r s' : ensured i s r s' -> keys s ⊆ keys s'.
Proof. intros He. destruct He; [done| |done]. cbn. by apply insert_subseteq. Qed.

Lemma ensured_lookup i s k s' : ensured i s (Ok k) s' -> keys s' !! i = Some k.
Proof. intros He. inversion He; subst; [done|]. cbn. by rewrite lookup_insert_eq. Qed.

(** The fields other than the table. *)
Definition same_wallet (s s' : wallet_state) : Prop :=
  network_name s = network_name s' /\ mnemonic s = mnemonic s' /\ pendingMnemonic s = pendingMnemonic s' /\
  addressIndices s = addressIndices s' /\ activeIndex s = activeIndex s' /\ baseUrl s = baseUrl s'.

Lemma ensured_same i s r s' : ensured i s r s' -> same_wallet s s'.
Proof. by destruct 1. Qed.

Lemma table_ok_pair s i k : table_ok s -> keys s !! i = Some k -> publicKey k = secp_publicKey (privateKey k).
Proof. intros Hs Hi. destruct (Hs i k Hi) as (m & net & a & _ & _ & Hk & _). by eapply deriveKey_pair. Qed.

End WalletFacts.
