(* ===== verification/SendScreen.v ===== *)
(** * The send screen

    app.js lines 314-577 and 702-769: recipient rows, the fee rate control,
    coin selection, the send button, the log of sent transactions and fee
    bumping. *)

From S2P Require Import Prelude Digits JsString JsInt Bytes Crypto Base58 Bech32 Address Tx NodeTx NodeScript Spend BumpFee Message JsNum JsNumFacts JsNumText Amount Texts Json JsonFacts Keys World Gateway Storage Wallet.

Open Scope Z_scope.
Open Scope list_scope.

Section Send.
Context `{Crypto} `{Hd} `{Browser}.

(** ** Fee rate *)

Definition effectiveSendFeeRate : M Z :=
  sstate (fun s => default 0 (nullish (sendFeeRateOverride s) (sendFeeMinRate s))).

Definition updateSendFeeEstimate : M unit :=
  min ← sstate sendFeeMinRate;
  match min with
  | None => set_text "send-fee-estimate" ""
  | Some min =>
      rate ← effectiveSendFeeRate;
      n ← sstate (fun s => Z.of_nat (length (rows s)));
      let rowCount := if n =? 0 then 1 else n in
      let outputCount := rowCount + 1 in
      let roughVsize := 10 + 148 + outputCount * 34 in
      let roughFee := rate * roughVsize in
      set_text "send-fee-estimate"
        ("~" +:+ formatFic roughFee +:+ " FIC for a single-input send (scales up with more inputs/recipients) -- recommended: " +:+
         toString min +:+ " sat/vB")
  end.
Definition updateSendAmountFiat : M unit := updateSendFeeEstimate.
Definition loadSendAmountFiat : M unit := mret tt.

(** [BigInt(feeResp.fee_rate_sat_per_vbyte)] *)
Definition fee_rate (feeResp : js) : M Z := v ← prop feeResp "fee_rate_sat_per_vbyte"; lift (to_BigInt v).

Definition loadSendFeeRate : M unit :=
  _ ← try_catch
    (feeResp ← feeEstimate 6;
     min ← fee_rate feeResp;
     _ ← set_sstate (set_sendFeeMinRate (Some min));
     _ ← set_sstate (set_sendFeeRateOverride None);
     _ ← set_element "send-fee-rate" "min" (toString min);
     set_value "send-fee-rate" (toString min))
    (fun _ => set_sstate (set_sendFeeMinRate None));
  updateSendFeeEstimate.

Definition setSendFeeRate (rate : Z) : M unit :=
  min ← sstate sendFeeMinRate;
  match min with
  | None => mret tt
  | Some min =>
      let ceiling := min * 50 in
      let clamped := if rate <? min then min else if ceiling <? rate then ceiling else rate in
      _ ← set_sstate (set_sendFeeRateOverride (if clamped =? min then None else Some clamped));
      _ ← set_value "send-fee-rate" (toString clamped);
      updateSendFeeEstimate
  end.

Definition btn_fee_decrease : M unit := r ← effectiveSendFeeRate; setSendFeeRate (r - 10).
Definition btn_fee_increase : M unit := r ← effectiveSendFeeRate; setSendFeeRate (r + 10).
Definition btn_fee_reset : M unit := min ← sstate sendFeeMinRate; setSendFeeRate (default 0 min).

(** [parseInt(text, 10)] as a number: rounded, so [BigInt] of it is the rounded value. *)
Definition change_fee_rate (text : string) : M unit :=
  let parsed := match parseInt text 10 with Some n => of_Z n | None => NaN end in
  match parsed with
  | Fin m e => if m <=? 0 then btn_fee_reset else rate ← lift (BigInt_of_num parsed); setSendFeeRate rate
  | _ => btn_fee_reset
  end.

(** ** Recipient rows *)

Definition new_row (id : Z) : recipient_row := {| row_id := id; row_address := ""; row_amount := "" |}.

(** Rows added and removed also show or hide the remove buttons
    ([updateRecipientRemoveButtons]): shown exactly when there are several. *)
Definition updateRecipientRemoveButtons : M unit :=
  rs ← sstate rows;
  set_display "remove-recipient-btn" (if (1 <? length rs)%nat then "" else "none").

Definition addRecipientRow : M unit :=
  id ← sstate sendRecipientIdCounter;
  _ ← set_sstate (set_sendRecipientIdCounter (id + 1));
  _ ← set_sstate (fun s => set_rows (rows s ++ [new_row id]) s);
  _ ← set_sstate (fun s => match activeSendRecipientId s with
                           | None => set_activeSendRecipientId (Some id) s
                           | Some _ => s
                           end);
  updateRecipientRemoveButtons.

Definition resetSendRecipients : M unit :=
  _ ← set_sstate (set_rows []);
  _ ← set_sstate (set_sendRecipientIdCounter 0);
  _ ← set_sstate (set_activeSendRecipientId None);
  addRecipientRow.

Definition update_row (id : Z) (f : recipient_row -> recipient_row) : M unit :=
  set_sstate (fun s => set_rows ((fun r => if row_id r =? id then f r else r) <$> rows s) s).

(** A number written to a field of type [number]. *)
Definition number_field (x : num) : string := match x with Fin _ _ => num_toString x | _ => "" end.
Definition set_amount (amount : option num) (r : recipient_row) : recipient_row :=
  match amount with Some x => set_row_amount (number_field x) r | None => r end.

Definition focus_row (id : Z) : M unit := set_sstate (set_activeSendRecipientId (Some id)).

(** The [change] event of an address field, its new text being [text]. *)
Definition change_address (id : Z) (text : string) : M unit :=
  let '(address, amount) := parseBip21 text in
  if String.eqb address text then update_row id (set_row_address text)
  else update_row id (fun r => set_amount amount (set_row_address address r)).
Definition input_amount (id : Z) (text : string) : M unit :=
  _ ← update_row id (set_row_amount text); updateSendAmountFiat.
Definition scanned_recipient (id : Z) (text : string) : M unit :=
  let '(address, amount) := parseBip21 text in
  update_row id (fun r => set_amount amount (set_row_address address r)).
Definition remove_row (id : Z) : M unit :=
  _ ← set_sstate (fun s => set_rows (filter (fun r => row_id r <> id) (rows s)) s);
  _ ← updateRecipientRemoveButtons;
  updateSendAmountFiat.

(** ** The send button *)

Record recipient : Type := { r_address : string; r_amount : Z }.

(** The first loop: the recipients, or [None] after the error message. *)
Fixpoint read_recipients (rs : list recipient_row) : M (option (list recipient)) :=
  match rs with
  | [] => mret (Some [])
  | row :: rs =>
      let address := trim (row_address row) in
      let amountFic := parseFloat (row_amount row) in
      if String.eqb address "" || falsy amountFic || leb amountFic (Fin 0 0) then
        _ ← set_text "send-error" "Enter a destination address and a positive amount for every recipient.";
        mret None
      else
        amount ← lift (amount_satoshis amountFic);
        rest ← read_recipients rs;
        mret ((fun l => {| r_address := address; r_amount := amount |} :: l) <$> rest)
  end.

(** [BigInt(Number(z))], the value [u64le] writes for a [BigInt] turned into a number. *)
Definition number_value (z : Z) : res Z := BigInt_of_num (Number_of_BigInt z).

Definition script_for_address (d : decoded) : list Z :=
  match addr_type d with
  | p2pkh => p2pkhScriptPubKey (addr_hash d)
  | p2sh => p2shScriptPubKey (addr_hash d)
  | p2wpkh => p2wpkhScriptPubKey (addr_hash d)
  end.

Definition dest_output (net : network) (r : recipient) : res tx_output :=
  d ← decodeAddress (r_address r) net;
  v ← number_value (r_amount r);
  Ok {| scriptPubKey := script_for_address d; valueSatoshis := v |}.

Definition estimatedVsize (inputs outputs : Z) : Z := 10 + inputs * 148 + outputs * 34.

Definition coin_value (c : coin) : res Z := v ← get (coin_js c) "value"; to_BigInt v.

(** The selection loop: coins are taken in order until they cover the amount
    and the fee of a transaction with that many inputs. *)
Fixpoint select_coins (feeRate amount outputCount : Z) (chosen : list coin) (totalIn : Z) (l : list coin)
    : res (list coin * Z) :=
  match l with
  | [] => Ok (chosen, totalIn)
  | u :: l =>
      let chosen := chosen ++ [u] in
      v ← coin_value u;
      let totalIn := totalIn + v in
      let feeSatoshis := feeRate * estimatedVsize (Z.of_nat (length chosen)) outputCount in
      if amount + feeSatoshis <=? totalIn then Ok (chosen, totalIn)
      else select_coins feeRate amount outputCount chosen totalIn l
  end.

(** The integer part of a number, as the typed arrays take it. *)
Definition num_trunc (x : num) : Z := match x with Fin m e => Z.sgn m * fin_floor (Z.abs m) e | _ => 0 end.
(** [fic.hexToBytes(v)] *)
Definition hex_field (v : js) : res (list Z) :=
  match v with
  | JStr s => Ok (hexToBytes s)
  | JUndef | JNull => Throw (EngineError "TypeError: Cannot read properties (reading length)")
  | _ => Ok []
  end.

Definition coin_input (ks : gmap Z key) (c : coin) : res utxo_input :=
  k ← defined "key" (ks !! coin_index c);
  txid ← get (coin_js c) "txid"; txid ← hex_field txid;
  vout ← get (coin_js c) "vout";
  v ← get (coin_js c) "value";
  Ok {| u_txid := reverse txid; u_vout := num_trunc (to_Number vout); u_valueSatoshis := num_trunc (to_Number v);
        u_pubkeyHash := hash160 (publicKey k); u_privateKey := Some (privateKey k);
        u_publicKeyCompressed := Some (publicKey k); u_sequence := None |}.

(** The outputs: the recipients and, if positive, the change. *)
Definition send_outputs (dest : list tx_output) (change : Z) (changeHash : list Z) : res (list tx_output) :=
  if 0 <? change then
    v ← number_value change;
    Ok (dest ++ [{| scriptPubKey := p2pkhScriptPubKey changeHash; valueSatoshis := v |}])
  else Ok dest.

Record payment : Type := {
  pay_txid : js;
  pay_coins : list coin;
  pay_outputs : list tx_output;
  pay_change : Z;
  pay_fee : Z;
  pay_raw : list Z
}.

(** The body of the [try]: from the recipients to the broadcast; [None] when
    the funds do not suffice. *)
Definition send_payment (recipients : list recipient) : M (option payment) :=
  network ← current_network;
  destOutputs ← lift (mapR (dest_output network) recipients);
  let amountTotal := sumZ (r_amount <$> recipients) in
  allUtxos ← gatherAllUtxos;
  feeResp ← feeEstimate 6;
  minRate ← fee_rate feeResp;
  _ ← set_sstate (set_sendFeeMinRate (Some minRate));
  override ← sstate sendFeeRateOverride;
  let feeRate := match override with Some r => if minRate <? r then r else minRate | None => minRate end in
  let outputCount := Z.of_nat (length recipients) + 1 in
  '(chosen, totalIn) ← lift (select_coins feeRate amountTotal outputCount [] 0 allUtxos);
  let feeSatoshis := feeRate * estimatedVsize (Z.of_nat (length chosen)) outputCount in
  if totalIn <? amountTotal + feeSatoshis then
    _ ← set_text "send-error" ("Insufficient funds: have " +:+ formatFic totalIn +:+ ", need " +:+
                               formatFic (amountTotal + feeSatoshis));
    mret None
  else
    let change := totalIn - amountTotal - feeSatoshis in
    active ← wstate activeIndex;
    changeKey ← ensureKey active;
    outputs ← lift (send_outputs destOutputs change (hash160 (publicKey changeKey)));
    ks ← wstate keys;
    inputs ← lift (mapR (coin_input ks) chosen);
    rawTx ← lift (buildAndSignTransaction inputs outputs None None 0);
    result ← broadcast (bytesToHex rawTx);
    txid ← prop result "txid";
    mret (Some {| pay_txid := txid; pay_coins := chosen; pay_outputs := outputs; pay_change := change;
                  pay_fee := feeSatoshis; pay_raw := rawTx |}).

(** ** The log of sent transactions *)

Definition loadSentTxLog : M js := raw ← getItem "fic_sent_tx_log"; lift (parse_or raw (JObj [])).
Definition saveSentTxLog (l : js) : M unit := setItem "fic_sent_tx_log" (JSON_stringify l).
(** [o[k] = v] in strict code: a property set on an array is not serialised, one
    set on a primitive is refused. *)
Definition js_set (o : js) (k : string) (v : js) : res js :=
  match o with
  | JObj l => Ok (JObj (obj_set l k v))
  | JArr _ => Ok o
  | _ => Throw (EngineError "TypeError: Cannot set properties")
  end.
Definition recordSentTx (txid : js) (record : js) : M unit :=
  l ← loadSentTxLog;
  l ← lift (js_set l (js_toString txid) record);
  saveSentTxLog l.

Definition sent_input_json (c : coin) : res js :=
  txid ← get (coin_js c) "txid";
  vout ← get (coin_js c) "vout";
  v ← get (coin_js c) "value";
  Ok (JObj [("txid", txid); ("vout", vout); ("valueSatoshis", JNum (to_Number v));
            ("derivationIndex", JNum (of_Z (coin_index c)))]).
Definition sent_output_json (last : nat) (change active : Z) (i : nat) (o : tx_output) : js :=
  let isChange := (0 <? change) && (i =? last)%nat in
  JObj [("scriptPubKeyHex", JStr (bytesToHex (scriptPubKey o))); ("valueSatoshis", JNum (of_Z (valueSatoshis o)));
        ("isChange", JBool isChange); ("changeIndex", if isChange then JNum (of_Z active) else JUndef)].
Definition payment_record (active : Z) (p : payment) : res js :=
  inputs ← mapR sent_input_json (pay_coins p);
  Ok (JObj [("inputs", JArr inputs);
            ("outputs", JArr (imap (sent_output_json (length (pay_outputs p) - 1) (pay_change p) active) (pay_outputs p)));
            ("feeSatoshis", JNum (Number_of_BigInt (pay_fee p)))]).

Definition btn_send_confirm : M unit :=
  _ ← set_text "send-error" "";
  _ ← set_text "send-success" "";
  rs ← sstate rows;
  recipients ← read_recipients rs;
  match recipients with
  | None => mret tt
  | Some recipients =>
      try_catch
        (sent ← send_payment recipients;
         match sent with
         | None => mret tt
         | Some p =>
             _ ← set_text "send-success" ("Broadcast: " +:+ js_toString (pay_txid p));
             active ← wstate activeIndex;
             record ← lift (payment_record active p);
             _ ← recordSentTx (pay_txid p) record;
             _ ← resetSendRecipients;
             updateSendAmountFiat
         end)
        (fun e => set_text "send-error" (gateway_or_string e))
  end.

(** ** Fee bumping *)

(** A whole number of a record. *)
Definition int_field (v : js) : res Z := BigInt_of_num (to_Number v).
Definition text_field (v : js) : res string :=
  match v with JStr s => Ok s | _ => Throw (EngineError "TypeError: not a string") end.

Definition read_sent_input (v : js) : res (sent_input * Z) :=
  txid ← get v "txid"; txid ← text_field txid;
  vout ← get v "vout"; vout ← int_field vout;
  value ← get v "valueSatoshis"; value ← int_field value;
  index ← get v "derivationIndex"; index ← int_field index;
  Ok ({| si_txid := txid; si_vout := vout; si_valueSatoshis := value |}, index).
Definition read_sent_output (v : js) : res sent_output :=
  script ← get v "scriptPubKeyHex"; script ← text_field script;
  value ← get v "valueSatoshis"; value ← int_field value;
  isChange ← get v "isChange";
  Ok {| so_scriptPubKeyHex := script; so_valueSatoshis := value; so_isChange := truthy isChange |}.
(** A record of the log: what [buildBumpFeeTransaction] takes, and the indices of the keys. *)
Definition read_sent_record (v : js) : res (sent_record * list Z) :=
  inputs ← get v "inputs"; inputs ← elements inputs;
  inputs ← mapR read_sent_input inputs;
  outputs ← get v "outputs"; outputs ← elements outputs;
  outputs ← mapR read_sent_output outputs;
  fee ← get v "feeSatoshis"; fee ← int_field fee;
  Ok ({| sr_inputs := inputs.*1; sr_outputs := outputs; sr_feeSatoshis := fee |}, inputs.*2).

(** [{ ...o, valueSatoshis }] for the output that changed. *)
Definition write_sent_output (o : js) (n : sent_output) : res js :=
  v ← get o "valueSatoshis"; v ← int_field v;
  if so_valueSatoshis n =? v then Ok o else js_set o "valueSatoshis" (JNum (of_Z (so_valueSatoshis n))).

(** [1.5] *)
Definition num_1_5 : num := Fin 3 (-1).

Definition bump_fee_target (feeRate : Z) (record : sent_record) : num :=
  let vsize := estimatedVsize (Z.of_nat (length (sr_inputs record))) (Z.of_nat (length (sr_outputs record))) in
  math_max (Number_of_BigInt (feeRate * vsize)) (math_round (mul (of_Z (sr_feeSatoshis record)) num_1_5)).

Definition bumpFee (txid : string) : M js :=
  l ← loadSentTxLog;
  entry ← prop l txid;
  if negb (truthy entry) then
    throw (JsError "No local record of this transaction -- it was either sent from a different device/browser, or before this feature existed. Can't bump its fee here.")
  else
    feeResp ← feeEstimate 6;
    feeRate ← fee_rate feeResp;
    '(record, indices) ← lift (read_sent_record entry);
    newFee ← lift (BigInt_of_num (bump_fee_target feeRate record));
    inputKeys ← map_m (fun idx => k ← ensureKey idx;
                        mret {| ik_privateKey := privateKey k; ik_publicKeyCompressed := publicKey k |}) indices;
    '(rawTx, newOutputs) ← lift (buildBumpFeeTransaction record newFee inputKeys);
    result ← broadcast (bytesToHex rawTx);
    newTxid ← prop result "txid";
    l2 ← loadSentTxLog;
    inputs ← prop entry "inputs";
    outputs ← prop entry "outputs";
    outputs ← lift (elements outputs);
    outputs ← lift (mapR (fun on => write_sent_output on.1 on.2) (zip outputs newOutputs));
    let l2 := match l2 with JObj l => JObj (obj_delete l txid) | _ => l2 end in
    l2 ← lift (js_set l2 (js_toString newTxid)
           (JObj [("inputs", inputs); ("outputs", JArr outputs); ("feeSatoshis", JNum (of_Z newFee)); ("replacesTxid", JStr txid)]));
    _ ← saveSentTxLog l2;
    mret newTxid.

End Send.
