(* ===== verification/SendFacts.v ===== *)
(** * Sending: coin selection and the payment that is broadcast

    The selection loop takes the shortest prefix of the coins that pays for the
    amount and its own fee; the transaction built from it spends exactly those
    coins with valid signatures, pays every recipient, returns the change, and
    leaves the computed fee. *)

From S2P Require Import Prelude Digits JsString JsInt Bytes Crypto Base58 Bech32 Address Tx NodeTx NodeScript Spend BumpFee Message JsNum JsNumFacts JsNumText Amount Texts Json JsonFacts Keys World Gateway Storage Wallet WalletFacts SendScreen.

Open Scope Z_scope.
Open Scope list_scope.

(** ** Coin selection *)

(** The value of a coin, 0 for one that cannot be read. *)
Definition val (c : coin) : Z := match coin_value c with Ok v => v | Throw _ => 0 end.
Definition total (l : list coin) : Z := sumZ (val <$> l).
(** [p] pays for [amount] and for the fee of a transaction with its inputs. *)
Definition suffices (feeRate amount outputCount : Z) (p : list coin) : Prop :=
  amount + feeRate * estimatedVsize (Z.of_nat (length p)) outputCount <= total p.

Lemma total_snoc l c : total (l ++ [c]) = total l + val c.
Proof. unfold total. rewrite fmap_app, sumZ_app. cbn. lia. Qed.

Lemma select_coins_spec feeRate amount outs chosen0 l chosen t :
  select_coins feeRate amount outs chosen0 (total chosen0) l = Ok (chosen, t) ->
  exists taken rest, l = taken ++ rest /\ chosen = chosen0 ++ taken /\ t = total chosen /\
    (forall p q, taken = p ++ q -> p <> [] -> q <> [] -> ~ suffices feeRate amount outs (chosen0 ++ p)) /\
    (rest <> [] -> suffices feeRate amount outs chosen /\ taken <> []) /\
    Forall (fun c => is_ok (coin_value c) = true) taken.
Proof.
  revert chosen0. induction l as [|u l IH]; intros chosen0; cbn [select_coins].
  - intros [= <- <-]. exists [], []. rewrite !app_nil_r. split; [done|]. split; [done|]. split; [done|].
    split; [|split; [done|apply Forall_nil_2]]. intros p q Hpq. symmetry in Hpq. by apply app_eq_nil in Hpq as [-> ->].
  - intros (v & Hv & Hs)%res_bind_ok. assert (val u = v) as Hval by (unfold val; by rewrite Hv).
    rewrite <-Hval, <-total_snoc in Hs. destruct (Z.leb_spec (amount + feeRate * estimatedVsize (Z.of_nat (length (chosen0 ++ [u]))) outs) (total (chosen0 ++ [u]))) as [Hle|Hgt].
    + injection Hs as <- <-. exists [u], l. split; [done|]. split; [done|]. split; [done|]. split; [|split; [done|]].
      * intros [|x [|y p]] q Hpq; try done. injection Hpq as _ Hpq. by destruct q.
      * apply Forall_cons_2; [by rewrite Hv|apply Forall_nil_2].
    + apply IH in Hs as (taken & rest & -> & -> & -> & Hno & Hrest & Hok). exists (u :: taken), rest.
      split; [done|]. split; [by rewrite <-app_assoc|]. split; [done|]. split; [|split].
      * intros p q Hpq Hp Hq. destruct p as [|x p]; [done|]. injection Hpq as <- Hpq.
        destruct p as [|y p]; [unfold suffices; lia|].
        replace (chosen0 ++ u :: y :: p) with ((chosen0 ++ [u]) ++ y :: p) by (by rewrite <-app_assoc).
        by apply (Hno (y :: p) q).
      * intros Hr. split; [by apply Hrest|done].
      * apply Forall_cons_2; [by rewrite Hv|done].
Qed.

(** The coins chosen for a payment are the shortest non-empty prefix of the
    wallet's coins that covers the amount and the fee of spending them, if
    there is one; otherwise all of them, and no prefix covers it, which is
    exactly when the wallet reports insufficient funds. *)
Theorem coin_selection_shortest feeRate amount outs coins chosen t :
  select_coins feeRate amount outs [] 0 coins = Ok (chosen, t) -> coins <> [] ->
  t = total chosen /\
  (exists rest, coins = chosen ++ rest) /\
  (forall p q, coins = p ++ q -> p <> [] -> suffices feeRate amount outs p -> (length chosen <= length p)%nat) /\
  (t < amount + feeRate * estimatedVsize (Z.of_nat (length chosen)) outs <->
    forall p q, coins = p ++ q -> p <> [] -> ~ suffices feeRate amount outs p).
Proof.
  intros Hs Hne. apply (select_coins_spec _ _ _ []) in Hs as (taken & rest & -> & -> & -> & Hno & Hrest & _). cbn [app] in *.
  assert (taken <> []) as Htk by (destruct rest as [|r rest]; [by rewrite app_nil_r in Hne|by apply Hrest]).
  assert (forall p q, taken ++ rest = p ++ q -> p <> [] -> suffices feeRate amount outs p -> (length taken <= length p)%nat) as Hmin.
  { intros p q Hpq Hp Hsuf. apply Nat.nlt_ge. intros Hlt.
    apply (Hno p (drop (length p) taken)); [|done| |done].
    - rewrite <-(take_drop (length p) taken) at 1. f_equal.
      apply (f_equal (take (length p))) in Hpq. rewrite take_app_le, take_app_length in Hpq by lia. done.
    - intros E%(f_equal length). rewrite length_drop in E. cbn in E. lia. }
  split; [done|]. split; [by exists rest|]. split; [done|]. split.
  - intros Hlt p q Hpq Hp Hsuf. destruct rest as [|r rest].
    + rewrite app_nil_r in Hpq. specialize (Hmin p q ltac:(by rewrite app_nil_r) Hp Hsuf).
      assert (q = []) as -> by (apply nil_length_inv; apply (f_equal length) in Hpq; rewrite length_app in Hpq; lia).
      rewrite app_nil_r in Hpq. subst p. unfold suffices in Hsuf. lia.
    + destruct (Hrest ltac:(done)) as [Hsuf' _]. unfold suffices in Hsuf'. lia.
  - intros Hall. apply Z.nle_gt. intros Hle. by apply (Hall taken rest).
Qed.

Definition ex_coin (txid : string) (v : Z) (i : Z) : coin := {|
  coin_js := JObj [("txid", JStr txid); ("vout", JNum (of_Z 0)); ("value", JNum (of_Z v))]; coin_index := i |}.

Lemma coin_selection_shortest_witness :
  let coins := [ex_coin "aa" 1000 0; ex_coin "bb" 5000 0; ex_coin "cc" 9000 1] in
  6000 = total (take 2 coins) /\
  (exists rest, coins = take 2 coins ++ rest) /\
  (forall p q, coins = p ++ q -> p <> [] -> suffices 10 1500 2 p -> (length (take 2 coins) <= length p)%nat) /\
  (6000 < 1500 + 10 * estimatedVsize (Z.of_nat (length (take 2 coins))) 2 <->
    forall p q, coins = p ++ q -> p <> [] -> ~ suffices 10 1500 2 p).
Proof.
  apply (coin_selection_shortest 10 1500 2 [ex_coin "aa" 1000 0; ex_coin "bb" 5000 0; ex_coin "cc" 9000 1]).
  - vm_compute. reflexivity.
  - discriminate.
Defined.

(** ** Inverting the handler *)

Section SendInv.
Context `{CryptoLaws} `{Hd} {HL : HdLaws} `{Browser}.

Lemma pres_gatherAllUtxos : preserves (same wal) gatherAllUtxos.
Proof. unfold gatherAllUtxos, gather_address, address_text. pres. Qed.

Lemma pres_get_ok {A} {B} (f : world -> B) (m : M A) w r w' : preserves (same f) m -> m w = (r, w') -> f w' = f w.
Proof. intros Hm E. specialize (Hm w). rewrite E in Hm. by symmetry. Qed.

Definition broadcast_request (base : string) (raw : list Z) : request := {|
  rq_method := "POST"; rq_url := base +:+ "/v1/tx/broadcast"; rq_auth := None;
  rq_body := Some (JSON_stringify (JObj [("raw_tx_hex", JStr (bytesToHex raw))])) |}.

Lemma feeEstimate_inv w feeResp w1 : feeEstimate 6 w = (Ok feeResp, w1) -> exists rq, w1 = set_log (log w ++ [rq]) w.
Proof. intros E. pose proof (get_sends ("/v1/fee-estimate?target_blocks=" +:+ toString 6) None w) as Hs. unfold feeEstimate in E. rewrite E in Hs. by eexists. Qed.

Lemma fee_rate_inv v w r w' : fee_rate v w = (Ok r, w') -> w' = w.
Proof. unfold fee_rate. intros H'. m_inv H'. apply prop_ok in E as [_ ->]. by apply lift_ok in H' as [_ ->]. Qed.

(** What is known of a payment that was broadcast. *)
Lemma send_payment_inv recipients w p w' : send_payment recipients w = (Ok (Some p), w') ->
  exists net dest coins minRate rate t inputs ck s before,
    NETWORKS (network_name (wal w)) = Some net /\ mapR (dest_output net) recipients = Ok dest /\
    minRate <= rate /\ sendFeeMinRate (snd_st w') = Some minRate /\
    let amount := sumZ (r_amount <$> recipients) in
    let outs := Z.of_nat (length recipients) + 1 in
    select_coins rate amount outs [] 0 coins = Ok (pay_coins p, t) /\
    pay_fee p = rate * estimatedVsize (Z.of_nat (length (pay_coins p))) outs /\
    amount + pay_fee p <= t /\ pay_change p = t - amount - pay_fee p /\
    ensured (activeIndex (wal w)) (wal w) (Ok ck) s /\
    send_outputs dest (pay_change p) (hash160 (publicKey ck)) = Ok (pay_outputs p) /\
    mapR (coin_input (keys s)) (pay_coins p) = Ok inputs /\
    buildAndSignTransaction inputs (pay_outputs p) None None 0 = Ok (pay_raw p) /\
    log w' = before ++ [broadcast_request (baseUrl (wal w)) (pay_raw p)] /\ wal w' = s.
Proof.
  unfold send_payment. intros Hs. m_inv Hs. rename a into net. unfold current_network, wstate in E. m_inv E.
  apply gets_ok in E0 as [-> ->]. apply lift_ok in E as [Hnet ->].
  destruct (NETWORKS (network_name (wal w))) as [net'|] eqn:En; [|done]. injection Hnet as ->.
  m_inv Hs. apply lift_ok in E as [Hdest ->]. rename a into dest.
  m_inv Hs. rename a into coins. pose proof (pres_get_ok wal _ _ _ _ pres_gatherAllUtxos E) as Hw1. clear E.
  m_inv Hs. apply feeEstimate_inv in E as [rq ->]. m_inv Hs. apply fee_rate_inv in E as ->. rename a0 into minRate.
  unfold set_sstate in Hs. rewrite bind_modify in Hs. unfold sstate in Hs. rewrite bind_gets in Hs.
  set (rate := match _ with Some r => _ | None => minRate end) in Hs.
  assert (minRate <= rate) as Hrate.
  { unfold rate. destruct (sendFeeRateOverride _) as [r|]; [|lia]. destruct (Z.ltb_spec minRate r); lia. }
  m_inv Hs. apply lift_ok in E as [Hsel ->]. destruct a0 as [chosen t]. destruct (Z.ltb_spec t (sumZ (r_amount <$> recipients) + rate * estimatedVsize (Z.of_nat (length chosen)) (Z.of_nat (length recipients) + 1))) as [|Hle];
    [m_inv Hs; by apply mret_ok in Hs as [? _]|].
  unfold wstate in Hs. rewrite bind_gets in Hs.
  match type of Hs with (_ ≫= _) ?w2 = _ => set (w2' := w2) in * end.
  destruct (ensureKey_spec (activeIndex (wal w2')) w2') as (r & s & Eens & Hens).
  assert (wal w2' = wal w) as Hwal by exact Hw1. rewrite Hwal in Hens.
  m_inv Hs. rewrite Eens in E. injection E as -> <-.
  m_inv Hs. apply lift_ok in E as [Hout ->]. rename a1 into outputs.
  rewrite bind_gets in Hs. m_inv Hs. apply lift_ok in E as [Hin ->]. rename a1 into inputs.
  m_inv Hs. apply lift_ok in E as [Hraw ->]. rename a1 into raw.
  m_inv Hs. pose proof (post_sends "/v1/tx/broadcast" (JObj [("raw_tx_hex", JStr (bytesToHex raw))]) None (set_wal s w2')) as Hb.
  unfold broadcast in E. rewrite E in Hb. unfold sends in Hb. cbn [snd] in Hb. subst w1.
  m_inv Hs. apply prop_ok in E0 as [_ ->]. apply mret_ok in Hs as [Hp ->]. injection Hp as ->. cbn [pay_coins pay_fee pay_change pay_outputs pay_raw].
  exists net, dest, coins, minRate, rate, t, inputs, a0, s, (log w2').
  repeat (split; [done|]). cbn [log set_log set_wal wal].
  destruct (ensured_same _ _ _ _ Hens) as (_ & _ & _ & _ & _ & ->). done.
Qed.

(** ** The transaction *)

Lemma number_value_exact z : Z.abs z < 2 ^ 53 -> number_value z = Ok z.
Proof. intros Hz. unfold number_value, Number_of_BigInt. rewrite of_Z_exact by done. apply BigInt_norm. Qed.

Lemma num_trunc_of_Z n : Z.abs n < 2 ^ 53 -> num_trunc (of_Z n) = n.
Proof.
  intros Hn. rewrite of_Z_exact by done. destruct (norm_int n) as (m & e & -> & He & <-).
  unfold num_trunc, fin_floor. destruct (Z.leb_spec 0 e); [|lia]. rewrite Z.mul_assoc. f_equal. lia.
Qed.

Lemma decodeAddress_length a net d : decodeAddress a net = Ok d -> length (addr_hash d) = 20%nat.
Proof.
  unfold decodeAddress. destruct (startsWith _ _).
  - destruct (bech32Decode a) as [hrp data]. intros (_ & _ & Hd)%res_bind_ok. apply res_bind_ok in Hd as (pr & _ & Hd).
    apply res_bind_ok in Hd as (_ & Hl%throw_if_ok & Hd). apply Ok_inj in Hd as <-. cbn [addr_hash].
    apply orb_false_iff in Hl as [_ Hl%negb_false_iff%Nat.eqb_eq]. unfold u8arr. by rewrite length_fmap.
  - intros (pl & _ & Hd)%res_bind_ok. apply res_bind_ok in Hd as (_ & Hl%throw_if_ok%negb_false_iff%Nat.eqb_eq & Hd).
    destruct (_ =? _); [|destruct (_ =? _); [|done]]; apply Ok_inj in Hd as <-; cbn [addr_hash]; by rewrite length_drop, Hl.
Qed.

Lemma script_for_address_length a net d : decodeAddress a net = Ok d -> (length (script_for_address d) <= 25)%nat.
Proof.
  intros Hd%decodeAddress_length. unfold script_for_address, p2pkhScriptPubKey, p2shScriptPubKey, p2wpkhScriptPubKey.
  destruct (addr_type d); rewrite ?concatBytes_concat; unfold mjoin, list_join, u8arr;
    repeat (rewrite ?length_app, ?length_fmap; cbn [length app]); lia.
Qed.

Lemma script_for_address_bytes d : bytes_ok (script_for_address d).
Proof. unfold script_for_address. destruct (addr_type d); apply bytes_ok_u8arr. Qed.

(** Output [o] pays recipient [r] what was asked, at their address. *)
Definition paid (net : network) (r : recipient) (o : CTxOut) : Prop :=
  exists d, decodeAddress (r_address r) net = Ok d /\ out_scriptPubKey o = script_for_address d /\ nValue o = r_amount r.

Lemma dest_outputs_spec net recipients dest : mapR (dest_output net) recipients = Ok dest ->
  Forall (fun r => 0 <= r_amount r < 2 ^ 53) recipients ->
  Forall2 (paid net) recipients (node_txout <$> dest) /\
  Forall (fun o => (length (scriptPubKey o) <= 25)%nat) dest /\ valueSatoshis <$> dest = r_amount <$> recipients.
Proof.
  intros Hm%mapR_ok Hr. induction Hm as [|r o recipients dest Ho _ IH]; [by split_and!|].
  apply Forall_cons_1 in Hr as [Ha Hr]. destruct (IH Hr) as (IH1 & IH2 & IH3).
  unfold dest_output in Ho. apply res_bind_ok in Ho as (d & Hd & Ho). rewrite number_value_exact in Ho by lia.
  apply Ok_inj in Ho as <-. split; [|split].
  - apply Forall2_cons_2; [|done]. by exists d.
  - apply Forall_cons_2; [|done]. by eapply script_for_address_length.
  - cbn. by f_equal.
Qed.

(** A coin as the gateway reports one. *)
Definition coin_ok (c : coin) : Prop := exists txid n,
  get (coin_js c) "txid" = Ok (JStr txid) /\ strlen txid = 64 /\
  get (coin_js c) "vout" = Ok (JNum (of_Z n)) /\ 0 <= n < 2 ^ 32 /\ 0 <= val c.

Lemma coin_inputs_spec s chosen inputs : table_ok s -> mapR (coin_input (keys s)) chosen = Ok inputs ->
  Forall coin_ok chosen ->
  length inputs = length chosen /\ Forall wf_utxo inputs /\ Forall (own_key None None) inputs /\
  (forall i c, chosen !! i = Some c -> exists u, inputs !! i = Some u /\ coin_input (keys s) c = Ok u).
Proof.
  intros Hs Hm%mapR_ok Hc. split; [by rewrite (Forall2_length _ _ _ Hm)|].
  assert (Forall (fun u => wf_utxo u /\ own_key None None u) inputs) as [Hw Ho]%Forall_and.
  { induction Hm as [|c u chosen inputs Hu _ IH]; [apply Forall_nil_2|]. apply Forall_cons_1 in Hc as [Hc1 Hc].
    apply Forall_cons_2; [|by apply IH]. destruct Hc1 as (txid & n & E1 & Hl & E2 & Hn & _).
    unfold coin_input in Hu. apply res_bind_ok in Hu as (k & Hk & Hu). rewrite E1, E2 in Hu. cbn [mbind res_bind hex_field] in Hu.
    apply res_bind_ok in Hu as (v & _ & Hu). apply Ok_inj in Hu as <-. cbn [to_Number].
    destruct (keys s !! coin_index c) as [k'|] eqn:Ek; [|done]. injection Hk as ->.
    split; [split|].
    - cbn [u_txid]. rewrite length_reverse, length_hexToBytes, Hl. done.
    - cbn [u_vout u_pubkeyHash u_sequence default]. rewrite num_trunc_of_Z by lia. rewrite hash160_length.
      split; [lia|]. split; [done|]. split; [apply hash160_bytes|]. cbn. lia.
    - exists (privateKey k). split; [done|]. cbn [u_publicKeyCompressed u_pubkeyHash nullish].
      by rewrite (table_ok_pair s _ k Hs Ek). }
  split; [done|]. split; [done|]. intros i c Hi. by destruct (Forall2_lookup_l _ _ _ _ _ Hm Hi) as (u & ? & ?); exists u.
Qed.

Lemma sumZ_elem l x : Forall (fun y => 0 <= y) l -> x ∈ l -> x <= sumZ l.
Proof.
  induction 1 as [|y l Hy Hl IH]; [by intros ?%elem_of_nil|]. pose proof (sumZ_nonneg _ Hl).
  intros [-> | Hx]%elem_of_cons; cbn [sumZ foldr] in *; [|specialize (IH Hx)]; unfold sumZ in *; lia.
Qed.

(** The output that returns the rest to the key [ck], when there is a rest. *)
Definition change_outputs (change : Z) (ck : key) : list tx_output :=
  if 0 <? change then [{| scriptPubKey := p2pkhScriptPubKey (hash160 (publicKey ck)); valueSatoshis := change |}] else [].

Definition small_output (o : tx_output) : Prop := 0 <= valueSatoshis o < 2 ^ 53 /\ (length (scriptPubKey o) <= 25)%nat.

Lemma change_outputs_spec change ck : 0 <= change < 2 ^ 53 ->
  (length (change_outputs change ck) <= 1)%nat /\ Forall small_output (change_outputs change ck) /\
  sumZ (valueSatoshis <$> change_outputs change ck) = change.
Proof.
  intros Hc. unfold change_outputs. destruct (Z.ltb_spec 0 change); [|cbn; split_and!; [lia|apply Forall_nil_2|lia]].
  split; [cbn; lia|]. split; [|cbn; lia]. apply Forall_cons_2; [|apply Forall_nil_2]. split; [cbn; lia|]. cbn [scriptPubKey].
  unfold p2pkhScriptPubKey. rewrite ?concatBytes_concat. unfold mjoin, list_join, u8arr.
  repeat (rewrite ?length_app, ?length_fmap, ?hash160_length; cbn [length app]). lia.
Qed.

Lemma send_outputs_ok dest change ck outputs : change < 2 ^ 53 ->
  send_outputs dest change (hash160 (publicKey ck)) = Ok outputs -> outputs = dest ++ change_outputs change ck.
Proof.
  intros Hc. unfold send_outputs, change_outputs. destruct (Z.ltb_spec 0 change); [|intros Ho; apply Ok_inj in Ho as <-; by rewrite app_nil_r].
  rewrite number_value_exact by lia. intros Ho. by apply Ok_inj in Ho as <-.
Qed.

Lemma dest_outputs_small net recipients dest amount : mapR (dest_output net) recipients = Ok dest ->
  Forall (fun r => 0 <= r_amount r) recipients -> sumZ (r_amount <$> recipients) = amount -> amount < 2 ^ 53 ->
  Forall2 (paid net) recipients (node_txout <$> dest) /\ Forall small_output dest /\
  length dest = length recipients /\ sumZ (valueSatoshis <$> dest) = amount.
Proof.
  intros Hd Hr Hs Ha. assert (Forall (fun r => 0 <= r_amount r < 2 ^ 53) recipients) as Hb.
  { apply Forall_forall. intros r Hin. rewrite Forall_forall in Hr. split; [by apply Hr|].
    assert (r_amount r <= amount); [|lia]. rewrite <-Hs. apply sumZ_elem; [apply Forall_fmap; by apply Forall_forall|].
    apply list_elem_of_fmap. by exists r. }
  destruct (dest_outputs_spec _ _ _ Hd Hb) as (Hp & Hl & Hv). split; [done|]. split; [|split].
  - apply Forall_forall. intros o Ho. rewrite Forall_forall in Hl. rewrite Forall_forall in Hb. split; [|by apply Hl].
    assert (valueSatoshis o ∈ r_amount <$> recipients) as (r & -> & Hin)%list_elem_of_fmap
      by (rewrite <-Hv; apply list_elem_of_fmap; by exists o). by apply Hb.
  - by rewrite <-(length_fmap valueSatoshis dest), Hv, length_fmap.
  - by rewrite Hv.
Qed.

End SendInv.

(** C1: when the send button broadcasts, the request carries a transaction that
    the node reads in full; it spends exactly the selected coins, each input
    with a signature the node accepts for the key of the coin's address; it
    pays every recipient the amount asked at the address given and returns the
    rest to the active address; inputs equal outputs plus the fee shown; and
    the fee is at least the gateway's rate times the actual size.  The totals
    are below 2^53 satoshis, where JavaScript numbers are exact. *)
Theorem send_payment_correct `{CryptoLaws} {CU : Curve} {CL : CurveLaws} `{Hd} {HL : HdLaws} `{Browser} recipients w p w'
  (Htable : table_ok (wal w)) (Hsend : send_payment recipients w = (Ok (Some p), w'))
  (Hamounts : Forall (fun r => 0 <= r_amount r) recipients) (Hcoins : Forall coin_ok (pay_coins p))
  (Htotal : total (pay_coins p) < 2 ^ 53) (Hrate : forall r, sendFeeMinRate (snd_st w') = Some r -> 0 <= r)
  (Hn : (length (pay_coins p) < 253)%nat) (Hm : (length recipients < 252)%nat) :
  exists tx net before minRate ck outs,
    log w' = before ++ [broadcast_request (baseUrl (wal w)) (pay_raw p)] /\
    UnserializeTransaction true (pay_raw p) = inr (tx, []) /\ length (vin tx) = length (pay_coins p) /\
    (forall i c, pay_coins p !! i = Some c -> exists u, coin_input (keys (wal w')) c = Ok u /\ input_verifies tx i u) /\
    NETWORKS (network_name (wal w)) = Some net /\ Forall2 (paid net) recipients outs /\
    keys (wal w') !! activeIndex (wal w) = Some ck /\
    vout tx = outs ++ (node_txout <$> change_outputs (pay_change p) ck) /\
    total (pay_coins p) = sumZ (nValue <$> vout tx) + pay_fee p /\
    sendFeeMinRate (snd_st w') = Some minRate /\ minRate * Z.of_nat (length (pay_raw p)) <= pay_fee p.
Proof.
  destruct (send_payment_inv _ _ _ _ Hsend) as (net & dest & coins & minRate & rate & t & inputs & ck & s & before & Hnet & Hdest & Hle & Hmin & Hsel &
    Hfee & Hok & Hchange & Hens & Hout & Hin & Hraw & Hlog & Hs). rewrite Hs. pose proof (Hrate _ Hmin) as Hr0.
  apply (select_coins_spec _ _ _ []) in Hsel as (taken & rest & _ & _ & -> & _).
  assert (0 <= sumZ (r_amount <$> recipients)) as Ha0 by (by apply sumZ_nonneg, Forall_fmap).
  assert (0 <= pay_fee p) as Hf0 by (rewrite Hfee; unfold estimatedVsize; nia).
  destruct (dest_outputs_small _ _ _ _ Hdest Hamounts eq_refl) as (Hpaid & Hsmall & Hlen & Hsum); [lia|].
  destruct (change_outputs_spec (pay_change p) ck) as (Hlc & Hcsmall & Hcsum); [lia|].
  apply send_outputs_ok in Hout; [|lia].
  destruct (coin_inputs_spec s (pay_coins p) inputs (ensured_table _ _ _ _ Hens Htable) Hin Hcoins) as (Hli & Hwf & Hown & Hlook).
  assert (Forall small_output (pay_outputs p)) as Hall by (rewrite Hout; by apply Forall_app).
  assert (length (pay_outputs p) = length recipients + length (change_outputs (pay_change p) ck))%nat as Hlo by (by rewrite Hout, length_app, Hlen).
  destruct (payment_verifies_aux inputs (pay_outputs p) None None 0 (pay_raw p)) as (tx & Hun & Hvin & Hvout & _ & Hver); [|done|done|].
  { split; [unfold MAX_SIZE; lia|]. split; [done|]. split; [unfold MAX_SIZE; lia|]. split; [|lia].
    eapply Forall_impl; [exact Hall|]. intros o [? ?]. unfold wf_output, small_blob, MAX_SIZE. lia. }
  exists tx, net, before, minRate, ck, (node_txout <$> dest). do 2 (split; [done|]). split; [lia|]. split.
  { intros i c Hi. destruct (Hlook _ _ Hi) as (u & Hu & Hc). exists u. split; [done|by apply Hver]. }
  do 2 (split; [done|]). split; [by eapply ensured_lookup|]. split; [by rewrite Hvout, Hout, fmap_app|]. split.
  { rewrite Hvout, Hout, fmap_app, fmap_app, sumZ_app, <-!list_fmap_compose.
    change (nValue ∘ node_txout) with valueSatoshis. rewrite Hsum, Hcsum. lia. }
  split; [done|].
  assert (length (pay_raw p) <= 10 + 148 * length inputs + 34 * length (pay_outputs p))%nat as Hsize.
  { eapply payment_size_aux; [|exact Hown|lia|lia| |exact Hraw]; eapply Forall_impl; [exact Hwf| |exact Hall|]; by intros ? []. }
  rewrite Hfee. unfold estimatedVsize. nia.
Qed.

(** A wallet with one coin, and a gateway that takes the payment. *)
Definition ex_gateway : Browser := answering [
  ("/v1/address/", JObj [("utxos", JArr [JObj [
     ("txid", JStr (str (replicate 64 (Ascii.ascii_of_nat 97)))); ("vout", JNum (of_Z 1)); ("value", JStr "500000")]])]);
  ("/v1/fee-estimate", JObj [("fee_rate_sat_per_vbyte", JNum (of_Z 10))]);
  ("/v1/tx/broadcast", JObj [("txid", JStr "00")])].
Definition ex_world : world :=
  set_wal (set_addressIndices [0] (set_mnemonic (Some "abandon") empty_wallet)) empty_world.
Definition ex_recipients : list recipient :=
  [{| r_address := match @p2pkhAddress toy_crypto (replicate 20 7) mainnet with Ok a => a | Throw _ => "" end; r_amount := 120000 |}].
Definition ex_send := @send_payment toy_crypto (@toy_hd toy_crypto) ex_gateway ex_recipients ex_world.
Definition ex_payment : payment := match fst ex_send with
  | Ok (Some p) => p
  | _ => {| pay_txid := JUndef; pay_coins := []; pay_outputs := []; pay_change := 0; pay_fee := 0; pay_raw := [] |}
  end.

Lemma send_payment_correct_witness :
  exists tx net before minRate ck outs,
    log (snd ex_send) = before ++ [broadcast_request "" (pay_raw ex_payment)] /\
    UnserializeTransaction true (pay_raw ex_payment) = inr (tx, []) /\ length (vin tx) = length (pay_coins ex_payment) /\
    (forall i c, pay_coins ex_payment !! i = Some c ->
       exists u, @coin_input toy_crypto (keys (wal (snd ex_send))) c = Ok u /\ @input_verifies toy_crypto toy_curve tx i u) /\
    NETWORKS "mainnet" = Some net /\ Forall2 (@paid toy_crypto net) ex_recipients outs /\
    keys (wal (snd ex_send)) !! 0 = Some ck /\
    vout tx = outs ++ (node_txout <$> @change_outputs toy_crypto (pay_change ex_payment) ck) /\
    total (pay_coins ex_payment) = sumZ (nValue <$> vout tx) + pay_fee ex_payment /\
    sendFeeMinRate (snd_st (snd ex_send)) = Some minRate /\
    minRate * Z.of_nat (length (pay_raw ex_payment)) <= pay_fee ex_payment.
Proof.
  apply (@send_payment_correct toy_crypto toy_laws toy_curve toy_curve_laws (@toy_hd toy_crypto) toy_hd_laws ex_gateway
    ex_recipients ex_world ex_payment (snd ex_send)).
  - by apply table_ok_empty.
  - vm_compute. reflexivity.
  - apply Forall_cons_2; [cbn; lia|apply Forall_nil_2].
  - replace (pay_coins ex_payment) with [{| coin_js := JObj [
      ("txid", JStr (str (replicate 64 (Ascii.ascii_of_nat 97)))); ("vout", JNum (of_Z 1)); ("value", JStr "500000")]; coin_index := 0 |}]
      by (vm_compute; reflexivity).
    apply Forall_cons_2; [|apply Forall_nil_2]. exists (str (replicate 64 (Ascii.ascii_of_nat 97))), 1. by vm_compute.
  - by vm_compute.
  - replace (sendFeeMinRate (snd_st (snd ex_send))) with (Some 10) by (vm_compute; reflexivity). intros r [= <-]. lia.
  - vm_compute. lia.
  - vm_compute. lia.
Defined.
