(* ===== verification/SentLog.v ===== *)
(** * From a payment to its replacement

    A payment is recorded in [localStorage] as JSON when it is broadcast, and
    read back when its fee is raised.  This file follows the record: what is
    read is what was sent, so a replacement pays the same recipients out of the
    same coins. *)

From S2P Require Import Prelude Digits JsString JsInt Bytes Crypto Base58 Bech32 Address Tx NodeTx NodeScript Spend BumpFee Message JsNum JsNumFacts JsNumText Amount Texts Json JsonFacts Keys World Gateway Storage Wallet WalletFacts SendScreen SendFacts.

Open Scope Z_scope.
Open Scope list_scope.

(** ** Whole numbers read from texts *)

Lemma parse_prefixed_digits n : 0 <= n -> parse_prefixed (chars (toString n)) = None.
Proof.
  intros Hn. destruct (nat_digits_ok n Hn) as (Hok & _ & _). rewrite toString_digits, chars_str by done.
  unfold parse_prefixed, nat_digits in *. destruct (n =? 0); [done|].
  pose proof (digits_head 10 n ltac:(lia)) as Hh. destruct (digits 10 n) as [|d ds] eqn:E; [done|].
  rewrite fmap_cons. destruct ds as [|d2 ds]; [done|]. rewrite fmap_cons.
  destruct (Ascii.eqb_spec (digit_char d) "0") as [E0|]; [|done].
  exfalso. apply Forall_cons in Hok as [Hd _]. apply (f_equal digit_val) in E0. rewrite digit_val_char in E0 by lia.
  change (digit_val "0") with 0 in E0. by apply Hh.
Qed.

Lemma Number_toString n : 0 <= n -> Number_of_string (toString n) = of_Z n.
Proof.
  intros Hn. destruct (nat_digits_ok n Hn) as (Hok & Hne & Hv). pose proof (parse_prefixed_digits n Hn) as Hp.
  assert (toString n = decimal_text (nat_digits n) []) as E.
  { rewrite toString_digits by done. unfold decimal_text. apply chars_inj. by rewrite chars_app, app_nil_r. }
  assert (forallb (is_digit 10) (chars (toString n)) = true) as Hd.
  { rewrite toString_digits, chars_str by done. unfold nat_digits. destruct (n =? 0); [done|]. by apply forallb_digits. }
  unfold Number_of_string. rewrite trim_none.
  2:{ apply forallb_forall. intros c Hc. rewrite forallb_forall in Hd. apply negb_true_iff. apply (is_digit_not_space 10). by apply Hd. }
  rewrite Hp, skip_sign_digits by done. destruct (chars (toString n)) as [|c l] eqn:Ec.
  { exfalso. rewrite toString_digits, chars_str in Ec by done. by apply fmap_nil_inv in Ec. }
  rewrite <-Ec. assert (String.eqb (str (chars (toString n))) "Infinity" = false) as ->.
  { apply String.eqb_neq. intros Ei. apply (f_equal chars) in Ei. rewrite chars_str in Ei. rewrite <-Ec, Ei in Hd. done. }
  rewrite E, parse_decimal_text by (done || apply Forall_nil_2). rewrite app_nil_r, Hv. cbn. unfold of_decimal. cbn. by rewrite Z.mul_1_r.
Qed.

Lemma of_Z_is_double n : Z.abs n < 2 ^ 53 -> is_double (of_Z n).
Proof. intros Hn. pose proof (of_Z_is_num n) as Hi. rewrite of_Z_exact in * by done. by destruct (norm_int n) as (m & e & E & _); rewrite E in *. Qed.

Lemma int_field_of_Z n : Z.abs n < 2 ^ 53 -> int_field (JNum (of_Z n)) = Ok n.
Proof. intros Hn. unfold int_field. cbn [to_Number]. rewrite of_Z_exact by done. apply BigInt_norm. Qed.

(** ** Values with the same text *)

Definition same_text (v v' : js) : Prop :=
  is_undef v = is_undef v' /\ forall gap indent, write_json gap indent v = write_json gap indent v'.

Lemma same_text_refl v : same_text v v.
Proof. done. Qed.

Lemma fmap_forall2 {A B C} (f : A -> C) (g : B -> C) l l' : Forall2 (fun x y => f x = g y) l l' -> f <$> l = g <$> l'.
Proof. induction 1 as [|x y l l' E _ IH]; [done|]. rewrite !fmap_cons. by rewrite E, IH. Qed.

Lemma same_text_arr l l' : Forall2 same_text l l' -> same_text (JArr l) (JArr l').
Proof.
  intros Hl. split; [done|]. intros gap indent. assert (forall i, write_json gap i <$> l = write_json gap i <$> l') as E
    by (intros i; apply fmap_forall2; eapply Forall2_impl; [exact Hl|]; intros v v' [_ Hv]; apply Hv).
  destruct Hl as [|v v' l l' Hv Hl]; [done|]. rewrite !write_json_arr. by rewrite (E (indent ++ gap)).
Qed.

(** The texts of the members of an object; an undefined one has none. *)
Definition member_texts (gap inner : list ascii) (kv : string * js) : list (list ascii) :=
  if is_undef kv.2 then [] else
  [json_string kv.1 ++ ":"%char :: (match gap with [] => [] | _ => [" "%char] end) ++ write_json gap inner kv.2].
Definition braces (gap indent : list ascii) (ms : list (list ascii)) : list ascii :=
  match ms with
  | [] => chars "{}"
  | ms => "{"%char :: nl gap (indent ++ gap) ++ join_list (","%char :: nl gap (indent ++ gap)) ms ++ nl gap indent ++ ["}"%char]
  end.
Lemma write_json_members gap indent l : write_json gap indent (JObj l) = braces gap indent (mjoin (member_texts gap (indent ++ gap) <$> l)).
Proof.
  cbn [write_json]. match goal with |- context [mjoin (?f <$> _)] => assert (mjoin (f <$> l) = mjoin (member_texts gap (indent ++ gap) <$> l)) as E end.
  { f_equal. apply list_fmap_ext. by intros i [k v] _. }
  rewrite E. unfold braces, nl. generalize (mjoin (member_texts gap (indent ++ gap) <$> l)). by intros [|? ?].
Qed.

Lemma same_text_obj l l' : Forall2 (fun kv kv' => kv.1 = kv'.1 /\ same_text kv.2 kv'.2) l l' -> same_text (JObj l) (JObj l').
Proof.
  intros Hl. split; [done|]. intros gap indent. rewrite !write_json_members. do 2 f_equal. apply fmap_forall2.
  eapply Forall2_impl; [exact Hl|]. intros [k v] [k' v'] [Hk [Hu Hv]]. unfold member_texts. cbn [fst snd] in *. by rewrite Hk, Hu, Hv.
Qed.

Lemma same_text_undef l k : same_text (JObj (l ++ [(k, JUndef)])) (JObj l).
Proof. split; [done|]. intros gap indent. rewrite !write_json_members, fmap_app, join_app. cbn. by rewrite app_nil_r. Qed.

Lemma same_text_trans v1 v2 v3 : same_text v1 v2 -> same_text v2 v3 -> same_text v1 v3.
Proof. intros [H1 H2] [H3 H4]. split; [congruence|]. intros gap indent. by rewrite H2. Qed.

Lemma same_text_set l k v v' : same_text v v' -> same_text (JObj (obj_set l k v)) (JObj (obj_set l k v')).
Proof.
  intros Hv. apply same_text_obj. induction l as [|[k' u] l IH]; cbn.
  - constructor; [done|constructor].
  - destruct (String.eqb k' k); constructor; try done. apply Forall_Forall2_diag, Forall_true. by intros [? ?].
Qed.

(** ** The record of a payment *)

(** A coin as the gateway lists one: its amount is a number or a decimal text. *)
Definition listed (c : coin) (txid : string) (n v : Z) : Prop :=
  get (coin_js c) "txid" = Ok (JStr txid) /\ get (coin_js c) "vout" = Ok (JNum (of_Z n)) /\
  (get (coin_js c) "value" = Ok (JStr (toString v)) \/ get (coin_js c) "value" = Ok (JNum (of_Z v))) /\
  0 <= n < 2 ^ 32 /\ 0 <= v < 2 ^ 53 /\ 0 <= coin_index c < 2 ^ 53.
(** What the record says of it. *)
Definition coin_sent (txid : string) (n v : Z) : sent_input := {| si_txid := txid; si_vout := n; si_valueSatoshis := v |}.
Definition output_sent (last : nat) (change : Z) (i : nat) (o : tx_output) : sent_output := {|
  so_scriptPubKeyHex := bytesToHex (scriptPubKey o); so_valueSatoshis := valueSatoshis o;
  so_isChange := (0 <? change) && (i =? last)%nat |}.

(** The stored output, without the property that is not written. *)
Definition stored_output (last : nat) (change active : Z) (i : nat) (o : tx_output) : js :=
  let isChange := (0 <? change) && (i =? last)%nat in
  JObj ([("scriptPubKeyHex", JStr (bytesToHex (scriptPubKey o))); ("valueSatoshis", JNum (of_Z (valueSatoshis o)));
         ("isChange", JBool isChange)] ++ if isChange then [("changeIndex", JNum (of_Z active))] else []).
Definition stored_input (txid : string) (n v i : Z) : js :=
  JObj [("txid", JStr txid); ("vout", JNum (of_Z n)); ("valueSatoshis", JNum (of_Z v)); ("derivationIndex", JNum (of_Z i))].

Lemma stored_output_text last change active i o : same_text (sent_output_json last change active i o) (stored_output last change active i o).
Proof.
  unfold sent_output_json, stored_output. destruct ((0 <? change) && (i =? last)%nat); [done|].
  apply (same_text_undef [("scriptPubKeyHex", _); ("valueSatoshis", _); ("isChange", _)]).
Qed.

Lemma read_stored_output last change active i o : Z.abs (valueSatoshis o) < 2 ^ 53 ->
  read_sent_output (stored_output last change active i o) = Ok (output_sent last change i o).
Proof.
  intros Hv. unfold read_sent_output, stored_output, output_sent. cbn [get obj_get String.eqb Ascii.eqb Bool.eqb mbind res_bind text_field app].
  rewrite int_field_of_Z by done. cbn [mbind res_bind]. by destruct ((0 <? change) && (i =? last)%nat).
Qed.

Lemma read_stored_input txid n v i : 0 <= n < 2 ^ 32 -> 0 <= v < 2 ^ 53 -> 0 <= i < 2 ^ 53 ->
  read_sent_input (stored_input txid n v i) = Ok (coin_sent txid n v, i).
Proof.
  intros Hn Hv Hi. unfold read_sent_input, stored_input. cbn [get obj_get String.eqb Ascii.eqb Bool.eqb mbind res_bind text_field].
  rewrite !int_field_of_Z by lia. done.
Qed.

Lemma listed_input c txid n v : listed c txid n v -> sent_input_json c = Ok (stored_input txid n v (coin_index c)).
Proof.
  intros (Ht & Hn & Hv & _ & Hb & _). unfold sent_input_json. rewrite Ht, Hn. cbn [mbind res_bind].
  destruct Hv as [-> | ->]; cbn [mbind res_bind to_Number js_toString]; [|done]. by rewrite Number_toString by lia.
Qed.

Lemma stored_input_ok txid n v i : 0 <= n < 2 ^ 32 -> 0 <= v < 2 ^ 53 -> 0 <= i < 2 ^ 53 -> json_ok (stored_input txid n v i).
Proof.
  intros Hn Hv Hi. apply ok_obj; [apply (bool_decide_unpack _); by vm_compute|].
  repeat apply Forall_cons_2; try apply ok_str; try (apply ok_num, of_Z_is_double; cbn; lia); apply Forall_nil_2.
Qed.

Lemma stored_output_ok last change active i o : Z.abs (valueSatoshis o) < 2 ^ 53 -> Z.abs active < 2 ^ 53 ->
  json_ok (stored_output last change active i o).
Proof.
  intros Hv Ha. unfold stored_output. destruct ((0 <? change) && (i =? last)%nat); apply ok_obj;
    try (apply (bool_decide_unpack _); by vm_compute); repeat apply Forall_cons_2;
    try apply ok_str; try apply ok_bool; try (apply ok_num; by apply of_Z_is_double); apply Forall_nil_2.
Qed.

(** What is stored of a payment whose coins are [ts], and what the record of it says. *)
Definition stored_record (active : Z) (p : payment) (ts : list (string * Z * Z)) : js :=
  JObj [("inputs", JArr (zip_with (fun c t => stored_input t.1.1 t.1.2 t.2 (coin_index c)) (pay_coins p) ts));
        ("outputs", JArr (imap (stored_output (length (pay_outputs p) - 1) (pay_change p) active) (pay_outputs p)));
        ("feeSatoshis", JNum (of_Z (pay_fee p)))].
Definition payment_sent (p : payment) (ts : list (string * Z * Z)) : sent_record := {|
  sr_inputs := (fun t => coin_sent t.1.1 t.1.2 t.2) <$> ts;
  sr_outputs := imap (output_sent (length (pay_outputs p) - 1) (pay_change p)) (pay_outputs p);
  sr_feeSatoshis := pay_fee p |}.
Definition coins_listed (p : payment) (ts : list (string * Z * Z)) : Prop :=
  Forall2 (fun c t => listed c t.1.1 t.1.2 t.2) (pay_coins p) ts.

Lemma imap_forall2 {A B C} (P : B -> C -> Prop) (f : nat -> A -> B) (g : nat -> A -> C) l :
  (forall i x, l !! i = Some x -> P (f i x) (g i x)) -> Forall2 P (imap f l) (imap g l).
Proof.
  intros H. apply Forall2_same_length_lookup_2; [by rewrite !length_imap|]. intros i y z. rewrite !list_lookup_imap.
  destruct (l !! i) as [x|] eqn:E; [|done]. intros [= <-] [= <-]. by apply H.
Qed.

Lemma payment_record_text active p ts : coins_listed p ts ->
  exists record, payment_record active p = Ok record /\ same_text record (stored_record active p ts).
Proof.
  intros Hl. unfold payment_record, stored_record.
  assert (mapR sent_input_json (pay_coins p) = Ok (zip_with (fun c t => stored_input t.1.1 t.1.2 t.2 (coin_index c)) (pay_coins p) ts)) as ->.
  { unfold coins_listed in Hl. induction Hl as [|c t cs ts Hc _ IH]; [done|]. cbn. rewrite (listed_input _ _ _ _ Hc). cbn. by rewrite IH. }
  eexists. split; [done|]. apply same_text_obj. constructor; [done|]. constructor; [|constructor; [done|constructor]]. split; [done|].
  apply same_text_arr, imap_forall2. intros i o _. apply stored_output_text.
Qed.

Definition small_payment (active : Z) (p : payment) : Prop :=
  Forall (fun o => Z.abs (valueSatoshis o) < 2 ^ 53) (pay_outputs p) /\ Z.abs (pay_fee p) < 2 ^ 53 /\ Z.abs active < 2 ^ 53.

Lemma stored_record_ok active p ts : coins_listed p ts -> small_payment active p -> json_ok (stored_record active p ts).
Proof.
  intros Hl (Ho & Hf & Ha). apply ok_obj; [apply (bool_decide_unpack _); by vm_compute|].
  repeat apply Forall_cons_2; [apply ok_arr|apply ok_arr|apply ok_num; by apply of_Z_is_double|apply Forall_nil_2].
  - unfold coins_listed in Hl. induction Hl as [|c t cs ts (_ & _ & _ & ? & ? & ?) _ IH]; [apply Forall_nil_2|]. cbn.
    apply Forall_cons_2; [by apply stored_input_ok|done].
  - apply Forall_lookup. intros i v. rewrite list_lookup_imap. destruct (pay_outputs p !! i) as [o|] eqn:E; [|done]. intros [= <-].
    apply stored_output_ok; [|done]. by apply (Forall_lookup_1 _ _ _ _ Ho E).
Qed.

Lemma read_stored_record active p ts : coins_listed p ts -> small_payment active p ->
  read_sent_record (stored_record active p ts) = Ok (payment_sent p ts, coin_index <$> pay_coins p).
Proof.
  intros Hl (Ho & Hf & Ha). unfold read_sent_record, stored_record. cbn [get obj_get String.eqb Ascii.eqb Bool.eqb mbind res_bind elements].
  assert (mapR read_sent_input (zip_with (fun c t => stored_input t.1.1 t.1.2 t.2 (coin_index c)) (pay_coins p) ts) =
    Ok (zip_with (fun c t => (coin_sent t.1.1 t.1.2 t.2, coin_index c)) (pay_coins p) ts)) as ->.
  { unfold coins_listed in Hl. induction Hl as [|c t cs ts (_ & _ & _ & ? & ? & ?) _ IH]; [done|]. cbn [zip_with mapR].
    rewrite read_stored_input by done. cbn [mbind res_bind]. by rewrite IH. }
  cbn [mbind res_bind].
  assert (mapR read_sent_output (imap (stored_output (length (pay_outputs p) - 1) (pay_change p) active) (pay_outputs p)) =
    Ok (imap (output_sent (length (pay_outputs p) - 1) (pay_change p)) (pay_outputs p))) as ->.
  { apply mapR_ok, imap_forall2. intros i o Hi. apply read_stored_output. by apply (Forall_lookup_1 _ _ _ _ Ho Hi). }
  cbn [mbind res_bind]. rewrite int_field_of_Z by done. cbn [mbind res_bind]. unfold payment_sent. do 3 f_equal.
  - f_equal. unfold coins_listed in Hl. induction Hl as [|c t cs ts _ _ IH]; [done|]. cbn. by f_equal.
  - unfold coins_listed in Hl. induction Hl as [|c t cs ts _ _ IH]; [done|]. cbn. by f_equal.
Qed.

(** ** The log *)

(** The log kept in [localStorage]: none yet, or the text of [l]. *)
Definition sent_log (w : world) (l : list (string * js)) : Prop :=
  local w !! "fic_sent_tx_log" = None /\ l = [] \/
  local w !! "fic_sent_tx_log" = Some (JSON_stringify (JObj l)) /\ json_ok (JObj l).

Lemma stringify_nonempty l : String.eqb (JSON_stringify (JObj l)) "" = false.
Proof. apply String.eqb_neq. unfold JSON_stringify. rewrite write_json_members. by destruct (mjoin _). Qed.

Lemma load_sent_log w l : sent_log w l -> loadSentTxLog w = (Ok (JObj l), w).
Proof.
  unfold loadSentTxLog, getItem. rewrite bind_gets. unfold lift, parse_or. intros [[-> ->] | [-> Hok]]; [done|].
  rewrite stringify_nonempty. unfold JSON_stringify. rewrite parse_write; [done|done|apply Forall_nil_2].
Qed.

Lemma obj_set_keys l k v : (obj_set l k v).*1 = if bool_decide (k ∈ l.*1) then l.*1 else l.*1 ++ [k].
Proof.
  induction l as [|[k' u] l IH]; [done|]. cbn. destruct (String.eqb_spec k' k) as [->|Hne].
  - by rewrite bool_decide_eq_true_2 by (by left).
  - cbn. rewrite IH. destruct (bool_decide (k ∈ l.*1)) eqn:E.
    + rewrite bool_decide_eq_true_2; [done|]. right. by apply bool_decide_eq_true in E.
    + rewrite bool_decide_eq_false_2; [done|]. apply bool_decide_eq_false in E. intros [<-|?]%elem_of_cons; done.
Qed.

Lemma obj_set_ok l k v : json_ok (JObj l) -> json_ok v -> json_ok (JObj (obj_set l k v)).
Proof.
  intros Hl Hv. inversion Hl as [| | | | |? Hnd Hf]; subst. apply ok_obj.
  - rewrite obj_set_keys. case_bool_decide; [done|]. apply NoDup_app. split; [done|].
    split; [|apply NoDup_singleton]. by intros x Hx ->%list_elem_of_singleton.
  - clear Hl Hnd. induction Hf as [|[k' u] l Hu Hf IH]; cbn; [by apply Forall_cons_2; [|apply Forall_nil_2]|].
    destruct (String.eqb k' k); by apply Forall_cons_2.
Qed.

Lemma obj_get_set l k v : obj_get (obj_set l k v) k = v.
Proof. induction l as [|[k' u] l IH]; cbn; [by rewrite String.eqb_refl|]. destruct (String.eqb k' k) eqn:E; cbn; rewrite E; done. Qed.

Lemma record_sent w l txid record stored : sent_log w l -> same_text record stored -> json_ok stored -> exists w',
  recordSentTx txid record w = (Ok tt, w') /\ sent_log w' (obj_set l (js_toString txid) stored).
Proof.
  intros Hl Hs Hok. unfold recordSentTx. unfold mbind at 1, M_bind at 1. rewrite (load_sent_log w l Hl). rewrite bind_lift. cbn [js_set].
  eexists. split; [done|]. right. cbn [local set_local saveSentTxLog setItem modify snd]. rewrite lookup_insert_eq. split.
  - f_equal. unfold JSON_stringify. f_equal. apply (same_text_set l (js_toString txid) record stored Hs).
  - apply obj_set_ok; [|done]. destruct Hl as [[_ ->] | [_ ?]]; [|done]. apply ok_obj; [apply NoDup_nil_2|apply Forall_nil_2].
Qed.

(** ** Sending and replacing *)

Section SendThenBump.
Context `{CryptoLaws} `{Hd} {HL : HdLaws} `{Browser}.

Lemma dest_outputs_bytes net l dest : mapR (dest_output net) l = Ok dest -> Forall (fun o => bytes_ok (scriptPubKey o)) dest.
Proof.
  intros Hm%mapR_ok. induction Hm as [|r o l dest Ho _ IH]; [apply Forall_nil_2|]. apply Forall_cons_2; [|done].
  unfold dest_output in Ho. apply res_bind_ok in Ho as (d & _ & Ho). apply res_bind_ok in Ho as (v & _ & Ho). apply Ok_inj in Ho as <-.
  apply script_for_address_bytes.
Qed.

Lemma change_outputs_bytes change ck : Forall (fun o => bytes_ok (scriptPubKey o)) (change_outputs change ck).
Proof. unfold change_outputs. destruct (_ <? _); [|apply Forall_nil_2]. apply Forall_cons_2; [apply bytes_ok_u8arr|apply Forall_nil_2]. Qed.

Lemma payment_balance recipients w p w' : send_payment recipients w = (Ok (Some p), w') ->
  Forall (fun r => 0 <= r_amount r) recipients -> total (pay_coins p) < 2 ^ 53 ->
  (forall r, sendFeeMinRate (snd_st w') = Some r -> 0 <= r) ->
  exists dest ck, pay_outputs p = dest ++ change_outputs (pay_change p) ck /\ length dest = length recipients /\
    Forall small_output (pay_outputs p) /\ Forall (fun o => bytes_ok (scriptPubKey o)) (pay_outputs p) /\ total (pay_coins p) = sumZ (valueSatoshis <$> pay_outputs p) + pay_fee p /\
    0 <= pay_fee p < 2 ^ 53.
Proof.
  intros Hsend Hamounts Htotal Hrate.
  destruct (send_payment_inv _ _ _ _ Hsend) as (net & dest & coins & minRate & rate & t & inputs & ck & s & before & Hnet & Hdest & Hle & Hmin & Hsel &
    Hfee & Hok & Hchange & Hens & Hout & Hin & Hraw & Hlog & Hs). pose proof (Hrate _ Hmin) as Hr0.
  apply (select_coins_spec _ _ _ []) in Hsel as (taken & rest & _ & _ & -> & _).
  assert (0 <= sumZ (r_amount <$> recipients)) as Ha0 by (by apply sumZ_nonneg, Forall_fmap).
  assert (0 <= pay_fee p) as Hf0 by (rewrite Hfee; unfold estimatedVsize; nia).
  destruct (dest_outputs_small _ _ _ _ Hdest Hamounts eq_refl) as (_ & Hsmall & Hlen & Hsum); [lia|].
  destruct (change_outputs_spec (pay_change p) ck) as (_ & Hcsmall & Hcsum); [lia|]. apply send_outputs_ok in Hout; [|lia].
  exists dest, ck. rewrite Hout, fmap_app, sumZ_app, Hsum, Hcsum. split; [done|]. split; [done|]. split; [by apply Forall_app|]. split; [|lia].
  apply Forall_app. split; [by eapply dest_outputs_bytes|apply change_outputs_bytes].
Qed.

End SendThenBump.

Lemma total_out_sent p ts : total_out (sr_outputs (payment_sent p ts)) = sumZ (valueSatoshis <$> pay_outputs p).
Proof.
  unfold total_out. cbn [payment_sent sr_outputs]. f_equal. rewrite fmap_imap. apply list_eq. intros i.
  rewrite list_lookup_imap, list_lookup_fmap. by destruct (pay_outputs p !! i).
Qed.

(** The recorded coins. *)
Lemma recorded_inputs_wf p ts : coins_listed p ts -> Forall (fun t => strlen t.1.1 = 64) ts -> Forall wf_sent_input (sr_inputs (payment_sent p ts)).
Proof.
  intros Hl Hs. cbn [payment_sent sr_inputs]. apply Forall_fmap. apply Forall_lookup. intros i t Ht.
  destruct (Forall2_lookup_r _ _ _ _ _ Hl Ht) as (c & _ & _ & _ & _ & Hn & _). split; [by apply (Forall_lookup_1 _ _ _ _ Hs Ht)|done].
Qed.

Lemma recorded_prevouts p ts (vin : list CTxIn) :
  length vin = length (sr_inputs (payment_sent p ts)) ->
  (forall i inp, sr_inputs (payment_sent p ts) !! i = Some inp -> exists txin, vin !! i = Some txin /\ prevout txin = sent_outpoint inp) ->
  prevout <$> vin = (fun t => {| op_hash := reverse (hexToBytes t.1.1); op_n := t.1.2 |}) <$> ts.
Proof.
  cbn [payment_sent sr_inputs]. rewrite length_fmap. intros Hl Hi. apply list_eq_same_length with (length ts); [by rewrite length_fmap|by rewrite length_fmap|].
  intros i x y Hlt. rewrite !list_lookup_fmap. destruct (ts !! i) as [t|] eqn:E; [|done]. cbn. intros Hx [= <-].
  destruct (Hi i (coin_sent t.1.1 t.1.2 t.2)) as (txin & Htx & Hp); [by rewrite list_lookup_fmap, E|]. rewrite Htx in Hx. cbn in Hx. injection Hx as <-. exact Hp.
Qed.

(** A recorded output is the one that was sent. *)
Lemma output_sent_txout last change i o : bytes_ok (scriptPubKey o) -> sent_txout (output_sent last change i o) = o.
Proof. intros Ho. unfold sent_txout, output_sent. cbn. rewrite hexToBytes_bytesToHex by done. by destruct o. Qed.

(** What a replacement pays is well formed. *)
Lemma bump_outputs_wf `{Crypto} p ts newFee ks raw outs :
  buildBumpFeeTransaction (payment_sent p ts) newFee ks = Ok (raw, outs) -> 0 <= newFee -> pay_fee p < 2 ^ 53 ->
  Forall small_output (pay_outputs p) -> Forall (fun o => bytes_ok (scriptPubKey o)) (pay_outputs p) ->
  Forall wf_sent_output outs.
Proof.
  intros (l1 & ch & l2 & inputs & Hout & _ & Hv & -> & _)%bump_inv Hfee Hpay Hsmall Hbytes. cbv zeta in Hv. cbn [payment_sent sr_feeSatoshis sr_outputs] in *.
  assert (Forall (fun o => wf_sent_output o /\ so_valueSatoshis o < 2 ^ 53) (l1 ++ ch :: l2)) as [Hl1 [[Hc1 Hc2] Hl2]%Forall_cons_1]%Forall_app.
  { rewrite <-Hout. apply Forall_lookup. intros i o'. rewrite list_lookup_imap. destruct (pay_outputs p !! i) as [o|] eqn:E; [|done]. intros [= <-].
    destruct (Forall_lookup_1 _ _ _ _ Hsmall E) as [Hval Hlen]. unfold wf_sent_output. rewrite output_sent_txout by (by apply (Forall_lookup_1 _ _ _ _ Hbytes E)).
    cbn [output_sent so_valueSatoshis]. unfold wf_output, small_blob, MAX_SIZE. lia. }
  apply Forall_app. split; [by eapply Forall_impl; [exact Hl1|intros ? []]|]. apply Forall_cons_2; [|by eapply Forall_impl; [exact Hl2|intros ? []]].
  destruct Hc1 as [Hr Hb]. split; [|exact Hb]. cbn [sent_txout with_value so_valueSatoshis valueSatoshis] in *. lia.
Qed.

(** C23: a payment can be replaced from its record.  After a payment was sent, its
    record is written to the log, and the log read later yields the coins it
    spent, with the indices of their keys, its outputs with the change marked,
    and its fee.  A replacement built from it with one key pair per coin, at any
    fee, is a transaction that the node reads in full: it spends the same coins in the
    same order, pays every recipient at the same place the same amount to the
    same script, and distributes the coins in full but for the new fee; each
    signature verifies for the key given.  Coins are as the gateway lists them,
    totals below 2^53 satoshis, with fewer than 253 coins and 252 recipients. *)
Theorem send_then_bump `{CryptoLaws} {CU : Curve} {CL : CurveLaws} `{Hd} {HL : HdLaws} `{Browser} recipients w p w' l ts
  (Hsend : send_payment recipients w = (Ok (Some p), w')) (Hamounts : Forall (fun r => 0 <= r_amount r) recipients)
  (Htotal : total (pay_coins p) < 2 ^ 53) (Hrate : forall r, sendFeeMinRate (snd_st w') = Some r -> 0 <= r)
  (Hn : (length (pay_coins p) < 253)%nat) (Hm : (length recipients < 252)%nat)
  (Hcoins : coins_listed p ts) (Hids : Forall (fun t => strlen t.1.1 = 64) ts) (Hactive : Z.abs (activeIndex (wal w')) < 2 ^ 53) (Hlog : sent_log w' l) :
  exists record w'' l'', payment_record (activeIndex (wal w')) p = Ok record /\
    recordSentTx (pay_txid p) record w' = (Ok tt, w'') /\ loadSentTxLog w'' = (Ok (JObj l''), w'') /\
    read_sent_record (obj_get l'' (js_toString (pay_txid p))) = Ok (payment_sent p ts, coin_index <$> pay_coins p) /\
    forall newFee ks raw outs, buildBumpFeeTransaction (payment_sent p ts) newFee ks = Ok (raw, outs) ->
      0 <= newFee -> Forall own_input_key ks ->
      exists tx, UnserializeTransaction true raw = inr (tx, []) /\
        prevout <$> vin tx = (fun t => {| op_hash := reverse (hexToBytes t.1.1); op_n := t.1.2 |}) <$> ts /\
        length (vout tx) = length (pay_outputs p) /\
        (forall i o, (i < length recipients)%nat -> pay_outputs p !! i = Some o -> vout tx !! i = Some (node_txout o)) /\
        sumZ (nValue <$> vout tx) + newFee = total (pay_coins p) /\
        vout tx = (fun o => node_txout (sent_txout o)) <$> outs /\
        forall i inp, sr_inputs (payment_sent p ts) !! i = Some inp -> exists u, bump_input ks i inp = Ok u /\ input_verifies tx i u.
Proof.
  destruct (payment_balance _ _ _ _ Hsend Hamounts Htotal Hrate) as (dest & ck & Hout & Hlen & Hsmall & Hbytes & Hbal & Hfee).
  assert (small_payment (activeIndex (wal w')) p) as Hsp.
  { split; [|split; [lia|done]]. eapply Forall_impl; [exact Hsmall|]. intros o [? _]. lia. }
  destruct (payment_record_text (activeIndex (wal w')) p ts Hcoins) as (record & Hrec & Htext).
  destruct (record_sent w' l (pay_txid p) record _ Hlog Htext (stored_record_ok _ _ _ Hcoins Hsp)) as (w'' & Hw & Hl).
  eexists record, w'', _. split; [done|]. split; [done|]. split; [by apply load_sent_log|]. rewrite obj_get_set.
  split; [by apply read_stored_record|]. intros newFee ks raw outs Hbump Hnew Hks.
  destruct (bump_conserves_aux _ _ _ _ _ Hbump) as (Hsum & Hlo & Hkeep & _). rewrite total_out_sent in Hsum.
  change (sr_feeSatoshis (payment_sent p ts)) with (pay_fee p) in Hsum.
  pose proof (Forall2_length _ _ _ Hcoins) as Hlt. assert (length (pay_outputs p) <= length recipients + 1)%nat as Hlp
    by (rewrite Hout, length_app, Hlen; unfold change_outputs; destruct (_ <? _); cbn; lia).
  assert (length (sr_outputs (payment_sent p ts)) = length (pay_outputs p)) as Hls by (cbn; by rewrite length_imap).
  destruct (bump_fee_replacement _ _ _ _ _ Hbump) as (tx & Hun & Hvout & Hlv & Hin);
    [by eapply recorded_inputs_wf|apply (bump_outputs_wf p ts newFee ks raw); [done|done|lia|done|done]|done|cbn; rewrite length_fmap; unfold MAX_SIZE; lia|unfold MAX_SIZE; lia|].
  exists tx. split; [done|]. split.
  { apply (recorded_prevouts p); [done|]. intros i inp Hi. destruct (Hin i inp Hi) as (txin & u & ? & ? & _). by exists txin. }
  split; [rewrite Hvout, length_fmap; lia|]. split; [|split; [|split; [done|]]].
  - intros i o Hi Ho. rewrite Hvout, list_lookup_fmap. assert ((0 <? pay_change p) && (i =? length (pay_outputs p) - 1)%nat = false) as Hch.
    { destruct (0 <? pay_change p) eqn:E; [|done]. cbn [andb]. apply Nat.eqb_neq. rewrite Hout. unfold change_outputs. rewrite E, length_app. cbn. lia. }
    rewrite (Hkeep i (output_sent (length (pay_outputs p) - 1) (pay_change p) i o)); [|cbn; by rewrite list_lookup_imap, Ho|done].
    cbn [fmap option_fmap option_map]. by rewrite output_sent_txout by (by apply (Forall_lookup_1 _ _ _ _ Hbytes Ho)).
  - rewrite Hvout, <-list_fmap_compose. change (total_out outs + newFee = total (pay_coins p)). lia.
  - intros i inp Hi. destruct (Hin i inp Hi) as (txin & u & _ & _ & _ & Hb & Hv). by exists u.
Qed.

Definition ex_listed : list (string * Z * Z) := [(str (replicate 64 (Ascii.ascii_of_nat 97)), 1, 500000)].

Definition ex_bump_keys : list input_key :=
  match keys (wal (snd ex_send)) !! 0 with
  | Some k => [{| ik_privateKey := privateKey k; ik_publicKeyCompressed := publicKey k |}]
  | None => []
  end.
Definition ex_bump : list Z * list sent_output :=
  match @buildBumpFeeTransaction toy_crypto (payment_sent ex_payment ex_listed) 9000 ex_bump_keys with Ok r => r | Throw _ => ([], []) end.

Lemma send_then_bump_witness :
  exists record w'' l'', payment_record 0 ex_payment = Ok record /\
    recordSentTx (pay_txid ex_payment) record (snd ex_send) = (Ok tt, w'') /\ loadSentTxLog w'' = (Ok (JObj l''), w'') /\
    read_sent_record (obj_get l'' (js_toString (pay_txid ex_payment))) = Ok (payment_sent ex_payment ex_listed, [0]) /\
    exists tx, UnserializeTransaction true ex_bump.1 = inr (tx, []) /\ sumZ (nValue <$> vout tx) + 9000 = 500000.
Proof.
  destruct (@send_then_bump toy_crypto toy_laws toy_curve toy_curve_laws (@toy_hd toy_crypto) toy_hd_laws ex_gateway ex_recipients ex_world ex_payment (snd ex_send) [] ex_listed)
    as (record & w'' & l'' & H1 & H2 & H3 & H4 & H5).
  - vm_compute. reflexivity.
  - apply Forall_cons_2; [cbn; lia|apply Forall_nil_2].
  - by vm_compute.
  - replace (sendFeeMinRate (snd_st (snd ex_send))) with (Some 10) by (vm_compute; reflexivity). intros r [= <-]. lia.
  - vm_compute. lia.
  - vm_compute. lia.
  - unfold coins_listed. replace (pay_coins ex_payment) with [{| coin_js := JObj [
      ("txid", JStr (str (replicate 64 (Ascii.ascii_of_nat 97)))); ("vout", JNum (of_Z 1)); ("value", JStr "500000")]; coin_index := 0 |}]
      by (vm_compute; reflexivity).
    constructor; [|constructor]. split; [done|]. split; [done|]. split; [by left|]. cbn. lia.
  - apply Forall_cons_2; [by vm_compute|apply Forall_nil_2].
  - by vm_compute.
  - left. split; [by vm_compute|done].
  - exists record, w'', l''. split; [exact H1|]. split; [exact H2|]. split; [exact H3|].
    split; [rewrite H4; f_equal|]. destruct (H5 9000 ex_bump_keys ex_bump.1 ex_bump.2) as (tx & Hun & _ & _ & _ & Hsum & _).
    + vm_compute. reflexivity.
    + lia.
    + assert (ex_bump_keys = [{| ik_privateKey := ik_privateKey (nth 0 ex_bump_keys {| ik_privateKey := []; ik_publicKeyCompressed := [] |});
        ik_publicKeyCompressed := @secp_publicKey toy_crypto (ik_privateKey (nth 0 ex_bump_keys {| ik_privateKey := []; ik_publicKeyCompressed := [] |})) |}]) as ->
        by (vm_compute; reflexivity). apply Forall_cons_2; [reflexivity|apply Forall_nil_2].
    + exists tx. split; [exact Hun|]. rewrite Hsum. vm_compute. reflexivity.
Defined.
