(* ===== verification/WalletNode.v ===== *)
(** * The wallet's payments at the node

    The two halves of the system composed: what the send screen and the fee bump
    of the web wallet broadcast, offered to the memory pool of a node
    ([MemPoolAccept]).  A payment at the gateway's rate enters the pool of a node
    that holds its coins; one with an output the node calls dust does not; and a
    replacement never does while the payment it replaces is waiting. *)

From S2P Require Import Prelude Digits JsString JsInt Bytes Crypto Base58 Bech32 Address Tx NodeTx ScriptError NodeScript ScriptNum Interpreter InterpFacts Verify VerifyFacts InterpSafe Spend SoftFork Validation CheckInputs BumpFee Message JsNum JsNumFacts NodeFee ConsensusParams TxCheck Policy Mempool Admission JsNumText Amount Texts Json JsonFacts Keys World Gateway Storage Wallet WalletFacts SendScreen SendFacts SentLog.

Open Scope Z_scope.
Open Scope list_scope.

(** ** Signed transactions are plain *)

Definition outpoint (u : utxo_input) : COutPoint := {| op_hash := u_txid u; op_n := u_vout u |}.

Section Plain.
Context `{CryptoLaws} {CU : Curve} {CL : CurveLaws}.

Lemma p2pkhScriptPubKey_pays v h : length h = 20%nat -> 0 <= v -> pays_hash 0 (node_txout {| scriptPubKey := p2pkhScriptPubKey h; valueSatoshis := v |}).
Proof.
  intros Hh Hv. split; [done|]. exists (u8arr h). split; [unfold u8arr; by rewrite length_fmap|]. left. cbn [out_scriptPubKey node_txout scriptPubKey].
  unfold p2pkhScriptPubKey, u8arr. rewrite !fmap_app. reflexivity.
Qed.

Lemma address_pays v d : length (addr_hash d) = 20%nat -> 0 <= v -> pays_hash 0 (node_txout {| scriptPubKey := script_for_address d; valueSatoshis := v |}).
Proof.
  intros Hh Hv. unfold script_for_address. destruct (addr_type d); [by apply p2pkhScriptPubKey_pays| |].
  all: split; [done|]; exists (u8arr (addr_hash d)); (split; [unfold u8arr; by rewrite length_fmap|]); right.
  - left. cbn [out_scriptPubKey node_txout scriptPubKey]. unfold p2shScriptPubKey, u8arr. rewrite !fmap_app. reflexivity.
  - right. cbn [out_scriptPubKey node_txout scriptPubKey]. unfold p2wpkhScriptPubKey, u8arr. rewrite !fmap_app. reflexivity.
Qed.

Lemma signed_txin_plain inputs outputs i u script :
  wf_utxo u -> own_key None None u -> u_sequence u = None -> IsNullOutPoint (outpoint u) = false ->
  signed_input inputs outputs None None 0 i u script -> plain_txin (node_txin (set_scriptSig script (unsigned_input u))).
Proof.
  intros (Ht & _) (k & Hk1 & Hk2 & _) Hsq Hnull (k' & p & sg & Hk & Hp & Hsg & ->). rewrite Hk1 in Hk. rewrite Hk2 in Hp. injection Hk as <-. injection Hp as <-.
  pose proof (sign_in_range _ _ _ Hsg) as Hr. pose proof (own_sig_length sg Hr) as Hl.
  assert (in_scriptSig (node_txin (set_scriptSig (p2pkh_scriptSig sg (secp_publicKey k)) (unsigned_input u))) =
    p2pkh_scriptSig sg (secp_publicKey k)) as Hs by reflexivity.
  split; [|split; [|split; [|split; [done|split; done]]]].
  - rewrite Hs, p2pkh_scriptSig_bytes by done. apply push_only_pushes. do 2 (apply Forall_cons_2; [unfold pushable; rewrite ?publicKey_length; lia|]).
    apply Forall_nil_2.
  - rewrite Hs. unfold p2pkh_scriptSig. rewrite !length_app, publicKey_length. rewrite length_app in Hl. unfold u8arr. rewrite !length_fmap. cbn [length]. cbn [length] in Hl. lia.
  - cbn. by rewrite Hsq.
Qed.

(** A transaction the wallet signs, as the node sees it. *)
Lemma payment_plain inputs outputs raw :
  Forall wf_utxo inputs -> Forall (own_key None None) inputs -> Forall (fun u => u_sequence u = None) inputs ->
  Forall (fun u => IsNullOutPoint (outpoint u) = false) inputs -> NoDup (outpoint <$> inputs) -> (length inputs < 253)%nat ->
  outputs <> [] -> Forall small_output outputs -> Forall (fun o => pays_hash 0 (node_txout o)) outputs -> (length outputs < 253)%nat ->
  sumZ (valueSatoshis <$> outputs) <= MAX_MONEY ->
  buildAndSignTransaction inputs outputs None None 0 = Ok raw ->
  exists tx, UnserializeTransaction true raw = inr (tx, []) /\ plain_payment tx /\ prevout <$> vin tx = outpoint <$> inputs /\
    vout tx = node_txout <$> outputs /\ GetSerializeSize false tx = Z.of_nat (length raw) /\
    forall i u, inputs !! i = Some u -> input_verifies tx i u.
Proof.
  intros Hwf Hown Hseq Hnull Hnd Hli Hne Hsmall Hpays Hlo Hsum Hraw.
  assert (wf_payment inputs outputs 0) as Hpay.
  { split; [unfold MAX_SIZE; lia|]. split; [done|]. split; [unfold MAX_SIZE; lia|]. split; [|lia].
    eapply Forall_impl; [exact Hsmall|]. intros o [? ?]. unfold wf_output, small_blob, MAX_SIZE. lia. }
  destruct (build_inv _ _ _ _ _ _ Hraw) as (_ & Hnei & _).
  destruct (build_tx _ _ _ _ _ _ Hpay Hown Hraw) as (scripts & Hl & Htx & Eraw & Hs).
  set (tx := node_tx 2 (zip_with set_scriptSig scripts (unsigned_input <$> inputs)) outputs 0).
  assert (forall i txin, vin tx !! i = Some txin -> exists u s, inputs !! i = Some u /\ scripts !! i = Some s /\ txin = node_txin (set_scriptSig s (unsigned_input u))) as Hvin.
  { intros i txin. cbn [vin tx node_tx]. rewrite list_lookup_fmap, lookup_zip_with, list_lookup_fmap.
    destruct (scripts !! i) as [s|] eqn:Es; [|done]. destruct (inputs !! i) as [u|] eqn:Eu; [|done]. intros [= <-]. by exists u, s. }
  assert (prevout <$> vin tx = outpoint <$> inputs) as Hprev.
  { cbn [vin tx node_tx]. clear -Hl. revert scripts Hl. induction inputs as [|u inputs IH]; intros [|s scripts] Hl; try done.
    cbn. f_equal. apply IH. by injection Hl. }
  assert (length (vin tx) = length inputs) as Hlv by (by rewrite <-(length_fmap prevout), Hprev, length_fmap).
  assert (plain_payment tx) as Hplain.
  { split; try done.
    - by destruct (vin tx), inputs.
    - apply Forall_lookup. intros i txin (u & s & Hu & Hsi & ->)%Hvin.
      apply (signed_txin_plain inputs outputs i); [..|by apply Hs].
      + by apply (Forall_lookup_1 _ _ _ _ Hwf Hu).
      + by apply (Forall_lookup_1 _ _ _ _ Hown Hu).
      + by apply (Forall_lookup_1 _ _ _ _ Hseq Hu).
      + by apply (Forall_lookup_1 _ _ _ _ Hnull Hu).
    - lia.
    - by rewrite Hprev.
    - cbn. by destruct outputs.
    - cbn [vout tx node_tx]. by apply Forall_fmap.
    - cbn [vout tx node_tx]. by rewrite length_fmap.
    - cbn [vout tx node_tx]. unfold value_out_sum. by rewrite <-list_fmap_compose. }
  exists tx. assert (raw = SerializeTransaction true tx) as Eser by (rewrite Eraw; by apply serializeTx_node).
  split; [rewrite <-(app_nil_r raw), Eser; by apply unserialize_serialize_aux, wf_node_tx|].
  do 3 (split; [done|]). split; [|intros i u Hu; by eapply signed_input_verifies].
  destruct (plain_size tx Hplain) as [<- _]. unfold GetSerializeSize. by rewrite Eser.
Qed.

End Plain.

(** ** The payment of the send screen *)

(** The outpoint the gateway names for a coin. *)
Definition coin_outpoint (c : coin) : option COutPoint :=
  match get (coin_js c) "txid", get (coin_js c) "vout" with
  | Ok (JStr txid), Ok vout => Some {| op_hash := reverse (hexToBytes txid); op_n := num_trunc (to_Number vout) |}
  | _, _ => None
  end.

Definition distinct_coins (l : list coin) : Prop :=
  NoDup (coin_outpoint <$> l) /\ Forall (fun c => from_option IsNullOutPoint true (coin_outpoint c) = false) l.

(** The amounts of the outputs: the recipients' and, if there is any, the change. *)
Definition amounts (recipients : list recipient) (change : Z) : list Z :=
  (r_amount <$> recipients) ++ (if 0 <? change then [change] else []).

Section Sent.
Context `{CryptoLaws} {CU : Curve} {CL : CurveLaws} `{Hd} {HL : HdLaws} `{Browser}.

Lemma coin_input_outpoint ks c u : coin_ok c -> coin_input ks c = Ok u ->
  coin_outpoint c = Some (outpoint u) /\ u_sequence u = None /\ exists k, ks !! coin_index c = Some k /\ u_pubkeyHash u = hash160 (publicKey k).
Proof.
  intros (txid & n & E1 & _ & E2 & _) Hu. unfold coin_input in Hu. apply res_bind_ok in Hu as (k & Hk & Hu). unfold coin_outpoint.
  rewrite E1, E2 in *. cbn [mbind res_bind hex_field] in Hu. apply res_bind_ok in Hu as (v & _ & Hu). apply Ok_inj in Hu as <-.
  split; [done|]. split; [done|]. exists k. destruct (ks !! coin_index c); [|done]. by injection Hk as ->.
Qed.

Lemma coin_inputs_outpoints ks chosen inputs : Forall coin_ok chosen -> mapR (coin_input ks) chosen = Ok inputs ->
  coin_outpoint <$> chosen = Some <$> (outpoint <$> inputs) /\ Forall (fun u => u_sequence u = None) inputs.
Proof.
  intros Hc Hm%mapR_ok. induction Hm as [|c u chosen inputs Hu _ IH]; [by split; [|apply Forall_nil_2]|].
  apply Forall_cons_1 in Hc as [Hc1 Hc]. destruct (IH Hc) as [IH1 IH2]. destruct (coin_input_outpoint _ _ _ Hc1 Hu) as (Ho & Hs & _).
  split; [rewrite !fmap_cons, Ho; by f_equal|by apply Forall_cons_2].
Qed.

Lemma dest_pays net recipients dest : Forall2 (paid net) recipients (node_txout <$> dest) -> Forall (fun r => 0 <= r_amount r) recipients ->
  Forall (fun o => pays_hash 0 (node_txout o)) dest /\ valueSatoshis <$> dest = r_amount <$> recipients.
Proof.
  intros Hp Hr. apply (Forall2_fmap_r node_txout) in Hp. induction Hp as [|r o rs outs (d & Hd%decodeAddress_length & Hs & Hv) _ IH]; [by split; [apply Forall_nil_2|]|].
  apply Forall_cons_1 in Hr as [Ha Hr]. destruct (IH Hr) as [IH1 IH2]. split; [apply Forall_cons_2; [|done]|cbn; by f_equal].
  destruct o as [sc v]. cbn [node_txout out_scriptPubKey nValue scriptPubKey valueSatoshis] in Hs, Hv. subst sc v. by apply address_pays.
Qed.

Lemma change_pays change ck : 0 <= change ->
  Forall (fun o => pays_hash 0 (node_txout o)) (change_outputs change ck) /\
  valueSatoshis <$> change_outputs change ck = if 0 <? change then [change] else [].
Proof.
  intros Hc. unfold change_outputs. destruct (0 <? change); [|by split; [apply Forall_nil_2|]]. split; [|done].
  apply Forall_cons_2; [|apply Forall_nil_2]. apply p2pkhScriptPubKey_pays; [apply hash160_length|done].
Qed.

Context (recipients : list recipient) (w : world) (p : payment) (w' : world).
Context (Htable : table_ok (wal w)) (Hsend : send_payment recipients w = (Ok (Some p), w')).
Context (Hamounts : Forall (fun r => 0 <= r_amount r) recipients) (Hcoins : Forall coin_ok (pay_coins p)).
Context (Hdistinct : distinct_coins (pay_coins p)) (Htotal : total (pay_coins p) < 2 ^ 53).
Context (Hrate : forall r, sendFeeMinRate (snd_st w') = Some r -> 0 <= r).
Context (Hn : (length (pay_coins p) < 253)%nat) (Hm : (length recipients < 252)%nat) (Hne : recipients <> []).

(** What the node sees of the payment. *)
Record sent_tx (tx : CTransaction) : Prop := {
  sent_read : UnserializeTransaction true (pay_raw p) = inr (tx, []);
  sent_is_plain : plain_payment tx;
  sent_vin : length (vin tx) = length (pay_coins p);
  sent_inputs : forall i c, pay_coins p !! i = Some c -> exists u,
    coin_outpoint c = Some (outpoint u) /\ input_verifies tx i u /\ wf_utxo u /\
    exists k, keys (wal w') !! coin_index c = Some k /\ u_pubkeyHash u = hash160 (publicKey k);
  sent_values : nValue <$> vout tx = amounts recipients (pay_change p);
  sent_change : 0 < pay_change p -> exists ck, node_txout {| scriptPubKey := p2pkhScriptPubKey (hash160 (publicKey ck)); valueSatoshis := pay_change p |} ∈ vout tx;
  sent_balance : total (pay_coins p) = value_out_sum (vout tx) + pay_fee p;
  sent_size : GetSerializeSize false tx = Z.of_nat (length (pay_raw p));
  sent_fee : exists minRate, sendFeeMinRate (snd_st w') = Some minRate /\ minRate * Z.of_nat (length (pay_raw p)) <= pay_fee p
}.

Lemma payment_sent_tx : exists tx, sent_tx tx.
Proof.
  destruct (send_payment_inv _ _ _ _ Hsend) as (net & dest & coins & minRate & rate & t & inputs & ck & s & before & Hnet & Hdest & Hle & Hmin & Hsel &
    Hfee & Hok & Hchange & Hens & Hout & Hin & Hraw & Hlog & Hs). pose proof (Hrate _ Hmin) as Hr0.
  apply (select_coins_spec _ _ _ []) in Hsel as (taken & rest & _ & _ & -> & _).
  assert (0 <= sumZ (r_amount <$> recipients)) as Ha0 by (by apply sumZ_nonneg, Forall_fmap).
  assert (0 <= pay_fee p) as Hf0 by (rewrite Hfee; unfold estimatedVsize; nia).
  destruct (dest_outputs_small _ _ _ _ Hdest Hamounts eq_refl) as (Hpaid & Hsmall & Hlen & Hsum); [lia|].
  destruct (change_outputs_spec (pay_change p) ck) as (Hlc & Hcsmall & Hcsum); [lia|].
  destruct (dest_pays _ _ _ Hpaid Hamounts) as [Hdp Hdv]. destruct (change_pays (pay_change p) ck) as [Hcp Hcv]; [lia|].
  apply send_outputs_ok in Hout; [|lia].
  destruct (coin_inputs_spec s (pay_coins p) inputs (ensured_table _ _ _ _ Hens Htable) Hin Hcoins) as (Hli & Hwf & Hown & Hlook).
  destruct (coin_inputs_outpoints _ _ _ Hcoins Hin) as [Hops Hseq]. destruct Hdistinct as [Hnd Hnull].
  assert (Forall small_output (pay_outputs p)) as Hall by (rewrite Hout; by apply Forall_app).
  assert (length (pay_outputs p) = length recipients + length (change_outputs (pay_change p) ck))%nat as Hlo by (by rewrite Hout, length_app, Hlen).
  assert (sumZ (valueSatoshis <$> pay_outputs p) = total (pay_coins p) - pay_fee p) as Hsums by (rewrite Hout, fmap_app, sumZ_app; lia).
  destruct (payment_plain inputs (pay_outputs p) (pay_raw p)) as (tx & Hun & Hplain & Hprev & Hvout & Hsize & Hver); try done; [..|].
  - assert (Forall (fun o => from_option IsNullOutPoint true o = false) (coin_outpoint <$> pay_coins p)) as Hops' by (by apply Forall_fmap).
    rewrite Hops in Hops'. rewrite !Forall_fmap in Hops'. eapply Forall_impl; [exact Hops'|]. done.
  - rewrite Hops in Hnd. by apply NoDup_fmap_1 in Hnd.
  - lia.
  - rewrite Hout. destruct dest; [|done]. by destruct recipients.
  - rewrite Hout. by apply Forall_app.
  - lia.
  - unfold MAX_MONEY. lia.
  - exists tx. split; [done|done| | | | | |done|].
    + rewrite <-Hli, <-(length_fmap outpoint inputs), <-Hprev. by rewrite length_fmap.
    + intros i c Hi. destruct (Hlook _ _ Hi) as (u & Hu & Hc). exists u. rewrite Hs.
      destruct (coin_input_outpoint _ _ _ (Forall_lookup_1 _ _ _ _ Hcoins Hi) Hc) as (Ho & _ & Hk).
      split; [done|]. split; [by apply Hver|]. split; [by apply (Forall_lookup_1 _ _ _ _ Hwf Hu)|done].
    + rewrite Hvout, Hout, fmap_app, fmap_app, <-!list_fmap_compose. unfold amounts. rewrite <-Hdv, <-Hcv. done.
    + intros Hpos. exists ck. rewrite Hvout, Hout. unfold change_outputs. rewrite (proj2 (Z.ltb_lt _ _) Hpos), fmap_app. apply elem_of_app. right. by left.
    + rewrite Hvout. unfold value_out_sum. rewrite <-list_fmap_compose. change (nValue ∘ node_txout) with valueSatoshis. fold (sumZ (valueSatoshis <$> pay_outputs p)). lia.
    + exists minRate. split; [done|].
      assert (length (pay_raw p) <= 10 + 148 * length inputs + 34 * length (pay_outputs p))%nat as Hsz.
      { eapply payment_size_aux; [|exact Hown|lia|lia| |exact Hraw]; eapply Forall_impl; [exact Hwf| |exact Hall|]; by intros ? []. }
      rewrite Hfee. unfold estimatedVsize. nia.
Qed.

End Sent.

(** ** At a node that holds the coins *)

(** The node knows the coin as the gateway described it: an output of that value
    to the wallet's key, mature, and not spent by the pool.  A key hash that is
    itself a DER signature is excluded, for the reason given at [input_verifies]. *)
Definition node_holds `{Crypto} (node : NodeState) (pool : list CTransaction) (ks : gmap Z key) (c : coin) : Prop :=
  exists o k cn, coin_outpoint c = Some o /\ ks !! coin_index c = Some k /\ mempool_view pool (coins_tip node) o = Some cn /\
    coin_out cn = {| nValue := val c; out_scriptPubKey := p2pkhScriptPubKey (hash160 (publicKey k)) |} /\
    mature node cn /\ (o ∉ pool_spends pool) /\ IsValidSignatureEncoding (hash160 (publicKey k)) true = false.

Section Held.
Context `{CryptoLaws} {CU : Curve}.
Context (recipients : list recipient) (p : payment) (w' : world) (tx : CTransaction) (Hsent : sent_tx recipients p w' tx).
Context (node : NodeState) (pool : list CTransaction) (Hheld : Forall (node_holds node pool (keys (wal w'))) (pay_coins p)).
Context (Hcoins : Forall coin_ok (pay_coins p)).
Let view : CCoinsView := mempool_view pool (coins_tip node).

Lemma held_input i txin : vin tx !! i = Some txin -> exists c h cn,
  pay_coins p !! i = Some c /\ view (prevout txin) = Some cn /\ length h = 20%nat /\ bytes_ok h /\
  coin_out cn = {| nValue := val c; out_scriptPubKey := p2pkhScriptPubKey h |} /\ mature node cn /\ (prevout txin ∉ pool_spends pool) /\
  forall value mdb cache flags, flags_ok flags ->
    VerifyScript (TransactionSignatureChecker {| txTo := tx; m_mdb := mdb; nIn := i; amount := value; txdata := cache |})
      flags (in_scriptSig txin) (p2pkhScriptPubKey h) (scriptWitness txin) = Ret tt.
Proof.
  intros Hi. destruct (lookup_lt_is_Some_2 (pay_coins p) i) as [c Hc]; [rewrite <-(sent_vin _ _ _ _ Hsent); by eapply lookup_lt_Some|].
  destruct (sent_inputs _ _ _ _ Hsent i c Hc) as (u & Ho & (txin' & Hi' & Hh & Hv & Hver) & (_ & _ & Hl & Hb & _) & k & Hk & Hkh).
  rewrite Hi in Hi'. injection Hi' as <-. pose proof (Forall_lookup_1 _ _ _ _ Hheld Hc) as (o & k' & cn & Ho' & Hk' & Hview & Hout & Hmat & Hnc & Hder).
  rewrite Ho in Ho'. injection Ho' as <-. rewrite Hk in Hk'. injection Hk' as <-.
  assert (prevout txin = outpoint u) as -> by (destruct (prevout txin); unfold outpoint; cbn in *; by subst).
  exists c, (u_pubkeyHash u), cn. rewrite Hkh in *. split_and!; try done. by apply Hver.
Qed.

Lemma held_spendable : Forall (spendable node view) (vin tx).
Proof.
  apply Forall_lookup. intros i txin Hi. destruct (held_input i txin Hi) as (c & h & cn & Hc & Hv & Hl & Hb & Hout & Hm & _).
  exists cn, h. rewrite Hout. cbn [out_scriptPubKey nValue]. split; [done|]. split; [done|]. split; [by apply p2pkhScriptPubKey_script|]. split; [|done].
  by destruct (Forall_lookup_1 _ _ _ _ Hcoins Hc) as (? & ? & _ & _ & _ & _ & ?).
Qed.

Lemma held_sum : coins_sum view (vin tx) = total (pay_coins p).
Proof.
  unfold coins_sum, total, sumZ. f_equal. apply list_eq. intros i. rewrite !list_lookup_fmap.
  destruct (vin tx !! i) as [txin|] eqn:Hi.
  - destruct (held_input i txin Hi) as (c & h & cn & -> & Hv & _ & _ & Hout & _). cbn [fmap option_fmap option_map]. f_equal. unfold input_value. rewrite Hv. cbn [from_option]. by rewrite Hout.
  - apply lookup_ge_None in Hi. rewrite (sent_vin _ _ _ _ Hsent) in Hi. by rewrite (proj2 (lookup_ge_None _ _) Hi).
Qed.

Lemma held_free : Forall (fun i => prevout i ∉ pool_spends pool) (vin tx).
Proof. apply Forall_lookup. intros i txin Hi. by destruct (held_input i txin Hi) as (c & h & cn & _ & _ & _ & _ & _ & _ & ? & _). Qed.

Lemma held_pass : inputs_pass node pool tx.
Proof.
  intros i txin cn d flags Hi Hv Hf. destruct (held_input i txin Hi) as (c & h & cn' & _ & Hv' & _ & _ & Hout & _ & _ & Hver).
  unfold view in Hv'. rewrite Hv in Hv'. injection Hv' as <-. unfold run_check. cbn [ptxTo check_nIn m_tx_out nFlags check_txdata]. rewrite Hi, Hout. by apply Hver.
Qed.

End Held.

Lemma values_not_dust tx : plain_payment tx -> Forall (fun v => DUST <= v) (nValue <$> vout tx) ->
  existsb (fun o => IsDust o DUST_RELAY_TX_FEE) (vout tx) = false.
Proof.
  intros Hp Hv. apply existsb_false_Forall. rewrite Forall_fmap in Hv. apply Forall_forall. intros o Ho. apply pays_not_dust.
  rewrite Forall_forall in Hv. pose proof (proj1 (Forall_forall _ _) (plain_outputs _ Hp) o Ho) as [_ Hh]. split; [exact (Hv o Ho)|done].
Qed.

(** C2: A payment of bounded size sent from the wallet enters the memory pool of a
    node that holds its coins.  The payment spends fewer than 253 coins, pays
    between one and 251 recipients, and its coins are worth less than 2^53
    satoshis together; the coins are distinct outpoints, none of them null; no
    output, the change included, is below the dust limit; and the gateway's rate
    is at least the network's 100 satoshis per byte.  The node knows each coin as
    the gateway listed it, paid to the wallet's key, mature and not spent by its
    pool; it has the default relay fees, room in its pool, and no transaction
    with the same hash.  Then every check of the node passes, the scripts with
    the relay rules and with those of a block, and the node counts the fee and
    the size the wallet computed.  Without any bound on the coins this fails: the
    wallet selects any number of them, and the node relays nothing above 400000
    weight units. *)
Theorem node_admits_payment `{CryptoLaws} {CU : Curve} {CL : CurveLaws} `{Hd} {HL : HdLaws} `{Browser} recipients w p w' node pool
  (Htable : table_ok (wal w)) (Hsend : send_payment recipients w = (Ok (Some p), w'))
  (Hcoins : Forall coin_ok (pay_coins p)) (Hdistinct : distinct_coins (pay_coins p)) (Htotal : total (pay_coins p) < 2 ^ 53)
  (Hn : (length (pay_coins p) < 253)%nat) (Hm : (length recipients < 252)%nat) (Hne : recipients <> [])
  (Hrate : forall r, sendFeeMinRate (snd_st w') = Some r -> 100 <= r)
  (Hdust : Forall (fun v => DUST <= v) (amounts recipients (pay_change p)))
  (Hheld : Forall (node_holds node pool (keys (wal w'))) (pay_coins p))
  (Hready : forall tx, UnserializeTransaction true (pay_raw p) = inr (tx, []) -> node_ready node pool tx /\ fresh pool tx) :
  exists tx, UnserializeTransaction true (pay_raw p) = inr (tx, []) /\
    AcceptSingleTransaction node (SingleAccept false false) pool tx =
      (tx :: pool, Valid {| m_base_fees := pay_fee p; m_modified_fees := pay_fee p + fee_delta node (GetHash tx);
                            m_vsize := Z.of_nat (length (pay_raw p)) |}).
Proof.
  pose proof (proj1 (Forall_app _ _ _) Hdust) as [Hamounts _]. rewrite Forall_fmap in Hamounts.
  destruct (payment_sent_tx recipients w p w') as [tx Hsent]; try done.
  { eapply Forall_impl; [exact Hamounts|]. unfold DUST. cbn. lia. }
  { intros r Hr%Hrate. lia. }
  exists tx. split; [by apply (sent_read _ _ _ _ Hsent)|]. destruct (Hready tx (sent_read _ _ _ _ Hsent)) as [Hr Hf].
  pose proof (sent_is_plain _ _ _ _ Hsent) as Hp. pose proof (sent_balance _ _ _ _ Hsent) as Hb. pose proof (sent_size _ _ _ _ Hsent) as Hs.
  destruct (sent_fee _ _ _ _ Hsent) as (minRate & Hmin & Hfee). pose proof (Hrate _ Hmin).
  pose proof (held_sum _ _ _ _ Hsent _ _ Hheld) as Hsum. pose proof (held_pass _ _ _ _ Hsent _ _ Hheld) as Hpass.
  rewrite plain_admitted; [|done|done|by eapply held_spendable|rewrite Hsum; unfold MAX_MONEY; lia|rewrite Hsum, Hs; nia|done|by eapply held_free| |done].
  - rewrite Hsum, Hs. replace (total (pay_coins p) - value_out_sum (vout tx)) with (pay_fee p) by lia. done.
  - intros _. apply values_not_dust; [done|]. by rewrite (sent_values _ _ _ _ Hsent).
Qed.

(** A wallet with one coin, a gateway with the network's rate, and a node that
    holds the coin. *)
Definition wn_gateway (value : string) : Browser := answering [
  ("/v1/address/", JObj [("utxos", JArr [JObj [
     ("txid", JStr (str (replicate 64 (Ascii.ascii_of_nat 97)))); ("vout", JNum (of_Z 1)); ("value", JStr value)]])]);
  ("/v1/fee-estimate", JObj [("fee_rate_sat_per_vbyte", JNum (of_Z 100))]);
  ("/v1/tx/broadcast", JObj [("txid", JStr "00")])].
Definition wn_send (value : string) := @send_payment toy_crypto (@toy_hd toy_crypto) (wn_gateway value) ex_recipients ex_world.
Definition wn_payment (value : string) : payment := match fst (wn_send value) with Ok (Some p) => p | _ => ex_payment end.
Definition wn_key : list Z := from_option publicKey [] (keys (wal (snd (wn_send "500000"))) !! 0).
Definition wn_node : NodeState := {|
  params := main_params; adjusted_time := 1800000000; tip_height := 5000; tip_median_time := 1799999000; median_time_past := fun _ => Some 1799990000;
  segwit_active := true; block_flags := GetBlockScriptFlags None true true true true; prematurewitness := false;
  coins_tip := fun o => if bool_decide (op_hash o = replicate 32 0xaa) && (op_n o =? 1) then
    Some {| coin_out := {| nValue := 500000; out_scriptPubKey := p2pkhScriptPubKey (@hash160 toy_crypto wn_key) |};
            fCoinBase := false; fCoinStake := false; nHeight := 100; coin_nTime := 1700000000 |} else None;
  in_cache := fun _ => false; require_standard := true;
  settings := {| max_datacarrier_bytes := Some 223; permit_bare_multisig := true; dust_relay_fee := DUST_RELAY_TX_FEE |};
  min_relay_feerate := DEFAULT_MIN_RELAY_TX_FEE; bytes_per_sigop := 20; fee_delta := fun _ => 0;
  limits := {| ancestor_count := 25; ancestor_size_vbytes := 101000; descendant_count := 25; descendant_size_vbytes := 101000 |};
  ancestors_within := fun _ _ _ => true; package_within := fun _ _ _ => true; evict := fun l => l; cache_prefix := []; cache_contains := fun _ => false
|}.

Lemma wn_ready tx : node_ready wn_node [] tx.
Proof. constructor; try reflexivity; try (cbn; lia). split; by vm_compute. Qed.

Lemma wn_coins value : value = "500000" \/ value = "150000" -> Forall coin_ok (pay_coins (wn_payment value)).
Proof.
  intros [-> | ->].
  all: match goal with |- Forall _ ?l => let l' := eval vm_compute in l in replace l with l' by (vm_compute; reflexivity) end.
  all: apply Forall_cons_2; [|apply Forall_nil_2]; exists (str (replicate 64 (Ascii.ascii_of_nat 97))), 1; by vm_compute.
Qed.

Lemma wn_held : Forall (@node_holds toy_crypto wn_node [] (keys (wal (snd (wn_send "500000"))))) (pay_coins (wn_payment "500000")).
Proof.
  match goal with |- Forall _ ?l => let l' := eval vm_compute in l in replace l with l' by (vm_compute; reflexivity) end.
  apply Forall_cons_2; [|apply Forall_nil_2].
  exists {| op_hash := replicate 32 0xaa; op_n := 1 |}. destruct (keys (wal (snd (wn_send "500000"))) !! 0) as [k|] eqn:Ek; [|by vm_compute in Ek].
  assert (publicKey k = wn_key) as Hk by (unfold wn_key; by rewrite Ek). exists k. eexists.
  split; [by vm_compute|]. split; [exact Ek|]. split; [reflexivity|]. rewrite Hk. split; [by vm_compute|]. split; [by split|].
  split; [by intros ?%elem_of_nil|by vm_compute].
Qed.

Lemma wn_distinct : distinct_coins (pay_coins (wn_payment "500000")).
Proof.
  match goal with |- distinct_coins ?l => let l' := eval vm_compute in l in replace l with l' by (vm_compute; reflexivity) end.
  split; [apply (bool_decide_unpack _); by vm_compute|]. apply Forall_cons_2; [by vm_compute|apply Forall_nil_2].
Qed.

Lemma node_admits_payment_witness :
  exists tx, UnserializeTransaction true (pay_raw (wn_payment "500000")) = inr (tx, []) /\
    @AcceptSingleTransaction toy_crypto toy_curve wn_node (SingleAccept false false) [] tx =
      ([tx], Valid {| m_base_fees := pay_fee (wn_payment "500000"); m_modified_fees := pay_fee (wn_payment "500000") + fee_delta wn_node (@GetHash toy_crypto tx);
                      m_vsize := Z.of_nat (length (pay_raw (wn_payment "500000"))) |}).
Proof.
  apply (@node_admits_payment toy_crypto toy_laws toy_curve toy_curve_laws (@toy_hd toy_crypto) toy_hd_laws (wn_gateway "500000")
    ex_recipients ex_world (wn_payment "500000") (snd (wn_send "500000")) wn_node []).
  - by apply table_ok_empty.
  - vm_compute. reflexivity.
  - apply wn_coins. by left.
  - apply wn_distinct.
  - by vm_compute.
  - vm_compute. lia.
  - vm_compute. lia.
  - discriminate.
  - replace (sendFeeMinRate (snd_st (snd (wn_send "500000")))) with (Some 100) by (vm_compute; reflexivity). intros r [= <-]. lia.
  - replace (amounts ex_recipients (pay_change (wn_payment "500000"))) with [120000; 357400] by (vm_compute; reflexivity).
    unfold DUST. repeat constructor; lia.
  - apply wn_held.
  - intros tx _. split; [apply wn_ready|apply Forall_nil_2].
Defined.

(** The send screen returns any positive change, however small.  Change below
    18200 satoshis is dust to the node, so the payment that is broadcast with it is
    refused by every node that relays standard transactions only, whatever its
    pool and its options. *)
Theorem node_refuses_dust_change `{CryptoLaws} {CU : Curve} {CL : CurveLaws} `{Hd} {HL : HdLaws} `{Browser} recipients w p w' node args pool
  (Htable : table_ok (wal w)) (Hsend : send_payment recipients w = (Ok (Some p), w'))
  (Hamounts : Forall (fun r => 0 <= r_amount r) recipients)
  (Hcoins : Forall coin_ok (pay_coins p)) (Hdistinct : distinct_coins (pay_coins p)) (Htotal : total (pay_coins p) < 2 ^ 53)
  (Hn : (length (pay_coins p) < 253)%nat) (Hm : (length recipients < 252)%nat) (Hne : recipients <> [])
  (Hrate : forall r, sendFeeMinRate (snd_st w') = Some r -> 0 <= r)
  (Hchange : 0 < pay_change p < 18200)
  (Hstandard : require_standard node = true) (Hsegwit : segwit_active node = true)
  (Hrelay : dust_relay_fee (settings node) = DUST_RELAY_TX_FEE) :
  exists tx, UnserializeTransaction true (pay_raw p) = inr (tx, []) /\
    AcceptSingleTransaction node args pool tx = (pool, Invalid TX_NOT_STANDARD "dust").
Proof.
  destruct (payment_sent_tx recipients w p w') as [tx Hsent]; try done.
  exists tx. split; [by apply (sent_read _ _ _ _ Hsent)|]. apply dust_refused; try done; [by apply (sent_is_plain _ _ _ _ Hsent)|].
  destruct (sent_change _ _ _ _ Hsent) as [ck Hin]; [lia|]. apply existsb_exists. eexists. split; [by apply list_elem_of_In|].
  unfold IsDust, node_txout. cbn [nValue valueSatoshis scriptPubKey].
  rewrite p2pkhScriptPubKey_script by apply hash160_bytes. rewrite dust_p2pkh by apply hash160_length. apply Z.ltb_lt. lia.
Qed.

Lemma wn_distinct_dust : distinct_coins (pay_coins (wn_payment "150000")).
Proof.
  match goal with |- distinct_coins ?l => let l' := eval vm_compute in l in replace l with l' by (vm_compute; reflexivity) end.
  split; [apply (bool_decide_unpack _); by vm_compute|]. apply Forall_cons_2; [by vm_compute|apply Forall_nil_2].
Qed.

Lemma node_refuses_dust_change_witness :
  exists tx, UnserializeTransaction true (pay_raw (wn_payment "150000")) = inr (tx, []) /\
    @AcceptSingleTransaction toy_crypto toy_curve wn_node (SingleAccept false false) [] tx = ([], Invalid TX_NOT_STANDARD "dust").
Proof.
  apply (@node_refuses_dust_change toy_crypto toy_laws toy_curve toy_curve_laws (@toy_hd toy_crypto) toy_hd_laws (wn_gateway "150000")
    ex_recipients ex_world (wn_payment "150000") (snd (wn_send "150000")) wn_node (SingleAccept false false) []).
  - by apply table_ok_empty.
  - vm_compute. reflexivity.
  - apply Forall_cons_2; [cbn; lia|apply Forall_nil_2].
  - apply wn_coins. by right.
  - apply wn_distinct_dust.
  - by vm_compute.
  - vm_compute. lia.
  - vm_compute. lia.
  - discriminate.
  - replace (sendFeeMinRate (snd_st (snd (wn_send "150000")))) with (Some 100) by (vm_compute; reflexivity). intros r [= <-]. lia.
  - replace (pay_change (wn_payment "150000")) with 7400 by (vm_compute; reflexivity). lia.
  - reflexivity.
  - reflexivity.
  - reflexivity.
Defined.

(** ** Replacements *)

(** C25: The replacement that the fee bump of the wallet builds spends the recorded
    coins in their order, each with a signature that verifies against the output
    to the key given for that coin, and signals in every input that it replaces;
    yet the first checks of the pool refuse it, alone or in a package, while the
    payment it replaces, or anything else spending one of the recorded coins, is in
    the pool: the pool stays as it was, whatever the fee offered. *)
Theorem node_refuses_replacement `{CryptoLaws} {CU : Curve} {CL : CurveLaws} record newFee keys raw newOutputs node args pool inp
  (Hbump : buildBumpFeeTransaction record newFee keys = Ok (raw, newOutputs))
  (Hins : Forall wf_sent_input (sr_inputs record)) (Houts : Forall wf_sent_output newOutputs)
  (Hkeys : Forall own_input_key keys)
  (Hli : Z.of_nat (length (sr_inputs record)) <= MAX_SIZE) (Hlo : Z.of_nat (length newOutputs) <= MAX_SIZE)
  (Hinp : inp ∈ sr_inputs record) (Hpool : sent_outpoint inp ∈ pool_spends pool) :
  exists tx, UnserializeTransaction true raw = inr (tx, []) /\
    vout tx = (fun o => node_txout (sent_txout o)) <$> newOutputs /\
    length (vin tx) = length (sr_inputs record) /\
    (forall i inp, sr_inputs record !! i = Some inp -> exists txin u, vin tx !! i = Some txin /\ prevout txin = sent_outpoint inp /\
       nSequence txin = 0xfffffffd /\ bump_input keys i inp = Ok u /\ input_verifies tx i u) /\
    (forall view ws, PreChecks node args view pool tx <> Valid ws) /\
    (AcceptSingleTransaction node args pool tx).1 = pool /\
    forall ws, (AcceptSingleTransaction node args pool tx).2 <> Valid ws.
Proof.
  destruct (bump_fee_replacement record newFee keys raw newOutputs) as (tx & Hun & Hvout & Hl & Hi); try done.
  exists tx. do 4 (split; [done|]). apply list_elem_of_lookup in Hinp as [i Hinp]. destruct (Hi i inp Hinp) as (txin & u & Htx & Hp & _).
  assert (txin ∈ vin tx /\ prevout txin ∈ pool_spends pool) as [Ht Hc] by (rewrite Hp; split; [by eapply list_elem_of_lookup_2|done]).
  split; [intros view ws; by eapply conflict_unchecked|by eapply conflict_refused].
Qed.

(** A payment waiting in the pool, of the coin the record names. *)
Definition wn_waiting : CTransaction := {|
  nVersion := 2; nTime := 0; nLockTime := 0;
  vin := [{| prevout := {| op_hash := replicate 32 0xaa; op_n := 1 |}; in_scriptSig := []; nSequence := 0xfffffffd; scriptWitness := [] |}];
  vout := [{| nValue := 20000; out_scriptPubKey := p2pkh_script (replicate 20 1) |}]
|}.

Lemma node_refuses_replacement_witness :
  exists tx, UnserializeTransaction true bump_raw = inr (tx, []) /\
    vout tx = (fun o => node_txout (sent_txout o)) <$> bump_outputs /\
    length (vin tx) = length (sr_inputs bump_record) /\
    (forall i inp, sr_inputs bump_record !! i = Some inp -> exists txin u, vin tx !! i = Some txin /\ prevout txin = sent_outpoint inp /\
       nSequence txin = 0xfffffffd /\ @bump_input toy_crypto bump_keys i inp = Ok u /\ @input_verifies toy_crypto toy_curve tx i u) /\
    (forall view ws, @PreChecks toy_crypto wn_node (SingleAccept false false) view [wn_waiting] tx <> Valid ws) /\
    (@AcceptSingleTransaction toy_crypto toy_curve wn_node (SingleAccept false false) [wn_waiting] tx).1 = [wn_waiting] /\
    forall ws, (@AcceptSingleTransaction toy_crypto toy_curve wn_node (SingleAccept false false) [wn_waiting] tx).2 <> Valid ws.
Proof.
  apply (@node_refuses_replacement toy_crypto toy_laws toy_curve toy_curve_laws bump_record 50 bump_keys bump_raw bump_outputs wn_node (SingleAccept false false) [wn_waiting]
    {| si_txid := repeat_char 64 "a"; si_vout := 1; si_valueSatoshis := 820 |}); [apply bump_ex| | | |done|done|by left|].
  1-3: repeat (apply Forall_cons_2 || apply Forall_nil_2); by vm_compute.
  replace (sent_outpoint _) with {| op_hash := replicate 32 0xaa; op_n := 1 |} by (vm_compute; reflexivity). by left.
Defined.
