(* ===== verification/AddressBook.v ===== *)
(** * Contacts and receiving

    app.js lines 610-694 and 771-802: the address book kept in [localStorage]
    and shown on the send screen, and the receive screen with its payment
    request, its list of addresses and the button that adds one.  The handler
    of a button created with a list takes the list it was created with. *)

From S2P Require Import Prelude Digits JsString JsInt Bytes Crypto Base58 Bech32 Address Tx Message JsNum JsNumFacts JsNumText Amount Texts Json JsonFacts Keys World Gateway Storage Wallet SendScreen.

Open Scope Z_scope.
Open Scope list_scope.

(** ** Page fragments *)

(** Fixed text of a template, written with a backquote for each double quote. *)
Definition q (s : string) : string :=
  str ((fun c => if Ascii.eqb c (chr 96) then chr 34 else c) <$> chars s).
(** A line break followed by [n] spaces, as the templates are indented. *)
Definition line (n : nat) : string := str (chr 10 :: replicate n (chr 32)).
(** [l.map(f).join("")] *)
Definition join_html (l : list string) : string := str_join "" l.

(** What the [value] and the [textContent] of an element become on assignment. *)
Definition value_text (v : js) : string := match v with JNull => "" | _ => js_toString v end.
Definition content_text (v : js) : string := match v with JNull | JUndef => "" | _ => js_toString v end.

(** [v.length === 0] *)
Definition length_zero (v : js) : res bool :=
  n ← get v "length"; Ok (match n with JNum x => is_zero x | _ => false end).
(** The elements of [v] for [map], [filter] and [splice]. *)
Definition array_of (v : js) : res (list js) :=
  match v with JArr l => Ok l | _ => Throw (EngineError "TypeError: not a function") end.
(** [l[i]] *)
Definition at_index (l : list js) (i : nat) : js := default JUndef (l !! i).

(** ** Address book *)

Definition loadAddressBookEntries : M js := raw ← getItem "fic_address_book"; lift (parse_or raw (JArr [])).
Definition saveAddressBookEntries (entries : js) : M unit := setItem "fic_address_book" (JSON_stringify entries).

Definition book_row (i : nat) (e : js) : res string :=
  label ← get e "label";
  address ← get e "address";
  Ok (line 4 +:+ q "<div class=`book-row`>" +:+
      line 6 +:+ q "<div class=`book-info`>" +:+
      line 8 +:+ q "<div class=`book-label`>" +:+ escapeHtml (js_toString label) +:+ "</div>" +:+
      line 8 +:+ q "<div class=`book-address mono`>" +:+ escapeHtml (js_toString address) +:+ "</div>" +:+
      line 6 +:+ "</div>" +:+
      line 6 +:+ q "<button class=`secondary` type=`button` data-use=`" +:+ toString (Z.of_nat i) +:+ q "`>Use</button>" +:+
      line 6 +:+ q "<button class=`danger` type=`button` data-remove=`" +:+ toString (Z.of_nat i) +:+ q "`>Remove</button>" +:+
      line 4 +:+ "</div>").

(** [l.map((e, i) => f(e, i))] *)
Definition map_indexed {A} (f : nat -> js -> res A) (l : list js) : res (list A) := mapR (fun p : nat * js => f p.1 p.2) (imap pair l).

Definition renderAddressBook : M unit :=
  entries ← loadAddressBookEntries;
  none ← lift (length_zero entries);
  if (none : bool) then set_html "address-book-list" (q "<p class=`notice`>No saved addresses yet.</p>")
  else
    l ← lift (array_of entries);
    html ← lift (map_indexed book_row l);
    set_html "address-book-list" (join_html html).
Definition loadAddressBook : M unit := renderAddressBook.

(** The "Use" button of row [i] of a book rendered from [entries]: fills the row focused last, or the first. *)
Definition book_use (entries : list js) (i : nat) : M unit :=
  rs ← sstate rows;
  active ← sstate activeSendRecipientId;
  let target := match List.find (fun r => bool_decide (Some (row_id r) = active)) rs with
                | Some r => Some r
                | None => head rs
                end in
  match target with
  | None => mret tt
  | Some r => address ← prop (at_index entries i) "address"; update_row (row_id r) (set_row_address (value_text address))
  end.

Definition book_remove (i : nat) : M unit :=
  updated ← loadAddressBookEntries;
  l ← lift (array_of updated);
  _ ← saveAddressBookEntries (JArr (delete i l));
  renderAddressBook.

Definition btn_book_add : M unit :=
  label ← value "new-book-label"; let label := trim label in
  address ← value "new-book-address"; let address := trim address in
  if String.eqb label "" || String.eqb address "" then mret tt else
  entries ← loadAddressBookEntries;
  l ← lift (array_of entries);
  _ ← saveAddressBookEntries (JArr (l ++ [JObj [("label", JStr label); ("address", JStr address)]]));
  _ ← set_value "new-book-label" "";
  _ ← set_value "new-book-address" "";
  renderAddressBook.

Section Receive.
Context `{Crypto} `{Hd} `{Browser}.

(** ** Receiving *)

(** [qr.renderQr(canvas, text)] of qr.js *)
Definition renderQr (canvas text : string) : M unit :=
  if qr_accepts text then set_element canvas "qr" text else throw (EngineError "Error: The amount of data is too big").

Definition refreshReceiveQr : M unit :=
  amount ← value "receive-request-amount";
  address ← activeAddress;
  match address with
  | Some a => renderQr "receive-qr" (receive_uri a amount)
  | None =>
      if ltb (Fin 0 0) (parseFloat (trim amount)) then renderQr "receive-qr" (receive_uri "undefined" amount)
      else throw (EngineError "Error: No input text")
  end.

Definition address_row (active : Z) (addresses : gmap Z string) (idx : Z) : string :=
  line 4 +:+ q "<div class=`addr-row " +:+ (if idx =? active then "current" else "") +:+ q "`>" +:+
  line 6 +:+ q "<span class=`mono addr-info`>" +:+ or_undefined (addresses !! idx) +:+ "</span>" +:+
  line 6 +:+ q "<button class=`secondary` type=`button` data-select=`" +:+ toString idx +:+ q "`>" +:+
           (if idx =? active then "Current" else "Use") +:+ "</button>" +:+
  line 4 +:+ "</div>".
Definition renderAddressList : M unit :=
  indices ← wstate addressIndices;
  active ← wstate activeIndex;
  table ← wstate addresses;
  set_html "address-list" (join_html (address_row active table <$> indices)).

Definition loadReceive : M unit :=
  address ← activeAddress;
  _ ← set_text "receive-address" (or_empty address);
  _ ← set_value "receive-request-amount" "";
  _ ← refreshReceiveQr;
  renderAddressList.

Definition btn_view_on_explorer : M unit :=
  address ← activeAddress;
  effect ("open https://explorer.firstislamiccoin.com/#/address/" +:+ or_undefined address).

Definition select_address (idx : Z) : M unit := _ ← set_wstate (set_activeIndex idx); loadReceive.

(** [Math.max(...l)] of a list that is not empty *)
Definition max_of (l : list Z) : option Z := match l with [] => None | x :: l => Some (foldr Z.max x l) end.

(** The receive screen is shown once there is an address, so the list is not empty. *)
Definition btn_new_address : M unit :=
  indices ← wstate addressIndices;
  largest ← lift (defined "index" (max_of indices));
  let nextIndex := largest + 1 in
  _ ← set_wstate (set_addressIndices (indices ++ [nextIndex]));
  _ ← saveAddressIndices;
  _ ← ensureKey nextIndex;
  _ ← set_wstate (set_activeIndex nextIndex);
  loadReceive.

Definition btn_copy_address : M unit := address ← activeAddress; effect ("copy " +:+ or_undefined address).

End Receive.
