(* ===== verification/History.v ===== *)
(** * History, the banner for new transactions, and transaction details

    app.js lines 804-981.  The history of all the wallet's addresses is combined
    into one list without repetitions, newest first; a timer compares it with
    the transactions seen so far; the list can be exported, and a transaction
    can be opened, with a button to raise the fee of one the wallet sent. *)

From S2P Require Import Prelude Digits JsString JsInt Bytes Crypto Base58 Bech32 Address Tx Message JsNum JsNumFacts JsNumText Amount Texts Json JsonFacts Keys World Gateway Storage Wallet SendScreen AddressBook.

Open Scope Z_scope.
Open Scope list_scope.

(** ** Sorting *)

(** [l.sort(cmp)] with [gt a b] for [cmp(a, b) > 0]: a stable sort, written as insertion. *)
Fixpoint insert_sorted {A} (gt : A -> A -> bool) (x : A) (l : list A) : list A :=
  match l with
  | [] => [x]
  | y :: l => if gt y x then x :: y :: l else y :: insert_sorted gt x l
  end.
Definition js_sort {A} (gt : A -> A -> bool) (l : list A) : list A :=
  foldl (fun sorted x => insert_sorted gt x sorted) [] l.

(** ** Combined history *)

(** [t.txid] of a gateway's transaction: a text. *)
Definition txid_of (t : js) : res string := v ← get t "txid"; Ok (js_toString v).
(** [t.height ?? Infinity] *)
Definition height_or_infinity (t : js) : num :=
  match get t "height" with
  | Ok v => if nullishb v then Inf false else to_Number v
  | Throw _ => NaN
  end.
(** The comparison function of the sort is positive on [a] and [b]. *)
Definition later (a b : js) : bool := ltb (Fin 0 0) (sub (height_or_infinity b) (height_or_infinity a)).

(** The body of the inner loop, on the set of seen ids and the list. *)
Definition add_unseen (acc : gset string * list js) (t : js) : res (gset string * list js) :=
  id ← txid_of t;
  if bool_decide (id ∈ acc.1) then Ok acc else Ok ({[id]} ∪ acc.1, acc.2 ++ [t]).

Section History.
Context `{Crypto} `{Hd} `{Browser}.

(** The transactions of one address. *)
Definition address_history (idx : Z) : M (list js) :=
  address ← address_text idx;
  resp ← history address 50;
  ts ← prop resp "transactions";
  lift (elements ts).

Fixpoint combine_histories (indices : list Z) (acc : gset string * list js) : M (gset string * list js) :=
  match indices with
  | [] => mret acc
  | idx :: indices =>
      ts ← address_history idx;
      acc ← lift (foldR add_unseen acc ts);
      combine_histories indices acc
  end.

Definition fetchCombinedHistory : M (list js) :=
  indices ← wstate addressIndices;
  acc ← combine_histories indices (∅, []);
  mret (js_sort later acc.2).

(** ** Transactions seen *)

Definition seenTxids (txs : list js) : M unit :=
  ids ← lift (mapR txid_of txs);
  set_pstate (fun s => set_seen (Some (default ∅ (seen s) ∪ list_to_set ids)) s).

Definition history_row (t : js) : res string :=
  txid ← get t "txid";
  height ← get t "height";
  Ok (q "<div class=`tx-row mono` data-txid=`" +:+ js_toString txid +:+ q "`>" +:+ js_toString txid +:+
      q "<br><span class=`notice`>" +:+ (if truthy height then "Height " +:+ js_toString height else "Pending") +:+
      "</span></div>").

Definition loadHistory : M unit :=
  _ ← set_html "history-list" (q "<p class=`notice`>Loading...</p>");
  try_catch
    (allTxs ← fetchCombinedHistory;
     _ ← set_pstate (set_lastHistory (Some allTxs));
     _ ← seenTxids allTxs;
     if (length allTxs =? 0)%nat then set_html "history-list" (q "<p class=`notice`>No transactions yet.</p>")
     else html ← lift (mapR history_row allTxs); set_html "history-list" (join_html html))
    (fun e => set_html "history-list"
       (q "<p class=`error`>" +:+ (if is_GatewayError e then err_message e else "Could not reach the network.") +:+ "</p>")).

Definition stopTxPolling : M unit := set_pstate (set_polling false).
Definition startTxPolling : M unit := _ ← stopTxPolling; set_pstate (set_polling true).

Definition showNewTxBanner (count : nat) : M unit :=
  _ ← set_text "new-tx-banner-text"
        (if (count =? 1)%nat then "1 new transaction" else toString (Z.of_nat count) +:+ " new transactions");
  set_display "new-tx-banner" "flex".

(** The transactions whose id is not in [known]. *)
Definition unseen (known : gset string) (txs : list js) : res (list js) :=
  ids ← mapR txid_of txs;
  Ok (filter (fun p : string * js => p.1 ∉ known) (zip ids txs)).*2.

Definition checkForNewTx : M unit :=
  phrase ← wstate mnemonic;
  match phrase with
  | None => mret tt
  | Some _ =>
      try_catch
        (allTxs ← fetchCombinedHistory;
         known ← pstate seen;
         match known with
         | None => seenTxids allTxs
         | Some known =>
             newOnes ← lift (unseen known allTxs);
             _ ← seenTxids allTxs;
             if (0 <? length newOnes)%nat then showNewTxBanner (length newOnes) else mret tt
         end)
        (fun _ => mret tt)
  end.

Definition btn_new_tx_dismiss : M unit := set_display "new-tx-banner" "none".

(** ** Export *)

(** A cell between double quotes, with the double quotes in it doubled. *)
Definition double_quotes (c : ascii) : list ascii := if Ascii.eqb c quote_char then [c; c] else [c].
Definition csv_cell (cell : string) : string :=
  str ([quote_char] ++ mjoin (double_quotes <$> chars cell) ++ [quote_char]).
Definition csv_text (rows : list (list string)) : string :=
  str_join (str [chr 10]) ((fun r => str_join "," (csv_cell <$> r)) <$> rows).

(** [v ?? ""] *)
Definition or_blank (v : js) : string := if nullishb v then "" else js_toString v.
Definition csv_row (t : js) : res (list string) :=
  txid ← get t "txid"; height ← get t "height"; fee ← get t "fee";
  Ok [js_toString txid; if truthy height && ltb (Fin 0 0) (to_Number height) then "confirmed" else "pending";
      or_blank height; or_blank fee].
Definition csv_header : list string := ["txid"; "status"; "height"; "fee_satoshis"].

Definition btn_export_csv : M unit :=
  last ← pstate lastHistory;
  let txs := default [] last in
  if (length txs =? 0)%nat then mret tt else
  rows ← lift (mapR csv_row txs);
  d ← draw;
  effect ("download firstislamiccoin-history-" +:+ today d +:+ ".csv" +:+ str [chr 10] +:+ csv_text (csv_header :: rows)).

(** ** Details of a transaction *)

(** [v?.k] *)
Definition opt_get (v : js) (k : string) : res js := if nullishb v then Ok JUndef else get v k.
(** [v?.[0]] *)
Definition opt_first (v : js) : js :=
  match v with
  | JArr l => at_index l 0
  | JStr s => match chars s with c :: _ => JStr (str [c]) | [] => JUndef end
  | _ => JUndef
  end.
(** [v.slice(0, 16)] as a text *)
Definition slice16 (v : js) : res string :=
  match v with
  | JStr s => Ok (slice s 0 16)
  | JArr l => Ok (js_toString (JArr (take 16 l)))
  | _ => Throw (EngineError "TypeError: slice is not a function")
  end.

Definition vin_row (v : js) : res (string * string) :=
  coinbase ← get v "coinbase";
  if truthy coinbase then Ok ("Input", "coinbase") else
  txid ← get v "txid"; txid ← slice16 txid;
  vout ← get v "vout";
  Ok ("Input", txid +:+ "...:" +:+ js_toString vout).
Definition vout_row (v : js) : res (string * string) :=
  script ← get v "scriptPubKey";
  address ← opt_get script "address";
  addresses ← opt_get script "addresses";
  let first := opt_first addresses in
  let addr := if truthy address then js_toString address
              else if truthy first then js_toString first else "(non-standard output)" in
  value ← get v "value";
  Ok ("Output", addr +:+ ": " +:+ js_toString value +:+ " FIC").

(** [formatFic(v)] of a value that is not yet a [BigInt] *)
Definition format_js (v : js) : res string := n ← to_BigInt v; Ok (formatFic n).

Definition reward_rows (tx : js) : res (list (string * string)) :=
  coinstake ← get tx "is_coinstake";
  reward ← get tx "reward_satoshis";
  if truthy coinstake && negb (nullishb reward) then
    text ← format_js reward;
    Ok [("Type", "Staking reward (coinstake)"); ("Reward", text +:+ " FIC")]
  else Ok [].

Definition tx_rows (tx : js) : res (list (string * string)) :=
  txid ← get tx "txid";
  height ← get tx "height";
  confirmations ← get tx "confirmations";
  let status := if truthy height then "Confirmed, height " +:+ js_toString height +:+ " (" +:+ js_toString confirmations +:+ " confirmations)"
                else "Pending" in
  reward ← reward_rows tx;
  vin ← get tx "vin"; vin ← elements vin; ins ← mapR vin_row vin;
  vout ← get tx "vout"; vout ← elements vout; outs ← mapR vout_row vout;
  Ok ([("Txid", js_toString txid); ("Status", status)] ++ reward ++ ins ++ outs).

Definition detail_row (r : string * string) : string :=
  q "<div class=`kv-row`><span>" +:+ escapeHtml r.1 +:+ q "</span><span class=`mono`>" +:+ escapeHtml r.2 +:+ "</span></div>".

Definition openTxDetail (txid : string) : M unit :=
  _ ← set_display "tx-detail-overlay" "flex";
  _ ← set_element "btn-tx-detail-explorer" "onclick" txid;
  _ ← set_display "btn-tx-detail-bump-fee" "none";
  _ ← set_text "tx-detail-bump-error" "";
  _ ← set_text "tx-detail-bump-success" "";
  _ ← set_html "tx-detail-body" (q "<p class=`notice`>Loading...</p>");
  try_catch
    (tx ← tx txid;
     height ← prop tx "height";
     bumpable ← (if truthy height then mret false
                 else l ← loadSentTxLog; record ← prop l txid; mret (truthy record));
     _ ← (if (bumpable : bool) then
            _ ← set_display "btn-tx-detail-bump-fee" "block";
            set_element "btn-tx-detail-bump-fee" "onclick" txid
          else mret tt);
     rows ← lift (tx_rows tx);
     set_html "tx-detail-body" (join_html (detail_row <$> rows)))
    (fun e => set_html "tx-detail-body"
       (q "<p class=`error`>" +:+ (if is_GatewayError e then err_message e else "Could not load transaction.") +:+ "</p>")).

Definition btn_tx_detail_explorer : M unit :=
  txid ← element "btn-tx-detail-explorer" "onclick";
  effect ("open https://explorer.firstislamiccoin.com/#/tx/" +:+ txid).

(** [e.message || d] *)
Definition message_or (e : thrown) (d : string) : string :=
  if String.eqb (err_message e) "" then d else err_message e.

(** The button's [onclick], set when the details of [txid] were opened. *)
Definition btn_tx_detail_bump_fee : M unit :=
  txid ← element "btn-tx-detail-bump-fee" "onclick";
  _ ← set_text "tx-detail-bump-error" "";
  _ ← set_text "tx-detail-bump-success" "";
  _ ← set_element "btn-tx-detail-bump-fee" "disabled" "true";
  _ ← try_catch
        (newTxid ← bumpFee txid;
         _ ← set_text "tx-detail-bump-success" ("Rebroadcast with a higher fee: " +:+ js_toString newTxid);
         set_display "btn-tx-detail-bump-fee" "none")
        (fun e => set_text "tx-detail-bump-error" (message_or e "Could not bump fee."));
  set_element "btn-tx-detail-bump-fee" "disabled" "false".

Definition btn_tx_detail_close : M unit := set_display "tx-detail-overlay" "none".

End History.
