(* ===== verification/HistoryFacts.v ===== *)
(** * The combined history

    The list shown is the transactions of all addresses, each once, pending
    ones first and then by descending height; the banner counts exactly those
    not seen before; and the exported file reads back as the rows it shows. *)

From Stdlib Require Import Sorting.Sorted.
From S2P Require Import Prelude Digits JsString JsInt Bytes Crypto Base58 Bech32 Address Tx Message JsNum JsNumFacts JsNumText Amount Texts Json JsonFacts Keys World Gateway Storage Wallet WalletFacts SendScreen AddressBook History.

Open Scope Z_scope.
Open Scope list_scope.

(** ** Sorting *)

Section Sorting.
Context {A : Type} (gt : A -> A -> bool).

Lemma insert_sorted_perm x l : insert_sorted gt x l ≡ₚ x :: l.
Proof.
  induction l as [|y l IH]; [done|]. cbn [insert_sorted]. destruct (gt y x); [done|]. rewrite IH. apply perm_swap.
Qed.

Lemma js_sort_perm l : js_sort gt l ≡ₚ l.
Proof.
  unfold js_sort. rewrite <-(app_nil_r l) at 2. generalize (@nil A) as acc. induction l as [|x l IH]; intros acc; [done|].
  cbn [foldl]. rewrite IH, insert_sorted_perm. by rewrite <-Permutation_middle.
Qed.

(** [le a b]: [a] may stand before [b]. *)
Context (le : A -> A -> Prop) (le_trans : forall a b c, le a b -> le b c -> le a c).

Lemma insert_sorted_sorted x l : (forall y, y ∈ l -> if gt y x then le x y else le y x) ->
  StronglySorted le l -> StronglySorted le (insert_sorted gt x l).
Proof.
  intros Hle Hs. induction Hs as [|y l Hs IH Hy]; cbn [insert_sorted]; [by repeat constructor|].
  pose proof (Hle y ltac:(by left)) as Hyx. destruct (gt y x).
  - constructor; [by constructor|]. constructor; [done|]. eapply Forall_impl; [exact Hy|]. intros z. by apply le_trans.
  - constructor; [apply IH; intros z Hz; apply Hle; by right|]. rewrite insert_sorted_perm. by constructor.
Qed.

Lemma js_sort_sorted l : (forall x y, x ∈ l -> y ∈ l -> if gt y x then le x y else le y x) -> StronglySorted le (js_sort gt l).
Proof.
  intros Hle. unfold js_sort. assert (StronglySorted le (@nil A)) as Hs by constructor. revert Hs.
  assert (forall y, y ∈ @nil A -> y ∈ l) as Hacc by (by intros y ?%elem_of_nil).
  assert (forall x, x ∈ l -> x ∈ l) as Hin by done. revert Hacc Hin. generalize (@nil A) as acc. generalize l at 2 4 as rest.
  intros rest. induction rest as [|x rest IH]; intros acc Hacc Hin Hs; [done|]. cbn [foldl]. apply IH.
  - intros y. rewrite insert_sorted_perm. intros [-> | Hy]%elem_of_cons; [apply Hin; by left|by apply Hacc].
  - intros y Hy. apply Hin. by right.
  - apply insert_sorted_sorted; [|done]. intros y Hy. apply Hle; [apply Hin; by left|by apply Hacc].
Qed.
End Sorting.

(** ** Heights *)

Lemma sub_of_Z a b : Z.abs a < 2 ^ 53 -> Z.abs b < 2 ^ 53 -> sub (of_Z a) (of_Z b) = of_Z (a - b).
Proof.
  intros Ha Hb. rewrite (of_Z_exact a), (of_Z_exact b) by done.
  destruct (norm_int a) as (m1 & e1 & -> & H1 & E1). destruct (norm_int b) as (m2 & e2 & -> & H2 & E2).
  unfold sub, neg, add, rn_dyadic, of_Z. set (e := Z.min e1 e2). f_equal.
  - rewrite Z.max_r by lia. rewrite Z.mul_add_distr_r, <-!Z.mul_assoc, <-!Z.pow_add_r by lia.
    rewrite !Z.sub_add. lia.
  - by rewrite Z.max_l by lia.
Qed.

Lemma ltb_0_of_Z n : Z.abs n < 2 ^ 53 -> ltb (Fin 0 0) (of_Z n) = (0 <? n).
Proof.
  intros Hn. rewrite of_Z_exact by done. destruct (norm_int n) as (m & e & -> & He & <-). cbn [ltb]. unfold fin_ltb.
  rewrite Z.min_l, Z.sub_0_r by lia. cbn [Z.sub]. rewrite Z.mul_0_l. by rewrite Z.sub_0_r.
Qed.

(** The height of a transaction as the gateway reports it, [None] while pending. *)
Definition has_height (t : js) (h : option Z) : Prop :=
  match h with
  | None => exists v, get t "height" = Ok v /\ nullishb v = true
  | Some n => get t "height" = Ok (JNum (of_Z n)) /\ 0 <= n < 2 ^ 52
  end.
Definition not_above (a b : js) : Prop := exists ha hb, has_height a ha /\ has_height b hb /\
  match ha, hb with None, _ => True | Some _, None => False | Some x, Some y => y <= x end.

Lemma height_value t h : has_height t h -> height_or_infinity t = match h with None => Inf false | Some n => of_Z n end.
Proof.
  unfold height_or_infinity. destruct h as [n|]; cbn [has_height].
  - intros [-> _]. done.
  - intros (v & -> & ->). done.
Qed.

Lemma later_spec a b ha hb : has_height a ha -> has_height b hb ->
  later a b = match ha, hb with None, _ => false | Some _, None => true | Some x, Some y => x <? y end.
Proof.
  intros Ha Hb. unfold later. rewrite (height_value _ _ Ha), (height_value _ _ Hb).
  destruct ha as [x|], hb as [y|]; cbn [has_height] in Ha, Hb.
  - destruct Ha as [_ Ha], Hb as [_ Hb]. rewrite sub_of_Z, ltb_0_of_Z by lia.
    destruct (Z.ltb_spec 0 (y - x)), (Z.ltb_spec x y); lia || done.
  - destruct Ha as [_ Ha]. rewrite of_Z_exact by lia. by destruct (norm_int x) as (m & e & -> & _).
  - destruct Hb as [_ Hb]. rewrite of_Z_exact by lia. by destruct (norm_int y) as (m & e & -> & _).
  - done.
Qed.

Lemma has_height_inj t h h' : has_height t h -> has_height t h' -> h = h'.
Proof.
  destruct h as [n|], h' as [n'|]; cbn [has_height]; [|by intros [-> _] (v & [= <-] & ?)|by intros (v & -> & ?) [[= ->] _]|done].
  intros [-> Hn] [[= E] Hn']. f_equal. rewrite !of_Z_exact in E by lia.
  destruct (norm_int n) as (m & e & E1 & _ & <-), (norm_int n') as (m' & e' & E2 & _ & <-). rewrite E1, E2 in E. by injection E as -> ->.
Qed.

Lemma not_above_trans a b c : not_above a b -> not_above b c -> not_above a c.
Proof.
  intros (ha & hb & Ha & Hb & Hab) (hb' & hc & Hb' & Hc & Hbc). rewrite (has_height_inj _ _ _ Hb' Hb) in Hbc.
  exists ha, hc. split; [done|]. split; [done|]. destruct ha, hb, hc; try done. lia.
Qed.

Lemma later_total a b : (exists h, has_height a h) -> (exists h, has_height b h) -> if later b a then not_above a b else not_above b a.
Proof.
  intros [ha Ha] [hb Hb]. rewrite (later_spec b a hb ha Hb Ha). destruct hb as [y|], ha as [x|]; cbn; try (eexists _, _; by split_and!).
  destruct (Z.ltb_spec y x); eexists _, _; (split; [done|]; split; [done|]; cbn; lia).
Qed.

(** ** Combining *)

Lemma foldR_app {S A} (f : S -> A -> res S) s l1 l2 : foldR f s (l1 ++ l2) = (s' ← foldR f s l1; foldR f s' l2).
Proof. revert s. induction l1 as [|x l1 IH]; intros s; [done|]. cbn. destruct (f s x); [apply IH|done]. Qed.

(** The id of a transaction that has one. *)
Definition txid (t : js) : string := match txid_of t with Ok id => id | Throw _ => "" end.

(** A set of ids and a list of transactions with exactly those ids, each once. *)
Definition distinct (acc : gset string * list js) : Prop :=
  NoDup (txid <$> acc.2) /\ acc.1 = list_to_set (txid <$> acc.2) /\ Forall (fun t => is_ok (txid_of t) = true) acc.2.

Lemma add_unseen_one acc t acc' : distinct acc -> add_unseen acc t = Ok acc' ->
  distinct acc' /\ is_ok (txid_of t) = true /\ (forall x, x ∈ acc'.2 -> x ∈ acc.2 \/ x = t) /\
  forall i, i ∈ txid <$> acc'.2 <-> i ∈ txid <$> acc.2 \/ i = txid t.
Proof.
  intros (Hnd & Hset & Hok) Ha. unfold add_unseen in Ha. apply res_bind_ok in Ha as (id & Hid & Ha).
  assert (txid t = id) as Et by (unfold txid; by rewrite Hid). assert (id ∈ acc.1 <-> id ∈ txid <$> acc.2) as Hin.
  { rewrite Hset. apply elem_of_list_to_set. }
  case_bool_decide as Hb; apply Ok_inj in Ha as <-; rewrite Hid.
  - split; [done|]. split; [done|]. split; [by left|]. intros i. split; [by left|]. intros [?| ->]; [done|]. by rewrite Et, <-Hin.
  - cbn [fst snd]. split; [split; [|split]|split; [done|split]]; cbn [fst snd].
    + rewrite fmap_app. apply NoDup_app. split; [done|]. split; [|apply NoDup_singleton]. cbn. rewrite Et.
      intros i Hi ->%list_elem_of_singleton. by apply Hb, Hin.
    + rewrite Hset, fmap_app, list_to_set_app_L. cbn. rewrite Et, (right_id_L ∅ (∪)). by rewrite (comm_L (∪)).
    + apply Forall_app. split; [done|]. apply Forall_singleton. by rewrite Hid.
    + intros x [?| ->%list_elem_of_singleton]%elem_of_app; [by left|by right].
    + intros i. rewrite fmap_app, elem_of_app. cbn. by rewrite list_elem_of_singleton.
Qed.

Lemma add_unseen_spec ts acc acc' : distinct acc -> foldR add_unseen acc ts = Ok acc' ->
  distinct acc' /\ Forall (fun t => is_ok (txid_of t) = true) ts /\ (forall t, t ∈ acc'.2 -> t ∈ acc.2 \/ t ∈ ts) /\
  forall id, id ∈ txid <$> acc'.2 <-> id ∈ txid <$> acc.2 \/ id ∈ txid <$> ts.
Proof.
  revert acc. induction ts as [|t ts IH]; intros acc Hd Hf.
  - injection Hf as <-. split; [done|]. split; [done|]. split; [by left|]. intros id. split; [by left|]. by intros [?|?%elem_of_nil].
  - cbn [foldR] in Hf. apply res_bind_ok in Hf as (acc1 & Ha & Hf).
    destruct (add_unseen_one _ _ _ Hd Ha) as (Hd1 & Hok & Ht1 & Hi1). destruct (IH acc1 Hd1 Hf) as (Hd' & Hoks & Ht' & Hi').
    split; [done|]. split; [by constructor|]. split.
    + intros x Hx. destruct (Ht' x Hx) as [Hx1|Hx1]; [destruct (Ht1 x Hx1) as [?| ->]; [by left|right; by left]|right; by right].
    + intros i. rewrite Hi', Hi1. cbn. rewrite elem_of_cons. tauto.
Qed.

Section Combined.
Context `{Crypto} `{Hd} `{Browser}.

Lemma combine_histories_ok indices acc acc' w w' : combine_histories indices acc w = (Ok acc', w') ->
  exists hs, map_m address_history indices w = (Ok hs, w') /\ foldR add_unseen acc (mjoin hs) = Ok acc'.
Proof.
  revert acc w. induction indices as [|idx indices IH]; intros acc w Hc; cbn [combine_histories] in Hc.
  - apply mret_ok in Hc as [-> ->]. by exists [].
  - apply M_bind_ok in Hc as (ts & w1 & E & Hc). apply M_bind_ok in Hc as (acc1 & w2 & E2 & Hc). apply lift_ok in E2 as [E2 ->].
    destruct (IH _ _ Hc) as (hs & Ehs & Ef). exists (ts :: hs). split.
    + cbn [map_m]. unfold mbind, M_bind. by rewrite E, Ehs.
    + rewrite mjoin_cons, foldR_app, E2. exact Ef.
Qed.

Lemma fetchCombined_ok l w w' : fetchCombinedHistory w = (Ok l, w') -> exists hs,
  map_m address_history (addressIndices (wal w)) w = (Ok hs, w') /\ NoDup (txid <$> l) /\
  Forall (fun t => is_ok (txid_of t) = true) l /\
  (forall t, t ∈ l -> t ∈ mjoin hs) /\ (forall id, id ∈ txid <$> l <-> id ∈ txid <$> mjoin hs) /\
  exists l0, l = js_sort later l0.
Proof.
  unfold fetchCombinedHistory, wstate. rewrite bind_gets. intros Hc. apply M_bind_ok in Hc as (acc & w1 & Hc & Hl).
  apply mret_ok in Hl as [-> ->]. apply combine_histories_ok in Hc as (hs & Ehs & Ef).
  apply add_unseen_spec in Ef as ((Hnd & _ & Hok) & _ & Ht & Hi); [|by split_and!; [apply NoDup_nil_2| |apply Forall_nil_2]].
  pose proof (js_sort_perm later acc.2) as Hp. exists hs. split; [done|]. rewrite Hp. split; [done|]. split; [done|]. split; [|split; [|by eexists]].
  - intros t. rewrite Hp. intros [?%elem_of_nil|?]%Ht; done.
  - intros id. rewrite Hp, Hi. split; [by intros [?%elem_of_nil|?]|by right].
Qed.

(** The one request made for an address, and the transactions of its reply. *)
Definition history_request (s : wallet_state) (idx : Z) : request := {|
  rq_method := "GET"; rq_url := baseUrl s +:+ "/v1/address/" +:+ or_undefined (addresses s !! idx) +:+ "/history?limit=50";
  rq_auth := None; rq_body := None
|}.
Definition page_lists (before : list request) (rq : request) (ts : list js) : Prop := exists resp data v,
  fetch_reply before rq = Ok resp /\ rs_ok resp = true /\ rs_json resp = Ok data /\ get data "transactions" = Ok v /\ elements v = Ok ts.

Lemma decode_ok resp data w w' : decode resp w = (Ok data, w') -> rs_ok resp = true /\ rs_json resp = Ok data.
Proof.
  unfold decode, prop. intros Hd. apply M_bind_ok in Hd as (d & w1 & E & Hd). apply lift_ok in E as [E _]. destruct (rs_ok resp).
  - apply mret_ok in Hd as [-> _]. done.
  - apply M_bind_ok in Hd as (? & ? & _ & Hd). apply M_bind_ok in Hd as (? & ? & _ & Hd). apply M_bind_ok in Hd as (? & ? & _ & Hd). done.
Qed.

Lemma address_history_page idx w ts w' : address_history idx w = (Ok ts, w') ->
  w' = set_log (log w ++ [history_request (wal w) idx]) w /\ page_lists (log w) (history_request (wal w) idx) ts.
Proof.
  unfold address_history, address_text, wstate. rewrite bind_gets. intros Hc. apply M_bind_ok in Hc as (data & w1 & E & Hc).
  apply M_bind_ok in Hc as (v & w2 & [Ev ->]%lift_ok & [Ets ->]%lift_ok). pose proof (get_sends ("/v1/address/" +:+ or_undefined (addresses (wal w) !! idx) +:+ "/history?limit=" +:+ toString 50) None w) as Hw.
  unfold history in E. rewrite E in Hw. split; [exact Hw|].
  unfold get_, wstate in E. rewrite bind_gets in E. apply M_bind_ok in E as (resp & w2 & Ef & Ed). apply decode_ok in Ed as [Hok Hj].
  injection Ef as Ef _. by exists resp, data, v.
Qed.

Lemma map_history_pages indices w hs w' : map_m address_history indices w = (Ok hs, w') ->
  let rqs := history_request (wal w) <$> indices in
  log w' = log w ++ rqs /\ length hs = length indices /\
  forall i rq ts, rqs !! i = Some rq -> hs !! i = Some ts -> page_lists (log w ++ take i rqs) rq ts.
Proof.
  cbv zeta. revert w hs. induction indices as [|idx indices IH]; intros w hs Hm; cbn [map_m] in Hm.
  - apply mret_ok in Hm as [-> ->]. cbn. by rewrite app_nil_r.
  - apply M_bind_ok in Hm as (ts & w1 & E & Hm). apply M_bind_ok in Hm as (tss & w2 & E2 & Hm). apply mret_ok in Hm as [-> ->].
    apply address_history_page in E as [-> Hp]. destruct (IH _ _ E2) as (Hlog & Hlen & Hall). cbn [wal log set_log] in *.
    split; [rewrite Hlog; cbn; by rewrite <-app_assoc|]. split; [cbn; by rewrite Hlen|]. intros [|i] rq ts' Hrq Hts; cbn in Hrq, Hts.
    + injection Hrq as <-. injection Hts as <-. cbn. by rewrite app_nil_r.
    + specialize (Hall i rq ts' Hrq Hts). by rewrite <-app_assoc in Hall.
Qed.

End Combined.

(** C28: the combined history is made of one page per address of the wallet: a
    single request for at most 50 transactions each, whatever the gateway says
    of there being more.  It has every transaction of those pages exactly once
    and nothing else, and, for heights as the gateway reports them, pending
    transactions come first and the others follow by descending height. *)
Theorem combined_history_correct `{Crypto} `{Hd} `{Browser} l w w' : fetchCombinedHistory w = (Ok l, w') ->
  let rqs := history_request (wal w) <$> addressIndices (wal w) in
  exists hs, log w' = log w ++ rqs /\ length hs = length rqs /\
    (forall i rq ts, rqs !! i = Some rq -> hs !! i = Some ts -> page_lists (log w ++ take i rqs) rq ts) /\
    NoDup (txid <$> l) /\ (forall t, t ∈ l -> t ∈ mjoin hs) /\
    (forall id, id ∈ txid <$> l <-> id ∈ txid <$> mjoin hs) /\
    (Forall (fun t => exists h, has_height t h) (mjoin hs) -> StronglySorted not_above l).
Proof.
  intros Hf rqs. destruct (fetchCombined_ok l w w' Hf) as (hs & Ehs & Hnd & _ & Ht & Hi & l0 & ->).
  destruct (map_history_pages _ _ _ _ Ehs) as (Hlog & Hlen & Hp). exists hs. split; [done|]. split; [unfold rqs; by rewrite length_fmap|].
  do 4 (split; [done|]). intros Hh.
  apply js_sort_sorted; [exact not_above_trans|]. rewrite Forall_forall in Hh.
  intros x y Hx Hy. apply later_total; apply Hh, Ht; by rewrite js_sort_perm.
Qed.

(** Two addresses that share a transaction, one of the others still pending. *)
Definition ex_tx (id : string) (h : js) : js := JObj [("txid", JStr id); ("height", h)].
Definition ex_histories : Browser := answering [
  ("/v1/address/A", JObj [("transactions", JArr [ex_tx "aa" (JNum (of_Z 5)); ex_tx "bb" (JNum (of_Z 9))])]);
  ("/v1/address/B", JObj [("transactions", JArr [ex_tx "aa" (JNum (of_Z 5)); ex_tx "cc" JNull])])].
Definition ex_history_world : world :=
  set_wal (set_addresses {[0 := "A"; 1 := "B"]} (set_addressIndices [0; 1] (set_mnemonic (Some "abandon") empty_wallet))) empty_world.
Definition ex_history : list js := [ex_tx "cc" JNull; ex_tx "bb" (JNum (of_Z 9)); ex_tx "aa" (JNum (of_Z 5))].

Lemma combined_history_correct_witness :
  let rqs := history_request (wal ex_history_world) <$> [0; 1] in
  exists hs, log (@fetchCombinedHistory ex_histories ex_history_world).2 = [] ++ rqs /\ length hs = length rqs /\
    (forall i rq ts, rqs !! i = Some rq -> hs !! i = Some ts -> @page_lists ex_histories ([] ++ take i rqs) rq ts) /\
    NoDup (txid <$> ex_history) /\ (forall t, t ∈ ex_history -> t ∈ mjoin hs) /\
    (forall id, id ∈ txid <$> ex_history <-> id ∈ txid <$> mjoin hs) /\
    (Forall (fun t => exists h, has_height t h) (mjoin hs) -> StronglySorted not_above ex_history).
Proof.
  apply (@combined_history_correct toy_crypto (@toy_hd toy_crypto) ex_histories ex_history ex_history_world).
  vm_compute. reflexivity.
Defined.

(** ** The banner *)

Section Banner.
Context `{Crypto} `{Hd} `{Browser}.

Lemma pres_fetchCombined : preserves (same (fun w => (page w, dom w))) fetchCombinedHistory.
Proof.
  unfold fetchCombinedHistory. pres. generalize (∅ : gset string, @nil js). intros acc.
  induction a as [|idx l IH] in acc |- *; cbn [combine_histories]; unfold address_history, address_text; pres.
Qed.

Lemma mapR_txid l : Forall (fun t => is_ok (txid_of t) = true) l -> mapR txid_of l = Ok (txid <$> l).
Proof.
  intros Hl. apply mapR_pure. eapply Forall_impl; [exact Hl|]. intros t Ht. cbv beta in *. unfold txid. destruct (txid_of t) eqn:E; [done|]. done.
Qed.

Lemma length_unseen known l newOnes : Forall (fun t => is_ok (txid_of t) = true) l -> NoDup (txid <$> l) ->
  unseen known l = Ok newOnes -> length newOnes = size ((list_to_set (txid <$> l) : gset string) ∖ known).
Proof.
  intros Hok Hnd. unfold unseen. rewrite mapR_txid by done. cbn [mbind res_bind]. intros Hn. apply Ok_inj in Hn as <-.
  rewrite length_fmap. revert Hnd. clear Hok. induction l as [|t l IH]; intros Hnd.
  { replace (list_to_set (txid <$> []) ∖ known : gset string) with (∅ : gset string) by (cbn; set_solver). by rewrite size_empty. }
  cbn in Hnd. apply NoDup_cons in Hnd as [Ht Hnd]. specialize (IH Hnd). cbn [fmap list_fmap zip zip_with list_to_set]. rewrite filter_cons.
  rewrite difference_union_distr_l_L. destruct (decide _) as [Hk|Hk]; cbn [fst length] in *.
  - replace ({[txid t]} ∖ known : gset string) with ({[txid t]} : gset string) by set_solver.
    rewrite size_union, size_singleton; [by f_equal|]. apply elem_of_disjoint. intros x ->%elem_of_singleton [Hx _]%elem_of_difference.
    by apply elem_of_list_to_set in Hx.
  - apply dec_stable in Hk. replace ({[txid t]} ∖ known : gset string) with (∅ : gset string) by set_solver. by rewrite (left_id_L ∅ (∪)).
Qed.

End Banner.

Definition banner_text (n : nat) : string :=
  if (n =? 1)%nat then "1 new transaction" else toString (Z.of_nat n) +:+ " new transactions".

Lemma seenTxids_run `{Crypto} `{Hd} `{Browser} l w : Forall (fun t => is_ok (txid_of t) = true) l ->
  seenTxids l w = (Ok tt, set_page (set_seen (Some (default ∅ (seen (page w)) ∪ list_to_set (txid <$> l))) (page w)) w).
Proof. intros Hl. unfold seenTxids. by rewrite mapR_txid. Qed.

(** A check of the timer never fails; it adds the transactions it fetched to
    those seen; the first one only does that; a later one shows the banner
    exactly when it fetched transactions not seen before, with their number. *)
Theorem new_tx_banner `{Crypto} `{Hd} `{Browser} l w w1 m :
  mnemonic (wal w) = Some m -> fetchCombinedHistory w = (Ok l, w1) ->
  let w' := (checkForNewTx w).2 in let ids : gset string := list_to_set (txid <$> l) in
  (checkForNewTx w).1 = Ok tt /\ seen (page w') = Some (default ∅ (seen (page w)) ∪ ids) /\
  dom w' = match seen (page w) with
           | None => dom w
           | Some known =>
               let n := size (ids ∖ known) in
               if (n =? 0)%nat then dom w
               else <["new-tx-banner.display" := "flex"]> (<["new-tx-banner-text.text" := banner_text n]> (dom w))
           end.
Proof.
  intros Hm Hf. destruct (fetchCombined_ok l w w1 Hf) as (hs & _ & Hnd & Hok & _).
  pose proof (pres_fetchCombined w) as Hp. rewrite Hf in Hp. unfold same in Hp. cbn [snd] in Hp. injection Hp as Hpage Hdom.
  assert (checkForNewTx w = (Ok tt, match seen (page w) with
    | None => (seenTxids l w1).2
    | Some known => let w2 := (seenTxids l w1).2 in let n := size ((list_to_set (txid <$> l) : gset string) ∖ known) in
        if (n =? 0)%nat then w2 else (showNewTxBanner n w2).2 end)) as ->.
  { unfold checkForNewTx, wstate, pstate, gets, try_catch, lift, mbind, M_bind. rewrite Hm, Hf, <-Hpage.
    destruct (seen (page w)) as [known|]; [|by rewrite seenTxids_run]. destruct (unseen known l) as [newOnes|e] eqn:Eu; [|by unfold unseen in Eu; rewrite mapR_txid in Eu].
    rewrite <-(length_unseen known l newOnes Hok Hnd Eu), seenTxids_run by done. by destruct newOnes. }
  rewrite seenTxids_run by done. cbn [fst snd]. rewrite <-Hpage. split; [done|].
  destruct (seen (page w)) as [known|]; [|by rewrite Hdom]. cbv zeta. destruct (_ =? 0)%nat; by rewrite Hdom.
Qed.

Definition ex_known : gset string := {["aa"]}.
Definition ex_seen_world : world := set_page (set_seen (Some ex_known) (page ex_history_world)) ex_history_world.

Lemma new_tx_banner_witness :
  let w' := (@checkForNewTx ex_histories ex_seen_world).2 in let ids : gset string := list_to_set (txid <$> ex_history) in
  (@checkForNewTx ex_histories ex_seen_world).1 = Ok tt /\ seen (page w') = Some (ex_known ∪ ids) /\
  dom w' = let n := size (ids ∖ ex_known) in
           if (n =? 0)%nat then dom ex_seen_world
           else <["new-tx-banner.display" := "flex"]> (<["new-tx-banner-text.text" := banner_text n]> (dom ex_seen_world)).
Proof.
  apply (@new_tx_banner toy_crypto (@toy_hd toy_crypto) ex_histories ex_history ex_seen_world
    (@fetchCombinedHistory ex_histories ex_seen_world).2 "abandon"); [done|]. vm_compute. reflexivity.
Defined.
