(* ===== verification/Staking.v ===== *)
(** * Staking, referrals, notifications and price alerts

    app.js lines 983-1246: the account at the staking service and everything
    shown and done with its token.  [loadStaking] starts [loadPriceAlerts] without
    waiting for it, so both are asynchronous functions whose replies come in any
    order.  It also calls itself again after an expired session, so it takes a
    depth; [loadStaking_settles] shows that a depth of two is always enough, and
    what every interleaving ends in. *)

From Stdlib Require Import FunctionalExtensionality.
From S2P Require Import Prelude Digits JsString JsInt Bytes Crypto Base58 Bech32 Address Tx Message JsNum JsNumFacts JsNumText Amount Texts Json JsonFacts Keys World Gateway Async Storage Wallet WalletFacts SendScreen AddressBook History.

Open Scope Z_scope.
Open Scope list_scope.

Section Staking.
Context `{Browser}.

(** ** Price alerts *)

(** [usd_per_fic.toLocaleString(...)] *)
Definition price_text (v : js) : res string :=
  if nullishb v then Throw (EngineError "TypeError: Cannot read properties (reading toLocaleString)") else Ok (locale_string v).

(** The alerts not triggered yet. *)
Definition pending_alerts (alerts : list js) : res (list js) :=
  flags ← mapR (fun a => t ← get a "triggered_at"; Ok (truthy t)) alerts;
  Ok (filter (fun p : bool * js => p.1 = false) (zip flags alerts)).*2.

Definition alert_row (a : js) : res string :=
  direction ← get a "direction"; threshold ← get a "threshold_usd"; id ← get a "id";
  Ok (q "<div class=`stat-row`><span>Price goes " +:+ js_toString direction +:+ " $" +:+ js_toString threshold +:+ "</span>" +:+
      q "<button class=`secondary` data-alert-id=`" +:+ js_toString id +:+ q "` data-action=`delete-price-alert`>Remove</button></div>").

(** What is shown of the price and of the alerts, once they are there. *)
Definition show_price (price : js) : M unit :=
  usd ← prop price "usd_per_fic";
  text ← lift (price_text usd);
  set_text "price-alerts-current" ("Current price: ~$" +:+ text).
Definition show_alerts (resp : js) : M unit :=
  alerts ← prop resp "alerts";
  alerts ← lift (array_of alerts);
  pending ← lift (pending_alerts alerts);
  if (length pending =? 0)%nat then set_html "price-alert-list" (q "<p class=`notice`>No alerts set.</p>")
  else html ← lift (mapR alert_row pending); set_html "price-alert-list" (join_html html).

(** A request with the token of the time, and what is shown of its reply. *)
Definition show_reply (rq : option string -> M js) (show : js -> M unit) : Co unit :=
  token ← sync (pstate stakeToken);
  resp ← await (rq token);
  sync (show resp).

Definition list_alerts : Co unit := co_try (show_reply priceAlertsList show_alerts) (fun _ => mret tt).
Definition loadPriceAlerts : Co unit :=
  _ ← co_try (price ← await currentPrice; sync (show_price price))
        (fun _ => sync (set_text "price-alerts-current" "Current price: unavailable right now"));
  list_alerts.

(** The "Remove" button of the alert [alertId]. *)
Definition delete_price_alert (alertId : string) : M unit :=
  try_catch
    (token ← pstate stakeToken;
     _ ← priceAlertsDelete token alertId;
     complete loadPriceAlerts)
    (fun e => set_text "price-alert-error" (gateway_or_string e)).

(** [!x || x <= 0] *)
Definition not_positive (x : num) : bool := falsy x || leb x (Fin 0 0).

Definition btn_price_alert_add : M unit :=
  _ ← set_text "price-alert-error" "";
  direction ← value "price-alert-direction";
  text ← value "price-alert-threshold";
  let threshold := parseFloat text in
  if not_positive threshold then set_text "price-alert-error" "Enter a USD price to alert at." else
  try_catch
    (token ← pstate stakeToken;
     _ ← priceAlertsCreate token direction threshold;
     _ ← set_value "price-alert-threshold" "";
     complete loadPriceAlerts)
    (fun e => set_text "price-alert-error" (gateway_or_string e)).

(** ** The staking screen *)

Definition stakingLoggedIn : M bool := token ← pstate stakeToken; mret (is_someb token).
Definition block_if (b : bool) : string := if b then "block" else "none".
(** [`${v / 100}`] *)
Definition hundredths (v : js) : string := num_toString (div (to_Number v) (of_Z 100)).

Definition show_status (status : js) : M unit :=
  delegated ← prop status "delegated_amount"; delegated ← lift (format_js delegated);
  _ ← set_text "stat-delegated" (delegated +:+ " FIC");
  rewards ← prop status "accrued_rewards"; rewards ← lift (format_js rewards);
  _ ← set_text "stat-rewards" (rewards +:+ " FIC");
  rate ← prop status "effective_monthly_rate_bp";
  _ ← set_text "stat-rate" (hundredths rate +:+ "% / month");
  fee ← prop status "pool_fee_bp";
  set_text "stat-fee" (hundredths fee +:+ "%").

Definition show_referral (ref : js) : M unit :=
  code ← prop ref "referral_code";
  _ ← set_text "stat-referral-code" (content_text code);
  count ← prop ref "referred_count";
  _ ← set_text "stat-referral-count" (content_text count);
  available ← prop ref "available_satoshis"; available ← lift (format_js available);
  set_text "stat-referral-available" (available +:+ " FIC").

Definition referral_row (r : js) : res string :=
  joined_at ← get r "joined_at";
  let joined := locale_date (mul (to_Number joined_at) (of_Z 1000)) in
  amount ← get r "amount_satoshis";
  withdrawn ← get r "withdrawn";
  status ← (if nullishb amount then Ok "no funded deposit yet"
            else text ← format_js amount;
                 Ok (text +:+ " FIC earned " +:+ (if truthy withdrawn then "(withdrawn)" else "(available)")));
  email ← get r "referred_email_masked";
  Ok (q "<div class=`stat-row`><span>" +:+ escapeHtml (js_toString email) +:+ " (joined " +:+ joined +:+ ")</span><span>" +:+
      escapeHtml status +:+ "</span></div>").

Definition show_referrals (resp : js) : M unit :=
  referrals ← prop resp "referrals";
  len ← prop referrals "length";
  if truthy len then
    l ← lift (array_of referrals);
    html ← lift (mapR referral_row l);
    set_html "referral-history-list" (join_html html)
  else set_html "referral-history-list" (q "<p class=`notice`>No referrals yet.</p>").

Definition is_unauthorized (e : thrown) : bool :=
  match e with GatewayError code _ => String.eqb code "unauthorized" | _ => false end.

Definition show_staking_cards (logged push : bool) : M unit :=
  _ ← set_display "staking-auth-card" (block_if (negb logged));
  _ ← set_display "staking-status-card" (block_if logged);
  _ ← set_display "push-card" (block_if (logged && push));
  _ ← set_display "price-alerts-card" (block_if (logged && push));
  _ ← set_display "staking-actions-card" (block_if logged);
  set_display "referral-card" (block_if logged).

(** The token is forgotten. *)
Definition forget_token : M unit :=
  _ ← set_pstate (set_stakeToken None);
  session_remove "fic_stake_token".

(** The [catch] of the status: true after an expired session. *)
Definition on_status_error (again : Co unit) (e : thrown) : Co bool :=
  if is_unauthorized e then
    _ ← sync forget_token;
    _ ← fork again;
    mret true
  else mret false.
(** The body of [loadStaking]; [again] is its call to itself. *)
Definition staking_body (again : Co unit) : Co unit :=
  logged ← sync stakingLoggedIn;
  _ ← sync (show_staking_cards logged push_supported);
  if negb logged then mret tt else
  _ ← fork loadPriceAlerts;
  expired ← co_try (_ ← show_reply stakingStatus show_status; mret false) (on_status_error again);
  if (expired : bool) then mret tt else
  _ ← co_try (show_reply referralStatus show_referral) (fun _ => mret tt);
  co_try (show_reply referralHistory show_referrals) (fun _ => mret tt).
(** [depth] bounds the calls of [loadStaking] to itself. *)
Fixpoint load_staking (depth : nat) : Co unit :=
  match depth with
  | O => sync (throw (EngineError "RangeError: Maximum call stack size exceeded"))
  | S depth => staking_body (load_staking depth)
  end.
Definition loadStaking : Co unit := load_staking 2.

Definition btn_referral_copy : M unit :=
  code ← element "stat-referral-code" "text";
  if String.eqb code "" || String.eqb code "-" then mret tt else
  d ← draw;
  if clipboard_ok d then
    _ ← effect ("copy " +:+ code);
    original ← element "btn-referral-copy" "text";
    _ ← set_text "btn-referral-copy" "Copied!";
    effect ("in 1500 ms, btn-referral-copy: " +:+ original)
  else mret tt.

(** ** The account *)

(** A token as it is kept: [None] for a value that counts as absent. *)
Definition token_of (v : js) : option string := if truthy v then Some (js_toString v) else None.

Definition kyc_fields : M (list (string * string)) :=
  name ← value "stake-full-name";
  dob ← value "stake-dob";
  id_type ← value "stake-id-type";
  id_number ← value "stake-id-number";
  code ← value "stake-referral-code";
  mret [("full_name", trim name); ("date_of_birth", dob); ("id_type", id_type); ("id_number", trim id_number);
        ("referral_code", trim code)].

Definition stakeAuth (action : string) : M unit :=
  _ ← set_text "stake-auth-error" "";
  email ← value "stake-email"; let email := trim email in
  password ← value "stake-password";
  try_catch
    (result ← (if String.eqb action "login" then login email password
               else kyc ← kyc_fields; signup email password kyc);
     token ← prop result "token";
     _ ← set_pstate (set_stakeToken (token_of token));
     _ ← session_set "fic_stake_token" (js_toString token);
     complete loadStaking)
    (fun e => set_text "stake-auth-error" (gateway_or_string e)).
Definition btn_stake_login : M unit := stakeAuth "login".
Definition btn_stake_signup : M unit := stakeAuth "signup".

Definition btn_stake_deposit : M unit :=
  text ← value "deposit-amount";
  let amountFic := parseFloat text in
  if not_positive amountFic then mret tt else
  _ ← set_text "staking-action-error" "";
  try_catch
    (token ← pstate stakeToken;
     result ← stakingDeposit token (amount_round amountFic);
     address ← prop result "deposit_address";
     set_text "deposit-result" ("Send funds to: " +:+ js_toString address))
    (fun e => _ ← set_text "deposit-result" ""; set_text "staking-action-error" (gateway_or_string e)).

Definition btn_stake_withdraw : M unit :=
  _ ← set_text "staking-action-error" "";
  _ ← set_text "staking-action-success" "";
  text ← value "withdraw-amount";
  let amountFic := parseFloat text in
  toAddress ← value "withdraw-address"; let toAddress := trim toAddress in
  if not_positive amountFic || String.eqb toAddress "" then
    set_text "staking-action-error" "Enter an amount and destination address."
  else
  try_catch
    (token ← pstate stakeToken;
     result ← stakingWithdraw token (amount_round amountFic) toAddress;
     txid ← prop result "txid";
     _ ← set_text "staking-action-success" ("Withdrawal broadcast: " +:+ js_toString txid);
     complete loadStaking)
    (fun e => set_text "staking-action-error" (gateway_or_string e)).

Definition btn_referral_withdraw : M unit :=
  _ ← set_text "referral-action-error" "";
  _ ← set_text "referral-action-success" "";
  toAddress ← value "referral-withdraw-address"; let toAddress := trim toAddress in
  if String.eqb toAddress "" then set_text "referral-action-error" "Enter a destination address." else
  try_catch
    (token ← pstate stakeToken;
     result ← referralWithdraw token toAddress;
     txid ← prop result "txid";
     _ ← set_text "referral-action-success" ("Withdrawal broadcast: " +:+ js_toString txid);
     complete loadStaking)
    (fun e => set_text "referral-action-error" (gateway_or_string e)).

(** ** Notifications *)

Definition url_base64_char (c : ascii) : ascii :=
  if Ascii.eqb c "-" then "+"%char else if Ascii.eqb c "_" then "/"%char else c.
Definition urlBase64ToUint8Array (base64url : string) : res (list Z) :=
  let padding := repeat_char (Z.to_nat ((4 - strlen base64url mod 4) mod 4)) "=" in
  atob (str (url_base64_char <$> chars (base64url +:+ padding))).

Definition btn_enable_push : M unit :=
  _ ← set_text "push-error" "";
  _ ← set_text "push-success" "";
  try_catch
    (d ← draw;
     if negb (String.eqb (permission_reply d) "granted") then
       set_text "push-error" "Notification permission was not granted."
     else
       resp ← pushVapidPublicKey;
       vapid ← prop resp "public_key";
       d ← draw; _ ← lift (worker_ready d);
       d ← draw; existing ← lift (existing_subscription d);
       subscription ← match existing with
                      | Some s => mret s
                      | None => key ← lift (text_field vapid); bytes ← lift (urlBase64ToUint8Array key);
                                d ← draw; lift (push_subscription d bytes)
                      end;
       token ← pstate stakeToken;
       _ ← pushSubscribe token subscription;
       set_text "push-success" "Notifications enabled.")
    (fun e => set_text "push-error" (gateway_or_string e)).

End Staking.

(** ** Facts *)

Section StakingFacts.
Context `{Browser}.

Definition logged_out (w : world) : Prop := stakeToken (page w) = None /\ session w !! "fic_stake_token" = None.
Definition cards_off : M unit := show_staking_cards false push_supported.

Lemma staking_logged_out again k w : stakeToken (page w) = None -> staking_body again k w = k (Ok tt) (cards_off w).2.
Proof.
  intros Ht. unfold staking_body, mbind, Co_bind, sync, stakingLoggedIn, pstate, gets. cbn [fst snd mret M_ret].
  unfold mbind, M_bind. cbn [fst snd]. rewrite Ht. done.
Qed.

(** An expired session: the call to itself shows the cards and returns. *)
Lemma on_status_error_ext again : (forall k w, stakeToken (page w) = None -> again k w = k (Ok tt) (cards_off w).2) ->
  on_status_error again = on_status_error (sync cards_off).
Proof.
  intros Ha. extensionality e. unfold on_status_error. destruct (is_unauthorized e); [|done]. extensionality k. extensionality w.
  unfold mbind, Co_bind, sync, fork. change (forget_token w).1 with (Ok tt). cbv beta iota. by rewrite Ha.
Qed.

Lemma load_staking_flat n : load_staking (S (S n)) = staking_body (sync cards_off).
Proof.
  cbn [load_staking]. unfold staking_body at 1. rewrite on_status_error_ext; [done|]. intros k w. by apply staking_logged_out.
Qed.

Lemma awaits_show rq show : awaits 1 (show_reply rq show).
Proof. apply (awaits_bind 0 1); [apply awaits_sync|]. intros t. apply (awaits_bind 1 0); [apply awaits_await|]. intros r. apply awaits_sync. Qed.

Lemma awaits_price_alerts : awaits 2 loadPriceAlerts.
Proof.
  apply (awaits_bind 1 1); [|intros _].
  - apply (awaits_try 1 0); [|intros e; apply awaits_sync]. apply (awaits_bind 1 0); [apply awaits_await|intros r; apply awaits_sync].
  - apply (awaits_try 1 0); [|intros e; apply awaits_ret]. apply (awaits_show priceAlertsList show_alerts).
Qed.

Lemma awaits_le {A} n m (c : Co A) : (n <= m)%nat -> awaits n c -> awaits m c.
Proof. intros Hle Hc j k Hk w. eapply all_within_le; [|by apply Hc]. lia. Qed.

Lemma awaits_staking : awaits 5 (staking_body (sync cards_off)).
Proof.
  apply (awaits_bind 0 5); [apply awaits_sync|intros logged]. apply (awaits_bind 0 5); [apply awaits_sync|intros _].
  destruct (negb logged); [by apply (awaits_le 0); [lia|apply awaits_ret]|].
  apply (awaits_bind 2 3); [apply awaits_fork, awaits_price_alerts|intros _]. apply (awaits_bind 1 2).
  - apply (awaits_try 1 0); [apply (awaits_bind 1 0); [apply awaits_show|intros _; apply awaits_ret]|]. intros e. unfold on_status_error.
    destruct (is_unauthorized e); [|apply awaits_ret]. apply (awaits_bind 0 0); [apply awaits_sync|intros _].
    apply (awaits_bind 0 0); [apply awaits_fork, awaits_sync|intros _; apply awaits_ret].
  - intros [|]; [by apply (awaits_le 0); [lia|apply awaits_ret]|].
    apply (awaits_bind 1 1); [|intros _]; (apply (awaits_try 1 0); [apply awaits_show|intros e; apply awaits_ret]).
Qed.

Lemma settled_staking again : settled (staking_body again).
Proof.
  apply settled_bind; [by apply settled_sync|intros logged]. apply settled_bind; [apply settled_sync; unfold show_staking_cards; quiet|intros _].
  destruct (negb logged); [apply settled_ret|]. apply settled_bind; [apply settled_fork|intros _]. apply settled_bind.
  - apply settled_try. intros e. unfold on_status_error. destruct (is_unauthorized e); [|apply settled_ret].
    apply settled_bind; [by apply settled_sync|intros _]. apply settled_bind; [apply settled_fork|intros _; apply settled_ret].
  - intros [|]; [apply settled_ret|]. apply settled_bind; [|intros _]; apply settled_try; intros e; apply settled_ret.
Qed.

(** ** An expired session *)

(** What the theorem follows through the interleavings. *)
Definition account (w : world) : wallet_state * option string * gmap string string * list request * option string :=
  (wal w, stakeToken (page w), session w, log w, dom w !! "staking-auth-card.display").

Lemma account_modify f : (forall w, account w = account (f w)) -> preserves (same account) (modify f).
Proof. intros Hf. by apply pres_modify. Qed.
Lemma account_element id p v : id +:+ "." +:+ p <> "staking-auth-card.display" -> preserves (same account) (set_element id p v).
Proof. intros Hid. apply account_modify. intros w. unfold account. cbn. by rewrite lookup_insert_ne. Qed.

Lemma account_show_price price : preserves (same account) (show_price price).
Proof. unfold show_price, set_text. repeat first [apply account_element; done | pres_step]. Qed.
Lemma account_show_alerts resp : preserves (same account) (show_alerts resp).
Proof. unfold show_alerts, set_html. repeat first [apply account_element; done | pres_step]. Qed.

(** A request of the gateway. *)
Definition get_request (w : world) (path : string) (auth : option string) : request := {|
  rq_method := "GET"; rq_url := baseUrl (wal w) +:+ path; rq_auth := bearer auth; rq_body := None
|}.

(** A function that waits and then only shows something, and one that before
    asks for the alerts with the token of the time. *)
Definition shows (t : task) : Prop := exists g, t = Await g /\ forall w, (g w).1 = [] /\ account (g w).2 = account w.
Definition asks_alerts (t : task) : Prop := exists f, t = Await f /\ forall w, exists t' w1,
  account w1 = account w /\ f w = ([t'], set_log (log w ++ [get_request w "/v1/price-alerts/web" (stakeToken (page w))]) w1) /\ shows t'.
(** One that finds the session expired. *)
Definition logs_out (t : task) : Prop := exists f, t = Await f /\ forall w, f w = ([], (cards_off (forget_token w).2).2).

Lemma alerts_part w : exists t', shows t' /\
  list_alerts ignored w =
    ([t'], set_log (log w ++ [get_request w "/v1/price-alerts/web" (stakeToken (page w))]) w).
Proof.
  unfold list_alerts, co_try, show_reply, mbind, Co_bind, sync, await. cbn [pstate gets fst snd]. eexists. split; [|].
  2: { f_equal. apply get_sends. }
  eexists. split; [done|]. intros w'. destruct (priceAlertsList _ w).1 as [resp|e]; [|done].
  pose proof (account_show_alerts resp w') as Hs. destruct (show_alerts resp w') as [[[]|e] w2]; cbn in *; by split.
Qed.

Lemma price_alerts_start w : exists t, asks_alerts t /\
  loadPriceAlerts ignored w = ([t], set_log (log w ++ [get_request w "/v1/price" None]) w).
Proof.
  unfold loadPriceAlerts. eexists. split; [|unfold mbind, Co_bind, co_try, await; f_equal; apply get_sends].
  eexists. split; [done|]. intros w'.
  assert (exists w1, account w1 = account w' /\
    (match (currentPrice w).1 with
     | Ok price => sync (show_price price)
     | Throw _ => fun k => k (Throw (EngineError ""))
     end) (fun r => match r with Ok _ => list_alerts ignored
       | Throw _ => sync (set_text "price-alerts-current" "Current price: unavailable right now")
                      (fun r => match r with Ok _ => list_alerts ignored | Throw e => @ignored unit (Throw e) end) end) w' = list_alerts ignored w1) as (w1 & Ha & E).
  { assert (forall w0, account w0 = account w' -> account (set_text "price-alerts-current" "Current price: unavailable right now" w0).2 = account w') as Hset.
    { intros w0 <-. symmetry. apply account_element. done. }
    destruct (currentPrice w).1 as [price|e]; [|by eexists; split; [by apply Hset|]].
    pose proof (account_show_price price w') as Hs. unfold sync. destruct (show_price price w') as [[[]|e] w2]; cbn [fst snd] in *; [by exists w2|].
    by eexists; split; [by apply (Hset w2)|]. }
  destruct (alerts_part w1) as (t' & Ht' & E'). exists t', w1. split; [done|]. split; [|done].
  injection Ha as Hw Ht Hs Hl Hd. unfold get_request in *. rewrite Hw, Ht, Hl in E'. rewrite <-E', <-E. by destruct (currentPrice w).1.
Qed.

Lemma logged_out_account w :
  account (cards_off (forget_token w).2).2 = (wal w, None, delete "fic_stake_token" (session w), log w, Some "block").
Proof.
  unfold account, cards_off, show_staking_cards, set_display, set_element. rewrite !bind_modify. cbn [modify snd dom set_dom wal session log page].
  unfold forget_token, set_pstate. rewrite bind_modify. cbn [session_remove modify snd wal session log page set_page set_session stakeToken set_stakeToken dom].
  rewrite !lookup_insert_ne by done. by rewrite lookup_insert_eq.
Qed.

Lemma staking_expired_start t m w : stakeToken (page w) = Some t ->
  let w0 := (show_staking_cards true push_supported w).2 in
  let w1 := set_log (log w ++ [get_request w "/v1/price" None]) w0 in
  (stakingStatus (Some t) w1).1 = Throw (GatewayError "unauthorized" m) ->
  exists p s, asks_alerts p /\ logs_out s /\
    start loadStaking w = ([p; s], set_log (log w ++ [get_request w "/v1/price" None; get_request w "/v1/staking/status" (Some t)]) w0).
Proof.
  intros Ht w0 w1 Hs. destruct (price_alerts_start w0) as (p & Hp & Ep).
  change (get_request w0 "/v1/price" None) with (get_request w "/v1/price" None) in Ep. change (log w0) with (log w) in Ep. fold w1 in Ep.
  unfold start, loadStaking. rewrite load_staking_flat. unfold staking_body, mbind, Co_bind, sync at 1.
  change (stakingLoggedIn w).2 with w. replace (stakingLoggedIn w).1 with (Ok true)
    by (unfold stakingLoggedIn, pstate, gets, mbind, M_bind; by rewrite Ht).
  unfold sync at 1. change (show_staking_cards true push_supported w).1 with (Ok tt). fold w0. cbn [negb]. unfold fork. rewrite Ep.
  unfold co_try, show_reply, mbind, Co_bind, sync at 1, await. cbn [pstate gets fst snd].
  replace (stakeToken (page w1)) with (Some t) by (symmetry; exact Ht). rewrite Hs.
  replace (stakingStatus (Some t) w1).2 with (set_log (log w1 ++ [get_request w "/v1/staking/status" (Some t)]) w1) by (symmetry; apply (get_sends _ _ w1)).
  eexists p, _. split; [done|]. split; [|cbn [app]; f_equal; unfold w1; cbn [log set_log]; by rewrite <-app_assoc].
  eexists. split; [done|]. intros w2. done.
Qed.

(** The last function that waits. *)
Lemma replies_last f w choices w' : (f w).1 = [] -> replies choices ([Await f], w) = Some ([], w') -> w' = (f w).2.
Proof.
  intros Hf. destruct choices as [|[|i] choices]; [done| |done]. cbn. destruct (f w) as [ts w2]. cbn in *. subst ts. cbn.
  destruct choices as [|i choices]; cbn; [by intros [= ->]|]. done.
Qed.

(** Alerts that are asked for without anything else waiting. *)
Lemma replies_alerts p w choices w' : asks_alerts p -> replies choices ([p], w) = Some ([], w') ->
  exists tok s d, account w = (wal w, tok, s, log w, d) /\
    account w' = (wal w, tok, s, log w ++ [get_request w "/v1/price-alerts/web" tok], d).
Proof.
  intros (f & -> & Hf). destruct (Hf w) as (t' & w1 & Ha & E & (g & -> & Hg)). destruct choices as [|[|i] choices]; [done| |done].
  cbn. rewrite E. cbn. intros ->%replies_last; [|apply Hg]. eexists _, _, _. split; [done|]. rewrite (proj2 (Hg _)).
  injection Ha as Hw Ht Hs Hl Hd. unfold account. cbn. by rewrite Hw, Ht, Hs, Hd.
Qed.

(** Every order in which the three replies can come. *)
Lemma expired_interleavings p s w t choices w' : asks_alerts p -> logs_out s -> stakeToken (page w) = Some t ->
  replies choices ([p; s], w) = Some ([], w') ->
  account w' = (wal w, None, delete "fic_stake_token" (session w),
    log w ++ [get_request w "/v1/price-alerts/web" (if bool_decide (head choices = Some 1%nat) then None else Some t)], Some "block").
Proof.
  intros Hp (f & -> & Hf) Ht. destruct choices as [|[|[|i]] choices]; [done| | |done].
  - destruct Hp as (h & -> & Hh). destruct (Hh w) as (t' & w1 & Ha & E & (g & -> & Hg)). cbn. rewrite E. cbn. rewrite Ht.
    set (rq := get_request w "/v1/price-alerts/web" (Some t)). injection Ha as Hw1 Ht1 Hs1 Hl1 Hd1.
    destruct choices as [|[|[|i]] choices]; [done| | |done]; cbn.
    + destruct (g _) as [ts w2] eqn:Eg. destruct (Hg (set_log (log w ++ [rq]) w1)) as [H1 H2]. rewrite Eg in H1, H2. cbn in H1, H2. subst ts. cbn.
      intros ->%replies_last; [|by rewrite Hf]. rewrite Hf. cbn [snd]. rewrite logged_out_account. injection H2 as -> _ -> -> _. cbn. by rewrite Hw1, Hs1.
    + rewrite Hf. cbn. intros ->%replies_last; [|apply Hg]. rewrite (proj2 (Hg _)), logged_out_account. cbn. by rewrite Hw1, Hs1.
  - cbn. rewrite Hf. cbn. intros (tok & s & d & Ha & ->)%replies_alerts; [|done]. rewrite logged_out_account in Ha.
    injection Ha as <- <- <-. rewrite bool_decide_true by done. done.
Qed.

End StakingFacts.

(** C33: [loadStaking] and the [loadPriceAlerts] it starts beside itself, with the
    replies in any order.  It calls itself at most once, since any greater depth
    is the same function; its promise is never rejected; and no interleaving
    takes more than five replies.  When the status request is answered
    "unauthorized", every interleaving ends logged out, with the token gone from
    the session storage too and the login card shown.  Exactly three requests are
    sent: the price, the status, and the list of the alerts, which goes out
    without a token when the status was answered before the price. *)
Theorem loadStaking_settles `{Browser} n w :
  load_staking (S (S n)) = loadStaking /\ settled loadStaking /\
  (forall choices s, replies choices (start loadStaking w) = Some s -> (length choices <= 5)%nat) /\
  forall t m choices w',
    let w0 := (show_staking_cards true push_supported w).2 in
    let w1 := set_log (log w ++ [get_request w "/v1/price" None]) w0 in
    stakeToken (page w) = Some t -> (stakingStatus (Some t) w1).1 = Throw (GatewayError "unauthorized" m) ->
    replies choices (start loadStaking w) = Some ([], w') ->
    logged_out w' /\ dom w' !! "staking-auth-card.display" = Some "block" /\
    log w' = log w ++ [get_request w "/v1/price" None; get_request w "/v1/staking/status" (Some t);
      get_request w "/v1/price-alerts/web" (if bool_decide (head choices = Some 1%nat) then None else Some t)].
Proof.
  unfold loadStaking at 1 2 3. rewrite !load_staking_flat. split; [done|]. split; [apply settled_staking|]. split.
  - intros choices s. apply replies_within. apply (awaits_staking 0%nat ignored). intros r w'. by exists [].
  - intros t m choices w' Ht Hs. destruct (staking_expired_start t m w Ht Hs) as (p & s & Hp & Hout & ->).
    intros Ha%(expired_interleavings _ _ _ t); [|done|done|done]. injection Ha as Hw Hs' Hss Hl Hd. cbn in Hss, Hl.
    split; [split; [done|rewrite Hss; apply lookup_delete_eq]|]. split; [done|]. rewrite Hl, <-app_assoc. done.
Qed.

(** A service that has forgotten every session, and a page that has not. *)
Definition ex_expired : Browser := {|
  fetch_reply := fun _ _ => Ok {| rs_ok := false; rs_status := 401;
    rs_json := Ok (JObj [("error", JObj [("code", JStr "unauthorized"); ("message", JStr "expired")])]) |};
  random_bytes := @random_bytes offline; math_random := @math_random offline; confirm_reply := fun _ => true;
  permission_reply := fun _ => "granted"; push_supported := true;
  worker_ready := fun _ => Ok tt; existing_subscription := fun _ => Ok None; push_subscription := fun _ _ => Ok (JObj []);
  qr_accepts := fun _ => true; clipboard_ok := fun _ => true; today := fun _ => "2026-01-01";
  locale_date := num_toString; locale_string := js_toString
|}.
Definition ex_session : world :=
  set_session {["fic_stake_token" := "abc"]} (set_page (set_stakeToken (Some "abc") (page empty_world)) empty_world).
Definition ex_run (choices : list nat) : option (list task * world) := replies choices (start (@loadStaking ex_expired) ex_session).

Lemma loadStaking_settles_witness :
  exists w1 w2, ex_run [1; 0; 0]%nat = Some ([], w1) /\ ex_run [0; 1; 0]%nat = Some ([], w2) /\ logged_out w1 /\ logged_out w2 /\
    rq_auth <$> log w1 = [None; Some "Bearer abc"; None] /\ rq_auth <$> log w2 = [None; Some "Bearer abc"; Some "Bearer abc"].
Proof.
  destruct (@loadStaking_settles ex_expired 0 ex_session) as (_ & _ & _ & Hrun).
  destruct (ex_run [1; 0; 0]%nat) as [[ts1 w1]|] eqn:E1; [|exfalso; revert E1; vm_compute; discriminate].
  destruct (ex_run [0; 1; 0]%nat) as [[ts2 w2]|] eqn:E2; [|exfalso; revert E2; vm_compute; discriminate].
  assert (ts1 = []) as -> by (revert E1; vm_compute; congruence). assert (ts2 = []) as -> by (revert E2; vm_compute; congruence).
  destruct (Hrun "abc" "expired" _ w1 eq_refl ltac:(vm_compute; reflexivity) E1) as (Ho1 & _ & Hl1).
  destruct (Hrun "abc" "expired" _ w2 eq_refl ltac:(vm_compute; reflexivity) E2) as (Ho2 & _ & Hl2).
  exists w1, w2. do 2 (split; [reflexivity|]). split; [exact Ho1|]. split; [exact Ho2|]. rewrite Hl1, Hl2. split; reflexivity.
Defined.
