(* ===== verification/MultisigScreen.v ===== *)
(** * The multisig screen

    app.js lines 1248-1421: creating a shared address, proposing a payment from
    it, signing and broadcasting.  A proposal travels between cosigners as the
    JSON text of a field; it is read into the record of Multisig.v, and a
    signature is written back into the JSON value in place. *)

From S2P Require Import Prelude Digits JsString JsInt Bytes Crypto Base58 Bech32 Address Tx Multisig Message JsNum JsNumFacts JsNumText Amount Texts Json JsonFacts Keys World Gateway Storage Wallet WalletFacts SendScreen AddressBook History.

Open Scope Z_scope.
Open Scope list_scope.

(** ** The threshold as a number *)

(** [createMultisigRedeemScript(m, keys)] with [None] for [NaN]: both comparisons
    with [NaN] are false and the byte [0x50 + NaN] is stored as 0. *)
Definition createMultisigRedeemScript_num (m : option Z) (pubkeysCompressed : list (list Z)) : res (list Z) :=
  match m with
  | Some m => createMultisigRedeemScript m pubkeysCompressed
  | None =>
      let n := Z.of_nat (length pubkeysCompressed) in
      _ ← throw_if (16 <? n) (JsError "at most 16 pubkeys supported (OP_N range)");
      keys ← mapR redeem_part pubkeysCompressed;
      op_n ← opN n;
      Ok (concatBytes ([u8arr [0]] ++ mjoin keys ++ [u8arr [op_n; OP_CHECKMULTISIG]]))
  end.

(** ** Proposals as JSON *)

Definition input_json (i : proposal_input) : js :=
  JObj [("txid", JStr (pi_txid i)); ("vout", JNum (of_Z (pi_vout i)));
        ("valueSatoshis", JNum (of_Z (pi_valueSatoshis i))); ("redeemScript", JStr (pi_redeemScript i))].
Definition output_json (o : proposal_output) : js :=
  JObj [("scriptPubKey", JStr (po_scriptPubKey o)); ("valueSatoshis", JNum (of_Z (po_valueSatoshis o)))].
(** The object [createMultisigProposal] returns. *)
Definition proposal_json (p : proposal) : js :=
  JObj [("version", JNum (of_Z (p_version p))); ("locktime", JNum (of_Z (p_locktime p)));
        ("inputs", JArr (input_json <$> p_inputs p)); ("outputs", JArr (output_json <$> p_outputs p));
        ("signatures", JArr ((fun s => JObj ((fun kv => (kv.1, JStr kv.2)) <$> map_to_list s)) <$> p_signatures p))].

Definition read_input (v : js) : res proposal_input :=
  txid ← get v "txid"; txid ← text_field txid;
  vout ← get v "vout"; vout ← int_field vout;
  value ← get v "valueSatoshis"; value ← int_field value;
  script ← get v "redeemScript"; script ← text_field script;
  Ok {| pi_txid := txid; pi_vout := vout; pi_valueSatoshis := value; pi_redeemScript := script |}.
Definition read_output (v : js) : res proposal_output :=
  script ← get v "scriptPubKey"; script ← text_field script;
  value ← get v "valueSatoshis"; value ← int_field value;
  Ok {| po_scriptPubKey := script; po_valueSatoshis := value |}.
Definition read_collected (v : js) : res (gmap string string) :=
  match v with
  | JObj l => kvs ← mapR (fun kv => s ← text_field kv.2; Ok (kv.1, s)) l; Ok (list_to_map kvs)
  | _ => Throw (EngineError "TypeError: Cannot read properties of undefined")
  end.
(** The fields of a proposal; one that is missing or of another type is refused. *)
Definition read_proposal (v : js) : res proposal :=
  version ← get v "version"; version ← int_field version;
  locktime ← get v "locktime"; locktime ← int_field locktime;
  inputs ← get v "inputs"; inputs ← array_of inputs; inputs ← mapR read_input inputs;
  outputs ← get v "outputs"; outputs ← array_of outputs; outputs ← mapR read_output outputs;
  signatures ← get v "signatures"; signatures ← array_of signatures; signatures ← mapR read_collected signatures;
  Ok {| p_version := version; p_locktime := locktime; p_inputs := inputs; p_outputs := outputs; p_signatures := signatures |}.

(** [proposal.signatures[i][key] = sig] for the signatures of [key] in [collected]. *)
Definition put_signature (key : string) (v : js) (collected : gmap string string) : js :=
  match v, collected !! key with
  | JObj l, Some s => JObj (obj_set l key (JStr s))
  | _, _ => v
  end.
Definition put_signatures (v : js) (key : string) (sigs : list (gmap string string)) : js :=
  match v with
  | JObj l =>
      match obj_get l "signatures" with
      | JArr maps => JObj (obj_set l "signatures" (JArr (zip_with (put_signature key) maps sigs)))
      | _ => v
      end
  | _ => v
  end.

(** ** Coin selection *)

Definition multisigVsize (redeemLength inputs : Z) : Z := 10 + inputs * (redeemLength + 150) + 2 * 34.
Fixpoint select_multisig (feeRate amount redeemLength : Z) (chosen : list js) (totalIn : Z) (l : list js)
    : res (list js * Z) :=
  match l with
  | [] => Ok (chosen, totalIn)
  | u :: l =>
      let chosen := chosen ++ [u] in
      v ← get u "value"; v ← to_BigInt v;
      let totalIn := totalIn + v in
      let feeSatoshis := feeRate * multisigVsize redeemLength (Z.of_nat (length chosen)) in
      if amount + feeSatoshis <=? totalIn then Ok (chosen, totalIn)
      else select_multisig feeRate amount redeemLength chosen totalIn l
  end.

Definition multisig_utxo (redeemScript : list Z) (u : js) : res multisig_input :=
  txid ← get u "txid"; txid ← hex_field txid;
  vout ← get u "vout";
  v ← get u "value";
  Ok {| mi_txid := reverse txid; mi_vout := num_trunc (to_Number vout); mi_valueSatoshis := num_trunc (to_Number v);
        mi_redeemScript := redeemScript |}.

Section Screen.
Context `{Crypto} `{Hd} `{Browser}.

Definition loadMultisig : M unit := key ← ensureKey 0; set_text "my-pubkey" (bytesToHex (publicKey key)).

(** The keys typed, one per line. *)
Definition pubkey_lines (text : string) : list string :=
  filter (fun l => l <> "") (trim <$> split (trim text) (chr 10)).

Definition btn_ms_create : M unit :=
  _ ← set_text "ms-create-error" "";
  _ ← set_display "ms-create-result" "none";
  try_catch
    (key ← ensureKey 0;
     text ← value "ms-pubkeys";
     let cosignerPubkeys := hexToBytes <$> pubkey_lines text in
     let allPubkeys := publicKey key :: cosignerPubkeys in
     m ← value "ms-m";
     redeemScript ← lift (createMultisigRedeemScript_num (parseInt m 10) allPubkeys);
     network ← current_network;
     address ← lift (multisigAddress redeemScript network);
     _ ← set_text "ms-redeem-script" (bytesToHex redeemScript);
     _ ← set_text "ms-address" address;
     _ ← set_display "ms-create-result" "block";
     _ ← set_value "ms-propose-address" address;
     set_value "ms-propose-redeem" (bytesToHex redeemScript))
    (fun e => set_text "ms-create-error" (message_or_string e)).

(** The outputs of a proposal: the payment and, if positive, the change back to the shared address. *)
Definition multisig_outputs (outScript redeemScript : list Z) (amount change : Z) : res (list tx_output) :=
  v ← number_value amount;
  let pay := {| scriptPubKey := outScript; valueSatoshis := v |} in
  if 0 <? change then
    c ← number_value change;
    Ok [pay; {| scriptPubKey := p2shScriptPubKey (hash160 redeemScript); valueSatoshis := c |}]
  else Ok [pay].

(** From the fields to the proposal; [None] when the funds do not suffice. *)
Definition propose (address redeemScriptHex toAddress : string) (amountFic : num) : M (option proposal) :=
  let redeemScript := hexToBytes redeemScriptHex in
  network ← current_network;
  decoded ← lift (decodeAddress toAddress network);
  let outScript := script_for_address decoded in
  amountSatoshis ← lift (amount_satoshis amountFic);
  utxoResp ← utxos address;
  feeResp ← feeEstimate 6;
  feeRate ← fee_rate feeResp;
  us ← prop utxoResp "utxos"; us ← lift (elements us);
  let redeemLength := Z.of_nat (length redeemScript) in
  '(chosen, totalIn) ← lift (select_multisig feeRate amountSatoshis redeemLength [] 0 us);
  let feeSatoshis := feeRate * multisigVsize redeemLength (Z.of_nat (length chosen)) in
  if totalIn <? amountSatoshis + feeSatoshis then
    _ ← set_text "ms-propose-error" ("Insufficient funds at this address: have " +:+ formatFic totalIn +:+ ", need " +:+
                                     formatFic (amountSatoshis + feeSatoshis));
    mret None
  else
    let change := totalIn - amountSatoshis - feeSatoshis in
    outputs ← lift (multisig_outputs outScript redeemScript amountSatoshis change);
    inputs ← lift (mapR (multisig_utxo redeemScript) chosen);
    mret (Some (createMultisigProposal inputs outputs 0)).

Definition btn_ms_propose : M unit :=
  _ ← set_text "ms-propose-error" "";
  try_catch
    (address ← value "ms-propose-address"; let address := trim address in
     redeemScriptHex ← value "ms-propose-redeem"; let redeemScriptHex := trim redeemScriptHex in
     toAddress ← value "ms-propose-to"; let toAddress := trim toAddress in
     amount ← value "ms-propose-amount";
     let amountFic := parseFloat amount in
     if String.eqb address "" || String.eqb redeemScriptHex "" || String.eqb toAddress "" || falsy amountFic || leb amountFic (Fin 0 0) then
       set_text "ms-propose-error" "Fill in every field."
     else
       p ← propose address redeemScriptHex toAddress amountFic;
       match p with
       | Some p => set_value "ms-proposal-json" (JSON_stringify2 (proposal_json p))
       | None => mret tt
       end)
    (fun e => set_text "ms-propose-error" (message_or_string e)).

(** [signMultisigProposal(proposal, ...)] on the JSON value, in place. *)
Definition sign_json (v : js) (key : key) : res js :=
  p ← read_proposal v;
  signed ← signMultisigProposal p (privateKey key) (publicKey key);
  Ok (put_signatures v (bytesToHex (publicKey key)) (p_signatures signed)).

Definition btn_ms_sign : M unit :=
  _ ← set_text "ms-sign-error" "";
  _ ← set_text "ms-sign-success" "";
  try_catch
    (key ← ensureKey 0;
     text ← value "ms-proposal-json";
     proposal ← lift (JSON_parse text);
     signed ← lift (sign_json proposal key);
     _ ← set_value "ms-proposal-json" (JSON_stringify2 signed);
     set_text "ms-sign-success"
       "Signed with your key. Send this JSON to the next cosigner, or finalize if enough signatures are collected.")
    (fun e => set_text "ms-sign-error" (message_or_string e)).

Definition btn_ms_broadcast : M unit :=
  _ ← set_text "ms-sign-error" "";
  _ ← set_text "ms-sign-success" "";
  try_catch
    (text ← value "ms-proposal-json";
     proposal ← lift (JSON_parse text);
     p ← lift (read_proposal proposal);
     rawTx ← lift (finalizeMultisigTransaction p);
     result ← broadcast (bytesToHex rawTx);
     txid ← prop result "txid";
     set_text "ms-sign-success" ("Broadcast: " +:+ js_toString txid))
    (fun e => set_text "ms-sign-error" (if is_GatewayError e then err_message e else message_or_string e)).

Definition MS_QR_MAX_CHARS : Z := 1500.
Definition btn_ms_show_qr : M unit :=
  _ ← set_text "ms-qr-error" "";
  json ← value "ms-proposal-json"; let json := trim json in
  if String.eqb json "" then set_text "ms-qr-error" "Nothing to show -- paste or create a proposal first."
  else if MS_QR_MAX_CHARS <? strlen json then
    set_text "ms-qr-error" ("This proposal is too large for a reliable QR code (" +:+ toString (strlen json) +:+
                            " characters). Share the JSON text directly instead.")
  else
    _ ← set_display "ms-qr-overlay" "flex";
    renderQr "ms-qr-canvas" json.
Definition btn_ms_qr_close : M unit := set_display "ms-qr-overlay" "none".
(** The result of the scanner opened by the scan button. *)
Definition scanned_proposal (text : string) : M unit := set_value "ms-proposal-json" text.

End Screen.
