(* ===== verification/MultisigFlow.v ===== *)
(** * A proposal passed between devices

    The multisig screen hands a proposal on as JSON text.  The text a chain of
    cosigners produces stands for the proposal the same cosigners produce with
    the functions of crypto.js, so what MultisigNode.v shows of those holds of
    the transaction that the last device broadcasts. *)

From S2P Require Import Prelude Digits JsString JsInt Bytes Crypto Base58 Bech32 Address Tx NodeTx ScriptError NodeScript ScriptNum Interpreter InterpFacts Verify VerifyFacts Spend Multisig MultisigNode Message JsNum JsNumFacts JsNumText Amount Texts Json JsonFacts Keys World Gateway Storage Wallet WalletFacts SendScreen SendFacts SentLog AddressBook History MultisigScreen.

Open Scope Z_scope.
Open Scope list_scope.

(** ** Reading back *)

(** The fields of a proposal that are numbers fit a double. *)
Definition small_input (i : proposal_input) : Prop := Z.abs (pi_vout i) < 2 ^ 53 /\ Z.abs (pi_valueSatoshis i) < 2 ^ 53.
Definition small_proposal (p : proposal) : Prop :=
  Z.abs (p_version p) < 2 ^ 53 /\ Z.abs (p_locktime p) < 2 ^ 53 /\ Forall small_input (p_inputs p) /\
  Forall (fun o => Z.abs (po_valueSatoshis o) < 2 ^ 53) (p_outputs p).

(** The signatures of one input, in the order they were added. *)
Definition collected_json (l : list (string * string)) : js := JObj ((fun kv => (kv.1, JStr kv.2)) <$> l).
(** The JSON value of [p] with its signatures listed as in [maps]. *)
Definition shown (p : proposal) (maps : list (list (string * string))) : js :=
  JObj [("version", JNum (of_Z (p_version p))); ("locktime", JNum (of_Z (p_locktime p)));
        ("inputs", JArr (input_json <$> p_inputs p)); ("outputs", JArr (output_json <$> p_outputs p));
        ("signatures", JArr (collected_json <$> maps))].
Definition lists (p : proposal) (maps : list (list (string * string))) : Prop :=
  Forall2 (fun l c => NoDup l.*1 /\ list_to_map l = c) maps (p_signatures p).

Lemma read_input_back i : small_input i -> read_input (input_json i) = Ok i.
Proof. intros [H1 H2]. unfold read_input, input_json. cbn [get obj_get String.eqb Ascii.eqb Bool.eqb mbind res_bind text_field]. rewrite !int_field_of_Z by done. by destruct i. Qed.
Lemma read_output_back o : Z.abs (po_valueSatoshis o) < 2 ^ 53 -> read_output (output_json o) = Ok o.
Proof. intros H1. unfold read_output, output_json. cbn [get obj_get String.eqb Ascii.eqb Bool.eqb mbind res_bind text_field]. rewrite !int_field_of_Z by done. by destruct o. Qed.
Lemma read_collected_back l : read_collected (collected_json l) = Ok (list_to_map l).
Proof.
  unfold read_collected, collected_json. assert (mapR (fun kv : string * js => s ← text_field kv.2; Ok (kv.1, s)) ((fun kv : string * string => (kv.1, JStr kv.2)) <$> l) = Ok l) as ->; [|done].
  induction l as [|[k s] l IH]; [done|]. cbn. by rewrite IH.
Qed.

Lemma mapR_fmap {A B C} (f : B -> res C) (g : A -> B) (h : A -> C) l : Forall (fun x => f (g x) = Ok (h x)) l -> mapR f (g <$> l) = Ok (h <$> l).
Proof. induction 1 as [|x l Hx _ IH]; [done|]. cbn. rewrite Hx. cbn. by rewrite IH. Qed.

Lemma read_shown p maps : small_proposal p -> lists p maps -> read_proposal (shown p maps) = Ok p.
Proof.
  intros (Hv & Hl & Hi & Ho) Hm. unfold read_proposal, shown.
  cbn [get obj_get String.eqb Ascii.eqb Bool.eqb mbind res_bind array_of]. rewrite !int_field_of_Z by done. cbn [mbind res_bind].
  rewrite (mapR_fmap read_input input_json id), (mapR_fmap read_output output_json id), (mapR_fmap read_collected collected_json list_to_map).
  - cbn [mbind res_bind]. rewrite !list_fmap_id. f_equal. destruct p as [v lt ins outs sigs]. cbn in *. f_equal.
    unfold lists in Hm. cbn in Hm. clear -Hm. induction Hm as [|l c ? ? [_ <-] _ IH]; [done|]. cbn. by f_equal.
  - apply Forall_true. intros l. apply read_collected_back.
  - eapply Forall_impl; [exact Ho|]. apply read_output_back.
  - eapply Forall_impl; [exact Hi|]. apply read_input_back.
Qed.

Lemma shown_json_ok p maps : small_proposal p -> lists p maps -> json_ok (shown p maps).
Proof.
  intros (Hv & Hl & Hi & Ho) Hm. apply ok_obj; [apply (bool_decide_unpack _); by vm_compute|].
  repeat apply Forall_cons_2; [apply ok_num; by apply of_Z_is_double|apply ok_num; by apply of_Z_is_double|apply ok_arr, Forall_fmap|apply ok_arr, Forall_fmap|apply ok_arr, Forall_fmap|apply Forall_nil_2].
  - eapply Forall_impl; [exact Hi|]. intros i [H1 H2]. apply ok_obj; [apply (bool_decide_unpack _); by vm_compute|].
    repeat apply Forall_cons_2; [apply ok_str|apply ok_num; by apply of_Z_is_double|apply ok_num; by apply of_Z_is_double|apply ok_str|apply Forall_nil_2].
  - eapply Forall_impl; [exact Ho|]. intros o H1. apply ok_obj; [apply (bool_decide_unpack _); by vm_compute|].
    repeat apply Forall_cons_2; [apply ok_str|apply ok_num; by apply of_Z_is_double|apply Forall_nil_2].
  - unfold lists in Hm. clear -Hm. induction Hm as [|l c ? ? [Hnd _] _ IH]; [apply Forall_nil_2|]. apply Forall_cons_2; [|done]. apply ok_obj.
    + rewrite <-list_fmap_compose. exact Hnd.
    + apply Forall_fmap, Forall_true. intros kv. apply ok_str.
Qed.

Lemma parse_shown p maps : small_proposal p -> lists p maps -> JSON_parse (JSON_stringify2 (shown p maps)) = Ok (shown p maps).
Proof. intros Hp Hm. apply parse_write; [by apply shown_json_ok|]. repeat apply Forall_cons_2; done || apply Forall_nil_2. Qed.

(** ** Signing in place *)

(** [o[k] = s] on the listed signatures. *)
Fixpoint assoc_set (l : list (string * string)) (k s : string) : list (string * string) :=
  match l with
  | [] => [(k, s)]
  | (k', s') :: l => if String.eqb k' k then (k', s) :: l else (k', s') :: assoc_set l k s
  end.

Lemma assoc_set_keys l k s : (assoc_set l k s).*1 = if bool_decide (k ∈ l.*1) then l.*1 else l.*1 ++ [k].
Proof.
  induction l as [|[k' s'] l IH]; [done|]. cbn. destruct (String.eqb_spec k' k) as [->|Hne].
  - by rewrite bool_decide_eq_true_2 by (by left).
  - cbn. rewrite IH. destruct (bool_decide (k ∈ l.*1)) eqn:E.
    + rewrite bool_decide_eq_true_2; [done|]. right. by apply bool_decide_eq_true in E.
    + rewrite bool_decide_eq_false_2; [done|]. apply bool_decide_eq_false in E. intros [<-|?]%elem_of_cons; done.
Qed.

Lemma assoc_set_nodup l k s : NoDup l.*1 -> NoDup (assoc_set l k s).*1.
Proof.
  intros Hnd. rewrite assoc_set_keys. case_bool_decide as Hk; [done|]. apply NoDup_app. split; [done|].
  split; [|apply NoDup_singleton]. by intros x Hx ->%list_elem_of_singleton.
Qed.

Lemma assoc_set_map l k s : (list_to_map (assoc_set l k s) : gmap string string) = <[k := s]> (list_to_map l).
Proof.
  induction l as [|[k' s'] l IH]; [done|]. cbn. destruct (String.eqb_spec k' k) as [->|Hne]; cbn.
  - by rewrite insert_insert_eq.
  - rewrite IH. by rewrite insert_insert_ne.
Qed.

Lemma put_collected l k c : put_signature k (collected_json l) c =
  collected_json (match c !! k with Some s => assoc_set l k s | None => l end).
Proof.
  unfold put_signature, collected_json. destruct (c !! k) as [s|]; [|done]. f_equal.
  induction l as [|[k' s'] l IH]; [done|]. cbn. destruct (String.eqb k' k); [done|]. cbn. by f_equal.
Qed.

(** What a signer adds to one input is at most its own entry. *)
Lemma put_added l k (c a : gmap string string) : NoDup l.*1 -> list_to_map l = c -> (a = ∅ \/ exists s, a = {[k := s]}) ->
  let l' := match (a ∪ c) !! k with Some s => assoc_set l k s | None => l end in NoDup l'.*1 /\ list_to_map l' = a ∪ c.
Proof.
  intros Hnd Hl Ha l'. unfold l'. split; [destruct (_ !! k); [by apply assoc_set_nodup|done]|].
  destruct Ha as [-> | [s ->]].
  - rewrite (left_id_L ∅ (∪)). destruct (c !! k) as [s|] eqn:E; [|done]. rewrite assoc_set_map, Hl. by apply insert_id.
  - rewrite <-insert_union_singleton_l, lookup_insert_eq, assoc_set_map. by rewrite Hl.
Qed.

Section Flow.
Context `{CryptoLaws} `{Hd} {HL : HdLaws} `{Browser}.

Lemma added_one p k pub i a : added p k pub i = Ok a -> a = ∅ \/ exists s, a = {[bytesToHex pub := s]}.
Proof.
  unfold added. intros (inp & _ & Ha)%res_bind_ok. destruct (scriptContainsPubkey _ _); [|apply Ok_inj in Ha as <-; by left].
  apply res_bind_ok in Ha as (sg & _ & Ha). apply Ok_inj in Ha as <-. right. by eexists.
Qed.

Lemma sign_shown p maps k q : wf_proposal p -> small_proposal p -> lists p maps ->
  signMultisigProposal p (privateKey k) (publicKey k) = Ok q ->
  exists maps', sign_json (shown p maps) k = Ok (shown q maps') /\ wf_proposal q /\ small_proposal q /\ lists q maps'.
Proof.
  intros Hwf Hs Hl Hq. set (key := bytesToHex (publicKey k)).
  exists (zip_with (fun l c => match c !! key with Some s => assoc_set l key s | None => l end) maps (p_signatures q)).
  unfold sign_json. rewrite (read_shown p maps Hs Hl). cbn [mbind res_bind]. rewrite Hq. cbn [mbind res_bind].
  rewrite sign_eq in Hq by done. apply res_bind_ok in Hq as (adds & Ha & Hq). apply Ok_inj in Hq as <-.
  assert (length adds = length (p_signatures p)) as Hlen by (apply mapR_ok, Forall2_length in Ha; rewrite length_seq in Ha; by rewrite Hwf).
  cbn [p_signatures set_signatures]. split; [|split; [|split; [done|]]].
  - unfold put_signatures, shown. cbn [obj_get obj_set String.eqb Ascii.eqb Bool.eqb]. fold key.
    assert (forall cs, zip_with (put_signature key) (collected_json <$> maps) cs =
      collected_json <$> zip_with (fun l c => match c !! key with Some s => assoc_set l key s | None => l end) maps cs) as ->; [|done].
    clear. induction maps as [|l maps IH]; intros [|c cs]; [done..|]. cbn [zip_with fmap list_fmap]. rewrite put_collected. by f_equal.
  - unfold wf_proposal in *. cbn. rewrite length_zip_with. lia.
  - unfold lists. cbn [p_signatures set_signatures].
    assert (Forall (fun a => a = ∅ \/ exists s, a = {[key := s]}) adds) as Hadds.
    { apply mapR_ok in Ha. clear -Ha. induction Ha as [|i a ? ? Hi _ IH]; [apply Forall_nil_2|]. apply Forall_cons_2; [by eapply added_one|done]. }
    unfold lists in Hl. clear -Hl Hadds Hlen. revert adds Hadds Hlen. induction Hl as [|l c maps sigs [Hnd Hc] _ IH]; intros [|a adds] Hadds Hlen; try done.
    apply Forall_cons_1 in Hadds as [Ha Hadds]. cbn. apply Forall2_cons_2; [by apply put_added|]. apply IH; [done|]. by injection Hlen.
Qed.

(** ** Devices *)

(** The user pastes a text into the proposal's field. *)
Definition paste (text : string) (w : world) : world := (set_value "ms-proposal-json" text w).2.
(** The text in the field of [w] after the user pasted [text] and pressed "Sign". *)
Definition sign_on (text : string) (w : world) : string :=
  default "" (dom (btn_ms_sign (paste text w)).2 !! "ms-proposal-json.value").

Lemma ensureKey_wal i w1 w2 : wal w1 = wal w2 -> (ensureKey i w1).1 = (ensureKey i w2).1.
Proof.
  intros E. unfold ensureKey, current_network, wstate, set_wstate, gets, modify, lift, mret, M_ret, mbind, M_bind.
  destruct w1, w2. cbn in E. subst. cbn. repeat (case_match; simplify_eq/=; try done).
Qed.

Lemma ensureKey_run i w k : (ensureKey i w).1 = Ok k -> exists s, ensureKey i w = (Ok k, set_wal s w).
Proof. intros E. destruct (ensureKey_spec i w) as (r & s & E' & _). rewrite E' in *. cbn in E. subst r. by exists s. Qed.

Lemma sign_on_shown p maps k q w : wf_proposal p -> small_proposal p -> lists p maps -> (ensureKey 0 w).1 = Ok k ->
  signMultisigProposal p (privateKey k) (publicKey k) = Ok q ->
  exists maps', sign_on (JSON_stringify2 (shown p maps)) w = JSON_stringify2 (shown q maps') /\
    wf_proposal q /\ small_proposal q /\ lists q maps'.
Proof.
  intros Hwf Hs Hl Hk Hq. destruct (sign_shown p maps k q Hwf Hs Hl Hq) as (maps' & Hj & Hq'). exists maps'. split; [|done].
  unfold sign_on, btn_ms_sign, set_text, set_element. rewrite !bind_modify. set (w1 := set_dom _ _).
  assert ((ensureKey 0 w1).1 = Ok k) as Hk1 by (rewrite <-Hk; by apply ensureKey_wal).
  destruct (ensureKey_run 0 w1 k Hk1) as (s & Es). unfold try_catch. unfold mbind at 1, M_bind at 1. rewrite Es.
  unfold value, element. rewrite bind_gets.
  assert (default "" (dom (set_wal s w1) !! ("ms-proposal-json" +:+ "." +:+ "value")) = JSON_stringify2 (shown p maps)) as ->
    by (unfold w1; cbn [dom set_dom set_wal paste set_value set_element modify snd]; by rewrite !lookup_insert_ne, lookup_insert_eq by done).
  rewrite !bind_lift, (parse_shown p maps Hs Hl), bind_lift, Hj. unfold set_value, set_element, modify, mbind, M_bind.
  cbn [snd dom set_dom]. by rewrite lookup_insert_ne, lookup_insert_eq by done.
Qed.

Definition sign_with (p : proposal) (k : key) : res proposal := signMultisigProposal p (privateKey k) (publicKey k).

Lemma sign_chain ws ks p maps q : Forall2 (fun w k => (ensureKey 0 w).1 = Ok k) ws ks ->
  wf_proposal p -> small_proposal p -> lists p maps -> foldR sign_with p ks = Ok q ->
  exists maps', foldl sign_on (JSON_stringify2 (shown p maps)) ws = JSON_stringify2 (shown q maps') /\ small_proposal q /\ lists q maps'.
Proof.
  intros Hws. revert p maps. induction Hws as [|w k ws ks Hk _ IH]; intros p maps Hwf Hs Hl Hq.
  - injection Hq as <-. by exists maps.
  - cbn [foldR] in Hq. apply res_bind_ok in Hq as (p1 & Hp1 & Hq).
    destruct (sign_on_shown p maps k p1 w Hwf Hs Hl Hk Hp1) as (maps1 & E & Hwf1 & Hs1 & Hl1). cbn [foldl]. rewrite E. by apply IH.
Qed.

Lemma created_shown inputs outputs lt : let p := createMultisigProposal inputs outputs lt in
  proposal_json p = shown p (replicate (length inputs) []) /\ wf_proposal p /\ lists p (replicate (length inputs) []).
Proof.
  intros p. unfold p, proposal_json, shown, lists, wf_proposal, createMultisigProposal. cbn [p_signatures p_version p_locktime p_inputs p_outputs].
  split; [|split; [by rewrite !length_fmap|]].
  - repeat (done || f_equal). clear p. induction inputs as [|i l IH]; [done|]. cbn. by rewrite IH, map_to_list_empty.
  - induction inputs as [|i l IH]; [by cbn|]. cbn. apply Forall2_cons. split; [|exact IH]. split; [apply NoDup_nil_2|done].
Qed.

Lemma broadcast_shown p maps raw w : small_proposal p -> lists p maps -> finalizeMultisigTransaction p = Ok raw ->
  log (btn_ms_broadcast (paste (JSON_stringify2 (shown p maps)) w)).2 = log w ++ [broadcast_request (baseUrl (wal w)) raw].
Proof.
  intros Hs Hl Hf. unfold btn_ms_broadcast, set_text, set_element. rewrite !bind_modify. set (w1 := set_dom _ _).
  unfold try_catch, value, element. rewrite bind_gets.
  assert (default "" (dom w1 !! ("ms-proposal-json" +:+ "." +:+ "value")) = JSON_stringify2 (shown p maps)) as ->
    by (unfold w1; cbn [dom set_dom paste set_value set_element modify snd]; by rewrite !lookup_insert_ne, lookup_insert_eq by done).
  rewrite !bind_lift, (parse_shown p maps Hs Hl), bind_lift, (read_shown p maps Hs Hl), bind_lift, Hf.
  pose proof (post_sends "/v1/tx/broadcast" (JObj [("raw_tx_hex", JStr (bytesToHex raw))]) None w1) as Hb.
  unfold broadcast, mbind, M_bind. destruct (post_ _ _ _ w1) as [[result|e] w2]; unfold sends in Hb; cbn [snd] in Hb; subst w2; [|done].
  unfold prop, lift, modify. by destruct (get result "txid").
Qed.

(** The wallet of a device: its key table is right and its first key is [k]. *)
Definition device (w : world) (k : key) : Prop := table_ok (wal w) /\ (ensureKey 0 w).1 = Ok k.

Lemma device_pair w k : device w k -> publicKey k = secp_publicKey (privateKey k).
Proof.
  intros [Ht Hk]. destruct (ensureKey_spec 0 w) as (r & s & E & He). rewrite E in Hk. cbn in Hk. subst r.
  eapply (table_ok_pair s 0); [by eapply ensured_table|]. by eapply ensured_lookup.
Qed.

Lemma devices_sign ws ks p : Forall2 device ws ks -> foldR sign_with p ks = foldR sign_as p (privateKey <$> ks).
Proof.
  intros Hd. revert p. induction Hd as [|w k ws ks Hk _ IH]; intros p; [done|]. cbn [foldR fmap list_fmap].
  replace (sign_with p k) with (sign_as p (privateKey k)) by (unfold sign_with, sign_as; by rewrite (device_pair w k Hk)).
  destruct (sign_as p (privateKey k)); [apply IH|done].
Qed.

End Flow.

(** C3: a multisignature payment made on several devices.  A proposal over
    m-of-n scripts is shown as JSON text, each cosigner in turn pastes the text
    into the screen of their own wallet and signs, and the last text is pasted
    into any wallet and broadcast.  That wallet then posts one request, which
    carries the transaction the signing functions of crypto.js assemble from
    the same keys, and the node reads it back.  What its verifier says of an
    input is decided by the number of keys of the script: with one or two the
    input is accepted; with three or more it is refused under the P2SH rule,
    because of the way the script is pushed and not of the signatures, which up
    to fifteen keys the verifier would accept in an input that pushes the script
    as the node does. *)
Theorem multisig_devices `{CryptoLaws} {CU : Curve} {CL : CurveLaws} `{Hd} {HL : HdLaws} `{Browser} inputs mks outputs lt ws ks q raw w
  (Hin : Forall2 wf_multisig_input inputs mks) (Hout : Forall wf_multisig_output outputs)
  (Hne : inputs <> []) (Hli : Z.of_nat (length inputs) <= MAX_SIZE) (Hlo : Z.of_nat (length outputs) <= MAX_SIZE)
  (Hlt : 0 <= lt < 2 ^ 32) (Hsmall : small_proposal (createMultisigProposal inputs outputs lt))
  (Hdevices : Forall2 device ws ks)
  (Hsign : foldR sign_with (createMultisigProposal inputs outputs lt) ks = Ok q)
  (Hfinal : finalizeMultisigTransaction q = Ok raw) :
  let text := foldl sign_on (JSON_stringify2 (proposal_json (createMultisigProposal inputs outputs lt))) ws in
  log (btn_ms_broadcast (paste text w)).2 = log w ++ [broadcast_request (baseUrl (wal w)) raw] /\
  multisig_verdict mks outputs raw.
Proof.
  intros text. split.
  - destruct (created_shown inputs outputs lt) as (E & Hwf & Hl). unfold text. rewrite E.
    destruct (sign_chain ws ks _ _ q (Forall2_impl _ _ _ _ Hdevices (fun _ _ => @proj2 _ _)) Hwf Hsmall Hl Hsign) as (maps & -> & Hs & Hq).
    by apply broadcast_shown.
  - rewrite (devices_sign ws ks _ Hdevices) in Hsign. by eapply multisig_spend_aux.
Qed.

(** ** A two-of-two payment *)

Definition ex_device (phrase : string) : world := set_wal (set_mnemonic (Some phrase) empty_wallet) empty_world.
Definition ex_key (w : world) : key :=
  match (@ensureKey toy_crypto (@toy_hd toy_crypto) 0 w).1 with Ok k => k | Throw _ => {| privateKey := []; publicKey := [] |} end.
Definition ex_devices : list world := [ex_device "abandon"; ex_device "ability"].
Definition ex_keys : list key := ex_key <$> ex_devices.
Definition ex_pubkeys : list (list Z) := publicKey <$> ex_keys.
Definition ex_inputs : list multisig_input :=
  [{| mi_txid := replicate 32 5; mi_vout := 2; mi_valueSatoshis := 900; mi_redeemScript := redeem_bytes 2 ex_pubkeys |}].
Definition ex_proposal : proposal := createMultisigProposal ex_inputs ms_outputs 0.
Definition ex_signed : proposal :=
  match foldR (@sign_with toy_crypto) ex_proposal ex_keys with Ok q => q | Throw _ => ex_proposal end.
Definition ex_raw : list Z := match finalizeMultisigTransaction ex_signed with Ok raw => raw | Throw _ => [] end.

Lemma multisig_devices_witness :
  let text := foldl (@sign_on toy_crypto (@toy_hd toy_crypto)) (JSON_stringify2 (proposal_json ex_proposal)) ex_devices in
  log (@btn_ms_broadcast offline (paste text empty_world)).2 = [] ++ [broadcast_request "" ex_raw] /\
  @multisig_verdict toy_crypto toy_curve [(2, ex_pubkeys)] ms_outputs ex_raw.
Proof.
  apply (@multisig_devices toy_crypto toy_laws toy_curve toy_curve_laws (@toy_hd toy_crypto) toy_hd_laws offline
    ex_inputs [(2, ex_pubkeys)] ms_outputs 0 ex_devices ex_keys ex_signed ex_raw empty_world).
  - constructor; [|constructor]. split; [done|]. split; [by apply (bool_decide_unpack _)|]. split; [simpl; lia|].
    split; [split; [vm_compute; done|split; [vm_compute; done|by repeat constructor]]|]. split; [|done].
    do 2 (constructor; [split; [apply (bool_decide_unpack _); by vm_compute|vm_compute; auto]|]). constructor.
  - apply ms_wf_outputs.
  - done.
  - done.
  - done.
  - lia.
  - repeat split; repeat constructor; done.
  - do 2 (constructor; [split; [by apply table_ok_empty|by vm_compute]|]). constructor.
  - vm_compute. reflexivity.
  - vm_compute. reflexivity.
Defined.

(** ** A blank threshold *)

(** The script that asks for no signature. *)
Definition open_script (keys : list (list Z)) : list Z :=
  0 :: mjoin (push_key <$> keys) ++ [0x50 + Z.of_nat (length keys); OP_CHECKMULTISIG].

Lemma open_script_created keys : Forall (fun pk => length pk = 33%nat) keys -> 1 <= Z.of_nat (length keys) <= 16 ->
  createMultisigRedeemScript_num None keys = Ok (open_script keys).
Proof.
  intros Hk Hn. assert (wf_keys 1 keys) as Hwf by (split; [lia|split; [lia|done]]).
  pose proof (redeem_ok 1 keys Hwf) as Hr. unfold createMultisigRedeemScript, opN in Hr. unfold createMultisigRedeemScript_num, opN.
  set (n := Z.of_nat (length keys)) in *.
  rewrite (proj2 (Z.ltb_ge 1 1)), (proj2 (Z.ltb_ge n 1)), (proj2 (Z.ltb_ge 16 n)), (proj2 (Z.ltb_ge 16 1)) in * by lia.
  cbn [orb throw_if mbind res_bind] in *. destruct (mapR redeem_part keys) as [parts|]; [|done]. cbn [mbind res_bind] in *.
  apply Ok_inj in Hr. f_equal. rewrite concatBytes_concat in *. unfold redeem_bytes in Hr. cbn [app mjoin list_join] in Hr |- *.
  unfold u8arr in Hr at 1. unfold u8arr at 1. cbn [fmap list_fmap app] in Hr |- *. unfold open_script. fold n in Hr |- *.
  injection Hr as Hr. f_equal. exact Hr.
Qed.

Lemma open_mscript keys : Forall (fun pk => length pk = 33%nat) keys -> open_script keys = mscript 0 keys.
Proof.
  intros Hk. unfold open_script, mscript. change (int_op 0) with 0. do 2 f_equal. unfold pushes.
  induction Hk as [|k keys Hk _ IH]; [done|]. rewrite !fmap_cons, !mjoin_cons, IH. f_equal.
  rewrite push_data_short by lia. unfold push_key. by rewrite Hk.
Qed.

Lemma open_script_bytes keys : Z.of_nat (length keys) <= 16 -> Forall bytes_ok keys -> bytes_ok (open_script keys).
Proof.
  intros Hn Hk. unfold open_script. apply bytes_ok_cons; [lia|]. apply bytes_ok_app_2.
  - apply bytes_ok_concat, Forall_fmap. eapply Forall_impl; [done|]. intros pk Hpk. apply bytes_ok_cons; [lia|done].
  - apply bytes_ok_cons; [lia|]. apply bytes_ok_cons; [unfold OP_CHECKMULTISIG; lia|apply bytes_ok_nil].
Qed.

(** C37: a threshold field that is left blank.  [parseInt] then gives [NaN], every
    guard of [createMultisigRedeemScript] lets it pass, and the script begins
    with OP_0: it asks for no signature.  The wallet finalises a fresh proposal
    over such a script without any signature.  For up to fifteen keys anyone can
    spend what the address receives: the node's verifier accepts an empty item
    and the script, in any transaction, for any checker and any flags. *)
Theorem multisig_blank_threshold `{CryptoLaws} {CU : Curve} text keys inputs outputs lt (Hblank : parseInt text 10 = None)
  (Hk : Forall (fun pk => length pk = 33%nat) keys) (Hb : Forall bytes_ok keys) (Hn : 1 <= Z.of_nat (length keys) <= 16)
  (Hin : Forall (fun mi => mi_redeemScript mi = open_script keys) inputs) :
  createMultisigRedeemScript_num (parseInt text 10) keys = Ok (open_script keys) /\
  is_ok (finalizeMultisigTransaction (createMultisigProposal inputs outputs lt)) = true /\
  (forall i, (i < length inputs)%nat ->
     script_for (createMultisigProposal inputs outputs lt) i = Ok (multisig_scriptSig [] (open_script keys))) /\
  ((length keys <= 15)%nat -> forall checker flags, flags_ok flags ->
     VerifyScript checker flags (pushes [[]; open_script keys]) (p2shScriptPubKey (hash160 (open_script keys))) [] = Ret tt).
Proof.
  rewrite Hblank. split; [by apply open_script_created|].
  assert (forall i, (i < length inputs)%nat ->
    script_for (createMultisigProposal inputs outputs lt) i = Ok (multisig_scriptSig [] (open_script keys))) as Hscript.
  { intros i Hi. destruct (lookup_lt_is_Some_2 inputs i Hi) as [mi Hmi]. unfold script_for, createMultisigProposal.
    cbn [p_inputs p_signatures]. rewrite !list_lookup_fmap, Hmi. cbn [fmap option_fmap option_map defined mbind res_bind pi_redeemScript].
    rewrite (Forall_lookup_1 _ _ _ _ Hin Hmi), hexToBytes_bytesToHex by (apply open_script_bytes; [lia|done]).
    unfold finalize_script, required_sigs. cbn [open_script]. unfold ordered_sigs.
    assert (forall l : list string, omap (fun pk => (∅ : gmap string string) !! pk) l = []) as E
      by (intros l; induction l as [|x l IH]; [done|]; cbn; by rewrite lookup_empty).
    destruct (parsePubkeysInOrder _); [|rewrite E]; cbn [mbind res_bind filter list_filter length]; rewrite concatBytes_concat; unfold multisig_scriptSig;
      change (Z.of_nat 0 <? 0 - 80) with false; change (slice_list [] 0 _) with (@nil string);
      generalize (open_script keys); intros o; cbn; by rewrite app_nil_r. }
  split; [|split; [done|]].
  2:{ intros H15 checker flags Hf. rewrite p2shScriptPubKey_script by apply hash160_bytes. rewrite open_mscript by done.
      apply (mscript_accepts checker flags 0 keys []); try done; try lia. by destruct (reverse keys). }
  rewrite finalize_eq. cbn [p_inputs createMultisigProposal]. rewrite length_fmap.
  assert (is_ok (mapR (script_for (createMultisigProposal inputs outputs lt)) (seq 0 (length inputs))) = true) as Hok.
  { apply mapR_is_ok, Forall_forall. intros i Hi%elem_of_seq. by rewrite Hscript by lia. }
  by destruct (mapR _ _).
Qed.

Lemma multisig_blank_threshold_witness :
  createMultisigRedeemScript_num (parseInt "" 10) ms_keys = Ok (open_script ms_keys) /\
  is_ok (finalizeMultisigTransaction (createMultisigProposal
    [{| mi_txid := replicate 32 5; mi_vout := 2; mi_valueSatoshis := 900; mi_redeemScript := open_script ms_keys |}] ms_outputs 0)) = true.
Proof.
  destruct (@multisig_blank_threshold toy_crypto toy_laws toy_curve "" ms_keys
    [{| mi_txid := replicate 32 5; mi_vout := 2; mi_valueSatoshis := 900; mi_redeemScript := open_script ms_keys |}] ms_outputs 0)
    as (H1 & H2 & _).
  - done.
  - by repeat constructor.
  - apply (bool_decide_unpack _). by vm_compute.
  - by vm_compute.
  - by repeat constructor.
  - split; [exact H1|exact H2].
Defined.
