(* ===== verification/Watch.v ===== *)
(** * Watch-only addresses

    app.js lines 1423-1539: the list of watched addresses kept in
    [localStorage], their balances, and the import and export of an account's
    extended public key. *)

From S2P Require Import Prelude Digits JsString JsInt Bytes Crypto Base58 Bech32 Address Tx Message JsNum JsNumFacts JsNumText Amount Texts Json JsonFacts Keys World Gateway Storage Wallet WalletFacts SendScreen AddressBook History.

Open Scope Z_scope.
Open Scope list_scope.

Definition loadWatchList : M js := raw ← getItem "fic_watch_list"; lift (parse_or raw (JArr [])).
Definition saveWatchList (entries : js) : M unit := setItem "fic_watch_list" (JSON_stringify entries).

Definition watch_row (i : nat) (e : js) : res string :=
  label ← get e "label";
  address ← get e "address";
  let n := toString (Z.of_nat i) in
  Ok (line 4 +:+ q "<div class=`book-row`>" +:+
      line 6 +:+ q "<div class=`book-info`>" +:+
      line 8 +:+ q "<div class=`book-label`>" +:+ escapeHtml (js_toString label) +:+ "</div>" +:+
      line 8 +:+ q "<div class=`book-address mono`>" +:+ escapeHtml (js_toString address) +:+ "</div>" +:+
      line 8 +:+ q "<div class=`notice small` id=`watch-balance-" +:+ n +:+ q "`>Loading balance...</div>" +:+
      line 6 +:+ "</div>" +:+
      line 6 +:+ q "<button class=`secondary` type=`button` data-explorer=`" +:+ n +:+ q "`>Explorer</button>" +:+
      line 6 +:+ q "<button class=`danger` type=`button` data-remove=`" +:+ n +:+ q "`>Remove</button>" +:+
      line 4 +:+ "</div>").

(** [try { return await m } finally { f }] *)
Definition finally {A} (m : M A) (f : M unit) : M A := fun w =>
  match m w with (r, w) => match f w with (Ok _, w) => (r, w) | (Throw e, w) => (Throw e, w) end end.

Section Watch.
Context `{Crypto} `{Hd} `{Browser}.

(** The balance of watched address [i]. *)
Definition watch_balance (i : nat) (e : js) : M unit :=
  let id := "watch-balance-" +:+ toString (Z.of_nat i) in
  try_catch
    (address ← prop e "address";
     b ← balance (js_toString address);
     c ← prop b "confirmed"; c ← lift (to_BigInt c);
     u ← prop b "unconfirmed"; u ← lift (to_BigInt u);
     set_text id (formatFic (c + u) +:+ " FIC"))
    (fun _ => set_text id "Could not fetch balance").

Definition loadWatch : M unit :=
  entries ← loadWatchList;
  none ← lift (length_zero entries);
  if (none : bool) then set_html "watch-list" (q "<p class=`notice`>No watched addresses yet.</p>")
  else
    l ← lift (array_of entries);
    html ← lift (map_indexed watch_row l);
    _ ← set_html "watch-list" (join_html html);
    for_each (fun p : nat * js => watch_balance p.1 p.2) (imap pair l).

Definition watch_remove (i : nat) : M unit :=
  updated ← loadWatchList;
  l ← lift (array_of updated);
  _ ← saveWatchList (JArr (delete i l));
  spawn loadWatch.

(** The "Explorer" button of row [i] of a list rendered from [entries]. *)
Definition watch_explorer (entries : list js) (i : nat) : M unit :=
  address ← prop (at_index entries i) "address";
  effect ("open https://explorer.firstislamiccoin.com/#/address/" +:+ js_toString address).

Definition btn_show_xpub : M unit :=
  display ← element "my-xpub-output" "display";
  if negb (String.eqb display "none") then set_display "my-xpub-output" "none" else
  _ ← set_element "btn-show-xpub" "disabled" "true";
  finally
    (network ← current_network;
     phrase ← wstate mnemonic; phrase ← lift (defined "mnemonic" phrase);
     xpub ← lift (deriveAccountXpub phrase network "");
     _ ← set_value "my-xpub-output" xpub;
     set_display "my-xpub-output" "block")
    (set_element "btn-show-xpub" "disabled" "false").

(** [Math.max(1, Math.min(50, Number(text) || 0))] *)
Definition xpub_count (text : string) : num :=
  let n := Number_of_string text in
  let n := if falsy n then Fin 0 0 else n in
  let n := if ltb n (of_Z 50) then n else of_Z 50 in
  if ltb n (of_Z 1) then of_Z 1 else n.
(** The indices [i] of the loop [for (let i = 0; i < count; i++)], for a count of at most 50. *)
Definition below_count (count : num) : list Z :=
  filter (fun i => ltb (of_Z i) count = true) (seqZ 0 50).

Definition xpub_entry (label xpub : string) (network : network) (i : Z) : res js :=
  address ← deriveXpubAddress xpub network i;
  Ok (JObj [("label", JStr (label +:+ " #" +:+ toString i)); ("address", JStr address);
            ("xpubGroup", JStr (slice_from xpub (-8)))]).

Definition btn_watch_xpub_add : M unit :=
  _ ← set_text "watch-xpub-error" "";
  label ← value "watch-xpub-label"; let label := trim label in
  xpub ← value "watch-xpub-input"; let xpub := trim xpub in
  count ← value "watch-xpub-count";
  if String.eqb label "" || String.eqb xpub "" then set_text "watch-xpub-error" "Enter a label and an xpub." else
  try_catch
    (network ← current_network;
     entries ← loadWatchList;
     new ← lift (mapR (xpub_entry label xpub network) (below_count (xpub_count count)));
     l ← lift (array_of entries);
     _ ← saveWatchList (JArr (l ++ new));
     _ ← set_value "watch-xpub-label" "";
     _ ← set_value "watch-xpub-input" "";
     spawn loadWatch)
    (fun e => set_text "watch-xpub-error" (message_or e "Could not derive addresses from this xpub.")).

Definition btn_watch_add : M unit :=
  label ← value "watch-label"; let label := trim label in
  address ← value "watch-address"; let address := trim address in
  if String.eqb label "" || String.eqb address "" then mret tt else
  entries ← loadWatchList;
  l ← lift (array_of entries);
  _ ← saveWatchList (JArr (l ++ [JObj [("label", JStr label); ("address", JStr address)]]));
  _ ← set_value "watch-label" "";
  _ ← set_value "watch-address" "";
  spawn loadWatch.

End Watch.
