(* ===== verification/App.v ===== *)
(** * Screens, onboarding, the lock and the settings

    app.js lines 116-287 and 1541-1698: moving between screens, creating and
    restoring a wallet, unlocking it, the settings, and what happens when the
    page is loaded ([load_page], the top level of the module). *)

From S2P Require Import Prelude Digits JsString JsInt Bytes Crypto Base58 Bech32 Address Tx Message JsNum JsNumFacts JsNumText Amount Texts Json JsonFacts Keys World Gateway Async Storage Wallet WalletFacts SendScreen AddressBook History Staking Multisig MultisigScreen Watch.

Open Scope Z_scope.
Open Scope list_scope.

Section App.
Context `{Crypto} `{Hd} `{Browser} `{Subtle}.

(** ** Settings, the parts shown on entry *)

Definition refreshLockCardVisibility : M unit :=
  pinSet ← isPinSet;
  _ ← set_display "lock-not-set" (block_if (negb pinSet));
  set_display "lock-is-set" (block_if pinSet).

Definition active_if (b : bool) : string := if b then "active" else "".
Definition refreshThemeButtons : M unit :=
  theme ← getItem "fic_theme";
  let current := match theme with Some t => if String.eqb t "" then "system" else t | None => "system" end in
  _ ← set_element "btn-theme-system" "class" (active_if (String.eqb current "system"));
  _ ← set_element "btn-theme-dark" "class" (active_if (String.eqb current "dark"));
  set_element "btn-theme-light" "class" (active_if (String.eqb current "light")).

(** The options of the list, one per line: the index and the address shown. *)
Definition address_option (table : gmap Z string) (idx : Z) : string :=
  toString idx +:+ " " +:+ match table !! idx with
                          | Some a => if String.eqb a "" then "(address #" +:+ toString idx +:+ ")" else a
                          | None => "(address #" +:+ toString idx +:+ ")"
                          end.
Definition refreshMsgSignAddressList : M unit :=
  indices ← wstate addressIndices;
  table ← wstate addresses;
  active ← wstate activeIndex;
  _ ← set_element "msg-sign-address" "options" (str_join (line 0) (address_option table <$> indices));
  set_value "msg-sign-address" (if bool_decide (active ∈ indices) then toString active else "").

Definition loadSettings : M unit :=
  _ ← refreshLockCardVisibility;
  _ ← set_text "lock-settings-error" "";
  _ ← set_text "lock-settings-success" "";
  _ ← refreshThemeButtons;
  refreshMsgSignAddressList.

(** ** Screens *)

(** What [showScreen] loads; the asynchronous loaders are not awaited. *)
Definition load_screen (name : string) : M unit :=
  if String.eqb name "home" then spawn loadHome
  else if String.eqb name "send" then _ ← loadAddressBook; _ ← loadSendAmountFiat; spawn loadSendFeeRate
  else if String.eqb name "receive" then spawn loadReceive
  else if String.eqb name "history" then spawn loadHistory
  else if String.eqb name "staking" then complete loadStaking
  else if String.eqb name "multisig" then spawn loadMultisig
  else if String.eqb name "watch" then spawn loadWatch
  else if String.eqb name "settings" then loadSettings
  else mret tt.

Definition showScreen (name : string) : M unit :=
  _ ← set_pstate (set_screen name);
  _ ← load_screen name;
  if String.eqb name "home" || String.eqb name "history" then startTxPolling else stopTxPolling.

Definition new_tx_banner_text : M unit := _ ← set_display "new-tx-banner" "none"; showScreen "history".

(** ** Onboarding *)

Definition enterWallet : M unit :=
  _ ← deriveAllKnownAddresses;
  _ ← set_pstate (fun s => if String.eqb (screen s) "onboarding" then set_screen "" s else s);
  _ ← set_display "lock-overlay" "none";
  _ ← set_display "tabbar" "flex";
  showScreen "home".

Definition btn_create_wallet : M unit :=
  d ← draw;
  let mnemonic := generateMnemonic d in
  _ ← set_text "new-mnemonic" mnemonic;
  _ ← set_display "new-mnemonic-card" "block";
  _ ← set_display "btn-create-wallet" "none";
  _ ← set_display "btn-show-restore" "none";
  set_wstate (set_pendingMnemonic (Some mnemonic)).

Definition confirm_written (checked : bool) : M unit :=
  set_element "btn-mnemonic-continue" "disabled" (if checked then "false" else "true").

(** [Math.floor(Math.random() * n)] on a draw *)
Definition random_index (n : Z) (d : nat) : Z := num_trunc (math_floor (mul (math_random d) (of_Z n))).
(** The [while] loop; [fuel] bounds the number of draws. *)
Fixpoint pick_indices (fuel : nat) (n : Z) (indices : list Z) : M (list Z) :=
  if (length indices <? 3)%nat then
    match fuel with
    | O => throw (EngineError "out of draws")
    | S fuel =>
        d ← draw;
        let i := random_index n d in
        pick_indices fuel n (if bool_decide (i ∈ indices) then indices else indices ++ [i])
    end
  else mret indices.

Definition showMnemonicQuiz (fuel : nat) (mnemonic : string) : M unit :=
  let words := split mnemonic " " in
  indices ← pick_indices fuel (Z.of_nat (length words)) [];
  let indices := js_sort Z.gtb indices in
  _ ← set_pstate (set_quiz ((fun i => (i, "")) <$> indices));
  _ ← set_text "mnemonic-quiz-error" "";
  _ ← set_display "new-mnemonic-card" "none";
  set_display "mnemonic-quiz-card" "block".

Definition btn_mnemonic_continue (fuel : nat) : M unit :=
  phrase ← wstate pendingMnemonic;
  phrase ← lift (defined "mnemonic" phrase);
  showMnemonicQuiz fuel phrase.

Definition btn_quiz_back : M unit :=
  _ ← set_display "mnemonic-quiz-card" "none"; set_display "new-mnemonic-card" "block".

(** The text typed into the field for word [i]. *)
Definition quiz_input (i : Z) (text : string) : M unit :=
  set_pstate (fun s => set_quiz ((fun f => if f.1 =? i then (i, text) else f) <$> quiz s) s).

(** The typed word is the one of the phrase. *)
Definition quiz_field_ok (words : list string) (f : Z * string) : bool :=
  bool_decide (words !! Z.to_nat f.1 = Some (toLowerCase (trim f.2))).

(** Both ways in: the phrase is kept, and the wallet starts with address 0. *)
Definition adopt_phrase (phrase : string) : M unit :=
  _ ← set_wstate (set_mnemonic (Some phrase));
  _ ← setItem "fic_mnemonic" phrase;
  _ ← set_wstate (set_addressIndices [0]);
  saveAddressIndices.

Definition btn_quiz_verify : M unit :=
  phrase ← wstate pendingMnemonic;
  phrase ← lift (defined "mnemonic" phrase);
  let words := split phrase " " in
  fields ← pstate quiz;
  if negb (forallb (quiz_field_ok words) fields) then
    set_text "mnemonic-quiz-error" "One or more words don't match. Check your written-down phrase and try again."
  else
    _ ← set_text "mnemonic-quiz-error" "";
    _ ← adopt_phrase phrase;
    _ ← set_display "mnemonic-quiz-card" "none";
    enterWallet.

Definition btn_show_restore : M unit := set_display "restore-card" "block".

Definition btn_restore_confirm : M unit :=
  text ← value "restore-mnemonic";
  let mnemonic := trim text in
  if negb (isValidMnemonic mnemonic) then set_text "restore-error" "Invalid recovery phrase."
  else
    _ ← set_text "restore-error" "";
    _ ← adopt_phrase mnemonic;
    enterWallet.

(** ** The lock *)

(** [localStorage.getItem(k) || null] *)
Definition item_or_null (k : string) : M (option string) :=
  v ← getItem k;
  mret (match v with Some s => if String.eqb s "" then None else Some s | None => None end).

Definition boot : M unit :=
  pinSet ← isPinSet;
  if (pinSet : bool) then set_display "lock-overlay" "flex" else
  phrase ← item_or_null "fic_mnemonic";
  _ ← set_wstate (set_mnemonic phrase);
  if is_someb phrase then enterWallet else mret tt.

Definition btn_unlock : M unit :=
  pin ← value "lock-pin";
  _ ← set_text "lock-error" "";
  try_catch
    (blob ← loadEncryptedBlob;
     phrase ← decryptMnemonic blob pin;
     _ ← set_wstate (set_mnemonic (Some phrase));
     _ ← set_value "lock-pin" "";
     enterWallet)
    (fun _ => set_text "lock-error" "Incorrect PIN.").
(** A key pressed in the PIN field. *)
Definition lock_pin_keydown (key : string) : M unit := if String.eqb key "Enter" then btn_unlock else mret tt.

(** The state of a page just loaded; the elements are as index.html has them. *)
Definition fresh_page (initial_dom : gmap string string) (w : world) : world := {|
  local := local w; session := session w; dom := initial_dom; log := log w; draws := draws w; effects := effects w;
  wal := {| network_name := match local w !! "fic_network" with Some n => if String.eqb n "" then "mainnet" else n
                            | None => "mainnet" end;
            mnemonic := None; pendingMnemonic := None; addressIndices := []; activeIndex := 0; keys := ∅;
            addresses := ∅; baseUrl := "" |};
  snd_st := {| sendFeeMinRate := None; sendFeeRateOverride := None; rows := []; sendRecipientIdCounter := 0;
               activeSendRecipientId := None |};
  page := {| stakeToken := match session w !! "fic_stake_token" with Some t => if String.eqb t "" then None else Some t
                           | None => None end;
             lastHistory := None; seen := None; polling := false; quiz := []; screen := "onboarding" |} |}.

(** The top level of the module: [boot] is not awaited. *)
Definition load_page (initial_dom : gmap string string) : M unit :=
  _ ← modify (fresh_page initial_dom);
  _ ← refreshGateway;
  _ ← addRecipientRow;
  spawn boot.

(** ** Settings *)

Definition btn_msg_sign : M unit :=
  _ ← set_text "msg-sign-error" "";
  _ ← set_display "msg-sign-result" "none";
  choice ← value "msg-sign-address";
  let idx := Number_of_string choice in
  message ← value "msg-sign-input";
  if String.eqb message "" then set_text "msg-sign-error" "Enter a message to sign." else
  try_catch
    (idx ← lift (BigInt_of_num idx);
     key ← ensureKey idx;
     signature ← lift (signMessage (privateKey key) message);
     _ ← set_value "msg-sign-output" signature;
     set_display "msg-sign-result" "block")
    (fun e => set_text "msg-sign-error" (message_or e "Could not sign message.")).

Definition btn_msg_verify : M unit :=
  _ ← set_text "msg-verify-error" "";
  _ ← set_text "msg-verify-success" "";
  address ← value "msg-verify-address"; let address := trim address in
  message ← value "msg-verify-message";
  signature ← value "msg-verify-signature"; let signature := trim signature in
  if String.eqb address "" || String.eqb signature "" then
    set_text "msg-verify-error" "Enter an address and a signature to verify."
  else
  try_catch
    (network ← current_network;
     valid ← lift (verifyMessage address signature message network);
     if (valid : bool) then set_text "msg-verify-success" "Valid signature -- this address signed this exact message."
     else set_text "msg-verify-error" "Invalid signature -- does not match this address/message.")
    (fun e => set_text "msg-verify-error" (message_or e "Could not verify signature.")).

Definition applyTheme (choice : string) : M unit :=
  _ ← (if String.eqb choice "dark" || String.eqb choice "light" then
         _ ← setItem "fic_theme" choice; set_element "html" "theme" choice
       else
         _ ← removeItem "fic_theme"; set_element "html" "theme" "");
  refreshThemeButtons.

Definition btn_set_pin : M unit :=
  _ ← set_text "lock-settings-error" "";
  _ ← set_text "lock-settings-success" "";
  pin ← value "set-pin";
  confirmPin ← value "set-pin-confirm";
  if strlen pin <? 4 then set_text "lock-settings-error" "PIN must be at least 4 characters."
  else if negb (String.eqb pin confirmPin) then set_text "lock-settings-error" "PINs don't match."
  else
    phrase ← wstate mnemonic;
    _ ← setPin phrase pin;
    _ ← set_value "set-pin" "";
    _ ← set_value "set-pin-confirm" "";
    _ ← set_text "lock-settings-success" "PIN set. Your recovery phrase is now encrypted at rest.";
    refreshLockCardVisibility.

Definition btn_lock_now : M unit :=
  _ ← set_wstate (set_mnemonic None);
  _ ← set_wstate (set_keys ∅);
  _ ← set_wstate (set_addresses ∅);
  _ ← set_display "tabbar" "none";
  _ ← set_pstate (set_screen "");
  set_display "lock-overlay" "flex".

Definition btn_remove_pin : M unit :=
  phrase ← wstate mnemonic;
  _ ← removePin phrase;
  _ ← set_text "lock-settings-success" "PIN removed; recovery phrase is now stored in plain text.";
  _ ← set_text "lock-settings-error" "";
  refreshLockCardVisibility.

Definition switchNetwork (net : string) : M unit :=
  _ ← set_wstate (set_network_name net);
  _ ← setItem "fic_network" net;
  _ ← refreshGateway;
  _ ← set_wstate (set_keys ∅);
  _ ← set_wstate (set_addresses ∅);
  _ ← deriveAllKnownAddresses;
  showScreen "home".

Definition btn_wipe_wallet (initial_dom : gmap string string) : M unit :=
  d ← draw;
  if negb (confirm_reply d) then mret tt else
  _ ← removeItem "fic_mnemonic";
  _ ← removeItem "fic_mnemonic_encrypted";
  _ ← removeItem "fic_address_indices_mainnet";
  _ ← removeItem "fic_address_indices_testnet";
  _ ← removeItem "fic_address_book";
  _ ← session_remove "fic_stake_token";
  load_page initial_dom.

(** ** Events *)

(** What can happen to the page: the user's actions, the polling timer, and a
    reload.  Buttons in a list carry what the page put into them. *)
Inductive event : Type :=
  | Edit (id text : string) | Reload | Tab (name : string)
  | Create | ConfirmWritten (checked : bool) | Continue (fuel : nat) | QuizBack | QuizInput (i : Z) (text : string)
  | QuizVerify | ShowRestore | Restore
  | Unlock | LockKey (key : string)
  | AddRow | FocusRow (id : Z) | ChangeAddress (id : Z) (text : string) | InputAmount (id : Z) (text : string)
  | ScannedRecipient (id : Z) (text : string) | RemoveRow (id : Z) | SendConfirm
  | FeeDecrease | FeeIncrease | FeeReset | FeeChange (text : string)
  | BookUse (entries : list js) (i : nat) | BookRemove (i : nat) | BookAdd
  | RequestAmount | ViewOnExplorer | SelectAddress (idx : Z) | NewAddress | CopyAddress
  | PollTimer | BannerDismiss | BannerText | ExportCsv | OpenTx (txid : string) | TxExplorer | BumpFee | TxClose
  | ReferralCopy | Login | Signup | Deposit | Withdraw | ReferralWithdraw | EnablePush
  | AlertDelete (id : string) | AlertAdd
  | MsCreate | MsPropose | MsSign | MsBroadcast | MsShowQr | MsQrClose | MsScanned (text : string)
  | WatchRemove (i : nat) | WatchExplorer (entries : list js) (i : nat) | ShowXpub | WatchXpubAdd | WatchAdd
  | MsgSign | MsgVerify | Theme (choice : string) | SetPin | LockNow | RemovePin | SwitchNetwork (net : string) | Wipe.

Definition handler (initial_dom : gmap string string) (e : event) : M unit :=
  match e with
  | Edit id text => set_value id text
  | Reload => load_page initial_dom
  | Tab name => showScreen name
  | Create => btn_create_wallet
  | ConfirmWritten checked => confirm_written checked
  | Continue fuel => btn_mnemonic_continue fuel
  | QuizBack => btn_quiz_back
  | QuizInput i text => quiz_input i text
  | QuizVerify => btn_quiz_verify
  | ShowRestore => btn_show_restore
  | Restore => btn_restore_confirm
  | Unlock => btn_unlock
  | LockKey key => lock_pin_keydown key
  | AddRow => addRecipientRow
  | FocusRow id => focus_row id
  | ChangeAddress id text => change_address id text
  | InputAmount id text => input_amount id text
  | ScannedRecipient id text => scanned_recipient id text
  | RemoveRow id => remove_row id
  | SendConfirm => btn_send_confirm
  | FeeDecrease => btn_fee_decrease
  | FeeIncrease => btn_fee_increase
  | FeeReset => btn_fee_reset
  | FeeChange text => change_fee_rate text
  | BookUse entries i => book_use entries i
  | BookRemove i => book_remove i
  | BookAdd => btn_book_add
  | RequestAmount => refreshReceiveQr
  | ViewOnExplorer => btn_view_on_explorer
  | SelectAddress idx => select_address idx
  | NewAddress => btn_new_address
  | CopyAddress => btn_copy_address
  | PollTimer => checkForNewTx
  | BannerDismiss => btn_new_tx_dismiss
  | BannerText => new_tx_banner_text
  | ExportCsv => btn_export_csv
  | OpenTx txid => openTxDetail txid
  | TxExplorer => btn_tx_detail_explorer
  | BumpFee => btn_tx_detail_bump_fee
  | TxClose => btn_tx_detail_close
  | ReferralCopy => btn_referral_copy
  | Login => btn_stake_login
  | Signup => btn_stake_signup
  | Deposit => btn_stake_deposit
  | Withdraw => btn_stake_withdraw
  | ReferralWithdraw => btn_referral_withdraw
  | EnablePush => btn_enable_push
  | AlertDelete id => delete_price_alert id
  | AlertAdd => btn_price_alert_add
  | MsCreate => btn_ms_create
  | MsPropose => btn_ms_propose
  | MsSign => btn_ms_sign
  | MsBroadcast => btn_ms_broadcast
  | MsShowQr => btn_ms_show_qr
  | MsQrClose => btn_ms_qr_close
  | MsScanned text => scanned_proposal text
  | WatchRemove i => watch_remove i
  | WatchExplorer entries i => watch_explorer entries i
  | ShowXpub => btn_show_xpub
  | WatchXpubAdd => btn_watch_xpub_add
  | WatchAdd => btn_watch_add
  | MsgSign => btn_msg_sign
  | MsgVerify => btn_msg_verify
  | Theme choice => applyTheme choice
  | SetPin => btn_set_pin
  | LockNow => btn_lock_now
  | RemovePin => btn_remove_pin
  | SwitchNetwork net => switchNetwork net
  | Wipe => btn_wipe_wallet initial_dom
  end.

Definition tab_names : list string :=
  ["home"; "send"; "receive"; "history"; "staking"; "multisig"; "watch"; "settings"].

(** When the page offers an event.  The onboarding screen and the lock cover
    the rest of the page; the other elements are there once the wallet is open.
    A wallet has fewer addresses than there are indices that are not hardened. *)
Definition enabled (e : event) (w : world) : Prop :=
  let locked := dom w !! "lock-overlay.display" = Some "flex" in
  let unlocked := mnemonic (wal w) <> None in
  match e with
  | Edit _ _ | Reload | ScannedRecipient _ _ | MsScanned _ => True
  | PollTimer => polling (page w) = true
  | Create | ConfirmWritten _ | Continue _ | QuizBack | QuizInput _ _ | QuizVerify | ShowRestore | Restore =>
      screen (page w) = "onboarding" /\ ~ locked
  | Unlock | LockKey _ => locked
  | Tab name => unlocked /\ name ∈ tab_names
  | SelectAddress idx => unlocked /\ idx ∈ addressIndices (wal w)
  | NewAddress => unlocked /\ Forall (fun i => i < 2 ^ 31 - 1) (addressIndices (wal w))
  | SwitchNetwork net => unlocked /\ net ∈ ["mainnet"; "testnet"]
  | _ => unlocked
  end.

End App.
