(* ===== verification/Lifecycle.v ===== *)
(** * The life of the wallet page

    Every event of the page with its handler, and what all of them keep: the
    phrase in use is always on disk, in plain text or under a PIN but never
    both; every key and address in the table is the one derived from that
    phrase on the current network; the list of addresses in use is the one on
    disk; and the active address is one of them.  An event is a user action or
    a timer; it is enabled when the page shows its element. *)

From S2P Require Import Prelude Digits JsString JsInt Bytes Crypto Base58 Bech32 Address Tx Multisig Message JsNum JsNumFacts JsNumText Amount Texts Json JsonFacts Keys World Gateway Async Storage Wallet WalletFacts SendScreen AddressBook History Staking MultisigScreen Watch App.

Open Scope Z_scope.
Open Scope list_scope.

(** ** What is relied on *)

(** Phrases that are generated are valid, and a valid phrase gives a key at
    every index that is not hardened. *)
Class HdTotal `{Crypto} `{Hd} : Prop := {
  generate_valid d : isValidMnemonic (generateMnemonic d) = true;
  derive_total m net i : isValidMnemonic m = true -> 0 <= i < 2 ^ 31 -> is_ok (deriveKey m net i "" false) = true
}.

Definition networks : list string := ["mainnet"; "testnet"].
Definition indices_key (net : string) : string := "fic_address_indices_" +:+ net.

(** A list of addresses as the wallet makes them. *)
Definition indices_ok (l : list Z) : Prop := l <> [] /\ NoDup l /\ Forall (fun i => 0 <= i < 2 ^ 31) l.
(** What may be stored for a network: nothing yet, or such a list. *)
Definition stored_ok (raw : option string) : Prop :=
  match raw with None => True | Some t => exists l, t = JSON_stringify (indices_json l) /\ indices_ok l end.
(** The list [l] is the one that would be loaded. *)
Definition loads (raw : option string) (l : list Z) : Prop :=
  match raw with None => l = [0] | Some t => t = JSON_stringify (indices_json l) end.

Section Lifecycle.
Context `{CryptoLaws} `{Hd} {HL : HdLaws} {HT : HdTotal} `{BrowserLaws} `{SubtleLaws}.

(** The part of the page the invariant is about. *)
Record view : Type := {
  v_wal : wallet_state;
  v_plain : option string;
  v_sealed : option string;
  v_mainnet : option string;
  v_testnet : option string;
  v_network : option string;
  v_screen : string;
  v_overlay : option string
}.
Definition view_of (w : world) : view := {|
  v_wal := wal w; v_plain := local w !! "fic_mnemonic"; v_sealed := local w !! "fic_mnemonic_encrypted";
  v_mainnet := local w !! "fic_address_indices_mainnet"; v_testnet := local w !! "fic_address_indices_testnet";
  v_network := local w !! "fic_network"; v_screen := screen (page w); v_overlay := dom w !! "lock-overlay.display" |}.

Definition v_indices (v : view) (net : string) : option string :=
  if String.eqb net "mainnet" then v_mainnet v else v_testnet v.

(** [t] is a phrase sealed under some PIN. *)
Definition sealed_as (t m : string) : Prop := exists pin d, t = JSON_stringify (pin_blob m pin d).
(** The phrase on disk is [m]. *)
Definition on_disk (v : view) (m : string) : Prop :=
  v_plain v = Some m \/ exists t, v_sealed v = Some t /\ sealed_as t m.

Record view_ok (v : view) : Prop := {
  ok_network : network_name (v_wal v) ∈ networks;
  ok_stored_network : forall n, v_network v = Some n -> n = "" \/ n ∈ networks;
  ok_table : table_ok (v_wal v);
  ok_exclusive : v_plain v = None \/ v_sealed v = None;
  ok_sealed : forall t, v_sealed v = Some t -> exists m, sealed_as t m /\ isValidMnemonic m = true;
  ok_plain : forall m, v_plain v = Some m -> isValidMnemonic m = true;
  ok_pending : forall m, pendingMnemonic (v_wal v) = Some m -> isValidMnemonic m = true;
  ok_phrase : forall m, mnemonic (v_wal v) = Some m -> isValidMnemonic m = true /\ on_disk v m;
  ok_stored : forall net, net ∈ networks -> stored_ok (v_indices v net);
  ok_current : mnemonic (v_wal v) <> None ->
    indices_ok (addressIndices (v_wal v)) /\ loads (v_indices v (network_name (v_wal v))) (addressIndices (v_wal v));
  ok_active : mnemonic (v_wal v) <> None -> activeIndex (v_wal v) ∈ addressIndices (v_wal v);
  ok_known : mnemonic (v_wal v) <> None -> forall i, i ∈ addressIndices (v_wal v) -> is_Some (keys (v_wal v) !! i);
  ok_onboarding : v_screen v = "onboarding" ->
    mnemonic (v_wal v) = None /\ (v_overlay v <> Some "flex" -> v_sealed v = None);
  ok_overlay : v_overlay v = Some "flex" -> mnemonic (v_wal v) = None
}.
Definition ok (w : world) : Prop := view_ok (view_of w).

(** ** Handlers that keep it *)

Definition keeps (w w' : world) : Prop := ok w -> ok w'.
#[local] Instance keeps_preorder : PreOrder keeps.
Proof. split; [by intros w Hw|]. intros w1 w2 w3 H1' H2' Hw. auto. Qed.

Lemma keeps_view m : preserves (same view_of) (m : M unit) -> preserves keeps m.
Proof. intros Hm w Hw. unfold ok. by rewrite <-(Hm w). Qed.
Lemma keeps_modify f : (forall w, view_of (f w) = view_of w) -> preserves keeps (modify f).
Proof. intros Hf w Hw. unfold ok. cbn. by rewrite Hf. Qed.

Definition watched : list string :=
  ["fic_mnemonic"; "fic_mnemonic_encrypted"; "fic_address_indices_mainnet"; "fic_address_indices_testnet"; "fic_network"].

Lemma keeps_setItem k v : bool_decide (k ∈ watched) = false -> preserves keeps (setItem k v).
Proof.
  intros Hk%bool_decide_eq_false. apply keeps_modify. intros w. unfold view_of. cbn [local set_local wal page dom].
  f_equal; apply lookup_insert_ne; intros ->; apply Hk; unfold watched; set_solver.
Qed.
Lemma keeps_removeItem k : bool_decide (k ∈ watched) = false -> preserves keeps (removeItem k).
Proof.
  intros Hk%bool_decide_eq_false. apply keeps_modify. intros w. unfold view_of. cbn [local set_local wal page dom].
  f_equal; apply lookup_delete_ne; intros ->; apply Hk; unfold watched; set_solver.
Qed.
Lemma keeps_element id facet v : id +:+ "." +:+ facet <> "lock-overlay.display" -> preserves keeps (set_element id facet v).
Proof. intros Hk. apply keeps_modify. intros w. unfold view_of. cbn [dom set_dom]. f_equal. by apply lookup_insert_ne. Qed.
Lemma keeps_session k v : preserves keeps (session_set k v).
Proof. by apply keeps_modify. Qed.
Lemma keeps_session_remove k : preserves keeps (session_remove k).
Proof. by apply keeps_modify. Qed.
Lemma keeps_effect e : preserves keeps (effect e).
Proof. by apply keeps_modify. Qed.
Lemma keeps_sstate f : preserves keeps (set_sstate f).
Proof. by apply keeps_modify. Qed.
Lemma keeps_pstate f : (forall s, screen (f s) = screen s) -> preserves keeps (set_pstate f).
Proof. intros Hf. apply keeps_modify. intros w. unfold view_of. cbn. by rewrite Hf. Qed.
Lemma keeps_draw : preserves keeps draw.
Proof. intros w Hw. exact Hw. Qed.
Lemma keeps_fetch rq : preserves keeps (fetch rq).
Proof. intros w Hw. exact Hw. Qed.

Lemma keeps_ensureKey i : preserves keeps (ensureKey i).
Proof.
  intros w Hw. destruct (ensureKey_spec i w) as (r & s & -> & He). cbn [snd]. destruct Hw.
  destruct (ensured_same _ _ _ _ He) as (E1 & E2 & E3 & E4 & E5 & E6).
  split; cbn [view_of wal set_wal v_wal v_plain v_sealed v_mainnet v_testnet v_network v_screen v_overlay local page dom] in *;
    rewrite <-?E1, <-?E2, <-?E3, <-?E4, <-?E5 in *; try done.
  - by eapply ensured_table.
  - intros Hm j Hj. destruct (ok_known0 Hm j Hj) as [k Hk]. exists k. by eapply lookup_weaken, ensured_grows.
Qed.

#[local] Hint Extern 1 (preserves keeps (get_ _ _)) => apply pres_get; [typeclasses eauto|intros ? ? Hk; exact Hk] : pres.
#[local] Hint Extern 1 (preserves keeps (post_ _ _ _)) => apply pres_post; [typeclasses eauto|intros ? ? Hk; exact Hk] : pres.
#[local] Hint Extern 1 (preserves keeps (set_element _ _ _)) => apply keeps_element; discriminate : pres.
#[local] Hint Extern 1 (preserves keeps (modify _)) => apply keeps_element; discriminate : pres.
#[local] Hint Extern 1 (preserves keeps (modify _)) => apply keeps_setItem; reflexivity : pres.
#[local] Hint Extern 1 (preserves keeps (modify _)) => apply keeps_removeItem; reflexivity : pres.
#[local] Hint Extern 1 (preserves keeps (modify _)) => apply keeps_modify; intros ?; reflexivity : pres.
#[local] Hint Extern 1 (preserves keeps (set_text _ _)) => apply keeps_element; discriminate : pres.
#[local] Hint Extern 1 (preserves keeps (set_html _ _)) => apply keeps_element; discriminate : pres.
#[local] Hint Extern 1 (preserves keeps (set_value _ _)) => apply keeps_element; discriminate : pres.
#[local] Hint Extern 1 (preserves keeps (set_display _ _)) => apply keeps_element; discriminate : pres.
#[local] Hint Extern 1 (preserves keeps (setItem _ _)) => apply keeps_setItem; reflexivity : pres.
#[local] Hint Extern 1 (preserves keeps (removeItem _)) => apply keeps_removeItem; reflexivity : pres.
#[local] Hint Extern 1 (preserves keeps (set_pstate _)) => apply keeps_pstate; intros ?; reflexivity : pres.
#[local] Hint Resolve keeps_session keeps_session_remove keeps_effect keeps_sstate keeps_draw keeps_fetch keeps_ensureKey : pres.

(** The loaders of the screens. *)
Lemma keeps_loadHome : preserves keeps loadHome.
Proof. unfold loadHome, address_total, address_text, activeAddress. pres. Qed.
Lemma keeps_loadAddressBook : preserves keeps loadAddressBook.
Proof. unfold loadAddressBook, renderAddressBook, loadAddressBookEntries. pres. Qed.
Lemma keeps_updateSendFeeEstimate : preserves keeps updateSendFeeEstimate.
Proof. unfold updateSendFeeEstimate, effectiveSendFeeRate. pres. Qed.
#[local] Hint Resolve keeps_loadHome keeps_loadAddressBook keeps_updateSendFeeEstimate : pres.
Lemma keeps_loadSendFeeRate : preserves keeps loadSendFeeRate.
Proof. unfold loadSendFeeRate, fee_rate. pres. Qed.
Lemma keeps_loadReceive : preserves keeps loadReceive.
Proof. unfold loadReceive, refreshReceiveQr, renderQr, renderAddressList, activeAddress. pres. Qed.
Lemma keeps_fetchCombinedHistory : preserves keeps fetchCombinedHistory.
Proof.
  unfold fetchCombinedHistory. pres. generalize (∅ : gset string, @nil js). intros acc.
  induction a as [|idx l IH] in acc |- *; cbn [combine_histories]; unfold address_history, address_text; pres.
Qed.
#[local] Hint Resolve keeps_loadSendFeeRate keeps_loadReceive keeps_fetchCombinedHistory : pres.
Lemma keeps_loadHistory : preserves keeps loadHistory.
Proof. unfold loadHistory, seenTxids. pres. Qed.
Lemma co_keeps_loadPriceAlerts : co_preserves keeps loadPriceAlerts.
Proof. unfold loadPriceAlerts, list_alerts, show_reply, show_price, show_alerts. co_pres. Qed.
Lemma keeps_loadPriceAlerts : preserves keeps (complete loadPriceAlerts).
Proof. apply pres_complete; [typeclasses eauto|apply co_keeps_loadPriceAlerts]. Qed.
#[local] Hint Resolve keeps_loadHistory co_keeps_loadPriceAlerts keeps_loadPriceAlerts : pres.
Lemma co_keeps_load_staking n : co_preserves keeps (load_staking n).
Proof.
  induction n as [|n IH]; cbn [load_staking]; [co_pres|].
  unfold staking_body, on_status_error, forget_token, show_reply, stakingLoggedIn, show_staking_cards, show_status, show_referral, show_referrals.
  co_pres.
Qed.
Lemma keeps_loadStaking : preserves keeps (complete loadStaking).
Proof. apply pres_complete; [typeclasses eauto|apply co_keeps_load_staking]. Qed.
Lemma keeps_loadMultisig : preserves keeps loadMultisig.
Proof. unfold loadMultisig. pres. Qed.
Lemma keeps_loadWatch : preserves keeps loadWatch.
Proof. unfold loadWatch, loadWatchList, watch_balance. pres. Qed.
Lemma keeps_loadSettings : preserves keeps loadSettings.
Proof. unfold loadSettings, refreshLockCardVisibility, refreshThemeButtons, refreshMsgSignAddressList, isPinSet. pres. Qed.
#[local] Hint Resolve keeps_loadStaking keeps_loadMultisig keeps_loadWatch keeps_loadSettings : pres.
Lemma keeps_load_screen name : preserves keeps (load_screen name).
Proof. unfold load_screen, loadSendAmountFiat. pres. Qed.

Lemma keeps_set_screen name : name <> "onboarding" -> preserves keeps (set_pstate (set_screen name)).
Proof. intros Hn w [? ? ? ? ? ? ? ? ? ? ? ? ? ?]. by split. Qed.
Lemma keeps_showScreen name : name <> "onboarding" -> preserves keeps (showScreen name).
Proof.
  intros Hn. unfold showScreen, startTxPolling, stopTxPolling. apply pres_bind; [typeclasses eauto|by apply keeps_set_screen|].
  intros _. apply pres_bind; [typeclasses eauto|apply keeps_load_screen|]. intros _. pres.
Qed.

(** The send screen. *)
Lemma keeps_setSendFeeRate r : preserves keeps (setSendFeeRate r).
Proof. unfold setSendFeeRate. pres. Qed.
Lemma keeps_update_row id f : preserves keeps (update_row id f).
Proof. unfold update_row. pres. Qed.
Lemma keeps_addRecipientRow : preserves keeps addRecipientRow.
Proof. unfold addRecipientRow, updateRecipientRemoveButtons. pres. Qed.
#[local] Hint Resolve keeps_setSendFeeRate keeps_update_row keeps_addRecipientRow : pres.
Lemma keeps_btn_fee_reset : preserves keeps btn_fee_reset.
Proof. unfold btn_fee_reset. pres. Qed.
Lemma keeps_read_recipients rs : preserves keeps (read_recipients rs).
Proof. induction rs as [|r rs IH]; cbn [read_recipients]; pres. Qed.
Lemma keeps_loadSentTxLog : preserves keeps loadSentTxLog.
Proof. unfold loadSentTxLog. pres. Qed.
Lemma keeps_saveSentTxLog l : preserves keeps (saveSentTxLog l).
Proof. unfold saveSentTxLog. pres. Qed.
#[local] Hint Resolve keeps_btn_fee_reset keeps_read_recipients keeps_loadSentTxLog keeps_saveSentTxLog : pres.
Lemma keeps_send_payment rs : preserves keeps (send_payment rs).
Proof. unfold send_payment, current_network, gatherAllUtxos, gather_address, address_text, fee_rate. pres. Qed.
#[local] Hint Resolve keeps_send_payment : pres.
Lemma keeps_btn_send_confirm : preserves keeps btn_send_confirm.
Proof. unfold btn_send_confirm, recordSentTx, resetSendRecipients, updateSendAmountFiat. pres. Qed.
Lemma keeps_bumpFee txid : preserves keeps (bumpFee txid).
Proof. unfold bumpFee, fee_rate. pres. Qed.
#[local] Hint Resolve keeps_btn_send_confirm keeps_bumpFee : pres.

(** ** Entering the wallet *)

Lemma indices_length l : indices_ok l -> Z.of_nat (length l) <= 2 ^ 31.
Proof.
  intros (_ & Hd & Hb). assert (l ⊆+ seqZ 0 (2 ^ 31)) as Hs%submseteq_length.
  { apply NoDup_submseteq; [done|]. intros i Hi. rewrite Forall_forall in Hb. apply elem_of_seqZ. specialize (Hb i Hi). lia. }
  rewrite length_seqZ in Hs. lia.
Qed.

Lemma of_Z_double n : Z.abs n < 2 ^ 53 -> is_double (of_Z n).
Proof. intros Hn. pose proof (of_Z_is_num n) as Hi. rewrite of_Z_exact in * by done. by destruct (norm_int n) as (m & e & E & _); rewrite E in *. Qed.

Lemma indices_json_ok l : indices_ok l -> JSON_parse (JSON_stringify (indices_json l)) = Ok (indices_json l).
Proof.
  intros (_ & _ & Hb). apply parse_write; [|apply Forall_nil_2]. apply ok_arr, Forall_fmap.
  eapply Forall_impl; [exact Hb|]. intros i Hi. apply ok_num, of_Z_double. cbv beta in Hi. lia.
Qed.

Lemma js_indices_back l : indices_ok l -> js_indices (indices_json l) = Ok l.
Proof.
  intros (_ & _ & Hb). unfold js_indices, indices_json. assert (mapM js_index ((fun i => JNum (of_Z i)) <$> l) = Some l) as ->; [|done].
  induction Hb as [|i l Hi _ IH]; [done|]. cbn [fmap list_fmap mapM]. rewrite IH. unfold js_index.
  rewrite of_Z_exact by lia. destruct (norm_int i) as (m & e & -> & He & <-). by rewrite (proj2 (Z.leb_le 0 e) He).
Qed.

Lemma truthy_length l : indices_ok l -> truthy (JNum (of_Z (Z.of_nat (length l)))) = true.
Proof.
  intros Hl. pose proof (indices_length l Hl). destruct Hl as (Hne & _). cbn [truthy]. rewrite of_Z_exact by lia.
  destruct (norm_int (Z.of_nat (length l))) as (m & e & -> & He & E). unfold falsy, is_zero. destruct m; [|done|done].
  destruct l; [done|cbn in E; lia].
Qed.

Lemma loadAddressIndices_loads w l : indices_ok l -> loads (local w !! indices_key (network_name (wal w))) l ->
  loadAddressIndices w = (Ok l, w).
Proof.
  intros Hl Hload. unfold loadAddressIndices, addressIndicesStorageKey, wstate, getItem, gets, mret, M_ret, mbind, M_bind.
  fold (indices_key (network_name (wal w))). destruct (local w !! _) as [t|]; cbn [loads] in Hload; subst; [|done].
  unfold parse_or, lift. destruct (String.eqb_spec (JSON_stringify (indices_json l)) "") as [E|_]; [exfalso; destruct l; done|].
  rewrite indices_json_ok by done. change (truthy (indices_json l)) with true. cbv beta iota.
  assert (get (indices_json l) "length" = Ok (JNum (of_Z (Z.of_nat (length l))))) as El
    by (unfold indices_json; cbn; by rewrite length_fmap).
  unfold prop, lift. rewrite El, truthy_length, js_indices_back by done. done.
Qed.

Lemma network_known n : n ∈ networks -> is_Some (NETWORKS n).
Proof. unfold networks. intros [-> | [-> | []%elem_of_nil]%elem_of_cons]%elem_of_cons; by eexists. Qed.

(** With a valid phrase, a known network and an index in range, the key is there afterwards. *)
Lemma ensureKey_total i w m : mnemonic (wal w) = Some m -> isValidMnemonic m = true -> network_name (wal w) ∈ networks ->
  0 <= i < 2 ^ 31 -> exists k s, ensureKey i w = (Ok k, set_wal s w) /\ ensured i (wal w) (Ok k) s.
Proof.
  intros Hm Hv Hn Hi. destruct (ensureKey_spec i w) as (r & s & E & He). destruct r as [k|e]; [by exists k, s|].
  exfalso. destruct (network_known _ Hn) as [net Hnet]. pose proof (derive_total m net i Hv Hi) as Hd.
  destruct (deriveKey m net i "" false) as [k|] eqn:Ek; [|done]. destruct (p2pkhAddress_total (publicKey k) net) as [a Ha].
  inversion He as [| |? Hnone]; subst. revert E. unfold ensureKey, current_network, wstate, set_wstate, gets, modify, lift, mret, M_ret, mbind, M_bind.
  rewrite Hnone, Hnet. cbn [defined]. rewrite Hm. cbn [defined]. rewrite Ek. by rewrite Ha.
Qed.

Lemma derive_loop l w m : mnemonic (wal w) = Some m -> isValidMnemonic m = true -> network_name (wal w) ∈ networks ->
  Forall (fun i => 0 <= i < 2 ^ 31) l -> table_ok (wal w) ->
  exists s, for_each (fun idx => _ ← ensureKey idx; mret tt) l w = (Ok tt, set_wal s w) /\ same_wallet (wal w) s /\
    table_ok s /\ keys (wal w) ⊆ keys s /\ forall i, i ∈ l -> is_Some (keys s !! i).
Proof.
  intros Hm Hv Hn Hl. revert w Hm Hn. induction Hl as [|i l Hi _ IH]; intros w Hm Hn Ht.
  - exists (wal w). rewrite set_wal_eta. split; [done|]. split; [done|]. split; [done|]. split; [done|]. by intros i ?%elem_of_nil.
  - destruct (ensureKey_total i w m Hm Hv Hn Hi) as (k & s1 & E & He).
    destruct (ensured_same _ _ _ _ He) as (S1 & S2 & S3 & S4 & S5 & S6).
    destruct (IH (set_wal s1 w)) as (s & Es & (T1 & T2 & T3 & T4 & T5 & T6) & Hts & Hsub & Hin); cbn [wal set_wal] in *;
      [congruence|congruence|by eapply ensured_table|].
    exists s. split; [|split; [|split; [done|split]]].
    + set (f := fun idx => _ ← ensureKey idx; mret tt) in *.
      assert (f i w = (Ok tt, set_wal s1 w)) as Ef by (unfold f, mbind, M_bind; by rewrite E).
      cbn [for_each]. unfold mbind at 1, M_bind at 1. rewrite Ef. exact Es.
    + by repeat split; congruence.
    + etransitivity; [by eapply ensured_grows|exact Hsub].
    + intros j [-> | Hj]%elem_of_cons; [|by apply Hin]. exists k. eapply lookup_weaken; [by eapply ensured_lookup|exact Hsub].
Qed.

Lemma deriveAll_spec l w m : mnemonic (wal w) = Some m -> isValidMnemonic m = true -> network_name (wal w) ∈ networks ->
  table_ok (wal w) -> indices_ok l -> loads (local w !! indices_key (network_name (wal w))) l ->
  exists s, deriveAllKnownAddresses w = (Ok tt, set_wal s w) /\ table_ok s /\ mnemonic s = Some m /\
    network_name s = network_name (wal w) /\ pendingMnemonic s = pendingMnemonic (wal w) /\
    addressIndices s = l /\ activeIndex s ∈ l /\ (forall i, i ∈ l -> is_Some (keys s !! i)).
Proof.
  intros Hm Hv Hn Ht Hl Hload. unfold deriveAllKnownAddresses, set_wstate. unfold mbind at 1, M_bind at 1.
  rewrite (loadAddressIndices_loads _ _ Hl Hload), bind_modify. set (w1 := set_wal (set_addressIndices l (wal w)) w).
  destruct (derive_loop l w1 m Hm Hv Hn (proj2 (proj2 Hl)) Ht) as (s & E & (S1 & S2 & S3 & S4 & S5 & S6) & Hts & _ & Hin).
  unfold mbind at 1, M_bind at 1. rewrite E. unfold wstate. rewrite bind_gets.
  unfold w1 in *. cbn [wal set_wal set_addressIndices network_name mnemonic pendingMnemonic addressIndices activeIndex] in *.
  destruct (bool_decide (activeIndex s ∈ l)) eqn:Ea.
  - apply bool_decide_eq_true in Ea. exists s. split; [done|]. split_and!; try done; congruence.
  - exists (set_activeIndex (default 0 (last l)) s). split; [done|]. split_and!; cbn; try done; try congruence.
    destruct (last l) as [x|] eqn:El; [by apply last_Some_elem_of in El|]. apply last_None in El. by destruct Hl.
Qed.

(** What the invariant says of the disk alone. *)
Record disk_ok (v : view) : Prop := {
  dk_network : forall n, v_network v = Some n -> n = "" \/ n ∈ networks;
  dk_exclusive : v_plain v = None \/ v_sealed v = None;
  dk_sealed : forall t, v_sealed v = Some t -> exists m, sealed_as t m /\ isValidMnemonic m = true;
  dk_plain : forall m, v_plain v = Some m -> isValidMnemonic m = true;
  dk_stored : forall net, net ∈ networks -> stored_ok (v_indices v net)
}.

Lemma view_ok_disk v : view_ok v -> disk_ok v.
Proof. by intros []; split. Qed.

Lemma v_indices_local w net : net ∈ networks -> v_indices (view_of w) net = local w !! indices_key net.
Proof. unfold networks. by intros [-> | [-> | []%elem_of_nil]%elem_of_cons]%elem_of_cons. Qed.

Lemma stored_loads raw : stored_ok raw -> exists l, indices_ok l /\ loads raw l.
Proof.
  destruct raw as [t|]; cbn; [intros (l & -> & Hl); by exists l|]. intros _. exists [0]. split; [|done].
  split; [done|]. split; [apply NoDup_singleton|]. apply Forall_singleton. lia.
Qed.

(** What is needed to derive the addresses of the current network. *)
Record entering (w : world) (m : string) : Prop := {
  en_disk : disk_ok (view_of w);
  en_phrase : mnemonic (wal w) = Some m;
  en_valid : isValidMnemonic m = true;
  en_on_disk : on_disk (view_of w) m;
  en_network : network_name (wal w) ∈ networks;
  en_table : table_ok (wal w);
  en_pending : forall m, pendingMnemonic (wal w) = Some m -> isValidMnemonic m = true
}.

Lemma derive_ok w m : entering w m -> exists s, deriveAllKnownAddresses w = (Ok tt, set_wal s w) /\
  forall scr ov, scr <> "onboarding" -> ov <> Some "flex" ->
    view_ok {| v_wal := s; v_plain := local w !! "fic_mnemonic"; v_sealed := local w !! "fic_mnemonic_encrypted";
      v_mainnet := local w !! "fic_address_indices_mainnet"; v_testnet := local w !! "fic_address_indices_testnet";
      v_network := local w !! "fic_network"; v_screen := scr; v_overlay := ov |}.
Proof.
  intros [[D1 D2 D3 D4 D5] Hm Hv Hd Hn Ht Hp]. destruct (stored_loads _ (D5 _ Hn)) as (l & Hl & Hload).
  rewrite v_indices_local in Hload by done.
  destruct (deriveAll_spec l w m Hm Hv Hn Ht Hl Hload) as (s & E & Hts & Sm & Sn & Sp & Si & Sa & Sk).
  exists s. split; [done|]. intros scr ov Hs Ho. rewrite <-v_indices_local in Hload by done.
  split; cbn [v_wal v_plain v_sealed v_mainnet v_testnet v_network v_screen v_overlay]; try done; rewrite ?Sm, ?Sn, ?Sp, ?Si; try done.
  - intros m' [= <-]. split; [done|]. exact Hd.
Qed.

Lemma enterWallet_ok w m : entering w m -> ok (enterWallet w).2.
Proof.
  intros Hen. destruct (derive_ok w m Hen) as (s & E & Hok). unfold enterWallet. unfold mbind at 1, M_bind at 1. rewrite E.
  unfold set_pstate, set_display, set_element. rewrite !bind_modify. apply keeps_showScreen; [done|].
  unfold ok, view_of. cbn [wal set_wal local dom set_dom page set_page].
  rewrite lookup_insert_ne, lookup_insert_eq by done. apply Hok; [|done].
  cbn [page set_page set_wal]. destruct (String.eqb_spec (screen (page w)) "onboarding"); [done|]. done.
Qed.

Lemma entering_dom d w m : entering w m -> entering (set_dom d w) m.
Proof. intros [[? ? ? ? ?] ? ? Hd ? ? ?]. split; try done. Qed.

Lemma keeps_run {A} (m : M A) w w1 : (m w).2 = w1 -> preserves keeps m -> ok w -> ok w1.
Proof. intros <- Hm Hw. by apply Hm. Qed.

(** A table that belongs to no phrase is empty. *)
Lemma table_no_phrase s i k : table_ok s -> mnemonic s = None -> keys s !! i = Some k -> False.
Proof. intros Ht Hm Hk. destruct (Ht i k Hk) as (m & _ & _ & E & _). congruence. Qed.

(** ** Creating and restoring *)

Definition onboarding (w : world) : Prop := screen (page w) = "onboarding" /\ dom w !! "lock-overlay.display" <> Some "flex".

Lemma adopt_spec phrase w : adopt_phrase phrase w =
  (Ok tt, set_local (<[indices_key (network_name (wal w)) := JSON_stringify (indices_json [0])]> (<["fic_mnemonic" := phrase]> (local w)))
    (set_wal (set_addressIndices [0] (set_mnemonic (Some phrase) (wal w))) w)).
Proof. done. Qed.

Lemma indices_ok_0 : indices_ok [0].
Proof. split; [done|]. split; [apply NoDup_singleton|]. apply Forall_singleton. lia. Qed.

Lemma adopt_entering phrase w : ok w -> onboarding w -> isValidMnemonic phrase = true -> entering (adopt_phrase phrase w).2 phrase.
Proof.
  intros [O1 O2 O3 O4 O5 O6 O7 O8 O9 O10 O11 O12 O13 O14] [Hs Ho] Hv.
  cbn [view_of v_wal v_plain v_sealed v_network v_screen v_overlay] in *.
  destruct (O13 Hs) as [Hm Hse]. specialize (Hse Ho). rewrite adopt_spec. cbn [snd].
  assert (exists k, k = indices_key (network_name (wal w)) /\ (k = "fic_address_indices_mainnet" \/ k = "fic_address_indices_testnet")) as (k & <- & Hk).
  { eexists. split; [done|]. revert O1. unfold networks. intros [-> | [-> | []%elem_of_nil]%elem_of_cons]%elem_of_cons; auto. }
  assert (k <> "fic_mnemonic" /\ k <> "fic_mnemonic_encrypted" /\ k <> "fic_network") as (K1 & K2 & K3) by (by destruct Hk as [-> | ->]).
  set (L := <[k := _]> _). assert (L !! "fic_mnemonic" = Some phrase) as L1 by (unfold L; by rewrite lookup_insert_ne, lookup_insert_eq).
  assert (L !! "fic_mnemonic_encrypted" = None) as L2 by (unfold L; by rewrite !lookup_insert_ne).
  assert (L !! "fic_network" = local w !! "fic_network") as L3 by (unfold L; by rewrite !lookup_insert_ne).
  assert (forall net, net ∈ networks -> L !! indices_key net = local w !! indices_key net \/ L !! indices_key net = Some (JSON_stringify (indices_json [0]))) as L4.
  { intros net Hnet. unfold L. destruct (decide (k = indices_key net)) as [->|Hne]; [right; apply lookup_insert_eq|left].
    rewrite !lookup_insert_ne by (done || by revert Hnet; unfold networks; intros [-> | [-> | []%elem_of_nil]%elem_of_cons]%elem_of_cons). done. }
  split; cbn [wal set_wal set_local set_addressIndices set_mnemonic mnemonic network_name pendingMnemonic local]; try done.
  - split; cbn [view_of v_network v_plain v_sealed local set_local set_wal].
    + by rewrite L3.
    + by right.
    + by rewrite L2.
    + rewrite L1. by intros m [= <-].
    + intros net Hnet. rewrite v_indices_local by done. cbn [local set_local]. destruct (L4 net Hnet) as [-> | ->].
      * rewrite <-v_indices_local by done. by apply O9.
      * cbn. exists [0]. split; [done|apply indices_ok_0].
  - by left.
  - intros i kk Hi. exfalso. by eapply (table_no_phrase (wal w)).
Qed.

Lemma quiz_verify_ok w : ok w -> onboarding w -> ok (btn_quiz_verify w).2.
Proof.
  intros Hw Hon. unfold btn_quiz_verify, wstate. rewrite bind_gets, bind_lift.
  destruct (pendingMnemonic (wal w)) as [phrase|] eqn:Ep; cbn [defined]; [|done]. unfold pstate. rewrite bind_gets.
  destruct (negb _); [revert Hw; apply keeps_element; discriminate|].
  assert (isValidMnemonic phrase = true) as Hv by (by apply (ok_pending _ Hw)).
  unfold set_text, set_element. rewrite bind_modify. set (w1 := set_dom _ w).
  assert (ok w1) as Hw1 by (revert Hw; apply (keeps_element "mnemonic-quiz-error" "text" ""); discriminate).
  assert (onboarding w1) as Hon1 by (destruct Hon; split; [done|]; cbn; by rewrite lookup_insert_ne).
  unfold mbind at 1, M_bind at 1. pose proof (adopt_entering phrase w1 Hw1 Hon1 Hv) as He. rewrite adopt_spec in *. cbn [snd] in He.
  unfold set_display, set_element. rewrite bind_modify. by eapply enterWallet_ok, entering_dom.
Qed.

Lemma restore_ok w : ok w -> onboarding w -> ok (btn_restore_confirm w).2.
Proof.
  intros Hw Hon. unfold btn_restore_confirm, value, element. rewrite bind_gets.
  set (phrase := trim _). destruct (isValidMnemonic phrase) eqn:Hv; cbn [negb]; [|revert Hw; apply keeps_element; discriminate].
  unfold set_text, set_element. rewrite bind_modify. set (w1 := set_dom _ w).
  assert (ok w1) as Hw1 by (revert Hw; apply (keeps_element "restore-error" "text" ""); discriminate).
  assert (onboarding w1) as Hon1 by (destruct Hon; split; [done|]; cbn; by rewrite lookup_insert_ne).
  unfold mbind at 1, M_bind at 1. pose proof (adopt_entering phrase w1 Hw1 Hon1 Hv) as He. rewrite adopt_spec in *. cbn [snd] in He.
  by eapply enterWallet_ok.
Qed.

Lemma keeps_set_pending m : isValidMnemonic m = true -> preserves keeps (set_wstate (set_pendingMnemonic (Some m))).
Proof. intros Hv w [? ? ? ? ? ? ? ? ? ? ? ? ? ?]. split; try done. cbn. by intros m' [= <-]. Qed.
Lemma keeps_create : preserves keeps btn_create_wallet.
Proof.
  unfold btn_create_wallet. apply pres_bind; [typeclasses eauto|apply keeps_draw|]. intros d.
  repeat (apply pres_bind; [typeclasses eauto|apply keeps_element; discriminate|intros _]). apply keeps_set_pending, generate_valid.
Qed.
Lemma keeps_pick_indices fuel n l : preserves keeps (pick_indices fuel n l).
Proof. revert l. induction fuel as [|fuel IH]; intros l; cbn [pick_indices]; pres. Qed.
#[local] Hint Resolve keeps_pick_indices : pres.
Lemma keeps_continue fuel : preserves keeps (btn_mnemonic_continue fuel).
Proof. unfold btn_mnemonic_continue, showMnemonicQuiz. pres. Qed.

(** ** Loading the page, and the lock *)

Lemma sealed_text t m : sealed_as t m -> String.eqb t "" = false /\ exists pin d, JSON_parse t = Ok (pin_blob m pin d).
Proof. intros (pin & d & ->). split; [done|]. exists pin, d. apply pin_blob_json. Qed.

(** A page with no phrase in memory, as [boot] finds it. *)
Record idle (w : world) : Prop := {
  id_disk : disk_ok (view_of w);
  id_phrase : mnemonic (wal w) = None;
  id_pending : forall m, pendingMnemonic (wal w) = Some m -> isValidMnemonic m = true;
  id_network : network_name (wal w) ∈ networks;
  id_table : table_ok (wal w)
}.

Lemma idle_ok w : idle w -> (screen (page w) = "onboarding" -> dom w !! "lock-overlay.display" <> Some "flex" -> local w !! "fic_mnemonic_encrypted" = None) -> ok w.
Proof. intros [[? ? ? ? ?] Hm ? ? ?] Hs. split; cbn [view_of v_wal v_screen v_overlay v_sealed]; try done; rewrite ?Hm; try done. auto. Qed.

(** Taking the phrase that is on disk into memory. *)
Lemma idle_entering w m : idle w -> on_disk (view_of w) m -> isValidMnemonic m = true ->
  entering (set_wal (set_mnemonic (Some m) (wal w)) w) m.
Proof.
  intros [[? ? ? ? ?] Hm ? ? Ht] Hd Hv. split; try done. intros i k Hi. exfalso. by eapply (table_no_phrase (wal w)).
Qed.

Lemma boot_ok w : idle w -> ok (boot w).2.
Proof.
  intros Hid. unfold boot, isPinSet, getItem. unfold mbind at 1, M_bind at 1. rewrite bind_gets. unfold mret at 1, M_ret.
  destruct (local w !! "fic_mnemonic_encrypted") as [t|] eqn:Es; cbn [is_someb].
  - apply idle_ok; [by destruct Hid as [[? ? ? ? ?] ? ? ? ?]; split|]. cbn. by rewrite lookup_insert_eq.
  - unfold item_or_null, getItem. unfold mbind at 1, M_bind at 1. rewrite bind_gets. unfold mret at 1, M_ret.
    destruct Hid as [[D1 D2 D3 D4 D5] Hm Hp Hn Ht].
    set (phrase := match local w !! "fic_mnemonic" with Some s => _ | None => None end).
    unfold set_wstate. rewrite bind_modify. destruct phrase as [m|] eqn:Ep; cbn [is_someb].
    + assert (local w !! "fic_mnemonic" = Some m) as Hpl.
      { unfold phrase in Ep. destruct (local w !! "fic_mnemonic") as [s|]; [|done]. destruct (String.eqb s ""); [done|]. by injection Ep as ->. }
      eapply (enterWallet_ok _ m), idle_entering; [by split|by left|by apply D4].
    + apply idle_ok; [|by cbn]. split; try done. intros i k Hi. exfalso. by eapply (table_no_phrase (wal w)).
Qed.

Lemma load_page_ok d w : disk_ok (view_of w) -> ok (load_page d w).2.
Proof.
  intros Hd. unfold load_page, refreshGateway, addRecipientRow, updateRecipientRemoveButtons, set_wstate, set_sstate, wstate, sstate,
    set_text, set_display, set_element, spawn, modify, gets, mbind, M_bind. cbn [snd].
  apply boot_ok. destruct Hd as [D1 D2 D3 D4 D5]. split; [by split|done|done| |].
  - cbn. destruct (local w !! "fic_network") as [n|] eqn:E; [|by left]. destruct (String.eqb_spec n ""); [by left|].
    by destruct (D1 n E).
  - by apply table_ok_empty.
Qed.

Lemma ok_idle w : ok w -> mnemonic (wal w) = None -> idle w.
Proof. intros Hw Hm. pose proof (view_ok_disk _ Hw). by destruct Hw; split. Qed.

Lemma unlock_ok w : ok w -> dom w !! "lock-overlay.display" = Some "flex" -> ok (btn_unlock w).2.
Proof.
  intros Hw Ho. unfold btn_unlock, value, element, set_text, set_element. rewrite bind_gets, bind_modify.
  set (pin := default "" _). set (w1 := set_dom _ w).
  assert (ok w1) as Hw1 by (revert Hw; apply (keeps_element "lock-error" "text" ""); discriminate).
  assert (mnemonic (wal w1) = None) as Hm by (by apply (ok_overlay _ Hw)).
  unfold try_catch. unfold loadEncryptedBlob, getItem. unfold mbind at 1, M_bind at 1. rewrite bind_gets. unfold lift.
  assert (forall w2, ok w2 -> ok (set_text "lock-error" "Incorrect PIN." w2).2) as Herr.
  { intros w2. apply keeps_element. discriminate. }
  destruct (local w1 !! "fic_mnemonic_encrypted") as [t|] eqn:Et.
  - destruct (ok_sealed _ Hw1 t Et) as (m & Hs & Hv). destruct (sealed_text t m Hs) as (Hne & pin0 & d & Hj).
    unfold parse_or. rewrite Hne, Hj. unfold mbind at 1, M_bind at 1.
    destruct (decryptMnemonic (pin_blob m pin0 d) pin w1) as [[m'|e] w2] eqn:Ed.
    + apply decrypt_authentic in Ed as [-> ->]. unfold set_wstate, set_value, set_element. rewrite !bind_modify.
      assert (entering (set_wal (set_mnemonic (Some m) (wal w1)) w1) m) as Hen.
      { apply idle_entering; [by apply ok_idle|right; by exists t|done]. }
      pose proof (enterWallet_ok _ m (entering_dom (<["lock-pin" +:+ "." +:+ "value" := ""]> (dom w1)) _ m Hen)) as Hok.
      destruct (enterWallet _) as [[[]|e] w3] eqn:E3 in Hok |- *; [exact Hok|by apply Herr].
    + pose proof (decrypt_world (pin_blob m pin0 d) pin w1) as E2. rewrite Ed in E2. cbn in E2. subst w2. by apply Herr.
  - cbn [parse_or]. unfold mbind at 1, M_bind at 1. destruct (decryptMnemonic JNull pin w1) as [[m'|e] w2] eqn:Ed; [done|].
    pose proof (decrypt_world JNull pin w1) as E2. rewrite Ed in E2. cbn in E2. subst w2. by apply Herr.
Qed.

(** ** Settings *)

Definition unlocked (w : world) : Prop := mnemonic (wal w) <> None.

(** Moving the phrase between its two places on disk. *)
Lemma move_phrase w w1 m : ok w -> mnemonic (wal w) = Some m -> wal w1 = wal w -> page w1 = page w -> dom w1 = dom w ->
  (forall k, bool_decide (k ∈ ["fic_mnemonic"; "fic_mnemonic_encrypted"]) = false -> local w1 !! k = local w !! k) ->
  (local w1 !! "fic_mnemonic" = Some m /\ local w1 !! "fic_mnemonic_encrypted" = None \/
   exists t, local w1 !! "fic_mnemonic" = None /\ local w1 !! "fic_mnemonic_encrypted" = Some t /\ sealed_as t m) -> ok w1.
Proof.
  intros [O1 O2 O3 O4 O5 O6 O7 O8 O9 O10 O11 O12 O13 O14] Hm Ewal Epage Edom Hloc Hdisk.
  unfold ok, view_of in *. rewrite Ewal, Epage, Edom, !(Hloc "fic_network"), (Hloc "fic_address_indices_mainnet"), (Hloc "fic_address_indices_testnet") by done.
  destruct (O8 m Hm) as [Hv _]. cbn [v_wal v_plain v_sealed v_mainnet v_testnet v_network v_screen v_overlay] in *.
  destruct Hdisk as [[P1 P2]|(t & P1 & P2 & Hs)]; rewrite P1, P2; split;
    cbn [v_wal v_plain v_sealed v_mainnet v_testnet v_network v_screen v_overlay]; try done; try (by left); try (by right).
  - by intros m' [= <-].
  - intros m' Hm'. rewrite Hm in Hm'. injection Hm' as <-. split; [done|by left].
  - intros Hsc. destruct (O13 Hsc). congruence.
  - intros t' [= <-]. by exists m.
  - intros m' Hm'. rewrite Hm in Hm'. injection Hm' as <-. split; [done|]. right. by exists t.
  - intros Hsc. destruct (O13 Hsc). congruence.
Qed.

Lemma keeps_lock_cards : preserves keeps refreshLockCardVisibility.
Proof. unfold refreshLockCardVisibility, isPinSet. pres. Qed.
#[local] Hint Resolve keeps_lock_cards : pres.

Lemma set_pin_ok w : ok w -> unlocked w -> ok (btn_set_pin w).2.
Proof.
  intros Hw Hu. unfold btn_set_pin, set_text, value, element, set_element. rewrite !bind_modify, !bind_gets.
  set (w1 := set_dom _ (set_dom _ w)). assert (ok w1) as Hw1.
  { apply (keeps_element "lock-settings-success" "text" ""); [discriminate|].
    apply (keeps_element "lock-settings-error" "text" ""); [discriminate|exact Hw]. }
  destruct (_ <? 4); [revert Hw1; apply keeps_element; discriminate|].
  destruct (negb _); [revert Hw1; apply keeps_element; discriminate|].
  unfold wstate. rewrite bind_gets. destruct (mnemonic (wal w1)) as [m|] eqn:Hm; [|done].
  unfold mbind at 1, M_bind at 1. rewrite setPin_spec. match goal with |- ok (?f ?w).2 => set (w2 := w); assert (preserves keeps f) as Hf by pres end. apply Hf.
  apply (move_phrase w1 w2 m Hw1 Hm); try done.
  - intros k Hk. apply bool_decide_eq_false in Hk. unfold w2. cbn.
    rewrite lookup_delete_ne, lookup_insert_ne; [done|intros <-; apply Hk; set_solver|intros <-; apply Hk; set_solver].
  - right. eexists. unfold w2. cbn. rewrite lookup_delete_eq, lookup_delete_ne, lookup_insert_eq by done.
    split; [done|]. split; [done|]. by eexists _, _.
Qed.

Lemma remove_pin_ok w : ok w -> unlocked w -> ok (btn_remove_pin w).2.
Proof.
  intros Hw Hu. unfold btn_remove_pin, wstate. rewrite bind_gets. destruct (mnemonic (wal w)) as [m|] eqn:Hm; [|done].
  unfold removePin, setItem, removeItem. cbn [phrase_text default]. unfold mbind at 1, M_bind at 1. rewrite bind_modify. unfold modify at 1.
  match goal with |- ok (?f ?w).2 => set (w2 := w); assert (preserves keeps f) as Hf by pres end. apply Hf.
  apply (move_phrase w w2 m Hw Hm); try done.
  - intros k Hk. apply bool_decide_eq_false in Hk. unfold w2. cbn.
    rewrite lookup_delete_ne, lookup_insert_ne; [done|intros <-; apply Hk; set_solver|intros <-; apply Hk; set_solver].
  - left. unfold w2. cbn. by rewrite lookup_delete_eq, lookup_delete_ne, lookup_insert_eq.
Qed.

Lemma lock_now_ok w : ok w -> ok (btn_lock_now w).2.
Proof.
  intros [O1 O2 O3 O4 O5 O6 O7 O8 O9 O10 O11 O12 O13 O14].
  unfold btn_lock_now, set_wstate, set_display, set_element, set_pstate. rewrite !bind_modify. cbn [modify snd].
  split; cbn [view_of v_wal v_plain v_sealed v_screen v_overlay wal set_wal local set_local dom set_dom page set_page] in *; try done.
Qed.

Lemma ok_screen w : ok w -> unlocked w -> screen (page w) <> "onboarding" /\ dom w !! "lock-overlay.display" <> Some "flex".
Proof.
  intros Hw Hu. split; intros E; apply Hu; [by destruct (ok_onboarding _ Hw E)|by apply (ok_overlay _ Hw)].
Qed.

Lemma disk_network w w1 net m : net ∈ networks -> local w1 = <["fic_network" := net]> (local w) ->
  disk_ok (view_of w) -> on_disk (view_of w) m -> disk_ok (view_of w1) /\ on_disk (view_of w1) m.
Proof.
  intros Hnet E [D1 D2 D3 D4 D5] Hd. unfold on_disk, view_of, v_indices in *. cbn [v_plain v_sealed v_mainnet v_testnet v_network] in *. rewrite E.
  split; [split|]; cbn [v_plain v_sealed v_mainnet v_testnet v_network]; rewrite ?(lookup_insert_ne _ "fic_network") by done; try done.
  rewrite lookup_insert_eq. intros n [= <-]. by right.
Qed.

Lemma switchNetwork_ok net w : ok w -> unlocked w -> net ∈ networks -> ok (switchNetwork net w).2.
Proof.
  intros Hw Hu Hnet. destruct (ok_screen w Hw Hu) as [Hs Ho]. unfold unlocked in Hu.
  destruct (mnemonic (wal w)) as [m|] eqn:Hm; [|done]. destruct (ok_phrase _ Hw m Hm) as [Hv Hd].
  unfold switchNetwork, refreshGateway, set_wstate, setItem, wstate, set_text, set_element. rewrite !bind_modify.
  unfold mbind at 1, M_bind at 1. rewrite !bind_gets, bind_modify. unfold modify at 1. rewrite !bind_modify.
  match goal with |- ok ((deriveAllKnownAddresses ≫= _) ?w).2 => set (w1 := w) end.
  assert (local w1 = <["fic_network" := net]> (local w)) as El by done.
  assert (entering w1 m) as Hen.
  { destruct (disk_network w w1 net m Hnet El (view_ok_disk _ Hw) Hd) as [Hdk Hdm].
    split; [exact Hdk|exact Hm|exact Hv|exact Hdm|exact Hnet|by apply table_ok_empty|exact (ok_pending _ Hw)]. }
  destruct (derive_ok w1 m Hen) as (s & E & Hok). unfold mbind at 1, M_bind at 1. rewrite E.
  apply keeps_showScreen; [done|]. apply Hok; [done|]. unfold w1. cbn. by rewrite lookup_insert_ne.
Qed.

Lemma wipe_ok d w : ok w -> ok (btn_wipe_wallet d w).2.
Proof.
  intros Hw. unfold btn_wipe_wallet. unfold mbind at 1, M_bind at 1. cbn [draw]. destruct (negb _); [exact Hw|].
  unfold removeItem, session_remove. rewrite !bind_modify. apply load_page_ok. destruct (view_ok_disk _ Hw) as [D1 D2 D3 D4 D5].
  split; cbn [view_of v_plain v_sealed v_network local set_local set_session set_draws].
  - by rewrite !lookup_delete_ne.
  - left. by rewrite !lookup_delete_ne, lookup_delete_eq by done.
  - rewrite !lookup_delete_ne, lookup_delete_eq by done. done.
  - rewrite !lookup_delete_ne, lookup_delete_eq by done. done.
  - intros net Hn. rewrite v_indices_local by done. cbn [local set_local set_session set_draws]. revert Hn.
    unfold networks. intros [-> | [-> | []%elem_of_nil]%elem_of_cons]%elem_of_cons.
    + rewrite !lookup_delete_ne by done. by rewrite lookup_delete_eq.
    + rewrite lookup_delete_ne by done. by rewrite lookup_delete_eq.
Qed.

(** ** Addresses *)

Lemma max_of_spec l x : max_of l = Some x -> x ∈ l /\ Forall (fun i => i <= x) l.
Proof.
  destruct l as [|y l]; [done|]. cbn [max_of]. intros [= <-]. induction l as [|z l IH]; cbn [foldr].
  - split; [by left|]. by apply Forall_singleton.
  - destruct IH as [Hin Hle]. apply Forall_cons_1 in Hle as [Hy Hl]. split.
    + destruct (Z.max_spec z (foldr Z.max y l)) as [[_ ->]|[_ ->]]; [|right; by left].
      apply elem_of_cons in Hin as [-> | Hin]; [by left|]. by do 2 right.
    + repeat apply Forall_cons_2; [lia|lia|]. eapply Forall_impl; [exact Hl|]. intros i Hi. cbv beta in *. lia.
Qed.

Lemma new_index_ok l x : indices_ok l -> max_of l = Some x -> Forall (fun i => i < 2 ^ 31 - 1) l ->
  indices_ok (l ++ [x + 1]) /\ 0 <= x + 1 < 2 ^ 31.
Proof.
  intros (Hne & Hd & Hb) Hx Hlim. destruct (max_of_spec l x Hx) as [Hin Hle].
  rewrite Forall_forall in Hb. pose proof (Hb x Hin). rewrite Forall_forall in Hlim. pose proof (Hlim x Hin).
  split; [|lia]. split; [by destruct l|]. split.
  - apply NoDup_app. split; [done|]. split; [|apply NoDup_singleton]. intros i Hi ->%list_elem_of_singleton.
    rewrite Forall_forall in Hle. specialize (Hle _ Hi). lia.
  - apply Forall_app. split; [by apply Forall_forall|]. apply Forall_singleton. lia.
Qed.

Lemma saveAddressIndices_spec w : saveAddressIndices w =
  (Ok tt, set_local (<[indices_key (network_name (wal w)) := JSON_stringify (indices_json (addressIndices (wal w)))]> (local w)) w).
Proof. done. Qed.

(** Writing the list of the current network changes nothing else the invariant looks at. *)
Lemma stored_indices_spec w net t : net ∈ networks ->
  let w1 := set_local (<[indices_key net := t]> (local w)) w in
  v_plain (view_of w1) = v_plain (view_of w) /\ v_sealed (view_of w1) = v_sealed (view_of w) /\
  v_network (view_of w1) = v_network (view_of w) /\ v_indices (view_of w1) net = Some t /\
  forall net', net' ∈ networks -> v_indices (view_of w1) net' = Some t \/ v_indices (view_of w1) net' = v_indices (view_of w) net'.
Proof.
  intros Hn w1. assert (indices_key net <> "fic_mnemonic" /\ indices_key net <> "fic_mnemonic_encrypted" /\ indices_key net <> "fic_network") as (K1 & K2 & K3).
  { revert Hn. unfold networks. by intros [-> | [-> | []%elem_of_nil]%elem_of_cons]%elem_of_cons. }
  unfold w1. split_and!; cbn [view_of v_plain v_sealed v_network local set_local]; try by apply lookup_insert_ne.
  - rewrite v_indices_local by done. apply lookup_insert_eq.
  - intros net' Hn'. rewrite !v_indices_local by done. cbn [local set_local].
    destruct (decide (indices_key net = indices_key net')) as [->|Hne]; [left; apply lookup_insert_eq|right; by apply lookup_insert_ne].
Qed.

Lemma new_address_ok w : ok w -> unlocked w -> Forall (fun i => i < 2 ^ 31 - 1) (addressIndices (wal w)) -> ok (btn_new_address w).2.
Proof.
  intros Hw Hu Hlim. destruct (ok_screen w Hw Hu) as [Hsc Hov]. destruct (ok_current _ Hw Hu) as [Hl _].
  pose proof (ok_known _ Hw Hu) as Hk. pose proof Hw as [O1 O2 O3 O4 O5 O6 O7 O8 O9 _ _ _ _ _].
  unfold unlocked in Hu. destruct (mnemonic (wal w)) as [m|] eqn:Hm; [|done]. destruct (O8 m Hm) as [Hv Hd]. cbn [view_of v_wal] in *.
  unfold btn_new_address, wstate. rewrite bind_gets, bind_lift. destruct (max_of (addressIndices (wal w))) as [x|] eqn:Hx; cbn [defined]; [|done].
  destruct (new_index_ok _ x Hl Hx Hlim) as [Hl' Hi]. unfold set_wstate. rewrite bind_modify. unfold mbind at 1, M_bind at 1.
  rewrite saveAddressIndices_spec. cbn [wal set_wal set_addressIndices network_name addressIndices local].
  set (l' := addressIndices (wal w) ++ [x + 1]) in *. set (w0 := set_wal (set_addressIndices l' (wal w)) w).
  destruct (stored_indices_spec w0 _ (JSON_stringify (indices_json l')) O1) as (E1 & E2 & E3 & E4 & E5).
  set (w1 := set_local _ w0) in *.
  destruct (ensureKey_total (x + 1) w1 m Hm Hv O1 Hi) as (k & s & Ek & He).
  unfold mbind at 1, M_bind at 1. rewrite Ek, bind_modify. apply keeps_loadReceive.
  destruct (ensured_same _ _ _ _ He) as (S1 & S2 & S3 & S4 & S5 & S6). cbn [wal set_wal w1 w0 set_local] in S1, S2, S3, S4.
  change (v_indices (view_of w0)) with (v_indices (view_of w)) in E5.
  cbn [view_of v_plain v_sealed v_network] in E1, E2, E3.
  unfold ok. split; cbn [view_of v_wal v_plain v_sealed v_network v_screen v_overlay local wal set_wal set_activeIndex network_name mnemonic pendingMnemonic addressIndices activeIndex keys];
    rewrite <-?S1, <-?S2, <-?S3, <-?S4; try done.
  - by rewrite E3.
  - exact (ensured_table _ _ _ _ He O3).
  - by rewrite E1, E2.
  - by rewrite E2.
  - by rewrite E1.
  - intros m' Hm'. destruct (O8 m' Hm') as [Hv' Hd']. split; [done|]. unfold on_disk in *. cbn [view_of v_plain v_sealed local set_wal] in *. by rewrite E1, E2.
  - intros net' Hn'. cut (stored_ok (v_indices (view_of w1) net')); [intros Hc; exact Hc|].
    destruct (E5 net' Hn') as [E|E]; [|rewrite E; by apply O9]. rewrite E. by exists l'.
  - intros _. split; [done|]. cut (loads (v_indices (view_of w1) (network_name (wal w))) l'); [intros Hc; exact Hc|].
    by rewrite E4.
  - intros _. unfold l'. apply elem_of_app. right. by left.
  - intros _ j [Hj | ->%list_elem_of_singleton]%elem_of_app; [|exists k; by eapply ensured_lookup].
    destruct (Hk j Hj) as [kj Hkj]. exists kj. eapply lookup_weaken; [exact Hkj|exact (ensured_grows _ _ _ _ He)].
Qed.

Lemma select_address_ok idx w : ok w -> unlocked w -> idx ∈ addressIndices (wal w) -> ok (select_address idx w).2.
Proof.
  intros [O1 O2 O3 O4 O5 O6 O7 O8 O9 O10 O11 O12 O13 O14] Hu Hi. unfold select_address, set_wstate. rewrite bind_modify.
  apply keeps_loadReceive. split; try done.
Qed.

(** ** Every event *)

Lemma value_not_overlay id : id +:+ "." +:+ "value" <> "lock-overlay.display".
Proof.
  intros E. apply (f_equal chars) in E. assert (last (chars (id +:+ "." +:+ "value")) = Some "e"%char) as Hl.
  { rewrite !chars_app, last_app. done. }
  by rewrite E in Hl.
Qed.

Lemma keeps_finally {A} (m : M A) f : preserves keeps m -> preserves keeps f -> preserves keeps (finally m f).
Proof.
  intros Hm Hf w Hw. unfold finally. specialize (Hm w Hw). destruct (m w) as [r w1]. specialize (Hf w1 Hm).
  by destruct (f w1) as [[]].
Qed.

(** The events treated one by one; the others leave what the invariant is about
    alone, or only add keys. *)
Definition special (e : event) : bool :=
  match e with
  | Reload | Tab _ | QuizVerify | Restore | Unlock | LockKey _ | SelectAddress _ | NewAddress | SetPin | LockNow | RemovePin
  | SwitchNetwork _ | Wipe => true
  | _ => false
  end.

#[local] Hint Unfold confirm_written btn_quiz_back quiz_input btn_show_restore focus_row change_address input_amount
  updateSendAmountFiat scanned_recipient remove_row updateRecipientRemoveButtons btn_fee_decrease btn_fee_increase
  effectiveSendFeeRate change_fee_rate book_use book_remove loadAddressBookEntries saveAddressBookEntries btn_book_add
  refreshReceiveQr renderQr activeAddress btn_view_on_explorer btn_copy_address checkForNewTx seenTxids showNewTxBanner
  btn_new_tx_dismiss btn_export_csv openTxDetail btn_tx_detail_explorer btn_tx_detail_bump_fee btn_tx_detail_close
  btn_referral_copy btn_stake_login btn_stake_signup stakeAuth kyc_fields btn_stake_deposit btn_stake_withdraw
  btn_referral_withdraw btn_enable_push delete_price_alert btn_price_alert_add btn_ms_create current_network
  btn_ms_propose propose fee_rate btn_ms_sign btn_ms_broadcast btn_ms_show_qr btn_ms_qr_close scanned_proposal
  watch_remove loadWatchList saveWatchList watch_explorer btn_show_xpub btn_watch_xpub_add btn_watch_add btn_msg_sign
  btn_msg_verify applyTheme refreshThemeButtons new_tx_banner_text : pres.
#[local] Hint Resolve keeps_create keeps_continue keeps_showScreen : pres.
#[local] Hint Extern 1 (preserves keeps (set_value _ _)) => apply keeps_element, value_not_overlay : pres.
#[local] Hint Extern 1 (preserves keeps (finally _ _)) => apply keeps_finally; pres : pres.
#[local] Hint Extern 1 (_ <> "onboarding") => discriminate : pres.

Lemma keeps_plain d e : special e = false -> preserves keeps (handler d e).
Proof. destruct e; intros Hs; try discriminate Hs; clear Hs; cbn [handler]; pres. Qed.


Lemma keeps_event d e w : enabled e w -> ok w -> ok (handler d e w).2.
Proof.
  intros Hen Hw. destruct (special e) eqn:Hs; [|by apply keeps_plain]. destruct e; try discriminate Hs; cbn [handler]; cbn [enabled] in Hen.
  - by apply load_page_ok, view_ok_disk.
  - apply keeps_showScreen; [|done]. destruct Hen as [_ Ht]. intros ->. by apply (bool_decide_eq_true_2 _) in Ht.
  - by apply quiz_verify_ok.
  - by apply restore_ok.
  - by apply unlock_ok.
  - unfold lock_pin_keydown. destruct (String.eqb _ _); [by apply unlock_ok|done].
  - apply select_address_ok; [done|by destruct Hen..].
  - apply new_address_ok; [done|by destruct Hen..].
  - by apply set_pin_ok.
  - by apply lock_now_ok.
  - by apply remove_pin_ok.
  - apply switchNetwork_ok; [done|by destruct Hen..].
  - by apply wipe_ok.
Qed.

(** ** Reachable pages *)

(** A first visit, and then any sequence of enabled events. *)
Inductive reachable (d : gmap string string) : world -> Prop :=
  | first_visit w : (forall k, k ∈ watched -> local w !! k = None) -> reachable d (load_page d w).2
  | event_step w e : reachable d w -> enabled e w -> reachable d (handler d e w).2.

Lemma reachable_ok d w : reachable d w -> ok w.
Proof.
  induction 1 as [w Hw|w e _ IH He]; [|by apply keeps_event]. apply load_page_ok. unfold watched in Hw.
  split; cbn [view_of v_plain v_sealed v_network]; rewrite ?Hw by (repeat (left; done) || (repeat right; left; done) || set_solver); try done.
  - by left.
  - intros net Hn. rewrite v_indices_local by done. rewrite Hw; [done|]. revert Hn. unfold networks.
    intros [-> | [-> | []%elem_of_nil]%elem_of_cons]%elem_of_cons; apply (bool_decide_unpack _); done.
Qed.

End Lifecycle.

(** C5: on every page reachable from a first visit by any sequence of user
    actions, timers and reloads: the phrase is never on disk both in plain text
    and under a PIN; while the wallet is open, the phrase in use is on disk, in
    plain text or such that a PIN gives it back; the addresses in use are those
    a reload would bring back, without repetitions; the active address is one
    of them; every one has the key and the address derived from that phrase on
    the current network; and while no phrase is in use, no key is in memory. *)
Theorem wallet_invariant `{CryptoLaws} `{Hd} {HL : HdLaws} {HT : HdTotal} `{BrowserLaws} `{SubtleLaws} d w :
  reachable d w ->
  (local w !! "fic_mnemonic" = None \/ local w !! "fic_mnemonic_encrypted" = None) /\
  (forall m, mnemonic (wal w) = Some m ->
    (local w !! "fic_mnemonic" = Some m \/ exists pin, unlock_phrase pin w = (Ok m, w)) /\
    loadAddressIndices w = (Ok (addressIndices (wal w)), w) /\ NoDup (addressIndices (wal w)) /\
    activeIndex (wal w) ∈ addressIndices (wal w) /\
    forall i, i ∈ addressIndices (wal w) -> exists net k a,
      NETWORKS (network_name (wal w)) = Some net /\ keys (wal w) !! i = Some k /\ addresses (wal w) !! i = Some a /\
      deriveKey m net i "" false = Ok k /\ p2pkhAddress (hash160 (publicKey k)) net = Ok a) /\
  (mnemonic (wal w) = None -> keys (wal w) = ∅).
Proof.
  intros Hr. pose proof (reachable_ok d w Hr) as Hw. split; [exact (ok_exclusive _ Hw)|]. split.
  - intros m Hm. assert (unlocked w) as Hu by (unfold unlocked; by rewrite Hm).
    destruct (ok_current _ Hw Hu) as [Hl Hload]. rewrite v_indices_local in Hload by exact (ok_network _ Hw).
    split; [|split; [by apply loadAddressIndices_loads|split; [apply Hl|split; [exact (ok_active _ Hw Hu)|]]]].
    + destruct (ok_phrase _ Hw m Hm) as [_ [Hd|(t & Ht & pin & dr & ->)]]; [by left|]. right. exists pin.
      unfold unlock_phrase, loadEncryptedBlob, getItem, gets, lift, mbind, M_bind, parse_or. cbn [view_of v_sealed] in Ht. rewrite Ht.
      change (String.eqb (JSON_stringify (pin_blob m pin dr)) "") with false. cbv iota. rewrite pin_blob_json. apply decrypt_pin_blob.
    + intros i Hi. destruct (ok_known _ Hw Hu i Hi) as [k Hk]. destruct (ok_table _ Hw i k Hk) as (m' & net & a & Hm' & Hn & Hdk & Ha & Hai).
      cbn [view_of v_wal] in *. rewrite Hm in Hm'. injection Hm' as <-. by exists net, k, a.
  - intros Hm. apply map_eq. intros i. rewrite lookup_empty. destruct (keys (wal w) !! i) as [k|] eqn:Hk; [|done].
    exfalso. exact (table_no_phrase _ i k (ok_table _ Hw) Hm Hk).
Qed.

Lemma toy_hd_total : @HdTotal toy_crypto (@toy_hd toy_crypto).
Proof. split; [done|]. intros m net i _ _. done. Qed.

(** A visit: restore a phrase, add an address, set a PIN, lock, and unlock again. *)
Definition visit (es : list event) : world :=
  foldl (fun w e => (@handler toy_crypto (@toy_hd toy_crypto) offline toy_subtle ∅ e w).2)
    (@load_page toy_crypto (@toy_hd toy_crypto) offline ∅ empty_world).2 es.
Definition visit_events : list event :=
  [Edit "restore-mnemonic" "abandon"; Restore; NewAddress; Edit "set-pin" "1234"; Edit "set-pin-confirm" "1234"; SetPin;
   LockNow; Edit "lock-pin" "1234"; Unlock].

Lemma visit_step es e : @reachable toy_crypto (@toy_hd toy_crypto) offline toy_subtle ∅ (visit es) -> enabled e (visit es) ->
  @reachable toy_crypto (@toy_hd toy_crypto) offline toy_subtle ∅ (visit (es ++ [e])).
Proof. intros Hr He. unfold visit. rewrite foldl_app. exact (event_step _ _ e Hr He). Qed.

Lemma visit_reachable : @reachable toy_crypto (@toy_hd toy_crypto) offline toy_subtle ∅ (visit visit_events).
Proof.
  apply (visit_step (take 8 visit_events) Unlock); [|by vm_compute].
  apply (visit_step (take 7 visit_events)); [|done].
  apply (visit_step (take 6 visit_events) LockNow); [|by vm_compute].
  apply (visit_step (take 5 visit_events) SetPin); [|by vm_compute].
  apply (visit_step (take 4 visit_events)); [|done].
  apply (visit_step (take 3 visit_events)); [|done].
  apply (visit_step (take 2 visit_events) NewAddress).
  2: { split; [by vm_compute|]. replace (addressIndices _) with [0] by (by vm_compute). by apply Forall_singleton. }
  apply (visit_step (take 1 visit_events) Restore); [|split; by vm_compute].
  apply (visit_step (take 0 visit_events)); [|done]. apply first_visit. intros k _. apply lookup_empty.
Qed.

Lemma wallet_invariant_witness :
  let w := visit visit_events in
  (local w !! "fic_mnemonic" = None \/ local w !! "fic_mnemonic_encrypted" = None) /\
  (forall m, mnemonic (wal w) = Some m ->
    (local w !! "fic_mnemonic" = Some m \/ exists pin, @unlock_phrase toy_subtle pin w = (Ok m, w)) /\
    loadAddressIndices w = (Ok (addressIndices (wal w)), w) /\ NoDup (addressIndices (wal w)) /\
    activeIndex (wal w) ∈ addressIndices (wal w) /\
    forall i, i ∈ addressIndices (wal w) -> exists net k a,
      NETWORKS (network_name (wal w)) = Some net /\ keys (wal w) !! i = Some k /\ addresses (wal w) !! i = Some a /\
      @deriveKey (@toy_hd toy_crypto) m net i "" false = Ok k /\ @p2pkhAddress toy_crypto (@hash160 toy_crypto (publicKey k)) net = Ok a) /\
  (mnemonic (wal w) = None -> keys (wal w) = ∅).
Proof.
  apply (@wallet_invariant toy_crypto toy_laws (@toy_hd toy_crypto) toy_hd_laws toy_hd_total offline offline_laws toy_subtle
    toy_subtle_laws ∅ (visit visit_events)).
  exact visit_reachable.
Defined.

(** That visit ends open again, with both addresses and the second one active. *)
Lemma visit_result : mnemonic (wal (visit visit_events)) = Some "abandon" /\
  addressIndices (wal (visit visit_events)) = [0; 1] /\ activeIndex (wal (visit visit_events)) = 1 /\
  local (visit visit_events) !! "fic_mnemonic" = None.
Proof. split_and!; by vm_compute. Qed.

(** Create a wallet, answer the quiz, set a PIN, and lock. *)
Definition create_events : list event :=
  [Create; ConfirmWritten true; Continue 3; QuizInput 1 "ability"; QuizInput 2 "able"; QuizInput 3 "about"; QuizVerify;
   Edit "set-pin" "1234"; Edit "set-pin-confirm" "1234"; SetPin; LockNow].

(** locking does not forget a phrase that was created on this page: there is
    a reachable page that is locked, with the phrase sealed on disk and
    [state.mnemonic] cleared, on which [state._pendingMnemonic] and the element
    that showed the phrase still hold it in the clear. *)
Theorem lock_leaves_created_phrase : exists w m,
  @reachable toy_crypto (@toy_hd toy_crypto) offline toy_subtle ∅ w /\
  dom w !! "lock-overlay.display" = Some "flex" /\ mnemonic (wal w) = None /\
  local w !! "fic_mnemonic" = None /\ @unlock_phrase toy_subtle "1234" w = (Ok m, w) /\
  pendingMnemonic (wal w) = Some m /\ dom w !! "new-mnemonic.text" = Some m.
Proof.
  exists (visit create_events), "abandon ability able about above absent absorb abstract absurd abuse access 0".
  split; [|split_and!; by vm_compute].
  apply (visit_step (take 10 create_events) LockNow); [|by vm_compute].
  apply (visit_step (take 9 create_events) SetPin); [|by vm_compute].
  apply (visit_step (take 8 create_events)); [|done]. apply (visit_step (take 7 create_events)); [|done].
  apply (visit_step (take 6 create_events) QuizVerify); [|split; by vm_compute].
  apply (visit_step (take 5 create_events)); [|split; by vm_compute].
  apply (visit_step (take 4 create_events)); [|split; by vm_compute].
  apply (visit_step (take 3 create_events)); [|split; by vm_compute].
  apply (visit_step (take 2 create_events)); [|split; by vm_compute].
  apply (visit_step (take 1 create_events)); [|split; by vm_compute].
  apply (visit_step (take 0 create_events)); [|split; by vm_compute].
  apply first_visit. intros k _. apply lookup_empty.
Qed.
