(* ===== verification/QrScan.v ===== *)
(** * The QR scanner and the service worker

    qr.js [startQrScanner] as a state machine: the camera promise settles once,
    animation frames run [tick], and [stop] may be called at any time.  The
    overlay of app.js (lines 584-608) wraps its callbacks.  sw.js turns a push
    message into a notification, and a click on it into a page. *)

From S2P Require Import Prelude Digits JsString JsInt Bytes Crypto Base58 Bech32 Address Tx JsNum Json.

Open Scope Z_scope.
Open Scope list_scope.

(** ** The scanner *)

(** The promise of [getUserMedia]. *)
Inductive camera : Type := Waiting | Granted | Refused.

(** The variables of [startQrScanner], the promise, whether a frame is requested
    and the tracks of the stream run, and the calls of the two callbacks. *)
Record scanner : Type := {
  promise : camera;
  stream : bool;
  stopped : bool;
  frame_requested : bool;
  tracks_live : bool;
  results : list string;
  errors : nat
}.

Definition startQrScanner : scanner := {|
  promise := Waiting; stream := false; stopped := false; frame_requested := false; tracks_live := false;
  results := []; errors := 0
|}.

Definition stop (s : scanner) : scanner := {|
  promise := promise s; stream := stream s; stopped := true; frame_requested := false;
  tracks_live := if stream s then false else tracks_live s; results := results s; errors := errors s
|}.

(** The callback of [then]: the stream arrives with its tracks running. *)
Definition camera_granted (s : scanner) : scanner :=
  if stopped s then {|
    promise := Granted; stream := stream s; stopped := stopped s; frame_requested := frame_requested s;
    tracks_live := false; results := results s; errors := errors s |}
  else {|
    promise := Granted; stream := true; stopped := stopped s; frame_requested := true;
    tracks_live := true; results := results s; errors := errors s |}.
(** The callback of [catch]. *)
Definition camera_refused (s : scanner) : scanner := {|
  promise := Refused; stream := stream s; stopped := stopped s; frame_requested := frame_requested s;
  tracks_live := tracks_live s; results := results s; errors := S (errors s)
|}.

Definition add_result (text : string) (s : scanner) : scanner := {|
  promise := promise s; stream := stream s; stopped := stopped s; frame_requested := frame_requested s;
  tracks_live := tracks_live s; results := results s ++ [text]; errors := errors s
|}.
(** One frame: [code] is what [jsQR] finds in it, if the video has data. *)
Definition tick (code : option string) (s : scanner) : scanner :=
  if stopped s then {|
    promise := promise s; stream := stream s; stopped := stopped s; frame_requested := false;
    tracks_live := tracks_live s; results := results s; errors := errors s |}
  else match code with
       | Some text => if String.eqb text "" then s else add_result text (stop s)
       | None => s
       end.

Inductive scan_event : Type :=
  | CameraGranted | CameraRefused | Frame (code : option string) | Stop.

(** A promise settles once; a frame runs when it was requested. *)
Inductive scan_step : scanner -> scan_event -> scanner -> Prop :=
  | step_granted s : promise s = Waiting -> scan_step s CameraGranted (camera_granted s)
  | step_refused s : promise s = Waiting -> scan_step s CameraRefused (camera_refused s)
  | step_frame s code : frame_requested s = true -> scan_step s (Frame code) (tick code s)
  | step_stop s : scan_step s Stop (stop s).

Inductive scan_run : list scan_event -> scanner -> Prop :=
  | run_start : scan_run [] startQrScanner
  | run_step es s e s' : scan_run es s -> scan_step s e s' -> scan_run (es ++ [e]) s'.

(** ** What every run keeps *)

Record scan_ok (s : scanner) : Prop := {
  ok_calls : (length (results s) + errors s <= 1)%nat;
  ok_result_stops : results s <> [] -> stopped s = true;
  ok_refused : promise s <> Refused -> errors s = 0%nat;
  ok_waiting : promise s = Waiting -> stream s = false /\ results s = [] /\ frame_requested s = false;
  ok_refused_idle : promise s = Refused -> frame_requested s = false /\ results s = [];
  ok_tracks : tracks_live s = true -> stream s = true /\ stopped s = false /\ promise s = Granted;
  ok_frame : frame_requested s = true -> stopped s = false /\ stream s = true /\ promise s = Granted;
  ok_scanning : promise s = Granted -> stopped s = false -> frame_requested s = true
}.

Lemma scan_ok_start : scan_ok startQrScanner.
Proof. split; cbn; try done; lia. Qed.

Lemma scan_ok_stop s : scan_ok s -> scan_ok (stop s).
Proof.
  intros [H1 H2 H3 H4 H5 H6 H7 H8]. split; cbn; try done; try tauto.
  destruct (stream s) eqn:E; [done|]. intros Ht. destruct (H6 Ht) as (? & _). congruence.
Qed.

Lemma scan_ok_step s e s' : scan_step s e s' -> scan_ok s -> scan_ok s'.
Proof.
  intros Hstep [H1 H2 H3 H4 H5 H6 H7 H8]. inversion Hstep; subst.
  - destruct (H4 H) as (Hs & Hr & Hf). assert (errors s = 0%nat) as He by (apply H3; by rewrite H).
    unfold camera_granted. destruct (stopped s) eqn:E; split; cbn; rewrite ?Hr, ?He; try done; try tauto; try lia; congruence.
  - destruct (H4 H) as (Hs & Hr & Hf). assert (errors s = 0%nat) as He by (apply H3; by rewrite H).
    split; cbn; rewrite ?Hr, ?He; try done; try tauto; try lia.
    all: intros Ht; first [destruct (H6 Ht) as (? & _)|destruct (H7 Ht) as (_ & ? & _)]; congruence.
  - destruct (H7 H) as (Hn & Hs & Hp). unfold tick. rewrite Hn.
    destruct code as [t|]; [|done]. destruct (String.eqb t ""); [done|].
    assert (results s = []) as Hr by (destruct (results s) eqn:E; [done|]; rewrite H2 in Hn; done).
    assert (errors s = 0%nat) as He by (apply H3; by rewrite Hp).
    split; cbn; rewrite ?Hr, ?He, ?Hs; try done; try lia; congruence.
  - by apply scan_ok_stop.
Qed.

Lemma scan_run_ok es s : scan_run es s -> scan_ok s.
Proof. induction 1; [apply scan_ok_start|by eapply scan_ok_step]. Qed.

(** in every run of the scanner at most one callback is called, and at most
    once; after [stop], whether called from outside or by a result, no frame
    runs, no result comes, and the camera's tracks are off even when the
    permission is granted only afterwards. *)
Theorem scanner_calls_back_once es s : scan_run es s ->
  (length (results s) + errors s <= 1)%nat /\ (results s <> [] -> stopped s = true) /\
  (stopped s = true -> tracks_live s = false /\ frame_requested s = false) /\
  (stopped s = true -> forall e s', scan_step s e s' -> results s' = results s /\ tracks_live s' = false).
Proof.
  intros Hrun. pose proof (scan_run_ok _ _ Hrun) as Hok. destruct Hok as [H1 H2 H3 H4 H5 H6 H7 H8].
  split; [done|]. split; [done|].
  assert (stopped s = true -> tracks_live s = false) as Htl.
  { intros Hs. destruct (tracks_live s) eqn:E; [|done]. destruct (H6 eq_refl) as (_ & ? & _). congruence. }
  assert (stopped s = true -> frame_requested s = false) as Hfr.
  { intros Hs. destruct (frame_requested s) eqn:E; [|done]. destruct (H7 eq_refl) as (? & _). congruence. }
  split; [auto|]. intros Hs e s' Hstep. specialize (Htl Hs). inversion Hstep; subst.
  - unfold camera_granted. by rewrite Hs.
  - done.
  - unfold tick. by rewrite Hs.
  - cbn. by rewrite Htl; destruct (stream s).
Qed.

Lemma scanner_calls_back_once_witness :
  let s := camera_granted (stop startQrScanner) in
  (length (results s) + errors s <= 1)%nat /\ (results s <> [] -> stopped s = true) /\
  (stopped s = true -> tracks_live s = false /\ frame_requested s = false) /\
  (stopped s = true -> forall e s', scan_step s e s' -> results s' = results s /\ tracks_live s' = false).
Proof.
  apply (scanner_calls_back_once [Stop; CameraGranted]).
  apply (run_step [Stop] (stop startQrScanner) CameraGranted); [|by apply step_granted].
  apply (run_step [] startQrScanner Stop); [apply run_start|apply step_stop].
Defined.

(** ** Progress *)

(** The first code found. *)
Fixpoint first_code (frames : list (option string)) : option string :=
  match frames with
  | [] => None
  | Some text :: frames => if String.eqb text "" then first_code frames else Some text
  | None :: frames => first_code frames
  end.

(** The animation frames that follow, each run if it was requested. *)
Definition scan_frames (frames : list (option string)) (s : scanner) : scanner :=
  foldl (fun s code => if frame_requested s then tick code s else s) s frames.

Lemma scan_frames_idle frames s : frame_requested s = false -> scan_frames frames s = s.
Proof. intros Hs. induction frames as [|code frames IH]; [done|]. cbn. by rewrite Hs. Qed.

Lemma tick_blank code s : stopped s = false -> String.eqb (default "" code) "" = true -> tick code s = s.
Proof. intros Hs E. unfold tick. rewrite Hs. destruct code as [t|]; [|done]. cbn in E. by rewrite E. Qed.

(** C32: a scanner whose camera was granted and that was not stopped delivers the
    first code in the frames that follow, exactly once, then stops and switches
    the camera off; while there is none it keeps requesting frames. *)
Theorem scanner_delivers es s frames :
  scan_run es s -> promise s = Granted -> stopped s = false ->
  let s' := scan_frames frames s in
  match first_code frames with
  | Some text => results s' = [text] /\ errors s' = 0%nat /\ stopped s' = true /\ tracks_live s' = false
  | None => results s' = [] /\ frame_requested s' = true
  end.
Proof.
  intros Hrun Hp Hs. pose proof (scan_run_ok _ _ Hrun) as [H1 H2 H3 H4 H5 H6 H7 H8].
  assert (results s = []) as Hr by (destruct (results s); [done|]; rewrite H2 in Hs; done).
  assert (errors s = 0%nat) as He by (apply H3; by rewrite Hp).
  pose proof (H8 Hp Hs) as Hf. destruct (H7 Hf) as (_ & Hst & _). clear - Hs Hr He Hf Hst.
  induction frames as [|code frames IH]; [done|].
  assert (scan_frames (code :: frames) s = scan_frames frames (tick code s)) as -> by (unfold scan_frames; cbn [foldl]; by rewrite Hf).
  destruct (String.eqb (default "" code) "") eqn:E.
  - rewrite tick_blank by done. destruct code as [t|]; cbn in E; cbn [first_code]; rewrite ?E; exact IH.
  - destruct code as [t|]; [|done]. cbn in E. cbn [first_code]. rewrite E. unfold tick. rewrite Hs, E.
    rewrite scan_frames_idle by done. cbn. by rewrite Hr, Hst.
Qed.

Lemma scanner_delivers_witness :
  let s' := scan_frames [None; Some ""; Some "firstislamiccoin:F"; Some "x"] (camera_granted startQrScanner) in
  results s' = ["firstislamiccoin:F"] /\ errors s' = 0%nat /\ stopped s' = true /\ tracks_live s' = false.
Proof.
  apply (scanner_delivers [CameraGranted] (camera_granted startQrScanner) [None; Some ""; Some "firstislamiccoin:F"; Some "x"]);
    [|done|done].
  apply (run_step [] startQrScanner CameraGranted); [apply run_start|by apply step_granted].
Defined.

(** ** The overlay *)

(** The elements of the overlay and [state.qrScanHandle]; the text the page's
    callback received last. *)
Record overlay : Type := {
  ov_display : string;
  ov_error : string;
  ov_handle : option scanner;
  ov_received : list string
}.

Definition openQrScanner (o : overlay) : overlay := {|
  ov_display := "flex"; ov_error := ""; ov_handle := Some startQrScanner; ov_received := ov_received o
|}.
Definition closeQrScan (o : overlay) : overlay := {|
  ov_display := "none"; ov_error := ov_error o; ov_handle := None; ov_received := ov_received o
|}.
(** The callbacks passed to the scanner, on what [s'] called beyond [s]. *)
Definition overlay_callbacks (s s' : scanner) (o : overlay) : overlay :=
  match drop (length (results s)) (results s') with
  | text :: _ => closeQrScan {| ov_display := ov_display o; ov_error := ov_error o; ov_handle := Some s';
                                ov_received := ov_received o ++ [text] |}
  | [] => {| ov_display := ov_display o;
             ov_error := if (errors s <? errors s')%nat then
                           "Could not access the camera. Check that this site has camera permission in your browser settings."
                         else ov_error o;
             ov_handle := Some s'; ov_received := ov_received o |}
  end.

(** ** The service worker *)

Definition DEFAULT_TITLE : string := "FirstIslamicCoin Wallet".

(** A notification: its title, its text and the page it opens. *)
Record notification : Type := { n_title : string; n_body : string; n_url : js }.

(** [v || d] *)
Definition or_value (v : js) (d : string) : js := if truthy v then v else JStr d.

(** The [push] listener; [data] is the text of [event.data], if there is any. *)
Definition push_event (data : option string) : res notification :=
  let payload := match data with
                 | Some text => match JSON_parse text with
                                | Ok v => v
                                | Throw _ => JObj [("title", JStr DEFAULT_TITLE); ("body", JStr text)]
                                end
                 | None => JObj [("title", JStr DEFAULT_TITLE); ("body", JStr "")]
                 end in
  title ← get payload "title";
  body ← get payload "body";
  url ← get payload "url";
  Ok {| n_title := js_toString (or_value title DEFAULT_TITLE); n_body := js_toString (or_value body "");
        n_url := or_value url "/" |}.

(** The [notificationclick] listener: the page opened. *)
Definition notificationclick (n : notification) : string := js_toString (or_value (n_url n) "/").
