(* ===== verification/JsFormat.v ===== *)
(** * Texts for numbers and dates

    What the explorer uses of the language to print: [BigInt]'s
    [toLocaleString("en-US")], [Number]'s [toFixed] and [toPrecision],
    [Date]'s [toISOString], and [encodeURIComponent]. *)

From S2P Require Import Prelude Digits JsString JsInt Bytes Crypto Base58 Bech32 Address Tx Message JsNum JsNumFacts JsNumText Amount Texts Json.

Open Scope Z_scope.
Open Scope list_scope.

(** ** Integers with separators *)

(** A comma after every three digits, on the digits in reverse. *)
Fixpoint group_digits (l : list ascii) : list ascii :=
  match l with
  | a :: b :: c :: (_ :: _) as r => a :: b :: c :: ","%char :: group_digits r
  | _ => l
  end.
(** [n.toLocaleString("en-US")] of a [BigInt]. *)
Definition locale_BigInt (n : Z) : string :=
  (if n <? 0 then "-" else "") +:+ str (reverse (group_digits (reverse (chars (toString (Z.abs n)))))).

(** ** Numbers with a given number of digits *)

(** The integer nearest to [n / d], the larger one of two. *)
Definition nearest_up (n d : Z) : Z := (2 * n + d) / (2 * d).
(** The digits of [n], at least [k] of them. *)
Definition digits_at_least (k : nat) (n : Z) : list ascii := chars (padStart k "0" (toString n)).

(** [x.toFixed(f)] *)
Definition toFixed (f : nat) (x : num) : string :=
  match x with
  | Fin m e =>
      let n := Z.abs m * 2 ^ Z.max 0 e in
      let d := 2 ^ Z.max 0 (- e) in
      if 10 ^ 21 * d <=? n then num_toString x else
      let ds := digits_at_least (S f) (nearest_up (n * 10 ^ Z.of_nat f) d) in
      let k := (length ds - f)%nat in
      (if m <? 0 then "-" else "") +:+ str (take k ds) +:+ (if (f =? 0)%nat then "" else "." +:+ str (drop k ds))
  | _ => num_toString x
  end.

(** The exponent [e] and the [p]-digit integer [n] with [n * 10^(e-p+1)] nearest to [a / b], for positive [a] and [b]. *)
Definition significant (p : Z) (a b : Z) : Z * Z :=
  let e := decimal_exponent a b - 1 in
  let s := e - p + 1 in
  let n := nearest_up (a * 10 ^ Z.max 0 (- s)) (b * 10 ^ Z.max 0 s) in
  if n =? 10 ^ p then (e + 1, 10 ^ (p - 1)) else (e, n).

(** [x.toPrecision(p)] *)
Definition toPrecision (p : Z) (x : num) : string :=
  match x with
  | Fin m e0 =>
      let '(e, n) := if m =? 0 then (0, 0) else significant p (Z.abs m * 2 ^ Z.max 0 e0) (2 ^ Z.max 0 (- e0)) in
      let ds := digits_at_least (Z.to_nat p) n in
      (if m <? 0 then "-" else "") +:+
      (if (e <? -6) || (p <=? e) then
         str (take 1 ds) +:+ (if p =? 1 then "" else "." +:+ str (drop 1 ds)) +:+
         "e" +:+ (if 0 <? e then "+" else "-") +:+ toString (Z.abs e)
       else if e =? p - 1 then str ds
       else if 0 <=? e then str (take (Z.to_nat (e + 1)) ds) +:+ "." +:+ str (drop (Z.to_nat (e + 1)) ds)
       else "0." +:+ str (replicate (Z.to_nat (- (e + 1))) "0"%char) +:+ str ds)
  | _ => num_toString x
  end.

(** ** Dates *)

(** The day, counted from 1970-01-01, on which year [y] begins. *)
Definition DayFromYear (y : Z) : Z := 365 * (y - 1970) + (y - 1969) / 4 - (y - 1901) / 100 + (y - 1601) / 400.
(** The year of a day: an estimate from the mean year, put right by at most one. *)
Definition YearFromDay (d : Z) : Z :=
  let y := 1970 + 400 * d / 146097 in
  if d <? DayFromYear y then y - 1 else if DayFromYear (y + 1) <=? d then y + 1 else y.
Definition leap (y : Z) : bool := DayFromYear (y + 1) - DayFromYear y =? 366.
Definition month_lengths (y : Z) : list Z := [31; if leap y then 29 else 28; 31; 30; 31; 30; 31; 31; 30; 31; 30; 31].
(** The month, from 1, and the day of the month, from 1, of the day [d] of a year, from 0. *)
Fixpoint month_day (m : Z) (lengths : list Z) (d : Z) : Z * Z :=
  match lengths with
  | n :: lengths => if d <? n then (m, d + 1) else month_day (m + 1) lengths (d - n)
  | [] => (m, d + 1)
  end.

(** [n] with at least [k] digits. *)
Definition padded (k : nat) (n : Z) : string := padStart k "0" (toString n).
Definition year_text (y : Z) : string :=
  if (0 <=? y) && (y <=? 9999) then padded 4 y else (if y <? 0 then "-" else "+") +:+ padded 6 (Z.abs y).

(** [new Date(t).toISOString()] for a whole number [t] of milliseconds. *)
Definition iso_text (t : Z) : string :=
  let day := t / 86400000 in
  let ms := t mod 86400000 in
  let y := YearFromDay day in
  let '(mo, d) := month_day 1 (month_lengths y) (day - DayFromYear y) in
  year_text y +:+ "-" +:+ padded 2 mo +:+ "-" +:+ padded 2 d +:+ "T" +:+
  padded 2 (ms / 3600000) +:+ ":" +:+ padded 2 (ms / 60000 mod 60) +:+ ":" +:+ padded 2 (ms / 1000 mod 60) +:+
  "." +:+ padded 3 (ms mod 1000) +:+ "Z".

(** The whole part of [m * 2^e]. *)
Definition fin_trunc (m e : Z) : Z := if 0 <=? e then m * 2 ^ e else Z.quot m (2 ^ (- e)).
(** [new Date(x).toISOString()] *)
Definition toISOString (x : num) : res string :=
  match x with
  | Fin m e => if ltb (Fin 8640000000000000 0) (Fin (Z.abs m) e) then Throw (EngineError "RangeError: Invalid time value")
               else Ok (iso_text (fin_trunc m e))
  | _ => Throw (EngineError "RangeError: Invalid time value")
  end.

(** ** Strings *)

(** [s.replace(p, r)] for a text [p]: the first occurrence. *)
Fixpoint replace_first (p r l : list ascii) : list ascii :=
  match l with
  | [] => if (length p =? 0)%nat then r else []
  | c :: l' => if bool_decide (take (length p) l = p) then r ++ drop (length p) l else c :: replace_first p r l'
  end.
Definition replace (p r s : string) : string := str (replace_first (chars p) (chars r) (chars s)).

(** [encodeURIComponent(s)] *)
Definition unreserved (c : ascii) : bool :=
  let z := code c in
  ((48 <=? z) && (z <=? 57)) || ((65 <=? z) && (z <=? 90)) || ((97 <=? z) && (z <=? 122)) ||
  bool_decide (c ∈ ["-"; "_"; "."; "!"; "~"; "*"; "'"; "("; ")"]%char).
Definition hex_upper (d : Z) : ascii := if d <? 10 then chr (48 + d) else chr (55 + d).
Definition percent_byte (b : Z) : list ascii := ["%"%char; hex_upper (b / 16); hex_upper (b mod 16)].
Definition encodeURIComponent (s : string) : string :=
  str (mjoin ((fun c => if unreserved c then [c] else mjoin (percent_byte <$> utf8_char c)) <$> chars s)).

(** ** The calendar *)

Lemma YearFromDay_spec d : DayFromYear (YearFromDay d) <= d < DayFromYear (YearFromDay d + 1).
Proof.
  unfold YearFromDay. set (y := 1970 + 400 * d / 146097).
  destruct (Z.ltb_spec d (DayFromYear y)); [|destruct (Z.leb_spec (DayFromYear (y + 1)) d)];
    unfold DayFromYear in *; subst y; split; Z.div_mod_to_equations; lia.
Qed.

Lemma year_length y : DayFromYear (y + 1) - DayFromYear y = if leap y then 366 else 365.
Proof.
  unfold leap. destruct (Z.eqb_spec (DayFromYear (y + 1) - DayFromYear y) 366); [done|].
  unfold DayFromYear in *. Z.div_mod_to_equations. lia.
Qed.

Definition total (l : list Z) : Z := foldr Z.add 0 l.

Lemma total_month_lengths y : total (month_lengths y) = DayFromYear (y + 1) - DayFromYear y.
Proof. rewrite year_length. unfold month_lengths. by destruct (leap y). Qed.

Lemma month_day_spec m lengths d : 0 <= d < total lengths -> exists k n e, month_day m lengths d = (m + Z.of_nat k, e + 1) /\
  lengths !! k = Some n /\ 0 <= e < n /\ total (take k lengths) + e = d.
Proof.
  revert m d. induction lengths as [|n l IH]; intros m d Hd; cbn in Hd; [lia|]. cbn [month_day].
  destruct (Z.ltb_spec d n) as [Hlt|Hge].
  - exists 0%nat, n, d. split; [f_equal; lia|]. split; [done|]. cbn. lia.
  - destruct (IH (m + 1) (d - n)) as (k & n' & e & E & Hk & He & Ht); [unfold total; lia|].
    exists (S k), n', e. split; [rewrite E; f_equal; lia|]. split; [done|]. split; [done|]. unfold total in *. cbn. lia.
Qed.

(** Replacing a text whose first character does not occur before it. *)
Lemma replace_first_after c p r l1 l2 : without c l1 = true ->
  replace_first (c :: p) r (l1 ++ (c :: p) ++ l2) = l1 ++ r ++ l2.
Proof.
  intros Hw. induction l1 as [|c' l1 IH]; cbn [app].
  - change ((c :: p) ++ l2) with (c :: (p ++ l2)). cbn [replace_first]. change (c :: p ++ l2) with ((c :: p) ++ l2).
    rewrite take_app_length, bool_decide_eq_true_2, drop_app_length by done. done.
  - cbn in Hw. apply andb_true_iff in Hw as [Hc Hw]. apply negb_true_iff, Ascii.eqb_neq in Hc. cbn [replace_first].
    rewrite bool_decide_eq_false_2; [f_equal; by apply IH|]. cbn. by intros [= ->].
Qed.

(** ** Encoded components *)

Definition encode_char (c : ascii) : list ascii := if unreserved c then [c] else mjoin (percent_byte <$> utf8_char c).

(** What is to be known of each character. *)
Definition char_facts (c : ascii) : bool :=
  without "&" (encode_char c) &&
  (if unreserved c then negb (Ascii.eqb c "+") && negb (Ascii.eqb c "%") && (code c <? 128)
   else forallb (fun b => bool_decide (hex_pair (hex_upper (b / 16)) (hex_upper (b mod 16)) = Some b)) (utf8_char c)) &&
  (if code c <? 128 then true
   else match utf8_char c with
        | [b; b2] => negb (b <? 128) && (((b =? 0xc2) || (b =? 0xc3)) && (128 <=? b2) && (b2 <? 192)) &&
                     Ascii.eqb (chr (64 * (b - 0xc0) + (b2 - 128))) c
        | _ => false
        end).
Lemma char_facts_all c : char_facts c = true.
Proof. destruct c as [[] [] [] [] [] [] [] []]; vm_compute; reflexivity. Qed.

Lemma percent_decode_byte b l : hex_pair (hex_upper (b / 16)) (hex_upper (b mod 16)) = Some b ->
  percent_decode (percent_byte b ++ l) = b :: percent_decode l.
Proof. intros E. cbn [percent_byte app percent_decode]. change (Ascii.eqb "%" "+") with false. change (Ascii.eqb "%" "%") with true. cbn iota. by rewrite E. Qed.

Lemma percent_decode_char c l : percent_decode (encode_char c ++ l) = utf8_char c ++ percent_decode l.
Proof.
  pose proof (char_facts_all c) as Hc. unfold char_facts in Hc. apply andb_true_iff in Hc as [[_ Hc]%andb_true_iff _]. unfold encode_char.
  destruct (unreserved c).
  - cbn [app percent_decode]. apply andb_true_iff in Hc as [[E1 E2]%andb_true_iff Hlt]. apply negb_true_iff in E1, E2. by rewrite E1, E2.
  - induction (utf8_char c) as [|b bs IH]; [done|]. cbn [forallb] in Hc. apply andb_true_iff in Hc as [Hb%bool_decide_eq_true Hc].
    rewrite fmap_cons, mjoin_cons, <-app_assoc, percent_decode_byte by done. cbn [app]. f_equal. by apply IH.
Qed.

Lemma utf8_decode_char c l : utf8_decode (utf8_char c ++ l) = c :: utf8_decode l.
Proof.
  pose proof (char_facts_all c) as Hc. unfold char_facts in Hc. apply andb_true_iff in Hc as [_ Hc]. unfold utf8_char in *.
  destruct (code c <? 128) eqn:E; cbn [app utf8_decode].
  - rewrite E. f_equal. apply chr_code.
  - apply andb_true_iff in Hc as [[Hb Hr]%andb_true_iff Hq%Ascii.eqb_eq]. apply negb_true_iff in Hb. by rewrite Hb, Hr, Hq.
Qed.

Lemma encode_char_without c : without "&" (encode_char c) = true.
Proof. pose proof (char_facts_all c) as Hc. unfold char_facts in Hc. by apply andb_true_iff in Hc as [[Hc _]%andb_true_iff _]. Qed.

Lemma url_decode_encode s : url_decode (chars (encodeURIComponent s)) = s.
Proof.
  unfold url_decode, encodeURIComponent. rewrite chars_str. rewrite <-(str_chars s) at 2. f_equal. fold encode_char.
  induction (chars s) as [|c l IH]; [done|]. rewrite fmap_cons, mjoin_cons. fold (encode_char c).
  rewrite percent_decode_char, utf8_decode_char. by f_equal.
Qed.

(** An encoded component is one parameter of a query. *)
Lemma encoded_param name s : without "&" (chars name) = true -> without "=" (chars name) = true -> name <> "" -> url_decode (chars name) = name ->
  param_get (query_params (name +:+ "=" +:+ encodeURIComponent s)) name = Some s.
Proof.
  intros H1 H2 Hne Hname. unfold query_params, split. rewrite split_list_end.
  - cbn [reverse rev_append app fmap list_fmap omap list_omap]. rewrite chars_str, !chars_app.
    assert (cut_at "=" (chars name ++ chars "=" ++ chars (encodeURIComponent s)) = (chars name, chars (encodeURIComponent s))) as E.
    { clear -H2. induction (chars name) as [|c l IH]; [done|]. cbn in H2. apply andb_true_iff in H2 as [Hc Hl]. apply negb_true_iff in Hc.
      cbn [app cut_at]. rewrite Hc. by rewrite (IH Hl). }
    destruct (chars name) as [|c l] eqn:Ec; [by apply (f_equal str) in Ec; rewrite str_chars in Ec|]. rewrite <-Ec in *.
    destruct (chars name ++ chars "=" ++ chars (encodeURIComponent s)) as [|c' l'] eqn:El; [by rewrite Ec in El|].
    rewrite E, Hname, url_decode_encode. unfold param_get. cbn [List.find fst snd]. by rewrite String.eqb_refl.
  - rewrite !chars_app. unfold without in *. rewrite !forallb_app, H1. cbn [andb chars]. unfold encodeURIComponent. rewrite chars_str. fold encode_char.
    cbn. induction (chars s) as [|c l IH]; [done|]. rewrite fmap_cons, mjoin_cons, forallb_app.
    fold (encode_char c). rewrite IH, andb_true_r. apply encode_char_without.
Qed.
