(* ===== verification/Explorer.v ===== *)
(** * The block explorer's page

    firstislamiccoin-explorer/app.js.  Every page sends its requests, shows a
    loading notice, and is drawn when the replies are in; several can be under
    way at once, so the page is a transition system: an event is a navigation,
    a search, a tick of a timer, or the replies of one of the loads under way.
    The replies are those of [fetch_reply].  The characters of the pages
    outside code units below 256 are written as their UTF-8 bytes. *)

From S2P Require Import Prelude Digits JsString JsInt Bytes Crypto Base58 Bech32 Address Tx Message JsNum JsNumFacts JsNumText Amount Texts Json JsonFacts Keys World Gateway Storage Wallet SendScreen AddressBook JsFormat.

Open Scope Z_scope.
Open Scope list_scope.

Module Explorer.

(** ** Texts *)

Definition ellipsis : string := str [chr 226; chr 128; chr 166].

(** [formatFic] of a [BigInt]. *)
Definition format_fils (s : Z) : string :=
  let neg := s <? 0 in
  let abs := if neg then - s else s in
  let whole := Z.quot abs COIN in
  let frac := padStart 8 "0" (toString (Z.rem abs COIN)) in
  (if neg then "-" else "") +:+ locale_BigInt whole +:+ "." +:+ frac.
Definition formatFic (fils : js) : res string := s ← to_BigInt fils; Ok (format_fils s).

Definition formatTime (unixSeconds : js) : res string :=
  if negb (truthy unixSeconds) then Ok "-" else
  text ← toISOString (mul (to_Number unixSeconds) (of_Z 1000));
  Ok (replace ".000Z" " UTC" (replace "T" " " text)).

Definition shorten (hash : js) (n : Z) : res string :=
  if negb (truthy hash) then Ok "-" else
  len ← get hash "length";
  if ltb (of_Z (n * 2)) (to_Number len) then
    match hash with
    | JStr s => Ok (slice s 0 n +:+ ellipsis +:+ slice_from s (- n))
    | JArr l => Ok (js_toString (JArr (slice_list l 0 n)) +:+ ellipsis +:+ js_toString (JArr (slice_list l (- n) (Z.of_nat (length l)))))
    | _ => Throw (EngineError "TypeError: hash.slice is not a function")
    end
  else Ok (js_toString hash).

(** ** Fragments of the pages *)

(** [${v.k}] *)
Definition text (v : js) (k : string) : res string := x ← get v k; Ok (js_toString x).
(** [formatFic(v.k)] *)
Definition fic (v : js) (k : string) : res string := x ← get v k; formatFic x.
(** [shorten(v.k)] *)
Definition short (v : js) (k : string) : res string := x ← get v k; shorten x 10.
(** [v.k.toLocaleString("en-US")] *)
Definition locale `{Browser} (v : js) (k : string) : res string :=
  x ← get v k;
  if nullishb x then Throw (EngineError "TypeError: Cannot read properties (reading toLocaleString)") else Ok (locale_string x).
Definition truth (v : js) (k : string) : res bool := x ← get v k; Ok (truthy x).
(** [v.k !== null] *)
Definition not_null (v : js) (k : string) : res bool := x ← get v k; Ok (match x with JNull => false | _ => true end).
Definition rows_of {A} (f : A -> res string) (l : list A) : res string := html ← mapR f l; Ok (join_html html).
Definition array (v : js) (k : string) : res (list js) := x ← get v k; array_of x.

Definition detail_class (k_class k v_class v : string) : string :=
  q "<div class=`detail-row`><span class=`" +:+ k_class +:+ q "`>" +:+ k +:+ q "</span><span class=`" +:+ v_class +:+ q "`>" +:+ v +:+ "</span></div>".
Definition detail (k v : string) : string := detail_class "k" k "v" v.
Definition detail_mono (k v : string) : string := detail_class "k" k "v mono" v.
Definition link (target label : string) : string := q "<a href=`#/" +:+ target +:+ q "`>" +:+ label +:+ "</a>".
Definition badge (class label : string) : string := q "<span class=`badge " +:+ class +:+ q "`>" +:+ label +:+ "</span>".
Definition tile (label v : string) : string :=
  q "<div class=`stat-tile`><div class=`label`>" +:+ label +:+ q "</div><div class=`value`>" +:+ v +:+ "</div></div>".
Definition card (n : nat) (body : string) : string := line n +:+ q "<div class=`card`>" +:+ body +:+ line n +:+ "</div>".
Definition heading (tag label : string) : string := line 8 +:+ "<" +:+ tag +:+ q " style=`margin-top:0`>" +:+ label +:+ "</" +:+ tag +:+ ">".
Definition table (head rows : string) : string :=
  line 8 +:+ "<table>" +:+ line 10 +:+ "<thead><tr>" +:+ head +:+ "</tr></thead>" +:+ line 10 +:+ "<tbody>" +:+ line 12 +:+ rows +:+
  line 10 +:+ "</tbody>" +:+ line 8 +:+ "</table>".
Definition notice (s : string) : string := q "<p class=`notice`>" +:+ s +:+ "</p>".

Definition error_html (message : string) : string := q "<div class=`card error`>" +:+ message +:+ "</div>".
Definition loading_html (s : string) : string := q "<div class=`notice`>" +:+ s +:+ ellipsis +:+ "</div>".

(** ** The supply chart *)

(** The two coordinates of a point, as they are printed. *)
Definition chart_point (maxHeight : js) (minSupply span : Z) (p : js) : res string :=
  height ← get p "height";
  let x := add (of_Z 8) (mul (div (to_Number height) (to_Number maxHeight)) (of_Z (600 - 2 * 8))) in
  supply ← get p "total_supply_fils";
  supply ← to_BigInt supply;
  let frac := div (of_Z (Z.quot ((supply - minSupply) * 1000) span)) (of_Z 1000) in
  let y := sub (of_Z (140 - 8)) (mul frac (of_Z (140 - 2 * 8))) in
  Ok (toFixed 1 x +:+ "," +:+ toFixed 1 y).

Definition supplyChartSvg (points : js) : res string :=
  len ← get points "length";
  if ltb (to_Number len) (of_Z 2) then Ok "" else
  l ← array_of points;
  let last := at_index l (length l - 1) in
  h ← get last "height";
  let maxHeight := if truthy h then h else JNum (of_Z 1) in
  s ← get last "total_supply_fils"; s ← to_BigInt s;
  let maxSupply := if s =? 0 then 1 else s in
  s ← get (at_index l 0) "total_supply_fils"; minSupply ← to_BigInt s;
  let span := if maxSupply - minSupply =? 0 then 1 else maxSupply - minSupply in
  coords ← mapR (chart_point maxHeight minSupply span) l;
  Ok (line 4 +:+ q "<svg viewBox=`0 0 600 140` style=`width:100%;height:140px;`>" +:+
      line 6 +:+ q "<polyline points=`" +:+ str_join " " coords +:+ q "` fill=`none` stroke=`#D4AF37` stroke-width=`2` />" +:+
      line 4 +:+ "</svg>").

(** ** The pages *)

Definition home_html `{Browser} (stats supply : js) : res string :=
  height ← locale stats "height";
  difficulty ← get stats "difficulty";
  reward ← fic stats "fixed_reward_fils";
  total ← fic stats "total_supply_fils";
  best ← text stats "best_block_hash";
  best_short ← short stats "best_block_hash";
  chain ← text stats "chain";
  premine ← fic stats "premine_total_fils";
  emission ← fic stats "annual_emission_fils";
  points ← get supply "points";
  chart ← supplyChartSvg points;
  Ok (line 6 +:+ q "<div class=`stats-grid`>" +:+
      line 8 +:+ tile "Height" height +:+
      line 8 +:+ tile "Difficulty" (toPrecision 4 (to_Number difficulty)) +:+
      line 8 +:+ tile "Block reward" (reward +:+ " + fees") +:+
      line 8 +:+ tile "Total supply" (total +:+ " FIC") +:+
      line 6 +:+ "</div>" +:+
      card 6 (line 8 +:+ detail_mono "Best block" (link ("block/" +:+ best) best_short) +:+
              line 8 +:+ detail "Chain" chain +:+
              line 8 +:+ detail "Genesis premine" (premine +:+ " FIC") +:+
              line 8 +:+ detail "Fixed reward per block" (reward +:+ " FIC + fees") +:+
              line 8 +:+ detail "Annual emission (constant)" (emission +:+ " FIC/yr")) +:+
      card 6 (heading "h3" "Total supply" +:+ line 8 +:+ chart +:+
              line 8 +:+ notice ("Exact at every height: premine + 10 FIC &times; blocks staked since genesis. See " +:+
                                 link "staking" "staking stats" +:+ " for emission detail.")) +:+
      card 6 (line 8 +:+ link "richlist" "View rich list &rarr;") +:+
      card 6 (line 8 +:+ notice ("Enter a block height, block hash, transaction id, or address above to look it up." +:+
                                 line 8 +:+ "This page auto-refreshes every 20s.")) +:+
      line 4).

Definition richlist_row (i : nat) (a : js) : res string :=
  address ← get a "address";
  label ← shorten address 14;
  balance ← fic a "balance_fils";
  Ok (line 14 +:+ "<tr>" +:+
      line 16 +:+ "<td>" +:+ toString (Z.of_nat i + 1) +:+ "</td>" +:+
      line 16 +:+ q "<td class=`mono`>" +:+ link ("address/" +:+ js_toString address) label +:+ "</td>" +:+
      line 16 +:+ "<td>" +:+ balance +:+ " FIC</td>" +:+
      line 14 +:+ "</tr>").

Definition richlist_html (data : js) : res string :=
  from ← text data "scanned_from_height";
  to ← text data "scanned_to_height";
  truncated ← truth data "truncated";
  l ← array data "addresses";
  rows ← map_indexed richlist_row l;
  Ok (card 6 (heading "h2" "Rich list" +:+
              line 8 +:+ notice ("Computed from blocks " +:+ from +:+ "&ndash;" +:+ to +:+
                                 (if truncated : bool then " (older history not included -- see API note)" else "") +:+ ".") +:+
              table "<th>#</th><th>Address</th><th>Balance</th>" (join_html rows)) +:+
      line 4).

Definition staking_html `{Browser} (s : js) : res string :=
  reward ← text s "current_block_reward_fic";
  emission ← locale s "annual_emission_fic";
  per_day ← get s "blocks_per_day";
  measured ← get s "measured_over_blocks";
  target ← text s "target_blocks_per_day";
  note ← text s "note";
  Ok (card 6 (heading "h2" "Staking statistics" +:+
              line 8 +:+ detail "Current block reward" (reward +:+ " FIC + fees, fixed") +:+
              line 8 +:+ detail "Annual emission" (emission +:+ " FIC/yr") +:+
              line 8 +:+ detail "Blocks/day (measured)"
                ((if nullishb per_day then "-" else js_toString per_day) +:+ " " +:+
                 (if truthy measured then "(last " +:+ js_toString measured +:+ " blocks)" else "")) +:+
              line 8 +:+ detail "Blocks/day (target)" target +:+
              line 8 +:+ detail "Active stake weight" "not available" +:+
              line 8 +:+ detail "Delegated (P2CS/cold) staking" "not built yet") +:+
      card 6 (line 8 +:+ notice note) +:+
      line 4).

(** The link to a neighbouring block, or [none]. *)
Definition block_link (b : js) (k none : string) : res string :=
  h ← get b k;
  if truthy h then label ← shorten h 10; Ok (link ("block/" +:+ js_toString h) label) else Ok none.

Definition block_row (genesis : bool) (t : js) : res string :=
  txid ← text t "txid";
  label ← short t "txid";
  coinbase ← truth t "is_coinbase";
  coinstake ← truth t "is_coinstake";
  total ← fic t "output_total_fils";
  let origin := if genesis then "genesis" else "coinbase" in
  Ok (line 14 +:+ "<tr>" +:+
      line 16 +:+ q "<td class=`mono`>" +:+ link ("tx/" +:+ txid) label +:+ "</td>" +:+
      line 16 +:+ "<td>" +:+ (if coinbase : bool then badge origin origin
                              else if coinstake : bool then badge "pos" "coinstake" else "transfer") +:+ "</td>" +:+
      line 16 +:+ "<td>" +:+ total +:+ " FIC</td>" +:+
      line 14 +:+ "</tr>").

Definition block_html (b : js) : res string :=
  genesis ← truth b "is_genesis";
  pos ← truth b "is_proof_of_stake";
  height ← text b "height";
  hash ← text b "hash";
  time ← get b "time"; time ← formatTime time;
  difficulty ← text b "difficulty";
  bits ← text b "bits";
  root ← short b "merkleroot";
  previous ← block_link b "previousblockhash" "-";
  next ← block_link b "nextblockhash" "(tip)";
  count ← text b "tx_count";
  txs ← array b "transactions";
  rows ← rows_of (block_row genesis) txs;
  let kind := if genesis : bool then badge "genesis" "genesis" else if pos : bool then badge "pos" "PoS" else badge "pow" "PoW" in
  Ok (card 6 (heading "h2" ("Block " +:+ height +:+ " " +:+ kind) +:+
              line 8 +:+ detail_mono "Hash" hash +:+
              line 8 +:+ detail "Time" time +:+
              line 8 +:+ detail "Difficulty" difficulty +:+
              line 8 +:+ detail_mono "Bits" bits +:+
              line 8 +:+ detail_mono "Merkle root" root +:+
              line 8 +:+ detail_mono "Previous block" previous +:+
              line 8 +:+ detail_mono "Next block" next) +:+
      card 6 (heading "h3" ("Transactions (" +:+ count +:+ ")") +:+
              table "<th>Txid</th><th>Type</th><th>Outputs</th>" rows) +:+
      line 4).

Definition vin_row (vin : js) : res string :=
  coinbase ← get vin "coinbase";
  if truthy coinbase then Ok (detail_mono "Coinbase" (js_toString coinbase)) else
  txid ← short vin "txid";
  n ← text vin "vout";
  Ok (detail_class "k mono" (txid +:+ ":" +:+ n) "v" "").

Definition vout_row (vout : js) : res string :=
  script ← get vout "scriptPubKey";
  address ← get script "address";
  kind ← get script "type";
  let label := if truthy address then js_toString address else if truthy kind then js_toString kind else "(no address)" in
  value ← get vout "value";
  amount ← formatFic (JNum (math_round (mul (to_Number value) (of_Z COIN))));
  Ok (line 10 +:+ q "<div class=`detail-row`>" +:+
      line 12 +:+ q "<span class=`k mono`>" +:+ label +:+ "</span>" +:+
      line 12 +:+ q "<span class=`v`>" +:+ amount +:+ " FIC</span>" +:+
      line 10 +:+ "</div>").

(** A line shown unless the amount is [null]. *)
Definition reward_line (t : js) (k label : string) : res string :=
  shown ← not_null t k;
  if shown : bool then amount ← fic t k; Ok (detail label (amount +:+ " FIC")) else Ok "".

Definition tx_html (t : js) : res string :=
  coinbase ← truth t "is_coinbase";
  coinstake ← truth t "is_coinstake";
  txid ← text t "txid";
  confirmed ← not_null t "height";
  blockhash ← text t "blockhash";
  height ← text t "height";
  confirmations ← text t "confirmations";
  time ← get t "time"; time ← formatTime time;
  reward ← reward_line t "reward_fils" "Staking reward (fixed + fees)";
  fees ← reward_line t "reward_fees_fils" "&nbsp;&nbsp;of which fees";
  vin ← get t "vin"; n_in ← text vin "length"; vin ← array_of vin; ins ← rows_of vin_row vin;
  vout ← get t "vout"; n_out ← text vout "length"; vout ← array_of vout; outs ← rows_of vout_row vout;
  let kind := if coinbase : bool then badge "coinbase" "coinbase" else if coinstake : bool then badge "pos" "coinstake" else "transfer" in
  Ok (card 6 (heading "h2" ("Transaction " +:+ kind) +:+
              line 8 +:+ detail_mono "Txid" txid +:+
              line 8 +:+ detail "Block" (if confirmed : bool then link ("block/" +:+ blockhash) height else "unconfirmed") +:+
              line 8 +:+ detail "Confirmations" confirmations +:+
              line 8 +:+ detail "Time" time +:+
              line 8 +:+ reward +:+
              line 8 +:+ fees) +:+
      card 6 (heading "h3" ("Inputs (" +:+ n_in +:+ ")") +:+ line 8 +:+ ins) +:+
      card 6 (heading "h3" ("Outputs (" +:+ n_out +:+ ")") +:+ line 8 +:+ outs) +:+
      line 4).

Definition utxo_row (u : js) : res string :=
  txid ← text u "txid";
  label ← short u "txid";
  n ← text u "vout";
  confirmed ← not_null u "height";
  height ← text u "height";
  amount ← fic u "value_fils";
  minted ← truth u "is_coinbase_or_coinstake";
  Ok (line 14 +:+ "<tr>" +:+
      line 16 +:+ q "<td class=`mono`>" +:+ link ("tx/" +:+ txid) label +:+ ":" +:+ n +:+ "</td>" +:+
      line 16 +:+ "<td>" +:+ (if confirmed : bool then link ("block/" +:+ height) height else "-") +:+ "</td>" +:+
      line 16 +:+ "<td>" +:+ amount +:+ " FIC " +:+ (if minted : bool then badge "coinbase" "coinbase/stake" else "") +:+ "</td>" +:+
      line 14 +:+ "</tr>").

Definition address_html (a : js) : res string :=
  address ← text a "address";
  balance ← fic a "balance_fils";
  count ← text a "utxo_count";
  note ← text a "note";
  l ← array a "utxos";
  rows ← rows_of utxo_row l;
  Ok (card 6 (heading "h2" "Address" +:+
              line 8 +:+ detail_mono "Address" address +:+
              line 8 +:+ detail "Balance" (balance +:+ " FIC") +:+
              line 8 +:+ detail "UTXOs" count) +:+
      card 6 (line 8 +:+ notice note) +:+
      card 6 (heading "h3" "Unspent outputs" +:+ table "<th>Txid</th><th>Height</th><th>Value</th>" rows) +:+
      line 4).

(** ** Routing *)

Inductive view : Type :=
  | VHome | VBlock (id : string) | VTx (id : string) | VAddress (id : string) | VRichlist | VStaking | VUnknown.

#[global] Instance view_eq_dec : EqDecision view.
Proof. solve_decision. Defined.

(** [hash.replace(/^#\/?/, "")] *)
Definition strip_hash (hash : string) : string :=
  match chars hash with
  | "#"%char :: "/"%char :: l => str l
  | "#"%char :: l => str l
  | l => str l
  end.

(** The page of a location: [kind] is the part up to the first slash, [id] the rest. *)
Definition view_of (hash : string) : view :=
  let parts := split (strip_hash hash) "/" in
  let kind := default "" (head parts) in
  let id := str_join "/" (tail parts) in
  if String.eqb kind "" then VHome
  else if String.eqb kind "block" then VBlock id
  else if String.eqb kind "tx" then VTx id
  else if String.eqb kind "address" then VAddress id
  else if String.eqb kind "richlist" then VRichlist
  else if String.eqb kind "staking" then VStaking
  else VUnknown.
(** The location the pages link to. *)
Definition href (v : view) : string :=
  "#/" +:+ match v with
           | VHome => "" | VBlock id => "block/" +:+ id | VTx id => "tx/" +:+ id | VAddress id => "address/" +:+ id
           | VRichlist => "richlist" | VStaking => "staking" | VUnknown => "?"
           end.

(** The paths a page requests. *)
Definition paths (v : view) : list string :=
  match v with
  | VHome => ["/api/stats"; "/api/supply-series"]
  | VBlock id => ["/api/block/" +:+ id] | VTx id => ["/api/tx/" +:+ id] | VAddress id => ["/api/address/" +:+ id]
  | VRichlist => ["/api/richlist?limit=25"] | VStaking => ["/api/staking-stats"] | VUnknown => []
  end.
Definition loading (v : view) : string :=
  loading_html (match v with VRichlist => "Loading (this scans recent blocks, may take a moment)" | _ => "Loading" end).

(** [api]'s result once the server has answered. *)
Definition api_result (reply : res response) : res js :=
  resp ← reply;
  data ← rs_json resp;
  if rs_ok resp then Ok data else
  e ← get data "error";
  Throw (JsError (if truthy e then js_toString e else "Request failed (" +:+ toString (rs_status resp) +:+ ")")).

(** ** The page as a transition system *)

(** A load under way, with what its requests will resolve to, or a search. *)
Inductive task : Type :=
  | Load (v : view) (results : list (res js))
  | Search (result : res js).

Record explorer : Type := {
  API_BASE : string;
  app : string;
  chainBadge : string;
  hash : string;
  homeRefreshTimer : option nat;
  intervals : list nat;
  made : nat;
  sent : list request;
  pending : list task
}.
Definition set_app (v : string) (r : explorer) : explorer := {|
  API_BASE := API_BASE r; app := v; chainBadge := chainBadge r; hash := hash r;
  homeRefreshTimer := homeRefreshTimer r; intervals := intervals r; made := made r; sent := sent r; pending := pending r |}.
Definition set_chainBadge (v : string) (r : explorer) : explorer := {|
  API_BASE := API_BASE r; app := app r; chainBadge := v; hash := hash r;
  homeRefreshTimer := homeRefreshTimer r; intervals := intervals r; made := made r; sent := sent r; pending := pending r |}.
Definition set_hash (v : string) (r : explorer) : explorer := {|
  API_BASE := API_BASE r; app := app r; chainBadge := chainBadge r; hash := v;
  homeRefreshTimer := homeRefreshTimer r; intervals := intervals r; made := made r; sent := sent r; pending := pending r |}.
Definition set_homeRefreshTimer (v : option nat) (r : explorer) : explorer := {|
  API_BASE := API_BASE r; app := app r; chainBadge := chainBadge r; hash := hash r;
  homeRefreshTimer := v; intervals := intervals r; made := made r; sent := sent r; pending := pending r |}.
Definition set_intervals (v : list nat) (r : explorer) : explorer := {|
  API_BASE := API_BASE r; app := app r; chainBadge := chainBadge r; hash := hash r;
  homeRefreshTimer := homeRefreshTimer r; intervals := v; made := made r; sent := sent r; pending := pending r |}.
Definition set_made (v : nat) (r : explorer) : explorer := {|
  API_BASE := API_BASE r; app := app r; chainBadge := chainBadge r; hash := hash r;
  homeRefreshTimer := homeRefreshTimer r; intervals := intervals r; made := v; sent := sent r; pending := pending r |}.
Definition set_sent (v : list request) (r : explorer) : explorer := {|
  API_BASE := API_BASE r; app := app r; chainBadge := chainBadge r; hash := hash r;
  homeRefreshTimer := homeRefreshTimer r; intervals := intervals r; made := made r; sent := v; pending := pending r |}.
Definition set_pending (v : list task) (r : explorer) : explorer := {|
  API_BASE := API_BASE r; app := app r; chainBadge := chainBadge r; hash := hash r;
  homeRefreshTimer := homeRefreshTimer r; intervals := intervals r; made := made r; sent := sent r; pending := v |}.

Section Page.
Context `{Browser}.

Definition render (html : string) (s : explorer) : explorer := set_app html s.
Definition renderError (message : string) (s : explorer) : explorer := render (error_html message) s.

(** [api(path)] up to the reply. *)
Definition api (path : string) (s : explorer) : res js * explorer :=
  let rq := {| rq_method := "GET"; rq_url := API_BASE s +:+ path; rq_auth := None; rq_body := None |} in
  (api_result (fetch_reply (sent s) rq), set_sent (sent s ++ [rq]) s).
Fixpoint api_all (ps : list string) (s : explorer) : list (res js) * explorer :=
  match ps with
  | [] => ([], s)
  | p :: ps => let '(r, s) := api p s in let '(rs, s) := api_all ps s in (r :: rs, s)
  end.
Definition add_task (t : task) (s : explorer) : explorer := set_pending (pending s ++ [t]) s.

(** [if (homeRefreshTimer) { clearInterval(homeRefreshTimer); homeRefreshTimer = null; }] *)
Definition clear_timer (s : explorer) : explorer :=
  match homeRefreshTimer s with
  | Some t => set_homeRefreshTimer None (set_intervals (filter (fun i => i <> t) (intervals s)) s)
  | None => s
  end.
(** [homeRefreshTimer = setInterval(...)] *)
Definition set_timer (s : explorer) : explorer :=
  set_homeRefreshTimer (Some (made s)) (set_intervals (intervals s ++ [made s]) (set_made (S (made s)) s)).

(** A page up to its first reply: the notice and the requests. *)
Definition begin_view (v : view) (s : explorer) : explorer :=
  match v with
  | VUnknown => renderError "Unknown page" s
  | _ => let '(rs, s) := api_all (paths v) (render (loading v) s) in add_task (Load v rs) s
  end.
Definition renderHome (s : explorer) : explorer := begin_view VHome (clear_timer s).

(** [route]: every page but the home page stops the timer here, the home page in [renderHome]. *)
Definition route (s : explorer) : explorer :=
  match view_of (hash s) with
  | VHome => renderHome s
  | v => begin_view v (clear_timer s)
  end.

(** [Promise.all] of the two requests of the home page; of two rejections the earlier one counts. *)
Definition promise_all (second_first : bool) (r1 r2 : res js) : res (js * js) :=
  match r1, r2 with
  | Ok a, Ok b => Ok (a, b)
  | Throw e1, Throw e2 => Throw (if second_first then e2 else e1)
  | Throw e, _ | _, Throw e => Throw e
  end.

(** The home page once its replies are in. *)
Definition finish_home (result : res (js * js)) (s : explorer) : explorer :=
  match result with
  | Throw e => renderError (err_message e) s
  | Ok (stats, supply) =>
      match get stats "chain" with
      | Throw e => renderError (err_message e) s
      | Ok chain =>
          let s := set_chainBadge (content_text chain) s in
          match home_html stats supply with
          | Throw e => renderError (err_message e) s
          | Ok html => set_timer (render html s)
          end
      end
  end.
(** The page of a view other than home from its reply. *)
Definition page_html (v : view) (data : js) : res string :=
  match v with
  | VBlock _ => block_html data | VTx _ => tx_html data | VAddress _ => address_html data
  | VRichlist => richlist_html data | VStaking => staking_html data
  | VHome | VUnknown => Ok ""
  end.
Definition finish_view (v : view) (result : res js) (s : explorer) : explorer :=
  match (data ← result; page_html v data) with
  | Ok html => render html s
  | Throw e => renderError (err_message e) s
  end.
Definition finish_load (second_first : bool) (v : view) (results : list (res js)) (s : explorer) : explorer :=
  match v, results with
  | VHome, [r1; r2] => finish_home (promise_all second_first r1 r2) s
  | _, [r] => finish_view v r s
  | _, _ => s
  end.

(** A location is stored percent-encoded, without tabs and line breaks. *)
Definition fragment (s : string) : string :=
  str (mjoin ((fun c =>
    let z := code c in
    if bool_decide (z ∈ [9; 10; 13]) then []
    else if (z <? 32) || (126 <? z) || bool_decide (z ∈ [32; 34; 60; 62; 96]) then mjoin (percent_byte <$> utf8_char c)
    else [c]) <$> chars s)).
(** The location changes, and with it the page. *)
Definition navigate (h : string) (s : explorer) : explorer :=
  if String.eqb h (hash s) then s else route (set_hash h s).

Definition doSearch (input : string) (s : explorer) : explorer :=
  let query := trim input in
  if String.eqb query "" then s else
  let '(r, s) := api ("/api/search?q=" +:+ encodeURIComponent query) s in
  add_task (Search r) s.
(** The location a search leads to. *)
Definition search_target (result : res js) : res string :=
  data ← result; kind ← text data "type"; id ← text data "id"; Ok ("#/" +:+ kind +:+ "/" +:+ id).
Definition finish_search (result : res js) (s : explorer) : explorer :=
  match search_target result with
  | Ok h => navigate (fragment h) s
  | Throw e => renderError (err_message e) s
  end.

Inductive event : Type :=
  | Navigate (h : string)
  | DoSearch (input : string)
  | Tick (t : nat)
  | Settle (second_first : bool) (i : nat).

Definition tick (t : nat) (s : explorer) : explorer :=
  if bool_decide (t ∈ intervals s) && (String.eqb (hash s) "" || String.eqb (hash s) "#/") then renderHome s else s.
Definition settle (second_first : bool) (i : nat) (s : explorer) : explorer :=
  match pending s !! i with
  | Some (Load v rs) => finish_load second_first v rs (set_pending (delete i (pending s)) s)
  | Some (Search r) => finish_search r (set_pending (delete i (pending s)) s)
  | None => s
  end.
Definition step (s : explorer) (e : event) : explorer :=
  match e with
  | Navigate h => navigate h s
  | DoSearch input => doSearch input s
  | Tick t => tick t s
  | Settle b i => settle b i s
  end.

(** The page when its script has run, at location [h]. *)
Definition blank (base h : string) : explorer := {|
  API_BASE := base; app := ""; chainBadge := ""; hash := h; homeRefreshTimer := None; intervals := []; made := 0%nat;
  sent := []; pending := [] |}.
Definition base_of (stored : option string) : string := default "" stored.
Definition open (stored : option string) (h : string) : explorer := route (blank (base_of stored) h).

End Page.

End Explorer.
