(* ===== verification/ExplorerFacts.v ===== *)
(** * What the explorer shows

    The texts of amounts and times, the links, and the page under every order
    of navigation and replies. *)

From S2P Require Import Prelude Digits JsString JsInt Bytes Crypto Base58 Bech32 Address Tx Message JsNum JsNumFacts JsNumText Amount Texts Json JsonFacts Keys World Gateway Storage Wallet SendScreen AddressBook JsFormat Explorer.

Open Scope Z_scope.
Open Scope list_scope.

Module ExplorerFacts.
Import Explorer.

(** ** Amounts *)

Lemma group_ind (P : list ascii -> Prop) : (forall l, (length l <= 3)%nat -> P l) ->
  (forall a b c d r, P (d :: r) -> P (a :: b :: c :: d :: r)) -> forall l, P l.
Proof.
  intros Hs Hg l. remember (length l) as n eqn:E. assert (length l <= n)%nat as Hn by lia. clear E. revert l Hn.
  induction n as [|n IH]; intros l Hn; [apply Hs; lia|].
  destruct l as [|a [|b [|c [|d r]]]]; try (apply Hs; cbn; lia). apply Hg, IH. cbn in *. lia.
Qed.

Lemma group_small l : (length l <= 3)%nat -> group_digits l = l.
Proof. destruct l as [|a [|b [|c [|d r]]]]; cbn; try done; lia. Qed.

Lemma filter_without l : without "," l = true -> filter (fun c => c <> ","%char) l = l.
Proof.
  induction l as [|c l IH]; [done|]. cbn [without forallb]. intros [Hc Hl]%andb_true_iff.
  apply negb_true_iff, Ascii.eqb_neq in Hc. rewrite filter_cons_True by done. f_equal. by apply IH.
Qed.

Lemma group_plain l : without "," l = true -> filter (fun c => c <> ","%char) (group_digits l) = l.
Proof.
  induction l as [l Hl|a b c d r IH] using group_ind; intros Hw; [rewrite group_small by done; by apply filter_without|].
  cbn [without forallb] in Hw. apply andb_true_iff in Hw as [Ha [Hb [Hc Hr]%andb_true_iff]%andb_true_iff].
  apply negb_true_iff, Ascii.eqb_neq in Ha, Hb, Hc. change (group_digits (a :: b :: c :: d :: r)) with (a :: b :: c :: ","%char :: group_digits (d :: r)).
  rewrite !filter_cons_True by done. rewrite filter_cons_False by (intros Hn; by apply Hn). do 3 f_equal. by apply IH.
Qed.

Lemma group_commas l i c : without "," l = true -> group_digits l !! i = Some c -> (c = ","%char <-> i `mod` 4 = 3)%nat.
Proof.
  assert (forall l i c, without "," l = true -> l !! i = Some c -> c <> ","%char) as Hd.
  { clear. intros l i c Hw Hi. unfold without in Hw. rewrite List.forallb_forall in Hw.
    apply Ascii.eqb_neq, negb_true_iff, Hw, list_elem_of_In. by eapply list_elem_of_lookup_2. }
  revert i. induction l as [l Hl|a b c' d r IH] using group_ind; intros i Hw Hi.
  - rewrite group_small in Hi by done. pose proof (lookup_lt_Some _ _ _ Hi). rewrite Nat.mod_small by lia.
    split; [intros ->; by destruct (Hd _ _ _ Hw Hi)|lia].
  - change (group_digits (a :: b :: c' :: d :: r)) with ([a; b; c'] ++ ","%char :: group_digits (d :: r)) in Hi.
    pose proof Hw as Hw'. cbn [without forallb] in Hw'. apply andb_true_iff in Hw' as [_ [_ [_ Hr]%andb_true_iff]%andb_true_iff].
    destruct (decide (i < 3)%nat) as [Hlt|Hge].
    + assert ((a :: b :: c' :: d :: r) !! i = Some c) as Hi' by (destruct i as [|[|[|]]]; [done|done|done|lia]).
      rewrite Nat.mod_small by lia. split; [intros ->; by destruct (Hd _ _ _ Hw Hi')|lia].
    + destruct (decide (i = 3)%nat) as [->|Hne]; [by injection Hi as <-|].
      rewrite lookup_app_r in Hi by (cbn; lia). cbn [length] in Hi. destruct (i - 3)%nat as [|j] eqn:Ej; [lia|]. cbn in Hi.
      rewrite (IH j Hr Hi). replace i with (j + 1 * 4)%nat by lia. by rewrite Nat.Div0.mod_add.
Qed.

Lemma group_last l : last (group_digits l) = last l.
Proof.
  induction l as [l Hl|a b c d r IH] using group_ind; [by rewrite group_small|].
  change (group_digits (a :: b :: c :: d :: r)) with (a :: b :: c :: ","%char :: group_digits (d :: r)).
  assert (group_digits (d :: r) <> []) as Hne by (destruct r as [|? [|? [|? ?]]]; done).
  destruct (group_digits (d :: r)); [done|]. exact IH.
Qed.

Lemma without_reverse sep l : without sep l = true -> without sep (reverse l) = true.
Proof.
  unfold without. rewrite !List.forallb_forall. intros Hl c Hc. apply Hl.
  apply list_elem_of_In, elem_of_reverse, list_elem_of_In. exact Hc.
Qed.

(** The explorer's amounts.  Without its separators the text is the exact
    decimal of the amount, the wallet's text with a minus sign in front of a
    negative one; and counted from the point leftwards, every fourth character
    of the whole part is a comma and no other one, and it does not begin with
    one. *)
Theorem explorer_amount_text n :
  filter (fun c => c <> ","%char) (chars (format_fils n)) =
    chars ((if n <? 0 then "-" else "") +:+ Amount.formatFic (Z.abs n)) /\
  exists sign whole frac, format_fils n = sign +:+ str (reverse whole) +:+ "." +:+ frac /\ (sign = "" \/ sign = "-") /\
    (forall i c, whole !! i = Some c -> (c = ","%char <-> i `mod` 4 = 3)%nat) /\ last whole <> Some ","%char.
Proof.
  set (sign := if n <? 0 then "-" else ""). set (w := Z.quot (Z.abs n) COIN).
  set (frac := padStart 8 "0" (toString (Z.rem (Z.abs n) COIN))). set (whole := group_digits (reverse (chars (toString w)))).
  assert (0 <= w) as Hw by (apply Z.quot_pos; [lia|done]).
  assert (format_fils n = sign +:+ str (reverse whole) +:+ "." +:+ frac) as E.
  { unfold format_fils. replace (if n <? 0 then - n else n) with (Z.abs n) by (destruct (Z.ltb_spec n 0); lia).
    fold sign w frac. unfold locale_BigInt. rewrite (proj2 (Z.ltb_ge w 0)), (Z.abs_eq w) by done. done. }
  assert (without "," (chars frac) = true) as Hfrac.
  { unfold frac, padStart, repeat_char. rewrite chars_app, chars_str. unfold without. rewrite forallb_app. apply andb_true_iff.
    split; [|by apply toString_without]. apply List.forallb_forall. intros c [-> _]%list_elem_of_In%elem_of_replicate. done. }
  assert (without "," (reverse (chars (toString w))) = true) as Hdigits by (by apply without_reverse, toString_without).
  rewrite E. split.
  - rewrite !chars_app, chars_str, !filter_app, filter_reverse. unfold whole. rewrite group_plain, reverse_involutive by done.
    change (filter _ (chars ".")) with (chars "."). rewrite (filter_without (chars frac) Hfrac).
    unfold Amount.formatFic. fold w frac. rewrite !chars_app. f_equal. unfold sign. by destruct (n <? 0).
  - exists sign, whole, frac. split; [done|]. split; [unfold sign; destruct (n <? 0); auto|]. split.
    + intros i c. by apply group_commas.
    + unfold whole. rewrite group_last. intros Hl%last_Some_elem_of. unfold without in Hdigits. rewrite List.forallb_forall in Hdigits.
      by specialize (Hdigits _ (proj1 (list_elem_of_In _ _) Hl)).
Qed.

(** ** Times *)

Lemma padded_without sep k n : is_digit 10 sep = false -> sep <> "-"%char -> without sep (chars (padded k n)) = true.
Proof.
  intros Hd Hm. unfold padded, padStart, repeat_char. rewrite chars_app, chars_str. unfold without. rewrite forallb_app. apply andb_true_iff.
  split; [|by apply toString_without]. apply List.forallb_forall. intros c [-> _]%list_elem_of_In%elem_of_replicate.
  apply negb_true_iff, Ascii.eqb_neq. by intros <-.
Qed.

Lemma without_app sep l1 l2 : without sep (l1 ++ l2) = without sep l1 && without sep l2.
Proof. apply forallb_app. Qed.

Lemma to_millis n : 0 < n < 2 ^ 43 -> mul (of_Z n) (of_Z 1000) = of_Z (n * 1000).
Proof.
  intros Hn. rewrite (of_Z_exact n) by lia. destruct (norm_int n) as (m & e & -> & He & <-).
  change (of_Z 1000) with (Fin 125 3). cbn [mul]. unfold rn_dyadic, of_Z. rewrite (Z.max_r 0), (Z.max_l 0) by lia.
  f_equal. rewrite Z.pow_add_r by lia. lia.
Qed.

Lemma toISOString_int t : 0 < t < 2 ^ 52 -> toISOString (of_Z t) = Ok (iso_text t).
Proof.
  intros Ht. rewrite of_Z_exact by lia. destruct (norm_int t) as (m & e & -> & He & Hv). unfold toISOString, fin_trunc.
  rewrite (proj2 (Z.leb_le 0 e)), Hv by done. cbn [ltb]. unfold fin_ltb. rewrite Z.min_l by lia.
  rewrite !Z.sub_0_r. change (2 ^ 0) with 1. rewrite Z.mul_1_r. assert (0 <= m) by nia. rewrite Z.abs_eq by done. rewrite Hv. by rewrite (proj2 (Z.ltb_ge _ _)) by lia.
Qed.

(** [YYYY-MM-DD hh:mm:ss UTC] *)
Definition clock_text (y mo d h mi s : Z) : string :=
  padded 4 y +:+ "-" +:+ padded 2 mo +:+ "-" +:+ padded 2 d +:+ " " +:+ padded 2 h +:+ ":" +:+ padded 2 mi +:+ ":" +:+ padded 2 s +:+ " UTC".

(** The two replacements on the ISO text. *)
Lemma replace_iso (date clock : string) : without "T" (chars date) = true -> without "." (chars date) = true -> without "." (chars clock) = true ->
  replace ".000Z" " UTC" (replace "T" " " (date +:+ "T" +:+ clock +:+ ".000Z")) = date +:+ " " +:+ clock +:+ " UTC".
Proof.
  intros H1 H2 H3. unfold replace. rewrite !chars_app. change (chars "T") with (["T"%char] : list ascii).
  rewrite (replace_first_after "T" [] (chars " ") (chars date)) by done. rewrite chars_str, app_assoc, app_assoc.
  pose proof (replace_first_after "." ["0"; "0"; "0"; "Z"]%char (chars " UTC") ((chars date ++ chars " ") ++ chars clock) []) as E.
  rewrite !app_nil_r in E. change (chars ".000Z") with (["."; "0"; "0"; "0"; "Z"]%char). rewrite E by (rewrite !without_app, H2, H3; done).
  rewrite !str_app, !str_chars, !str_assoc. done.
Qed.

(** The explorer's times.  For every time before the year 10000 the text names
    an existing day of the calendar and a time of day, and the number of seconds
    from 1970 to them is the number shown. *)
Theorem explorer_time_text n (Hn : 0 < n < 253402300800) : exists y k len d h mi s,
  formatTime (JNum (of_Z n)) = Ok (clock_text y (Z.of_nat k + 1) (d + 1) h mi s) /\
  1970 <= y <= 9999 /\ month_lengths y !! k = Some len /\ 0 <= d < len /\ 0 <= h < 24 /\ 0 <= mi < 60 /\ 0 <= s < 60 /\
  n = 86400 * (DayFromYear y + total (take k (month_lengths y)) + d) + 3600 * h + 60 * mi + s.
Proof.
  set (day := n / 86400). set (ms := n mod 86400). set (y := YearFromDay day). pose proof (YearFromDay_spec day) as Hy. fold y in Hy.
  destruct (month_day_spec 1 (month_lengths y) (day - DayFromYear y)) as (k & len & d & E & Hk & Hd & Ht); [rewrite total_month_lengths; lia|].
  assert (1970 <= y <= 9999) as Hyear.
  { assert (0 <= day < 2932897) by (unfold day; split; Z.div_mod_to_equations; lia). unfold DayFromYear in Hy. split; Z.div_mod_to_equations; lia. }
  exists y, k, len, d, (ms / 3600), (ms / 60 mod 60), (ms mod 60). split.
  - unfold formatTime. assert (truthy (JNum (of_Z n)) = true) as ->.
    { rewrite of_Z_exact by lia. destruct (norm_int n) as (m & e & -> & He & Hv). destruct m; [lia|done|done]. }
    cbn [negb to_Number]. rewrite to_millis, toISOString_int by lia. cbn [mbind res_bind]. f_equal.
    unfold iso_text. replace (n * 1000 / 86400000) with day by (unfold day; Z.div_mod_to_equations; lia).
    replace ((n * 1000) mod 86400000) with (ms * 1000) by (unfold ms; Z.div_mod_to_equations; lia). fold y. rewrite E.
    unfold year_text. rewrite (proj2 (Z.leb_le 0 y)), (proj2 (Z.leb_le y 9999)) by lia. cbn [andb].
    replace (ms * 1000 / 3600000) with (ms / 3600) by (Z.div_mod_to_equations; lia).
    replace (ms * 1000 / 60000) with (ms / 60) by (Z.div_mod_to_equations; lia). rewrite Z.div_mul, Z.mod_mul by lia.
    replace (1 + Z.of_nat k) with (Z.of_nat k + 1) by lia. unfold clock_text.
    pose proof (replace_iso (padded 4 y +:+ "-" +:+ padded 2 (Z.of_nat k + 1) +:+ "-" +:+ padded 2 (d + 1))
      (padded 2 (ms / 3600) +:+ ":" +:+ padded 2 (ms / 60 mod 60) +:+ ":" +:+ padded 2 (ms mod 60))) as R.
    rewrite !str_assoc in R. apply R; rewrite !chars_app, !without_app, !padded_without by done; done.
  - split; [done|]. split; [done|]. split; [done|]. assert (0 <= ms < 86400) by (apply Z.mod_pos_bound; lia).
    assert (n = 86400 * day + ms) as Hsplit by (apply Z.div_mod; lia).
    repeat split; try (Z.div_mod_to_equations; lia).
Qed.

(** ** Links *)

Lemma split_nonempty sep l cur : split_list sep l cur <> [].
Proof. revert cur. induction l as [|c l IH]; intros cur; cbn; [done|]. by destruct (Ascii.eqb c sep). Qed.

Lemma join_split sep l cur : str_join (str [sep]) (str <$> split_list sep l cur) = str (reverse cur ++ l).
Proof.
  revert cur. induction l as [|c l IH]; intros cur; cbn [split_list].
  - cbn. by rewrite app_nil_r.
  - destruct (Ascii.eqb_spec c sep) as [->|Hne].
    + pose proof (IH []) as E. pose proof (split_nonempty sep l []). destruct (split_list sep l []) as [|p ps]; [done|].
      rewrite fmap_cons in *. cbn [fmap list_fmap str_join] in E |- *. rewrite E. by rewrite !str_app.
    + rewrite IH, reverse_cons, <-app_assoc. done.
Qed.

Lemma strip_hash_slash s : strip_hash ("#/" +:+ s) = s.
Proof. unfold strip_hash. change (chars ("#/" +:+ s)) with ("#"%char :: "/"%char :: chars s). apply str_chars. Qed.

Lemma view_of_kind kind id : without "/" (chars kind) = true -> kind <> "" ->
  let parts := split (strip_hash ("#/" +:+ kind +:+ "/" +:+ id)) "/" in head parts = Some kind /\ str_join "/" (tail parts) = id.
Proof.
  intros Hk Hne. unfold split. rewrite strip_hash_slash, chars_app.
  change (chars ("/" +:+ id)) with ("/"%char :: chars id). rewrite split_list_cut by done. rewrite fmap_cons. cbn [head tail].
  split; [f_equal; apply str_chars|]. etransitivity; [exact (join_split "/" (chars id) [])|apply str_chars].
Qed.

Lemma view_of_href v : v <> VUnknown -> view_of (href v) = v.
Proof.
  intros Hv. destruct v as [|id|id|id| | |]; try (by vm_compute); unfold view_of, href.
  - destruct (view_of_kind "block" id) as [E1 E2]; [done|done|]. change ("block/" +:+ id) with ("block" +:+ "/" +:+ id). by rewrite E1, E2.
  - destruct (view_of_kind "tx" id) as [E1 E2]; [done|done|]. change ("tx/" +:+ id) with ("tx" +:+ "/" +:+ id). by rewrite E1, E2.
  - destruct (view_of_kind "address" id) as [E1 E2]; [done|done|]. change ("address/" +:+ id) with ("address" +:+ "/" +:+ id). by rewrite E1, E2.
Qed.

(** Links and searches reach what they name.  Every link of the pages leads
    back to the page and the identifier it was made for, whatever characters the
    identifier has; and a search sends one request, whose parameter is the text
    searched for. *)
Theorem explorer_links_and_search `{Browser} :
  (forall v, v <> VUnknown -> view_of (href v) = v) /\
  forall input s, trim input <> "" -> exists rq query,
    sent (doSearch input s) = sent s ++ [rq] /\ rq_url rq = API_BASE s +:+ "/api/search?" +:+ query /\
    param_get (query_params query) "q" = Some (trim input).
Proof.
  split; [apply view_of_href|]. intros input s Hne. unfold doSearch.
  rewrite (proj2 (String.eqb_neq _ _)) by done. eexists _, ("q" +:+ "=" +:+ encodeURIComponent (trim input)).
  split; [done|]. split; [done|]. by apply encoded_param.
Qed.

(** ** One load at a time *)

Section Calm.
Context `{Browser}.

(** The results of the requests of [v] when [before] had been sent already. *)
Definition results_of (base : string) (before : list request) (v : view) : list (res js) :=
  (api_all (paths v) (set_sent before (blank base ""))).1.
(** The page those results give. *)
Definition drawn (base : string) (before : list request) (b : bool) (v : view) : string :=
  match v with
  | VUnknown => error_html "Unknown page"
  | _ => app (finish_load b v (results_of base before v) (blank base ""))
  end.

(** The page shows its location, or the failure of a search. *)
Definition shows_location (s : explorer) : Prop :=
  exists b before after, sent s = before ++ after /\ app s = drawn (API_BASE s) before b (view_of (hash s)).
Definition shows_search_error (s : explorer) : Prop :=
  exists before rq after e, sent s = before ++ rq :: after /\ startsWith (rq_url rq) (API_BASE s +:+ "/api/search?q=") = true /\
    search_target (api_result (fetch_reply before rq)) = Throw e /\ app s = error_html (err_message e).

(** Runs in which the user and the timer wait for the load under way. *)
Inductive calm : explorer -> Prop :=
  | calm_open stored h : calm (open stored h)
  | calm_settle s b i : calm s -> calm (step s (Settle b i))
  | calm_event s e : calm s -> pending s = [] -> calm (step s e).

Definition timer_ok (s : explorer) : Prop :=
  intervals s = option_list (homeRefreshTimer s) /\ (is_Some (homeRefreshTimer s) -> view_of (hash s) = VHome).

Inductive settled_or_loading (s : explorer) : Prop :=
  | at_rest : pending s = [] -> shows_location s \/ shows_search_error s -> settled_or_loading s
  | at_load before v : pending s = [Load v (results_of (API_BASE s) before v)] -> view_of (hash s) = v -> v <> VUnknown ->
      homeRefreshTimer s = None -> (exists after, sent s = before ++ after) -> settled_or_loading s
  | at_search before rq : pending s = [Search (api_result (fetch_reply before rq))] -> sent s = before ++ [rq] ->
      startsWith (rq_url rq) (API_BASE s +:+ "/api/search?q=") = true -> shows_location s \/ shows_search_error s -> settled_or_loading s.

Lemma api_all_results ps s s' : API_BASE s = API_BASE s' -> sent s = sent s' -> (api_all ps s).1 = (api_all ps s').1.
Proof.
  revert s s'. induction ps as [|p ps IH]; intros s s' Hb Hs; [done|]. cbn. unfold api. rewrite Hb, Hs.
  pose proof (IH (set_sent (sent s' ++ [{| rq_method := "GET"; rq_url := API_BASE s' +:+ p; rq_auth := None; rq_body := None |}]) s)
    (set_sent (sent s' ++ [{| rq_method := "GET"; rq_url := API_BASE s' +:+ p; rq_auth := None; rq_body := None |}]) s') Hb eq_refl) as E.
  destruct (api_all ps (set_sent _ s)), (api_all ps (set_sent _ s')). cbn in *. by rewrite E.
Qed.

Lemma api_all_state ps s : exists rqs, (api_all ps s).2 = set_sent (sent s ++ rqs) s.
Proof.
  revert s. induction ps as [|p ps IH]; intros s; cbn.
  - exists []. rewrite app_nil_r. by destruct s.
  - unfold api. set (rq := {| rq_method := "GET"; rq_url := _; rq_auth := _; rq_body := _ |}).
    destruct (IH (set_sent (sent s ++ [rq]) s)) as [rqs E]. destruct (api_all ps _) as [rs s2]. cbn [snd] in E |- *. subst s2.
    exists ([rq] ++ rqs). cbn. by rewrite <-(app_assoc (sent s)).
Qed.

Lemma begin_view_state v s : v <> VUnknown -> exists rqs,
  begin_view v s = add_task (Load v (results_of (API_BASE s) (sent s) v)) (set_sent (sent s ++ rqs) (render (loading v) s)).
Proof.
  intros Hv. destruct (api_all_state (paths v) (render (loading v) s)) as [rqs E]. exists rqs.
  assert ((api_all (paths v) (render (loading v) s)).1 = results_of (API_BASE s) (sent s) v) as E1 by (by apply api_all_results).
  destruct v; try done; unfold begin_view; destruct (api_all _ _) as [rs s2]; cbn [fst snd] in *; by subst.
Qed.

Lemma clear_timer_ok s : intervals s = option_list (homeRefreshTimer s) -> clear_timer s = set_homeRefreshTimer None (set_intervals [] s).
Proof.
  intros Hi. unfold clear_timer. destruct (homeRefreshTimer s) as [t|] eqn:E; cbn in Hi.
  - rewrite Hi. rewrite filter_cons_False by (intros Hn; by apply Hn). done.
  - destruct s; cbn in *; by subst.
Qed.

(** Starting a page from rest. *)
Lemma start_calm v s : intervals s = option_list (homeRefreshTimer s) -> pending s = [] -> view_of (hash s) = v ->
  timer_ok (begin_view v (clear_timer s)) /\ settled_or_loading (begin_view v (clear_timer s)).
Proof.
  intros Ht Hp Hv. rewrite clear_timer_ok by done. set (s0 := set_homeRefreshTimer None (set_intervals [] s)).
  destruct (decide (v = VUnknown)) as [->|Hne].
  - split; [split; [done|by intros [? ?]]|]. apply at_rest; [done|]. left. exists true, (sent s), []. split; [by rewrite app_nil_r|].
    unfold drawn. cbn [hash begin_view renderError render set_app s0 set_homeRefreshTimer set_intervals app]. by rewrite Hv.
  - destruct (begin_view_state v s0 Hne) as [rqs ->]. split; [split; [done|by intros [? ?]]|].
    apply (at_load _ (sent s) v); [|done|done|done|by exists rqs]. cbn. by rewrite Hp.
Qed.

Lemma route_view s : route s = begin_view (view_of (hash s)) (clear_timer s).
Proof. unfold route. by destruct (view_of (hash s)). Qed.

Definition calm_ok (s : explorer) : Prop := timer_ok s /\ settled_or_loading s.

Lemma navigate_calm h s : timer_ok s -> pending s = [] -> shows_location s \/ shows_search_error s -> calm_ok (navigate h s).
Proof.
  intros [Hi Hh] Hp Hs. unfold navigate. destruct (String.eqb_spec h (hash s)) as [->|Hne].
  - split; [done|]. by apply at_rest.
  - rewrite route_view. by apply start_calm.
Qed.

Lemma search_calm input s : timer_ok s -> pending s = [] -> shows_location s \/ shows_search_error s -> calm_ok (doSearch input s).
Proof.
  intros Ht Hp Hs. unfold doSearch. destruct (String.eqb _ _); [split; [done|by apply at_rest]|]. unfold api. split; [done|].
  eapply at_search; [cbn; by rewrite Hp|done| |].
  - cbn [rq_url]. rewrite <-!str_assoc. apply startsWith_app.
  - destruct Hs as [(b & before & after & Hsent & Happ)|(before & rq & after & e & Hsent & Hrest)]; [left|right].
    + exists b, before. eexists. split; [cbn; rewrite Hsent, <-app_assoc; done|done].
    + exists before, rq. eexists _, e. split; [cbn; rewrite Hsent, <-app_assoc; done|done].
Qed.

Lemma tick_calm t s : timer_ok s -> pending s = [] -> shows_location s \/ shows_search_error s -> calm_ok (tick t s).
Proof.
  intros [Hi Hh] Hp Hs. unfold tick. destruct (bool_decide _ && _) eqn:E; [|split; [done|by apply at_rest]].
  apply andb_true_iff in E as [_ E]. apply start_calm; [done|done|]. apply orb_true_iff in E as [-> %String.eqb_eq | -> %String.eqb_eq]; by vm_compute.
Qed.

(** A finished load: the page is drawn, and apart from the badge and the timer nothing else changes. *)
Lemma finish_load_spec base before b v s : v <> VUnknown ->
  let s' := finish_load b v (results_of base before v) s in
  app s' = drawn base before b v /\ API_BASE s' = API_BASE s /\ hash s' = hash s /\ sent s' = sent s /\ pending s' = pending s /\
  (intervals s' = intervals s /\ homeRefreshTimer s' = homeRefreshTimer s \/
   v = VHome /\ intervals s' = intervals s ++ [made s] /\ homeRefreshTimer s' = Some (made s)).
Proof.
  intros Hv. destruct v; try done; unfold drawn, results_of; cbn [paths api_all api fst snd finish_load];
    unfold finish_view, finish_home; repeat case_match; cbn; repeat split; auto.
Qed.

Lemma settle_calm b i s : calm_ok s -> calm_ok (settle b i s).
Proof.
  intros [Ht Hs]. unfold settle. pose proof Hs as Hall. destruct Hs as [Hp Hs|before v Hp Hv Hne Htimer [after Hsent]|before rq Hp Hsent Hurl Hs];
    rewrite Hp; destruct i as [|i]; try (by split); cbn [lookup list_lookup delete list_delete].
  - destruct (finish_load_spec (API_BASE s) before b v (set_pending [] s) Hne) as (Happ & Hb & Hh & Hsent' & Hp' & Ht').
    set (s' := finish_load b v _ (set_pending [] s)) in *. cbn in Hb, Hh, Hsent', Hp', Ht'. destruct Ht as [Hi Hhome]. split.
    + destruct Ht' as [[Hi' Ht']|(-> & Hi' & Ht')]; unfold timer_ok; rewrite Hi', Ht', Hh; [done|].
      split; [by rewrite Hi, Htimer|done].
    + apply at_rest; [done|]. left. exists b, before, after. rewrite Hsent', Hb, Hh, Hv. done.
  - unfold finish_search. destruct (search_target _) as [h|e] eqn:E.
    + by apply navigate_calm.
    + split; [done|]. apply at_rest; [done|]. right. exists before, rq, [], e. split; [done|]. split; [done|]. by split.
Qed.

Lemma calm_invariant s : calm s -> calm_ok s.
Proof.
  induction 1 as [stored h|s b i _ IH|s e _ IH Hp].
  - unfold open. rewrite route_view. by apply start_calm.
  - by apply settle_calm.
  - destruct IH as [Ht Hs]. assert (shows_location s \/ shows_search_error s) as Hshows
      by (destruct Hs as [_ ?|? ? Hp' _|? ? Hp' _]; [done|by rewrite Hp in Hp'|by rewrite Hp in Hp']).
    destruct e; [by apply navigate_calm|by apply search_calm|by apply tick_calm|]. apply settle_calm. by split.
Qed.

End Calm.

(** C29: the explorer shows its location.  In every run in which the user and the
    refresh timer wait for the load under way, once nothing is under way the
    page is the one of its location, drawn from the replies to that page's own
    requests, or the error of a search that failed; and at most one refresh
    timer is alive, the one [homeRefreshTimer] holds, and only at the home page. *)
Theorem explorer_shows_location `{Browser} s (Hs : calm s) :
  (pending s = [] -> shows_location s \/ shows_search_error s) /\
  intervals s = option_list (homeRefreshTimer s) /\ (is_Some (homeRefreshTimer s) -> view_of (hash s) = VHome).
Proof.
  destruct (calm_invariant s Hs) as [[Hi Hh] Hl]. split; [|done]. intros Hp.
  destruct Hl as [_ ?|? ? Hp' _|? ? Hp' _]; [done|by rewrite Hp in Hp'|by rewrite Hp in Hp'].
Qed.

(** ** Loads that overlap *)

Lemma clear_timer_same s : let s' := clear_timer s in
  API_BASE s' = API_BASE s /\ hash s' = hash s /\ sent s' = sent s /\ pending s' = pending s /\ made s' = made s.
Proof. unfold clear_timer. by destruct (homeRefreshTimer s). Qed.

Lemma route_begins `{Browser} s : let v := view_of (hash s) in v <> VUnknown ->
  hash (route s) = hash s /\ API_BASE (route s) = API_BASE s /\
  pending (route s) = pending s ++ [Load v (results_of (API_BASE s) (sent s) v)].
Proof.
  intros v Hv. rewrite route_view. fold v. destruct (clear_timer_same s) as (Eb & Eh & Es & Ep & _).
  destruct (begin_view_state v (clear_timer s) Hv) as [rqs ->]. cbn. by rewrite Eb, Eh, Es, Ep.
Qed.

Lemma settle_load `{Browser} b i s base before v : pending s !! i = Some (Load v (results_of base before v)) -> v <> VUnknown ->
  app (settle b i s) = drawn base before b v /\ hash (settle b i s) = hash s /\ pending (settle b i s) = delete i (pending s).
Proof.
  intros Hi Hv. unfold settle. rewrite Hi.
  destruct (finish_load_spec base before b v (set_pending (delete i (pending s)) s) Hv) as (-> & _ & -> & _ & -> & _). done.
Qed.

(** a slow reply puts an old page on the screen.  Nothing ties a reply to the
    location it was requested for: when the user opens a block, moves on to a
    transaction, and the block's reply comes last, the location and the history
    say the transaction while the page shows the block. *)
Theorem explorer_stale_page `{Browser} stored a b (s := foldl step (open stored ("#/block/" +:+ a))
    [Navigate ("#/tx/" +:+ b); Settle false 1; Settle false 0]) :
  view_of (hash s) = VTx b /\ pending s = [] /\ app s = drawn (base_of stored) [] false (VBlock a).
Proof.
  assert (view_of ("#/block/" +:+ a) = VBlock a) as Ha by (by apply (view_of_href (VBlock a))).
  assert (view_of ("#/tx/" +:+ b) = VTx b) as Hb by (by apply (view_of_href (VTx b))).
  destruct (route_begins (blank (base_of stored) ("#/block/" +:+ a))) as (Hh0 & _ & Hp0); cbn [hash blank] in *; rewrite Ha in *; [done|].
  set (s0 := open stored ("#/block/" +:+ a)) in *. fold (open stored ("#/block/" +:+ a)) s0 in Hh0, Hp0.
  destruct (route_begins (set_hash ("#/tx/" +:+ b) s0)) as (Hh1 & _ & Hp1); cbn [hash set_hash] in *; rewrite Hb in *; [done|].
  assert (step s0 (Navigate ("#/tx/" +:+ b)) = route (set_hash ("#/tx/" +:+ b) s0)) as E by (cbn [step]; unfold navigate; by rewrite Hh0).
  unfold s. cbn [foldl]. rewrite E. set (s1 := route _) in *. cbn [pending set_hash] in Hp1. rewrite Hp0 in Hp1.
  destruct (settle_load false 1 s1 (API_BASE s0) (sent s0) (VTx b)) as (_ & Hh2 & Hp2); [by rewrite Hp1|done|]. rewrite Hp1 in Hp2.
  destruct (settle_load false 0 (settle false 1 s1) (base_of stored) [] (VBlock a)) as (Happ & Hh3 & Hp3); [by rewrite Hp2|done|].
  cbn [step]. rewrite Hh3, Hh2, Hh1, Hp3, Hp2. done.
Qed.

(** An interval that is alive and not the one [homeRefreshTimer] holds. *)
Definition leaked (t : nat) (s : explorer) : Prop := t ∈ intervals s /\ homeRefreshTimer s <> Some t /\ (t < made s)%nat.

Lemma leaked_clear t s : leaked t s -> leaked t (clear_timer s).
Proof.
  intros (Hi & Hh & Hm). unfold clear_timer. destruct (homeRefreshTimer s) as [t'|] eqn:E; [|by rewrite <-E in Hh].
  split; [|by split]. apply list_elem_of_filter. split; [|done]. by intros ->.
Qed.

Lemma leaked_begin `{Browser} t v s : leaked t s -> leaked t (begin_view v s).
Proof.
  intros Ht. destruct (decide (v = VUnknown)) as [->|Hne]; [done|]. by destruct (begin_view_state v s Hne) as [rqs ->].
Qed.

Lemma leaked_route `{Browser} t s : leaked t s -> leaked t (route s).
Proof. intros Ht. rewrite route_view. by apply leaked_begin, leaked_clear. Qed.

Lemma leaked_timer t s : leaked t s -> leaked t (set_timer s).
Proof. intros (Hi & Hh & Hm). split; [cbn; apply elem_of_app; by left|]. split; [|cbn; lia]. cbn. intros [= E]. lia. Qed.

Lemma leaked_step `{Browser} t s e : leaked t s -> leaked t (step s e).
Proof.
  assert (forall h s, leaked t s -> leaked t (navigate h s)) as Hnav.
  { intros h s' Ht. unfold navigate. destruct (String.eqb h (hash s')); [done|]. by apply leaked_route. }
  intros Ht. destruct e as [h|input|t'|b i]; cbn [step].
  - by apply Hnav.
  - unfold doSearch. by destruct (String.eqb _ _).
  - unfold tick. destruct (bool_decide _ && _); [|done]. by apply leaked_begin, leaked_clear.
  - unfold settle. destruct (pending s !! i) as [[v rs|r]|]; [| |done].
    + unfold finish_load, finish_view, finish_home. repeat case_match; done || by apply leaked_timer.
    + unfold finish_search. destruct (search_target r); [|done]. by apply Hnav.
Qed.

(** The home page can be drawn from every pair of replies. *)
Definition home_loads `{Browser} (base : string) : Prop := forall before, exists stats supply chain html,
  results_of base before VHome = [Ok stats; Ok supply] /\ get stats "chain" = Ok chain /\ home_html stats supply = Ok html.

Lemma settle_home `{Browser} b i s base before : home_loads base -> pending s !! i = Some (Load VHome (results_of base before VHome)) ->
  intervals (settle b i s) = intervals s ++ [made s] /\ homeRefreshTimer (settle b i s) = Some (made s) /\
  made (settle b i s) = S (made s) /\ pending (settle b i s) = delete i (pending s).
Proof.
  intros Hl Hi. destruct (Hl before) as (stats & supply & chain & html & E & Hc & Hh). unfold settle. rewrite Hi, E.
  cbn [finish_load promise_all finish_home]. by rewrite Hc, Hh.
Qed.

(** An interval that is never cleared.  When the home page is entered twice
    before its replies are in, both loads start an interval and
    [homeRefreshTimer] keeps only the second: the first one is alive after every
    further sequence of events. *)
Theorem explorer_timer_leak `{Browser} stored (s := foldl step (open stored "") [Navigate "#/"; Settle false 0; Settle false 0])
  (Hloads : home_loads (base_of stored)) :
  intervals s = [0%nat; 1%nat] /\ homeRefreshTimer s = Some 1%nat /\ forall es, 0%nat ∈ intervals (foldl step s es).
Proof.
  destruct (route_begins (blank (base_of stored) "")) as (_ & Hb0 & Hp0); [done|]. fold (open stored "") in Hb0, Hp0.
  set (s0 := open stored "") in *. set (s1 := route (set_hash "#/" s0)).
  destruct (route_begins (set_hash "#/" s0)) as (_ & _ & Hp1); [done|]. fold s1 in Hp1. cbn [pending set_hash API_BASE sent] in Hp1.
  rewrite Hp0, Hb0 in Hp1. change (view_of (hash (set_hash "#/" s0))) with VHome in Hp1. change (view_of (hash (blank _ ""))) with VHome in Hp1.
  destruct (settle_home false 0 s1 (base_of stored) [] Hloads) as (Hi2 & _ & Hm2 & Hp2); [by rewrite Hp1|]. rewrite Hp1 in Hp2.
  destruct (settle_home false 0 (settle false 0 s1) (base_of stored) (sent s0) Hloads) as (Hi3 & Hh3 & Hm3 & _); [by rewrite Hp2|].
  assert (s = settle false 0 (settle false 0 s1)) as E by done.
  rewrite Hm2, Hi2 in Hi3. rewrite Hm2 in Hh3, Hm3. change (intervals s1) with (@nil nat) in Hi3. change (made s1) with 0%nat in *.
  rewrite <-E in Hi3, Hh3, Hm3. clearbody s. rewrite Hi3, Hh3. split; [done|]. split; [done|]. intros es.
  assert (leaked 0 s) as Hl by (split; [rewrite Hi3; apply elem_of_cons; by left|]; rewrite Hh3, Hm3; split; [done|lia]).
  clear -Hl. revert s Hl. induction es as [|e es IH]; intros s' Hl; [by destruct Hl|]. cbn [foldl]. apply IH. by apply leaked_step.
Qed.

(** ** Witnesses *)

Lemma explorer_time_text_witness : exists y k len d h mi s,
  formatTime (JNum (of_Z 1700000000)) = Ok (clock_text y (Z.of_nat k + 1) (d + 1) h mi s) /\
  1970 <= y <= 9999 /\ month_lengths y !! k = Some len /\ 0 <= d < len /\ 0 <= h < 24 /\ 0 <= mi < 60 /\ 0 <= s < 60 /\
  1700000000 = 86400 * (DayFromYear y + total (take k (month_lengths y)) + d) + 3600 * h + 60 * mi + s.
Proof. apply (explorer_time_text 1700000000). lia. Defined.

Definition ex_server : Browser := answering
  [("/api/staking-stats", JObj [("current_block_reward_fic", JNum (of_Z 10)); ("annual_emission_fic", JNum (of_Z 5256000));
     ("target_blocks_per_day", JNum (of_Z 1440)); ("note", JStr "measured")]);
   ("/api/stats", JObj [("chain", JStr "main"); ("height", JNum (of_Z 7)); ("difficulty", JNum (of_Z 1)); ("fixed_reward_fils", JStr "1000000000");
     ("total_supply_fils", JStr "7000000000"); ("premine_total_fils", JStr "0"); ("annual_emission_fils", JStr "525600000000000")]);
   ("/api/supply-series", JObj [("points", JArr [])])].

Lemma explorer_shows_location_witness : let s := @step ex_server (@open ex_server None "#/staking") (Settle false 0) in
  pending s = [] /\ (@shows_location ex_server s \/ @shows_search_error ex_server s).
Proof.
  intros s. assert (@calm ex_server s) as Hc by (apply calm_settle, calm_open).
  destruct (@explorer_shows_location ex_server s Hc) as [Hs _]. split; [by vm_compute|]. apply Hs. by vm_compute.
Defined.

Lemma explorer_timer_leak_witness :
  intervals (foldl (@step ex_server) (@open ex_server None "") [Navigate "#/"; Settle false 0; Settle false 0]) = [0%nat; 1%nat].
Proof.
  destruct (@explorer_timer_leak ex_server None) as [E _]; [|exact E].
  intros before. eexists _, _, _, _. split; [vm_compute; reflexivity|]. split; vm_compute; reflexivity.
Defined.

End ExplorerFacts.
